(* ===== verification/_CoqProject ===== *)
-Q . S2P
Prelude.v
GoStrings.v
Errors.v
Encoding.v
GoJSON.v
Sealer.v
Civil.v
Money.v
Tenant.v
Ledger.v
Period.v
Wallet.v
Category.v
Transaction.v
Outbox.v
Webhook.v
Org.v
ApiKey.v
Password.v
Account.v
Sheet.v
World.v
Wp.v
OutboxStore.v
OrgService.v
OrgTheory.v
ApiKeyService.v
ApiKeyTheory.v
ApiKeyProps.v
AccountService.v
OutboxTheory.v
OutboxDrain.v
OutboxProps.v
LedgerService.v
PeriodStore.v
PeriodService.v
PeriodTheory.v
PeriodProps.v
Commit.v
SheetStore.v
SheetMirror.v
SheetSync.v
WalletService.v
CategoryService.v
TxStore.v
TxService.v
SheetService.v
SheetTheory.v
SheetServer.v
SheetJobs.v
SheetProtocol.v
SheetSteps.v
Report.v
Books.v
TxTheory.v
BooksOps.v
CategoryTheory.v
LedgerTheory.v
Adapters.v
Balance.v
SheetFacts.v
ReportTheory.v
Edits.v
System.v
LedgerProps.v
TxProps.v
EditProps.v
Listing.v
ReportProps.v
SheetRun.v
SheetProps.v
SheetLinkProps.v
SheetMarks.v
WebhookText.v
WebhookStore.v
WebhookService.v
WebhookSafety.v
WebhookTheory.v
WebhookQueue.v
WebhookProps.v
