(* ===== verification/Prelude.v ===== *)
(** * yasaku: a verification library for the personal-finance core

    yasaku is a multi-tenant personal-finance server in Go. Its core keeps the
    money of a project: wallets, categories, budget periods and transactions in
    one SQLite (or Postgres) database, read back by reports, shown on a
    spreadsheet by a mirror, announced by webhooks over a durable outbox, and
    reached through API keys that organisations and projects confine. This library
    models that core from the sources under [src/] and proves what makes it
    correct. RPC and web handlers, the CLI and the MCP server call the services
    modelled here.

    ** The program's parts and the files that model them

    Shared ground
    - [Prelude]: outcomes, the state-and-outcome monad, 64-bit integers, sums,
      sorting; [GoStrings]: the functions of [strings], [utf8] and [strconv] the
      code calls; [Errors]: the typed errors of every package, their chains and
      their wire codes ([internal/apperror], [*/errors.go]).
    - [Encoding]: hex, base64, SHA-256 and HMAC; [GoJSON]: the text
      [encoding/json] prints and reads; [Sealer] ([internal/platform/sealer]).
    - [Civil] ([civil/date.go]) and [Money] ([money/*.go]): dates and amounts.
    - [Tenant] ([internal/platform/tenant], [session]): the request context.
    - [World]: the database as one map per table, and the oracle ([Env]) a run
      draws ids, clock readings, driver faults and other sessions' commits from;
      transactions ([internal/platform/db/uow.go] and the stores' [txAcquire]).
      Its logics: [preserves] (a relation kept under interference), [rg]
      (rely/guarantee), [reads] (no write, a fact of the result), [runs] (the
      effect of a success) and [commits] (all or nothing). [Wp]: a
      weakest-precondition calculus that also says how a run ends.

    The ledger, one aggregate, store and service per package under [internal/]
    - ledger settings: [Ledger], [LedgerService];
    - periods: [Period], [PeriodStore], [PeriodService] (with the ledger as its
      [SettingsReader]); [PeriodTheory] states the chain invariant and
      [PeriodProps] the module's properties;
    - wallets and categories: [Wallet], [WalletService] (with the open
      workflow), [Category], [CategoryService]; [Commit] is the unit of work
      with its mirror ([mirror.go]) that they and the transactions share;
    - transactions: [Transaction], [TxStore] (with LIKE and the balance sums),
      [TxService] (over the ports [WalletReader], [CategoryReader] and
      [PeriodResolver], classes with their laws as a second class);
    - [Adapters] ([internal/boot/adapters.go]): the services as those ports, and
      the proofs of the laws;
    - [Books] and [TxTheory], [BooksOps], [CategoryTheory], [LedgerTheory]: the
      integrity invariant of the database and what each operation does to it;
      [System]: every operation of the five services in any order;
      [Balance], [Edits], [Listing]: balances, edits and listings;
    - [LedgerProps], [TxProps], [EditProps]: their properties.

    The reports ([internal/report]): [Report] (values, figures, the SQL queries as
    functions of the tables, the reader, the service, and the adapter that turns
    a summary into a period's snapshot), [ReportTheory] (reads, the settings and
    snapshot ports' laws, sums of effects), [ReportProps].

    The outbox ([internal/platform/outbox]): [Outbox] (entries, retry schedule),
    [OutboxStore] (the SQLite store and the dispatch worker, deliveries a port),
    [OutboxTheory] (the entry machine, the steps of every statement, what a settle
    answers and when a lease excludes), [OutboxDrain] (one sweep of the worker and
    several), [OutboxProps].

    The sheet mirror ([internal/opensheetsync], [opensheet/], and its wiring in
    [internal/boot/opensheet_yasaku.go] and [submit_yasaku.go])
    - [Sheet]: refs and the order they are locked in, the link, state rows, the
      payload of a job; [SheetStore]: marks, claims, settles, the link's table;
    - [SheetMirror]: marks inside a write's unit of work and the kick after it;
      [SheetSync]: an entity as a sheet row, the job and the sorting of opensheet's
      answers; [SheetService]: the source of rows over the domain services, and
      Test, Save, the switch, backfill, removal; [SheetJobs]: the submitter,
      published or inline;
    - [SheetTheory]: a weakest-precondition calculus over the mirror's tables and
      what is sent; [SheetServer]: what opensheet promises, a class with its laws,
      and a server that keeps them; [SheetProtocol], [SheetSteps]: the mirror as a
      transition system; [SheetFacts], [SheetRun]: what the code's own job does;
      [SheetProps], [SheetLinkProps], [SheetMarks]: its properties.

    The webhooks ([internal/webhook], [internal/platform/events]): [Webhook]
    (endpoints, the catalog of events, envelopes, signatures), [WebhookStore],
    [WebhookService] (the service, which queues an outbox entry per subscribed
    endpoint, and the deliverer, an instance of the outbox's port);
    [WebhookText] (what is kept of a receiver's answer), [WebhookSafety] (the tables
    over any session), [WebhookTheory] (a delivery as a plan and an exchange),
    [WebhookQueue] (what an event queues), [WebhookProps].

    Access
    - organisations and projects ([internal/org], [internal/project], [slug/]):
      [Org] (aggregates, slugs, who may remove whom), [OrgService] (stores,
      services, the membership gate other modules ask), [OrgTheory] (a walk over the
      services for any relation their statements step within);
    - API keys ([internal/apikey], [internal/platform/authn]): [ApiKey] (scopes, the
      key, a principal's reach), [ApiKeyService] (store, service, authenticator,
      usage worker), [ApiKeyTheory], [ApiKeyProps], with the organisations wired in
      as the keys' port.

    Operations keep the source's names, with the package as a prefix where two
    packages share one ([wallet_Rename], [period_Save], [tx_List]).

    ** What the theorems show

    - Invariants under interference: any session of operations, whatever faults
      and whatever other sessions commit by the same rules, keeps every stored
      transaction consistent with what it names, active names unique, periods a
      chain, and closed periods with their transactions untouched
      ([ledger_session_sound], [closed_periods_frozen], [session_keeps_chain]);
      with the mirror wired as boot wires it too ([mirrored_session_sound]).
    - Exact effects: each write run alone does exactly what it says or nothing
      ([Close_atomic], [Record_atomic], [Revise_atomic], [Adjust_reaches_target],
      [OpenWorkflow_atomic], the edits, deletes and settings).
    - Balances and reports: the SQL sums are the sums of transaction effects; the
      live balances of the reports agree with the transactions service; a
      period's summary, its breakdowns and the snapshot a close stores are exact;
      closing balances carry over to the next period.
    - The outbox: the store and worker refine an abstract entry machine; rows stay
      well formed; delivery is final; settles answer exactly what the row says;
      leases make claims exclusive; every entry settles after [MaxAttempts]
      drains (liveness); the retry schedule is bounded.
    - The mirror: in every interleaving of writes, backfills and jobs a row without
      a pending mark is on the sheet as the database has it ([mirror_agrees]), and
      every row can be brought there ([mirror_drains]); two jobs never hold one row
      ([claim_exclusive]); the code's job brings every due row it names to the
      sheet and touches no other ([job_mirrors]); a mark makes exactly the rows it
      reaches due ([Mark_exact]); locks are taken in one order whoever marks
      ([LockOrder_canonical]); answers are sorted by one table ([refusal_sorted])
      and a link's outcomes recorded exactly ([SaveOutcome_exact]).
    - Webhooks: a delivery sends exactly one signed request to the entry's own
      endpoint, or none ([deliver_exact]); an event reaches its subscribers through
      the outbox ([event_reaches_subscribers]); sessions of other projects change
      nothing of an endpoint ([webhook_isolated]); the tables stay well formed
      ([webhooks_well_formed]); a rotation that succeeds replaced what it read
      ([rotation_exact]).
    - Access: with no fault and no other session, a credential is admitted exactly
      when the tables grant it ([Authorize_exact]); what a mint hands out
      authenticates ([minted_authenticates]); a removed member's tokens never work
      again ([removal_ends_access]); other organisations' sessions never change an
      organisation's keys ([keys_confined]); a removal keeps an owner
      ([removal_keeps_owner]), run alone.
    - Listings: the pages end and hold every row once; LIKE is a substring test.
    - Round trips and bounds: dates, amounts, local midnights, cycles, JSON.
    - Stale writes and texts the code gets wrong, each shown by a run:
      [Rename_undoes_close], [Rename_revives_deleted_wallet],
      [retarget_strands_row], [truncate_splits_rune],
      [ParseMajor_fraction_scaled], [stale_claim_settles_after_requeue],
      [Create_exceeds_limit], [Update_revives_deleted_endpoint],
      [grant_revives_revoked], [owners_remove_each_other],
      [owner_fault_unauthorized].

    ** How the model reads the code

    - Integers: int64 as [Z] with [wrap64] written where Go wraps; SQLite's SUM
      fails past 64 bits ([sql_sum]). A float64 share is a [SpecFloat] double of
      precision 53 and exponent bound 1024.
    - Time: an instant is its nanoseconds since 1970 in UTC; the stores' text
      columns are fixed-width UTC texts whose order is that order. Dates are
      compared by day number, the order of their texts ([Date_text_order]). A
      [Location] is any zone lookup; a time zone database is a class parameter.
    - UUIDs are numbers; their text order is numeric order. A generated id is any
      the oracle gives; [fresh_ids] says it is not in use, the documented
      behaviour of UUIDv7.
    - Interference: [env_other] may change the database whenever a transaction
      begins, and before each statement that commits by itself ([env_sheet] the
      mirror's tables); inside a unit of work nothing else writes, as SQLite's
      immediate transactions give. [quiet] assumes no other session. Driver faults
      are possible at every driver call; errors of [RowsAffected] are not told
      apart from it.
    - Errors are values with their chains; state written before an error stays,
      a unit of work takes it back. A snapshot's JSON is the snapshot.
    - Constraints of [schema/] (keys, partial unique indexes, foreign keys,
      checks) are part of the statements; a scan's order is the map's order, and
      rows an ORDER BY ties keep it.
    - The worker's errgroup runs its deliveries one after the other, other
      sessions acting between their statements; its random draw is taken modulo
      the bound. Logging and tracing leave no trace in the state.
    - Outside code is a parameter, with what the code relies on as named laws: the
      opensheet server ([ServerLaws]), webhook receivers ([Receivers]), the AEAD
      cipher ([AEAD]), the URL and UUID parsers ([URLs], [UUIDParser]), random
      bytes ([SecretBytes], [SlugDraws]), and the texts of library errors
      ([ErrorTexts], [JSONErrors]). SHA-256 is computed. A call to opensheet
      answers from the calls sent before it.

    ** Fuel and bounds

    Rune decoding and the printing of numbers run on fuel equal to the text's
    length or the digits of 64 bits, with lemmas that it is enough. Paging
    ([Listing]) follows cursors for as many pages as there are rows, and
    [pages_complete] proves that the walk has ended by then. The worker's sweep
    runs for any number of ticks; [MaxAttempts] drains are proved enough. A
    date's day number is inverted for every day, not up to a bound. A sync job
    makes the code's own three passes, each over the rows it names; a chunked
    payload runs on its length. JSON is parsed on fuel of the text's length with
    the decoder's own limit of nesting.

    ** Not modelled, and why

    - The Postgres stores: the same contracts over a second engine, with
      row-level security the server enforces; only shared helpers are modelled.
    - Row decoding from text columns, and the opaque text of list cursors.
    - Of the mirror: the depth bound and failure reports of inline jobs, and the
      client's row queries, which the mirror does not use. The transition system
      leaves out retargeting a link and requests that land after their lease; a
      renamed period or a changed time zone marks no transaction row, and the code
      never clears a row's deleted flag.
    - Of access: the chain of authenticators, the interceptor and the session
      stores; users, invites and onboarding; the OAuth flows, whose checks are
      library calls.
    - RPC and web handlers, generated code and templates, CLI and MCP servers,
      configuration, telemetry and mail: glue and pure I/O. *)
From Stdlib Require Import ZArith Lia String Ascii List.
From stdpp Require Import base gmap sets list strings sorting.

(** ** Outcomes of a call

    A Go call of the services returns a value, returns an [error], or panics. *)
Inductive Outcome (E A : Type) : Type :=
| Ok (a : A)
| Err (e : E)
| Panic (msg : string).
Arguments Ok {E A} a.
Arguments Err {E A} e.
Arguments Panic {E A} msg.

(** ** The state-and-outcome monad

    State written before an error stays written, as in Go; only a unit of work
    takes it back. *)
Definition ST (S E A : Type) : Type := S -> Outcome E A * S.

Section Monad.
Context {S E : Type}.

Definition st_ret {A} (a : A) : ST S E A := fun s => (Ok a, s).
Definition st_err {A} (e : E) : ST S E A := fun s => (Err e, s).
Definition st_panic {A} (m : string) : ST S E A := fun s => (Panic m, s).
Definition st_bind {A B} (m : ST S E A) (k : A -> ST S E B) : ST S E B :=
  fun s => match m s with
           | (Ok a, s') => k a s'
           | (Err e, s') => (Err e, s')
           | (Panic p, s') => (Panic p, s')
           end.
Definition st_get : ST S E S := fun s => (Ok s, s).
Definition st_put (s : S) : ST S E unit := fun _ => (Ok tt, s).
Definition st_of {A} (o : Outcome E A) : ST S E A := fun s => (o, s).
(** A pure Go function's [value, error] result. *)
Definition st_sum {A} (r : E + A) : ST S E A :=
  match r with inl e => st_err e | inr a => st_ret a end.
End Monad.

(** [st_try m]: the outcome as a value; Go's [x, err := m] before [err] is tested. *)
Definition st_try {S E E' A} (m : ST S E A) : ST S E' (E + A) :=
  fun s => match m s with
           | (Ok a, s') => (Ok (inr a), s')
           | (Err e, s') => (Ok (inl e), s')
           | (Panic p, s') => (Panic p, s')
           end.

(** [st_maperr f m]: [m] with its error seen through [f]. *)
Definition st_maperr {S E E' A} (f : E -> E') (m : ST S E A) : ST S E' A :=
  fun s => match m s with
           | (Ok a, s') => (Ok a, s')
           | (Err e, s') => (Err (f e), s')
           | (Panic p, s') => (Panic p, s')
           end.

Declare Scope yasaku_scope.
Delimit Scope yasaku_scope with yasaku.
Notation "'let*' x := m 'in' k" := (st_bind m (fun x => k))
  (at level 200, x name, m at level 100, k at level 200, right associativity) : yasaku_scope.
Notation "'let*' ' p := m 'in' k" := (st_bind m (fun x => match x with p => k end))
  (at level 200, p pattern, m at level 100, k at level 200, right associativity) : yasaku_scope.
Notation "m ;;; k" := (st_bind m (fun _ => k))
  (at level 199, right associativity) : yasaku_scope.
Open Scope yasaku_scope.

(** ** Hoare triples

    [triple P m Q]: from a state in [P], [m] ends in a state and outcome in [Q]. *)
Definition triple {S E A} (P : S -> Prop) (m : ST S E A)
    (Q : Outcome E A -> S -> Prop) : Prop :=
  forall s, P s -> Q (fst (m s)) (snd (m s)).

(** [preserves R m]: every run of [m] relates its first state to its last by [R]. *)
Definition preserves {S E A} (R : S -> S -> Prop) (m : ST S E A) : Prop :=
  forall s, R s (snd (m s)).

Section Hoare.
Context {S E : Type}.

Lemma triple_conseq {A} (P P' : S -> Prop) (m : ST S E A) (Q Q' : Outcome E A -> S -> Prop) :
  triple P m Q -> (forall s, P' s -> P s) -> (forall o s, Q o s -> Q' o s) -> triple P' m Q'.
Proof. unfold triple; intuition. Qed.

Lemma triple_ret {A} (a : A) (Q : Outcome E A -> S -> Prop) :
  triple (fun s => Q (Ok a) s) (st_ret a) Q.
Proof. unfold triple; auto. Qed.

Lemma triple_bind {A B} (P : S -> Prop) (m : ST S E A) (k : A -> ST S E B)
    (R : A -> S -> Prop) (Q : Outcome E B -> S -> Prop) :
  triple P m (fun o s => match o with
                         | Ok a => R a s | Err e => Q (Err e) s | Panic p => Q (Panic p) s
                         end) ->
  (forall a, triple (R a) (k a) Q) ->
  triple P (st_bind m k) Q.
Proof.
  unfold triple, st_bind; intros Hm Hk s HP. specialize (Hm s HP).
  destruct (m s) as [[a|e|p] s']; simpl in *; [exact (Hk a s' Hm) | exact Hm | exact Hm].
Qed.

Variable R : S -> S -> Prop.
Context `{!PreOrder R}.

Lemma preserves_ret {A} (a : A) : preserves R (@st_ret S E A a).
Proof. intros s; reflexivity. Qed.
Lemma preserves_err {A} (e : E) : preserves R (@st_err S E A e).
Proof. intros s; reflexivity. Qed.
Lemma preserves_panic {A} p : preserves R (@st_panic S E A p).
Proof. intros s; reflexivity. Qed.
Lemma preserves_of {A} (o : Outcome E A) : preserves R (@st_of S E A o).
Proof. intros s; reflexivity. Qed.
Lemma preserves_sum {A} (r : E + A) : preserves R (@st_sum S E A r).
Proof. destruct r; intros s; reflexivity. Qed.
Lemma preserves_get : preserves R (@st_get S E).
Proof. intros s; reflexivity. Qed.

Lemma preserves_bind {A B} (m : ST S E A) (k : A -> ST S E B) :
  preserves R m -> (forall a, preserves R (k a)) -> preserves R (st_bind m k).
Proof.
  unfold preserves, st_bind; intros Hm Hk s. specialize (Hm s).
  destruct (m s) as [[a|e|p] s'] eqn:Hs; simpl in *; auto.
  etransitivity; [exact Hm | apply Hk].
Qed.

Lemma preserves_try {E' A} (m : ST S E A) : preserves R m -> preserves R (st_try (E':=E') m).
Proof.
  unfold preserves, st_try; intros Hm s. specialize (Hm s).
  destruct (m s) as [[a|e|p] s']; simpl in *; auto.
Qed.

Lemma preserves_maperr {E' A} (f : E -> E') (m : ST S E A) :
  preserves R m -> preserves R (st_maperr f m).
Proof.
  unfold preserves, st_maperr; intros Hm s. specialize (Hm s).
  destruct (m s) as [[a|e|p] s']; simpl in *; auto.
Qed.
End Hoare.

Create HintDb pres.
#[export] Hint Resolve preserves_ret preserves_err preserves_panic preserves_of
  preserves_get preserves_sum preserves_bind preserves_try preserves_maperr : pres.

(** [pres_step] walks through a program, leaving its primitive calls. *)
Ltac pres_step :=
  match goal with
  | |- forall _, _ => intro
  | |- preserves _ (st_bind _ _) => apply preserves_bind
  | |- preserves _ (st_try _) => apply preserves_try
  | |- preserves _ (st_maperr _ _) => apply preserves_maperr
  | |- preserves _ (match ?x with _ => _ end) => destruct x
  | |- preserves _ (let _ := _ in _) => cbv zeta
  | |- preserves _ _ => solve [eauto with pres]
  end.
Ltac pres_auto := repeat pres_step.

(** [inv_ok H] inverts an equation whose left side is a run of a bind chain that ended in [Ok]. *)
Lemma bind_ok_inv {S E A B} (m : ST S E A) (k : A -> ST S E B) s b s' :
  st_bind m k s = (Ok b, s') -> exists a s1, m s = (Ok a, s1) /\ k a s1 = (Ok b, s').
Proof.
  unfold st_bind. destruct (m s) as [[a|e|p] s1]; intros H; try discriminate. eauto.
Qed.

(** ** Machine integers: Go's [int64] arithmetic wraps modulo [2^64]. *)
Definition min_int64 : Z := (- 2 ^ 63)%Z.
Definition max_int64 : Z := (2 ^ 63 - 1)%Z.
Definition in_int64 (z : Z) : Prop := (min_int64 <= z <= max_int64)%Z.
Definition in_int64b (z : Z) : bool := ((min_int64 <=? z) && (z <=? max_int64))%Z%bool.
Definition wrap64 (z : Z) : Z := ((z + 2 ^ 63) mod 2 ^ 64 - 2 ^ 63)%Z.

Lemma in_int64b_spec z : in_int64b z = true <-> in_int64 z.
Proof. unfold in_int64b, in_int64. rewrite andb_true_iff, !Z.leb_le. tauto. Qed.

Lemma wrap64_id z : in_int64 z -> wrap64 z = z.
Proof.
  unfold in_int64, min_int64, max_int64, wrap64. intros H.
  rewrite Z.mod_small; lia.
Qed.

Lemma wrap64_range z : in_int64 (wrap64 z).
Proof.
  unfold in_int64, min_int64, max_int64, wrap64.
  pose proof (Z.mod_pos_bound (z + 2 ^ 63) (2 ^ 64)). lia.
Qed.

Lemma wrap64_eqm z : (wrap64 z mod 2 ^ 64 = z mod 2 ^ 64)%Z.
Proof.
  unfold wrap64. rewrite Zminus_mod, Z.mod_mod by lia.
  rewrite <- Zminus_mod. f_equal. lia.
Qed.

Lemma wrap64_cong a b : (a mod 2 ^ 64 = b mod 2 ^ 64)%Z -> wrap64 a = wrap64 b.
Proof.
  unfold wrap64. intros H. f_equal.
  rewrite (Zplus_mod a), (Zplus_mod b), H. reflexivity.
Qed.

(** Sums of a list of integers. *)
Definition sumZ (l : list Z) : Z := fold_right Z.add 0%Z l.

Lemma sumZ_app l1 l2 : sumZ (l1 ++ l2) = (sumZ l1 + sumZ l2)%Z.
Proof. induction l1; simpl; lia. Qed.

Lemma sumZ_perm l1 l2 : l1 ≡ₚ l2 -> sumZ l1 = sumZ l2.
Proof. induction 1; simpl; lia. Qed.

(** Filtering a list by a boolean. *)
Lemma filter_none {A} (p : A -> bool) l : (forall x, In x l -> p x = false) -> List.filter p l = [].
Proof.
  induction l as [|x l IH]; cbn; [reflexivity|]. intros Hp. rewrite (Hp x) by auto. apply IH. auto.
Qed.
Lemma filter_perm {A} (p : A -> bool) l l' : l ≡ₚ l' -> List.filter p l ≡ₚ List.filter p l'.
Proof.
  induction 1; cbn; repeat match goal with |- context [if ?b then _ else _] => destruct b end; eauto.
  - constructor.
  - etransitivity; eauto.
Qed.
Lemma find_filter {A} (p : A -> bool) l : List.find p l = head (List.filter p l).
Proof. induction l as [|x l IH]; cbn; [reflexivity|]. destruct (p x); [reflexivity | exact IH]. Qed.

(** ** Sorting by a boolean order *)
Section SortBy.
Context {A : Type} (le : A -> A -> bool).

Fixpoint insert_by (x : A) (l : list A) : list A :=
  match l with
  | [] => [x]
  | y :: l' => if le x y then x :: l else y :: insert_by x l'
  end.
Definition sort_by (l : list A) : list A := fold_right insert_by [] l.

Lemma insert_by_perm x l : insert_by x l ≡ₚ x :: l.
Proof.
  induction l as [|y l IH]; simpl; auto. destruct (le x y); auto.
  rewrite IH. apply Permutation_swap.
Qed.
Lemma sort_by_perm l : sort_by l ≡ₚ l.
Proof. induction l; simpl; auto. rewrite insert_by_perm, IHl. reflexivity. Qed.
Lemma In_sort_by x l : In x (sort_by l) <-> In x l.
Proof.
  split; apply Permutation_in; [|symmetry]; apply sort_by_perm.
Qed.

Hypothesis le_total : forall x y, le x y = true \/ le y x = true.
Hypothesis le_trans : forall x y z, le x y = true -> le y z = true -> le x z = true.

Lemma insert_by_sorted x l :
  StronglySorted (fun a b => le a b = true) l -> StronglySorted (fun a b => le a b = true) (insert_by x l).
Proof.
  induction 1 as [|y l Hl IH Hy]; simpl; [repeat constructor|].
  destruct (le x y) eqn:E.
  - constructor; [constructor; auto|]. constructor; auto.
    eapply Forall_impl; [exact Hy|]. intros z Hz. eapply le_trans; eauto.
  - constructor; [exact IH|]. rewrite insert_by_perm. constructor; [|exact Hy].
    destruct (le_total x y); congruence.
Qed.
Lemma sort_by_sorted l : StronglySorted (fun a b => le a b = true) (sort_by l).
Proof. induction l; simpl; [constructor | apply insert_by_sorted; auto]. Qed.
End SortBy.
