(* ===== verification/GoStrings.v ===== *)
(** * Go strings

    The functions of Go's [strings], [unicode/utf8] and [strconv] that the
    modelled code calls, on byte strings. Case mapping of runes above 127 is
    the Unicode table of the Go distribution: a class parameter. *)
From Stdlib Require Import ZArith Lia String Ascii List.
From stdpp Require Import base list strings.
From S2P Require Import Prelude.
Local Open Scope string_scope.
#[global] Arguments String.append : simpl nomatch.

(** ** UTF-8 *)
Definition byte_of (c : ascii) : N := N_of_ascii c.
Definition in_range (lo hi : N) (c : ascii) : bool :=
  ((lo <=? byte_of c) && (byte_of c <=? hi))%N%bool.
Definition RuneError : N := 65533%N.

Definition cont (c : ascii) : N := N.land (byte_of c) 63.

(** The first rune of a string, its encoded bytes, and the rest
    ([utf8.DecodeRuneInString]); an invalid byte is [RuneError] of width one. *)
Definition decode_rune (s : string) : option (N * string * string) :=
  match s with
  | EmptyString => None
  | String a r0 =>
    let b := byte_of a in
    let bad := Some (RuneError, String a "", r0) in
    if (b <? 128)%N then Some (b, String a "", r0) else
    match r0 with
    | String b1 r1 =>
      if in_range 194 223 a && in_range 128 191 b1
      then Some (N.lor (N.shiftl (N.land b 31) 6) (cont b1), String a (String b1 ""), r1) else
      match r1 with
      | String b2 r2 =>
        let lo := if (b =? 224)%N then 160%N else 128%N in
        let hi := if (b =? 237)%N then 159%N else 191%N in
        if in_range 224 239 a && in_range lo hi b1 && in_range 128 191 b2
        then Some (N.lor (N.shiftl (N.land b 15) 12) (N.lor (N.shiftl (cont b1) 6) (cont b2)),
                   String a (String b1 (String b2 "")), r2) else
        match r2 with
        | String b3 r3 =>
          let lo := if (b =? 240)%N then 144%N else 128%N in
          let hi := if (b =? 244)%N then 143%N else 191%N in
          if in_range 240 244 a && in_range lo hi b1 && in_range 128 191 b2 && in_range 128 191 b3
          then Some (N.lor (N.shiftl (N.land b 7) 18)
                       (N.lor (N.shiftl (cont b1) 12) (N.lor (N.shiftl (cont b2) 6) (cont b3))),
                     String a (String b1 (String b2 (String b3 ""))), r3)
          else bad
        | EmptyString => bad
        end
      | EmptyString => bad
      end
    | EmptyString => bad
    end
  end.

Fixpoint runes_fuel (n : nat) (s : string) : list (N * string) :=
  match n with
  | O => []
  | S n' => match decode_rune s with
            | None => []
            | Some (r, enc, rest) => (r, enc) :: runes_fuel n' rest
            end
  end.

(** The runes of a string with their bytes; every step consumes a byte, so the
    length of the string is fuel enough. *)
Definition runes (s : string) : list (N * string) := runes_fuel (String.length s) s.

(** [utf8.RuneCountInString]. *)
Definition RuneCountInString (s : string) : Z := Z.of_nat (List.length (runes s)).

Definition unrunes (l : list (N * string)) : string := String.concat "" (map snd l).

(** An invalid byte, as [decode_rune] reports it. *)
Definition bad_rune (p : N * string) : bool := N.eqb (fst p) RuneError && Nat.eqb (String.length (snd p)) 1.
(** [strings.ToValidUTF8] with an empty replacement, and [utf8.ValidString]. *)
Definition ToValidUTF8 (s : string) : string := unrunes (filter (fun p => bad_rune p = false) (runes s)).
Definition ValidString (s : string) : bool := forallb (fun p => negb (bad_rune p)) (runes s).

Definition byte_chr (n : N) : string := String (ascii_of_N n) "".
(** [utf8.EncodeRune]. *)
Definition encode_rune (r : N) : string :=
  if (r <? 128)%N then byte_chr r else
  if (r <? 2048)%N then byte_chr (N.lor 192 (N.shiftr r 6)) ++ byte_chr (N.lor 128 (N.land r 63)) else
  if (r <? 65536)%N then
    byte_chr (N.lor 224 (N.shiftr r 12)) ++ byte_chr (N.lor 128 (N.land (N.shiftr r 6) 63))
      ++ byte_chr (N.lor 128 (N.land r 63))
  else byte_chr (N.lor 240 (N.shiftr r 18)) ++ byte_chr (N.lor 128 (N.land (N.shiftr r 12) 63))
      ++ byte_chr (N.lor 128 (N.land (N.shiftr r 6) 63)) ++ byte_chr (N.lor 128 (N.land r 63)).

(** ** Character classes *)
Definition IsSpace (r : N) : bool :=
  existsb (N.eqb r) [9; 10; 11; 12; 13; 32; 133; 160; 5760; 8232; 8233; 8239; 8287; 12288]%N
  || ((8192 <=? r) && (r <=? 8202))%N%bool.

(** The Unicode case tables above ASCII. *)
Class Unicode := {
  unicode_lower : N -> N;
  unicode_upper : N -> N;
}.

(** [unicode.ToLower] and [unicode.ToUpper]. *)
Definition ToLowerRune `{Unicode} (r : N) : N :=
  if (r <? 128)%N then (if ((65 <=? r) && (r <=? 90))%N%bool then r + 32 else r)%N
  else unicode_lower r.
Definition ToUpperRune `{Unicode} (r : N) : N :=
  if (r <? 128)%N then (if ((97 <=? r) && (r <=? 122))%N%bool then r - 32 else r)%N
  else unicode_upper r.

Definition map_runes (f : N -> N) (s : string) : string :=
  String.concat "" (map (fun p => encode_rune (f (fst p))) (runes s)).
Definition ToLower `{Unicode} (s : string) : string := map_runes ToLowerRune s.
Definition ToUpper `{Unicode} (s : string) : string := map_runes ToUpperRune s.

(** ** Trimming and splitting *)
Fixpoint drop_while {A} (f : A -> bool) (l : list A) : list A :=
  match l with
  | [] => []
  | x :: l' => if f x then drop_while f l' else l
  end.

(** [strings.TrimSpace]. *)
Definition TrimSpace (s : string) : string :=
  let f := fun p : N * string => IsSpace (fst p) in
  unrunes (rev (drop_while f (rev (drop_while f (runes s))))).

Fixpoint fields_of (f : N -> bool) (l : list (N * string)) (cur : list (N * string)) : list string :=
  match l with
  | [] => match cur with [] => [] | _ => [unrunes (rev cur)] end
  | p :: l' => if f (fst p)
               then match cur with
                    | [] => fields_of f l' []
                    | _ => unrunes (rev cur) :: fields_of f l' []
                    end
               else fields_of f l' (p :: cur)
  end.
(** [strings.FieldsFunc] and [strings.Fields]. *)
Definition FieldsFunc (s : string) (f : N -> bool) : list string := fields_of f (runes s) [].
Definition Fields (s : string) : list string := FieldsFunc s IsSpace.
Definition Join (l : list string) (sep : string) : string := String.concat sep l.

Definition HasPrefix (s p : string) : bool := String.prefix p s.
Fixpoint drop_str (n : nat) (s : string) : string :=
  match n, s with
  | O, _ => s
  | S n', String _ r => drop_str n' r
  | S _, EmptyString => EmptyString
  end.
Definition TrimPrefix (s p : string) : string :=
  if HasPrefix s p then drop_str (String.length p) s else s.

(** [strings.Contains]. *)
Fixpoint Contains (s sub : string) : bool :=
  String.prefix sub s || match s with EmptyString => false | String _ r => Contains r sub end.

(** [strings.ReplaceAll s c ""] for the one-byte strings in [cs]. *)
Fixpoint remove_chars (cs : list ascii) (s : string) : string :=
  match s with
  | EmptyString => EmptyString
  | String c r => if existsb (Ascii.eqb c) cs then remove_chars cs r else String c (remove_chars cs r)
  end.

(** [strings.Repeat "0" n]. *)
Fixpoint zeros (n : nat) : string :=
  match n with O => "" | S n' => String "0" (zeros n') end.

(** ** Decimal numbers *)
Definition is_digit (c : ascii) : bool := in_range 48 57 c.
Definition digit_val (c : ascii) : Z := (Z.of_N (byte_of c) - 48)%Z.
Definition digit_chr (d : Z) : ascii := ascii_of_N (Z.to_N (d + 48)).

Fixpoint all_digits (s : string) : bool :=
  match s with EmptyString => true | String c r => is_digit c && all_digits r end.

Fixpoint parse_digits (acc : Z) (s : string) : Z :=
  match s with
  | EmptyString => acc
  | String c r => parse_digits (acc * 10 + digit_val c)%Z r
  end.

(** The [n] low decimal digits of [z], most significant first. *)
Fixpoint digits_n (n : nat) (z : Z) : string :=
  match n with
  | O => ""
  | S n' => digits_n n' (z / 10) ++ String (digit_chr (z mod 10)) ""
  end.

Fixpoint num_digits (fuel : nat) (z : Z) : nat :=
  match fuel with
  | O => 1
  | S f => if (z <? 10)%Z then 1 else S (num_digits f (z / 10))
  end.

(** [strconv.FormatInt z 10] for a 64-bit integer: twenty digits are enough. *)
Definition FormatInt (z : Z) : string :=
  if (z <? 0)%Z then "-" ++ digits_n (num_digits 20 (- z)) (- z) else digits_n (num_digits 20 z) z.

(** [strconv.ParseInt s 10 64] on a non-empty string of digits: a value out of range is an error. *)
Definition ParseInt64 (s : string) : option Z :=
  let n := parse_digits 0 s in if (n <=? max_int64)%Z then Some n else None.

(** ** Lemmas *)
Lemma append_nil_r s : s ++ "" = s.
Proof. induction s; simpl; congruence. Qed.
Lemma append_assoc a b c : (a ++ b) ++ c = a ++ (b ++ c).
Proof. induction a; simpl; congruence. Qed.
Lemma append_length a b : String.length (a ++ b) = (String.length a + String.length b)%nat.
Proof. induction a; simpl; congruence. Qed.
Lemma append_String c s : String c s = String c "" ++ s.
Proof. reflexivity. Qed.

Lemma byte_digit d : (0 <= d < 10)%Z -> byte_of (digit_chr d) = Z.to_N (d + 48).
Proof. intros. unfold byte_of, digit_chr. apply N_ascii_embedding. lia. Qed.
Lemma digit_val_chr d : (0 <= d < 10)%Z -> digit_val (digit_chr d) = d.
Proof. intros. unfold digit_val. rewrite byte_digit by lia. lia. Qed.
Lemma is_digit_chr d : (0 <= d < 10)%Z -> is_digit (digit_chr d) = true.
Proof.
  intros. unfold is_digit, in_range. rewrite byte_digit by lia.
  rewrite andb_true_iff, !N.leb_le. lia.
Qed.

Lemma digits_n_length n z : String.length (digits_n n z) = n.
Proof. revert z; induction n; simpl; intros; auto. rewrite append_length, IHn. simpl. lia. Qed.

Lemma all_digits_app a b : all_digits (a ++ b) = all_digits a && all_digits b.
Proof. induction a; simpl; auto. rewrite IHa, andb_assoc. reflexivity. Qed.

Lemma all_digits_digits_n n z : all_digits (digits_n n z) = true.
Proof.
  revert z; induction n; simpl; intros; auto.
  rewrite all_digits_app, IHn. simpl. rewrite is_digit_chr; auto. apply Z.mod_pos_bound; lia.
Qed.

Lemma parse_digits_app acc a b : parse_digits acc (a ++ b) = parse_digits (parse_digits acc a) b.
Proof. revert acc; induction a; simpl; auto. Qed.

Lemma parse_digits_digits_n n acc z :
  parse_digits acc (digits_n n z) = (acc * 10 ^ Z.of_nat n + z mod 10 ^ Z.of_nat n)%Z.
Proof.
  revert acc z; induction n; intros acc z.
  - simpl. rewrite Z.mod_1_r. lia.
  - cbn [digits_n]. rewrite parse_digits_app, IHn. cbn [parse_digits].
    rewrite digit_val_chr by (apply Z.mod_pos_bound; lia).
    rewrite Nat2Z.inj_succ, Z.pow_succ_r by lia.
    assert (0 < 10 ^ Z.of_nat n)%Z by (apply Z.pow_pos_nonneg; lia).
    rewrite (Z.rem_mul_r z 10 (10 ^ Z.of_nat n)) by lia. ring.
Qed.

Lemma num_digits_bound fuel z :
  (0 <= z < 10 ^ Z.of_nat (S fuel))%Z -> (z < 10 ^ Z.of_nat (num_digits fuel z))%Z.
Proof.
  revert z; induction fuel; intros z Hz.
  - simpl in *. lia.
  - cbn [num_digits]. destruct (Z.ltb_spec z 10); [simpl; lia|].
    rewrite (Nat2Z.inj_succ (S fuel)), Z.pow_succ_r in Hz by lia.
    rewrite Nat2Z.inj_succ, Z.pow_succ_r by lia.
    assert (z / 10 < 10 ^ Z.of_nat (num_digits fuel (z / 10)))%Z.
    { apply IHfuel. split; [apply Z.div_pos; lia|]. apply Z.div_lt_upper_bound; lia. }
    pose proof (Z.div_mod z 10). pose proof (Z.mod_pos_bound z 10). lia.
Qed.

Lemma parse_FormatInt acc z :
  (0 <= z < 10 ^ 21)%Z ->
  parse_digits acc (FormatInt z) = (acc * 10 ^ Z.of_nat (num_digits 20 z) + z)%Z.
Proof.
  intros Hz. unfold FormatInt. destruct (Z.ltb_spec z 0); [lia|].
  rewrite parse_digits_digits_n, Z.mod_small; [lia|].
  split; [lia|]. apply num_digits_bound. exact Hz.
Qed.

Lemma num_digits_pos fuel z : (1 <= num_digits fuel z)%nat.
Proof. destruct fuel; cbn [num_digits]; [lia|]. destruct (z <? 10)%Z; lia. Qed.

Lemma FormatInt_digits z : (0 <= z)%Z -> all_digits (FormatInt z) = true.
Proof. intros. unfold FormatInt. destruct (Z.ltb_spec z 0); [lia|]. apply all_digits_digits_n. Qed.

Lemma FormatInt_length z : (0 <= z)%Z -> String.length (FormatInt z) = num_digits 20 z.
Proof. intros. unfold FormatInt. destruct (Z.ltb_spec z 0); [lia|]. apply digits_n_length. Qed.

Lemma FormatInt_nonempty z : (0 <= z)%Z -> FormatInt z <> "".
Proof.
  intros H E. pose proof (FormatInt_length z H) as L. rewrite E in L. change (String.length "") with 0%nat in L.
  pose proof (num_digits_pos 20 z). lia.
Qed.

(** *** ASCII strings *)
Fixpoint all_chars (P : ascii -> bool) (s : string) : bool :=
  match s with EmptyString => true | String c r => P c && all_chars P r end.
Definition is_ascii (c : ascii) : bool := (byte_of c <? 128)%N.

Fixpoint chars (s : string) : list (N * string) :=
  match s with EmptyString => [] | String c r => (byte_of c, String c "") :: chars r end.

Lemma runes_fuel_ascii n s :
  all_chars is_ascii s = true -> (String.length s <= n)%nat -> runes_fuel n s = chars s.
Proof.
  revert s; induction n; intros [|c s]; simpl; intros H Hl; try lia; auto.
  apply andb_prop in H as [Hc Hs]. unfold is_ascii in Hc. rewrite Hc.
  f_equal. apply IHn; auto. lia.
Qed.
Lemma runes_ascii s : all_chars is_ascii s = true -> runes s = chars s.
Proof. intros. apply runes_fuel_ascii; auto. Qed.

Lemma unrunes_cons p l : unrunes (p :: l) = snd p ++ unrunes l.
Proof. unfold unrunes. destruct l; simpl; [rewrite append_nil_r|]; reflexivity. Qed.
Lemma unrunes_chars s : unrunes (chars s) = s.
Proof. induction s; [reflexivity|]. cbn [chars]. rewrite unrunes_cons, IHs. reflexivity. Qed.

Lemma drop_while_none {A} (f : A -> bool) l : forallb (fun x => negb (f x)) l = true -> drop_while f l = l.
Proof. destruct l; simpl; auto. destruct (f a); simpl; congruence. Qed.
Lemma forallb_rev {A} (f : A -> bool) l : forallb f (rev l) = forallb f l.
Proof.
  induction l; simpl; auto. rewrite forallb_app, IHl. simpl. rewrite andb_true_r. apply andb_comm.
Qed.

Definition plain (c : ascii) : bool := is_ascii c && negb (IsSpace (byte_of c)).
Lemma all_chars_impl (P Q : ascii -> bool) s :
  (forall c, P c = true -> Q c = true) -> all_chars P s = true -> all_chars Q s = true.
Proof.
  intros H; induction s; simpl; auto. rewrite !andb_true_iff. intuition.
Qed.
Lemma all_chars_app P a b : all_chars P (a ++ b) = all_chars P a && all_chars P b.
Proof. induction a; simpl; auto. rewrite IHa, andb_assoc. reflexivity. Qed.

(** A string of printable ASCII is already trimmed. *)
Lemma TrimSpace_plain s : all_chars plain s = true -> TrimSpace s = s.
Proof.
  intros H. unfold TrimSpace.
  rewrite runes_ascii by (eapply all_chars_impl, H; intros c Hc; apply andb_prop in Hc; tauto).
  assert (Hn : forallb (fun p : N * string => negb (IsSpace (fst p))) (chars s) = true).
  { induction s; simpl in *; auto. apply andb_prop in H as [Hc Hs].
    apply andb_prop in Hc as [_ Hc]. simpl. rewrite Hc. auto. }
  rewrite (drop_while_none _ (chars s)) by exact Hn.
  rewrite drop_while_none by (rewrite forallb_rev; exact Hn).
  rewrite rev_involutive. apply unrunes_chars.
Qed.

Lemma remove_chars_none cs s :
  all_chars (fun c => negb (existsb (Ascii.eqb c) cs)) s = true -> remove_chars cs s = s.
Proof.
  induction s; simpl; auto. rewrite andb_true_iff. intros [Hc Hs].
  destruct (existsb _ cs); simpl in Hc; [discriminate|]. f_equal; auto.
Qed.
Lemma remove_chars_app cs a b : remove_chars cs (a ++ b) = remove_chars cs a ++ remove_chars cs b.
Proof. induction a; simpl; auto. destruct (existsb _ cs); simpl; congruence. Qed.

Lemma digit_is_plain c : is_digit c = true -> plain c = true.
Proof.
  destruct c as [[] [] [] [] [] [] [] []]; vm_compute; congruence.
Qed.
Lemma all_digits_all_chars s : all_digits s = all_chars is_digit s.
Proof. induction s; simpl; congruence. Qed.

(** *** Fixed-width decimals *)
Lemma num_digits_le fuel k z :
  (1 <= k)%nat -> (z < 10 ^ Z.of_nat k)%Z -> (num_digits fuel z <= k)%nat.
Proof.
  revert k z; induction fuel; intros k z Hk Hz; cbn [num_digits]; [lia|].
  destruct (Z.ltb_spec z 10); [lia|]. destruct k as [|k]; [lia|].
  destruct k as [|k]; [simpl in Hz; lia|]. apply le_n_S, IHfuel; [lia|].
  rewrite (Nat2Z.inj_succ (S k)), Z.pow_succ_r in Hz by lia. apply Z.div_lt_upper_bound; lia.
Qed.

Lemma digits_n_left n z :
  digits_n (S n) z = String (digit_chr ((z / 10 ^ Z.of_nat n) mod 10)) (digits_n n z).
Proof.
  revert z; induction n; intros z.
  - cbn. rewrite Z.div_1_r. reflexivity.
  - cbn [digits_n] in *. rewrite IHn. cbn [String.append]. f_equal.
    rewrite Nat2Z.inj_succ, Z.pow_succ_r, Z.div_div by lia. reflexivity.
Qed.

Lemma digit_chr_val c : is_digit c = true -> digit_chr (digit_val c) = c /\ (0 <= digit_val c < 10)%Z.
Proof.
  destruct c as [[] [] [] [] [] [] [] []]; vm_compute; intros H; try discriminate H;
    (split; [reflexivity | split; congruence]).
Qed.

Lemma parse_digits_bound acc p :
  all_digits p = true ->
  exists v, parse_digits acc p = (acc * 10 ^ Z.of_nat (String.length p) + v)%Z
    /\ (0 <= v < 10 ^ Z.of_nat (String.length p))%Z
    /\ digits_n (String.length p) (parse_digits acc p) = p.
Proof.
  revert acc; induction p as [|c p IH]; intros acc H.
  - exists 0%Z. cbn. repeat split; lia.
  - cbn [all_digits] in H. apply andb_prop in H as [Hc Hp]. apply digit_chr_val in Hc as [Hc Hb].
    destruct (IH (acc * 10 + digit_val c)%Z Hp) as (v & Hv & Hvb & Hd).
    cbn [parse_digits String.length]. set (n := String.length p) in *.
    assert (0 < 10 ^ Z.of_nat n)%Z by (apply Z.pow_pos_nonneg; lia).
    exists (digit_val c * 10 ^ Z.of_nat n + v)%Z.
    rewrite Nat2Z.inj_succ, Z.pow_succ_r by lia. split; [rewrite Hv; ring|]. split; [nia|].
    rewrite digits_n_left, Hd. f_equal. rewrite <- Hc at 2. f_equal. rewrite Hv.
    rewrite Z.div_add_l, (Z.div_small v) by lia. rewrite Z.add_0_r, Z.add_comm.
    rewrite Z.mod_add by lia. apply Z.mod_small. lia.
Qed.

Lemma substring_app a b : substring 0 (String.length a) (a ++ b) = a.
Proof. induction a; simpl; [destruct b; reflexivity | congruence]. Qed.
Lemma drop_str_app a b : drop_str (String.length a) (a ++ b) = b.
Proof. induction a; simpl; auto. Qed.
Lemma substring_drop n s : (n <= String.length s)%nat ->
  s = substring 0 n s ++ drop_str n s /\ String.length (substring 0 n s) = n.
Proof.
  revert s; induction n; intros s H.
  - destruct s; split; reflexivity.
  - destruct s as [|c s]; simpl in *; [lia|]. destruct (IHn s) as [E L]; [lia|].
    split; congruence.
Qed.
Lemma substring_length_le n s : (String.length (substring 0 n s) <= String.length s)%nat.
Proof. revert s; induction n; intros [|c s]; simpl; try lia. specialize (IHn s). lia. Qed.

(** Only the value modulo [10^n] matters to the [n] low digits. *)
Lemma digits_n_mod n z : digits_n n z = digits_n n (z mod 10 ^ Z.of_nat n).
Proof.
  pose proof (parse_digits_digits_n n 0 z) as E.
  pose proof (parse_digits_bound 0 _ (all_digits_digits_n n z)) as (v & Hv & Hb & Hd).
  rewrite digits_n_length in Hd. rewrite E in Hd. rewrite Z.mul_0_l, Z.add_0_l in Hd. auto.
Qed.

(** The text order of fixed-width decimals is the order of their values. *)
Lemma compare_digits n a b s t :
  (0 <= a < 10 ^ Z.of_nat n)%Z -> (0 <= b < 10 ^ Z.of_nat n)%Z ->
  String.compare (digits_n n a ++ s) (digits_n n b ++ t) =
    match (a ?= b)%Z with Eq => String.compare s t | c => c end.
Proof.
  revert a b; induction n; intros a b Ha Hb.
  - assert (a = 0 /\ b = 0)%Z as [-> ->] by (simpl in *; lia). reflexivity.
  - rewrite !digits_n_left. cbn [String.append String.compare].
    assert (0 < 10 ^ Z.of_nat n)%Z by (apply Z.pow_pos_nonneg; lia).
    rewrite Nat2Z.inj_succ, Z.pow_succ_r in Ha, Hb by lia.
    assert (forall z, 0 <= z < 10 * 10 ^ Z.of_nat n -> 0 <= z / 10 ^ Z.of_nat n < 10)%Z as Hq.
    { intros z Hz. split; [apply Z.div_pos; lia | apply Z.div_lt_upper_bound; lia]. }
    pose proof (Hq a Ha) as Qa. pose proof (Hq b Hb) as Qb.
    rewrite !Z.mod_small by lia. unfold Ascii.compare. fold (byte_of (digit_chr (a / 10 ^ Z.of_nat n))).
    fold (byte_of (digit_chr (b / 10 ^ Z.of_nat n))). rewrite !byte_digit by lia.
    pose proof (Z.div_mod a (10 ^ Z.of_nat n)). pose proof (Z.mod_pos_bound a (10 ^ Z.of_nat n)).
    pose proof (Z.div_mod b (10 ^ Z.of_nat n)). pose proof (Z.mod_pos_bound b (10 ^ Z.of_nat n)).
    set (qa := (a / 10 ^ Z.of_nat n)%Z) in *. set (qb := (b / 10 ^ Z.of_nat n)%Z) in *.
    destruct (N.compare_spec (Z.to_N (qa + 48)) (Z.to_N (qb + 48))) as [E|E|E].
    + assert (qa = qb) by lia.
      rewrite (digits_n_mod n a), (digits_n_mod n b), IHn by lia.
      replace (a ?= b)%Z with (a mod 10 ^ Z.of_nat n ?= b mod 10 ^ Z.of_nat n)%Z; [reflexivity|].
      destruct (Z.compare_spec (a mod 10 ^ Z.of_nat n) (b mod 10 ^ Z.of_nat n)),
        (Z.compare_spec a b); auto; nia.
    + replace (a ?= b)%Z with Lt; [reflexivity|]. symmetry. apply Z.compare_lt_iff. nia.
    + replace (a ?= b)%Z with Gt; [reflexivity|]. symmetry. apply Z.compare_gt_iff. nia.
Qed.

(** *** Runes and their bytes *)

Lemma decode_rune_split s r enc rest : decode_rune s = Some (r, enc, rest) -> s = enc ++ rest /\ enc <> "".
Proof.
  unfold decode_rune.
  repeat (match goal with |- context [match ?x with _ => _ end] => destruct x; try discriminate end);
    intros E; injection E as <- <- <-; split; (reflexivity || discriminate).
Qed.
Lemma decode_rune_some s : s <> "" -> exists r enc rest, decode_rune s = Some (r, enc, rest).
Proof.
  unfold decode_rune. destruct s as [|a s]; [congruence|]. intros _.
  repeat (match goal with |- context [match ?x with _ => _ end] => destruct x end); eauto.
Qed.
Lemma unrunes_runes s : unrunes (runes s) = s.
Proof.
  unfold runes. assert (H : forall n s, (String.length s <= n)%nat -> unrunes (runes_fuel n s) = s); [|apply H; lia].
  clear s. induction n as [|n IH]; intros s L.
  { destruct s; [reflexivity | cbn in L; lia]. }
  destruct s as [|c s]; [reflexivity|]. cbn [runes_fuel].
  destruct (decode_rune_some (String c s)) as (r & enc & rest & E); [discriminate|]. rewrite E.
  destruct (decode_rune_split _ _ _ _ E) as [Es Ne]. rewrite unrunes_cons, IH; [symmetry; exact Es|].
  rewrite Es, append_length in L. destruct enc; [congruence|]. cbn in L. lia.
Qed.
(** What decodes a string decodes its first rune's bytes before any other rest. *)
Lemma decode_rune_again s r enc rest t :
  decode_rune s = Some (r, enc, rest) -> bad_rune (r, enc) = false -> decode_rune (enc ++ t) = Some (r, enc, t).
Proof.
  intros H. unfold decode_rune in H.
  repeat (match type of H with context [match ?x with _ => _ end] => destruct x eqn:?; try discriminate H end);
    injection H as <- <- <-; intros B; try discriminate B; cbn [String.append decode_rune];
    repeat match goal with E : _ = true |- _ => rewrite E | E : _ = false |- _ => rewrite E end; reflexivity.
Qed.
