(* ===== verification/Errors.v ===== *)
(** * Errors

    The typed errors of each package, the chains [fmt.Errorf("%w")] and
    [AppError.WithCause] build, and the mapping to the wire envelope
    ([ToAppError], [AsAppError]). *)
From Stdlib Require Import ZArith String Ascii List.
From stdpp Require Import base list strings.
From S2P Require Import Prelude GoStrings.
Local Open Scope string_scope.

(** A 128-bit UUID as a number, [uuid.Nil] is zero. Its canonical text is
    fixed-width lower-case hex, so text order is numeric order. *)
Abbreviation uuid := N.
Definition uuid_Nil : uuid := 0%N.

Definition hex_chr (d : N) : ascii :=
  ascii_of_N (if (d <? 10)%N then 48 + d else 87 + d).
Fixpoint hex_n (n : nat) (z : N) : string :=
  match n with
  | O => ""
  | S n' => hex_n n' (N.div z 16) ++ String (hex_chr (N.modulo z 16)) ""
  end.
(** [uuid.UUID.String]. *)
Definition uuid_String (u : uuid) : string :=
  let part := fun (n : nat) (sh : N) => hex_n n (N.shiftr u sh) in
  part 8%nat 96%N ++ "-" ++ part 4%nat 80%N ++ "-" ++ part 4%nat 64%N ++ "-"
    ++ part 4%nat 48%N ++ "-" ++ part 12%nat 0%N.

(** ** Wire envelope: code, message and gRPC code of an [AppError]. *)
Inductive GRPC := InvalidArgument | NotFound | AlreadyExists | FailedPrecondition
  | PermissionDenied | Unauthenticated | Internal | Unavailable.
Record AppError := mkApp { app_code : string; app_message : string; app_grpc : GRPC }.

(** ** Package errors *)
Inductive TenantError := MissingError | UnscopedError.
Definition tenant_app (e : TenantError) : AppError :=
  match e with
  | MissingError => mkApp "GEN001" "Tenant context missing" Unauthenticated
  | UnscopedError => mkApp "GEN001" "Tenant context names no org" Unauthenticated
  end.

Inductive LedgerError :=
| LedgerNotFoundError (project : string)
| InvalidTimezoneError (value : string)
| InvalidStartDayError (value : Z)
| LedgerUnknownCurrencyError (code : string).
Definition quoted (s : string) : string := String (ascii_of_nat 34) (s ++ String (ascii_of_nat 34) "").
Definition ledger_app (e : LedgerError) : AppError :=
  match e with
  | LedgerNotFoundError _ => mkApp "GEN005" "Ledger settings not found" NotFound
  | InvalidTimezoneError v => mkApp "LDG001" (quoted v ++ " is not a known timezone") InvalidArgument
  | InvalidStartDayError _ => mkApp "LDG002" "Period start day must be between 1 and 28" InvalidArgument
  | LedgerUnknownCurrencyError c => mkApp "LDG003" (quoted c ++ " is not a supported currency") InvalidArgument
  end.

Inductive PeriodError :=
| PeriodNotFoundError (id : string)
| PeriodInvalidNameError (reason : string)
| InvalidRangeError (reason : string)
| OverlapError (start end_ : string)
| AlreadyClosedError (id : string)
| NotClosedError (id : string)
| NotLatestClosedError (id : string)
| PeriodAuthorMissingError.
Definition period_app (e : PeriodError) : AppError :=
  match e with
  | PeriodNotFoundError _ => mkApp "PRD001" "Period not found" NotFound
  | PeriodInvalidNameError r => mkApp "PRD002" ("Invalid period name: " ++ r) InvalidArgument
  | InvalidRangeError r => mkApp "PRD003" ("Invalid period range: " ++ r) InvalidArgument
  | OverlapError _ _ => mkApp "PRD004" "This period overlaps an existing one" AlreadyExists
  | AlreadyClosedError _ => mkApp "PRD005" "This period is already closed" FailedPrecondition
  | NotClosedError _ => mkApp "PRD006" "This period is not closed" FailedPrecondition
  | NotLatestClosedError _ =>
      mkApp "PRD007" "Only the most recently closed period can be reopened" FailedPrecondition
  | PeriodAuthorMissingError => mkApp "PRD008" "This period closing names no author" FailedPrecondition
  end.

Inductive WalletError :=
| WalletNotFoundError (id : string)
| WalletInvalidNameError (reason : string)
| WalletAlreadyExistsError (name : string)
| WalletInvalidKindError (value : string)
| WalletInUseError (id : string)
| WalletAmbiguousNameError (query : string) (candidates : list string)
| ArchivedError (id : string).
Definition wallet_app (e : WalletError) : AppError :=
  match e with
  | WalletNotFoundError _ => mkApp "WLT001" "Wallet not found" NotFound
  | WalletInvalidNameError r => mkApp "WLT002" ("Invalid wallet name: " ++ r) InvalidArgument
  | WalletAlreadyExistsError _ => mkApp "WLT003" "A wallet with this name already exists" AlreadyExists
  | WalletInvalidKindError v => mkApp "WLT004" ("Unsupported wallet kind: " ++ v) InvalidArgument
  | WalletInUseError _ => mkApp "WLT005" "This wallet still has transactions" FailedPrecondition
  | WalletAmbiguousNameError q _ => mkApp "WLT006" ("Several wallets match " ++ q) InvalidArgument
  | ArchivedError _ => mkApp "WLT007" "This wallet is archived; unarchive it first" FailedPrecondition
  end.

Inductive CategoryError :=
| CategoryNotFoundError (id name : string)
| CategoryInvalidNameError (reason : string)
| InvalidIconError (icon : string)
| InvalidColorError (color : string)
| CategoryAlreadyExistsError (name kind : string)
| CategoryInvalidKindError (value : string)
| CategoryInUseError (id : string)
| CategoryAmbiguousNameError (name : string) (matches : nat).
Definition category_app (e : CategoryError) : AppError :=
  match e with
  | CategoryNotFoundError _ _ => mkApp "CTG001" "Category not found" NotFound
  | CategoryInvalidNameError r => mkApp "CTG002" ("Invalid category name: " ++ r) InvalidArgument
  | InvalidIconError _ => mkApp "CTG002" "That icon is not available" InvalidArgument
  | InvalidColorError _ => mkApp "CTG002" "That colour is not available" InvalidArgument
  | CategoryAlreadyExistsError _ _ => mkApp "CTG003" "A category with this name already exists" AlreadyExists
  | CategoryInvalidKindError _ =>
      mkApp "CTG004" "A category must be either an expense or an income category" InvalidArgument
  | CategoryInUseError _ =>
      mkApp "CTG005" "This category is still used by transactions. Archive it instead." FailedPrecondition
  | CategoryAmbiguousNameError _ _ =>
      mkApp "CTG006" "That name matches more than one category" InvalidArgument
  end.

Inductive TxError :=
| TxNotFoundError (id : string)
| InvalidAmountError (reason : string)
| CurrencyMismatchError (wallet wallet_currency amount_currency : string)
| TxInvalidKindError (kind reason : string)
| SameWalletError (wallet : string)
| CategoryKindMismatchError (category category_kind tx_kind : string)
| WalletArchivedError (wallet : string)
| SystemRecordedError (kind : string)
| PeriodLockedError (period : string)
| PeriodNotAdjacentError (period : string)
| InvalidNoteError (reason : string)
| TxAuthorMissingError.
Definition tx_app (e : TxError) : AppError :=
  match e with
  | TxNotFoundError _ => mkApp "TXN001" "Transaction not found" NotFound
  | InvalidAmountError r => mkApp "TXN002" ("Invalid amount: " ++ r) InvalidArgument
  | CurrencyMismatchError _ w a =>
      mkApp "TXN003" ("This wallet holds " ++ w ++ ", not " ++ a) InvalidArgument
  | TxInvalidKindError _ r => mkApp "TXN004" ("Invalid transaction kind: " ++ r) InvalidArgument
  | SameWalletError _ => mkApp "TXN005" "A transfer needs two different wallets" InvalidArgument
  | CategoryKindMismatchError _ c t =>
      mkApp "TXN006" ("That is an " ++ c ++ " category, not an " ++ t ++ " one") InvalidArgument
  | WalletArchivedError _ => mkApp "TXN007" "That wallet is archived" FailedPrecondition
  | SystemRecordedError _ =>
      mkApp "TXN011" "That entry was recorded by yasaku, so it cannot be edited directly" FailedPrecondition
  | PeriodLockedError _ => mkApp "TXN008" "That budget period is closed" FailedPrecondition
  | PeriodNotAdjacentError _ =>
      mkApp "TXN009" "A transaction may only be moved to the period before or after the one it falls in"
        InvalidArgument
  | InvalidNoteError r => mkApp "TXN010" ("Invalid note: " ++ r) InvalidArgument
  | TxAuthorMissingError => mkApp "TXN012" "This transaction names no author" FailedPrecondition
  end.

Inductive MoneyError := UnknownCurrencyError (code : string) | MoneyParseError (input reason : string).
Inductive CivilError := CivilParseError (input : string).

(** The outbox's errors, which carry no envelope of their own. *)
Inductive OutboxError :=
| OutboxNotFoundError (id : string)
| TerminalStateError (id status : string)
| StaleClaimError (id : string) (claimed current : Z)
| NotFailedError (id status : string)
| InvalidEntryError (field reason : string).

(** The opensheet client's answers ([opensheet/errors.go]). *)
Inductive OpensheetError :=
| APIError (status : Z) (code message : string)
| OSNotFoundError (code : string)
| PreconditionFailedError
| StaleCursorError
| RateLimitedError
| PayloadTooLargeError
| ValidationError (code message : string).

(** The sheet mirror's errors that wrap no other ([internal/opensheetsync/errors.go]). *)
Inductive SheetError :=
| LinkNotFoundError (project : string)
| InvalidSettingError (field reason : string)
| APIKeyRequiredError
| SheetUnreachableError (sheet : string)
| ShapeMismatchError (sheet : string) (missing : list string)
| NoIDColumnError (sheet : string)
| SheetNotWritableError (sheet : string)
| ContractUnsatisfiedError (sheet reason : string)
| NotVerifiedError
| LinkDisabledError
| ScopeMismatchError (want got : string).
Definition staleHeaderHint : string :=
  "If you just fixed the header, opensheet may still have the old header; open the tab's rows in opensheet (or wait a few minutes) and run Test again".
Definition sheet_app (e : SheetError) : AppError :=
  match e with
  | LinkNotFoundError _ => mkApp "OSL001" "This project has no Opensheet link" NotFound
  | InvalidSettingError f r => mkApp "OSL002" ("Invalid " ++ f ++ ": " ++ r) InvalidArgument
  | APIKeyRequiredError => mkApp "OSL003" "Enter the opensheet API key" InvalidArgument
  | SheetUnreachableError s => mkApp "OSL004" ("opensheet does not serve sheet " ++ s ++ " to this key") FailedPrecondition
  | ShapeMismatchError s m =>
      mkApp "OSL005" ("Sheet " ++ s ++ " is missing columns: " ++ String.concat ", " m ++ ". " ++ staleHeaderHint)
        FailedPrecondition
  | NoIDColumnError s => mkApp "OSL006" ("Set id as the id column of sheet " ++ s) FailedPrecondition
  | SheetNotWritableError s => mkApp "OSL007" ("Mark sheet " ++ s ++ " writable in opensheet") FailedPrecondition
  | ContractUnsatisfiedError s r => mkApp "OSL008" ("Sheet " ++ s ++ ": " ++ r) FailedPrecondition
  | NotVerifiedError => mkApp "OSL010" "Run Test and Save before turning the mirror on" FailedPrecondition
  | LinkDisabledError => mkApp "OSL011" "Turn the mirror on first" FailedPrecondition
  | ScopeMismatchError _ _ => mkApp "OSL013" "Sync job scope mismatch" FailedPrecondition
  end.
Definition sync_refused_app (sheet : string) : AppError :=
  mkApp "OSL012" ("opensheet refused a write to sheet " ++ sheet) FailedPrecondition.
Definition row_refused_app (sheet : string) : AppError :=
  mkApp "OSL014" ("opensheet refused a row of sheet " ++ sheet) FailedPrecondition.
Definition key_unreadable_app : AppError :=
  mkApp "OSL015" "The saved opensheet API key can no longer be read; enter it again and save" FailedPrecondition.
Definition private_endpoint_app : AppError :=
  mkApp "OSL016" "The opensheet base URL resolves to a private address; set YASAKU_OPENSHEET_ALLOW_PRIVATE_HOSTS=true when opensheet runs on a private network"
    FailedPrecondition.

(** The sealer's refusals ([internal/platform/sealer/errors.go]). *)
Inductive SealerError := SealerUnavailableError | OpenFailedError.
Definition sealer_app (e : SealerError) : AppError :=
  match e with
  | SealerUnavailableError => mkApp "ENC001" "Encryption is not configured on this deployment" FailedPrecondition
  | OpenFailedError =>
      mkApp "ENC002" "Stored secret could not be decrypted; the encryption key may have changed" FailedPrecondition
  end.

(** Webhooks' errors ([internal/webhook/errors.go]; [SecretUnavailableError] wraps
    its cause and is a case of [Error]), and the event catalog's. *)
Inductive WebhookError :=
| EndpointNotFoundError (id : string)
| InvalidURLError (reason : string)
| InvalidEventTypesError (reason : string)
| InvalidDescriptionError (reason : string)
| EndpointLimitError (limit : Z)
| DeliveryNotRetryableError (id : string)
| DeliveryNotFoundError (id : string)
| EndpointInactiveError (id : string)
| SecretConflictError (id : string)
| InvalidAttemptError (field reason : string)
| NoUnitOfWorkError
| DeliveryFailedError (status : Z).
Definition webhook_app (e : WebhookError) : option AppError :=
  match e with
  | EndpointNotFoundError _ => Some (mkApp "WHK001" "Webhook endpoint not found" NotFound)
  | InvalidURLError r => Some (mkApp "WHK002" ("Webhook URL is invalid: it " ++ r) InvalidArgument)
  | InvalidEventTypesError r => Some (mkApp "WHK003" ("Webhook event types are invalid: " ++ r) InvalidArgument)
  | InvalidDescriptionError r => Some (mkApp "GEN004" ("Webhook description is invalid: it " ++ r) InvalidArgument)
  | EndpointLimitError n =>
      Some (mkApp "WHK004" ("A project can have at most " ++ FormatInt n ++ " webhook endpoints") FailedPrecondition)
  | DeliveryNotRetryableError _ => Some (mkApp "WHK005" "Only a failed delivery can be retried" FailedPrecondition)
  | DeliveryNotFoundError _ => Some (mkApp "WHK006" "Webhook delivery not found" NotFound)
  | EndpointInactiveError _ => Some (mkApp "WHK007" "The webhook endpoint is disabled" FailedPrecondition)
  | SecretConflictError _ =>
      Some (mkApp "WHK008" "The webhook secret changed concurrently; reload and retry" FailedPrecondition)
  | InvalidAttemptError _ _ | NoUnitOfWorkError | DeliveryFailedError _ => None
  end.
Inductive EventsError :=
| UnknownTypeError (type_ : string)
| PayloadMismatchError (type_ : string).

(** Organisations' errors ([internal/org/errors.go]). *)
Inductive OrgError :=
| OrgNotFoundError (id slug : string) (system : bool)
| OrgAlreadyExistsError (slug : string)
| OrgInvalidSlugError (slug reason : string)
| OrgInvalidNameError (reason : string)
| InvalidRoleError (role : string)
| MembershipExistsError (orgID userID : string)
| MembershipMissingError (orgID userID : string)
| OrgSystemProtectedError (op orgID userID resource : string)
| SelfRemovalError (orgID userID : string)
| OwnerRemovalError (orgID userID : string)
| CreationDisabledError
| UnreadableExistingOrgError (slug : string)
| SystemOrgExistsError (slug : string)
| NotManagerError (orgID userID : string).
Definition org_app (e : OrgError) : option AppError :=
  match e with
  | OrgNotFoundError _ _ _ => Some (mkApp "ORG001" "Organization not found" NotFound)
  | OrgAlreadyExistsError _ => Some (mkApp "ORG002" "Organization slug already taken" AlreadyExists)
  | OrgInvalidSlugError _ _ => Some (mkApp "ORG003" "Invalid organization slug" InvalidArgument)
  | OrgInvalidNameError _ => Some (mkApp "ORG004" "Invalid organization name" InvalidArgument)
  | InvalidRoleError _ => Some (mkApp "GEN004" "Invalid membership role" InvalidArgument)
  | MembershipExistsError _ _ => Some (mkApp "ORG005" "Membership already exists" AlreadyExists)
  | MembershipMissingError _ _ => Some (mkApp "ORG006" "Membership not found" NotFound)
  | OrgSystemProtectedError _ _ _ _ => Some (mkApp "ORG008" "System-protected object cannot be modified" FailedPrecondition)
  | SelfRemovalError _ _ => Some (mkApp "ORG009" "You cannot remove your own membership" FailedPrecondition)
  | OwnerRemovalError _ _ => Some (mkApp "ORG010" "Only an owner can remove another owner" FailedPrecondition)
  | CreationDisabledError => Some (mkApp "ORG007" "Organization creation is disabled" FailedPrecondition)
  | NotManagerError _ _ => Some (mkApp "ORG011" "Only an owner or admin can do this" PermissionDenied)
  | UnreadableExistingOrgError _ | SystemOrgExistsError _ => None
  end.

(** Projects' errors ([internal/project/errors.go]). *)
Inductive ProjectError :=
| ProjectNotFoundError (id orgID slug : string)
| ProjectAlreadyExistsError (field value : string)
| ProjectInvalidSlugError (slug reason : string)
| ProjectInvalidNameError (reason : string)
| ProjectSystemProtectedError (op projectID : string)
| SystemProjectExistsError (orgID slug : string).
Definition project_app (e : ProjectError) : option AppError :=
  match e with
  | ProjectNotFoundError _ _ _ => Some (mkApp "PRJ001" "Project not found" NotFound)
  | ProjectAlreadyExistsError _ _ => Some (mkApp "PRJ002" "Project already exists" AlreadyExists)
  | ProjectInvalidSlugError _ _ => Some (mkApp "PRJ003" "Invalid project slug" InvalidArgument)
  | ProjectInvalidNameError _ => Some (mkApp "GEN004" "Invalid project name" InvalidArgument)
  | ProjectSystemProtectedError _ _ => Some (mkApp "PRJ004" "System-protected project cannot be modified" FailedPrecondition)
  | SystemProjectExistsError _ _ => None
  end.

(** API keys' errors ([internal/apikey/errors.go]). *)
Inductive APIKeyError :=
| KeyNotFoundError
| UnknownScopeError (scope : string)
| RetiredScopeError (scope : string)
| ScopeLevelError (scope : string)
| EmptyGrantError
| GrantConflictError
| BoundToProjectError
| AlreadyAllProjectsError
| RevokedError
| ProjectNotInOrgError (projectID : string)
| ExpiryRequiredError
| ExpiryInPastError
| ExpiryTooLongError.
Definition apikey_app (e : APIKeyError) : option AppError :=
  match e with
  | KeyNotFoundError => None
  | UnknownScopeError s => Some (mkApp "APK001" ("Unknown scope: " ++ s) InvalidArgument)
  | RetiredScopeError s => Some (mkApp "APK002" ("This scope can no longer be granted: " ++ s) InvalidArgument)
  | ScopeLevelError s =>
      Some (mkApp "APK003" ("This scope is organization-level and cannot go on a project key: " ++ s) InvalidArgument)
  | EmptyGrantError => Some (mkApp "APK004" "Choose at least one project, or grant all projects" InvalidArgument)
  | GrantConflictError => Some (mkApp "APK005" "Choose all projects or named projects, not both" InvalidArgument)
  | BoundToProjectError => Some (mkApp "APK006" "A project key is bound to its project" FailedPrecondition)
  | AlreadyAllProjectsError => Some (mkApp "APK007" "This key already reaches all projects" FailedPrecondition)
  | RevokedError => Some (mkApp "APK008" "This key is revoked" FailedPrecondition)
  | ProjectNotInOrgError _ => Some (mkApp "APK009" "A selected project is not in this organization" InvalidArgument)
  | ExpiryRequiredError => Some (mkApp "APK010" "An expiry is required" InvalidArgument)
  | ExpiryInPastError => Some (mkApp "APK011" "The expiry must be in the future" InvalidArgument)
  | ExpiryTooLongError => Some (mkApp "APK012" "The expiry must be within one year" InvalidArgument)
  end.

(** Users', invites', onboarding's and logins' errors ([internal/user/errors.go],
    [invite/errors.go], [onboard/errors.go], [auth/errors.go]). An [IdentityConflictError]
    that wraps its cause is a case of [Error]. *)
Inductive UserError :=
| SingletonOrgMissingError
| UserNotFoundError (id email subject : string)
| UserAlreadyExistsError (field value : string)
| NotInvitedError (email : string)
| UserInvalidEmailError (reason value : string)
| SignupRequiredError (userID email : string)
| UserInvalidNameError (reason : string)
| EmailUnverifiedError
| IdentityConflictError.
Definition identity_conflict_app : AppError :=
  mkApp "USR007" "This email belongs to another account at the identity provider" PermissionDenied.
Definition user_app (e : UserError) : option AppError :=
  match e with
  | SingletonOrgMissingError => None
  | UserNotFoundError _ _ _ => Some (mkApp "USR001" "User not found" NotFound)
  | UserAlreadyExistsError _ _ => Some (mkApp "USR002" "User already exists" AlreadyExists)
  | NotInvitedError _ => Some (mkApp "USR003" "User has no membership and no pending invite" PermissionDenied)
  | UserInvalidEmailError _ _ => Some (mkApp "USR004" "Invalid user email" InvalidArgument)
  | SignupRequiredError _ _ => Some (mkApp "SGN001" "Signup completion required" FailedPrecondition)
  | UserInvalidNameError _ => Some (mkApp "USR005" "Invalid user name" InvalidArgument)
  | EmailUnverifiedError => Some (mkApp "USR006" "The identity provider has not verified this email" PermissionDenied)
  | IdentityConflictError => Some identity_conflict_app
  end.
Inductive InviteError :=
| InviteNotFoundError (id : string)
| InviteExpiredError (id : string)
| AlreadyUsedError (id : string)
| InviteInvalidRoleError (role : string)
| InviteInvalidEmailError (reason value : string)
| InvitesDisabledError (reason : string)
| TokenMismatchError.
Definition invite_app (e : InviteError) : AppError :=
  match e with
  | InviteNotFoundError _ => mkApp "INV001" "Invite not found" NotFound
  | InviteExpiredError _ => mkApp "INV002" "Invite has expired" FailedPrecondition
  | AlreadyUsedError _ => mkApp "INV003" "Invite has already been used" FailedPrecondition
  | InviteInvalidRoleError _ => mkApp "INV004" "Invalid invite role" InvalidArgument
  | InviteInvalidEmailError _ _ => mkApp "GEN004" "Invalid invite email" InvalidArgument
  | InvitesDisabledError _ => mkApp "INV005" "Invites are disabled in this deployment" FailedPrecondition
  | TokenMismatchError => mkApp "INV001" "Invite not found" NotFound
  end.
Inductive OnboardError :=
| NotOnboardedError
| AlreadyOnboardedError
| InvalidMethodError (method reason : string).
Definition onboard_app (e : OnboardError) : AppError :=
  match e with
  | NotOnboardedError => mkApp "ONB001" "Onboarding required" FailedPrecondition
  | AlreadyOnboardedError => mkApp "ONB002" "Onboarding already completed" AlreadyExists
  | InvalidMethodError _ _ => mkApp "GEN004" "Invalid onboarding method" InvalidArgument
  end.
Inductive AuthError :=
| InvalidCredentialsError
| OIDCUnavailableError
| OIDCClaimMissingError (claim : string).
Definition auth_app (e : AuthError) : AppError :=
  match e with
  | InvalidCredentialsError => mkApp "AUT001" "Invalid credentials" Unauthenticated
  | OIDCUnavailableError => mkApp "AUT002" "OIDC login is not configured" FailedPrecondition
  | OIDCClaimMissingError _ => mkApp "AUT003" "OIDC claim missing" InvalidArgument
  end.

(** The refusals of an access token ([internal/platform/tokens/errors.go]), their causes apart. *)
Inductive TokenError := InvalidTokenError (reason : string) | ExpiredTokenError.
Definition token_app (e : TokenError) : AppError :=
  match e with
  | InvalidTokenError _ => mkApp "GEN002" "Invalid access token" Unauthenticated
  | ExpiredTokenError => mkApp "TKN001" "Access token expired" Unauthenticated
  end.

(** The refusals of a credential ([internal/platform/authn/errors.go]); the causes an
    [UnauthorizedError] keeps for the log are out of every caller's reach. *)
Inductive AuthnError :=
| UnauthorizedError
| InsufficientScopeError (scope : string)
| SessionRequiredError.

(** Driver errors: the extended result code the code inspects, and the message. *)
Inductive SqliteCode := CONSTRAINT_UNIQUE | CONSTRAINT_PRIMARYKEY | CONSTRAINT_FOREIGNKEY
  | CONSTRAINT_TRIGGER | CONSTRAINT_CHECK | OtherCode.

(** ** The error values that cross the modelled code *)
Inductive Error :=
| ETenant (e : TenantError)
| ELedger (e : LedgerError)
| EPeriod (e : PeriodError)
| EWallet (e : WalletError)
| ECategory (e : CategoryError)
| ETx (e : TxError)
| EMoney (e : MoneyError)
| ECivil (e : CivilError)
| EOutbox (e : OutboxError)
| ESheet (e : SheetError)
| EOpensheet (e : OpensheetError)
| EPrivateAddress (msg : string)                     (** [httpclient.PrivateAddressError] *)
| EURL (cause : Error)                               (** [url.Error] *)
| EContext (deadline : bool)                         (** [context.DeadlineExceeded] or [context.Canceled] *)
| ESealer (e : SealerError)
| ESyncRefused (sheet code : string) (cause : Error)
| ERowRefused (sheet code : string) (cause : Error)
| EKeyUnreadable (cause : Error)
| EPrivateEndpoint (cause : Error)
| EWebhook (e : WebhookError)
| EEvents (e : EventsError)
| ESecretUnavailable (cause : Error)
| EOrg (e : OrgError)
| EProject (e : ProjectError)
| EAPIKey (e : APIKeyError)
| EUser (e : UserError)
| EIdentityConflict (cause : Error)
| EInvite (e : InviteError)
| EOnboard (e : OnboardError)
| EAuth (e : AuthError)
| EToken (e : TokenError)
| EAuthn (e : AuthnError)
| EAuthnUnavailable (cause : Error)                  (** [authn.UnavailableError] *)
| ESheetUnavailable (sheet : string) (cause : Error)  (** keeps its cause's text, and does not unwrap to it *)
| ESqlite (code : SqliteCode) (msg : string)
| EText (msg : string)
| EWrap (op : string) (cause : Error)
| EUnexpected (op : string) (cause : Error).
Coercion ETenant : TenantError >-> Error.
Coercion ELedger : LedgerError >-> Error.
Coercion EPeriod : PeriodError >-> Error.
Coercion EWallet : WalletError >-> Error.
Coercion ECategory : CategoryError >-> Error.
Coercion ETx : TxError >-> Error.
Coercion EMoney : MoneyError >-> Error.
Coercion ECivil : CivilError >-> Error.
Coercion EOutbox : OutboxError >-> Error.
Coercion ESheet : SheetError >-> Error.
Coercion EWebhook : WebhookError >-> Error.
Coercion EOrg : OrgError >-> Error.
Coercion EProject : ProjectError >-> Error.
Coercion EAPIKey : APIKeyError >-> Error.
Coercion EUser : UserError >-> Error.
Coercion EInvite : InviteError >-> Error.
Coercion EOnboard : OnboardError >-> Error.
Coercion EAuth : AuthError >-> Error.
Coercion EToken : TokenError >-> Error.
Coercion EAuthn : AuthnError >-> Error.

(** The hops [errors.Unwrap] walks. *)
Fixpoint chain (e : Error) : list Error :=
  e :: match e with
       | EWrap _ c | EUnexpected _ c | EURL c | ESyncRefused _ _ c | ERowRefused _ _ c | EKeyUnreadable c | EPrivateEndpoint c
       | ESecretUnavailable c | EAuthnUnavailable c | EIdentityConflict c =>
           chain c
       | _ => []
       end.
Definition chain_is (p : Error -> bool) (e : Error) : bool := existsb p (chain e).

(** The envelope of one hop: an [*AppError] or a value with [ToAppError]. *)
Definition hop_app (e : Error) : option AppError :=
  match e with
  | ETenant e => Some (tenant_app e)
  | ELedger e => Some (ledger_app e)
  | EPeriod e => Some (period_app e)
  | EWallet e => Some (wallet_app e)
  | ECategory e => Some (category_app e)
  | ETx e => Some (tx_app e)
  | EUnexpected _ _ => Some (mkApp "GEN900" "An unexpected error occurred" Internal)
  | ESheet e => Some (sheet_app e)
  | ESyncRefused sheet _ _ => Some (sync_refused_app sheet)
  | ERowRefused sheet _ _ => Some (row_refused_app sheet)
  | EKeyUnreadable _ => Some key_unreadable_app
  | EPrivateEndpoint _ => Some private_endpoint_app
  | ESheetUnavailable _ _ => Some (mkApp "OSL009" "opensheet did not answer; try again" Unavailable)
  | ESealer e => Some (sealer_app e)
  | EWebhook e => webhook_app e
  | EOrg e => org_app e
  | EProject e => project_app e
  | EAPIKey e => apikey_app e
  | EUser e => user_app e
  | EIdentityConflict _ => Some identity_conflict_app
  | EInvite e => Some (invite_app e)
  | EOnboard e => Some (onboard_app e)
  | EAuth e => Some (auth_app e)
  | EToken e => Some (token_app e)
  | EAuthn _ | EAuthnUnavailable _ | EEvents _ | ESecretUnavailable _ | EMoney _ | ECivil _ | EOutbox _ | EOpensheet _ | EPrivateAddress _ | EURL _ | EContext _
  | ESqlite _ _ | EText _ | EWrap _ _ => None
  end.

Fixpoint first_app (l : list Error) : option AppError :=
  match l with
  | [] => None
  | e :: l' => match hop_app e with Some a => Some a | None => first_app l' end
  end.
(** [apperror.AsAppError]. *)
Definition AsAppError (e : Error) : option AppError := first_app (chain e).
Definition is_app (e : Error) : bool := match AsAppError e with Some _ => true | None => false end.

(** ** The [Is...Error] predicates: each searches the chain. *)
Definition period_is (p : PeriodError -> bool) : Error -> bool :=
  chain_is (fun e => match e with EPeriod x => p x | _ => false end).
Definition wallet_is (p : WalletError -> bool) : Error -> bool :=
  chain_is (fun e => match e with EWallet x => p x | _ => false end).
Definition category_is (p : CategoryError -> bool) : Error -> bool :=
  chain_is (fun e => match e with ECategory x => p x | _ => false end).
Definition tx_is (p : TxError -> bool) : Error -> bool :=
  chain_is (fun e => match e with ETx x => p x | _ => false end).
Definition ledger_is (p : LedgerError -> bool) : Error -> bool :=
  chain_is (fun e => match e with ELedger x => p x | _ => false end).

Definition IsLedgerNotFound : Error -> bool :=
  ledger_is (fun e => match e with LedgerNotFoundError _ => true | _ => false end).
Definition IsPeriodNotFound : Error -> bool :=
  period_is (fun e => match e with PeriodNotFoundError _ => true | _ => false end).
(** [period.isDomainError]: every typed error of the package. *)
Definition period_isDomainError : Error -> bool :=
  period_is (fun e => match e with
    | PeriodNotFoundError _ | PeriodInvalidNameError _ | InvalidRangeError _ | OverlapError _ _
    | AlreadyClosedError _ | NotClosedError _ | NotLatestClosedError _ | PeriodAuthorMissingError => true
    end).
Definition IsPeriodAuthorMissing : Error -> bool :=
  period_is (fun e => match e with PeriodAuthorMissingError => true | _ => false end).
Definition IsWalletNotFound : Error -> bool :=
  wallet_is (fun e => match e with WalletNotFoundError _ => true | _ => false end).
Definition IsWalletAlreadyExists : Error -> bool :=
  wallet_is (fun e => match e with WalletAlreadyExistsError _ => true | _ => false end).
Definition IsWalletInUse : Error -> bool :=
  wallet_is (fun e => match e with WalletInUseError _ => true | _ => false end).
Definition IsCategoryNotFound : Error -> bool :=
  category_is (fun e => match e with CategoryNotFoundError _ _ => true | _ => false end).
Definition IsCategoryAlreadyExists : Error -> bool :=
  category_is (fun e => match e with CategoryAlreadyExistsError _ _ => true | _ => false end).
Definition IsCategoryInUse : Error -> bool :=
  category_is (fun e => match e with CategoryInUseError _ => true | _ => false end).
Definition IsTxNotFound : Error -> bool :=
  tx_is (fun e => match e with TxNotFoundError _ => true | _ => false end).
Definition IsTxAuthorMissing : Error -> bool :=
  tx_is (fun e => match e with TxAuthorMissingError => true | _ => false end).

Definition outbox_is (p : OutboxError -> bool) : Error -> bool :=
  chain_is (fun e => match e with EOutbox x => p x | _ => false end).
Definition IsOutboxNotFound : Error -> bool :=
  outbox_is (fun e => match e with OutboxNotFoundError _ => true | _ => false end).
Definition IsTerminalState : Error -> bool :=
  outbox_is (fun e => match e with TerminalStateError _ _ => true | _ => false end).
Definition IsStaleClaim : Error -> bool :=
  outbox_is (fun e => match e with StaleClaimError _ _ _ => true | _ => false end).
Definition IsNotFailed : Error -> bool :=
  outbox_is (fun e => match e with NotFailedError _ _ => true | _ => false end).
Definition IsInvalidEntry : Error -> bool :=
  outbox_is (fun e => match e with InvalidEntryError _ _ => true | _ => false end).

Definition sheet_is (p : SheetError -> bool) : Error -> bool :=
  chain_is (fun e => match e with ESheet x => p x | _ => false end).
Definition IsLinkNotFound : Error -> bool :=
  sheet_is (fun e => match e with LinkNotFoundError _ => true | _ => false end).
Definition IsScopeMismatch : Error -> bool :=
  sheet_is (fun e => match e with ScopeMismatchError _ _ => true | _ => false end).
Definition IsSyncRefused : Error -> bool := chain_is (fun e => match e with ESyncRefused _ _ _ => true | _ => false end).
Definition IsRowRefused : Error -> bool := chain_is (fun e => match e with ERowRefused _ _ _ => true | _ => false end).
Definition IsOpenFailed : Error -> bool := chain_is (fun e => match e with ESealer OpenFailedError => true | _ => false end).
Definition webhook_is (p : WebhookError -> bool) : Error -> bool :=
  chain_is (fun e => match e with EWebhook x => p x | _ => false end).
Definition IsEndpointNotFound : Error -> bool :=
  webhook_is (fun e => match e with EndpointNotFoundError _ => true | _ => false end).
Definition IsSecretConflict : Error -> bool :=
  webhook_is (fun e => match e with SecretConflictError _ => true | _ => false end).
Definition IsUnavailable : Error -> bool := chain_is (fun e => match e with ESealer SealerUnavailableError => true | _ => false end).
Definition org_is (p : OrgError -> bool) : Error -> bool :=
  chain_is (fun e => match e with EOrg x => p x | _ => false end).
Definition IsOrgNotFound : Error -> bool :=
  org_is (fun e => match e with OrgNotFoundError _ _ _ => true | _ => false end).
Definition IsOrgAlreadyExists : Error -> bool :=
  org_is (fun e => match e with OrgAlreadyExistsError _ => true | _ => false end).
Definition IsMembershipMissing : Error -> bool :=
  org_is (fun e => match e with MembershipMissingError _ _ => true | _ => false end).
Definition IsUnreadableExistingOrg : Error -> bool :=
  org_is (fun e => match e with UnreadableExistingOrgError _ => true | _ => false end).
Definition IsSystemOrgExists : Error -> bool :=
  org_is (fun e => match e with SystemOrgExistsError _ => true | _ => false end).
Definition project_is (p : ProjectError -> bool) : Error -> bool :=
  chain_is (fun e => match e with EProject x => p x | _ => false end).
Definition IsProjectNotFound : Error -> bool :=
  project_is (fun e => match e with ProjectNotFoundError _ _ _ => true | _ => false end).
Definition IsProjectAlreadyExists : Error -> bool :=
  project_is (fun e => match e with ProjectAlreadyExistsError _ _ => true | _ => false end).
Definition IsSystemProjectExists : Error -> bool :=
  project_is (fun e => match e with SystemProjectExistsError _ _ => true | _ => false end).
Definition IsKeyNotFound : Error -> bool := chain_is (fun e => match e with EAPIKey KeyNotFoundError => true | _ => false end).
Definition IsUnauthorized : Error -> bool := chain_is (fun e => match e with EAuthn UnauthorizedError => true | _ => false end).
Definition user_is (p : UserError -> bool) : Error -> bool :=
  chain_is (fun e => match e with EUser x => p x | _ => false end).
Definition IsSingletonOrgMissing : Error -> bool := user_is (fun e => match e with SingletonOrgMissingError => true | _ => false end).
Definition IsUserNotFound : Error -> bool := user_is (fun e => match e with UserNotFoundError _ _ _ => true | _ => false end).
Definition IsUserAlreadyExists : Error -> bool :=
  user_is (fun e => match e with UserAlreadyExistsError _ _ => true | _ => false end).
Definition IsSignupRequired : Error -> bool := user_is (fun e => match e with SignupRequiredError _ _ => true | _ => false end).
Definition invite_is (p : InviteError -> bool) : Error -> bool :=
  chain_is (fun e => match e with EInvite x => p x | _ => false end).
Definition IsInviteNotFound : Error -> bool := invite_is (fun e => match e with InviteNotFoundError _ => true | _ => false end).
Definition onboard_is (p : OnboardError -> bool) : Error -> bool :=
  chain_is (fun e => match e with EOnboard x => p x | _ => false end).
Definition IsNotOnboarded : Error -> bool := onboard_is (fun e => match e with NotOnboardedError => true | _ => false end).
Definition IsAlreadyOnboarded : Error -> bool := onboard_is (fun e => match e with AlreadyOnboardedError => true | _ => false end).
Definition IsAuthnUnavailable : Error -> bool := chain_is (fun e => match e with EAuthnUnavailable _ => true | _ => false end).
(** [errors.Is] with [context.Canceled] or [context.DeadlineExceeded]. *)
Definition IsContextDone : Error -> bool := chain_is (fun e => match e with EContext _ => true | _ => false end).
Definition IsDeadlineExceeded : Error -> bool := chain_is (fun e => match e with EContext true => true | _ => false end).

(** ** Lemmas *)
Lemma chain_is_wrap p op e : chain_is p (EWrap op e) = p (EWrap op e) || chain_is p e.
Proof. reflexivity. Qed.

(** An error a typed predicate recognises carries an envelope. *)
Lemma is_app_chain e : existsb (fun x => match hop_app x with Some _ => true | None => false end) (chain e)
  = is_app e.
Proof.
  unfold is_app, AsAppError. generalize (chain e). intros l.
  induction l as [|x l IH]; cbn; auto. destruct (hop_app x); simpl; auto.
Qed.

Lemma chain_is_app p e :
  (forall x, p x = true -> hop_app x <> None) -> chain_is p e = true -> is_app e = true.
Proof.
  intros Hp H. rewrite <- is_app_chain. unfold chain_is in H.
  apply existsb_exists in H as (x & Hin & Hx). apply existsb_exists.
  exists x; split; auto. destruct (hop_app x) eqn:E; auto. exfalso. eapply Hp; eauto.
Qed.

(** Errors that carry no domain error: the tenant's, the driver's, and their wraps. *)
Definition infra (e : Error) : Prop :=
  forallb (fun x => match x with
                    | ETenant _ | ESqlite _ _ | EText _ | EWrap _ _ => true
                    | _ => false end) (chain e) = true.

Lemma infra_chain_is p e :
  infra e -> (forall x, p x = true -> match x with ETenant _ | ESqlite _ _ | EText _ | EWrap _ _ => False | _ => True end) ->
  chain_is p e = false.
Proof.
  unfold infra, chain_is. generalize (chain e). intros l Hl Hp. induction l as [|x l IH]; [reflexivity|].
  cbn [forallb existsb] in *. apply andb_prop in Hl as [Hx Hl]. rewrite (IH Hl), orb_false_r.
  destruct (p x) eqn:Ep; [|reflexivity]. specialize (Hp x Ep). destruct x; congruence || contradiction.
Qed.
Lemma infra_wrap op e : infra e -> infra (EWrap op e).
Proof. intros H. exact H. Qed.
