(* ===== verification/Encoding.v ===== *)
(** * Text encodings: hex, base64 and HMAC-SHA-256

    The parts of Go's [encoding/hex], [encoding/base64], [crypto/sha256] and
    [crypto/hmac] that signing and minting secrets use, on byte strings. *)
From Stdlib Require Import ZArith Lia String Ascii List.
From stdpp Require Import base list strings.
From S2P Require Import Prelude GoStrings Errors.
Local Open Scope string_scope.

Definition bytes (s : string) : list N := map byte_of (list_ascii_of_string s).
Definition of_bytes (l : list N) : string := string_of_list_ascii (map ascii_of_N l).

(** [hex.EncodeToString]. *)
Definition hex_EncodeToString (s : string) : string := String.concat "" (map (hex_n 2) (bytes s)).

(** ** Base64 without padding *)

(** The alphabets of [base64.RawURLEncoding] and [base64.RawStdEncoding]. *)
Definition base64_chr (n : N) : ascii :=
  ascii_of_N (if n <? 26 then 65 + n else if n <? 52 then 71 + n else if n <? 62 then n - 4 else if n =? 62 then 45 else 95)%N.
Definition std_chr (n : N) : ascii :=
  ascii_of_N (if n <? 26 then 65 + n else if n <? 52 then 71 + n else if n <? 62 then n - 4 else if n =? 62 then 43 else 47)%N.
Fixpoint base64_groups (chr : N -> ascii) (l : list N) : list ascii :=
  match l with
  | [] => []
  | [a] => [chr (a / 4); chr (a mod 4 * 16)]%N
  | [a; b] => [chr (a / 4); chr (a mod 4 * 16 + b / 16); chr (b mod 16 * 4)]%N
  | a :: b :: c :: l =>
    (chr (a / 4) :: chr (a mod 4 * 16 + b / 16) :: chr (b mod 16 * 4 + c / 64) :: chr (c mod 64) :: base64_groups chr l)%N
  end.
Definition RawURL_EncodeToString (s : string) : string := string_of_list_ascii (base64_groups base64_chr (bytes s)).
Definition RawStd_EncodeToString (s : string) : string := string_of_list_ascii (base64_groups std_chr (bytes s)).

(** [RawStdEncoding.DecodeString]: line ends are passed over, a lone last character is refused. *)
Definition std_val (c : ascii) : option N :=
  let n := byte_of c in
  if in_range 65 90 c then Some (n - 65)%N else if in_range 97 122 c then Some (n - 71)%N else
  if in_range 48 57 c then Some (n + 4)%N else if N.eqb n 43 then Some 62%N else if N.eqb n 47 then Some 63%N else None.
Fixpoint std_vals (l : list ascii) : option (list N) :=
  match l with
  | [] => Some []
  | c :: l =>
    if N.eqb (byte_of c) 10 || N.eqb (byte_of c) 13 then std_vals l else
    match std_val c, std_vals l with Some v, Some vs => Some (v :: vs) | _, _ => None end
  end.
Fixpoint base64_ungroup (l : list N) : option (list N) :=
  match l with
  | [] => Some []
  | [_] => None
  | [a; b] => Some [a * 4 + b / 16]%N
  | [a; b; c] => Some [a * 4 + b / 16; b mod 16 * 16 + c / 4]%N
  | a :: b :: c :: d :: l =>
    option_map (fun r => a * 4 + b / 16 :: b mod 16 * 16 + c / 4 :: c mod 4 * 64 + d :: r)%N (base64_ungroup l)
  end.
Definition RawStd_DecodeString (s : string) : option string :=
  match std_vals (list_ascii_of_string s) with Some vs => option_map of_bytes (base64_ungroup vs) | None => None end.

(** ** SHA-256 (FIPS 180-4), on 32-bit words *)
Definition word32 (z : N) : N := (z mod 2 ^ 32)%N.
Definition add32 (a b : N) : N := word32 (a + b).
Definition rotr (n x : N) : N := N.lor (N.shiftr x n) (word32 (N.shiftl x (32 - n))).
Definition xor3 (a b c : N) : N := N.lxor (N.lxor a b) c.
Definition choose (x y z : N) : N := N.lxor (N.land x y) (N.land (N.lxor x (2 ^ 32 - 1)) z).
Definition majority (x y z : N) : N := xor3 (N.land x y) (N.land x z) (N.land y z).

Definition primes64 : list N :=
  List.filter (fun p => forallb (fun d => negb (p mod d =? 0)%N || (d =? p)%N) (map N.of_nat (seq 2 310)))
    (map N.of_nat (seq 2 310)).
(** The integer cube root, bit by bit from [2 ^ k]. *)
Fixpoint cube_root (k : nat) (n acc : N) : N :=
  let acc' := (acc + 2 ^ N.of_nat k)%N in
  let best := if (acc' ^ 3 <=? n)%N then acc' else acc in
  match k with O => best | S k => cube_root k n best end.
(** The first 32 bits of the fractional parts of the cube roots and the square
    roots of the first primes. *)
Definition round_constants : list N :=
  Eval vm_compute in map (fun p => word32 (cube_root 36 (p * 2 ^ 96) 0)) primes64.
Definition initial_state : list N :=
  Eval vm_compute in map (fun p => word32 (N.sqrt (p * 2 ^ 64))) (firstn 8 primes64).

Definition big_endian (n : nat) (z : N) : list N := map (fun i => N.shiftr z (8 * N.of_nat i) mod 256)%N (rev (seq 0 n)).
Fixpoint words32 (l : list N) : list N :=
  match l with
  | a :: b :: c :: d :: l => (a * 2 ^ 24 + b * 2 ^ 16 + c * 2 ^ 8 + d)%N :: words32 l
  | _ => []
  end.
Definition sha_pad (m : list N) : list N :=
  let n := List.length m in
  (m ++ [128%N] ++ repeat 0%N ((119 - n mod 64) mod 64) ++ big_endian 8 (8 * N.of_nat n))%list.

(** The message schedule as a window of sixteen words; one round consumes its first. *)
Definition next_word (w : list N) : N :=
  let at_ := fun i => nth i w 0%N in
  add32 (add32 (xor3 (rotr 17 (at_ 14)) (rotr 19 (at_ 14)) (N.shiftr (at_ 14) 10)) (at_ 9))
    (add32 (xor3 (rotr 7 (at_ 1)) (rotr 18 (at_ 1)) (N.shiftr (at_ 1) 3)) (at_ 0)).
Definition sha_round (k w : N) (st : list N) : list N :=
  match st with
  | [a; b; c; d; e; f; g; h] =>
    let t1 := add32 (add32 (add32 h (xor3 (rotr 6 e) (rotr 11 e) (rotr 25 e))) (choose e f g)) (add32 k w) in
    let t2 := add32 (xor3 (rotr 2 a) (rotr 13 a) (rotr 22 a)) (majority a b c) in
    [add32 t1 t2; a; b; c; add32 d t1; e; f; g]
  | _ => st
  end.
Fixpoint sha_rounds (ks w st : list N) : list N :=
  match ks, w with
  | k :: ks, x :: rest => sha_rounds ks (rest ++ [next_word w]) (sha_round k x st)
  | _, _ => st
  end.
Definition sha_block (st w : list N) : list N :=
  map (fun p => add32 (fst p) (snd p)) (combine st (sha_rounds round_constants w st)).
Fixpoint sha_blocks (n : nat) (ws st : list N) : list N :=
  match n with
  | O => st
  | S n => sha_blocks n (skipn 16 ws) (sha_block st (firstn 16 ws))
  end.
Definition sha256_bytes (m : list N) : list N :=
  let ws := words32 (sha_pad m) in
  flat_map (big_endian 4) (sha_blocks (List.length ws / 16) ws initial_state).

(** [hmac.New(sha256.New, key)] over one message. *)
Definition hmac_sha256 (key msg : string) : string :=
  let k0 := bytes key in
  let k1 := if Nat.ltb 64 (List.length k0) then sha256_bytes k0 else k0 in
  let k := (k1 ++ repeat 0%N (64 - List.length k1))%list in
  of_bytes (sha256_bytes (map (N.lxor 92) k ++ sha256_bytes (map (N.lxor 54) k ++ bytes msg)))%list.

(** The test vectors of FIPS 180-4 and RFC 4231. *)
Example sha256_abc :
  hex_EncodeToString (of_bytes (sha256_bytes (bytes "abc")))
  = "ba7816bf8f01cfea414140de5dae2223b00361a396177a9cb410ff61f20015ad".
Proof. vm_compute. reflexivity. Qed.
Example hmac_jefe :
  hex_EncodeToString (hmac_sha256 "Jefe" "what do ya want for nothing?")
  = "5bdcc146bf60754e6a042426089575c75a003f089d2739839dec58b964ec3843".
Proof. vm_compute. reflexivity. Qed.

(** [crypto/rand.Read] of a secret's bytes. *)
Class SecretBytes := rand_bytes : nat -> Error + string.
(** [crypto/rand.Read] of a number of bytes, at a draw. *)
Class RandRead := rand_Read : nat -> nat -> Error + string.

(** ** Base64 reads back *)
Lemma std_chr_facts v : (v < 64)%N ->
  std_val (std_chr v) = Some v /\ byte_of (std_chr v) <> 10%N /\ byte_of (std_chr v) <> 13%N /\ std_chr v <> "$"%char.
Proof.
  intros Hv.
  assert (Hall : forallb (fun n => let v := N.of_nat n in
    bool_decide (std_val (std_chr v) = Some v) && negb (N.eqb (byte_of (std_chr v)) 10) && negb (N.eqb (byte_of (std_chr v)) 13)
    && negb (Ascii.eqb (std_chr v) "$")) (seq 0 64) = true) by (vm_compute; reflexivity).
  rewrite forallb_forall in Hall. specialize (Hall (N.to_nat v)). rewrite N2Nat.id in Hall.
  assert (In (N.to_nat v) (seq 0 64)) as Hin by (apply in_seq; lia). specialize (Hall Hin). cbv zeta in Hall.
  apply andb_prop in Hall as [[[H1 H2]%andb_prop H3]%andb_prop H4].
  apply bool_decide_eq_true in H1. apply negb_true_iff in H2, H3, H4.
  apply N.eqb_neq in H2, H3. apply Ascii.eqb_neq in H4. auto.
Qed.
Lemma std_vals_cons v l : (v < 64)%N -> std_vals (std_chr v :: l) = option_map (cons v) (std_vals l).
Proof.
  intros Hv. destruct (std_chr_facts v Hv) as (E & H10 & H13 & _). cbn [std_vals].
  destruct (N.eqb_spec (byte_of (std_chr v)) 10); [congruence|]. destruct (N.eqb_spec (byte_of (std_chr v)) 13); [congruence|].
  cbn [orb]. rewrite E. destruct (std_vals l); reflexivity.
Qed.
Lemma sextets a b c : (a < 256)%N -> (b < 256)%N -> (c < 256)%N ->
  (a / 4 < 64 /\ a mod 4 * 16 + b / 16 < 64 /\ b mod 16 * 4 + c / 64 < 64 /\ c mod 64 < 64)%N
  /\ (a / 4 * 4 + (a mod 4 * 16 + b / 16) / 16 = a)%N
  /\ ((a mod 4 * 16 + b / 16) mod 16 * 16 + (b mod 16 * 4 + c / 64) / 4 = b)%N
  /\ ((b mod 16 * 4 + c / 64) mod 4 * 64 + c mod 64 = c)%N.
Proof.
  intros Ha Hb Hc. assert (Hq : (a / 4 < 64 /\ a mod 4 < 4 /\ b / 16 < 16 /\ b mod 16 < 16 /\ c / 64 < 4 /\ c mod 64 < 64)%N)
    by (repeat split; first [apply N.mod_lt; lia | apply N.Div0.div_lt_upper_bound; lia]).
  destruct Hq as (Q1 & Q2 & Q3 & Q4 & Q5 & Q6).
  pose proof (N.div_mod a 4 ltac:(lia)) as Da. pose proof (N.div_mod b 16 ltac:(lia)) as Db. pose proof (N.div_mod c 64 ltac:(lia)) as Dc.
  assert (E : forall m x y, (x < m -> (y * m + x) / m = y /\ (y * m + x) mod m = x)%N).
  { intros m x y Hx. rewrite N.div_add_l, (N.div_small x), (N.add_comm (y * m)), N.Div0.mod_add, N.mod_small by lia. lia. }
  destruct (E 16%N _ (a mod 4)%N Q3) as [-> ->]. destruct (E 4%N _ (b mod 16)%N Q5) as [-> ->]. repeat split; lia.
Qed.
Lemma base64_back l : Forall (fun b => (b < 256)%N) l ->
  exists vs, std_vals (base64_groups std_chr l) = Some vs /\ base64_ungroup vs = Some l.
Proof.
  remember (List.length l) as n eqn:En. revert l En. induction n as [n IH] using lt_wf_ind. intros l -> Hl.
  destruct l as [|a [|b [|c l]]].
  - exists []. split; reflexivity.
  - apply Forall_cons in Hl as [Ha _]. destruct (sextets a 0 0 Ha ltac:(lia) ltac:(lia)) as ((L1 & L2 & _) & E1 & _).
    change (0 / 16)%N with 0%N in *. rewrite N.add_0_r in *. exists [a / 4; a mod 4 * 16]%N. cbn [base64_groups].
    rewrite !std_vals_cons by assumption. split; [reflexivity|]. cbn [base64_ungroup]. rewrite E1. reflexivity.
  - apply Forall_cons in Hl as [Ha [Hb _]%Forall_cons]. destruct (sextets a b 0 Ha Hb ltac:(lia)) as ((L1 & L2 & L3 & _) & E1 & E2 & _).
    change (0 / 64)%N with 0%N in *. rewrite N.add_0_r in *. exists [a / 4; a mod 4 * 16 + b / 16; b mod 16 * 4]%N. cbn [base64_groups].
    rewrite !std_vals_cons by assumption. split; [reflexivity|]. cbn [base64_ungroup]. rewrite E1, E2. reflexivity.
  - apply Forall_cons in Hl as [Ha [Hb [Hc Hl]%Forall_cons]%Forall_cons]. destruct (sextets a b c Ha Hb Hc) as ((L1 & L2 & L3 & L4) & E1 & E2 & E3).
    destruct (IH (List.length l) ltac:(cbn; lia) l eq_refl Hl) as (vs & Ev & Eu).
    exists (a / 4 :: a mod 4 * 16 + b / 16 :: b mod 16 * 4 + c / 64 :: c mod 64 :: vs)%N. cbn [base64_groups].
    rewrite !std_vals_cons, Ev by assumption. split; [reflexivity|]. cbn [base64_ungroup]. rewrite Eu, E1, E2, E3. reflexivity.
Qed.
Lemma bytes_small s : Forall (fun b => (b < 256)%N) (bytes s).
Proof. unfold bytes. apply Forall_map, Forall_forall. intros c _. apply N_ascii_bounded. Qed.
Lemma of_bytes_bytes s : of_bytes (bytes s) = s.
Proof.
  unfold of_bytes, bytes. rewrite map_map. rewrite (map_ext _ id), map_id, string_of_list_ascii_of_string; [reflexivity|].
  intros c. apply ascii_N_embedding.
Qed.
Lemma RawStd_roundtrip s : RawStd_DecodeString (RawStd_EncodeToString s) = Some s.
Proof.
  unfold RawStd_DecodeString, RawStd_EncodeToString. rewrite list_ascii_of_string_of_list_ascii.
  destruct (base64_back _ (bytes_small s)) as (vs & -> & ->). cbn. rewrite of_bytes_bytes. reflexivity.
Qed.
(** Base64 text holds no separator. *)
Lemma base64_free l : Forall (fun b => (b < 256)%N) l -> Forall (fun c => c <> "$"%char) (base64_groups std_chr l).
Proof.
  remember (List.length l) as n eqn:En. revert l En. induction n as [n IH] using lt_wf_ind. intros l -> Hl.
  assert (Hc : forall v, (v < 64)%N -> std_chr v <> "$"%char) by (intros v Hv; apply std_chr_facts, Hv).
  destruct l as [|a [|b [|c l]]]; cbn [base64_groups].
  - constructor.
  - apply Forall_cons in Hl as [Ha _]. destruct (sextets a 0 0 Ha ltac:(lia) ltac:(lia)) as ((L1 & L2 & _) & _).
    change (0 / 16)%N with 0%N in *. rewrite N.add_0_r in *. repeat constructor; auto.
  - apply Forall_cons in Hl as [Ha [Hb _]%Forall_cons]. destruct (sextets a b 0 Ha Hb ltac:(lia)) as ((L1 & L2 & L3 & _) & _).
    change (0 / 64)%N with 0%N in *. rewrite N.add_0_r in *. repeat constructor; auto.
  - apply Forall_cons in Hl as [Ha [Hb [Hc' Hl]%Forall_cons]%Forall_cons]. destruct (sextets a b c Ha Hb Hc') as ((L1 & L2 & L3 & L4) & _).
    repeat constructor; auto. apply (IH (List.length l)); [cbn; lia | reflexivity | exact Hl].
Qed.
