(* ===== verification/GoJSON.v ===== *)
(** * JSON, as Go's [encoding/json] prints and reads it

    The compact text [json.Marshal] writes for the values the code marshals, and
    [json.Unmarshal]'s grammar with its escapes, its replacement of invalid UTF-8
    and its nesting limit. What is printed is read back. *)
From Stdlib Require Import ZArith Lia String Ascii List.
From stdpp Require Import base list strings.
From S2P Require Import Prelude GoStrings Errors.
Local Open Scope string_scope.

#[local] Unset Elimination Schemes.
Inductive json :=
| JNull
| JBool (b : bool)
| JNum (lit : string)
| JStr (s : string)
| JArr (l : list json)
| JObj (l : list (string * json)).
#[local] Set Elimination Schemes.

(** Induction with a hypothesis for every element and member. *)
Lemma json_ind (P : json -> Prop) :
  P JNull -> (forall b, P (JBool b)) -> (forall lit, P (JNum lit)) -> (forall s, P (JStr s)) ->
  (forall l, Forall P l -> P (JArr l)) -> (forall l, Forall (fun m => P (snd m)) l -> P (JObj l)) -> forall j, P j.
Proof.
  intros Hn Hb Hl Hs Ha Ho. fix IH 1. intros [| b | lit | s | l | l]; [exact Hn | apply Hb | apply Hl | apply Hs | |].
  - apply Ha. induction l as [|j l IHl]; constructor; [apply IH | exact IHl].
  - apply Ho. induction l as [|[k j] l IHl]; constructor; [apply IH | exact IHl].
Qed.

(** ** Printing *)

Definition dquote : ascii := ascii_of_N 34.
Definition backslash : ascii := ascii_of_N 92.
Definition escaped (c : ascii) : string := String backslash (String c "").

(** One rune of a string, with HTML's and JavaScript's special characters escaped
    ([appendString]). *)
Definition escape_rune (p : N * string) : string :=
  let r := fst p in
  if bad_rune p then String backslash "ufffd" else
  if (r <? 128)%N then
    if (r =? 34)%N then escaped dquote else if (r =? 92)%N then escaped backslash else
    if (r =? 8)%N then escaped "b" else if (r =? 12)%N then escaped "f" else if (r =? 10)%N then escaped "n" else
    if (r =? 13)%N then escaped "r" else if (r =? 9)%N then escaped "t" else
    if (r <? 32)%N || existsb (N.eqb r) [38; 60; 62]%N then String backslash ("u00" ++ hex_n 2 r) else snd p
  else if (r =? 8232)%N || (r =? 8233)%N then String backslash ("u202" ++ hex_n 1 (r mod 16)) else snd p.
Definition escape (l : list (N * string)) : string := String.concat "" (map escape_rune l).
Definition json_quote (s : string) : string := String dquote (escape (runes s) ++ String dquote "").

Definition commas (l : list string) : string := String.concat "," l.
Fixpoint json_print (j : json) : string :=
  match j with
  | JNull => "null"
  | JBool b => if b then "true" else "false"
  | JNum lit => lit
  | JStr s => json_quote s
  | JArr l => "[" ++ commas (map json_print l) ++ "]"
  | JObj l => "{" ++ commas (map (fun m => json_quote (fst m) ++ ":" ++ json_print (snd m)) l) ++ "}"
  end.

(** ** Reading *)

Definition json_space (c : ascii) : bool := existsb (N.eqb (byte_of c)) [9; 10; 13; 32]%N.
Fixpoint skip_spaces (s : string) : string :=
  match s with String c r => if json_space c then skip_spaces r else s | "" => "" end.

(** The rest of [s] after the character [c], at once or after spaces. *)
Definition head_is (c : ascii) (s : string) : option string :=
  match s with String x r => if Ascii.eqb x c then Some r else None | "" => None end.
Definition next_is (c : ascii) (s : string) : option string := head_is c (skip_spaces s).

Definition hex_value (c : ascii) : option N :=
  let b := byte_of c in
  if in_range 48 57 c then Some (b - 48)%N else if in_range 97 102 c then Some (b - 87)%N
  else if in_range 65 70 c then Some (b - 55)%N else None.
(** Four hexadecimal digits. *)
Definition hex4 (s : string) : option (N * string) :=
  match s with
  | String a (String b (String c (String d r))) =>
    match hex_value a, hex_value b, hex_value c, hex_value d with
    | Some a, Some b, Some c, Some d => Some (((a * 16 + b) * 16 + c) * 16 + d, r)%N
    | _, _, _, _ => None
    end
  | _ => None
  end.
Definition unicode_escape (s : string) : option (N * string) :=
  match s with
  | String a (String b r) => if Ascii.eqb a backslash && Ascii.eqb b "u" then hex4 r else None
  | _ => None
  end.
Definition between (lo hi r : N) : bool := ((lo <=? r) && (r <? hi))%N.
Definition replacement : string := encode_rune RuneError.
Definition simple_escape (c : ascii) : option string :=
  let b := byte_of c in
  if existsb (N.eqb b) [34; 47; 92]%N then Some (String c "") else
  if (b =? 98)%N then Some (byte_chr 8) else if (b =? 102)%N then Some (byte_chr 12) else
  if (b =? 110)%N then Some (byte_chr 10) else if (b =? 114)%N then Some (byte_chr 13) else
  if (b =? 116)%N then Some (byte_chr 9) else None.

(** One character of a string literal with its escapes read ([unquote]), and the
    rest; [None] at a quote, a control character, a bad escape or the end. *)
Definition read_char (s : string) : option (string * string) :=
  match s with
  | "" => None
  | String c r =>
    if Ascii.eqb c dquote then None else
    if Ascii.eqb c backslash then
      match unicode_escape s with
      | Some (u, r1) =>
        if between 55296 57344 u then
          match unicode_escape r1 with
          | Some (u2, r2) =>
            if between 55296 56320 u && between 56320 57344 u2
            then Some (encode_rune ((u - 55296) * 1024 + (u2 - 56320) + 65536)%N, r2) else Some (replacement, r1)
          | None => Some (replacement, r1)
          end
        else Some (encode_rune u, r1)
      | None => match r with String e r1 => option_map (fun t => (t, r1)) (simple_escape e) | "" => None end
      end
    else if (byte_of c <? 32)%N then None
    else match decode_rune s with
         | Some (x, enc, rest) => Some (if bad_rune (x, enc) then replacement else enc, rest)
         | None => None
         end
  end.
(** What follows the opening quote: the text and the rest after the closing one. *)
Fixpoint unquote (n : nat) (s : string) : option (string * string) :=
  match n with
  | O => None
  | S n =>
    match s with
    | "" => None
    | String c r =>
      if Ascii.eqb c dquote then Some ("", r) else
      match read_char s with
      | Some (t, rest) => option_map (fun p => (t ++ fst p, snd p)) (unquote n rest)
      | None => None
      end
    end
  end.

Fixpoint take_while_digits (s : string) : string * string :=
  match s with
  | String c r => if is_digit c then let p := take_while_digits r in (String c (fst p), snd p) else ("", s)
  | "" => ("", "")
  end.
(** Digits, one at least. *)
Definition digits1 (s : string) : option (string * string) :=
  let p := take_while_digits s in if String.eqb (fst p) "" then None else Some p.
Definition read_fraction (s : string) : option (string * string) :=
  match head_is "." s with
  | Some r => option_map (fun p => ("." ++ fst p, snd p)) (digits1 r)
  | None => Some ("", s)
  end.
Definition read_exponent (s : string) : option (string * string) :=
  match s with
  | String c r =>
    if Ascii.eqb c "e" || Ascii.eqb c "E" then
      match r with
      | String g r' =>
        if Ascii.eqb g "+" || Ascii.eqb g "-" then option_map (fun p => (String c (String g (fst p)), snd p)) (digits1 r')
        else option_map (fun p => (String c (fst p), snd p)) (digits1 r)
      | "" => None
      end
    else Some ("", s)
  | "" => Some ("", "")
  end.
Definition read_integer (s : string) : option (string * string) :=
  match head_is "0" s with
  | Some r => Some ("0", r)
  | None => digits1 s
  end.
Definition read_number (s : string) : option (string * string) :=
  let '(sign, s) := match head_is "-" s with Some r => ("-", r) | None => ("", s) end in
  match read_integer s with
  | None => None
  | Some (i, s) =>
    match read_fraction s with
    | None => None
    | Some (f, s) => option_map (fun p => (sign ++ i ++ f ++ fst p, snd p)) (read_exponent s)
    end
  end.

Definition read_literal (s : string) : option (json * string) :=
  if HasPrefix s "null" then Some (JNull, drop_str 4 s) else
  if HasPrefix s "true" then Some (JBool true, drop_str 4 s) else
  if HasPrefix s "false" then Some (JBool false, drop_str 5 s) else
  option_map (fun p => (JNum (fst p), snd p)) (read_number s).

Definition maxNestingDepth : N := 10000.

(** A value, the elements of an array and the members of an object after their
    opening bracket, [d] levels deep at most. *)
Fixpoint read_value (n : nat) (d : N) (s : string) : option (json * string) :=
  match n with
  | O => None
  | S n =>
    match skip_spaces s with
    | "" => None
    | String c r =>
      if Ascii.eqb c "[" then
        if (d =? 0)%N then None else
        match next_is "]" r with
        | Some r' => Some (JArr [], r')
        | None => option_map (fun p => (JArr (fst p), snd p)) (read_elements n (d - 1) r)
        end
      else if Ascii.eqb c "{" then
        if (d =? 0)%N then None else
        match next_is "}" r with
        | Some r' => Some (JObj [], r')
        | None => option_map (fun p => (JObj (fst p), snd p)) (read_members n (d - 1) r)
        end
      else if Ascii.eqb c dquote then option_map (fun p => (JStr (fst p), snd p)) (unquote (String.length r) r)
      else read_literal (String c r)
    end
  end
with read_elements (n : nat) (d : N) (s : string) : option (list json * string) :=
  match n with
  | O => None
  | S n =>
    match read_value n d s with
    | None => None
    | Some (v, r) =>
      match next_is "]" r with
      | Some r' => Some ([v], r')
      | None =>
        match next_is "," r with
        | Some r' => option_map (fun p => (v :: fst p, snd p)) (read_elements n d r')
        | None => None
        end
      end
    end
  end
with read_members (n : nat) (d : N) (s : string) : option (list (string * json) * string) :=
  match n with
  | O => None
  | S n =>
    match next_is dquote s with
    | None => None
    | Some r =>
      match unquote (String.length r) r with
      | None => None
      | Some (k, r) =>
        match next_is ":" r with
        | None => None
        | Some r =>
          match read_value n d r with
          | None => None
          | Some (v, r) =>
            match next_is "}" r with
            | Some r' => Some ([(k, v)], r')
            | None =>
              match next_is "," r with
              | Some r' => option_map (fun p => ((k, v) :: fst p, snd p)) (read_members n d r')
              | None => None
              end
            end
          end
        end
      end
    end
  end.
(** A whole text: one value between spaces. Every call but the first is preceded by
    a character consumed, two calls at most per character. *)
Definition json_read (s : string) : option json :=
  match read_value (2 * String.length s + 1) maxNestingDepth s with
  | Some (j, r) => if String.eqb (skip_spaces r) "" then Some j else None
  | None => None
  end.

Example json_read_ex :
  json_read (" {" ++ quoted "a" ++ " : [1, -2.5e+3,null ], " ++ quoted "b\u00e9\n" ++ ":{}} ")
  = Some (JObj [("a", JArr [JNum "1"; JNum "-2.5e+3"; JNull]);
                ("b" ++ encode_rune 233 ++ byte_chr 10, JObj [])]).
Proof. vm_compute. reflexivity. Qed.

(** ** What [json.Marshal] prints, [json.Unmarshal] reads back

    Strings, character by character; then values, for any nesting the reader
    admits; and the reader's fuel, which is always enough. *)
(** ** [utf8.EncodeRune] undoes [utf8.DecodeRune] *)

Lemma lor_shiftl x k y : (y < 2 ^ k)%N -> N.lor (N.shiftl x k) y = (x * 2 ^ k + y)%N.
Proof.
  intros Hy. assert (D : N.land (N.shiftl x k) y = 0%N).
  { apply N.bits_inj. intros i. rewrite N.land_spec, N.bits_0. destruct (N.lt_ge_cases i k) as [L|G].
    - rewrite N.shiftl_spec_low by exact L. reflexivity.
    - rewrite <- (N.mod_small y (2 ^ k)) by exact Hy. rewrite N.mod_pow2_bits_high by exact G. apply andb_false_r. }
  rewrite <- N.lxor_lor, <- N.add_nocarry_lxor, N.shiftl_mul_pow2 by exact D. reflexivity.
Qed.
Lemma lor_high a k y : (y < 2 ^ k)%N -> N.lor (a * 2 ^ k) y = (a * 2 ^ k + y)%N.
Proof. intros. rewrite <- (N.shiftl_mul_pow2 a k) at 1. apply lor_shiftl. assumption. Qed.
Lemma land_low b k : N.land b (2 ^ k - 1) = (b mod 2 ^ k)%N.
Proof. rewrite <- N.land_ones. f_equal. rewrite N.ones_equiv. lia. Qed.

Lemma in_range_spec lo hi c : in_range lo hi c = true <-> (lo <= byte_of c <= hi)%N.
Proof. unfold in_range. rewrite andb_true_iff, !N.leb_le. tauto. Qed.
Lemma byte_chr_byte c n : byte_of c = n -> byte_chr n = String c "".
Proof. intros <-. unfold byte_chr, byte_of. rewrite ascii_N_embedding. reflexivity. Qed.

(** The value of a decoded rune, and its encoding. *)
Ltac bytes_facts := repeat match goal with
  | H : (_ && _)%bool = true |- _ => apply andb_prop in H as [? ?]
  | H : in_range _ _ _ = true |- _ => apply in_range_spec in H
  | H : (_ <? _)%N = false |- _ => apply N.ltb_ge in H
  end.

(** The markers of leading and continuation bytes, as multiples of a power of two. *)
Ltac lead_bytes := repeat match goal with
  | |- context [N.lor 192 ?x] => change (N.lor 192 x) with (N.lor (6 * 2 ^ 5) x)
  | |- context [N.lor 224 ?x] => change (N.lor 224 x) with (N.lor (14 * 2 ^ 4) x)
  | |- context [N.lor 240 ?x] => change (N.lor 240 x) with (N.lor (30 * 2 ^ 3) x)
  | |- context [N.lor 128 ?x] => change (N.lor 128 x) with (N.lor (2 * 2 ^ 6) x)
  end.
Lemma mod_sub x m q : (q * m <= x < (q + 1) * m)%N -> (x mod m = x - q * m)%N.
Proof. intros H. symmetry. apply (N.mod_unique x m q); nia. Qed.
Lemma encode_two a b : (194 <= byte_of a <= 223)%N -> (128 <= byte_of b <= 191)%N ->
  encode_rune (N.lor (N.shiftl (N.land (byte_of a) 31) 6) (cont b)) = String a (String b "").
Proof.
  intros Ha Hb. unfold cont. change 63%N with (2 ^ 6 - 1)%N. change 31%N with (2 ^ 5 - 1)%N. rewrite !land_low.
  rewrite (mod_sub (byte_of a) _ 6), (mod_sub (byte_of b) _ 2) by (cbn; lia). rewrite lor_shiftl by (cbn; lia).
  set (x := (byte_of a - 6 * 2 ^ 5)%N). set (y := (byte_of b - 2 * 2 ^ 6)%N).
  assert (Hx : (2 <= x < 32)%N) by (subst x; cbn; lia). assert (Hy : (y < 64)%N) by (subst y; cbn; lia).
  unfold encode_rune. rewrite !N.shiftr_div_pow2. change 63%N with (2 ^ 6 - 1)%N. rewrite land_low.
  change (2 ^ 6)%N with 64%N in *.
  destruct (N.ltb_spec (x * 64 + y) 128); [lia|]. destruct (N.ltb_spec (x * 64 + y) 2048); [|lia].
  rewrite (N.div_add_l x 64 y), (N.div_small y 64), N.add_0_r by lia.
  replace ((x * 64 + y) mod 64)%N with y by (apply N.mod_unique with x; lia).
  lead_bytes. rewrite !lor_high by (cbn; lia).
  rewrite (byte_chr_byte a), (byte_chr_byte b) by (subst x y; cbn; lia). reflexivity.
Qed.
Lemma encode_three a b c : (224 <= byte_of a <= 239)%N -> (128 <= byte_of b <= 191)%N -> (128 <= byte_of c <= 191)%N ->
  (byte_of a = 224 -> 160 <= byte_of b)%N ->
  encode_rune (N.lor (N.shiftl (N.land (byte_of a) 15) 12) (N.lor (N.shiftl (cont b) 6) (cont c)))
  = String a (String b (String c "")).
Proof.
  intros Ha Hb Hc Hlow. unfold cont. change 63%N with (2 ^ 6 - 1)%N. change 15%N with (2 ^ 4 - 1)%N. rewrite !land_low.
  rewrite (mod_sub (byte_of a) _ 14), (mod_sub (byte_of b) _ 2), (mod_sub (byte_of c) _ 2) by (cbn; lia).
  rewrite (lor_shiftl _ 6), (lor_shiftl _ 12) by (cbn; lia).
  set (x := (byte_of a - 14 * 2 ^ 4)%N). set (y := (byte_of b - 2 * 2 ^ 6)%N). set (z := (byte_of c - 2 * 2 ^ 6)%N).
  assert (Hx : (x < 16)%N) by (subst x; cbn; lia). assert (Hy : (y < 64)%N) by (subst y; cbn; lia).
  assert (Hz : (z < 64)%N) by (subst z; cbn; lia).
  assert (Hxy : (x = 0 -> 32 <= y)%N) by (intros E; assert (byte_of a = 224)%N by (subst x; cbn in E; lia); subst y; cbn; lia).
  unfold encode_rune. rewrite !N.shiftr_div_pow2. change 63%N with (2 ^ 6 - 1)%N. rewrite !land_low.
  change (2 ^ 6)%N with 64%N in *. change (2 ^ 12)%N with 4096%N.
  set (r := (x * 4096 + (y * 64 + z))%N).
  destruct (N.ltb_spec r 128); [lia|]. destruct (N.ltb_spec r 2048); [lia|]. destruct (N.ltb_spec r 65536); [|lia].
  replace (r / 4096)%N with x by (apply N.div_unique with (y * 64 + z)%N; lia).
  replace ((r / 64) mod 64)%N with y
    by (replace (r / 64)%N with (x * 64 + y)%N by (apply N.div_unique with z; lia); apply N.mod_unique with x; lia).
  replace (r mod 64)%N with z by (apply N.mod_unique with (x * 64 + y)%N; lia).
  lead_bytes. rewrite !lor_high by (cbn; lia).
  rewrite (byte_chr_byte a), (byte_chr_byte b), (byte_chr_byte c) by (subst x y z; cbn; lia). reflexivity.
Qed.
Lemma encode_four a b c d : (240 <= byte_of a <= 244)%N -> (128 <= byte_of b <= 191)%N -> (128 <= byte_of c <= 191)%N ->
  (128 <= byte_of d <= 191)%N -> (byte_of a = 240 -> 144 <= byte_of b)%N ->
  encode_rune (N.lor (N.shiftl (N.land (byte_of a) 7) 18)
    (N.lor (N.shiftl (cont b) 12) (N.lor (N.shiftl (cont c) 6) (cont d))))
  = String a (String b (String c (String d ""))).
Proof.
  intros Ha Hb Hc Hd Hlow. unfold cont. change 63%N with (2 ^ 6 - 1)%N. change 7%N with (2 ^ 3 - 1)%N. rewrite !land_low.
  rewrite (mod_sub (byte_of a) _ 30), (mod_sub (byte_of b) _ 2), (mod_sub (byte_of c) _ 2), (mod_sub (byte_of d) _ 2) by (cbn; lia).
  rewrite (lor_shiftl _ 6), (lor_shiftl _ 12), (lor_shiftl _ 18) by (cbn; lia).
  set (x := (byte_of a - 30 * 2 ^ 3)%N). set (y := (byte_of b - 2 * 2 ^ 6)%N). set (z := (byte_of c - 2 * 2 ^ 6)%N).
  set (w := (byte_of d - 2 * 2 ^ 6)%N).
  assert (Hx : (x < 5)%N) by (subst x; cbn; lia). assert (Hy : (y < 64)%N) by (subst y; cbn; lia).
  assert (Hz : (z < 64)%N) by (subst z; cbn; lia). assert (Hw : (w < 64)%N) by (subst w; cbn; lia).
  assert (Hxy : (x = 0 -> 16 <= y)%N) by (intros E; assert (byte_of a = 240)%N by (subst x; cbn in E; lia); subst y; cbn; lia).
  unfold encode_rune. rewrite !N.shiftr_div_pow2. change 63%N with (2 ^ 6 - 1)%N. rewrite !land_low.
  change (2 ^ 6)%N with 64%N in *. change (2 ^ 12)%N with 4096%N. change (2 ^ 18)%N with 262144%N.
  set (r := (x * 262144 + (y * 4096 + (z * 64 + w)))%N).
  destruct (N.ltb_spec r 128); [lia|]. destruct (N.ltb_spec r 2048); [lia|]. destruct (N.ltb_spec r 65536); [lia|].
  replace (r / 262144)%N with x by (apply N.div_unique with (y * 4096 + (z * 64 + w))%N; lia).
  replace ((r / 4096) mod 64)%N with y
    by (replace (r / 4096)%N with (x * 64 + y)%N by (apply N.div_unique with (z * 64 + w)%N; lia);
        apply N.mod_unique with x; lia).
  replace ((r / 64) mod 64)%N with z
    by (replace (r / 64)%N with (x * 4096 + y * 64 + z)%N by (apply N.div_unique with w; lia);
        apply N.mod_unique with (x * 64 + y)%N; lia).
  replace (r mod 64)%N with w by (apply N.mod_unique with (x * 4096 + y * 64 + z)%N; lia).
  lead_bytes. rewrite !lor_high by (cbn; lia).
  rewrite (byte_chr_byte a), (byte_chr_byte b), (byte_chr_byte c), (byte_chr_byte d) by (subst x y z w; cbn; lia). reflexivity.
Qed.

Lemma encode_decoded s r enc rest : decode_rune s = Some (r, enc, rest) -> bad_rune (r, enc) = false -> encode_rune r = enc.
Proof.
  intros H. unfold decode_rune in H.
  repeat (match type of H with context [match ?x with _ => _ end] => destruct x eqn:?; try discriminate H end);
    injection H as <- <- <-; intros B; try discriminate B; bytes_facts.
  all: repeat match goal with H : context [(byte_of ?x =? ?n)%N] |- _ => destruct (N.eqb_spec (byte_of x) n) end.
  all: try (apply encode_two; lia).
  all: try (apply encode_three; lia).
  all: try (apply encode_four; lia).
  unfold encode_rune. rewrite Heqb. apply byte_chr_byte. reflexivity.
Qed.

(** ** Strings *)

(** A decoded rune as a reader of its bytes keeps it: an invalid byte is replaced. *)
Definition scrub_rune (p : N * string) : string := if bad_rune p then replacement else snd p.
Definition scrub (s : string) : string := String.concat "" (map scrub_rune (runes s)).

Lemma concat_cons s l : String.concat "" (s :: l) = s ++ String.concat "" l.
Proof. destruct l; cbn [String.concat]; [rewrite append_nil_r|]; reflexivity. Qed.
Lemma scrub_valid s : ValidString s = true -> scrub s = s.
Proof.
  intros V. rewrite <- (unrunes_runes s) at 2. unfold scrub, unrunes. f_equal. apply map_ext_in. intros p Hp.
  unfold ValidString in V. rewrite forallb_forall in V. apply V in Hp. unfold scrub_rune.
  destruct (bad_rune p); [discriminate | reflexivity].
Qed.

Lemma read_escaped_ascii a t : is_ascii a = true ->
  read_char (escape_rune (byte_of a, String a "") ++ t) = Some (String a "", t).
Proof. destruct a as [[] [] [] [] [] [] [] []]; intros H; try discriminate H; reflexivity. Qed.
Lemma escaped_not_quote a t : is_ascii a = true -> exists c r, escape_rune (byte_of a, String a "") ++ t = String c r /\ Ascii.eqb c dquote = false.
Proof. destruct a as [[] [] [] [] [] [] [] []]; intros H; try discriminate H; eexists _, _; (split; [reflexivity | reflexivity]). Qed.

(** The first byte of a rune that is not ASCII. *)
Lemma high_byte c : (128 <= byte_of c)%N -> Ascii.eqb c dquote = false /\ Ascii.eqb c backslash = false /\ (byte_of c <? 32)%N = false.
Proof.
  intros H. repeat split; [apply Ascii.eqb_neq; intros ->; cbn in H; lia | apply Ascii.eqb_neq; intros ->; cbn in H; lia | apply N.ltb_ge; lia].
Qed.
Lemma decode_rune_head s r enc rest : decode_rune s = Some (r, enc, rest) -> exists a e, enc = String a e /\
  if (byte_of a <? 128)%N then r = byte_of a /\ e = "" else bad_rune (r, enc) = false -> (128 <= r)%N.
Proof.
  intros H. pose proof H as H0. unfold decode_rune in H.
  destruct s as [|a s]; [discriminate|]. destruct (byte_of a <? 128)%N eqn:Ea.
  { injection H as <- <- <-. exists a, "". rewrite Ea. auto. }
  pose proof (decode_rune_split _ _ _ _ H0) as [Es Ne]. destruct enc as [|b e]; [congruence|]. injection Es as <- Es.
  exists a, e. rewrite Ea. split; [reflexivity|]. intros B. apply N.ltb_ge in Ea.
  pose proof (encode_decoded _ _ _ _ H0 B) as Er. destruct (N.lt_ge_cases r 128) as [L|G]; [|exact G]. exfalso.
  unfold encode_rune in Er. destruct (N.ltb_spec r 128); [|lia]. unfold byte_chr in Er. injection Er as Er _.
  rewrite <- Er in Ea. unfold byte_of in Ea. rewrite N_ascii_embedding in Ea by lia. lia.
Qed.

(** Reading an escaped rune gives its bytes and leaves what follows. *)
Lemma read_escaped s r enc rest t : decode_rune s = Some (r, enc, rest) ->
  read_char (escape_rune (r, enc) ++ t) = Some (scrub_rune (r, enc), t)
  /\ exists c u, escape_rune (r, enc) ++ t = String c u /\ Ascii.eqb c dquote = false.
Proof.
  intros H. destruct (decode_rune_head _ _ _ _ H) as (a & e & -> & Ha). destruct (byte_of a <? 128)%N eqn:Ea.
  { destruct Ha as [-> ->]. unfold scrub_rune.
    replace (bad_rune (byte_of a, String a "")) with false
      by (unfold bad_rune; cbn [fst snd]; apply N.ltb_lt in Ea; destruct (N.eqb_spec (byte_of a) RuneError) as [X|]; [rewrite X in Ea; discriminate | reflexivity]).
    split; [apply read_escaped_ascii, Ea | apply escaped_not_quote, Ea]. }
  destruct (bad_rune (r, String a e)) eqn:B.
  { unfold escape_rune, scrub_rune. rewrite B. split; [reflexivity | eexists _, _; split; reflexivity]. }
  specialize (Ha eq_refl). apply N.ltb_ge in Ea. unfold escape_rune, scrub_rune. rewrite B. cbn [fst snd].
  destruct (N.ltb_spec r 128); [lia|].
  destruct (N.eqb_spec r 8232) as [->|]; cbn [orb].
  { rewrite <- (encode_decoded _ _ _ _ H B). split; [reflexivity | eexists _, _; split; reflexivity]. }
  destruct (N.eqb_spec r 8233) as [->|]; cbn [orb].
  { rewrite <- (encode_decoded _ _ _ _ H B). split; [reflexivity | eexists _, _; split; reflexivity]. }
  pose proof (decode_rune_again _ _ _ _ t H B) as Hd. destruct (high_byte a Ea) as (Hq & Hb & Hl).
  split; [|exists a, (e ++ t); auto]. cbn [String.append]. cbn [String.append] in Hd. cbn [read_char].
  rewrite Hq, Hb, Hl, Hd, B. reflexivity.
Qed.

Lemma escape_cons p l : escape (p :: l) = escape_rune p ++ escape l.
Proof. apply concat_cons. Qed.
Lemma unquote_escape n s t m : (String.length s <= n)%nat ->
  (String.length (escape (runes_fuel n s)) < m)%nat ->
  unquote m (escape (runes_fuel n s) ++ String dquote t)
  = Some (String.concat "" (map scrub_rune (runes_fuel n s)), t).
Proof.
  revert s m. induction n as [|n IH]; intros s m L Hm.
  { destruct m; [cbn in Hm; lia|]. reflexivity. }
  destruct m as [|m]; [lia|]. destruct s as [|c s]; [reflexivity|]. cbn [runes_fuel] in *.
  destruct (decode_rune_some (String c s)) as (r & enc & rest & E); [discriminate|]. rewrite E in *.
  destruct (decode_rune_split _ _ _ _ E) as [Es Ne].
  assert (Lr : (String.length rest <= n)%nat).
  { rewrite Es, append_length in L. destruct enc; [congruence | cbn in L; lia]. }
  rewrite escape_cons, append_length in Hm. cbn [map]. rewrite escape_cons, append_assoc, concat_cons.
  destruct (read_escaped _ _ _ _ (escape (runes_fuel n rest) ++ String dquote t) E) as [R (c' & u & Eu & Hq)].
  destruct (read_escaped _ _ _ _ "" E) as [_ (c2 & u2 & E2 & _)]. rewrite append_nil_r in E2. rewrite E2 in Hm. cbn in Hm.
  cbn [unquote]. rewrite Eu. rewrite <- Eu, Hq, R, IH by lia. reflexivity.
Qed.
Lemma unquote_quoted s t m : (String.length (json_quote s) <= S m)%nat ->
  unquote m (escape (runes s) ++ String dquote t) = Some (scrub s, t).
Proof.
  unfold json_quote. cbn [String.length]. rewrite append_length. cbn [String.length]. intros L.
  apply unquote_escape; [reflexivity | fold (runes s); lia].
Qed.

(** ** Numbers *)

(** What follows a printed value: nothing, or a separator. *)
Definition closes (t : string) : Prop := t = "" \/ exists c r, t = String c r /\ In c [","; "]"; "}"]%char.

Lemma num_digits_least fuel z : (1 < num_digits fuel z)%nat -> (10 ^ Z.of_nat (num_digits fuel z - 1) <= z)%Z.
Proof.
  revert z. induction fuel as [|fuel IH]; intros z; cbn [num_digits]; [lia|].
  destruct (Z.ltb_spec z 10); [lia|]. intros _. rewrite Nat.sub_succ, Nat.sub_0_r.
  destruct (num_digits fuel (z / 10)) as [|[|k]] eqn:E; [cbn; lia | cbn; lia|].
  assert (Hk := IH (z / 10)%Z). rewrite E in Hk. specialize (Hk ltac:(lia)).
  replace (S (S k) - 1)%nat with (S k) in Hk by lia.
  rewrite (Nat2Z.inj_succ (S k)), Z.pow_succ_r by lia. pose proof (Z.mul_div_le z 10). lia.
Qed.
Lemma take_digits_all p t : all_digits p = true -> closes t -> take_while_digits (p ++ t) = (p, t).
Proof.
  intros Hp Ht. induction p as [|c p IH]; cbn [String.append].
  - destruct Ht as [->|(c & r & -> & Hc)]; [reflexivity|].
    cbn in Hc. destruct Hc as [<-|[<-|[<-|[]]]]; reflexivity.
  - cbn [all_digits] in Hp. apply andb_prop in Hp as [Hc Hp]. cbn [take_while_digits]. rewrite Hc, IH by exact Hp. reflexivity.
Qed.
Lemma read_tail t : closes t -> read_fraction t = Some ("", t) /\ read_exponent t = Some ("", t).
Proof. intros [->|(c & r & -> & Hc)]; [auto|]. cbn in Hc. destruct Hc as [<-|[<-|[<-|[]]]]; auto. Qed.

(** The digits of a number: one zero, or no leading zero. *)
Lemma read_integer_digits z t : (0 <= z < 10 ^ 21)%Z -> closes t ->
  read_integer (digits_n (num_digits 20 z) z ++ t) = Some (digits_n (num_digits 20 z) z, t)
  /\ exists c r, digits_n (num_digits 20 z) z = String c r /\ is_digit c = true.
Proof.
  intros Hz Ht. pose proof (num_digits_pos 20 z) as Hp. pose proof (num_digits_least 20 z) as Hl.
  pose proof (num_digits_bound 20 z Hz) as Hb. pose proof (all_digits_digits_n (num_digits 20 z) z) as Had.
  destruct (num_digits 20 z) as [|k]; [lia|]. cbn in Hp. rewrite Nat.sub_succ, Nat.sub_0_r in Hl.
  pose proof (take_digits_all _ t Had Ht) as Htd. rewrite digits_n_left in *. set (d := (z / 10 ^ Z.of_nat k mod 10)%Z) in *.
  assert (Hd : (0 <= d < 10)%Z) by (apply Z.mod_pos_bound; lia).
  split; [|eexists _, _; split; [reflexivity | apply is_digit_chr, Hd]].
  unfold read_integer, digits1. rewrite Htd. cbn [fst String.append]. destruct k as [|k].
  - cbn [digits_n String.append]. clear Htd Had.
    assert (C : (d = 0 \/ d = 1 \/ d = 2 \/ d = 3 \/ d = 4 \/ d = 5 \/ d = 6 \/ d = 7 \/ d = 8 \/ d = 9)%Z) by lia.
    clearbody d. repeat (destruct C as [->|C]; [reflexivity|]). rewrite C. reflexivity.
  - assert (Hd0 : (1 <= d)%Z).
    { specialize (Hl ltac:(lia)). subst d. rewrite Nat2Z.inj_succ in Hb. rewrite Z.pow_succ_r in Hb by lia.
      assert (H10 : (0 < 10 ^ Z.of_nat (S k))%Z) by (apply Z.pow_pos_nonneg; lia).
      rewrite Z.mod_small; [apply Z.div_le_lower_bound; lia|].
      split; [apply Z.div_pos; lia | apply Z.div_lt_upper_bound; lia]. }
    clear Htd Had. assert (C : (d = 1 \/ d = 2 \/ d = 3 \/ d = 4 \/ d = 5 \/ d = 6 \/ d = 7 \/ d = 8 \/ d = 9)%Z) by lia.
    clearbody d. repeat (destruct C as [->|C]; [reflexivity|]). rewrite C. reflexivity.
Qed.

(** The numbers the code prints: integers in decimal. *)
Definition number_text (lit : string) : Prop := exists z, lit = FormatInt z /\ (- 10 ^ 20 < z < 10 ^ 20)%Z.
Lemma digit_reads_number c r : is_digit c = true -> 
  HasPrefix (String c r) "null" = false /\ HasPrefix (String c r) "true" = false /\ HasPrefix (String c r) "false" = false
  /\ c <> "-"%char /\ c <> "["%char /\ c <> "{"%char /\ Ascii.eqb c dquote = false /\ json_space c = false.
Proof. destruct c as [[] [] [] [] [] [] [] []]; intros H; try discriminate H; repeat split; discriminate. Qed.
Lemma read_number_print lit t : number_text lit -> closes t ->
  read_literal (lit ++ t) = Some (JNum lit, t)
  /\ exists c r, lit = String c r /\ c <> "["%char /\ c <> "{"%char /\ Ascii.eqb c dquote = false /\ json_space c = false.
Proof.
  intros (z & -> & Hz) Ht. destruct (read_tail t Ht) as [Hf He]. unfold FormatInt.
  destruct (Z.ltb_spec z 0).
  - destruct (read_integer_digits (- z) t) as [Hi _]; [lia | exact Ht|]. split; [|eexists _, _; repeat split; discriminate].
    unfold read_literal. cbn [String.append HasPrefix String.prefix].
    change (option_map (fun p => (JNum (fst p), snd p)) (read_number (String "-" (digits_n (num_digits 20 (- z)) (- z) ++ t)))
      = Some (JNum (String "-" (digits_n (num_digits 20 (- z)) (- z))), t)).
    unfold read_number. cbn [head_is]. change (Ascii.eqb "-" "-") with true. cbv beta iota. rewrite Hi, Hf, He. cbn.
    rewrite append_nil_r. reflexivity.
  - destruct (read_integer_digits z t) as [Hi (c & r & Ec & Hc)]; [lia | exact Ht|].
    rewrite Ec in *. destruct (digit_reads_number c (r ++ t) Hc) as (H1 & H2 & H3 & H4 & H5 & H6 & H7 & H8).
    split; [|exists c, r; auto]. unfold read_literal. cbn [String.append] in *. rewrite H1, H2, H3.
    unfold read_number. cbn [head_is]. apply Ascii.eqb_neq in H4. rewrite H4.
    rewrite Hi, Hf, He. cbn. rewrite append_nil_r. reflexivity.
Qed.

(** ** Values *)

Definition all_of (l : list Prop) : Prop := fold_right and True l.
(** Every number of [j] is an integer the code prints. *)
Fixpoint numbers_ok (j : json) : Prop :=
  match j with
  | JNum lit => number_text lit
  | JArr l => all_of (map numbers_ok l)
  | JObj l => all_of (map (fun m => numbers_ok (snd m)) l)
  | _ => True
  end.
Definition deepest (l : list N) : N := fold_right N.max 0%N l.
Fixpoint nesting (j : json) : N :=
  match j with
  | JArr l => (1 + deepest (map nesting l))%N
  | JObj l => (1 + deepest (map (fun m => nesting (snd m)) l))%N
  | _ => 0%N
  end.
Fixpoint scrub_json (j : json) : json :=
  match j with
  | JStr s => JStr (scrub s)
  | JArr l => JArr (map scrub_json l)
  | JObj l => JObj (map (fun m => (scrub (fst m), scrub_json (snd m))) l)
  | _ => j
  end.
Definition print_member (m : string * json) : string := json_quote (fst m) ++ ":" ++ json_print (snd m).
Definition scrub_member (m : string * json) : string * json := (scrub (fst m), scrub_json (snd m)).

Lemma commas_cons x y l : commas (x :: y :: l) = x ++ "," ++ commas (y :: l).
Proof. reflexivity. Qed.

(** What [read_value] must do with the text of [j] before [t]. *)
Definition reads_back (j : json) : Prop := forall n d t,
  (nesting j <= d)%N -> closes t -> (2 * String.length (json_print j) + 1 <= n)%nat ->
  read_value n d (json_print j ++ t) = Some (scrub_json j, t).

Lemma next_is_here c r : json_space c = false -> next_is c (String c r) = Some r.
Proof. intros H. unfold next_is. cbn [skip_spaces]. rewrite H. cbn [head_is]. rewrite Ascii.eqb_refl. reflexivity. Qed.
Lemma next_is_other c x r : json_space x = false -> x <> c -> next_is c (String x r) = None.
Proof.
  intros H N. unfold next_is. cbn [skip_spaces]. rewrite H. cbn [head_is]. apply Ascii.eqb_neq in N. rewrite N. reflexivity.
Qed.
Lemma closes_sep c r : In c [","; "]"; "}"]%char -> closes (String c r).
Proof. intros H. right. eauto. Qed.

Lemma read_elements_print l : l <> [] -> Forall reads_back l -> forall n d t,
  (deepest (map nesting l) <= d)%N -> (2 * String.length (commas (map json_print l)) + 2 <= n)%nat ->
  read_elements n d (commas (map json_print l) ++ String "]" t) = Some (map scrub_json l, t).
Proof.
  intros Hl HF. induction HF as [|j l Hj HF IH]; [congruence|]. intros n d t Hd Hn. clear Hl.
  cbn [map deepest fold_right] in Hd. fold (deepest (map nesting l)) in Hd. destruct n as [|n]; [lia|]. cbn [read_elements].
  destruct l as [|j' l].
  - cbn [map commas String.concat] in *. rewrite Hj; [reflexivity | lia | apply closes_sep; cbn; tauto | lia].
  - cbn [map] in *. rewrite commas_cons, !append_length in Hn. rewrite commas_cons, append_assoc.
    rewrite Hj; [| lia | apply closes_sep; cbn; tauto | lia].
    cbn [String.append]. rewrite (next_is_other "]") by (reflexivity || discriminate). rewrite next_is_here by reflexivity.
    rewrite IH; [reflexivity | discriminate | lia | cbn [String.length] in Hn; lia].
Qed.
Lemma read_members_print l : l <> [] -> Forall (fun m => reads_back (snd m)) l -> forall n d t,
  (deepest (map (fun m => nesting (snd m)) l) <= d)%N -> (2 * String.length (commas (map print_member l)) + 2 <= n)%nat ->
  read_members n d (commas (map print_member l) ++ String "}" t) = Some (map scrub_member l, t).
Proof.
  intros Hl HF. induction HF as [|[k j] l Hj HF IH]; [congruence|]. intros n d t Hd Hn. clear Hl.
  cbn [map deepest fold_right snd] in Hd, Hj. fold (deepest (map (fun m => nesting (snd m)) l)) in Hd.
  destruct n as [|n]; [lia|].
  assert (Hk : forall u, (2 * String.length (print_member (k, j)) <= n)%nat -> closes u ->
    (nesting j <= d)%N ->
    read_members (S n) d (print_member (k, j) ++ u)
    = match next_is "}" u with
      | Some r' => Some ([scrub_member (k, j)], r')
      | None =>
        match next_is "," u with
        | Some r' => option_map (fun p => (scrub_member (k, j) :: fst p, snd p)) (read_members n d r')
        | None => None
        end
      end).
  { intros u Hlen Hu Hdj. unfold print_member in *. cbn [fst snd] in *. rewrite !append_length in Hlen. cbn in Hlen.
    unfold json_quote at 1. cbn [String.append read_members].
    rewrite next_is_here by reflexivity. rewrite !append_assoc. cbn [String.append].
    rewrite unquote_quoted by (unfold json_quote; cbn [String.length]; rewrite !append_length; cbn [String.length]; lia).
    rewrite next_is_here by reflexivity. rewrite Hj; [reflexivity | exact Hdj | exact Hu | lia]. }
  destruct l as [|m' l].
  - cbn [map commas String.concat] in *. rewrite Hk; [reflexivity | lia | apply closes_sep; cbn; tauto | lia].
  - cbn [map] in *. rewrite commas_cons, !append_length in Hn. rewrite commas_cons, append_assoc.
    rewrite Hk; [| lia | apply closes_sep; cbn; tauto | lia].
    cbn [String.append]. rewrite (next_is_other "}") by (reflexivity || discriminate). rewrite next_is_here by reflexivity.
    rewrite IH; [reflexivity | discriminate | lia | cbn [String.length] in Hn; lia].
Qed.

Lemma all_of_Forall {A} (f : A -> Prop) l : all_of (map f l) -> Forall f l.
Proof. induction l as [|x l IH]; cbn; [constructor | intros [Hx Hl]; constructor; auto]. Qed.
Lemma Forall_apply {A} (P Q : A -> Prop) l : Forall (fun x => P x -> Q x) l -> Forall P l -> Forall Q l.
Proof. induction 1; intros HP; inversion HP; constructor; auto. Qed.

Lemma json_print_head j : numbers_ok j -> exists c r, json_print j = String c r /\ json_space c = false /\ c <> "]"%char.
Proof.
  destruct j as [| b | lit | s | l | l]; cbn [json_print numbers_ok]; intros H;
    try (eexists _, _; repeat split; discriminate).
  - destruct b; eexists _, _; repeat split; discriminate.
  - destruct (read_number_print lit "" H) as [_ (c & r & -> & _ & _ & _ & Hs)]; [left; reflexivity|].
    exists c, r. repeat split; [exact Hs|]. intros ->. destruct H as (z & Ez & Hz). revert Ez. unfold FormatInt.
    destruct (Z.ltb_spec z 0); [discriminate|].
    destruct (read_integer_digits z "") as [_ (c' & r' & -> & Hc)]; [lia | left; reflexivity|].
    intros [= <- _]. discriminate Hc.
Qed.

Lemma HasPrefix_app p t : HasPrefix (p ++ t) p = true.
Proof.
  unfold HasPrefix. induction p as [|c p IH]; [destruct t; reflexivity|]. cbn [String.append String.prefix].
  destruct (ascii_dec c c); [exact IH | congruence].
Qed.
Lemma read_value_print j : numbers_ok j -> reads_back j.
Proof.
  induction j as [| b | lit | s | l IH | l IH] using json_ind; intros Hok n d t Hd Ht Hn; (destruct n as [|n]; [lia|]).
  - change (read_literal ("null" ++ t) = Some (JNull, t)). unfold read_literal. rewrite HasPrefix_app. reflexivity.
  - destruct b.
    + change (read_literal ("true" ++ t) = Some (JBool true, t)). unfold read_literal.
      change (HasPrefix ("true" ++ t) "null") with false. rewrite HasPrefix_app. reflexivity.
    + change (read_literal ("false" ++ t) = Some (JBool false, t)). unfold read_literal.
      change (HasPrefix ("false" ++ t) "null") with false. change (HasPrefix ("false" ++ t) "true") with false.
      rewrite HasPrefix_app. reflexivity.
  - cbn [json_print numbers_ok] in *. destruct (read_number_print lit t Hok Ht) as [Hr (c & r & -> & H1 & H2 & H3 & H4)].
    cbn [String.append] in *. cbn [read_value skip_spaces]. rewrite H4, H3.
    apply Ascii.eqb_neq in H1, H2. rewrite H1, H2. exact Hr.
  - cbn [json_print]. unfold json_quote. cbn [String.append read_value skip_spaces]. change (json_space dquote) with false.
    cbv iota. change (Ascii.eqb dquote "[") with false. change (Ascii.eqb dquote "{") with false.
    change (Ascii.eqb dquote dquote) with true. cbv iota. rewrite append_assoc. cbn [String.append].
    rewrite unquote_quoted; [reflexivity|]. unfold json_quote. cbn [String.length]. rewrite !append_length. cbn [String.length]. lia.
  - cbn [numbers_ok json_print nesting scrub_json] in *. apply all_of_Forall in Hok. pose proof (Forall_apply _ _ _ IH Hok) as HF.
    cbn [String.append String.length] in *. rewrite append_length in Hn. cbn [String.length] in Hn.
    cbn [read_value skip_spaces]. change (json_space "[") with false. cbv iota.
    change (Ascii.eqb "[" "[") with true. cbv iota. destruct (N.eqb_spec d 0); [lia|].
    rewrite append_assoc. destruct l as [|j l]; [reflexivity|].
    inversion Hok as [|? ? Hj _]; subst. destruct (json_print_head j Hj) as (c & r & Ec & Hs & Hb).
    assert (exists r', commas (map json_print (j :: l)) ++ "]" ++ t = String c r') as [r' Er].
    { cbn [map]. destruct (map json_print l); [cbn; rewrite Ec | rewrite commas_cons, Ec]; eexists; reflexivity. }
    change ("]" ++ t) with (String "]" t) in *. rewrite Er, next_is_other, <- Er by assumption.
    rewrite read_elements_print; [reflexivity | discriminate | exact HF | cbn [map] in *; lia | lia].
  - cbn [numbers_ok json_print nesting scrub_json] in *. apply all_of_Forall in Hok. pose proof (Forall_apply _ _ _ IH Hok) as HF.
    fold print_member in *. change (fun m : string * json => json_quote (fst m) ++ ":" ++ json_print (snd m)) with print_member in *.
    cbn [String.append String.length] in *. rewrite append_length in Hn. cbn [String.length] in Hn.
    cbn [read_value skip_spaces]. change (json_space "{") with false. cbv iota.
    change (Ascii.eqb "{" "[") with false. change (Ascii.eqb "{" "{") with true. cbv iota. destruct (N.eqb_spec d 0); [lia|].
    rewrite append_assoc. destruct l as [|m l]; [reflexivity|].
    assert (exists r', commas (map print_member (m :: l)) ++ "}" ++ t = String dquote r') as [r' Er].
    { cbn [map]. destruct (map print_member l); [cbn | rewrite commas_cons]; eexists; reflexivity. }
    change ("}" ++ t) with (String "}" t) in *. rewrite Er, next_is_other, <- Er by (reflexivity || discriminate).
    rewrite read_members_print; [reflexivity | discriminate | exact HF | cbn [map] in *; lia | lia].
Qed.

(** What is printed reads back as itself with invalid UTF-8 replaced. *)
Lemma json_read_print j : numbers_ok j -> (nesting j <= maxNestingDepth)%N -> json_read (json_print j) = Some (scrub_json j).
Proof.
  intros Hok Hd. unfold json_read. pose proof (read_value_print j Hok) as H.
  specialize (H (2 * String.length (json_print j) + 1)%nat maxNestingDepth "" Hd (or_introl eq_refl) (le_n _)).
  rewrite append_nil_r in H. rewrite H. reflexivity.
Qed.

(** ** Fuel *)

(** The rest of a reading is no longer than its text, and shorter when something was read. *)
Lemma skip_spaces_length s : (String.length (skip_spaces s) <= String.length s)%nat.
Proof. induction s as [|c s IH]; cbn [skip_spaces String.length]; [lia|]. destruct (json_space c); cbn [String.length]; lia. Qed.
Lemma hex4_length s u r : hex4 s = Some (u, r) -> String.length s = (4 + String.length r)%nat.
Proof.
  unfold hex4. destruct s as [|a [|b [|c [|d s]]]]; try discriminate.
  destruct (hex_value a), (hex_value b), (hex_value c), (hex_value d); try discriminate. intros [= _ ->]. reflexivity.
Qed.
Lemma unicode_escape_length s u r : unicode_escape s = Some (u, r) -> String.length s = (6 + String.length r)%nat.
Proof.
  unfold unicode_escape. destruct s as [|a [|b s]]; try discriminate. destruct (_ && _); [|discriminate].
  intros H%hex4_length. cbn [String.length]. lia.
Qed.
Lemma read_char_length s x r : read_char s = Some (x, r) -> (String.length r < String.length s)%nat.
Proof.
  unfold read_char. destruct s as [|c s]; [discriminate|]. destruct (Ascii.eqb c dquote); [discriminate|].
  destruct (Ascii.eqb c backslash).
  - destruct (unicode_escape (String c s)) as [[u r1]|] eqn:E.
    + apply unicode_escape_length in E. destruct (between _ _ u); [|intros [= _ <-]; lia].
      destruct (unicode_escape r1) as [[u2 r2]|] eqn:E2; [apply unicode_escape_length in E2|];
        [destruct (_ && _)|]; intros [= _ <-]; lia.
    + destruct s as [|e s]; [discriminate|]. destruct (simple_escape e); [|discriminate]. intros [= _ <-]. cbn [String.length]. lia.
  - destruct (byte_of c <? 32)%N; [discriminate|]. destruct (decode_rune (String c s)) as [[[r0 enc] rest]|] eqn:E; [|discriminate].
    intros [= _ <-]. destruct (decode_rune_split _ _ _ _ E) as [-> Ne]. rewrite append_length.
    destruct enc; [congruence|]. cbn [String.length]. lia.
Qed.
Lemma unquote_length n s x r : unquote n s = Some (x, r) -> (String.length r < String.length s)%nat.
Proof.
  revert s x. induction n as [|n IH]; intros s x; [discriminate|]. cbn [unquote]. destruct s as [|c s]; [discriminate|].
  destruct (Ascii.eqb c dquote); [intros [= _ <-]; cbn [String.length]; lia|].
  destruct (read_char (String c s)) as [[y rest]|] eqn:E; [|discriminate]. apply read_char_length in E.
  destruct (unquote n rest) as [[z r']|] eqn:U; [|discriminate]. cbn [option_map fst snd]. intros [= _ ->]. apply IH in U. lia.
Qed.
Lemma take_digits_length s : (String.length (snd (take_while_digits s)) + String.length (fst (take_while_digits s)) = String.length s)%nat.
Proof. induction s as [|c s IH]; cbn [take_while_digits]; [reflexivity|]. destruct (is_digit c); cbn [fst snd String.length]; lia. Qed.
Lemma digits1_length s x r : digits1 s = Some (x, r) -> (String.length r < String.length s)%nat.
Proof.
  unfold digits1. pose proof (take_digits_length s) as L. destruct (take_while_digits s) as [a b]. cbn [fst snd] in *.
  destruct a as [|c a]; [discriminate|]. cbn [String.eqb]. intros [= _ <-]. cbn [String.length] in L. lia.
Qed.
Lemma head_is_length c s r : head_is c s = Some r -> String.length s = S (String.length r).
Proof. destruct s as [|x s]; [discriminate|]. cbn [head_is]. destruct (Ascii.eqb x c); [intros [= ->]; reflexivity | discriminate]. Qed.
Lemma next_is_length c s r : next_is c s = Some r -> (String.length r < String.length s)%nat.
Proof. intros H%head_is_length. pose proof (skip_spaces_length s). lia. Qed.
Lemma read_fraction_length s x r : read_fraction s = Some (x, r) -> (String.length r <= String.length s)%nat.
Proof.
  unfold read_fraction. destruct (head_is "." s) as [r0|] eqn:E; [|intros [= _ <-]; lia]. apply head_is_length in E.
  destruct (digits1 r0) as [[d r']|] eqn:D; [|discriminate]. cbn [option_map snd]. intros [= _ <-]. apply digits1_length in D. lia.
Qed.
Lemma read_exponent_length s x r : read_exponent s = Some (x, r) -> (String.length r <= String.length s)%nat.
Proof.
  unfold read_exponent. destruct s as [|c s]; [intros [= _ <-]; cbn; lia|].
  destruct (Ascii.eqb c "e" || Ascii.eqb c "E"); [|intros [= _ <-]; lia]. destruct s as [|g s]; [discriminate|].
  destruct (Ascii.eqb g "+" || Ascii.eqb g "-").
  - destruct (digits1 s) as [[d r']|] eqn:D; [|discriminate]. intros [= _ <-]. apply digits1_length in D. cbn [String.length]. lia.
  - destruct (digits1 (String g s)) as [[d r']|] eqn:D; [|discriminate]. intros [= _ <-]. apply digits1_length in D.
    cbn [String.length] in *. lia.
Qed.
Lemma read_number_length s x r : read_number s = Some (x, r) -> (String.length r < String.length s)%nat.
Proof.
  unfold read_number. intros H.
  assert (S : exists sign s0, (match head_is "-" s with Some r => ("-", r) | None => ("", s) end) = (sign, s0)
    /\ (String.length s0 <= String.length s)%nat).
  { destruct (head_is "-" s) as [r0|] eqn:E; [apply head_is_length in E|]; eexists _, _; (split; [reflexivity | lia]). }
  destruct S as (sign & s0 & Es & L). rewrite Es in H. clear Es.
  destruct (read_integer s0) as [[i s1]|] eqn:E1; [|discriminate].
  assert (L1 : (String.length s1 < String.length s0)%nat).
  { unfold read_integer in E1. destruct (head_is "0" s0) as [r0|] eqn:E0.
    - injection E1 as _ <-. apply head_is_length in E0. lia.
    - eapply digits1_length, E1. }
  destruct (read_fraction s1) as [[f s2]|] eqn:E2; [|discriminate]. apply read_fraction_length in E2.
  destruct (read_exponent s2) as [[e s3]|] eqn:E3; [|discriminate]. apply read_exponent_length in E3.
  cbn [option_map fst snd] in H. injection H as _ <-. lia.
Qed.
Lemma drop_prefix s p : HasPrefix s p = true -> (String.length (drop_str (String.length p) s) + String.length p = String.length s)%nat.
Proof.
  unfold HasPrefix. revert s. induction p as [|c p IH]; intros s H; cbn [drop_str String.length]; [destruct s; cbn; lia|].
  destruct s as [|d s]; [discriminate|]. cbn [String.prefix] in H. destruct (ascii_dec c d); [|discriminate].
  apply IH in H. cbn [String.length drop_str]. lia.
Qed.
Lemma read_literal_length s v r : read_literal s = Some (v, r) -> (String.length r < String.length s)%nat.
Proof.
  assert (K : forall p x, p <> "" -> HasPrefix s p = true -> Some (x, drop_str (String.length p) s) = Some (v, r) ->
    (String.length r < String.length s)%nat).
  { intros p x Hn Hp H. apply drop_prefix in Hp. assert (r = drop_str (String.length p) s) as -> by congruence.
    destruct p; [congruence|]. cbn [String.length] in *. lia. }
  unfold read_literal. destruct (HasPrefix s "null") eqn:E1; [apply (K "null"); [discriminate | exact E1]|].
  destruct (HasPrefix s "true") eqn:E2; [apply (K "true"); [discriminate | exact E2]|].
  destruct (HasPrefix s "false") eqn:E3; [apply (K "false"); [discriminate | exact E3]|].
  destruct (read_number s) as [[x r']|] eqn:E; [|discriminate]. cbn [option_map fst snd]. intros [= _ <-].
  eapply read_number_length, E.
Qed.

(** A character and what follows it, after the spaces of [s]. *)
Lemma skipped_head s c r : skip_spaces s = String c r -> (String.length r < String.length s)%nat.
Proof. intros H. pose proof (skip_spaces_length s) as L. rewrite H in L. cbn [String.length] in L. lia. Qed.

Lemma read_length n :
  (forall d s v r, read_value n d s = Some (v, r) -> (String.length r < String.length s)%nat)
  /\ (forall d s l r, read_elements n d s = Some (l, r) -> (String.length r < String.length s)%nat)
  /\ (forall d s l r, read_members n d s = Some (l, r) -> (String.length r < String.length s)%nat).
Proof.
  induction n as [|n (IHv & IHe & IHm)]; [repeat split; discriminate|]. split; [|split]; intros d s v r.
  - cbn [read_value]. destruct (skip_spaces s) as [|c r0] eqn:Es; [discriminate|].
    pose proof (skipped_head _ _ _ Es) as L0. pose proof (skip_spaces_length s) as Ls. rewrite Es in Ls.
    destruct (Ascii.eqb c "[").
    { destruct (d =? 0)%N; [discriminate|]. destruct (next_is "]" r0) as [r'|] eqn:Er; [intros [= _ <-]; apply next_is_length in Er; lia|].
      destruct (read_elements n (d - 1) r0) as [[l r']|] eqn:El; [|discriminate]. cbn [option_map snd]. intros [= _ <-].
      apply IHe in El. lia. }
    destruct (Ascii.eqb c "{").
    { destruct (d =? 0)%N; [discriminate|]. destruct (next_is "}" r0) as [r'|] eqn:Er; [intros [= _ <-]; apply next_is_length in Er; lia|].
      destruct (read_members n (d - 1) r0) as [[l r']|] eqn:El; [|discriminate]. cbn [option_map snd]. intros [= _ <-].
      apply IHm in El. lia. }
    destruct (Ascii.eqb c dquote).
    { destruct (unquote _ r0) as [[x r']|] eqn:U; [|discriminate]. cbn [option_map snd]. intros [= _ <-].
      apply unquote_length in U. lia. }
    intros H%read_literal_length. lia.
  - cbn [read_elements]. destruct (read_value n d s) as [[x r1]|] eqn:Ev; [|discriminate]. apply IHv in Ev.
    destruct (next_is "]" r1) as [r'|] eqn:Er; [intros [= _ <-]; apply next_is_length in Er; lia|].
    destruct (next_is "," r1) as [r'|] eqn:Ec; [|discriminate]. apply next_is_length in Ec.
    destruct (read_elements n d r') as [[l r2]|] eqn:El; [|discriminate]. cbn [option_map snd]. intros [= _ <-]. apply IHe in El. lia.
  - cbn [read_members]. destruct (next_is dquote s) as [r0|] eqn:Eq; [|discriminate]. apply next_is_length in Eq.
    destruct (unquote _ r0) as [[k r1]|] eqn:U; [|discriminate]. apply unquote_length in U.
    destruct (next_is ":" r1) as [r2|] eqn:Ek; [|discriminate]. apply next_is_length in Ek.
    destruct (read_value n d r2) as [[x r3]|] eqn:Ev; [|discriminate]. apply IHv in Ev.
    destruct (next_is "}" r3) as [r'|] eqn:Er; [intros [= _ <-]; apply next_is_length in Er; lia|].
    destruct (next_is "," r3) as [r'|] eqn:Ec; [|discriminate]. apply next_is_length in Ec.
    destruct (read_members n d r') as [[l r4]|] eqn:El; [|discriminate]. cbn [option_map snd]. intros [= _ <-]. apply IHm in El. lia.
Qed.

(** With two steps per character, a further step changes nothing. *)
Lemma read_more n :
  (forall d s, (2 * String.length s + 1 <= n)%nat -> read_value (S n) d s = read_value n d s)
  /\ (forall d s, (2 * String.length s + 2 <= n)%nat -> read_elements (S n) d s = read_elements n d s)
  /\ (forall d s, (2 * String.length s + 2 <= n)%nat -> read_members (S n) d s = read_members n d s).
Proof.
  induction n as [|n (IHv & IHe & IHm)]; [repeat split; intros; lia|]. split; [|split]; intros d s L.
    cbn [read_value]. destruct (skip_spaces s) as [|c r0] eqn:Es; [reflexivity|].
    pose proof (skipped_head _ _ _ Es) as L0.
    destruct (Ascii.eqb c "["); [|destruct (Ascii.eqb c "{"); [|reflexivity]];
      (destruct (d =? 0)%N; [reflexivity|]); (destruct (next_is _ r0); [reflexivity|]); f_equal; [apply IHe | apply IHm]; lia.
  - cbn [read_elements]. rewrite IHv by lia. destruct (read_value n d s) as [[x r1]|] eqn:Ev; [|reflexivity].
    apply (read_length n) in Ev. destruct (next_is "]" r1); [reflexivity|].
    destruct (next_is "," r1) as [r'|] eqn:Ec; [|reflexivity]. apply next_is_length in Ec. f_equal. apply IHe. lia.
  - cbn [read_members]. destruct (next_is dquote s) as [r0|] eqn:Eq; [|reflexivity]. apply next_is_length in Eq.
    destruct (unquote _ r0) as [[k r1]|] eqn:U; [|reflexivity]. apply unquote_length in U.
    destruct (next_is ":" r1) as [r2|] eqn:Ek; [|reflexivity]. apply next_is_length in Ek. rewrite IHv by lia.
    destruct (read_value n d r2) as [[x r3]|] eqn:Ev; [|reflexivity]. apply (read_length n) in Ev.
    destruct (next_is "}" r3); [reflexivity|]. destruct (next_is "," r3) as [r'|] eqn:Ec; [|reflexivity].
    apply next_is_length in Ec. f_equal. apply IHm. lia.
Qed.
(** [json_read]'s fuel is enough: with more, it reads the same. *)
Lemma json_read_fuel k s :
  json_read s = match read_value (k + (2 * String.length s + 1)) maxNestingDepth s with
                | Some (j, r) => if String.eqb (skip_spaces r) "" then Some j else None
                | None => None
                end.
Proof.
  unfold json_read. induction k as [|k IH]; [reflexivity|]. rewrite IH. cbn [Nat.add].
  rewrite (proj1 (read_more _)) by lia. reflexivity.
Qed.
