(* ===== verification/Sealer.v ===== *)
(** * The sealer of secrets ([internal/platform/sealer])

    A port the modules that store secrets seal them through; its AES-GCM
    implementation over Go's [cipher.AEAD], and the one of a deployment with no key. *)
From Stdlib Require Import ZArith Lia String Ascii List.
From stdpp Require Import base list strings.
From S2P Require Import Prelude GoStrings Errors.
Local Open Scope string_scope.

(** [Seal] draws a nonce per call: the number is the call's. *)
Class Sealer := {
  Seal : nat -> string -> string -> Error + string;
  Open : string -> string -> Error + string
}.
(** What was sealed opens under the same additional data, and is not empty. *)
Class SealerLaws `{Sealer} := {
  Open_Seal n plain aad sealed : Seal n plain aad = inr sealed -> Open sealed aad = inr plain;
  Seal_nonempty n plain aad sealed : Seal n plain aad = inr sealed -> sealed <> ""
}.

(** Go's [cipher.AEAD] with its key: the nonce, the text, the additional data. *)
Class AEAD := {
  aead_NonceSize : nat;
  aead_Seal : string -> string -> string -> string;
  aead_Open : string -> string -> string -> option string;
  aead_nonce : nat -> string   (** [rand.Read] into a nonce *)
}.
Class AEADLaws `{AEAD} := {
  aead_opens nonce plain aad : aead_Open nonce (aead_Seal nonce plain aad) aad = Some plain;
  aead_nonce_length n : String.length (aead_nonce n) = aead_NonceSize;
  aead_NonceSize_pos : (0 < aead_NonceSize)%nat
}.

Definition KeyLen : nat := 32.

Section GCM.
Context `{AEAD}.

(** [gcmSealer.Seal]: the nonce before the sealed text. *)
Definition gcm_Seal (n : nat) (plaintext aad : string) : Error + string :=
  let nonce := aead_nonce n in inr (nonce ++ aead_Seal nonce plaintext aad).
Definition gcm_Open (ciphertext aad : string) : Error + string :=
  let n := aead_NonceSize in
  if Nat.ltb (String.length ciphertext) n then inl (ESealer OpenFailedError) else
  match aead_Open (String.substring 0 n ciphertext) (drop_str n ciphertext) aad with
  | Some plain => inr plain
  | None => inl (ESealer OpenFailedError)
  end.
Definition gcmSealer : Sealer := {| Seal := gcm_Seal; Open := gcm_Open |}.

Lemma gcmSealer_laws `{!AEADLaws} : @SealerLaws gcmSealer.
Proof.
  split.
  2: { intros n plain aad sealed [= <-] E. pose proof (aead_nonce_length n) as L. pose proof aead_NonceSize_pos.
       destruct (aead_nonce n); [cbn in L; lia | discriminate]. }
  intros n plain aad sealed [= <-]. cbn. unfold gcm_Open. pose proof (aead_nonce_length n) as L.
  rewrite append_length, L. destruct (Nat.ltb_spec (aead_NonceSize + String.length (aead_Seal (aead_nonce n) plain aad)) aead_NonceSize); [lia|].
  rewrite <- L at 1 2. rewrite substring_app, drop_str_app, aead_opens. reflexivity.
Qed.
End GCM.

(** [Disabled]. *)
Definition disabledSealer : Sealer := {|
  Seal := fun _ _ _ => inl (ESealer SealerUnavailableError);
  Open := fun _ _ => inl (ESealer SealerUnavailableError)
|}.
Lemma disabledSealer_laws : @SealerLaws disabledSealer.
Proof. split; discriminate. Qed.
