(* ===== verification/Civil.v ===== *)
(** * Calendar dates ([civil/date.go])

    [Date] with the normalising arithmetic of Go's [time.Date], its parser and
    printer, and the order of its text form. An instant is a number of
    nanoseconds since the Unix epoch; a [Location] is the zone lookup of Go's
    [time] package. *)
From Stdlib Require Import ZArith Lia String Ascii List.
From stdpp Require Import base list strings.
From S2P Require Import Prelude GoStrings Errors.
Local Open Scope string_scope.
Local Open Scope Z_scope.

#[local] Ltac Zify.zify_post_hook ::= Z.to_euclidean_division_equations.

Record Date := mkDate { Year : Z; Month : Z; Day : Z }.

#[global] Instance Date_eq_dec : EqDecision Date.
Proof. solve_decision. Defined.

(** ** Days since 1970-01-01 *)

(** The day number of a date whose month is in [1, 12]; the day may be any integer. *)
Definition days_of_civil (y m d : Z) : Z :=
  let y' := if m <=? 2 then y - 1 else y in
  let mp := (m + 9) mod 12 in
  365 * y' + y' / 4 - y' / 100 + y' / 400 + (153 * mp + 2) / 5 + d - 1 - 719468.

(** The date of a day number: the 400-, 100-, 4- and 1-year cycles of a year
    that starts in March are cut off in turn, as Go's [time] package does. *)
Definition civil_of_days (z : Z) : Date :=
  let z' := z + 719468 in
  let n400 := z' / 146097 in
  let r400 := z' mod 146097 in
  let n100 := Z.min 3 (r400 / 36524) in
  let r100 := r400 - 36524 * n100 in
  let n4 := r100 / 1461 in
  let r4 := r100 mod 1461 in
  let n1 := Z.min 3 (r4 / 365) in
  let doy := r4 - 365 * n1 in
  let mp := (5 * doy + 2) / 153 in
  let m := if mp <? 10 then mp + 3 else mp - 9 in
  let y := 400 * n400 + 100 * n100 + 4 * n4 + n1 in
  mkDate (if m <=? 2 then y + 1 else y) m (doy - (153 * mp + 2) / 5 + 1).

(** [time.Date y m d ... UTC]: months outside [1, 12] and days outside the
    month are normalised. *)
Definition days (d : Date) : Z :=
  let m0 := Month d - 1 in
  days_of_civil (Year d + m0 / 12) (m0 mod 12 + 1) (Day d).

(** ** Instants and zones *)
Definition nanos_per_day : Z := 86400 * 1000000000.

(** The result of [Location.lookup sec]: the offset in seconds east of UTC
    and the half-open range of Unix seconds where it holds. *)
Record Zone := mkZone { z_offset : Z; z_start : Z; z_end : Z }.
Definition Location : Type := Z -> Zone.
Definition UTC : Location := fun _ => mkZone 0 (- 2 ^ 63) (2 ^ 63 - 1).

(** [t.In(loc).Date()]. *)
Definition DateOf (t : Z) (loc : Location) : Date :=
  let sec := t / 1000000000 in
  civil_of_days ((sec + z_offset (loc sec)) / 86400).

(** [d.In(loc)]: local midnight, with the offset lookup of Go's [time.Date]. *)
Definition In_ (d : Date) (loc : Location) : Z :=
  let unix := days d * 86400 in
  let z := loc unix in
  let off :=
    if z_offset z =? 0 then 0 else
    let utc := unix - z_offset z in
    if (utc <? z_start z) || (z_end z <=? utc) then z_offset (loc utc) else z_offset z in
  (unix - off) * 1000000000.

(** ** Operations *)
Definition AddDays (d : Date) (n : Z) : Date := civil_of_days (days d + n).
Definition Compare (d o : Date) : Z :=
  if days d <? days o then -1 else if days o <? days d then 1 else 0.
Definition Before (d o : Date) : bool := Compare d o <? 0.
Definition zero_Date : Date := mkDate 0 0 0.
Definition IsZero (d : Date) : bool := (Year d =? 0) && (Month d =? 0) && (Day d =? 0).

(** ** Text *)

(** Go's [appendInt x width]. *)
Definition pad_int (width : nat) (x : Z) : string :=
  if x <? 0 then "-" ++ digits_n (Nat.max width (num_digits 20 (- x))) (- x)
  else digits_n (Nat.max width (num_digits 20 x)) x.

(** [d.In(time.UTC).Format("2006-01-02")]. *)
Definition Date_String (d : Date) : string :=
  let c := civil_of_days (days d) in
  pad_int 4 (Year c) ++ "-" ++ pad_int 2 (Month c) ++ "-" ++ pad_int 2 (Day c).

(** [t.In(loc).Format(time.RFC3339)]. *)
Definition zone_text (offset : Z) : string :=
  if offset =? 0 then "Z" else
  let minutes := Z.quot offset 60 in
  let m := Z.abs minutes in
  (if minutes <? 0 then "-" else "+") ++ pad_int 2 (m / 60) ++ ":" ++ pad_int 2 (m mod 60).
Definition clock_text (secs : Z) : string :=
  pad_int 2 (secs / 3600) ++ ":" ++ pad_int 2 (secs / 60 mod 60) ++ ":" ++ pad_int 2 (secs mod 60).
Definition rfc3339 (t : Z) (loc : Location) : string :=
  let sec := t / 1000000000 in
  let off := z_offset (loc sec) in
  Date_String (DateOf t loc) ++ "T" ++ clock_text ((sec + off) mod 86400) ++ zone_text off.

Definition leap (y : Z) : bool := (y mod 4 =? 0) && (negb (y mod 100 =? 0) || (y mod 400 =? 0)).
(** [time.daysIn]. *)
Definition daysIn (m y : Z) : Z :=
  if m =? 2 then (if leap y then 29 else 28)
  else if (m =? 4) || (m =? 6) || (m =? 9) || (m =? 11) then 30 else 31.

Definition take_digits (n : nat) (s : string) : option (Z * string) :=
  let p := substring 0 n s in
  if Nat.eqb (String.length p) n && all_digits p then Some (parse_digits 0 p, drop_str n s) else None.
Definition take_dash (s : string) : option string :=
  match s with String c r => if Ascii.eqb c "-" then Some r else None | EmptyString => None end.

(** [time.Parse("2006-01-02", s)]: four digits, two, two, nothing after; month
    and day in range. *)
Definition ParseDate (s : string) : CivilError + Date :=
  let bad := inl (CivilParseError s) in
  match take_digits 4 s with
  | None => bad
  | Some (y, s1) =>
    match take_dash s1 with
    | None => bad
    | Some s2 =>
      match take_digits 2 s2 with
      | None => bad
      | Some (m, s3) =>
        if (m <? 1) || (12 <? m) then bad else
        match take_dash s3 with
        | None => bad
        | Some s4 =>
          match take_digits 2 s4 with
          | Some (d, EmptyString) =>
            if (d <? 1) || (daysIn m y <? d) then bad else inr (mkDate y m d)
          | _ => bad
          end
        end
      end
    end
  end.

(** ** Valid dates *)
Definition valid (d : Date) : Prop :=
  1 <= Month d <= 12 /\ 1 <= Day d <= daysIn (Month d) (Year d).
(** The years a four-digit text form holds. *)
Definition iso_range (d : Date) : Prop := 0 <= Year d <= 9999.

(** ** Day numbers and dates are inverse *)

Definition year_days (y : Z) : Z := 365 * y + y / 4 - y / 100 + y / 400.
Definition month_offset (m : Z) : Z := (153 * ((m + 9) mod 12) + 2) / 5.
Lemma days_of_civil_split y m d :
  days_of_civil y m d = year_days (if m <=? 2 then y - 1 else y) + month_offset m + d - 719469.
Proof. unfold days_of_civil, year_days, month_offset. lia. Qed.

(** The month and day of each of the 366 days of a year that starts in March. *)
Definition month_ok (doy : Z) : bool :=
  let mp := (5 * doy + 2) / 153 in
  let m := if mp <? 10 then mp + 3 else mp - 9 in
  let d := doy - (153 * mp + 2) / 5 + 1 in
  (1 <=? m) && (m <=? 12) && (1 <=? d) && (month_offset m + d - 1 =? doy)
  && (if m =? 2 then d <=? (if doy =? 365 then 29 else 28) else d <=? daysIn m 1).
Fixpoint forall_upto (n : nat) (f : Z -> bool) (z : Z) : bool :=
  match n with O => true | S n' => f z && forall_upto n' f (z + 1) end.
Lemma forall_upto_spec n f z : forall_upto n f z = true -> forall i, z <= i < z + Z.of_nat n -> f i = true.
Proof.
  revert z; induction n; simpl; intros z H i Hi; [lia|].
  apply andb_prop in H as [H1 H2]. destruct (Z.eq_dec i z) as [->|]; auto.
  apply (IHn (z + 1)); auto. lia.
Qed.
Lemma months_ok : forall_upto 366 month_ok 0 = true.
Proof. vm_compute. reflexivity. Qed.

Lemma month_ok_facts doy :
  0 <= doy <= 365 ->
  let mp := (5 * doy + 2) / 153 in
  let m := if mp <? 10 then mp + 3 else mp - 9 in
  let d := doy - (153 * mp + 2) / 5 + 1 in
  1 <= m <= 12 /\ 1 <= d /\ month_offset m + d - 1 = doy /\
  (m = 2 -> d <= (if doy =? 365 then 29 else 28)) /\ (m <> 2 -> d <= daysIn m 1).
Proof.
  intros H. pose proof (forall_upto_spec _ _ _ months_ok doy ltac:(lia)) as Hok.
  unfold month_ok in Hok. cbv zeta.
  set (mp := (5 * doy + 2) / 153) in *.
  set (m := if mp <? 10 then mp + 3 else mp - 9) in *.
  set (d := doy - (153 * mp + 2) / 5 + 1) in *.
  rewrite !andb_true_iff, !Z.leb_le, Z.eqb_eq in Hok.
  destruct Hok as [[[[H1 H2] H3] H4] H5].
  destruct (Z.eqb_spec m 2); rewrite Z.leb_le in H5; repeat split; auto; intros; contradiction.
Qed.

Lemma daysIn_not_feb m y y' : m <> 2 -> daysIn m y = daysIn m y'.
Proof. intros H. unfold daysIn. destruct (Z.eqb_spec m 2); [contradiction | reflexivity]. Qed.

(** The cycles of a day number. *)
Lemma cycle_facts z :
  let z' := z + 719468 in
  let n400 := z' / 146097 in
  let r400 := z' mod 146097 in
  let n100 := Z.min 3 (r400 / 36524) in
  let r100 := r400 - 36524 * n100 in
  let n4 := r100 / 1461 in
  let r4 := r100 mod 1461 in
  let n1 := Z.min 3 (r4 / 365) in
  let doy := r4 - 365 * n1 in
  let y := 400 * n400 + 100 * n100 + 4 * n4 + n1 in
  0 <= doy <= 365 /\ year_days y + doy = z' /\ (doy = 365 -> leap (y + 1) = true).
Proof.
  intros z' n400 r400 n100 r100 n4 r4 n1 doy y.
  assert (0 <= r400 < 146097) by (apply Z.mod_pos_bound; lia).
  assert (z' = 146097 * n400 + r400) by (apply Z.div_mod; lia).
  assert (n100 = Z.min 3 (r400 / 36524)) by reflexivity.
  assert (r100 = r400 - 36524 * n100) by reflexivity.
  assert (n4 = r100 / 1461) by reflexivity. assert (r4 = r100 mod 1461) by reflexivity.
  assert (n1 = Z.min 3 (r4 / 365)) by reflexivity. assert (doy = r4 - 365 * n1) by reflexivity.
  assert (y = 400 * n400 + 100 * n100 + 4 * n4 + n1) by reflexivity.
  clearbody y doy n1 r4 n4 r100 n100 r400 n400 z'.
  assert (0 <= n100 <= 3 /\ 0 <= r100 <= 36524 /\ (n100 < 3 -> r100 < 36524)) by lia.
  assert (0 <= n4 <= 24 /\ 0 <= r4 < 1461 /\ r100 = 1461 * n4 + r4) by lia.
  assert (0 <= n1 <= 3 /\ 0 <= doy <= 365 /\ (doy = 365 -> n1 = 3 /\ r4 = 1460)) by lia.
  split; [lia|]. split.
  - unfold year_days. assert (y / 4 = 100 * n400 + 25 * n100 + n4) by lia.
    assert (y / 100 = 4 * n400 + n100) by lia. assert (y / 400 = n400) by lia. lia.
  - intros E. unfold leap. rewrite andb_true_iff, orb_true_iff, negb_true_iff, Z.eqb_neq, !Z.eqb_eq.
    split; lia.
Qed.

Lemma day_ok_facts z :
  let c := civil_of_days z in
  valid c /\ days_of_civil (Year c) (Month c) (Day c) = z.
Proof.
  unfold civil_of_days, valid. cbv zeta. cbn [Year Month Day].
  pose proof (cycle_facts z) as C. cbv zeta in C.
  set (doy := _ - 365 * Z.min 3 _) in *.
  set (y := 400 * _ + _ + _ + _) in *.
  destruct C as (Hd & Hz & Hl). pose proof (month_ok_facts doy Hd) as M. cbv zeta in M.
  set (m := if (5 * doy + 2) / 153 <? 10 then _ else _) in *.
  set (d := doy - (153 * ((5 * doy + 2) / 153) + 2) / 5 + 1) in *.
  destruct M as (Hm & Hd1 & Ho & H2 & Hn2).
  clearbody doy y m d. repeat split; try lia.
  - destruct (Z.eq_dec m 2) as [->|Hm2].
    + specialize (H2 eq_refl). change (2 <=? 2) with true. cbv iota.
      unfold daysIn. change (2 =? 2) with true. cbv iota.
      destruct (Z.eqb_spec doy 365) as [E|E]; [rewrite (Hl E); lia | destruct (leap (y + 1)); lia].
    + rewrite (daysIn_not_feb m _ 1 Hm2). auto.
  - rewrite days_of_civil_split. destruct (Z.leb_spec m 2).
    + replace (y + 1 - 1) with y by lia. lia.
    + lia.
Qed.

Lemma civil_of_days_valid z : valid (civil_of_days z).
Proof. apply day_ok_facts. Qed.

Lemma days_valid d : valid d -> days d = days_of_civil (Year d) (Month d) (Day d).
Proof. intros [Hm _]. unfold days. f_equal; lia. Qed.

Lemma days_civil_of_days z : days (civil_of_days z) = z.
Proof. rewrite days_valid by apply civil_of_days_valid. apply day_ok_facts. Qed.

(** Dates of one month are told apart by their day numbers, and months by their first days. *)
Lemma days_of_civil_day y m d : days_of_civil y m d = days_of_civil y m 1 + (d - 1).
Proof. unfold days_of_civil. destruct (m <=? 2); lia. Qed.

Lemma year_days_step y : year_days y = year_days (y - 1) + 365 + (if leap y then 1 else 0).
Proof.
  unfold year_days, leap.
  destruct (Z.eqb_spec (y mod 4) 0), (Z.eqb_spec (y mod 100) 0), (Z.eqb_spec (y mod 400) 0);
    cbn [andb orb negb]; lia.
Qed.

Lemma month_offset_step m y : 1 <= m < 12 -> m <> 2 -> month_offset (m + 1) = month_offset m + daysIn m y.
Proof.
  intros Hm H2.
  assert (m = 1 \/ m = 3 \/ m = 4 \/ m = 5 \/ m = 6 \/ m = 7 \/ m = 8 \/ m = 9
    \/ m = 10 \/ m = 11) as C by lia.
  decompose [or] C; subst m; reflexivity.
Qed.

Lemma month_step y m : 1 <= m < 12 -> days_of_civil y (m + 1) 1 = days_of_civil y m 1 + daysIn m y.
Proof.
  intros Hm. rewrite !days_of_civil_split. destruct (Z.eq_dec m 2) as [->|H2].
  - change (2 + 1 <=? 2) with false. change (2 <=? 2) with true. cbv iota.
    change (month_offset (2 + 1)) with 0. change (month_offset 2) with 337.
    unfold daysIn. change (2 =? 2) with true. cbv iota. rewrite year_days_step. destruct (leap y); lia.
  - rewrite (month_offset_step m y) by lia.
    replace (m + 1 <=? 2) with (m <=? 2); [lia|].
    destruct (Z.leb_spec m 2), (Z.leb_spec (m + 1) 2); lia.
Qed.
Lemma year_step y : days_of_civil (y + 1) 1 1 = days_of_civil y 12 1 + 31.
Proof.
  rewrite !days_of_civil_split. change (1 <=? 2) with true. change (12 <=? 2) with false.
  change (month_offset 1) with 306. change (month_offset 12) with 275. cbv iota.
  replace (y + 1 - 1) with y by lia. lia.
Qed.

Lemma daysIn_pos m y : 28 <= daysIn m y <= 31.
Proof. unfold daysIn. destruct (m =? 2), (leap y), ((m =? 4) || (m =? 6) || (m =? 9) || (m =? 11)); lia. Qed.

Lemma first_lt y m1 m2 : 1 <= m1 < m2 -> m2 <= 12 ->
  days_of_civil y m1 1 + daysIn m1 y <= days_of_civil y m2 1.
Proof.
  intros H1 H2. remember (Z.to_nat (m2 - m1 - 1)) as n eqn:Hn.
  revert m1 H1 Hn. induction n; intros m1 H1 Hn.
  - replace m2 with (m1 + 1) by lia. rewrite month_step by lia. lia.
  - specialize (IHn (m1 + 1)). rewrite month_step in IHn by lia.
    pose proof (daysIn_pos (m1 + 1) y). lia.
Qed.

Lemma year_lt y1 y2 m1 m2 : y1 < y2 -> 1 <= m1 <= 12 -> 1 <= m2 <= 12 ->
  days_of_civil y1 m1 1 + daysIn m1 y1 <= days_of_civil y2 m2 1.
Proof.
  intros Hy H1 H2.
  assert (E1 : days_of_civil y1 m1 1 + daysIn m1 y1 <= days_of_civil (y1 + 1) 1 1).
  { rewrite year_step. destruct (Z.eq_dec m1 12) as [->|]; [cbn; lia|].
    pose proof (first_lt y1 m1 12). lia. }
  assert (E2 : days_of_civil (y1 + 1) 1 1 <= days_of_civil y2 1 1).
  { rewrite !days_of_civil_split. change (1 <=? 2) with true. cbv iota. unfold year_days. lia. }
  assert (E3 : days_of_civil y2 1 1 <= days_of_civil y2 m2 1).
  { destruct (Z.eq_dec m2 1) as [->|]; [lia|].
    pose proof (first_lt y2 1 m2). pose proof (daysIn_pos 1 y2). lia. }
  lia.
Qed.

(** Lexicographic order of dates. *)
Definition date_lt (a b : Date) : Prop :=
  Year a < Year b \/ (Year a = Year b /\ (Month a < Month b \/ (Month a = Month b /\ Day a < Day b))).

Lemma date_lt_days a b : valid a -> valid b -> date_lt a b -> days a < days b.
Proof.
  intros Ha Hb H. rewrite (days_valid a Ha), (days_valid b Hb).
  rewrite (days_of_civil_day _ _ (Day a)), (days_of_civil_day _ _ (Day b)).
  destruct Ha as [Hm Hd], Hb as [Hm' Hd'].
  destruct H as [H|[E [H|[E' H]]]].
  - pose proof (year_lt (Year a) (Year b) (Month a) (Month b)). lia.
  - rewrite E in *. pose proof (first_lt (Year b) (Month a) (Month b)). lia.
  - rewrite E, E' in *. lia.
Qed.

Lemma days_lt_iff a b : valid a -> valid b -> (days a < days b <-> date_lt a b).
Proof.
  intros Ha Hb. split; [|apply date_lt_days; auto]. intros H.
  destruct (Ztrichotomy (Year a) (Year b)) as [|[Ey|]]; [left; auto| |].
  2: { pose proof (date_lt_days b a Hb Ha). unfold date_lt in *. lia. }
  destruct (Ztrichotomy (Month a) (Month b)) as [|[Em|]]; [right; auto| |].
  2: { pose proof (date_lt_days b a Hb Ha). unfold date_lt in *. lia. }
  destruct (Ztrichotomy (Day a) (Day b)) as [|[Ed|]]; [right; auto| |].
  - rewrite (days_valid a Ha), (days_valid b Hb), Ey, Em, Ed in H. lia.
  - pose proof (date_lt_days b a Hb Ha). unfold date_lt in *. lia.
Qed.

Lemma days_inj a b : valid a -> valid b -> days a = days b -> a = b.
Proof.
  intros Ha Hb H. pose proof (days_lt_iff a b Ha Hb). pose proof (days_lt_iff b a Hb Ha).
  destruct a as [y m d], b as [y' m' d']. unfold date_lt in *. cbn [Year Month Day] in *.
  f_equal; lia.
Qed.

Lemma civil_of_days_days d : valid d -> civil_of_days (days d) = d.
Proof.
  intros H. apply days_inj; auto using civil_of_days_valid. apply days_civil_of_days.
Qed.

(** ** Lemmas on the operations *)
Lemma days_AddDays d n : days (AddDays d n) = days d + n.
Proof. apply days_civil_of_days. Qed.
Lemma AddDays_valid d n : valid (AddDays d n).
Proof. apply civil_of_days_valid. Qed.
Lemma Before_spec d o : Before d o = true <-> days d < days o.
Proof.
  unfold Before, Compare.
  destruct (Z.ltb_spec (days d) (days o)), (Z.ltb_spec (days o) (days d)); simpl; split; lia || congruence.
Qed.
Lemma Before_false d o : Before d o = false <-> days o <= days d.
Proof. rewrite <- not_true_iff_false, Before_spec. lia. Qed.
Lemma Compare_0 d o : Compare d o = 0 <-> days d = days o.
Proof.
  unfold Compare. destruct (Z.ltb_spec (days d) (days o)), (Z.ltb_spec (days o) (days d)); lia.
Qed.
Lemma IsZero_spec d : IsZero d = true <-> d = zero_Date.
Proof.
  destruct d as [y m d]. unfold IsZero, zero_Date; cbn [Year Month Day].
  rewrite !andb_true_iff, !Z.eqb_eq. split; [intros [[-> ->] ->]; auto | intros [= -> -> ->]; auto].
Qed.
Lemma valid_not_zero d : valid d -> IsZero d = false.
Proof.
  intros [H _]. apply not_true_iff_false. rewrite IsZero_spec. intros ->. unfold zero_Date in H; simpl in H. lia.
Qed.
Lemma days_DateOf_valid t loc : valid (DateOf t loc).
Proof. apply civil_of_days_valid. Qed.

Create HintDb civil.
#[export] Hint Resolve civil_of_days_valid AddDays_valid days_DateOf_valid valid_not_zero : civil.
#[export] Hint Rewrite days_civil_of_days days_AddDays : civil.

(** ** The text form *)
Lemma pad_int_digits w x : (1 <= w)%nat -> 0 <= x < 10 ^ Z.of_nat w -> pad_int w x = digits_n w x.
Proof.
  intros Hw Hx. unfold pad_int. destruct (Z.ltb_spec x 0); [lia|].
  pose proof (num_digits_le 20 w x Hw). rewrite Nat.max_l by lia. reflexivity.
Qed.

Lemma valid_bounds d : valid d -> 1 <= Month d <= 12 /\ 1 <= Day d <= 31.
Proof. intros [Hm Hd]. pose proof (daysIn_pos (Month d) (Year d)). lia. Qed.

Lemma Date_String_digits d : valid d -> iso_range d ->
  Date_String d = digits_n 4 (Year d) ++ "-" ++ digits_n 2 (Month d) ++ "-" ++ digits_n 2 (Day d).
Proof.
  intros Hv Hr. unfold Date_String. rewrite civil_of_days_days by exact Hv.
  pose proof (valid_bounds d Hv). unfold iso_range in Hr.
  rewrite !pad_int_digits; auto; simpl; lia.
Qed.

Lemma take_digits_n n z s : 0 <= z < 10 ^ Z.of_nat n -> take_digits n (digits_n n z ++ s) = Some (z, s).
Proof.
  intros Hz. unfold take_digits.
  assert (E : substring 0 n (digits_n n z ++ s) = digits_n n z).
  { rewrite <- (digits_n_length n z) at 1. apply substring_app. }
  assert (D : drop_str n (digits_n n z ++ s) = s).
  { rewrite <- (digits_n_length n z) at 1. apply drop_str_app. }
  rewrite E, D, digits_n_length, Nat.eqb_refl, all_digits_digits_n, parse_digits_digits_n. simpl.
  rewrite Z.mod_small by exact Hz. reflexivity.
Qed.

Lemma take_digits_inv n s z r : take_digits n s = Some (z, r) ->
  s = digits_n n z ++ r /\ 0 <= z < 10 ^ Z.of_nat n.
Proof.
  unfold take_digits. destruct (Nat.eqb_spec (String.length (substring 0 n s)) n) as [L|]; [|discriminate].
  destruct (all_digits (substring 0 n s)) eqn:A; [|discriminate]. intros [= <- <-].
  assert (Hn : (n <= String.length s)%nat) by (pose proof (substring_length_le n s); lia).
  destruct (substring_drop n s Hn) as [E _].
  destruct (parse_digits_bound 0 _ A) as (v & Hv & Hb & Hd). rewrite L in *.
  rewrite Hd. split; [exact E | lia].
Qed.

Lemma take_dash_inv s r : take_dash s = Some r -> s = "-" ++ r.
Proof.
  unfold take_dash. destruct s as [|c s]; [discriminate|].
  destruct (Ascii.eqb_spec c "-"); [|discriminate]. intros [= ->]. subst. reflexivity.
Qed.

Lemma ParseDate_text d : valid d -> iso_range d -> ParseDate (Date_String d) = inr d.
Proof.
  intros Hv Hr. rewrite Date_String_digits by auto. pose proof (valid_bounds d Hv).
  unfold iso_range in Hr. unfold ParseDate.
  rewrite take_digits_n by (simpl; lia). change (take_dash ("-" ++ ?x)) with (Some x). cbv iota.
  cbn [String.append take_dash]. change (Ascii.eqb "-" "-") with true. cbv iota.
  rewrite take_digits_n by (simpl; lia).
  destruct (Z.ltb_spec (Month d) 1); [lia|]. destruct (Z.ltb_spec 12 (Month d)); [lia|]. cbn [orb].
  cbn [String.append take_dash]. change (Ascii.eqb "-" "-") with true. cbv iota.
  rewrite <- (append_nil_r (digits_n 2 (Day d))), take_digits_n by (simpl; lia).
  destruct Hv as [_ Hd]. destruct (Z.ltb_spec (Day d) 1); [lia|].
  destruct (Z.ltb_spec (daysIn (Month d) (Year d)) (Day d)); [lia|]. destruct d; reflexivity.
Qed.

Lemma ParseDate_inv s d : ParseDate s = inr d -> valid d /\ iso_range d /\ Date_String d = s.
Proof.
  unfold ParseDate. intros H.
  destruct (take_digits 4 s) as [[y s1]|] eqn:E1; [|discriminate].
  destruct (take_dash s1) as [s2|] eqn:E2; [|discriminate].
  destruct (take_digits 2 s2) as [[m s3]|] eqn:E3; [|discriminate].
  destruct (Z.ltb_spec m 1); [discriminate|]. destruct (Z.ltb_spec 12 m); [discriminate|].
  cbn [orb] in H. destruct (take_dash s3) as [s4|] eqn:E4; [|discriminate].
  destruct (take_digits 2 s4) as [[dd [|c r]]|] eqn:E5; [|discriminate|discriminate].
  destruct (Z.ltb_spec dd 1); [discriminate|].
  destruct (Z.ltb_spec (daysIn m y) dd); [discriminate|].
  injection H as <-.
  apply take_digits_inv in E1 as [-> Hy], E3 as [-> Hm], E5 as [-> Hd].
  apply take_dash_inv in E2 as ->, E4 as ->. simpl in Hy.
  assert (Hv : valid (mkDate y m dd)) by (split; simpl; lia).
  assert (Hr : iso_range (mkDate y m dd)) by (unfold iso_range; simpl; lia).
  split; [exact Hv|]. split; [exact Hr|].
  rewrite Date_String_digits by auto. cbn [Year Month Day]. rewrite append_nil_r. reflexivity.
Qed.

Lemma compare_refl_append p s t : String.compare (p ++ s) (p ++ t) = String.compare s t.
Proof.
  induction p as [|c p IH]; [reflexivity|]. cbn [String.append String.compare].
  unfold Ascii.compare. rewrite N.compare_refl. exact IH.
Qed.

Lemma Date_String_compare a b : valid a -> valid b -> iso_range a -> iso_range b ->
  String.compare (Date_String a) (Date_String b) = (days a ?= days b).
Proof.
  intros Ha Hb Ra Rb. rewrite !Date_String_digits by auto.
  pose proof (valid_bounds a Ha). pose proof (valid_bounds b Hb). unfold iso_range in *.
  rewrite compare_digits by (simpl; lia). rewrite compare_refl_append, compare_digits by (simpl; lia).
  rewrite compare_refl_append.
  rewrite <- (append_nil_r (digits_n 2 (Day a))), <- (append_nil_r (digits_n 2 (Day b))).
  rewrite compare_digits by (simpl; lia). simpl (String.compare "" "").
  pose proof (days_lt_iff a b Ha Hb) as L. pose proof (days_lt_iff b a Hb Ha) as G. unfold date_lt in *.
  destruct (Z.compare_spec (Year a) (Year b)), (Z.compare_spec (Month a) (Month b)),
    (Z.compare_spec (Day a) (Day b)); symmetry;
    first [apply Z.compare_eq_iff | apply Z.compare_lt_iff | apply Z.compare_gt_iff]; lia.
Qed.

(** ** Properties *)

(** [civil.Parse] accepts exactly the texts [Date.String] prints for the
    calendar dates of years 0 to 9999, and gives that date back: the round trip
    holds both ways, so a date stored as text is read back unchanged. *)
Theorem Parse_String_roundtrip s d :
  ParseDate s = inr d <-> (valid d /\ iso_range d /\ Date_String d = s).
Proof.
  split; [apply ParseDate_inv|]. intros (Hv & Hr & <-). apply ParseDate_text; auto.
Qed.

(** The text order of the stored dates is the calendar order, so the SQL
    comparisons and [ORDER BY] on the date columns compare days. *)
Theorem Date_text_order a b :
  valid a -> valid b -> iso_range a -> iso_range b ->
  String.compare (Date_String a) (Date_String b) = (days a ?= days b).
Proof. apply Date_String_compare. Qed.

Lemma Date_text_order_witness :
  String.compare (Date_String (mkDate 2024 2 29)) (Date_String (mkDate 2024 10 1))
    = (days (mkDate 2024 2 29) ?= days (mkDate 2024 10 1)).
Proof.
  apply (Date_text_order (mkDate 2024 2 29) (mkDate 2024 10 1));
    (split; simpl; lia) || (unfold valid, daysIn, leap; simpl; lia).
Defined.

(** Date arithmetic is an action of the integers on the calendar: every
    [AddDays] ends on a calendar date, the shifts add up, a shift of zero
    normalises, and [Before] and [Compare] order dates as day numbers do. *)
Theorem AddDays_action d m n :
  valid (AddDays d n)
  /\ AddDays (AddDays d m) n = AddDays d (m + n)
  /\ (valid d -> AddDays d 0 = d)
  /\ (Before d (AddDays d n) = true <-> 0 < n)
  /\ Compare (AddDays d m) (AddDays d n) = Z.sgn (m - n).
Proof.
  split; [auto with civil|]. split; [|split; [|split]].
  - unfold AddDays. rewrite days_civil_of_days. f_equal. lia.
  - intros Hv. unfold AddDays. rewrite Z.add_0_r. apply civil_of_days_days; auto.
  - rewrite Before_spec, days_AddDays. lia.
  - unfold Compare. rewrite !days_AddDays.
    destruct (Z.ltb_spec (days d + m) (days d + n)), (Z.ltb_spec (days d + n) (days d + m)); lia.
Qed.

(** A calendar date survives the trip through an instant: the date of local
    midnight [d.In(loc)] in [loc] is [d], in every zone whose offset at that
    midnight is less than a day and is the one the lookup settles on. *)
Theorem DateOf_In d loc :
  valid d ->
  (let o := z_offset (loc (days d * 86400)) in
   z_offset (loc (days d * 86400 - o)) = o /\ -86400 < o < 86400) ->
  DateOf (In_ d loc) loc = d.
Proof.
  intros Hv. cbv zeta. set (z := loc (days d * 86400)). intros [Ho Hb].
  unfold DateOf, In_. fold z. cbv zeta.
  assert (E : (if z_offset z =? 0 then 0
     else if (days d * 86400 - z_offset z <? z_start z) || (z_end z <=? days d * 86400 - z_offset z)
          then z_offset (loc (days d * 86400 - z_offset z)) else z_offset z) = z_offset z).
  { destruct (Z.eqb_spec (z_offset z) 0); [lia|].
    destruct (_ || _); auto. }
  rewrite E, Z.div_mul by lia. rewrite Ho.
  replace (days d * 86400 - z_offset z + z_offset z) with (days d * 86400) by lia.
  rewrite Z.div_mul by lia. apply civil_of_days_days; auto.
Qed.

Lemma DateOf_In_witness :
  DateOf (In_ (mkDate 2024 2 29) (fun _ => mkZone 25200 (- 2 ^ 63) (2 ^ 63 - 1)))
    (fun _ => mkZone 25200 (- 2 ^ 63) (2 ^ 63 - 1)) = mkDate 2024 2 29.
Proof.
  apply (DateOf_In (mkDate 2024 2 29)); [unfold valid, daysIn, leap; simpl; lia | simpl; lia].
Defined.
