(* ===== verification/Money.v ===== *)
(** * Money ([money/amount.go], [money/currency.go], [money/parse.go])

    Amounts in minor units as 64-bit integers, the currency table, the printer
    [Major] and the parser [ParseMajor] of user-typed amounts. *)
From Stdlib Require Import ZArith Lia String Ascii List.
From stdpp Require Import base list strings.
From S2P Require Import Prelude GoStrings Errors.
Local Open Scope string_scope.
Local Open Scope Z_scope.

(** ** Currencies *)
Definition Currency := string.
Definition IDR : Currency := "IDR".

Record meta := mkMeta { exponent : Z; display : Z; symbol_ : string }.

Definition currencies : list (Currency * meta) :=
  [ (IDR, mkMeta 2 0 "Rp"); ("USD", mkMeta 2 2 "$"); ("SGD", mkMeta 2 2 "S$");
    ("MYR", mkMeta 2 2 "RM"); ("EUR", mkMeta 2 2 "€"); ("JPY", mkMeta 0 0 "¥") ].

Fixpoint assoc {A} (k : string) (l : list (string * A)) : option A :=
  match l with
  | [] => None
  | (k', a) :: l' => if String.eqb k k' then Some a else assoc k l'
  end.
(** A missing key reads as the zero [meta]. *)
Definition currency_meta (c : Currency) : meta :=
  match assoc c currencies with Some m => m | None => mkMeta 0 0 "" end.

Definition Valid (c : Currency) : bool :=
  match assoc c currencies with Some _ => true | None => false end.
Definition Exponent (c : Currency) : Z := exponent (currency_meta c).
Definition DisplayExponent (c : Currency) : Z := display (currency_meta c).
Definition symbol (c : Currency) : string := symbol_ (currency_meta c).

Definition ParseCurrency `{Unicode} (code : string) : MoneyError + Currency :=
  let c := ToUpper (TrimSpace code) in
  if Valid c then inr c else inl (UnknownCurrencyError code).

(** ** Amounts *)
Record Amount := mkAmount { Minor : Z; AmountCurrency : Currency }.
#[global] Instance Amount_eq_dec : EqDecision Amount.
Proof. solve_decision. Defined.

Definition New (minor : Z) (c : Currency) : Amount := mkAmount minor c.
Definition Zero (c : Currency) : Amount := mkAmount 0 c.

(** [mustSame] panics: [None]. *)
Definition SameCurrency (a b : Amount) : bool := String.eqb (AmountCurrency a) (AmountCurrency b).
Definition Add (a b : Amount) : option Amount :=
  if SameCurrency a b then Some (mkAmount (wrap64 (Minor a + Minor b)) (AmountCurrency a)) else None.
Definition Sub (a b : Amount) : option Amount :=
  if SameCurrency a b then Some (mkAmount (wrap64 (Minor a - Minor b)) (AmountCurrency a)) else None.
Definition Neg (a : Amount) : Amount := mkAmount (wrap64 (- Minor a)) (AmountCurrency a).
Definition Amount_Compare (a b : Amount) : option Z :=
  if SameCurrency a b
  then Some (if Minor a <? Minor b then -1 else if Minor b <? Minor a then 1 else 0)
  else None.
Definition Amount_IsZero (a : Amount) : bool := Minor a =? 0.
Definition IsPositive (a : Amount) : bool := 0 <? Minor a.

Fixpoint pow10_loop (n : nat) (p : Z) : Z :=
  match n with O => p | S n' => pow10_loop n' (wrap64 (p * 10)) end.
Definition pow10 (n : Z) : Z := pow10_loop (Z.to_nat n) 1.

(** [Amount.Major]: Go's [/] and [%] truncate, and negating the least integer wraps. *)
Definition Major (a : Amount) : string :=
  let exp := Exponent (AmountCurrency a) in
  if exp =? 0 then FormatInt (Minor a) else
  let neg := Minor a <? 0 in
  let abs := if neg then wrap64 (- Minor a) else Minor a in
  let pow := pow10 exp in
  let whole := Z.quot abs pow in
  let frac := Z.rem abs pow in
  let s := FormatInt whole in
  let s := if negb (frac =? 0) || (0 <? DisplayExponent (AmountCurrency a))
           then let fs := FormatInt frac in
                s ++ "." ++ zeros (Z.to_nat exp - String.length fs) ++ fs
           else s in
  if neg then "-" ++ s else s.

(** ** Parsing *)

(** [strings.LastIndexAny raw ".,"] with the text before and after it. *)
Fixpoint split_last_sep (s : string) : option (string * ascii * string) :=
  match s with
  | EmptyString => None
  | String c r =>
    match split_last_sep r with
    | Some (pre, sep, tail) => Some (String c pre, sep, tail)
    | None => if Ascii.eqb c "." || Ascii.eqb c "," then Some (EmptyString, c, r) else None
    end
  end.

Definition splitDecimal (raw : string) (displayExp : Z) : option (string * string) :=
  if displayExp =? 0 then Some (raw, "") else
  match split_last_sep raw with
  | None => Some (raw, "")
  | Some (pre, sep, tail) =>
    let n := Z.of_nat (String.length tail) in
    if (1 <=? n) && (n <=? displayExp) then Some (pre, tail) else
    if Ascii.eqb sep "," then Some (raw, "") else None
  end.

Definition ParseMajor `{Unicode} (s : string) (c : Currency) : MoneyError + Amount :=
  if negb (Valid c) then inl (UnknownCurrencyError c) else
  let raw := TrimSpace s in
  let raw := TrimPrefix raw (symbol c) in
  let raw := TrimPrefix (ToUpper raw) c in
  let raw := remove_chars [" "%char] (TrimSpace raw) in
  if String.eqb raw "" then inl (MoneyParseError s "empty") else
  if HasPrefix raw "-" then inl (MoneyParseError s "negative") else
  match splitDecimal raw (DisplayExponent c) with
  | None => inl (MoneyParseError s "ambiguous decimal separator")
  | Some (whole, frac) =>
    let whole := remove_chars ["."%char; ","%char] whole in
    if String.eqb whole "" || negb (all_digits whole) || negb (all_digits frac)
    then inl (MoneyParseError s "not a number") else
    let exp := Exponent c in
    if exp <? Z.of_nat (String.length frac) then inl (MoneyParseError s "too many decimals") else
    let frac := frac ++ zeros (Z.to_nat exp - String.length frac) in
    match ParseInt64 (whole ++ frac) with
    | None => inl (MoneyParseError s "overflow")
    | Some n => inr (mkAmount n c)
    end
  end.

(** The tests of [money/money_test.go]. *)
Section Examples.
#[local] Instance ascii_unicode : Unicode :=
  {| unicode_lower := fun r => r; unicode_upper := fun r => r |}.

Example ParseMajor_cases :
  map (fun p => ParseMajor (fst p) (snd p))
    [("40000", IDR); ("40.000", IDR); ("Rp 1.250.000", IDR); ("12.34", "USD");
     ("1,234.56", "USD"); ("1.234,56", "USD"); ("12,345", "USD"); ("500", "JPY")]
  = [inr (New 4000000 IDR); inr (New 4000000 IDR); inr (New 125000000 IDR); inr (New 1234 "USD");
     inr (New 123456 "USD"); inr (New 123456 "USD"); inr (New 1234500 "USD"); inr (New 500 "JPY")].
Proof. vm_compute. reflexivity. Qed.
Example Major_cases :
  map Major [New 4000000 IDR; New 4000050 IDR; New 1234 "USD"; New (- 1234) "USD"]
  = ["40000"; "40000.50"; "12.34"; "-12.34"].
Proof. vm_compute. reflexivity. Qed.
End Examples.

(** ** Lemmas *)

(** The characters [Major] prints for an amount that is not negative. *)
Definition amount_char (c : ascii) : bool := is_digit c || Ascii.eqb c ".".
Definition head_digit (s : string) : bool :=
  match s with String c _ => is_digit c | EmptyString => false end.

Lemma amount_char_plain c : amount_char c = true -> plain c = true.
Proof. destruct c as [[] [] [] [] [] [] [] []]; vm_compute; congruence. Qed.
Lemma amount_char_not_space c : amount_char c = true -> negb (existsb (Ascii.eqb c) [" "%char]) = true.
Proof. destruct c as [[] [] [] [] [] [] [] []]; vm_compute; congruence. Qed.
Lemma amount_char_upper `{Unicode} c :
  amount_char c = true -> encode_rune (ToUpperRune (byte_of c)) = String c "".
Proof. destruct c as [[] [] [] [] [] [] [] []]; intros E; vm_compute in E; (discriminate E || reflexivity). Qed.

Lemma ToUpper_amount `{Unicode} s : all_chars amount_char s = true -> ToUpper s = s.
Proof.
  intros Hs. unfold ToUpper, map_runes.
  rewrite runes_ascii
    by (eapply all_chars_impl, Hs; intros c Hc; apply amount_char_plain, andb_prop in Hc; tauto).
  transitivity (unrunes (chars s)); [|apply unrunes_chars]. unfold unrunes. f_equal.
  induction s as [|c s IH]; [reflexivity|]. simpl in *. apply andb_prop in Hs as [Hc Hs].
  f_equal; [apply amount_char_upper, Hc | apply IH, Hs].
Qed.

Lemma TrimPrefix_head s p : p = "" \/ head_digit p = false -> head_digit s = true -> TrimPrefix s p = s.
Proof.
  unfold TrimPrefix, HasPrefix. destruct s as [|c s]; [intros _ [=]|]. intros Hp Hs. simpl in Hs.
  destruct p as [|d p]; [reflexivity|]. destruct Hp as [[=]|Hp]. simpl in *.
  destruct (ascii_dec d c) as [->|]; [congruence|]. reflexivity.
Qed.

Definition clean `{Unicode} (s : string) (c : Currency) : string :=
  let raw := TrimPrefix (TrimSpace s) (symbol c) in
  remove_chars [" "%char] (TrimSpace (TrimPrefix (ToUpper raw) c)).

Lemma clean_amount `{Unicode} s c :
  head_digit (symbol c) = false -> head_digit c = false ->
  all_chars amount_char s = true -> head_digit s = true -> clean s c = s.
Proof.
  intros H1 H2 Hs Hh. unfold clean.
  assert (all_chars plain s = true) by (eapply all_chars_impl, Hs; apply amount_char_plain).
  rewrite (TrimSpace_plain s), (TrimPrefix_head s (symbol c)), ToUpper_amount by auto.
  rewrite (TrimPrefix_head s c), TrimSpace_plain by auto.
  apply remove_chars_none. eapply all_chars_impl, Hs. apply amount_char_not_space.
Qed.

Lemma Valid_cases c : Valid c = true -> c = IDR \/ c = "JPY" \/
  (Exponent c = 2 /\ DisplayExponent c = 2 /\ head_digit (symbol c) = false /\ head_digit c = false).
Proof.
  unfold Valid, Exponent, DisplayExponent, symbol, currency_meta, currencies. cbn [assoc].
  repeat match goal with |- context [String.eqb ?a ?b] => destruct (String.eqb_spec a b); [subst|] end;
    intros; auto; try discriminate; right; right; repeat split; reflexivity.
Qed.

Lemma split_last_sep_none s : all_digits s = true -> split_last_sep s = None.
Proof.
  induction s as [|c s IH]; [reflexivity|]. simpl. intros H. apply andb_prop in H as [Hc Hs].
  rewrite (IH Hs). destruct c as [[] [] [] [] [] [] [] []]; vm_compute in Hc; (discriminate Hc || reflexivity).
Qed.
Lemma split_last_sep_dot a b : all_digits b = true ->
  split_last_sep (a ++ String "." b) = Some (a, "."%char, b).
Proof.
  intros Hb. induction a as [|c a IH]; simpl.
  - rewrite split_last_sep_none by exact Hb. reflexivity.
  - rewrite IH. reflexivity.
Qed.
Lemma remove_sep_digits s : all_digits s = true -> remove_chars ["."%char; ","%char] s = s.
Proof.
  intros H. apply remove_chars_none. rewrite all_digits_all_chars in H.
  eapply all_chars_impl, H. intros c. destruct c as [[] [] [] [] [] [] [] []]; vm_compute; congruence.
Qed.
Lemma all_digits_amount s : all_digits s = true -> all_chars amount_char s = true.
Proof.
  rewrite all_digits_all_chars. apply all_chars_impl. unfold amount_char. intros c ->. reflexivity.
Qed.
Lemma all_digits_head s : all_digits s = true -> s <> "" -> head_digit s = true.
Proof. destruct s; simpl; [congruence|]. intros H _. apply andb_prop in H. tauto. Qed.
Lemma head_digit_app a b : head_digit a = true -> head_digit (a ++ b) = true.
Proof. destruct a; simpl; congruence. Qed.
Lemma head_digit_prefix s : head_digit s = true -> s <> "" /\ HasPrefix s "-" = false.
Proof.
  destruct s as [|c s]; [discriminate|]. unfold HasPrefix. cbn [String.prefix head_digit]. intros Hc.
  split; [discriminate|]. destruct (ascii_dec "-" c) as [<-|]; [discriminate|]. reflexivity.
Qed.

(** The value a cleaned text with an accepted decimal mark stands for. *)
Lemma ParseMajor_clean `{Unicode} s c raw whole frac :
  Valid c = true -> clean s c = raw -> head_digit raw = true ->
  splitDecimal raw (DisplayExponent c) = Some (whole, frac) ->
  let digits := remove_chars ["."%char; ","%char] whole in
  digits <> "" -> all_digits digits = true -> all_digits frac = true ->
  Z.of_nat (String.length frac) <= Exponent c ->
  ParseMajor s c =
    match ParseInt64 (digits ++ (frac ++ zeros (Z.to_nat (Exponent c) - String.length frac))) with
    | None => inl (MoneyParseError s "overflow")
    | Some n => inr (mkAmount n c)
    end.
Proof.
  cbv zeta. intros Hv Hc Hh Hsp Hne Hd Hf Hl. unfold ParseMajor.
  fold (clean s c). rewrite Hc, Hv. cbn [negb].
  apply head_digit_prefix in Hh as [Hr Hp].
  destruct (String.eqb_spec raw ""); [contradiction|]. rewrite Hp, Hsp.
  destruct (String.eqb_spec (remove_chars ["."%char; ","%char] whole) ""); [contradiction|].
  rewrite Hd, Hf. cbn [orb negb].
  destruct (Z.ltb_spec (Exponent c) (Z.of_nat (String.length frac))); [lia|]. reflexivity.
Qed.

Lemma parse_zeros acc n : parse_digits acc (zeros n) = acc * 10 ^ Z.of_nat n.
Proof.
  revert acc; induction n; intros acc; [simpl; lia|].
  cbn [zeros parse_digits]. rewrite IHn, Nat2Z.inj_succ, Z.pow_succ_r by lia.
  change (digit_val "0") with 0. ring.
Qed.
Lemma zeros_digits n : all_digits (zeros n) = true.
Proof. induction n; simpl; auto. Qed.
Lemma zeros_length n : String.length (zeros n) = n.
Proof. induction n; simpl; congruence. Qed.

(** Two minor digits, padded as [Major] pads them. *)
Lemma frac_digits f : 0 <= f < 100 ->
  let fs := FormatInt f in let t := zeros (2 - String.length fs) ++ fs in
  all_digits t = true /\ String.length t = 2%nat /\ forall acc, parse_digits acc t = acc * 100 + f.
Proof.
  intros Hf. cbv zeta.
  assert (Hl : (String.length (FormatInt f) <= 2)%nat).
  { rewrite FormatInt_length by lia. apply num_digits_le; simpl; lia. }
  split; [|split].
  - rewrite all_digits_app, zeros_digits, FormatInt_digits by lia. reflexivity.
  - rewrite append_length, zeros_length. lia.
  - intros acc. rewrite parse_digits_app, parse_zeros, parse_FormatInt by lia.
    rewrite <- (FormatInt_length f) by lia.
    rewrite <- Z.mul_assoc, <- Z.pow_add_r, <- Nat2Z.inj_add by lia.
    replace (2 - String.length (FormatInt f) + String.length (FormatInt f))%nat with 2%nat by lia.
    simpl. lia.
Qed.

Lemma ParseInt64_ok s n : parse_digits 0 s = n -> n <= max_int64 -> ParseInt64 s = Some n.
Proof. unfold ParseInt64. intros -> Hn. destruct (Z.leb_spec n max_int64); [reflexivity | lia]. Qed.

(** [Major] of an amount that is not negative, by the table's three shapes. *)
Lemma Major_whole c m : Exponent c = 2 -> DisplayExponent c = 0 -> 0 <= m -> m mod 100 = 0 ->
  Major (New m c) = FormatInt (m / 100).
Proof.
  intros He Hd Hm H0. unfold Major, New. cbn [AmountCurrency Minor]. rewrite He, Hd.
  change (2 =? 0) with false. change (pow10 2) with 100. cbv iota zeta.
  destruct (Z.ltb_spec m 0); [lia|]. cbv iota. rewrite Z.rem_mod_nonneg, Z.quot_div_nonneg, H0 by lia.
  reflexivity.
Qed.
Lemma Major_frac c m : Exponent c = 2 -> (m mod 100 <> 0 \/ 0 < DisplayExponent c) -> 0 <= m ->
  Major (New m c) = (FormatInt (m / 100)
    ++ String "." (zeros (2 - String.length (FormatInt (m mod 100))) ++ FormatInt (m mod 100))).
Proof.
  intros He Hd Hm. unfold Major, New. cbn [AmountCurrency Minor]. rewrite He.
  change (2 =? 0) with false. change (pow10 2) with 100. change (Z.to_nat 2) with 2%nat. cbv iota zeta.
  destruct (Z.ltb_spec m 0); [lia|]. cbv iota. rewrite Z.rem_mod_nonneg, Z.quot_div_nonneg by lia.
  replace (negb (m mod 100 =? 0) || (0 <? DisplayExponent c)) with true; [reflexivity|].
  destruct (Z.eqb_spec (m mod 100) 0), (Z.ltb_spec 0 (DisplayExponent c)); simpl; lia || auto.
Qed.

Section RoundTrip.
Context `{Unicode}.

Lemma roundtrip_plain c n k : Valid c = true ->
  head_digit (symbol c) = false -> head_digit c = false ->
  Exponent c = Z.of_nat k -> DisplayExponent c = 0 -> 0 <= n -> n * 10 ^ Z.of_nat k <= max_int64 ->
  ParseMajor (FormatInt n) c = inr (New (n * 10 ^ Z.of_nat k) c).
Proof.
  intros Hv H1 H2 He Hd Hn Hm. pose proof (FormatInt_digits n Hn) as D.
  pose proof (FormatInt_nonempty n Hn) as N. assert (0 < 10 ^ Z.of_nat k) by (apply Z.pow_pos_nonneg; lia).
  rewrite (ParseMajor_clean _ c (FormatInt n) (FormatInt n) ""); auto.
  - rewrite remove_sep_digits by exact D. rewrite He, Nat2Z.id. cbn [String.length String.append].
    rewrite Nat.sub_0_r. rewrite (ParseInt64_ok _ (n * 10 ^ Z.of_nat k)); auto.
    rewrite parse_digits_app, parse_zeros, parse_FormatInt by (unfold max_int64 in Hm; nia). lia.
  - apply clean_amount; auto using all_digits_amount, all_digits_head.
  - apply all_digits_head; auto.
  - rewrite Hd. reflexivity.
  - rewrite remove_sep_digits; auto.
  - rewrite remove_sep_digits; auto.
  - simpl. lia.
Qed.

(** A text [Major] prints with a decimal point, read back with two decimals
    or, where the currency shows none, with the point taken for a grouping mark. *)
Lemma parse_point c m : Valid c = true -> 0 <= m <= max_int64 ->
  head_digit (symbol c) = false -> head_digit c = false -> Exponent c = 2 ->
  let fs := FormatInt (m mod 100) in
  let s := FormatInt (m / 100) ++ String "." (zeros (2 - String.length fs) ++ fs) in
  (DisplayExponent c = 2 -> ParseMajor s c = inr (New m c)) /\
  (DisplayExponent c = 0 ->
     ParseMajor s c = if m * 100 <=? max_int64 then inr (New (m * 100) c)
                      else inl (MoneyParseError s "overflow")).
Proof.
  intros Hv Hm H1 H2 He fs s.
  assert (0 <= m mod 100 < 100) as Hf by (apply Z.mod_pos_bound; lia).
  assert (0 <= m / 100 /\ m = m / 100 * 100 + m mod 100) as [Hw Hdm]
    by (split; [apply Z.div_pos | rewrite Z.mul_comm; apply Z.div_mod]; lia).
  destruct (frac_digits _ Hf) as (D & L & P). fold fs in D, L, P.
  set (t := zeros (2 - String.length fs) ++ fs) in *.
  pose proof (FormatInt_digits _ Hw) as Dw. pose proof (FormatInt_nonempty _ Hw) as Nw.
  assert (Hc : clean s c = s).
  { apply clean_amount; auto; unfold s.
    - rewrite all_chars_app, all_digits_amount by exact Dw. simpl. apply all_digits_amount, D.
    - apply head_digit_app, all_digits_head; auto. }
  assert (Hh : head_digit s = true) by (apply head_digit_app, all_digits_head; auto).
  assert (Hp : forall acc, parse_digits acc (FormatInt (m / 100) ++ t)
      = (acc * 10 ^ Z.of_nat (num_digits 20 (m / 100)) + m / 100) * 100 + m mod 100).
  { intros acc. rewrite parse_digits_app, P, parse_FormatInt; [ring|].
    unfold max_int64 in Hm. split; [lia|]. apply Z.div_lt_upper_bound; lia. }
  split; intros Hd.
  - rewrite (ParseMajor_clean s c s (FormatInt (m / 100)) t); auto; rewrite ?remove_sep_digits; auto.
    + rewrite He, L. simpl (zeros _). rewrite append_nil_r. rewrite (ParseInt64_ok _ m); auto; [|lia].
      rewrite Hp. lia.
    + rewrite Hd. unfold splitDecimal. simpl (2 =? 0). cbv iota. unfold s.
      rewrite split_last_sep_dot by exact D. rewrite L. reflexivity.
    + rewrite L, He. simpl. lia.
  - assert (R : remove_chars ["."%char; ","%char] s = FormatInt (m / 100) ++ t).
    { unfold s. rewrite remove_chars_app. cbn [remove_chars]. rewrite !remove_sep_digits; auto. }
    assert (Da : all_digits (FormatInt (m / 100) ++ t) = true) by (rewrite all_digits_app, Dw, D; auto).
    rewrite (ParseMajor_clean s c s s ""); auto; rewrite ?R; auto.
    + rewrite He. cbn [String.length String.append]. change (Z.to_nat 2 - 0)%nat with 2%nat.
      unfold ParseInt64. rewrite parse_digits_app, Hp, parse_zeros. change (10 ^ Z.of_nat 2) with 100.
      replace ((0 * _ + m / 100) * 100 + m mod 100) with m by lia.
      destruct (m * 100 <=? max_int64); reflexivity.
    + rewrite Hd. reflexivity.
    + destruct (FormatInt (m / 100)); simpl; congruence.
    + rewrite He. simpl. lia.
Qed.

Lemma Major_parses c m :
  Valid c = true -> 0 <= m <= max_int64 -> m mod pow10 (Exponent c - DisplayExponent c) = 0 ->
  ParseMajor (Major (New m c)) c = inr (New m c).
Proof.
  intros Hv Hm Hmod. destruct (Valid_cases c Hv) as [->|[->|(He & Hd & H1 & H2)]].
  - change (pow10 _) with 100 in Hmod. rewrite Major_whole; auto; [|lia].
    rewrite (roundtrip_plain IDR (m / 100) 2); auto.
    + change (10 ^ Z.of_nat 2) with 100. do 2 f_equal. pose proof (Z.div_mod m 100). lia.
    + apply Z.div_pos; lia.
    + change (10 ^ Z.of_nat 2) with 100. pose proof (Z.div_mod m 100). lia.
  - change (Major (New m "JPY")) with (FormatInt m).
    rewrite (roundtrip_plain "JPY" m 0); auto; change (10 ^ Z.of_nat 0) with 1;
      rewrite ?Z.mul_1_r; auto; lia.
  - rewrite Major_frac by (auto; lia). apply parse_point; auto.
Qed.
End RoundTrip.

(** ** Properties *)

(** C39: what [Major] prints for a non-negative amount with no digits below the
    currency's display precision, [ParseMajor] reads back as that amount. *)
Theorem ParseMajor_Major `{Unicode} c m :
  Valid c = true -> 0 <= m <= max_int64 -> m mod pow10 (Exponent c - DisplayExponent c) = 0 ->
  ParseMajor (Major (New m c)) c = inr (New m c).
Proof. apply Major_parses. Qed.

Lemma ParseMajor_Major_witness :
  let U := {| unicode_lower := fun r => r; unicode_upper := fun r => r |} in
  ParseMajor (Major (New 123456 "USD")) "USD" = inr (New 123456 "USD").
Proof. intros U. apply (@ParseMajor_Major U "USD" 123456); [reflexivity | unfold max_int64; lia | reflexivity]. Defined.

(** An accepted text gives an amount of the asked currency that fits an
    [int64], is not negative and has no digits below the display precision;
    printing it and parsing the print gives the same amount again. *)
Theorem ParseMajor_normal `{Unicode} s c a :
  ParseMajor s c = inr a ->
  Valid c = true /\ AmountCurrency a = c /\ 0 <= Minor a <= max_int64
  /\ Minor a mod pow10 (Exponent c - DisplayExponent c) = 0
  /\ ParseMajor (Major a) c = inr a.
Proof.
  intros Hp.
  enough (Valid c = true /\ AmountCurrency a = c /\ 0 <= Minor a <= max_int64
    /\ Minor a mod pow10 (Exponent c - DisplayExponent c) = 0) as (Hv & Hc & Hm & H0).
  { repeat split; auto; try lia. destruct a as [m c']. simpl in *. subst. apply Major_parses; auto. }
  unfold ParseMajor in Hp. destruct (Valid c) eqn:Hv; [|discriminate]. cbn [negb] in Hp.
  fold (clean s c) in Hp. set (raw := clean s c) in *.
  destruct (String.eqb raw ""); [discriminate|]. destruct (HasPrefix raw "-"); [discriminate|].
  destruct (splitDecimal raw (DisplayExponent c)) as [[w f]|] eqn:Hs; [|discriminate].
  set (wd := remove_chars _ w) in *.
  destruct (String.eqb wd ""); [discriminate|]. destruct (all_digits wd) eqn:Dw; [|discriminate].
  destruct (all_digits f) eqn:Df; [|discriminate]. cbn [orb negb] in Hp.
  destruct (Z.ltb_spec (Exponent c) (Z.of_nat (String.length f))); [discriminate|].
  set (k := (Z.to_nat (Exponent c) - String.length f)%nat) in *.
  destruct (ParseInt64 (wd ++ (f ++ zeros k))) as [n|] eqn:Hn; [|discriminate]. injection Hp as <-.
  unfold ParseInt64 in Hn.
  destruct (Z.leb_spec (parse_digits 0 (wd ++ (f ++ zeros k))) max_int64); [|discriminate].
  injection Hn as En. assert (n <= max_int64) by (rewrite <- En; assumption).
  destruct (parse_digits_bound 0 (wd ++ f)) as (v & Hv1 & Hv2 & _);
    [rewrite all_digits_app, Dw, Df; reflexivity|].
  rewrite <- append_assoc, parse_digits_app, parse_zeros, Hv1 in En.
  assert (0 < 10 ^ Z.of_nat k) by (apply Z.pow_pos_nonneg; lia).
  cbn [AmountCurrency Minor]. split; [reflexivity|]. split; [reflexivity|]. split; [nia|].
  destruct (Valid_cases c Hv) as [->|[->|(He & Hd & _)]].
  - change (DisplayExponent IDR) with 0 in Hs. injection Hs as -> <-.
    change k with 2%nat in En. change (10 ^ Z.of_nat 2) with 100 in En.
    change (pow10 _) with 100. rewrite <- En. apply Z.mod_mul. lia.
  - change (pow10 _) with 1. apply Z.mod_1_r.
  - rewrite He, Hd. apply Z.mod_1_r.
Qed.

Lemma ParseMajor_normal_witness :
  let U := {| unicode_lower := fun r => r; unicode_upper := fun r => r |} in
  ParseMajor (Major (New 125000000 IDR)) IDR = inr (New 125000000 IDR).
Proof. intros U. apply (@ParseMajor_normal U "Rp 1.250.000" IDR (New 125000000 IDR)). vm_compute. reflexivity. Defined.

(** A rupiah amount with a fraction does not survive the edit form: its
    [Major] text carries a decimal point the rupiah parser takes for a grouping
    mark, so it reads back a hundred times too large, or as an overflow. *)
Theorem ParseMajor_fraction_scaled `{Unicode} m :
  0 <= m <= max_int64 -> m mod 100 <> 0 ->
  ParseMajor (Major (New m IDR)) IDR =
    if m * 100 <=? max_int64 then inr (New (m * 100) IDR)
    else inl (MoneyParseError (Major (New m IDR)) "overflow").
Proof.
  intros Hm Hf. rewrite Major_frac by (auto; lia). apply parse_point; auto.
Qed.

Lemma ParseMajor_fraction_scaled_witness :
  let U := {| unicode_lower := fun r => r; unicode_upper := fun r => r |} in
  ParseMajor (Major (New 4000050 IDR)) IDR = inr (New 400005000 IDR).
Proof.
  intros U. apply (@ParseMajor_fraction_scaled U 4000050); [unfold max_int64; lia | discriminate].
Defined.

(** [Add] and [Sub] panic exactly on a currency mismatch; otherwise the sum
    is the 64-bit wrap of the exact one (the exact one when that fits), and
    [Sub] and [Neg] undo [Add] even where it wrapped. *)
Theorem Add_Sub_spec a b :
  (Add a b = None <-> AmountCurrency a <> AmountCurrency b) /\
  (Sub a b = None <-> AmountCurrency a <> AmountCurrency b) /\
  (forall s, Add a b = Some s -> in_int64 (Minor s) /\ AmountCurrency s = AmountCurrency a
     /\ (in_int64 (Minor a + Minor b) -> Minor s = Minor a + Minor b)
     /\ (in_int64 (Minor a) -> Sub s b = Some a /\ Add s (Neg b) = Some a)).
Proof.
  unfold Add, Sub, SameCurrency. destruct (String.eqb_spec (AmountCurrency a) (AmountCurrency b)) as [E|E].
  2: { repeat split; auto; discriminate. }
  split; [|split]; [split; [discriminate | contradiction] .. |].
  intros s [= <-]. unfold Neg. cbn [Minor AmountCurrency]. rewrite E, String.eqb_refl.
  split; [apply wrap64_range|]. split; [reflexivity|]. split; [apply wrap64_id|].
  intros Ha. rewrite <- E.
  assert (F : forall z, wrap64 z = Minor a -> Some (mkAmount (wrap64 z) (AmountCurrency a)) = Some a)
    by (intros z ->; destruct a; reflexivity).
  split; apply F; rewrite <- (wrap64_id (Minor a)) at 2 by exact Ha; apply wrap64_cong.
  - rewrite Zminus_mod, wrap64_eqm, <- Zminus_mod. f_equal. lia.
  - rewrite Z.add_mod, !wrap64_eqm, <- Z.add_mod by lia. f_equal. lia.
Qed.
