(* ===== verification/Tenant.v ===== *)
(** * The request context ([internal/platform/tenant], [internal/platform/session])

    The values the modelled code reads from a [context.Context]: the tenant
    triple, the principal, and whether a unit of work is active. *)
From Stdlib Require Import ZArith Lia String List.
From stdpp Require Import base list strings.
From S2P Require Import Prelude GoStrings Errors.

(** [tenant.Context]. *)
Record Tenant := mkTenant { OrgID : uuid; ProjectID : uuid; UserID : uuid }.

#[global] Instance Tenant_eq_dec : EqDecision Tenant.
Proof. solve_decision. Defined.

(** The fields of [session.Principal] that name an author. *)
Record Principal := mkPrincipal { p_UserID : uuid; p_KeyID : uuid }.
Definition no_Principal : Principal := mkPrincipal uuid_Nil uuid_Nil.

Record Ctx := mkCtx {
  cx_tenant : option Tenant;
  cx_principal : option Principal;
  cx_tx : bool (** a unit of work is bound ([db.CurrentTx]) *)
}.

Definition Into (cx : Ctx) (tc : Tenant) : Ctx := mkCtx (Some tc) (cx_principal cx) (cx_tx cx).

(** [tenant.From]. *)
Definition From_ (cx : Ctx) : TenantError + Tenant :=
  match cx_tenant cx with
  | None => inl MissingError
  | Some tc => if N.eqb (OrgID tc) uuid_Nil then inl UnscopedError else inr tc
  end.

Definition tenant_or_zero (cx : Ctx) : Tenant :=
  match cx_tenant cx with Some tc => tc | None => mkTenant uuid_Nil uuid_Nil uuid_Nil end.
Definition WithProject (cx : Ctx) (projectID : uuid) : Ctx :=
  let tc := tenant_or_zero cx in Into cx (mkTenant (OrgID tc) projectID (UserID tc)).
Definition WithOrg (cx : Ctx) (orgID : uuid) : Ctx :=
  let tc := tenant_or_zero cx in Into cx (mkTenant orgID (ProjectID tc) (UserID tc)).

(** [session.PrincipalInto] and [session.PrincipalFrom]. *)
Definition PrincipalInto (cx : Ctx) (p : Principal) : Ctx := mkCtx (cx_tenant cx) (Some p) (cx_tx cx).
Definition PrincipalFrom (cx : Ctx) : Principal :=
  match cx_principal cx with Some p => p | None => no_Principal end.

(** [db.contextWithUnitOfWork]. *)
Definition WithTx (cx : Ctx) : Ctx := mkCtx (cx_tenant cx) (cx_principal cx) true.

(** The author columns of a row: a user, or an API key acting for nobody.
    [period.author] and [transaction.author]; [None] is their author-missing error. *)
Definition author (cx : Ctx) (by_ : uuid) : option (uuid * uuid) :=
  if negb (N.eqb by_ uuid_Nil) then Some (by_, uuid_Nil) else
  let p := PrincipalFrom cx in
  if N.eqb (p_UserID p) uuid_Nil && negb (N.eqb (p_KeyID p) uuid_Nil)
  then Some (uuid_Nil, p_KeyID p) else None.

(** Exactly one author is named when [author] succeeds. *)
Lemma author_one cx by_ u k :
  author cx by_ = Some (u, k) -> (u = uuid_Nil <-> k <> uuid_Nil).
Proof.
  unfold author. destruct (N.eqb_spec by_ uuid_Nil) as [->|Hb]; cbn [negb].
  - destruct (N.eqb (p_UserID _) _) eqn:E1; [|discriminate].
    destruct (N.eqb_spec (p_KeyID (PrincipalFrom cx)) uuid_Nil); [discriminate|]. intros [= <- <-]. tauto.
  - intros [= <- <-]. split; [tauto | intros []; reflexivity].
Qed.

Lemma From_inv cx tc : From_ cx = inr tc -> cx_tenant cx = Some tc /\ OrgID tc <> uuid_Nil.
Proof.
  unfold From_. destruct (cx_tenant cx) as [t|]; [|discriminate].
  destruct (N.eqb_spec (OrgID t) uuid_Nil); [discriminate|]. intros [= ->]. auto.
Qed.
Lemma From_WithTx cx : From_ (WithTx cx) = From_ cx.
Proof. reflexivity. Qed.
