(* ===== verification/Ledger.v ===== *)
(** * Ledger settings ([internal/ledger/ledger.go])

    One project's time zone, currency and period start day, and the patch that
    changes them. The time-zone database is a class parameter. *)
From Stdlib Require Import ZArith Lia String List.
From stdpp Require Import base list strings.
From S2P Require Import Prelude GoStrings Errors Civil Money.
Local Open Scope string_scope.
Local Open Scope Z_scope.

(** [time.LoadLocation] over the host's time-zone database. *)
Class TZDatabase := { LoadLocation : string -> option Location }.

Definition DefaultTimezone : string := "Asia/Jakarta".
Definition DefaultPeriodStartDay : Z := 1.
Definition MinPeriodStartDay : Z := 1.
Definition MaxPeriodStartDay : Z := 28.

Record Settings := mkSettings {
  s_OrgID : uuid;
  s_ProjectID : uuid;
  s_Timezone : string;
  s_Currency : Currency;
  s_PeriodStartDay : Z;
  s_UpdatedAt : Z
}.

(** Go's zero [time.Time], in nanoseconds since the epoch. *)
Definition zero_Time : Z := - 62135596800 * 1000000000.

Definition Defaults (orgID projectID : uuid) : Settings :=
  mkSettings orgID projectID DefaultTimezone IDR DefaultPeriodStartDay zero_Time.

Record Patch := mkPatch {
  pa_Timezone : option string;
  pa_Currency : option string;
  pa_PeriodStartDay : option Z
}.

Section Apply.
Context `{Unicode, TZDatabase}.

Definition patch_timezone (p : Patch) (cur : string) : LedgerError + string :=
  match pa_Timezone p with
  | None => inr cur
  | Some v =>
    let tz := TrimSpace v in
    if String.eqb tz "" then inl (InvalidTimezoneError v) else
    match LoadLocation tz with
    | None => inl (InvalidTimezoneError v)
    | Some _ => inr tz
    end
  end.
Definition patch_currency (p : Patch) (cur : Currency) : LedgerError + Currency :=
  match pa_Currency p with
  | None => inr cur
  | Some v => match ParseCurrency v with
              | inl _ => inl (LedgerUnknownCurrencyError v)
              | inr c => inr c
              end
  end.
Definition patch_start_day (p : Patch) (cur : Z) : LedgerError + Z :=
  match pa_PeriodStartDay p with
  | None => inr cur
  | Some v => if (v <? MinPeriodStartDay) || (MaxPeriodStartDay <? v)
              then inl (InvalidStartDayError v) else inr v
  end.

(** [Settings.Apply] at the clock reading [now]: the error, or the settings
    that replace [s]; on an error [s] stays as it was. *)
Definition Apply (s : Settings) (p : Patch) (now : Z) : LedgerError + Settings :=
  match patch_timezone p (s_Timezone s) with
  | inl e => inl e
  | inr tz =>
    match patch_currency p (s_Currency s) with
    | inl e => inl e
    | inr c =>
      match patch_start_day p (s_PeriodStartDay s) with
      | inl e => inl e
      | inr d => inr (mkSettings (s_OrgID s) (s_ProjectID s) tz c d now)
      end
    end
  end.

Definition Settings_Location (s : Settings) : LedgerError + Location :=
  match LoadLocation (s_Timezone s) with
  | None => inl (InvalidTimezoneError (s_Timezone s))
  | Some loc => inr loc
  end.
End Apply.

(** ** Valid settings *)
Section Valid.
Context `{Unicode, TZDatabase}.

Definition settings_ok (s : Settings) : Prop :=
  LoadLocation (s_Timezone s) <> None /\ Valid (s_Currency s) = true
  /\ MinPeriodStartDay <= s_PeriodStartDay s <= MaxPeriodStartDay.

Lemma ParseCurrency_Valid code c : ParseCurrency code = inr c -> Valid c = true.
Proof. unfold ParseCurrency. destruct (Valid _) eqn:E; [|discriminate]. intros [= <-]. exact E. Qed.

Lemma Valid_length c : Valid c = true -> String.length c = 3%nat.
Proof. intros Hv. unfold Valid, currencies in Hv. cbn [assoc] in Hv.
  repeat match type of Hv with context [String.eqb ?a ?b] => destruct (String.eqb_spec a b); [subst; reflexivity|] end.
  discriminate.
Qed.

Lemma Apply_ok_inv s p now s' : Apply s p now = inr s' ->
  exists tz c d, patch_timezone p (s_Timezone s) = inr tz /\ patch_currency p (s_Currency s) = inr c
    /\ patch_start_day p (s_PeriodStartDay s) = inr d
    /\ s' = mkSettings (s_OrgID s) (s_ProjectID s) tz c d now.
Proof.
  unfold Apply. destruct (patch_timezone p _) as [|tz] eqn:E1; [discriminate|].
  destruct (patch_currency p _) as [|c] eqn:E2; [discriminate|].
  destruct (patch_start_day p _) as [|d] eqn:E3; [discriminate|].
  intros [= <-]. eauto 10.
Qed.

Lemma Apply_preserves_ok s p now s' : settings_ok s -> Apply s p now = inr s' -> settings_ok s'.
Proof.
  intros (Hz & Hc & Hd) HA. apply Apply_ok_inv in HA as (tz & c & d & E1 & E2 & E3 & ->).
  unfold settings_ok; cbn [s_Timezone s_Currency s_PeriodStartDay]. split; [|split].
  - unfold patch_timezone in E1. destruct (pa_Timezone p) as [v|]; [|congruence].
    destruct (String.eqb (TrimSpace v) ""); [discriminate|].
    destruct (LoadLocation (TrimSpace v)) eqn:EL; congruence.
  - unfold patch_currency in E2. destruct (pa_Currency p) as [v|]; [|congruence].
    destruct (ParseCurrency v) eqn:EP; [discriminate|]. injection E2 as <-. eapply ParseCurrency_Valid; eauto.
  - unfold patch_start_day in E3. destruct (pa_PeriodStartDay p) as [v|]; [|injection E3 as <-; exact Hd].
    destruct (Z.ltb_spec v MinPeriodStartDay); [discriminate|].
    destruct (Z.ltb_spec MaxPeriodStartDay v); [discriminate|]. injection E3 as <-. lia.
Qed.
End Valid.
