(* ===== verification/Period.v ===== *)
(** * Budget periods: the aggregate ([internal/period/period.go], [snapshot.go])

    The period and closing records, the cycle arithmetic and the choice of the
    period a reopen accepts. *)
From Stdlib Require Import ZArith Lia String List.
From stdpp Require Import base list strings.
From S2P Require Import Prelude GoStrings Errors Civil Money.
Local Open Scope string_scope.
Local Open Scope Z_scope.

(** ** Data *)
Inductive PeriodStatus := StatusOpen | StatusClosed.
#[global] Instance PeriodStatus_eq_dec : EqDecision PeriodStatus.
Proof. solve_decision. Defined.

Record WalletClosing := mkWalletClosing { wc_WalletID : uuid; wc_Name : string; wc_Closing : Z }.

Record Snapshot := mkSnapshot {
  sn_Currency : Currency;
  sn_Income : Z;
  sn_Expense : Z;
  sn_Net : Z;
  sn_TxCount : Z;
  sn_Wallets : list WalletClosing;
  sn_ComputedAt : Z
}.

Record Period := mkPeriod {
  pr_ID : uuid;
  pr_OrgID : uuid;
  pr_ProjectID : uuid;
  pr_Name : string;
  pr_StartDate : Date;
  pr_EndDate : option Date;
  pr_Status : PeriodStatus;
  pr_ClosedAt : option Z;
  pr_Snapshot : option Snapshot;
  pr_CreatedAt : Z;
  pr_UpdatedAt : Z
}.

Record Closing := mkClosing {
  cl_ID : uuid;
  cl_OrgID : uuid;
  cl_ProjectID : uuid;
  cl_PeriodID : uuid;
  cl_ClosedAt : Z;
  cl_ClosedBy : uuid;
  cl_ClosedByKeyID : uuid;
  cl_Snapshot : Snapshot
}.

Definition MaxNameRunes : Z := 60.
Definition MinStartDay : Z := 1.
Definition MaxStartDay : Z := 28.

Record ListOpts := mkListOpts { lo_Limit : Z; lo_Before : option Date }.
Definition all_periods : ListOpts := mkListOpts 0 None.

(** ** Names *)
Definition cleanName (name : string) : PeriodError + string :=
  let clean := TrimSpace name in
  if String.eqb clean "" then inl (PeriodInvalidNameError "empty") else
  if MaxNameRunes <? RuneCountInString clean then inl (PeriodInvalidNameError "over 60 characters")
  else inr clean.

Definition month_abbr (m : Z) : string :=
  nth (Z.to_nat (m - 1))
    ["Jan"; "Feb"; "Mar"; "Apr"; "May"; "Jun"; "Jul"; "Aug"; "Sep"; "Oct"; "Nov"; "Dec"] "".
(** [start.In(time.UTC).Format("Jan 2006")]. *)
Definition DefaultName (start : Date) : string :=
  let c := civil_of_days (days start) in month_abbr (Month c) ++ " " ++ pad_int 4 (Year c).

(** ** Constructor and mutators, at the id and clock reading they draw *)
Definition Period_New (id : uuid) (now : Z) (orgID projectID : uuid) (start : Date) (name : string)
    : PeriodError + Period :=
  if IsZero start then inl (InvalidRangeError "start date is empty") else
  let name := if String.eqb (TrimSpace name) "" then DefaultName start else name in
  match cleanName name with
  | inl e => inl e
  | inr clean => inr (mkPeriod id orgID projectID clean start None StatusOpen None None now now)
  end.

Definition Period_Rename (p : Period) (name : string) (now : Z) : PeriodError + Period :=
  match cleanName name with
  | inl e => inl e
  | inr clean => inr (mkPeriod (pr_ID p) (pr_OrgID p) (pr_ProjectID p) clean (pr_StartDate p) (pr_EndDate p)
                        (pr_Status p) (pr_ClosedAt p) (pr_Snapshot p) (pr_CreatedAt p) now)
  end.

Definition IsCurrent (p : Period) : bool := match pr_EndDate p with None => true | Some _ => false end.
Definition IsLocked (p : Period) : bool := bool_decide (pr_Status p = StatusClosed).
Definition Period_Contains (p : Period) (d : Date) : bool :=
  if Before d (pr_StartDate p) then false else
  match pr_EndDate p with None => true | Some e => negb (Before e d) end.

(** ** The cycle *)
Definition ClampStartDay (day : Z) : Z :=
  if day <? MinStartDay then MinStartDay else if MaxStartDay <? day then MaxStartDay else day.

Definition FirstStart (today : Date) (startDay : Z) : Date :=
  let day := ClampStartDay startDay in
  if day <=? Day today then mkDate (Year today) (Month today) day else
  let prev := AddDays (mkDate (Year today) (Month today) 1) (-1) in
  mkDate (Year prev) (Month prev) day.

Definition nextCycleStart (start : Date) (startDay : Z) : Date :=
  let day := ClampStartDay startDay in
  let next := mkDate (Year start) (Month start) day in
  if negb (Before start next) then
    if Month start =? 12 then mkDate (Year start + 1) 1 day
    else mkDate (Year start) (Month start + 1) day
  else next.

Definition SuggestedEnd (start today : Date) (startDay : Z) : Date :=
  let end_ := AddDays (nextCycleStart start startDay) (-1) in
  let end_ := if Before today end_ then today else end_ in
  if Before end_ start then start else end_.

(** ** Reopen and opening dates *)

(** The first loop of [LatestClosed]: [None] is its early [return nil]. *)
Fixpoint newest_closed (items : list Period) (best : option Period) : option (option Period) :=
  match items with
  | [] => Some best
  | p :: items' =>
    if IsCurrent p then newest_closed items' best else
    if negb (IsLocked p) then None else
    newest_closed items'
      (match best with
       | None => Some p
       | Some b => if Before (pr_StartDate b) (pr_StartDate p) then Some p else best
       end)
  end.

Definition LatestClosed (items : list Period) : option Period :=
  match newest_closed items None with
  | None | Some None => None
  | Some (Some best) =>
    if existsb (fun p => negb (N.eqb (pr_ID p) (pr_ID best)) && negb (IsCurrent p)
                         && negb (Before (pr_StartDate p) (pr_StartDate best))) items
    then None else Some best
  end.

Record OpeningDate := mkOpeningDate { od_At : Z; od_Date : Date; od_Moved : bool }.

Fixpoint earliest_open (items : list Period) (today : Date) (best : option Period) : option Period :=
  match items with
  | [] => best
  | p :: items' =>
    if IsLocked p || negb (Before today (pr_StartDate p)) then earliest_open items' today best else
    earliest_open items' today
      (match best with
       | None => Some p
       | Some b => if Before (pr_StartDate p) (pr_StartDate b) then Some p else best
       end)
  end.

Definition NextOpenStart (items : list Period) (closed : Period) (today : Date) : Date :=
  match earliest_open items today None with
  | Some best => pr_StartDate best
  | None => match pr_EndDate closed with None => AddDays today 1 | Some e => AddDays e 1 end
  end.

Definition ParseEnd (raw : string) : PeriodError + Date :=
  match ParseDate (TrimSpace raw) with
  | inl _ => inl (InvalidRangeError "end date is not a date")
  | inr d => inr d
  end.

(** ** Lemmas *)
Lemma IsLocked_spec p : IsLocked p = true <-> pr_Status p = StatusClosed.
Proof. apply bool_decide_eq_true. Qed.

Lemma Contains_spec p d : Period_Contains p d = true <->
  days (pr_StartDate p) <= days d /\ match pr_EndDate p with None => True | Some e => days d <= days e end.
Proof.
  unfold Period_Contains. destruct (Before d (pr_StartDate p)) eqn:E.
  - apply Before_spec in E. split; [discriminate | lia].
  - apply Before_false in E. destruct (pr_EndDate p) as [e|]; [|tauto].
    rewrite negb_true_iff, Before_false. tauto.
Qed.

Lemma ClampStartDay_range day : MinStartDay <= ClampStartDay day <= MaxStartDay.
Proof.
  unfold ClampStartDay. destruct (Z.ltb_spec day MinStartDay); [split; unfold MinStartDay, MaxStartDay; lia|].
  destruct (Z.ltb_spec MaxStartDay day); unfold MinStartDay, MaxStartDay in *; lia.
Qed.
Lemma ClampStartDay_id day : MinStartDay <= day <= MaxStartDay -> ClampStartDay day = day.
Proof.
  intros H. unfold ClampStartDay. destruct (Z.ltb_spec day MinStartDay); [lia|].
  destruct (Z.ltb_spec MaxStartDay day); lia.
Qed.

Lemma clamped_valid y m day : 1 <= m <= 12 -> valid (mkDate y m (ClampStartDay day)).
Proof.
  intros Hm. pose proof (ClampStartDay_range day). pose proof (daysIn_pos m y).
  unfold valid, MinStartDay, MaxStartDay in *. cbn [Year Month Day]. lia.
Qed.

Lemma FirstStart_valid today d : valid today -> valid (FirstStart today d).
Proof.
  intros [Hm _]. unfold FirstStart. destruct (ClampStartDay d <=? Day today); [apply clamped_valid; auto|].
  apply clamped_valid. apply AddDays_valid.
Qed.
Lemma nextCycleStart_valid start d : valid start -> valid (nextCycleStart start d).
Proof.
  intros [Hm _]. unfold nextCycleStart. destruct (negb _); [|apply clamped_valid; auto].
  destruct (Z.eqb_spec (Month start) 12); apply clamped_valid; lia.
Qed.

(** The day before the first of a month is in the month before it. *)
Lemma prev_month y m p : 1 <= m <= 12 -> p = AddDays (mkDate y m 1) (-1) ->
  (m <> 1 -> Year p = y /\ Month p = m - 1) /\ (m = 1 -> Year p = y - 1 /\ Month p = 12).
Proof.
  intros Hm ->.
  assert (Hv : valid (mkDate y m 1)) by (pose proof (daysIn_pos m y); unfold valid; simpl; lia).
  assert (K : forall y' m', 1 <= m' <= 12 ->
      days_of_civil y m 1 = days_of_civil y' m' 1 + daysIn m' y' ->
      AddDays (mkDate y m 1) (-1) = mkDate y' m' (daysIn m' y')).
  { intros y' m' Hm' E. pose proof (daysIn_pos m' y').
    assert (valid (mkDate y' m' (daysIn m' y'))) by (unfold valid; simpl; lia).
    apply days_inj; auto using AddDays_valid. rewrite days_AddDays, !days_valid by auto.
    cbn [Year Month Day]. rewrite (days_of_civil_day y'). lia. }
  split; intros H.
  - rewrite (K y (m - 1)); [split; reflexivity | lia |].
    rewrite <- month_step by lia. f_equal. lia.
  - subst m. rewrite (K (y - 1) 12); [split; reflexivity | lia |].
    pose proof (year_step (y - 1)) as E. replace (y - 1 + 1) with y in E by lia. exact E.
Qed.

Lemma nextCycleStart_after start d : valid start -> days start < days (nextCycleStart start d).
Proof.
  intros Hv. pose proof (nextCycleStart_valid start d Hv) as Hn. unfold nextCycleStart in *.
  destruct (Before start (mkDate (Year start) (Month start) (ClampStartDay d))) eqn:E.
  - apply Before_spec. exact E.
  - cbn [negb] in *. apply days_lt_iff; auto. unfold date_lt.
    destruct (Z.eqb_spec (Month start) 12); cbn [Year Month Day]; lia.
Qed.

(** [LatestClosed]: the newest locked period, when every period with an end is locked. *)
Lemma newest_closed_spec items b0 r :
  newest_closed items b0 = Some r ->
  (forall p, In p items -> IsCurrent p = false -> IsLocked p = true
      /\ exists b, r = Some b /\ days (pr_StartDate p) <= days (pr_StartDate b))
  /\ (r = b0 \/ exists b, r = Some b /\ In b items /\ IsCurrent b = false)
  /\ (forall b, b0 = Some b -> exists b', r = Some b' /\ days (pr_StartDate b) <= days (pr_StartDate b')).
Proof.
  revert b0; induction items as [|p items IH]; intros b0 H.
  - injection H as <-. split; [intros p []|]. split; [auto|]. intros b ->. exists b. split; auto. lia.
  - cbn [newest_closed] in H. destruct (IsCurrent p) eqn:Ec.
    + apply IH in H as (H1 & H2 & H3). split; [|split]; auto.
      * intros q [<-|Hq] Hc; [congruence | auto].
      * destruct H2 as [|(b & ? & ? & ?)]; [auto|]. right. exists b. simpl; auto.
    + destruct (IsLocked p) eqn:El; [|discriminate]. cbn [negb] in H.
      set (b1 := match b0 with None => Some p | Some b => _ end) in H.
      apply IH in H as (H1 & H2 & H3).
      assert (Hb1 : exists b, b1 = Some b /\ days (pr_StartDate p) <= days (pr_StartDate b)
          /\ (forall b', b0 = Some b' -> days (pr_StartDate b') <= days (pr_StartDate b))
          /\ (b = p \/ b0 = Some b)).
      { unfold b1. destruct b0 as [b|].
        - destruct (Before (pr_StartDate b) (pr_StartDate p)) eqn:Eb.
          + apply Before_spec in Eb. exists p. repeat split; auto; try lia. intros b' [= ->]. lia.
          + apply Before_false in Eb. exists b. repeat split; auto. intros b' [= ->]. lia.
        - exists p. repeat split; auto; [lia | discriminate]. }
      destruct Hb1 as (b & Eb & Hp & Hb0 & Hor). destruct (H3 b Eb) as (b' & Er & Hb').
      split; [|split].
      * intros q [<-|Hq] Hc; [|auto]. split; auto. exists b'. split; auto. lia.
      * destruct H2 as [->|(b2 & ? & ? & ?)]; [|right; exists b2; simpl; auto].
        destruct Hor as [->|Hor]; [right; exists p; simpl; auto | left; congruence].
      * intros b2 E2. exists b'. split; auto. specialize (Hb0 b2 E2). lia.
Qed.

Lemma LatestClosed_spec items b : LatestClosed items = Some b ->
  In b items /\ IsCurrent b = false /\ IsLocked b = true /\
  (forall p, In p items -> IsCurrent p = false -> IsLocked p = true /\
     (pr_ID p = pr_ID b \/ days (pr_StartDate p) < days (pr_StartDate b))).
Proof.
  unfold LatestClosed. destruct (newest_closed items None) as [[best|]|] eqn:E; [|discriminate|discriminate].
  destruct (existsb _ items) eqn:X; [discriminate|]. intros [= ->].
  apply newest_closed_spec in E as (H1 & [|(b' & Eb & Hin & Hc)] & _); [discriminate|].
  injection Eb as <-. split; [exact Hin|]. split; [exact Hc|]. split; [apply (H1 b); auto|].
  intros p Hp Hpc. split; [apply (H1 p); auto|].
  destruct (N.eqb_spec (pr_ID p) (pr_ID b)) as [|Hne]; [auto|]. right.
  apply not_true_iff_false in X. destruct (Before (pr_StartDate p) (pr_StartDate b)) eqn:Eb;
    [apply Before_spec; exact Eb|].
  exfalso. apply X, existsb_exists. exists p. split; auto. rewrite Hpc, Eb.
  destruct (N.eqb_spec (pr_ID p) (pr_ID b)); [contradiction | reflexivity].
Qed.

(** The month [FirstStart] falls in: today's, or the one before it. *)
Lemma FirstStart_fields today d : valid today ->
  let f := FirstStart today d in
  Day f = ClampStartDay d /\ 1 <= Month f <= 12 /\
  ((Day f <= Day today /\ Year f = Year today /\ Month f = Month today)
   \/ (Day today < Day f /\ ((Month today <> 1 /\ Year f = Year today /\ Month f = Month today - 1)
                            \/ (Month today = 1 /\ Year f = Year today - 1 /\ Month f = 12)))).
Proof.
  intros Hv. pose proof (valid_bounds today Hv) as [Hm _]. unfold FirstStart.
  remember (AddDays (mkDate (Year today) (Month today) 1) (-1)) as p eqn:Ep.
  destruct (prev_month _ _ p Hm Ep) as [P1 P2]. clear Ep.
  destruct (Z.leb_spec (ClampStartDay d) (Day today)); cbv zeta; cbn [Year Month Day]; lia.
Qed.

Lemma nextCycleStart_of f d : Day f = ClampStartDay d ->
  nextCycleStart f d = if Month f =? 12 then mkDate (Year f + 1) 1 (Day f) else mkDate (Year f) (Month f + 1) (Day f).
Proof.
  intros E. unfold nextCycleStart. rewrite <- E.
  assert (B : Before f (mkDate (Year f) (Month f) (Day f)) = false)
    by (apply Before_false; destruct f; apply Z.le_refl).
  rewrite B. reflexivity.
Qed.

Lemma date_before_next today d : valid today ->
  days (FirstStart today d) <= days today < days (nextCycleStart (FirstStart today d) d).
Proof.
  intros Hv. pose proof (FirstStart_valid today d Hv) as Hf.
  pose proof (nextCycleStart_valid _ d Hf) as Hn.
  destruct (FirstStart_fields today d Hv) as (Hd & Hm & Hc).
  rewrite (nextCycleStart_of _ d Hd) in *. set (f := FirstStart today d) in *. clearbody f.
  pose proof (valid_bounds today Hv) as [Hm' _].
  split.
  - apply Z.nlt_ge. intros G. apply days_lt_iff in G; auto. unfold date_lt in G. lia.
  - apply days_lt_iff; auto. unfold date_lt.
    destruct (Z.eqb_spec (Month f) 12); cbn [Year Month Day]; lia.
Qed.

(** ** Properties *)

(** C38: [FirstStart] gives the cycle today falls in: a calendar date on the
    clamped start day, not after today, whose next cycle start is after today. *)
Theorem FirstStart_cycle today startDay :
  valid today ->
  let s := FirstStart today startDay in
  valid s /\ Day s = ClampStartDay startDay /\ 1 <= Day s <= 28
  /\ days s <= days today < days (nextCycleStart s startDay).
Proof.
  intros Hv. cbv zeta. split; [apply FirstStart_valid; auto|].
  assert (E : Day (FirstStart today startDay) = ClampStartDay startDay)
    by (unfold FirstStart; destruct (_ <=? _); reflexivity).
  rewrite E. split; [reflexivity|]. split; [apply ClampStartDay_range|]. apply date_before_next; auto.
Qed.

Lemma FirstStart_cycle_witness :
  days (FirstStart (mkDate 2024 3 1) 25) <= days (mkDate 2024 3 1)
    < days (nextCycleStart (FirstStart (mkDate 2024 3 1) 25) 25).
Proof.
  apply (FirstStart_cycle (mkDate 2024 3 1) 25). unfold valid, daysIn; simpl; lia.
Defined.

(** The end a close defaults to is never before the start, falls inside
    the start's cycle, and is not in the future unless the start is: so
    whenever the period has begun, the suggestion passes the close's own guard. *)
Theorem SuggestedEnd_bounds start today startDay :
  valid start -> valid today ->
  let e := SuggestedEnd start today startDay in
  valid e /\ days start <= days e < days (nextCycleStart start startDay)
  /\ (days start <= days today -> days e <= days today)
  /\ (days today < days start -> e = start).
Proof.
  intros Hs Ht. cbv zeta. pose proof (nextCycleStart_after start startDay Hs) as Hn.
  unfold SuggestedEnd. set (e0 := AddDays (nextCycleStart start startDay) (-1)).
  assert (He0 : days e0 = days (nextCycleStart start startDay) - 1) by (unfold e0; rewrite days_AddDays; lia).
  set (e1 := if Before today e0 then today else e0).
  assert (valid e1 /\ days e1 <= days e0 /\ days e1 <= days today /\ (days e1 = days today \/ days e1 = days e0))
    as (Hv1 & H1 & H2 & H3).
  { unfold e1. destruct (Before today e0) eqn:E.
    - apply Before_spec in E. repeat split; auto; try apply Ht; lia.
    - apply Before_false in E. split; [apply AddDays_valid | lia]. }
  destruct (Before e1 start) eqn:E.
  - apply Before_spec in E. split; [exact Hs|]. split; [lia|]. split; [lia | reflexivity].
  - apply Before_false in E. split; [exact Hv1|]. split; [lia|]. split; [lia|]. lia.
Qed.

Lemma SuggestedEnd_bounds_witness :
  days (mkDate 2024 2 25) <= days (SuggestedEnd (mkDate 2024 2 25) (mkDate 2024 3 9) 25).
Proof.
  apply (SuggestedEnd_bounds (mkDate 2024 2 25) (mkDate 2024 3 9) 25);
    unfold valid, daysIn, leap; simpl; lia.
Defined.

(** [LatestClosed] answers exactly when a reopen is possible: it returns
    [b] only when every period with an end is locked and [b] is the strictly
    newest of them, and it returns nothing only when there is none, one was
    reopened already, or two share the newest start. *)
Theorem LatestClosed_exact items :
  NoDup (map pr_ID items) ->
  match LatestClosed items with
  | Some b => In b items /\ IsCurrent b = false /\ IsLocked b = true
      /\ (forall p, In p items -> IsCurrent p = false -> p <> b ->
            IsLocked p = true /\ days (pr_StartDate p) < days (pr_StartDate b))
  | None => forall b, In b items -> IsCurrent b = false -> 
      exists p, In p items /\ IsCurrent p = false /\
        (IsLocked p = false \/ (p <> b /\ days (pr_StartDate b) <= days (pr_StartDate p)))
  end.
Proof.
  intros Hnd.
  assert (Inj : forall p q, In p items -> In q items -> pr_ID p = pr_ID q -> p = q).
  { clear -Hnd. induction items as [|x l IH]; intros p q Hp Hq E; [destruct Hp|].
    cbn [map] in Hnd. apply NoDup_cons in Hnd as [Hx Hnd].
    assert (forall r, In r l -> pr_ID r <> pr_ID x) by (intros r Hr Er; apply Hx; rewrite <- Er;
      apply list_elem_of_In, in_map, Hr).
    destruct Hp as [<-|Hp], Hq as [<-|Hq]; auto; [|]; exfalso; eapply H; eauto. }
  destruct (LatestClosed items) as [b|] eqn:E.
  - apply LatestClosed_spec in E as (Hin & Hc & Hl & Hall). repeat split; auto.
    + apply (Hall p); auto.
    + destruct (Hall p) as [_ [Eid|]]; auto. exfalso. auto.
  - intros b Hb Hbc. unfold LatestClosed in E.
    destruct (newest_closed items None) as [[best|]|] eqn:En.
    + destruct (existsb _ items) eqn:X; [|discriminate].
      apply existsb_exists in X as (p & Hp & Hx). rewrite !andb_true_iff, !negb_true_iff in Hx.
      destruct Hx as [[Hid Hpc] Hbf]. apply Before_false in Hbf. apply N.eqb_neq in Hid.
      apply newest_closed_spec in En as (H1 & H2 & _). destruct H2 as [|(b2 & [= <-] & Hbin & Hbc2)]; [discriminate|].
      destruct (H1 b Hb Hbc) as (_ & b2 & [= <-] & Hle).
      destruct (N.eq_dec (pr_ID b) (pr_ID best)) as [Eb|Nb].
      * exists p. split; auto. split; auto. right. split; [intros ->; congruence|].
        rewrite (Inj b best Hb Hbin Eb). exact Hbf.
      * exists best. repeat split; auto. right. split; [intros ->; congruence | exact Hle].
    + apply newest_closed_spec in En as (H1 & _). destruct (H1 b Hb Hbc) as (_ & b2 & ? & _). discriminate.
    + clear Hb Hbc. assert (exists p, In p items /\ IsCurrent p = false /\ IsLocked p = false) as (p & ? & ? & ?).
      { clear -En. revert En. generalize (@None Period). induction items as [|q l IH]; intros b0 H; [discriminate|].
        cbn [newest_closed] in H. destruct (IsCurrent q) eqn:Ec; [|destruct (IsLocked q) eqn:El];
          [apply IH in H as (p & ? & ? & ?); exists p; simpl; auto ..|exists q; simpl; auto]. }
      exists p. auto.
Qed.

Definition example_period (i : N) (s : Z) (e : option Date) (st : PeriodStatus) : Period :=
  mkPeriod i 1 1 "p" (mkDate 2024 s 1) e st None None 0 0.
Lemma LatestClosed_exact_witness :
  let items := [example_period 3 3 None StatusOpen;
                example_period 2 2 (Some (mkDate 2024 2 29)) StatusClosed;
                example_period 1 1 (Some (mkDate 2024 1 31)) StatusClosed] in
  LatestClosed items = Some (example_period 2 2 (Some (mkDate 2024 2 29)) StatusClosed)
  /\ IsLocked (example_period 2 2 (Some (mkDate 2024 2 29)) StatusClosed) = true.
Proof.
  intros items. split; [vm_compute; reflexivity|].
  assert (H : NoDup (map pr_ID items)) by (apply (bool_decide_unpack _); vm_compute; exact I).
  exact (proj1 (proj2 (proj2 (LatestClosed_exact items H)))).
Defined.
