(* ===== verification/Wallet.v ===== *)
(** * Wallets: the aggregate ([internal/wallet/wallet.go])

    A named holder of money in one currency; its balance is derived from
    transactions. Mutators take the clock reading they draw and return the new
    value, or the error that leaves the wallet as it was. *)
From Stdlib Require Import ZArith Lia String List.
From stdpp Require Import base list strings.
From S2P Require Import Prelude GoStrings Errors Civil Money.
Local Open Scope string_scope.
Local Open Scope Z_scope.

Definition WalletMaxNameRunes : Z := 80.

(** [wallet.Kind] is a string; the constants are its supported values. *)
Definition KindCash := "cash".
Definition KindBank := "bank".
Definition KindEwallet := "ewallet".
Definition KindSavings := "savings".
Definition KindInvestment := "investment".
Definition KindOther := "other".

Definition WalletKind_Valid (k : string) : bool :=
  existsb (String.eqb k) [KindCash; KindBank; KindEwallet; KindSavings; KindInvestment; KindOther].
Definition Wallet_ParseKind `{Unicode} (s : string) : WalletError + string :=
  let k := ToLower (TrimSpace s) in
  if WalletKind_Valid k then inr k else inl (WalletInvalidKindError s).
Definition DefaultExcludeFromTotal (k : string) : bool :=
  String.eqb k KindSavings || String.eqb k KindInvestment.

Record WalletParams := mkWalletParams {
  wp_Name : string;
  wp_Kind : string;
  wp_Provider : string;
  wp_Currency : Currency;
  wp_ExcludeFromTotal : bool
}.

Record Wallet := mkWallet {
  w_ID : uuid;
  w_OrgID : uuid;
  w_ProjectID : uuid;
  w_Name : string;
  w_Kind : string;
  w_Provider : string;
  w_Currency : Currency;
  w_ExcludeFromTotal : bool;
  w_ArchivedAt : option Z;
  w_CreatedAt : Z;
  w_UpdatedAt : Z
}.

Definition Wallet_cleanName (name : string) : WalletError + string :=
  let name := TrimSpace name in
  if String.eqb name "" then inl (WalletInvalidNameError "empty") else
  if WalletMaxNameRunes <? RuneCountInString name then inl (WalletInvalidNameError "over 80 characters")
  else inr name.

Definition Wallet_New (id : uuid) (now : Z) (orgID projectID : uuid) (p : WalletParams) : Error + Wallet :=
  match Wallet_cleanName (wp_Name p) with
  | inl e => inl (EWallet e)
  | inr name =>
    if negb (WalletKind_Valid (wp_Kind p)) then inl (EWallet (WalletInvalidKindError (wp_Kind p))) else
    if negb (Valid (wp_Currency p)) then inl (EMoney (UnknownCurrencyError (wp_Currency p))) else
    inr (mkWallet id orgID projectID name (wp_Kind p) (TrimSpace (wp_Provider p)) (wp_Currency p)
           (wp_ExcludeFromTotal p) None now now)
  end.

Definition Wallet_IsArchived (w : Wallet) : bool :=
  match w_ArchivedAt w with Some _ => true | None => false end.

Definition Wallet_Rename (w : Wallet) (name : string) (now : Z) : WalletError + Wallet :=
  match Wallet_cleanName name with
  | inl e => inl e
  | inr clean =>
    inr (mkWallet (w_ID w) (w_OrgID w) (w_ProjectID w) clean (w_Kind w) (w_Provider w) (w_Currency w)
           (w_ExcludeFromTotal w) (w_ArchivedAt w) (w_CreatedAt w) now)
  end.

Definition Wallet_Update (w : Wallet) (kind provider : string) (exclude : bool) (now : Z) : WalletError + Wallet :=
  if Wallet_IsArchived w then inl (ArchivedError (uuid_String (w_ID w))) else
  if negb (WalletKind_Valid kind) then inl (WalletInvalidKindError kind) else
  inr (mkWallet (w_ID w) (w_OrgID w) (w_ProjectID w) (w_Name w) kind (TrimSpace provider) (w_Currency w)
         exclude (w_ArchivedAt w) (w_CreatedAt w) now).

Definition Wallet_Edit (w : Wallet) (name kind provider : string) (exclude : bool) (now : Z)
    : WalletError + Wallet :=
  if Wallet_IsArchived w then inl (ArchivedError (uuid_String (w_ID w))) else
  match Wallet_cleanName name with
  | inl e => inl e
  | inr clean =>
    if negb (WalletKind_Valid kind) then inl (WalletInvalidKindError kind) else
    inr (mkWallet (w_ID w) (w_OrgID w) (w_ProjectID w) clean kind (TrimSpace provider) (w_Currency w)
           exclude (w_ArchivedAt w) (w_CreatedAt w) now)
  end.

Definition Wallet_Archive (w : Wallet) (now : Z) : Wallet :=
  if Wallet_IsArchived w then w else
  mkWallet (w_ID w) (w_OrgID w) (w_ProjectID w) (w_Name w) (w_Kind w) (w_Provider w) (w_Currency w)
    (w_ExcludeFromTotal w) (Some now) (w_CreatedAt w) now.
Definition Wallet_Unarchive (w : Wallet) (now : Z) : Wallet :=
  if negb (Wallet_IsArchived w) then w else
  mkWallet (w_ID w) (w_OrgID w) (w_ProjectID w) (w_Name w) (w_Kind w) (w_Provider w) (w_Currency w)
    (w_ExcludeFromTotal w) None (w_CreatedAt w) now.

(** ** Well-formed wallets *)
Definition name_ok (max : Z) (name : string) : Prop :=
  exists raw, name = TrimSpace raw /\ name <> "" /\ RuneCountInString name <= max.

Definition wallet_ok (w : Wallet) : Prop :=
  name_ok WalletMaxNameRunes (w_Name w) /\ WalletKind_Valid (w_Kind w) = true
  /\ Valid (w_Currency w) = true.

Lemma Wallet_cleanName_ok raw name : Wallet_cleanName raw = inr name -> name_ok WalletMaxNameRunes name.
Proof.
  unfold Wallet_cleanName. destruct (String.eqb_spec (TrimSpace raw) ""); [discriminate|].
  destruct (Z.ltb_spec WalletMaxNameRunes (RuneCountInString (TrimSpace raw))); [discriminate|].
  intros [= <-]. exists raw. auto.
Qed.

Lemma Wallet_New_ok id now o p pa w : Wallet_New id now o p pa = inr w ->
  wallet_ok w /\ w_ID w = id /\ w_OrgID w = o /\ w_ProjectID w = p /\ w_Currency w = wp_Currency pa
  /\ w_ArchivedAt w = None.
Proof.
  unfold Wallet_New. destruct (Wallet_cleanName _) as [|name] eqn:En; [discriminate|].
  destruct (WalletKind_Valid _) eqn:Ek; [|discriminate]. destruct (Valid _) eqn:Ec; [|discriminate].
  intros [= <-]. apply Wallet_cleanName_ok in En. repeat split; auto.
Qed.
