(* ===== verification/Category.v ===== *)
(** * Categories: the aggregate ([internal/category/category.go], [defaults.go])

    The income and expense categories of a project, the allow-lists of icons
    and colours, and the seeded defaults. *)
From Stdlib Require Import ZArith Lia String Ascii List.
From stdpp Require Import base list strings.
From S2P Require Import Prelude GoStrings Errors.
Local Open Scope string_scope.
Local Open Scope Z_scope.

Definition CategoryMaxNameRunes : Z := 100.
Definition MaxSortOrder : Z := 2147483647.
Definition KindExpense := "expense".
Definition KindIncome := "income".

Definition AllowedIcons : list string :=
  [ "utensils"; "bus"; "shopping-bag"; "receipt"; "smartphone"; "heart-pulse"; "house";
    "clapperboard"; "graduation-cap"; "users"; "credit-card"; "hand-heart"; "circle-ellipsis";
    "banknote"; "gift"; "briefcase"; "trending-up"; "laptop"; "wallet" ].

Definition is_hex (c : ascii) : bool := is_digit c || in_range 97 102 c || in_range 65 70 c.
(** [^#[0-9a-fA-F]{6}$] *)
Definition hexColor (s : string) : bool :=
  match s with
  | String c r => Ascii.eqb c "#" && Nat.eqb (String.length r) 6 && all_chars is_hex r
  | EmptyString => false
  end.
(** [^chart-[1-5]$] *)
Definition chartColor (s : string) : bool :=
  existsb (String.eqb s) ["chart-1"; "chart-2"; "chart-3"; "chart-4"; "chart-5"].

Definition CategoryKind_ok (k : string) : bool := String.eqb k KindExpense || String.eqb k KindIncome.

Record Category := mkCategory {
  c_ID : uuid;
  c_OrgID : uuid;
  c_ProjectID : uuid;
  c_Name : string;
  c_Kind : string;
  c_Icon : string;
  c_Color : string;
  c_SortOrder : Z;
  c_ArchivedAt : option Z;
  c_CreatedAt : Z;
  c_UpdatedAt : Z
}.

Definition normalizeName (name : string) : CategoryError + string :=
  let name := TrimSpace name in
  if String.eqb name "" then inl (CategoryInvalidNameError "empty") else
  if CategoryMaxNameRunes <? RuneCountInString name then inl (CategoryInvalidNameError "over 100 characters")
  else inr name.

Definition normalizeIcon (icon : string) : CategoryError + string :=
  let icon := TrimSpace icon in
  if String.eqb icon "" then inr "" else
  if negb (existsb (String.eqb icon) AllowedIcons) then inl (InvalidIconError icon) else inr icon.

Definition clampSortOrder (v : Z) : Z := Z.min (Z.max v 0) MaxSortOrder.
(** [int32] of the clamped value: the conversion is exact. *)
Definition SortOrder32 (v : Z) : Z := clampSortOrder v.

Section Text.
Context `{Unicode}.

Definition Category_ParseKind (s : string) : CategoryError + string :=
  let k := ToLower (TrimSpace s) in
  if CategoryKind_ok k then inr k else inl (CategoryInvalidKindError s).

Definition normalizeColor (color : string) : CategoryError + string :=
  let color := TrimSpace color in
  if String.eqb color "" then inr "" else
  if chartColor color then inr color else
  if hexColor color then inr (ToLower color) else inl (InvalidColorError color).

Definition Category_New (id : uuid) (now : Z) (orgID projectID : uuid)
    (name kind icon color : string) (sortOrder : Z) : CategoryError + Category :=
  match normalizeName name with
  | inl e => inl e
  | inr name =>
    if negb (CategoryKind_ok kind) then inl (CategoryInvalidKindError kind) else
    match normalizeIcon icon with
    | inl e => inl e
    | inr icon =>
      match normalizeColor color with
      | inl e => inl e
      | inr color =>
        inr (mkCategory id orgID projectID name kind icon color (clampSortOrder sortOrder) None now now)
      end
    end
  end.

Definition Category_Rename (c : Category) (name : string) (now : Z) : CategoryError + Category :=
  match normalizeName name with
  | inl e => inl e
  | inr name =>
    inr (mkCategory (c_ID c) (c_OrgID c) (c_ProjectID c) name (c_Kind c) (c_Icon c) (c_Color c)
           (c_SortOrder c) (c_ArchivedAt c) (c_CreatedAt c) now)
  end.

Definition Category_Update (c : Category) (icon color : string) (now : Z) : CategoryError + Category :=
  match normalizeIcon icon with
  | inl e => inl e
  | inr icon =>
    match normalizeColor color with
    | inl e => inl e
    | inr color =>
      inr (mkCategory (c_ID c) (c_OrgID c) (c_ProjectID c) (c_Name c) (c_Kind c) icon color
             (c_SortOrder c) (c_ArchivedAt c) (c_CreatedAt c) now)
    end
  end.

(** The case-insensitive form of a name. *)
Definition FoldName (name : string) : string := ToLower (TrimSpace name).

Definition titleCase (key : string) : string :=
  let sep := fun r => (r =? 95)%N || (r =? 45)%N || (r =? 32)%N in
  let up := fun w => match runes w with
                     | [] => w
                     | (r, _) :: rest =>
                       encode_rune (ToUpperRune r)
                         ++ String.concat "" (map (fun p => encode_rune (fst p)) rest)
                     end in
  Join (map up (FieldsFunc key sep)) " ".
End Text.

Definition Category_IsArchived (c : Category) : bool :=
  match c_ArchivedAt c with Some _ => true | None => false end.
Definition Category_Archive (c : Category) (now : Z) : Category :=
  if Category_IsArchived c then c else
  mkCategory (c_ID c) (c_OrgID c) (c_ProjectID c) (c_Name c) (c_Kind c) (c_Icon c) (c_Color c)
    (c_SortOrder c) (Some now) (c_CreatedAt c) now.
Definition Category_Unarchive (c : Category) (now : Z) : Category :=
  if negb (Category_IsArchived c) then c else
  mkCategory (c_ID c) (c_OrgID c) (c_ProjectID c) (c_Name c) (c_Kind c) (c_Icon c) (c_Color c)
    (c_SortOrder c) None (c_CreatedAt c) now.

(** ** The seeded defaults *)
Definition DefaultKeyPrefix := "category.default.".
Definition DefaultNameKey (key : string) : string := DefaultKeyPrefix ++ key.

Record Default := mkDefault { d_Key : string; d_Kind : string; d_Icon : string; d_Color : string }.
Definition CategoryDefaults : list Default :=
  [ mkDefault "food" KindExpense "utensils" "chart-1";
    mkDefault "transport" KindExpense "bus" "chart-2";
    mkDefault "shopping" KindExpense "shopping-bag" "chart-3";
    mkDefault "bills" KindExpense "receipt" "chart-4";
    mkDefault "phone_internet" KindExpense "smartphone" "chart-5";
    mkDefault "health" KindExpense "heart-pulse" "chart-1";
    mkDefault "home" KindExpense "house" "chart-2";
    mkDefault "entertainment" KindExpense "clapperboard" "chart-3";
    mkDefault "education" KindExpense "graduation-cap" "chart-4";
    mkDefault "family" KindExpense "users" "chart-5";
    mkDefault "installments" KindExpense "credit-card" "chart-1";
    mkDefault "charity" KindExpense "hand-heart" "chart-2";
    mkDefault "other_expense" KindExpense "circle-ellipsis" "chart-3";
    mkDefault "salary" KindIncome "banknote" "chart-4";
    mkDefault "bonus" KindIncome "wallet" "chart-5";
    mkDefault "freelance" KindIncome "laptop" "chart-1";
    mkDefault "business" KindIncome "briefcase" "chart-2";
    mkDefault "investment" KindIncome "trending-up" "chart-3";
    mkDefault "gift" KindIncome "gift" "chart-4";
    mkDefault "other_income" KindIncome "circle-ellipsis" "chart-5" ].

(** ** Well-formed categories *)
Definition category_ok (c : Category) : Prop :=
  CategoryKind_ok (c_Kind c) = true /\ c_Name c <> "" /\ RuneCountInString (c_Name c) <= CategoryMaxNameRunes
  /\ (c_Icon c = "" \/ In (c_Icon c) AllowedIcons) /\ 0 <= c_SortOrder c <= MaxSortOrder.

Lemma normalizeName_ok raw name : normalizeName raw = inr name ->
  name = TrimSpace raw /\ name <> "" /\ RuneCountInString name <= CategoryMaxNameRunes.
Proof.
  unfold normalizeName. destruct (String.eqb_spec (TrimSpace raw) ""); [discriminate|].
  destruct (Z.ltb_spec CategoryMaxNameRunes (RuneCountInString (TrimSpace raw))); [discriminate|].
  intros [= <-]. auto.
Qed.
Lemma normalizeIcon_ok raw icon : normalizeIcon raw = inr icon -> icon = "" \/ In icon AllowedIcons.
Proof.
  unfold normalizeIcon. destruct (String.eqb (TrimSpace raw) ""); [intros [= <-]; auto|].
  destruct (existsb _ _) eqn:E; [|discriminate]. intros [= <-]. right.
  apply existsb_exists in E as (x & Hx & Ex). apply String.eqb_eq in Ex. congruence.
Qed.
Lemma clampSortOrder_range v : 0 <= clampSortOrder v <= MaxSortOrder.
Proof. unfold clampSortOrder, MaxSortOrder. lia. Qed.
Lemma Category_New_ok `{Unicode} id now o p n k i col s c : Category_New id now o p n k i col s = inr c ->
  category_ok c /\ c_ID c = id /\ c_OrgID c = o /\ c_ProjectID c = p /\ c_Kind c = k
  /\ c_ArchivedAt c = None /\ c_Name c = TrimSpace n /\ c_SortOrder c = clampSortOrder s.
Proof.
  unfold Category_New. destruct (normalizeName n) as [|n'] eqn:En; [discriminate|].
  destruct (CategoryKind_ok k) eqn:Ek; [|discriminate].
  destruct (normalizeIcon i) as [|i'] eqn:Ei; [discriminate|].
  destruct (normalizeColor col) as [|c'] eqn:Ec; [discriminate|]. intros [= <-].
  apply normalizeName_ok in En as (-> & ? & ?). apply normalizeIcon_ok in Ei.
  split; [|repeat split; reflexivity]. unfold category_ok. cbn.
  repeat (split; [assumption|]). apply clampSortOrder_range.
Qed.
