(* ===== verification/Transaction.v ===== *)
(** * Transactions: the aggregate ([internal/transaction/transaction.go])

    One movement of money: its kinds, the creation invariants, the effect on a
    wallet's balance, and the setters a revision applies. *)
From Stdlib Require Import ZArith Lia String Ascii List.
From stdpp Require Import base list strings.
From S2P Require Import Prelude GoStrings Errors Civil Money.
Local Open Scope string_scope.
Local Open Scope Z_scope.

Definition MaxNoteRunes : Z := 500.
Definition DefaultListLimit : Z := 50.
Definition MaxListLimit : Z := 200.

(** ** Kinds *)
Definition TxIncome := "income".
Definition TxExpense := "expense".
Definition TxTransfer := "transfer".
Definition TxOpening := "opening".
Definition TxAdjustmentIn := "adjustment_in".
Definition TxAdjustmentOut := "adjustment_out".
Definition tx_kinds : list string :=
  [TxIncome; TxExpense; TxTransfer; TxOpening; TxAdjustmentIn; TxAdjustmentOut].

Definition TxKind_valid (k : string) : bool := existsb (String.eqb k) tx_kinds.
Definition Tx_ParseKind (s : string) : TxError + string :=
  if negb (TxKind_valid s) then inl (TxInvalidKindError s "unknown kind") else inr s.
Definition IsInflow (k : string) : bool := existsb (String.eqb k) [TxIncome; TxOpening; TxAdjustmentIn].
Definition AllowsCategory (k : string) : bool := String.eqb k TxIncome || String.eqb k TxExpense.
Definition IsUserRecorded (k : string) : bool :=
  String.eqb k TxIncome || String.eqb k TxExpense || String.eqb k TxTransfer.

(** ** The aggregate *)
Record Transaction := mkTransaction {
  t_ID : uuid;
  t_OrgID : uuid;
  t_ProjectID : uuid;
  t_WalletID : uuid;
  t_ToWalletID : option uuid;
  t_Kind : string;
  t_Amount : Amount;
  t_CategoryID : option uuid;
  t_PeriodID : option uuid;
  t_Note : string;
  t_OccurredAt : Z;
  t_CreatedBy : uuid;
  t_CreatedByKeyID : uuid;
  t_CreatedAt : Z;
  t_UpdatedAt : Z
}.

Record NewParams := mkNewParams {
  np_WalletID : uuid;
  np_ToWalletID : option uuid;
  np_Kind : string;
  np_Amount : Amount;
  np_CategoryID : option uuid;
  np_PeriodID : option uuid;
  np_Note : string;
  np_OccurredAt : Z;
  np_CreatedBy : uuid;
  np_CreatedByKeyID : uuid
}.

Definition validAmount (a : Amount) : option TxError :=
  if negb (Valid (AmountCurrency a)) then Some (InvalidAmountError ("unknown currency " ++ AmountCurrency a)) else
  if negb (IsPositive a) then Some (InvalidAmountError "must be greater than zero") else None.

Definition validNote (note : string) : option TxError :=
  if MaxNoteRunes <? RuneCountInString note then Some (InvalidNoteError "over 500 characters") else None.

(** [Transaction.validate]: the first rule broken. *)
Definition validate (t : Transaction) : option TxError :=
  if negb (TxKind_valid (t_Kind t)) then Some (TxInvalidKindError (t_Kind t) "unknown kind") else
  match validAmount (t_Amount t) with
  | Some e => Some e
  | None =>
    match validNote (t_Note t) with
    | Some e => Some e
    | None =>
      let category :=
        match t_CategoryID t with
        | Some _ => if negb (AllowsCategory (t_Kind t))
                    then Some (TxInvalidKindError (t_Kind t) "only income and expense may name a category")
                    else None
        | None => None
        end in
      if String.eqb (t_Kind t) TxTransfer then
        match t_ToWalletID t with
        | None => Some (TxInvalidKindError (t_Kind t) "transfer needs a destination wallet")
        | Some w => if N.eqb w (t_WalletID t) then Some (SameWalletError (uuid_String (t_WalletID t)))
                    else category
        end
      else match t_ToWalletID t with
           | Some _ => Some (TxInvalidKindError (t_Kind t) "only a transfer may name a destination wallet")
           | None => category
           end
    end
  end.

Definition Tx_New (id : uuid) (now : Z) (orgID projectID : uuid) (p : NewParams) : TxError + Transaction :=
  let t := mkTransaction id orgID projectID (np_WalletID p) (np_ToWalletID p) (np_Kind p) (np_Amount p)
             (np_CategoryID p) (np_PeriodID p) (TrimSpace (np_Note p)) (np_OccurredAt p)
             (np_CreatedBy p) (np_CreatedByKeyID p) now now in
  match validate t with Some e => inl e | None => inr t end.

(** [Transaction.Effect]. *)
Definition Effect (t : Transaction) (walletID : uuid) : Amount :=
  let zero := Zero (AmountCurrency (t_Amount t)) in
  if String.eqb (t_Kind t) TxTransfer then
    if N.eqb walletID (t_WalletID t) then Neg (t_Amount t) else
    match t_ToWalletID t with
    | Some w => if N.eqb walletID w then t_Amount t else zero
    | None => zero
    end
  else if negb (N.eqb walletID (t_WalletID t)) then zero
  else if IsInflow (t_Kind t) then t_Amount t else Neg (t_Amount t).

(** ** Setters; each stamps [UpdatedAt] *)
Definition SetAmount (t : Transaction) (a : Amount) (now : Z) : TxError + Transaction :=
  match validAmount a with
  | Some e => inl e
  | None =>
    inr (mkTransaction (t_ID t) (t_OrgID t) (t_ProjectID t) (t_WalletID t) (t_ToWalletID t) (t_Kind t) a
      (t_CategoryID t) (t_PeriodID t) (t_Note t) (t_OccurredAt t) (t_CreatedBy t) (t_CreatedByKeyID t)
      (t_CreatedAt t) now)
  end.
Definition SetNote (t : Transaction) (note : string) (now : Z) : TxError + Transaction :=
  let note := TrimSpace note in
  match validNote note with
  | Some e => inl e
  | None =>
    inr (mkTransaction (t_ID t) (t_OrgID t) (t_ProjectID t) (t_WalletID t) (t_ToWalletID t) (t_Kind t)
      (t_Amount t) (t_CategoryID t) (t_PeriodID t) note (t_OccurredAt t) (t_CreatedBy t) (t_CreatedByKeyID t)
      (t_CreatedAt t) now)
  end.
Definition SetOccurredAt (t : Transaction) (at_ : Z) (now : Z) : Transaction :=
  mkTransaction (t_ID t) (t_OrgID t) (t_ProjectID t) (t_WalletID t) (t_ToWalletID t) (t_Kind t)
    (t_Amount t) (t_CategoryID t) (t_PeriodID t) (t_Note t) at_ (t_CreatedBy t) (t_CreatedByKeyID t)
    (t_CreatedAt t) now.
Definition SetCategory (t : Transaction) (id : option uuid) (now : Z) : TxError + Transaction :=
  match id with
  | Some _ => if negb (AllowsCategory (t_Kind t))
              then inl (TxInvalidKindError (t_Kind t) "only income and expense may name a category")
              else inr (mkTransaction (t_ID t) (t_OrgID t) (t_ProjectID t) (t_WalletID t) (t_ToWalletID t)
                     (t_Kind t) (t_Amount t) id (t_PeriodID t) (t_Note t) (t_OccurredAt t) (t_CreatedBy t)
                     (t_CreatedByKeyID t) (t_CreatedAt t) now)
  | None => inr (mkTransaction (t_ID t) (t_OrgID t) (t_ProjectID t) (t_WalletID t) (t_ToWalletID t)
                   (t_Kind t) (t_Amount t) None (t_PeriodID t) (t_Note t) (t_OccurredAt t) (t_CreatedBy t)
                   (t_CreatedByKeyID t) (t_CreatedAt t) now)
  end.
Definition SetToWallet (t : Transaction) (id : option uuid) (now : Z) : Transaction :=
  mkTransaction (t_ID t) (t_OrgID t) (t_ProjectID t) (t_WalletID t) id (t_Kind t)
    (t_Amount t) (t_CategoryID t) (t_PeriodID t) (t_Note t) (t_OccurredAt t) (t_CreatedBy t)
    (t_CreatedByKeyID t) (t_CreatedAt t) now.
Definition SetWallet (t : Transaction) (id : uuid) (now : Z) : Transaction :=
  mkTransaction (t_ID t) (t_OrgID t) (t_ProjectID t) id (t_ToWalletID t) (t_Kind t)
    (t_Amount t) (t_CategoryID t) (t_PeriodID t) (t_Note t) (t_OccurredAt t) (t_CreatedBy t)
    (t_CreatedByKeyID t) (t_CreatedAt t) now.
Definition SetPeriod (t : Transaction) (id : option uuid) (now : Z) : Transaction :=
  mkTransaction (t_ID t) (t_OrgID t) (t_ProjectID t) (t_WalletID t) (t_ToWalletID t) (t_Kind t)
    (t_Amount t) (t_CategoryID t) id (t_Note t) (t_OccurredAt t) (t_CreatedBy t)
    (t_CreatedByKeyID t) (t_CreatedAt t) now.
(** [next.Amount = money.New(minor, currency)] in [revise]. *)
Definition with_currency (t : Transaction) (c : Currency) : Transaction :=
  mkTransaction (t_ID t) (t_OrgID t) (t_ProjectID t) (t_WalletID t) (t_ToWalletID t) (t_Kind t)
    (New (Minor (t_Amount t)) c) (t_CategoryID t) (t_PeriodID t) (t_Note t) (t_OccurredAt t) (t_CreatedBy t)
    (t_CreatedByKeyID t) (t_CreatedAt t) (t_UpdatedAt t).

(** ** Notes and listing *)
Definition NormalizeNote `{Unicode} (s : string) : string := ToLower (Join (Fields s) " ").

Record Cursor := mkCursor { cu_OccurredAt : Z; cu_CreatedAt : Z; cu_ID : uuid }.

Record TxListOpts := mkTxListOpts {
  tl_WalletID : option uuid;
  tl_CategoryID : option uuid;
  tl_PeriodID : option uuid;
  tl_Kinds : list string;
  tl_From : option Z;
  tl_To : option Z;
  tl_Search : string;
  tl_Limit : Z;
  tl_After : option Cursor
}.

Definition NormalizedLimit (o : TxListOpts) : Z :=
  if tl_Limit o <=? 0 then DefaultListLimit else
  if MaxListLimit <? tl_Limit o then MaxListLimit else tl_Limit o.

(** [escapeLikePattern]. *)
Fixpoint like_escape (s : string) : string :=
  match s with
  | EmptyString => EmptyString
  | String c r =>
    if existsb (Ascii.eqb c) ["\"%char; "%"%char; "_"%char]
    then String "\" (String c (like_escape r)) else String c (like_escape r)
  end.
Definition escapeLikePattern (s : string) : string := "%" ++ like_escape s ++ "%".

(** ** Well-formed transactions *)
Definition tx_ok (t : Transaction) : Prop :=
  In (t_Kind t) tx_kinds /\ Valid (AmountCurrency (t_Amount t)) = true /\ 0 < Minor (t_Amount t)
  /\ RuneCountInString (t_Note t) <= MaxNoteRunes
  /\ (t_Kind t = TxTransfer <-> t_ToWalletID t <> None)
  /\ t_ToWalletID t <> Some (t_WalletID t)
  /\ (t_CategoryID t <> None -> t_Kind t = TxIncome \/ t_Kind t = TxExpense).

Lemma TxKind_valid_In k : TxKind_valid k = true <-> In k tx_kinds.
Proof.
  unfold TxKind_valid. rewrite existsb_exists. split.
  - intros (x & Hx & E). apply String.eqb_eq in E. congruence.
  - intros H. exists k. rewrite String.eqb_refl. auto.
Qed.
Lemma AllowsCategory_spec k : AllowsCategory k = true <-> k = TxIncome \/ k = TxExpense.
Proof. unfold AllowsCategory. rewrite orb_true_iff, !String.eqb_eq. tauto. Qed.

Lemma validAmount_none a : validAmount a = None <-> Valid (AmountCurrency a) = true /\ 0 < Minor a.
Proof.
  unfold validAmount, IsPositive. destruct (Valid _), (Z.ltb_spec 0 (Minor a)); cbn [negb];
    split; intros H'; try discriminate H'; try (destruct H'; congruence || lia); auto.
Qed.
Lemma validNote_none n : validNote n = None <-> RuneCountInString n <= MaxNoteRunes.
Proof. unfold validNote. destruct (Z.ltb_spec MaxNoteRunes (RuneCountInString n)); split; congruence || lia. Qed.

(** [validate] accepts exactly the well-formed transactions. *)
Lemma validate_none t : validate t = None <-> tx_ok t.
Proof.
  unfold validate, tx_ok. rewrite <- TxKind_valid_In, <- validNote_none.
  pose proof (validAmount_none (t_Amount t)) as HA.
  destruct (TxKind_valid (t_Kind t)); cbn [negb]; [|split; [discriminate | intros [[=] _]]].
  destruct (validAmount (t_Amount t)); [split; [discriminate|]; intros (_ & H1 & H2 & _); discriminate (proj2 HA (conj H1 H2))|].
  destruct (proj1 HA eq_refl) as [H1 H2].
  destruct (validNote (t_Note t)); [split; [discriminate | intros (_ & _ & _ & [=] & _)]|].
  pose proof (AllowsCategory_spec (t_Kind t)) as HC.
  destruct (String.eqb_spec (t_Kind t) TxTransfer) as [K|K], (t_ToWalletID t) as [w|];
    [destruct (N.eqb_spec w (t_WalletID t))|..];
    destruct (t_CategoryID t), (AllowsCategory (t_Kind t)); cbn [negb];
    (split; [intros V; try discriminate V; repeat split; auto; try congruence; try tauto
            |intros (_ & _ & _ & _ & V1 & V2 & V3); try reflexivity; exfalso; intuition congruence]).
Qed.

Lemma Tx_New_ok id now o p np t : Tx_New id now o p np = inr t ->
  tx_ok t /\ t = mkTransaction id o p (np_WalletID np) (np_ToWalletID np) (np_Kind np) (np_Amount np)
      (np_CategoryID np) (np_PeriodID np) (TrimSpace (np_Note np)) (np_OccurredAt np)
      (np_CreatedBy np) (np_CreatedByKeyID np) now now.
Proof.
  unfold Tx_New. destruct (validate _) eqn:E; [discriminate|]. intros [= <-].
  split; [apply validate_none, E | reflexivity].
Qed.
