(* ===== verification/Outbox.v ===== *)
(** * The outbox's data ([internal/platform/outbox/outbox.go], [store.go], [internal/apperror/truncate.go])

    Entries, their three states, the retry schedule and the limits of a batch. *)
From Stdlib Require Import ZArith Lia String Ascii List.
From stdpp Require Import base list strings.
From S2P Require Import Prelude GoStrings Errors.
Local Open Scope string_scope.
Local Open Scope Z_scope.

(** [Status], a Go string type. *)
Abbreviation Status := string.
Definition StatusPending : Status := "pending".
Definition StatusDelivered : Status := "delivered".
Definition StatusFailed : Status := "failed".

Definition Status_Valid (s : Status) : bool :=
  String.eqb s StatusPending || String.eqb s StatusDelivered || String.eqb s StatusFailed.
Definition Status_Terminal (s : Status) : bool := String.eqb s StatusDelivered || String.eqb s StatusFailed.

(** Durations, in nanoseconds. *)
Definition Second : Z := 1000000000.
Definition Minute : Z := 60 * Second.
Definition Hour : Z := 60 * Minute.

Definition MaxAttempts : Z := 8.
Definition ClaimLease : Z := 5 * Minute.
Definition MaxTargetLen : Z := 255.
Definition MaxClaimLimit : Z := 1000.
Definition MaxListLimit : Z := 100.
Definition MaxCauseLen : Z := 1024.

Record Entry := mkEntry {
  ob_ID : uuid;
  ob_EventID : uuid;
  ob_OrgID : uuid;
  ob_ProjectID : uuid;
  ob_Target : string;
  ob_Payload : string;       (** bytes *)
  ob_Attempt : Z;
  ob_NextAttemptAt : Z;
  ob_Status : Status;
  ob_LastError : string;
  ob_CreatedAt : Z
}.

(** The zero [time.Time], year 1, in nanoseconds from the epoch. *)
Definition zero_Time : Z := - 62135596800 * Second.

(** A row of the table: an entry, and [delivered_at], which no reader loads. *)
Record OutboxRow := mkOutboxRow { or_entry : Entry; or_DeliveredAt : option Z }.

#[global] Instance Entry_eq_dec : EqDecision Entry.
Proof. solve_decision. Defined.
#[global] Instance OutboxRow_eq_dec : EqDecision OutboxRow.
Proof. solve_decision. Defined.

Definition BackoffBase (attempt : Z) : Z :=
  if attempt <=? 2 then 30 * Second else
  if attempt =? 3 then 5 * Minute else
  if attempt =? 4 then 30 * Minute else
  if attempt =? 5 then 2 * Hour else
  if attempt =? 6 then 5 * Hour else 10 * Hour.

(** [rand.N n] draws from [0, n): the draw is the remainder of an arbitrary number. *)
Definition rand_N (draw n : Z) : Z := draw mod n.

Definition Backoff (draw attempt : Z) : Z :=
  let base := BackoffBase attempt in
  let spread := Z.quot base 10 in
  base - spread + rand_N draw (2 * spread + 1).

Definition Entry_validate (e : Entry) : option OutboxError :=
  if N.eqb (ob_ID e) uuid_Nil then Some (InvalidEntryError "ID" "must not be the zero uuid") else
  if N.eqb (ob_EventID e) uuid_Nil then Some (InvalidEntryError "EventID" "must not be the zero uuid") else
  if N.eqb (ob_OrgID e) uuid_Nil then Some (InvalidEntryError "OrgID" "must not be the zero uuid") else
  if N.eqb (ob_ProjectID e) uuid_Nil then Some (InvalidEntryError "ProjectID" "must not be the zero uuid") else
  if String.eqb (ob_Target e) "" then Some (InvalidEntryError "Target" "must not be empty") else
  if MaxTargetLen <? Z.of_nat (String.length (ob_Target e))
  then Some (InvalidEntryError "Target" "exceeds the length limit") else
  if negb (String.eqb (ob_Status e) "") && negb (String.eqb (ob_Status e) StatusPending)
  then Some (InvalidEntryError "Status" "a new entry is always pending") else None.

Definition clampLimit (limit limitCap : Z) : Z := Z.min (Z.max limit 1) limitCap.
Definition claimBatch (limit : Z) : Z := clampLimit limit MaxClaimLimit.
Definition listBatch (limit : Z) : Z := clampLimit limit MaxListLimit.

(** [apperror.TruncateCause] and the package's use of it. *)
Definition TruncateCause (cause : string) (limit : Z) : string :=
  let limit := Z.max limit 0 in
  ToValidUTF8 (if limit <? Z.of_nat (String.length cause)
               then String.substring 0 (Z.to_nat limit) cause else cause).
Definition truncateCause (cause : string) : string := TruncateCause cause MaxCauseLen.

(** ** Lemmas *)

Lemma BackoffBase_bounds a : 30 * Second <= BackoffBase a <= 10 * Hour.
Proof.
  unfold BackoffBase, Hour, Minute, Second.
  repeat match goal with |- context [if ?b then _ else _] => destruct b end; lia.
Qed.
Lemma BackoffBase_mono a b : a <= b -> BackoffBase a <= BackoffBase b.
Proof.
  unfold BackoffBase, Hour, Minute, Second. intros Hab.
  repeat match goal with |- context [if ?x then _ else _] => destruct x eqn:? end; lia.
Qed.
Lemma Backoff_near draw a :
  9 * BackoffBase a <= 10 * Backoff draw a <= 11 * BackoffBase a.
Proof.
  unfold Backoff, rand_N. pose proof (BackoffBase_bounds a) as [Hlo _]. unfold Second in Hlo.
  pose proof (Z.mod_pos_bound draw (2 * Z.quot (BackoffBase a) 10 + 1)).
  pose proof (Z.quot_rem (BackoffBase a) 10). pose proof (Z.rem_bound_pos (BackoffBase a) 10).
  lia.
Qed.

Lemma clampLimit_bounds limit cap : 1 <= cap -> 1 <= clampLimit limit cap <= cap.
Proof. unfold clampLimit. lia. Qed.

Lemma substring_length n s : (String.length (String.substring 0 n s) <= n)%nat.
Proof.
  revert s. induction n as [|n IH]; intros [|c s]; simpl; try lia. specialize (IH s). lia.
Qed.

(** A cause is stored within its limit. *)
Lemma unrunes_filter_length (P : N * string -> Prop) `{!forall x, Decision (P x)} l :
  (String.length (unrunes (filter P l)) <= String.length (unrunes l))%nat.
Proof.
  induction l as [|p l IH]; [cbn; lia|]. rewrite filter_cons, (unrunes_cons p l), append_length.
  destruct (decide (P p)); [rewrite unrunes_cons, append_length|]; lia.
Qed.
Lemma runes_fuel_length n s : (String.length (unrunes (runes_fuel n s)) <= String.length s)%nat.
Proof.
  revert s. induction n as [|n IH]; intros s; [cbn; lia|]. cbn [runes_fuel].
  destruct (decode_rune s) as [[[r enc] rest]|] eqn:E; [|cbn; lia].
  rewrite unrunes_cons, append_length. cbn [snd]. specialize (IH rest).
  assert (String.length s = (String.length enc + String.length rest)%nat); [|lia].
  revert E. unfold decode_rune.
  repeat (match goal with |- context [match ?x with _ => _ end] => destruct x; try discriminate end);
    intros [= <- <- <-]; reflexivity.
Qed.
Lemma truncateCause_length cause : Z.of_nat (String.length (truncateCause cause)) <= MaxCauseLen.
Proof.
  unfold truncateCause, TruncateCause, MaxCauseLen, ToValidUTF8, runes.
  change (Z.max 1024 0) with 1024.
  set (s := if 1024 <? Z.of_nat (String.length cause) then substring 0 (Z.to_nat 1024) cause else cause).
  enough (Z.of_nat (String.length s) <= 1024).
  { pose proof (unrunes_filter_length (fun p => bad_rune p = false) (runes_fuel (String.length s) s)).
    pose proof (runes_fuel_length (String.length s) s). lia. }
  subst s. destruct (Z.ltb_spec 1024 (Z.of_nat (String.length cause))); [|lia].
  pose proof (substring_length (Z.to_nat 1024) cause). lia.
Qed.
