(* ===== verification/Webhook.v ===== *)
(** * Webhooks: endpoints, events and receipts ([internal/webhook/webhook.go], [response.go], [sign.go], [secret.go], [internal/platform/events])

    The endpoint aggregate and its validation, the catalog of events with their
    payloads and the envelope that carries them, what is kept of a receiver's
    answer, and the signature. *)
From Stdlib Require Import ZArith Lia String Ascii List.
From stdpp Require Import base gmap list strings.
From S2P Require Import Prelude GoStrings Errors Civil Encoding GoJSON Sealer Tenant Outbox.
Local Open Scope string_scope.
Local Open Scope Z_scope.

(** ** The event catalog ([catalog.go], [payloads.go]) *)

(** [events.Type], a Go string type. *)
Abbreviation EventType := string.
Definition PostPublished : EventType := "blog.post.published".
Definition PostUnpublished : EventType := "blog.post.unpublished".
Definition PostDeleted : EventType := "blog.post.deleted".
Definition WebhookPing : EventType := "webhook.ping".

Record Spec := mkSpec { sp_Type : EventType; sp_Version : Z; sp_Subscribable : bool }.
Definition APIVersion (s : Spec) : string := "v" ++ FormatInt (sp_Version s).
Definition All : list Spec :=
  [mkSpec PostPublished 1 true; mkSpec PostUnpublished 1 true; mkSpec PostDeleted 1 true; mkSpec WebhookPing 1 false].
Definition Subscribable : list Spec := List.filter sp_Subscribable All.
Definition Lookup (t : EventType) : option Spec := List.find (fun s => String.eqb (sp_Type s) t) All.

Record PostSnapshotV1 := mkPostSnapshotV1 {
  ps_ID : uuid; ps_Slug : string; ps_Title : string; ps_BodyMarkdown : string; ps_CategoryID : uuid;
  ps_TagIDs : option (list uuid);   (** a nil slice is [None] *)
  ps_FirstPublishedAt : option Z; ps_UpdatedAt : Z; ps_Version : Z
}.
(** The data of an event; a value of any other Go type is [OtherData]. *)
Inductive EventData :=
| PostPublishedV1 (s : PostSnapshotV1)
| PostUnpublishedV1 (s : PostSnapshotV1)
| PostDeletedV1 (id : uuid) (slug : string) (wasPublished : bool)
| WebhookPingV1 (endpointID : uuid)
| OtherData (j : json).
Definition CheckPayload (t : EventType) (data : EventData) : option EventsError :=
  if String.eqb t PostPublished
  then match data with PostPublishedV1 _ => None | _ => Some (PayloadMismatchError t) end
  else if String.eqb t PostUnpublished
  then match data with PostUnpublishedV1 _ => None | _ => Some (PayloadMismatchError t) end
  else if String.eqb t PostDeleted
  then match data with PostDeletedV1 _ _ _ => None | _ => Some (PayloadMismatchError t) end
  else if String.eqb t WebhookPing
  then match data with WebhookPingV1 _ => None | _ => Some (PayloadMismatchError t) end
  else Some (UnknownTypeError t).

(** ** Instants as JSON *)

Fixpoint trim_right_zeros (s : string) : string :=
  match s with
  | "" => ""
  | String c r =>
    let t := trim_right_zeros r in if String.eqb t "" && Ascii.eqb c "0" then "" else String c t
  end.
(** [t.UTC().Format(time.RFC3339Nano)]. *)
Definition RFC3339Nano (t : Z) : string :=
  let sec := t / Second in
  let ns := t mod Second in
  let day := sec / 86400 in
  let s := sec mod 86400 in
  Date_String (civil_of_days day) ++ "T" ++ digits_n 2 (s / 3600) ++ ":" ++ digits_n 2 (s / 60 mod 60) ++ ":" ++ digits_n 2 (s mod 60)
    ++ (if ns =? 0 then "" else "." ++ trim_right_zeros (digits_n 9 ns)) ++ "Z".
(** [Time.MarshalJSON] refuses years of more than four digits. *)
Definition json_time (t : Z) : option json :=
  let y := Year (civil_of_days (t / Second / 86400)) in
  if (0 <=? y) && (y <=? 9999) then Some (JStr (RFC3339Nano t)) else None.

(** ** The envelope ([service.go]) *)

Definition json_uuid (u : uuid) : json := JStr (uuid_String u).
Definition json_post (s : PostSnapshotV1) : option json :=
  match json_time (ps_UpdatedAt s), match ps_FirstPublishedAt s with None => Some JNull | Some t => json_time t end with
  | Some updated, Some first =>
    Some (JObj [("id", json_uuid (ps_ID s)); ("slug", JStr (ps_Slug s)); ("title", JStr (ps_Title s));
      ("body_markdown", JStr (ps_BodyMarkdown s)); ("category_id", json_uuid (ps_CategoryID s));
      ("tag_ids", match ps_TagIDs s with None => JNull | Some l => JArr (map json_uuid l) end);
      ("first_published_at", first); ("updated_at", updated); ("version", JNum (FormatInt (ps_Version s)))])
  | _, _ => None
  end.
Definition json_data (d : EventData) : option json :=
  match d with
  | PostPublishedV1 s | PostUnpublishedV1 s => json_post s
  | PostDeletedV1 id slug was => Some (JObj [("id", json_uuid id); ("slug", JStr slug); ("was_published", JBool was)])
  | WebhookPingV1 id => Some (JObj [("endpoint_id", json_uuid id)])
  | OtherData j => Some j
  end.
Definition eventIDPrefix : string := "evt_".
Definition deliveryIDPrefix : string := "dlv_".
Record Envelope := mkEnvelope {
  ev_ID : string; ev_Type : EventType; ev_APIVersion : string; ev_CreatedAt : Z;
  ev_OrgID : uuid; ev_ProjectID : uuid; ev_ProjectSlug : string; ev_Data : EventData
}.
Definition json_envelope (e : Envelope) : option json :=
  match json_time (ev_CreatedAt e), json_data (ev_Data e) with
  | Some created, Some data =>
    Some (JObj [("id", JStr (ev_ID e)); ("type", JStr (ev_Type e)); ("api_version", JStr (ev_APIVersion e));
      ("created_at", created);
      ("tenant", JObj [("org_id", json_uuid (ev_OrgID e)); ("project_id", json_uuid (ev_ProjectID e));
                       ("project_slug", JStr (ev_ProjectSlug e))]);
      ("data", data)])
  | _, _ => None
  end.
Definition marshal_envelope (e : Envelope) : option string := option_map json_print (json_envelope e).

(** The ASCII letters of a member's name folded, as its match with a field's. *)
Fixpoint fold_ascii (s : string) : string :=
  match s with
  | "" => ""
  | String c r => String (if in_range 65 90 c then ascii_of_N (byte_of c + 32) else c) (fold_ascii r)
  end.
(** A string field read from an object's members: the last one of its name that is
    a string; a null leaves the field alone, any other value is an error. *)
Fixpoint string_field (name : string) (ms : list (string * json)) (acc : string) : option string :=
  match ms with
  | [] => Some acc
  | (k, v) :: ms =>
    if String.eqb (fold_ascii k) name
    then match v with JStr s => string_field name ms s | JNull => string_field name ms acc | _ => None end
    else string_field name ms acc
  end.
(** The words of [json.Unmarshal]'s error on a text. *)
Class JSONErrors := json_error : string -> string.
Definition envelopeType `{JSONErrors} (payload : string) : Error + EventType :=
  let fail := inl (EWrap "decode envelope type" (EText (json_error payload))) in
  match json_read payload with
  | None => fail
  | Some j =>
    match match j with JObj ms => string_field "type" ms "" | JNull => Some "" | _ => None end with
    | None => fail
    | Some t => if String.eqb t "" then inl (EText "decode envelope type: type is empty") else inr t
    end
  end.

(** ** Endpoints ([webhook.go]) *)

Definition MaxEndpointsPerProject : nat := 10.
Definition MaxURLLen : Z := 2048.
Definition MaxDescriptionRunes : Z := 200.

Record SealedSecrets := mkSecrets { sx_Primary : string; sx_Secondary : option string }.
Record Endpoint := mkEndpoint {
  ep_ID : uuid; ep_OrgID : uuid; ep_ProjectID : uuid; ep_URL : string; ep_Description : string;
  ep_EventTypes : list EventType; ep_Secrets : SealedSecrets; ep_Active : bool; ep_CreatedAt : Z; ep_UpdatedAt : Z
}.

(** Go's [url.Parse]: its error's text, or the parts the code looks at. *)
Record URLParts := mkURLParts { u_Scheme : string; u_HasUser : bool; u_Hostname : string }.
Class URLs := url_Parse : string -> string + URLParts.

Section Validation.
Context `{URLs}.

Definition validateURL (rawURL : string) : WebhookError + string :=
  let rawURL := TrimSpace rawURL in
  if String.eqb rawURL "" then inl (InvalidURLError "is required") else
  if MaxURLLen <? Z.of_nat (String.length rawURL)
  then inl (InvalidURLError ("is longer than " ++ FormatInt MaxURLLen ++ " characters")) else
  if negb (ValidString rawURL) then inl (InvalidURLError "is not valid UTF-8") else
  match url_Parse rawURL with
  | inl _ => inl (InvalidURLError "cannot be parsed")
  | inr u =>
    if negb (String.eqb (u_Scheme u) "https") then inl (InvalidURLError "must use https") else
    if u_HasUser u then inl (InvalidURLError "must not carry credentials") else
    if String.eqb (u_Hostname u) "" then inl (InvalidURLError "has no host") else inr rawURL
  end.
Definition validateDescription (description : string) : WebhookError + string :=
  let description := TrimSpace description in
  if negb (ValidString description) then inl (InvalidDescriptionError "is not valid UTF-8") else
  if MaxDescriptionRunes <? RuneCountInString description
  then inl (InvalidDescriptionError ("is longer than " ++ FormatInt MaxDescriptionRunes ++ " characters"))
  else inr description.
(** The checks of the types after those [seen]. *)
Fixpoint check_types (seen types : list EventType) : option WebhookError :=
  match types with
  | [] => None
  | t :: types =>
    match Lookup t with
    | None => Some (InvalidEventTypesError ("unknown event type " ++ t))
    | Some spec =>
      if negb (sp_Subscribable spec)
      then Some (InvalidEventTypesError ("event type " ++ t ++ " cannot be subscribed to")) else
      if existsb (String.eqb t) seen then Some (InvalidEventTypesError ("event type " ++ t ++ " is listed twice"))
      else check_types (seen ++ [t]) types
    end
  end.
Definition validateTypes (types : list EventType) : WebhookError + list EventType :=
  match types with
  | [] => inl (InvalidEventTypesError "at least one event type is required")
  | _ => match check_types [] types with Some e => inl e | None => inr types end
  end.
Definition webhook_validate (rawURL description : string) (types : list EventType)
    : WebhookError + (string * string * list EventType) :=
  match validateURL rawURL with
  | inl e => inl e
  | inr u => match validateDescription description with
             | inl e => inl e
             | inr d => match validateTypes types with inl e => inl e | inr ts => inr (u, d, ts) end
             end
  end.

(** [New], with the id and time it draws. *)
Definition Endpoint_New (id : uuid) (now : Z) (orgID projectID : uuid) (rawURL description : string)
    (types : list EventType) : WebhookError + Endpoint :=
  match webhook_validate rawURL description types with
  | inl e => inl e
  | inr (u, d, ts) => inr (mkEndpoint id orgID projectID u d ts (mkSecrets "" None) true now now)
  end.
Definition Endpoint_Update (now : Z) (e : Endpoint) (rawURL description : string) (types : list EventType)
    (active : bool) : WebhookError + Endpoint :=
  match webhook_validate rawURL description types with
  | inl e => inl e
  | inr (u, d, ts) =>
    inr (mkEndpoint (ep_ID e) (ep_OrgID e) (ep_ProjectID e) u d ts (ep_Secrets e) active (ep_CreatedAt e) now)
  end.
End Validation.
Definition set_secrets (now : Z) (s : SealedSecrets) (e : Endpoint) : Endpoint :=
  mkEndpoint (ep_ID e) (ep_OrgID e) (ep_ProjectID e) (ep_URL e) (ep_Description e) (ep_EventTypes e) s (ep_Active e)
    (ep_CreatedAt e) now.
Definition Subscribes (e : Endpoint) (t : EventType) : bool := existsb (String.eqb t) (ep_EventTypes e).

(** ** Receipts ([response.go]) *)

Definition MaxResponseBodyBytes : nat := 4096.
Definition MaxResponseHeaderBytes : nat := 4096.
Definition MaxResponseHeaders : nat := 50.

Record Header := mkHeader { h_Name : string; h_Value : string }.
Record Receipt := mkReceipt { rc_status : Z; rc_body : string; rc_truncated : bool; rc_headers : list Header }.

Definition nth_byte (i : nat) (s : string) : ascii := match String.get i s with Some c => c | None => ascii_of_N 0 end.
(** [utf8.RuneStart] and [utf8.FullRune]. *)
Definition RuneStart (c : ascii) : bool := negb (in_range 128 191 c).
Definition FullRune (s : string) : bool :=
  let n := String.length s in
  let b := nth_byte 0 s in
  let need := if in_range 194 223 b then 2%nat else if in_range 224 239 b then 3%nat
              else if in_range 240 244 b then 4%nat else 1%nat in
  let lo := if (byte_of b =? 224)%N then 160%N else if (byte_of b =? 240)%N then 144%N else 128%N in
  let hi := if (byte_of b =? 237)%N then 159%N else if (byte_of b =? 244)%N then 143%N else 191%N in
  if Nat.eqb n 0 then false else if Nat.leb need n then true else
  if Nat.ltb 1 n && negb (in_range lo hi (nth_byte 1 s)) then true else
  Nat.ltb 2 n && negb (in_range 128 191 (nth_byte 2 s)).
(** [trimPartialRune], from its [i]-th last byte on. *)
Fixpoint trim_from (steps i : nat) (b : string) : string :=
  match steps with
  | O => b
  | S steps =>
    let n := String.length b in
    if Nat.ltb n i then b else
    if negb (RuneStart (nth_byte (n - i) b)) then trim_from steps (S i) b else
    if FullRune (drop_str (n - i) b) then b else String.substring 0 (n - i) b
  end.
Definition trimPartialRune (b : string) : string := trim_from 3 1 b.

(** [strings.ToValidUTF8]: a run of invalid bytes becomes one replacement. *)
Fixpoint valid_runes (rep : string) (l : list (N * string)) (bad : bool) : string :=
  match l with
  | [] => ""
  | p :: l =>
    if bad_rune p then (if bad then "" else rep) ++ valid_runes rep l true else snd p ++ valid_runes rep l false
  end.
Definition ToValidUTF8_rep (s rep : string) : string := valid_runes rep (runes s) false.
(** [strings.ReplaceAll] of a one-byte string. *)
Fixpoint replace_char (c : ascii) (rep s : string) : string :=
  match s with
  | "" => ""
  | String x r => if Ascii.eqb x c then rep ++ replace_char c rep r else String x (replace_char c rep r)
  end.
Definition storableText (s : string) (limit : nat) : string * bool :=
  let s := ToValidUTF8_rep (replace_char (ascii_of_N 0) replacement s) replacement in
  if Nat.leb (String.length s) limit then (s, false) else (trimPartialRune (String.substring 0 limit s), true).

Definition credentialHeaderMarkers : list string :=
  ["auth"; "cookie"; "token"; "secret"; "key"; "session"; "password"; "credential"; "signature"].
Section Receipts.
Context `{Unicode}.
Definition isCredentialHeader (name : string) : bool :=
  existsb (fun m => Contains (ToLower name) m) credentialHeaderMarkers.
Fixpoint bound_from (out : list Header) (size : nat) (hs : list Header) : list Header :=
  match hs with
  | [] => out
  | h :: hs =>
    if Nat.leb MaxResponseHeaders (List.length out) then out else
    if isCredentialHeader (h_Name h) then bound_from out size hs else
    let name := fst (storableText (h_Name h) MaxResponseHeaderBytes) in
    let value := fst (storableText (h_Value h) MaxResponseHeaderBytes) in
    let more := (size + String.length name + String.length value)%nat in
    if Nat.ltb MaxResponseHeaderBytes more then bound_from out size hs
    else bound_from (out ++ [mkHeader name value]) more hs
  end.
Definition boundHeaders (hs : list Header) : list Header := bound_from [] 0 hs.

(** What an HTTP exchange ended in: an error's text, or the answer with its body and
    its headers' values by name. *)
Inductive PostResult :=
| PostFailed (msg : string)
| PostAnswered (status : Z) (body : string) (headers : list (string * list string)).
Definition headerList (h : list (string * list string)) : list Header :=
  flat_map (fun nv => map (mkHeader (fst nv)) (snd nv))
    (List.filter (fun nv => negb (isCredentialHeader (fst nv))) (sort_by (fun a b => String.leb (fst a) (fst b)) h)).
(** At most one byte more than is kept is read of the body. *)
Definition readReceipt (status : Z) (body : string) (headers : list (string * list string)) : Receipt :=
  let b := String.substring 0 (S MaxResponseBodyBytes) body in
  let truncated := Nat.ltb MaxResponseBodyBytes (String.length b) in
  let b := if truncated then trimPartialRune (String.substring 0 MaxResponseBodyBytes b) else b in
  mkReceipt status b truncated (headerList headers).
End Receipts.
Definition no_receipt : Receipt := mkReceipt 0 "" false [].

(** ** Attempts *)

Record Attempt := mkAttempt {
  at_ID : uuid; at_OrgID : uuid; at_ProjectID : uuid; at_EndpointID : uuid; at_DeliveryID : uuid; at_EventID : uuid;
  at_EventType : EventType; at_Attempt : Z; at_StatusCode : Z; at_Error : string; at_ResponseBody : string;
  at_ResponseTruncated : bool; at_ResponseHeaders : list Header; at_Duration : Z; at_CreatedAt : Z
}.
(** What a receiver's text leaves in an attempt. *)
Definition with_response (body : string) (truncated : bool) (headers : list Header) (a : Attempt) : Attempt :=
  mkAttempt (at_ID a) (at_OrgID a) (at_ProjectID a) (at_EndpointID a) (at_DeliveryID a) (at_EventID a) (at_EventType a)
    (at_Attempt a) (at_StatusCode a) (at_Error a) body truncated headers (at_Duration a) (at_CreatedAt a).
Definition BoundResponse `{Unicode} (a : Attempt) : Attempt :=
  let t := storableText (at_ResponseBody a) MaxResponseBodyBytes in
  with_response (fst t) (at_ResponseTruncated a || snd t) (boundHeaders (at_ResponseHeaders a)) a.

(** ** Signatures and secrets ([sign.go], [secret.go]) *)

Definition signatureScheme : string := "v1=".
Definition Sign (secret timestamp body : string) : string :=
  signatureScheme ++ hex_EncodeToString (hmac_sha256 secret (timestamp ++ "." ++ body)).
(** The vector of [sign_test.go]. *)
Example Sign_vector :
  Sign "whsec_test" "1758153600" ("{" ++ quoted "a" ++ ":1}")
  = "v1=5d7a59cb9a5399806655f45f56c0139fbffdf766435435b0d7004e9d9ae115b1".
Proof. vm_compute. reflexivity. Qed.

Definition secretPrefix : string := "whsec_".
Definition slotPrimary : string := "primary".
Definition slotSecondary : string := "secondary".
(** [newSecret] of the 32 bytes it draws. *)
Definition secret_of (random : string) : string := secretPrefix ++ RawURL_EncodeToString random.
Definition secretAAD (endpointID : uuid) (slot : string) : string := "webhook:" ++ uuid_String endpointID ++ ":" ++ slot.
Definition sealSecret `{Sealer} (n : nat) (endpointID : uuid) (slot secret : string) : Error + string :=
  match Seal n secret (secretAAD endpointID slot) with
  | inl e => inl (EWrap "webhook.sealSecret" e)
  | inr sealed => inr sealed
  end.
Definition openSecret `{Sealer} (endpointID : uuid) (slot sealed : string) : Error + string :=
  match Open sealed (secretAAD endpointID slot) with
  | inl e => inl (EWrap "webhook.openSecret" e)
  | inr plain => inr plain
  end.
(** [Deliverer.openSecrets]: the primary, and the secondary while one is kept. *)
Definition openSecrets `{Sealer} (e : Endpoint) : Error + list string :=
  match openSecret (ep_ID e) slotPrimary (sx_Primary (ep_Secrets e)) with
  | inl err => inl (ESecretUnavailable err)
  | inr primary =>
    match sx_Secondary (ep_Secrets e) with
    | None | Some "" => inr [primary]
    | Some sealed =>
      match openSecret (ep_ID e) slotSecondary sealed with
      | inl err => inl (ESecretUnavailable err)
      | inr secondary => inr [primary; secondary]
      end
    end
  end.

(** ** Requests ([deliverer.go]) *)

Definition HeaderEventID : string := "X-Yasaku-Event-Id".
Definition HeaderEventType : string := "X-Yasaku-Event-Type".
Definition HeaderDeliveryID : string := "X-Yasaku-Delivery-Id".
Definition HeaderTimestamp : string := "X-Yasaku-Timestamp".
Definition HeaderSignature : string := "X-Yasaku-Signature".
Definition deliveryHeaders (e : Entry) (eventType : EventType) : list Header :=
  [mkHeader HeaderEventID (eventIDPrefix ++ uuid_String (ob_EventID e)); mkHeader HeaderEventType eventType;
   mkHeader HeaderDeliveryID (deliveryIDPrefix ++ uuid_String (ob_ID e)); mkHeader "Content-Type" "application/json";
   mkHeader "User-Agent" "Yasaku-Webhooks/1"].
Record HttpPost := mkHttpPost { hp_URL : string; hp_Headers : list Header; hp_Body : string }.
(** [Deliverer.post]'s request: signed with every secret of the endpoint. *)
Definition delivery_post (url : string) (e : Entry) (eventType : EventType) (secrets : list string) (now : Z) : HttpPost :=
  let timestamp := FormatInt (now / Second) in
  mkHttpPost url
    (deliveryHeaders e eventType
      ++ [mkHeader HeaderTimestamp timestamp;
          mkHeader HeaderSignature (Join (map (fun s => Sign s timestamp (ob_Payload e)) secrets) " ")])
    (ob_Payload e).
