(* ===== verification/Org.v ===== *)
(** * Organisations, memberships and projects ([internal/org/org.go], [internal/project/project.go], [slug/slug.go])

    The aggregates with their validation, the generated slugs, and who may remove a
    member. *)
From Stdlib Require Import ZArith Lia String Ascii List.
From stdpp Require Import base list strings.
From S2P Require Import Prelude GoStrings Errors.
Local Open Scope string_scope.

(** ** Roles and organisations *)
Definition Role : Type := string.
Definition RoleOwner : Role := "owner".
Definition RoleAdmin : Role := "admin".
Definition RoleMember : Role := "member".
Definition Role_IsValid (r : Role) : bool := existsb (String.eqb r) [RoleOwner; RoleAdmin; RoleMember].
Definition CanManage (r : Role) : bool := String.eqb r RoleOwner || String.eqb r RoleAdmin.

Record Org := mkOrg { og_ID : uuid; og_Slug : string; og_Name : string; og_OwnerID : uuid; og_CreatedAt : Z; og_System : bool }.
Record Membership := mkMembership { mb_OrgID : uuid; mb_UserID : uuid; mb_Role : Role; mb_CreatedAt : Z; mb_System : bool }.
#[global] Instance Org_eq_dec : EqDecision Org.
Proof. solve_decision. Defined.
#[global] Instance Membership_eq_dec : EqDecision Membership.
Proof. solve_decision. Defined.

Definition lower_alnum (c : ascii) : bool := in_range 97 122 c || in_range 48 57 c.
Definition slug_char (c : ascii) : bool := lower_alnum c || Ascii.eqb c "-"%char.
Definition last_char (c : ascii) (s : string) : ascii := List.last (list_ascii_of_string s) c.

Definition org_slugMinLen : nat := 3.
Definition org_slugMaxLen : nat := 64.
Definition org_nameMinLen : nat := 1.
Definition org_nameMaxLen : nat := 200.
(** [^[a-z0-9](?:[a-z0-9-]*[a-z0-9])?$] *)
Definition org_slugRe (s : string) : bool :=
  match s with
  | EmptyString => false
  | String c rest => lower_alnum c && all_chars slug_char rest && lower_alnum (last_char c rest)
  end.
Definition reservedSlug (s : string) : bool := String.eqb s "new".
Definition org_validateSlug (s : string) : option OrgError :=
  if (Nat.ltb (String.length s) org_slugMinLen || Nat.ltb org_slugMaxLen (String.length s))%bool
  then Some (OrgInvalidSlugError s "length out of range") else
  if negb (org_slugRe s) then Some (OrgInvalidSlugError s "must be lowercase alphanumeric with dashes") else
  if reservedSlug s then Some (OrgInvalidSlugError s "reserved word") else None.
Definition org_validateName (n : string) : option OrgError :=
  if (Nat.ltb (String.length n) org_nameMinLen || Nat.ltb org_nameMaxLen (String.length n))%bool
  then Some (OrgInvalidNameError "length out of range") else None.

(** [NewOrg], with the id and the clock reading it draws. *)
Definition NewOrg (id : uuid) (now : Z) (slug name : string) (ownerID : uuid) : OrgError + Org :=
  let s := TrimSpace slug in
  match org_validateSlug s with
  | Some e => inl e
  | None =>
    let n := TrimSpace name in
    match org_validateName n with
    | Some e => inl e
    | None => inr (mkOrg id s n ownerID now false)
    end
  end.
Definition Org_Rename (o : Org) (name : string) : OrgError + Org :=
  let n := TrimSpace name in
  match org_validateName n with
  | Some e => inl e
  | None => inr (mkOrg (og_ID o) (og_Slug o) n (og_OwnerID o) (og_CreatedAt o) (og_System o))
  end.
Definition org_set_system (o : Org) : Org :=
  mkOrg (og_ID o) (og_Slug o) (og_Name o) (og_OwnerID o) (og_CreatedAt o) true.
Definition NewMembership (now : Z) (orgID userID : uuid) (role : Role) : OrgError + Membership :=
  if negb (Role_IsValid role) then inl (InvalidRoleError role) else inr (mkMembership orgID userID role now false).
Definition member_set_system (m : Membership) : Membership :=
  mkMembership (mb_OrgID m) (mb_UserID m) (mb_Role m) (mb_CreatedAt m) true.

Definition RemovalRefusal (orgID actor target : uuid) (actorRole targetRole : Role) (system : bool) : option OrgError :=
  if system then Some (OrgSystemProtectedError "remove_member" (uuid_String orgID) (uuid_String target) "membership") else
  if N.eqb actor target then Some (SelfRemovalError (uuid_String orgID) (uuid_String target)) else
  if String.eqb targetRole RoleOwner && negb (String.eqb actorRole RoleOwner)
  then Some (OwnerRemovalError (uuid_String orgID) (uuid_String target)) else None.

(** ** Projects *)
Record Project := mkProject { pj_ID : uuid; pj_OrgID : uuid; pj_Slug : string; pj_Name : string; pj_CreatedAt : Z; pj_System : bool }.
#[global] Instance Project_eq_dec : EqDecision Project.
Proof. solve_decision. Defined.

Definition project_slugMinLen : nat := 1.
Definition project_slugMaxLen : nat := 63.
Definition project_nameMinLen : Z := 1.
Definition project_nameMaxLen : Z := 200.
(** [^[a-z0-9][a-z0-9-]*$] *)
Definition project_slugRe (s : string) : bool :=
  match s with EmptyString => false | String c rest => lower_alnum c && all_chars slug_char rest end.
Definition project_validateSlug (s : string) : option ProjectError :=
  if (Nat.ltb (String.length s) project_slugMinLen || Nat.ltb project_slugMaxLen (String.length s))%bool
  then Some (ProjectInvalidSlugError s "length out of range") else
  if negb (project_slugRe s) then Some (ProjectInvalidSlugError s "must be lowercase alphanumeric with dashes") else
  if reservedSlug s then Some (ProjectInvalidSlugError s "reserved word") else None.
Definition project_validateName (s : string) : ProjectError + string :=
  let n := TrimSpace s in
  if String.eqb n "" then inl (ProjectInvalidNameError "empty") else
  if ((RuneCountInString n <? project_nameMinLen) || (project_nameMaxLen <? RuneCountInString n))%Z
  then inl (ProjectInvalidNameError "length out of range") else inr n.
Definition Project_New (id : uuid) (now : Z) (orgID : uuid) (slug name : string) : ProjectError + Project :=
  match project_validateSlug slug with
  | Some e => inl e
  | None =>
    match project_validateName name with
    | inl e => inl e
    | inr n => inr (mkProject id orgID slug n now false)
    end
  end.
Definition Project_Rename (p : Project) (name : string) : ProjectError + Project :=
  match project_validateName name with
  | inl e => inl e
  | inr n => inr (mkProject (pj_ID p) (pj_OrgID p) (pj_Slug p) n (pj_CreatedAt p) (pj_System p))
  end.
Definition project_set_system (b : bool) (p : Project) : Project :=
  mkProject (pj_ID p) (pj_OrgID p) (pj_Slug p) (pj_Name p) (pj_CreatedAt p) b.

(** ** Generated slugs *)
Definition slug_MaxAttempts : nat := 5.
Definition suffixMin : Z := 1000.
Definition suffixMax : Z := 9999.
Definition adjectives : list string :=
  ["amber"; "ancient"; "autumn"; "bold"; "brave"; "breezy"; "bright"; "calm";
   "clear"; "cool"; "cosmic"; "crisp"; "curly"; "deep"; "dusty"; "eager";
   "early"; "fancy"; "fresh"; "gentle"; "glossy"; "golden"; "green"; "happy";
   "hidden"; "jolly"; "keen"; "lively"; "lunar"; "mellow"; "merry"; "misty";
   "neat"; "noble"; "polar"; "proud"; "quiet"; "rapid"; "rustic"; "silent";
   "silver"; "snowy"; "solar"; "spry"; "sunny"; "tidy"; "warm"; "wispy"].
Definition nouns : list string :=
  ["anchor"; "arbor"; "beacon"; "birch"; "bloom"; "breeze"; "brook"; "canyon";
   "cedar"; "cliff"; "cloud"; "comet"; "coral"; "cove"; "creek"; "delta";
   "dune"; "ember"; "fern"; "field"; "forest"; "frost"; "garden"; "glade";
   "glen"; "grove"; "harbor"; "haven"; "hill"; "island"; "lagoon"; "lake";
   "leaf"; "meadow"; "mesa"; "moss"; "oasis"; "orbit"; "pine"; "prairie";
   "reef"; "ridge"; "river"; "shore"; "spruce"; "summit"; "thicket"; "valley"].
(** [Generate], from its three draws of [rand.IntN]. *)
Definition Generate (a n : nat) (suffix : Z) : string :=
  List.nth (a mod List.length adjectives) adjectives "" ++ "-" ++ List.nth (n mod List.length nouns) nouns "" ++ "-"
  ++ FormatInt (suffixMin + suffix mod (suffixMax - suffixMin + 1)).
Definition Combinations : Z := Z.of_nat (List.length adjectives) * Z.of_nat (List.length nouns) * (suffixMax - suffixMin + 1).
