(* ===== verification/ApiKey.v ===== *)
(** * API keys ([internal/apikey/apikey.go], [internal/platform/authn], [internal/platform/session/reach.go])

    The catalog of scopes, the key aggregate with its mints and its grants, the
    shape of a credential, and what a principal reaches. *)
From Stdlib Require Import ZArith Lia String Ascii List.
From stdpp Require Import base list strings.
From S2P Require Import Prelude GoStrings Errors Encoding.
Local Open Scope string_scope.
Local Open Scope Z_scope.

(** ** Scopes *)
Definition ScopeAPIKeysRead : string := "apikeys:read".
Definition ScopeAPIKeysWrite : string := "apikeys:write".
Definition ScopeMembersRead : string := "members:read".
Definition ScopeYasakuRead : string := "yasaku:read".
Definition ScopeYasakuWrite : string := "yasaku:write".

Definition ScopeLevel : Type := string.
Definition LevelProject : ScopeLevel := "project".
Definition LevelOrg : ScopeLevel := "org".
Record scopeSpec := mkScope { sc_name : string; sc_level : ScopeLevel; sc_retired : bool }.
Definition catalog : list scopeSpec :=
  [mkScope ScopeYasakuRead LevelProject false; mkScope ScopeYasakuWrite LevelProject false;
   mkScope ScopeAPIKeysRead LevelProject false; mkScope ScopeAPIKeysWrite LevelProject true;
   mkScope ScopeMembersRead LevelOrg false].
Definition AllScopes : list string := map sc_name catalog.
Definition MintableScopes : list string := map sc_name (List.filter (fun s => negb (sc_retired s)) catalog).
Definition ValidScope (scope : string) : bool := existsb (fun s => String.eqb (sc_name s) scope) catalog.
Definition Mintable (scope : string) : bool := existsb (String.eqb scope) MintableScopes.
Definition LevelOf (scope : string) : option ScopeLevel :=
  option_map sc_level (List.find (fun s => String.eqb (sc_name s) scope) catalog).
Definition level_is (l : ScopeLevel) (scope : string) : bool :=
  match LevelOf scope with Some l' => String.eqb l' l | None => false end.

(** ** The shape of a credential *)
Inductive Shape := ShapeUnknown | ShapeAPIKey | ShapeJWT | ShapePersonalToken.
Fixpoint count_char (c : ascii) (s : string) : nat :=
  match s with
  | EmptyString => 0
  | String d s' => (if Ascii.eqb d c then 1 else 0) + count_char c s'
  end%nat.
(** [authn.Scheme.Looks], by the scheme's two prefixes. *)
Definition Looks (prefix tokenPrefix raw : string) : Shape :=
  if String.eqb raw "" then ShapeUnknown else
  if negb (String.eqb prefix "") && HasPrefix raw prefix then ShapeAPIKey else
  if negb (String.eqb tokenPrefix "") && HasPrefix raw tokenPrefix then ShapePersonalToken else
  if Nat.eqb (count_char "."%char raw) 2 && Nat.eqb (count_char " "%char raw) 0 && Nat.eqb (count_char (ascii_of_N 9) raw) 0
  then ShapeJWT else ShapeUnknown.

Definition DefaultPrefix : string := "key_".
Definition secretBytes : nat := 32.
(** [apikey.Scheme], its one field. *)
Definition Scheme : Type := string.
Definition Prefix (sc : Scheme) : string := if String.eqb sc "" then DefaultPrefix else sc.
(** [Scheme.Authn().Looks]: no token prefix. *)
Definition looks_key (sc : Scheme) (raw : string) : bool :=
  match Looks (Prefix sc) "" raw with ShapeAPIKey => true | _ => false end.

(** ** Keys *)
Definition Kind : Type := string.
Definition KindProject : Kind := "project".
Definition KindOrg : Kind := "org".
Definition KindPersonal : Kind := "personal".
Definition secretHintLen : nat := 4.
(** 366 days, in nanoseconds. *)
Definition MaxLifetime : Z := 366 * 24 * 3600 * 1000000000.

Record ProjectGrant := mkGrant { pg_All : bool; pg_ProjectIDs : list uuid }.
Record APIKey := mkKey {
  ak_ID : uuid; ak_OrgID : uuid; ak_ProjectID : uuid; ak_Kind : Kind; ak_AllProjects : bool; ak_ProjectIDs : list uuid;
  ak_Name : string; ak_SecretHash : string; ak_SecretHint : string; ak_Scopes : list string; ak_ResourceIDs : list uuid;
  ak_CreatedBy : uuid; ak_CreatedAt : Z; ak_ExpiresAt : option Z; ak_RevokedAt : option Z; ak_LastUsedAt : option Z
}.
#[global] Instance APIKey_eq_dec : EqDecision APIKey.
Proof. solve_decision. Defined.

Definition set_binding (kind : Kind) (projectID : uuid) (all_ : bool) (ids resources : list uuid) (k : APIKey) : APIKey :=
  mkKey (ak_ID k) (ak_OrgID k) projectID kind all_ ids (ak_Name k) (ak_SecretHash k) (ak_SecretHint k) (ak_Scopes k)
    resources (ak_CreatedBy k) (ak_CreatedAt k) (ak_ExpiresAt k) (ak_RevokedAt k) (ak_LastUsedAt k).
Definition set_createdBy (u : uuid) (k : APIKey) : APIKey :=
  mkKey (ak_ID k) (ak_OrgID k) (ak_ProjectID k) (ak_Kind k) (ak_AllProjects k) (ak_ProjectIDs k) (ak_Name k) (ak_SecretHash k)
    (ak_SecretHint k) (ak_Scopes k) (ak_ResourceIDs k) u (ak_CreatedAt k) (ak_ExpiresAt k) (ak_RevokedAt k) (ak_LastUsedAt k).
Definition set_grant (all_ : bool) (ids : list uuid) (k : APIKey) : APIKey :=
  set_binding (ak_Kind k) (ak_ProjectID k) all_ ids (ak_ResourceIDs k) k.
Definition set_times (revoked used : option Z) (k : APIKey) : APIKey :=
  mkKey (ak_ID k) (ak_OrgID k) (ak_ProjectID k) (ak_Kind k) (ak_AllProjects k) (ak_ProjectIDs k) (ak_Name k) (ak_SecretHash k)
    (ak_SecretHint k) (ak_Scopes k) (ak_ResourceIDs k) (ak_CreatedBy k) (ak_CreatedAt k) (ak_ExpiresAt k) revoked used.

Definition validateLifetime (expiresAt : option Z) (now : Z) : option APIKeyError :=
  match expiresAt with
  | None => Some ExpiryRequiredError
  | Some e => if negb (now <? e) then Some ExpiryInPastError else if MaxLifetime <? e - now then Some ExpiryTooLongError else None
  end.
Definition grant_validate (g : ProjectGrant) : option APIKeyError :=
  if pg_All g && negb (Nat.eqb (List.length (pg_ProjectIDs g)) 0) then Some GrantConflictError else
  if negb (pg_All g) && Nat.eqb (List.length (pg_ProjectIDs g)) 0 then Some EmptyGrantError else None.

Definition dedupe (ids : list uuid) : list uuid :=
  fold_left (fun out id => if negb (N.eqb id uuid_Nil) && negb (existsb (N.eqb id) out) then (out ++ [id])%list else out) ids [].

Definition sha256 (s : string) : string := of_bytes (sha256_bytes (bytes s)).

(** The first scope outside the catalog, and the first one above a project's. *)
Definition unknown_scope (scopes : list string) : option APIKeyError :=
  option_map UnknownScopeError (List.find (fun s => negb (ValidScope s)) scopes).
Definition org_scope (scopes : list string) : option APIKeyError :=
  option_map ScopeLevelError
    (List.find (fun s => match LevelOf s with Some l => negb (String.eqb l LevelProject) | None => false end) scopes).
(** The key [Scheme.mint] builds, from the random bytes and the id it draws. *)
Definition new_key (sc : Scheme) (random : string) (id orgID : uuid) (name : string) (scopes : list string)
    (expiresAt : option Z) (now : Z) : APIKey * string :=
  let plaintext := (Prefix sc ++ RawURL_EncodeToString random)%string in
  (mkKey id orgID uuid_Nil "" false [] name (sha256 plaintext)
     (drop_str (String.length plaintext - secretHintLen) plaintext) scopes [] uuid_Nil now expiresAt None None, plaintext).

Definition HasGrant (k : APIKey) : bool := String.eqb (ak_Kind k) KindOrg || String.eqb (ak_Kind k) KindPersonal.
Definition promotable (k : APIKey) : option APIKeyError :=
  if negb (HasGrant k) then Some BoundToProjectError else
  match ak_RevokedAt k with Some _ => Some RevokedError | None => None end.
Definition key_GrantProjects (k : APIKey) (projectIDs : list uuid) : APIKeyError + APIKey :=
  match promotable k with
  | Some e => inl e
  | None =>
    if ak_AllProjects k then inl AlreadyAllProjectsError else
    if Nat.eqb (List.length projectIDs) 0 then inl EmptyGrantError
    else inr (set_grant false (dedupe (ak_ProjectIDs k ++ projectIDs)) k)
  end.
Definition key_GrantAllProjects (k : APIKey) : APIKeyError + APIKey :=
  match promotable k with
  | Some e => inl e
  | None => if ak_AllProjects k then inl AlreadyAllProjectsError else inr (set_grant true [] k)
  end.
Definition ReachableProjects (k : APIKey) : list uuid := if HasGrant k then ak_ProjectIDs k else [ak_ProjectID k].
Definition Matches (k : APIKey) (plaintext : string) : bool := String.eqb (sha256 plaintext) (ak_SecretHash k).
Definition Usable (k : APIKey) (now : Z) : bool :=
  negb (match ak_RevokedAt k with Some r => negb (now <? r) | None => false end)
  && negb (match ak_ExpiresAt k with Some e => negb (now <? e) | None => false end).

(** ** Principals *)
Definition SourceAPIKey : string := "apikey".
(** The fields of [session.Principal] a key's principal fills. *)
Record KeyPrincipal := mkKeyPrincipal {
  kp_UserID : uuid; kp_KeyID : uuid; kp_Name : string; kp_Source : string; kp_Scopes : list string;
  kp_ActiveOrgID : uuid; kp_ActiveProjectID : uuid; kp_ProjectIDs : list uuid; kp_AllProjects : bool;
  kp_ResourceIDs : list uuid; kp_IssuedAt : Z
}.
Definition ReachesProject (p : KeyPrincipal) (orgID projectID : uuid) : bool :=
  if N.eqb orgID uuid_Nil || negb (N.eqb orgID (kp_ActiveOrgID p)) then false else
  if negb (String.eqb (kp_Source p) SourceAPIKey) || kp_AllProjects p then true else existsb (N.eqb projectID) (kp_ProjectIDs p).
Definition ReachesWholeProject (p : KeyPrincipal) (orgID projectID : uuid) : bool :=
  ReachesProject p orgID projectID && Nat.eqb (List.length (kp_ResourceIDs p)) 0.
Definition ReachesResource (p : KeyPrincipal) (orgID projectID resourceID : uuid) : bool :=
  if negb (ReachesProject p orgID projectID) then false
  else Nat.eqb (List.length (kp_ResourceIDs p)) 0 || existsb (N.eqb resourceID) (kp_ResourceIDs p).
Definition principalFor (k : APIKey) : KeyPrincipal :=
  mkKeyPrincipal uuid_Nil (ak_ID k) (ak_Name k) SourceAPIKey (ak_Scopes k) (ak_OrgID k) (ak_ProjectID k) (ReachableProjects k)
    (ak_AllProjects k) (ak_ResourceIDs k) (ak_CreatedAt k).
