(* ===== verification/Password.v ===== *)
(** * Password hashes ([internal/password/hasher.go])

    Argon2id hashes in their text form: how a hash is written, how it is read back with
    [fmt.Sscanf] and base64, and that a password verifies against its own hash. Argon2 is a
    class parameter. *)
From Stdlib Require Import ZArith Lia String Ascii List.
From stdpp Require Import base list strings.
From S2P Require Import Prelude GoStrings Errors Encoding.
Local Open Scope string_scope.
Local Open Scope Z_scope.

(** [argon2.IDKey] of a password, a salt, the time, the memory, the threads and the key's
    length; [None] when it panics. *)
Class Argon2 := IDKey : string -> string -> Z -> Z -> Z -> Z -> option string.

Definition defaultMemoryKiB : Z := 19456.
Definition defaultTime : Z := 2.
Definition defaultThreads : Z := 1.
Definition saltLen : nat := 16.
Definition keyLen : Z := 32.
Definition argon2_Version : Z := 19.

(** ** Reading ([fmt.Sscanf], [strings.Split]) *)

(** [strings.Split] at one byte. *)
Fixpoint split_byte (c : ascii) (s : string) : list string :=
  match s with
  | "" => [""]
  | String x rest =>
    if Ascii.eqb x c then "" :: split_byte c rest else
    match split_byte c rest with [] => [String x ""] | p :: ps => String x p :: ps end
  end.
(** [SkipSpace]: white space is passed over, a line end is an error. *)
Fixpoint skip_space (fuel : nat) (s : string) : option string :=
  match fuel with
  | O => Some s
  | S fuel =>
    match decode_rune s with
    | None => Some s
    | Some (r, _, rest) => if N.eqb r 10 then None else if IsSpace r then skip_space fuel rest else Some s
    end
  end.
Fixpoint take_digits (s : string) : string * string :=
  match s with
  | "" => ("", "")
  | String c rest => if is_digit c then let '(d, r) := take_digits rest in (String c d, r) else ("", s)
  end.
Definition take_sign (s : string) : bool * string :=
  match s with
  | String c rest => if Ascii.eqb c "-" then (true, rest) else if Ascii.eqb c "+" then (false, rest) else (false, s)
  | "" => (false, "")
  end.
(** The number a [%d] reads, within its bounds, and what is left. *)
Definition scan_digits (lo hi : Z) (negative : bool) (s : string) : option (Z * string) :=
  let '(d, rest) := take_digits s in
  if String.eqb d "" then None else
  let v := if negative then - parse_digits 0 d else parse_digits 0 d in
  if (lo <=? v) && (v <=? hi) then Some (v, rest) else None.
Definition scan_int (s : string) : option (Z * string) :=
  match skip_space (String.length s) s with
  | Some s => let '(neg, s) := take_sign s in scan_digits min_int64 max_int64 neg s
  | None => None
  end.
Definition scan_uint (bits : Z) (s : string) : option (Z * string) :=
  match skip_space (String.length s) s with Some s => scan_digits 0 (2 ^ bits - 1) false s | None => None end.
Definition scan_text (lit s : string) : option string := if HasPrefix s lit then Some (TrimPrefix s lit) else None.
(** [Sscanf] of ["v=%d"]. *)
Definition scan_version (s : string) : option Z :=
  match scan_text "v=" s with Some s => option_map fst (scan_int s) | None => None end.
(** [Sscanf] of ["m=%d,t=%d,p=%d"]. *)
Definition scan_params (s : string) : option (Z * Z * Z) :=
  match scan_text "m=" s with
  | None => None
  | Some s =>
    match scan_uint 32 s with
    | None => None
    | Some (m, s) =>
      match scan_text ",t=" s with
      | None => None
      | Some s =>
        match scan_uint 32 s with
        | None => None
        | Some (t, s) =>
          match scan_text ",p=" s with
          | None => None
          | Some s => match scan_uint 8 s with Some (p, _) => Some (m, t, p) | None => None end
          end
        end
      end
    end
  end.

(** ** The hash's text *)
Record PHC := mkPHC { ph_Memory : Z; ph_Time : Z; ph_Threads : Z; ph_Salt : string; ph_Key : string }.
Definition password_encode (h : PHC) : string :=
  "$argon2id$v=" ++ FormatInt argon2_Version ++ "$m=" ++ FormatInt (ph_Memory h) ++ ",t=" ++ FormatInt (ph_Time h)
    ++ ",p=" ++ FormatInt (ph_Threads h) ++ "$" ++ RawStd_EncodeToString (ph_Salt h) ++ "$" ++ RawStd_EncodeToString (ph_Key h).
Definition password_decode (hash : string) : option PHC :=
  match split_byte "$" hash with
  | [_; alg; version; params; salt; key] =>
    if negb (String.eqb alg "argon2id") then None else
    match scan_version version with
    | None => None
    | Some v =>
      if negb (v =? argon2_Version) then None else
      match scan_params params, RawStd_DecodeString salt, RawStd_DecodeString key with
      | Some (m, t, p), Some salt, Some key => Some (mkPHC m t p salt key)
      | _, _, _ => None
      end
    end
  | _ => None
  end.

(** ** Hashing and verifying *)
Inductive Verdict := VerifyOK | ErrMismatch | ErrInvalidHash | VerifyPanics.
Section Hasher.
Context `{Argon2}.

(** [Hash], from the draw of its salt. *)
Definition password_Hash `{RandRead} {W} (draw : nat) (plain : string) : ST W Error string :=
  match rand_Read draw saltLen with
  | inl e => st_err (EWrap "password: read salt" e)
  | inr salt =>
    match IDKey plain salt defaultTime defaultMemoryKiB defaultThreads keyLen with
    | None => st_panic "argon2"
    | Some key => st_ret (password_encode (mkPHC defaultMemoryKiB defaultTime defaultThreads salt key))
    end
  end.
Definition password_Verify (hash plain : string) : Verdict :=
  match password_decode hash with
  | None => ErrInvalidHash
  | Some h =>
    match IDKey plain (ph_Salt h) (ph_Time h) (ph_Memory h) (ph_Threads h) (Z.of_nat (String.length (ph_Key h)) mod 2 ^ 32) with
    | None => VerifyPanics
    | Some other => if String.eqb (ph_Key h) other then VerifyOK else ErrMismatch
    end
  end.
End Hasher.

(** ** What is written is read back *)

Definition free_of (c : ascii) : string -> bool := all_chars (fun x => negb (Ascii.eqb x c)).
Lemma base64_free_of s : free_of "$" (RawStd_EncodeToString s) = true.
Proof.
  unfold RawStd_EncodeToString. generalize (base64_free _ (bytes_small s)). generalize (base64_groups std_chr (bytes s)).
  induction l as [|c l IH]; intros Hl; [reflexivity|]. apply Forall_cons in Hl as [Hc Hl]. unfold free_of in *. cbn.
  rewrite (IH Hl), andb_true_r. apply negb_true_iff, Ascii.eqb_neq, Hc.
Qed.
Lemma split_byte_free c s rest : free_of c s = true -> split_byte c (s ++ String c rest) = s :: split_byte c rest.
Proof.
  unfold free_of. induction s as [|x s IH]; cbn; [rewrite Ascii.eqb_refl; reflexivity|].
  intros [Hx Hs]%andb_prop. apply negb_true_iff in Hx. rewrite Hx, (IH Hs). reflexivity.
Qed.
Lemma split_byte_last c s : free_of c s = true -> split_byte c s = [s].
Proof.
  unfold free_of. induction s as [|x s IH]; cbn; [reflexivity|]. intros [Hx Hs]%andb_prop. apply negb_true_iff in Hx.
  rewrite Hx, (IH Hs). reflexivity.
Qed.
Lemma encode_split salt key :
  split_byte "$" (password_encode (mkPHC defaultMemoryKiB defaultTime defaultThreads salt key))
  = [""; "argon2id"; "v=19"; "m=19456,t=2,p=1"; RawStd_EncodeToString salt; RawStd_EncodeToString key].
Proof.
  assert (E : password_encode (mkPHC defaultMemoryKiB defaultTime defaultThreads salt key)
    = "" ++ String "$" ("argon2id" ++ String "$" ("v=19" ++ String "$" ("m=19456,t=2,p=1" ++ String "$"
        (RawStd_EncodeToString salt ++ String "$" (RawStd_EncodeToString key)))))).
  { unfold password_encode. cbn [ph_Memory ph_Time ph_Threads ph_Salt ph_Key].
    assert (E1 : FormatInt argon2_Version = "19") by (vm_compute; reflexivity).
    assert (E2 : FormatInt defaultMemoryKiB = "19456") by (vm_compute; reflexivity).
    assert (E3 : FormatInt defaultTime = "2") by (vm_compute; reflexivity).
    assert (E4 : FormatInt defaultThreads = "1") by (vm_compute; reflexivity).
    rewrite E1, E2, E3, E4. reflexivity. }
  rewrite E, !split_byte_free by first [reflexivity | apply base64_free_of].
  rewrite split_byte_last by apply base64_free_of. reflexivity.
Qed.
Lemma decode_encode salt key :
  password_decode (password_encode (mkPHC defaultMemoryKiB defaultTime defaultThreads salt key))
  = Some (mkPHC defaultMemoryKiB defaultTime defaultThreads salt key).
Proof.
  unfold password_decode. rewrite encode_split. cbn [String.eqb negb].
  assert (E1 : scan_version "v=19" = Some argon2_Version) by (vm_compute; reflexivity).
  assert (E2 : scan_params "m=19456,t=2,p=1" = Some (defaultMemoryKiB, defaultTime, defaultThreads)) by (vm_compute; reflexivity).
  rewrite E1, E2, !RawStd_roundtrip, Z.eqb_refl. reflexivity.
Qed.

(** ** Verification *)
(** What the derivation is documented to do within its bounds: it gives a key of the length
    asked for. *)
Definition derives `{Argon2} : Prop := forall plain salt, exists key,
  IDKey plain salt defaultTime defaultMemoryKiB defaultThreads keyLen = Some key /\ Z.of_nat (String.length key) = keyLen.

(** C0: A password verifies against a hash made of it, and another password verifies against
    that hash exactly when Argon2 derives the same key from it. *)
Theorem password_verifies `{Argon2, RandRead} {W} (draw : nat) (plain hash : string) (w w' : W) :
  derives -> password_Hash draw plain w = (Ok hash, w') ->
  password_Verify hash plain = VerifyOK
  /\ exists salt, rand_Read draw saltLen = inr salt
     /\ forall other, password_Verify hash other = VerifyOK
          <-> IDKey other salt defaultTime defaultMemoryKiB defaultThreads keyLen
              = IDKey plain salt defaultTime defaultMemoryKiB defaultThreads keyLen.
Proof.
  intros Hd. unfold password_Hash. destruct (rand_Read draw saltLen) as [e|salt] eqn:Es; [discriminate|].
  destruct (Hd plain salt) as (key & Ek & Lk). rewrite Ek. intros [= <- <-].
  assert (Hv : forall other, password_Verify (password_encode (mkPHC defaultMemoryKiB defaultTime defaultThreads salt key)) other
    = match IDKey other salt defaultTime defaultMemoryKiB defaultThreads keyLen with
      | None => VerifyPanics | Some o => if String.eqb key o then VerifyOK else ErrMismatch end).
  { intros other. unfold password_Verify. rewrite decode_encode. cbn [ph_Memory ph_Time ph_Threads ph_Salt ph_Key].
    rewrite Lk. reflexivity. }
  split; [rewrite Hv, Ek, String.eqb_refl; reflexivity|]. exists salt. split; [reflexivity|]. intros other. rewrite Hv, Ek.
  destruct (Hd other salt) as (o & -> & _). destruct (String.eqb_spec key o) as [->|Hne]; split; congruence.
Qed.

(** A derivation for the witness: the password and the salt, padded. *)
Definition demo_argon2 : Argon2 := fun plain salt _ _ _ k =>
  Some (of_bytes (firstn (Z.to_nat k) (bytes (plain ++ salt) ++ repeat 0%N (Z.to_nat k))%list)).
Definition demo_read : RandRead := fun draw n => inr (of_bytes (map (fun i => N.of_nat (draw + i)) (seq 0 n))).
Lemma demo_derives : @derives demo_argon2.
Proof.
  intros plain salt. eexists. split; [reflexivity|]. unfold of_bytes.
  assert (L : forall l, String.length (string_of_list_ascii l) = List.length l) by (induction l; cbn; congruence).
  rewrite L, length_map, length_firstn, length_app, repeat_length. change (Z.to_nat keyLen) with 32%nat.
  change keyLen with (Z.of_nat 32). f_equal. lia.
Qed.
Lemma password_verifies_witness :
  let hash := match fst (@password_Hash demo_argon2 demo_read unit 7 "secret12" tt) with Ok h => h | _ => "" end in
  @password_Verify demo_argon2 hash "secret12" = VerifyOK.
Proof.
  exact (proj1 (@password_verifies demo_argon2 demo_read unit 7 "secret12" _ tt tt demo_derives eq_refl)).
Defined.
