(* ===== verification/Account.v ===== *)
(** * Accounts: users, invites, onboarding and signed-in principals
    ([internal/user/user.go], [internal/invite/invite.go], [internal/onboard/onboard.go],
    [nanoid/nanoid.go], [mailer/mailer.go],
    [internal/platform/session/session.go])

    The aggregates with their validation, the hash of an invite's token,
    what a mail says, and the principal of a request. *)
From Stdlib Require Import ZArith Lia String Ascii List.
From stdpp Require Import base list strings.
From S2P Require Import Prelude GoStrings Errors Encoding Civil Ledger Org ApiKey.
Local Open Scope string_scope.
Local Open Scope Z_scope.

(** ** Strings *)

(** [strings.IndexByte]. *)
Fixpoint IndexByte (s : string) (c : ascii) : option nat :=
  match s with
  | "" => None
  | String x rest => if Ascii.eqb x c then Some O else option_map S (IndexByte rest c)
  end.
(** [strings.TrimRight] with one byte for its cutset. *)
Fixpoint TrimRightByte (c : ascii) (s : string) : string :=
  match s with
  | "" => ""
  | String x rest =>
    let t := TrimRightByte c rest in if String.eqb t "" && Ascii.eqb x c then "" else String x t
  end.
(** The case-folding orbits above ASCII, as Go's [unicode.SimpleFold] walks them. *)
Class Folding := same_fold : N -> N -> bool.
Definition ascii_fold (a b : N) : bool := (65 <=? a)%N && (a <=? 90)%N && (b =? a + 32)%N.
Definition rune_fold `{Folding} (a b : N) : bool :=
  (a =? b)%N || (if (N.max a b <? 128)%N then ascii_fold a b || ascii_fold b a else same_fold a b).
Fixpoint fold_all `{Folding} (l m : list (N * string)) : bool :=
  match l, m with
  | [], [] => true
  | (a, _) :: l, (b, _) :: m => rune_fold a b && fold_all l m
  | _, _ => false
  end.
(** [strings.EqualFold]. *)
Definition EqualFold `{Folding} (s t : string) : bool := fold_all (runes s) (runes t).

(** ** Users *)
Definition SourceGenesis : string := "genesis".
Definition SourceOIDC : string := "oidc".
Definition SourceLocal : string := "local".

Record User := mkUser {
  usr_ID : uuid; usr_Email : string; usr_Name : string; usr_Source : string; usr_IDPIssuer : string; usr_IDPSubject : string;
  usr_PasswordHash : string; usr_IsAdmin : bool; usr_Locale : string; usr_TermsAcceptedAt : option Z; usr_CreatedAt : Z
}.
#[global] Instance User_eq_dec : EqDecision User.
Proof. solve_decision. Defined.
Definition user_set_name (n : string) (u : User) : User :=
  mkUser (usr_ID u) (usr_Email u) n (usr_Source u) (usr_IDPIssuer u) (usr_IDPSubject u) (usr_PasswordHash u) (usr_IsAdmin u)
    (usr_Locale u) (usr_TermsAcceptedAt u) (usr_CreatedAt u).
Definition user_set_email (e : string) (u : User) : User :=
  mkUser (usr_ID u) e (usr_Name u) (usr_Source u) (usr_IDPIssuer u) (usr_IDPSubject u) (usr_PasswordHash u) (usr_IsAdmin u)
    (usr_Locale u) (usr_TermsAcceptedAt u) (usr_CreatedAt u).
Definition user_set_idp (issuer subject : string) (u : User) : User :=
  mkUser (usr_ID u) (usr_Email u) (usr_Name u) (usr_Source u) issuer subject (usr_PasswordHash u) (usr_IsAdmin u)
    (usr_Locale u) (usr_TermsAcceptedAt u) (usr_CreatedAt u).
Definition user_set_hash (h : string) (u : User) : User :=
  mkUser (usr_ID u) (usr_Email u) (usr_Name u) (usr_Source u) (usr_IDPIssuer u) (usr_IDPSubject u) h (usr_IsAdmin u)
    (usr_Locale u) (usr_TermsAcceptedAt u) (usr_CreatedAt u).
Definition user_set_admin (u : User) : User :=
  mkUser (usr_ID u) (usr_Email u) (usr_Name u) (usr_Source u) (usr_IDPIssuer u) (usr_IDPSubject u) (usr_PasswordHash u) true
    (usr_Locale u) (usr_TermsAcceptedAt u) (usr_CreatedAt u).
(** [User.AcceptTerms]. *)
Definition User_AcceptTerms (now : Z) (u : User) : User :=
  mkUser (usr_ID u) (usr_Email u) (usr_Name u) (usr_Source u) (usr_IDPIssuer u) (usr_IDPSubject u) (usr_PasswordHash u) (usr_IsAdmin u)
    (usr_Locale u) (Some now) (usr_CreatedAt u).

Section Users.
Context `{Unicode}.

Definition lower_trim (s : string) : string := ToLower (TrimSpace s).
Definition NormalizeEmail (s : string) : UserError + string :=
  let e := lower_trim s in
  if String.eqb e "" then inl (UserInvalidEmailError "empty" "") else
  match IndexByte e "@" with
  | Some (S at_) => if Nat.eqb (S at_) (String.length e - 1) then inl (UserInvalidEmailError "malformed" s) else inr e
  | _ => inl (UserInvalidEmailError "malformed" s)
  end.
Definition normalizeName (s : string) : UserError + string :=
  let n := TrimSpace s in if String.eqb n "" then inl (UserInvalidNameError "empty") else inr n.
Definition defaultNameFromEmail (email : string) : string :=
  let e := TrimSpace email in
  match IndexByte e "@" with
  | None => e
  | Some at_ =>
    let local := TrimSpace (substring 0 at_ e) in
    if String.eqb local "" then e else local
  end.
(** [New], with the id and the clock reading it draws. *)
Definition User_New (id : uuid) (now : Z) (email name source : string) : UserError + User :=
  match NormalizeEmail email with
  | inl e => inl e
  | inr e =>
    match normalizeName name with
    | inl e => inl e
    | inr n =>
      let s := TrimSpace source in
      inr (mkUser id e n (if String.eqb s "" then SourceGenesis else s) "" "" "" false "" None now)
    end
  end.
Definition User_Rename (u : User) (name : string) : UserError + User :=
  match normalizeName name with inl e => inl e | inr n => inr (user_set_name n u) end.
Definition User_ChangeEmail (u : User) (email : string) : UserError + User :=
  match NormalizeEmail email with inl e => inl e | inr e => inr (user_set_email e u) end.
End Users.

(** [sourceFrom]: a row names no source, so it is told from what the row holds. *)
Definition sourceFrom (isAdmin hasIDPIssuer hasPassword : bool) : string :=
  if hasIDPIssuer then SourceOIDC else
  if hasPassword then SourceLocal else
  if isAdmin then SourceGenesis else SourceGenesis.

(** A row of [users]: NULL where the user has no identity provider. *)
Record UserRow := mkUserRow {
  ur_ID : uuid; ur_Email : string; ur_Name : string; ur_IsAdmin : bool; ur_IDPIssuer : option string; ur_IDPSubject : option string;
  ur_PasswordHash : string; ur_Locale : string; ur_TermsAcceptedAt : option Z; ur_CreatedAt : Z
}.
#[global] Instance UserRow_eq_dec : EqDecision UserRow.
Proof. solve_decision. Defined.
Definition null_text (s : string) : option string := if String.eqb s "" then None else Some s.
Definition text_or (o : option string) : string := match o with Some s => s | None => "" end.
Definition toUser (r : UserRow) : User :=
  let issuer := text_or (ur_IDPIssuer r) in
  mkUser (ur_ID r) (ur_Email r) (ur_Name r)
    (sourceFrom (ur_IsAdmin r) (negb (String.eqb issuer "")) (negb (String.eqb (ur_PasswordHash r) "")))
    issuer (text_or (ur_IDPSubject r)) (ur_PasswordHash r) (ur_IsAdmin r) (ur_Locale r) (ur_TermsAcceptedAt r) (ur_CreatedAt r).
(** The row [Save] writes. *)
Definition saved_admin (u : User) : bool :=
  usr_IsAdmin u || String.eqb (usr_Source u) SourceGenesis || String.eqb (usr_Source u) SourceLocal.
Definition to_row (u : User) (created : Z) : UserRow :=
  mkUserRow (usr_ID u) (usr_Email u) (usr_Name u) (saved_admin u) (null_text (usr_IDPIssuer u)) (null_text (usr_IDPSubject u))
    (usr_PasswordHash u) (usr_Locale u) (usr_TermsAcceptedAt u) created.

(** ** Invites *)
Record Invite := mkInvite {
  iv_ID : uuid; iv_OrgID : uuid; iv_Email : string; iv_Role : Role; iv_TokenHash : string; iv_ExpiresAt : Z;
  iv_UsedAt : option Z; iv_CreatedAt : Z
}.
#[global] Instance Invite_eq_dec : EqDecision Invite.
Proof. solve_decision. Defined.
Definition invite_set_used (at_ : option Z) (i : Invite) : Invite :=
  mkInvite (iv_ID i) (iv_OrgID i) (iv_Email i) (iv_Role i) (iv_TokenHash i) (iv_ExpiresAt i) at_ (iv_CreatedAt i).
(** The address parser of [net/mail]: the display name and the address of a text it takes. *)
Class MailAddresses := ParseAddress : string -> option (string * string).
Definition invite_normalizeEmail `{Unicode, MailAddresses} (s : string) : InviteError + string :=
  let e := lower_trim s in
  if String.eqb e "" then inl (InviteInvalidEmailError "empty" "") else
  match ParseAddress e with
  | Some (name, address) =>
    if negb (String.eqb name "") || negb (String.eqb address e) then inl (InviteInvalidEmailError "malformed" s) else inr address
  | None => inl (InviteInvalidEmailError "malformed" s)
  end.
Definition HashToken (raw : string) : string := hex_EncodeToString (sha256 raw).
(** [New], with the id it draws; the clock reading it is given is never the zero time. *)
Definition Invite_New `{Unicode, MailAddresses} (id orgID : uuid) (email : string) (role : Role) (ttl : Z) (token : string) (now : Z)
    : InviteError + Invite :=
  if negb (Role_IsValid role) then inl (InviteInvalidRoleError role) else
  match invite_normalizeEmail email with
  | inl e => inl e
  | inr e => inr (mkInvite id orgID e role (HashToken token) (now + ttl) None now)
  end.
Definition IsExpired (i : Invite) (now : Z) : bool := iv_ExpiresAt i <? now.
Definition IsUsed (i : Invite) : bool := match iv_UsedAt i with Some _ => true | None => false end.
Definition Consume (i : Invite) (now : Z) : InviteError + Invite :=
  if IsUsed i then inl (AlreadyUsedError (uuid_String (iv_ID i))) else
  if IsExpired i now then inl (InviteExpiredError (uuid_String (iv_ID i))) else
  inr (invite_set_used (Some now) i).

(** [nanoid.New]: the draw's pool is twice as long as the text, and every byte of it gives a character. *)
Definition nanoid_alphabet : string := "abcdefghijklmnopqrstuvwxyzABCDEFGHIJKLMNOPQRSTUVWXYZ0123456789-_".
Definition nanoid_chr (b : N) : ascii :=
  match String.get (N.to_nat (N.land b 63)) nanoid_alphabet with Some c => c | None => "a"%char end.
Definition nanoid_of (length : nat) (pool : string) : string :=
  string_of_list_ascii (map nanoid_chr (firstn length (bytes pool))).
Definition invite_token_len : nat := 32.
Definition DefaultTTL : Z := 7 * 24 * 3600 * 1000000000.

(** ** Mail *)
Record Mail := mkMail { ml_To : string; ml_Subject : string; ml_TextBody : string }.
(** A driver of the [mailer]: the error it answers to the n-th message. *)
Class Mailer := mail_answer : nat -> Mail -> option string.
Definition newline : string := String (ascii_of_nat 10) "".
Definition invite_mail (baseURL raw : string) (i : Invite) : Mail :=
  mkMail (iv_Email i) "You've been invited"
    ("Accept your invite:" ++ newline ++ newline ++ baseURL ++ "/invites/accept?token=" ++ raw ++ newline ++ newline
       ++ "Expires at " ++ rfc3339 (iv_ExpiresAt i) UTC ++ ".").

(** ** Onboarding *)
Definition Method : Type := string.
Definition MethodEnvGenesis : Method := "env-genesis".
Definition MethodWebOnboard : Method := "web-onboard".
Definition MethodCLIInit : Method := "cli-init".
Definition Method_IsValid (m : Method) : bool := existsb (String.eqb m) [MethodEnvGenesis; MethodWebOnboard; MethodCLIInit].
Record Bootstrap := mkBootstrap { bs_OnboardedAt : Z; bs_OnboardedBy : uuid; bs_Method : Method }.
#[global] Instance Bootstrap_eq_dec : EqDecision Bootstrap.
Proof. solve_decision. Defined.
Definition Bootstrap_New (by_ : uuid) (method : Method) (now : Z) : OnboardError + Bootstrap :=
  if N.eqb by_ uuid_Nil then inl (InvalidMethodError method "onboarded_by required") else
  if negb (Method_IsValid method) then inl (InvalidMethodError method "unknown method") else
  if now =? zero_Time then inl (InvalidMethodError method "timestamp required") else
  inr (mkBootstrap now by_ method).

(** ** The signed-in principal *)

(** [session.Principal], but for the tokens it keeps for the log-out; no acceptance is the zero time. *)
Record SessionPrincipal := mkSP {
  sp_UserID : uuid; sp_KeyID : uuid; sp_Email : string; sp_Name : string; sp_Source : string; sp_IDPIssuer : string;
  sp_IDPSubject : string; sp_Scopes : list string; sp_ActiveOrgID : uuid; sp_ActiveProjectID : uuid; sp_ProjectIDs : list uuid;
  sp_AllProjects : bool; sp_ResourceIDs : list uuid; sp_IsAdmin : bool; sp_Locale : string; sp_TermsAcceptedAt : option Z;
  sp_IssuedAt : Z
}.
#[global] Instance SessionPrincipal_eq_dec : EqDecision SessionPrincipal.
Proof. solve_decision. Defined.
Definition isSession (source : string) : bool := existsb (String.eqb source) [SourceGenesis; SourceOIDC; SourceLocal].
(** A key's principal among the others. *)
Definition of_key (p : KeyPrincipal) : SessionPrincipal :=
  mkSP (kp_UserID p) (kp_KeyID p) "" (kp_Name p) (kp_Source p) "" "" (kp_Scopes p) (kp_ActiveOrgID p) (kp_ActiveProjectID p)
    (kp_ProjectIDs p) (kp_AllProjects p) (kp_ResourceIDs p) false "" None (kp_IssuedAt p).
