(* ===== verification/Sheet.v ===== *)
(** * The sheet mirror's data ([internal/opensheetsync/ref.go], [link.go], [job.go], [contract.go], [store.go])

    What the mirror keeps: the project's link to opensheet and one state row per
    mirrored wallet, category or transaction; the references a write hands it, in
    the order every writer locks them; the payload of a sync job. *)
From Stdlib Require Import ZArith Lia String Ascii List.
From stdpp Require Import base gmap list strings.
From S2P Require Import Prelude GoStrings Errors Outbox.
Local Open Scope string_scope.
Local Open Scope Z_scope.

(** ** Entities and references ([ref.go]) *)
Abbreviation Entity := string.
Definition EntityTransaction : Entity := "transaction".
Definition EntityWallet : Entity := "wallet".
Definition EntityCategory : Entity := "category".
Definition entities : list Entity := [EntityTransaction; EntityWallet; EntityCategory].

Definition LockRank (e : Entity) : Z :=
  if String.eqb e EntityTransaction then 0 else if String.eqb e EntityCategory then 1 else 2.
Definition ParseEntity (s : string) : option Entity :=
  if existsb (String.eqb s) entities then Some s else None.

Record Ref := mkRef { rf_Entity : Entity; rf_ID : uuid; rf_Deleted : bool; rf_Cascade : bool }.
#[global] Instance Ref_eq_dec : EqDecision Ref.
Proof. solve_decision. Defined.
(** [refKey]. *)
Definition refKey (r : Ref) : Entity * uuid := (rf_Entity r, rf_ID r).
Definition same_ref (a b : Ref) : bool := bool_decide (refKey a = refKey b).

(** One turn of [Dedupe]'s loop: a ref seen before gives it its flags. *)
Fixpoint merge_ref (out : list Ref) (r : Ref) : list Ref :=
  match out with
  | [] => [r]
  | x :: rest =>
    if same_ref x r
    then mkRef (rf_Entity x) (rf_ID x) (rf_Deleted x || rf_Deleted r) (rf_Cascade x || rf_Cascade r) :: rest
    else x :: merge_ref rest r
  end.
Definition Dedupe (refs : list Ref) : list Ref := fold_left merge_ref refs [].

Definition lock_le (a b : Ref) : bool :=
  if LockRank (rf_Entity a) <? LockRank (rf_Entity b) then true else
  if LockRank (rf_Entity b) <? LockRank (rf_Entity a) then false else (rf_ID a <=? rf_ID b)%N.
Definition LockOrder (refs : list Ref) : list Ref := sort_by lock_le (Dedupe refs).

Definition MaxRowAttempts : Z := 5.
(** [time.Minute << min(max(attempts-1, 0), 3)]. *)
Definition RowBackoff (attempts : Z) : Z := Z.shiftl Minute (Z.min (Z.max (attempts - 1) 0) 3).

(** ** The state rows ([opensheet_sync_state]) *)
Record SyncRow := mkSyncRow {
  sr_OrgID : uuid;
  sr_ProjectID : uuid;
  sr_Entity : Entity;
  sr_EntityID : uuid;
  sr_Version : Z;
  sr_SyncedVersion : Z;
  sr_Deleted : bool;
  sr_Attempts : Z;
  sr_LastError : string;
  sr_LeaseToken : option uuid;
  sr_LeasedUntil : option Z;
  sr_RetryAfter : option Z;
  sr_UpdatedAt : Z
}.
Abbreviation SyncKey := (uuid * (Entity * uuid))%type.     (** org, entity and id *)

Record State := mkState {
  st_Ref : Ref;
  st_ProjectID : uuid;
  st_Version : Z;
  st_SyncedVersion : Z;
  st_Attempts : Z;
  st_LastError : string;
  st_UpdatedAt : Z
}.
Definition toState (r : SyncRow) : State :=
  mkState (mkRef (sr_Entity r) (sr_EntityID r) (sr_Deleted r) false) (sr_ProjectID r) (sr_Version r)
    (sr_SyncedVersion r) (sr_Attempts r) (sr_LastError r) (sr_UpdatedAt r).
Definition Dirty (s : State) : bool := st_SyncedVersion s <? st_Version s.

(** ** The link ([link.go]) *)
Record SheetSlugs := mkSheetSlugs { ss_Transactions : string; ss_Wallets : string; ss_Categories : string }.
#[global] Instance SheetSlugs_eq_dec : EqDecision SheetSlugs.
Proof. solve_decision. Defined.
Definition For (s : SheetSlugs) (e : Entity) : string :=
  if String.eqb e EntityTransaction then ss_Transactions s
  else if String.eqb e EntityWallet then ss_Wallets s
  else if String.eqb e EntityCategory then ss_Categories s else "".

(** The contract ([contract.go]). *)
Definition deletedAtColumn : string := "deleted_at".
Record Tab := mkTab { tab_Entity : Entity; tab_DefaultSlug : string; tab_Columns : list string }.
Definition Contract : list Tab := [
  mkTab EntityTransaction "yasaku-transactions"
    ["id"; "date"; "occurred_at"; "kind"; "amount"; "currency"; "wallet"; "wallet_id"; "to_wallet"; "to_wallet_id";
     "category"; "category_id"; "note"; "period"; "recurring_id"; "updated_at"; deletedAtColumn];
  mkTab EntityWallet "yasaku-wallets"
    ["id"; "name"; "kind"; "provider"; "currency"; "balance"; "exclude_from_total"; "archived"; "updated_at"; deletedAtColumn];
  mkTab EntityCategory "yasaku-categories"
    ["id"; "name"; "kind"; "icon"; "color"; "archived"; "updated_at"; deletedAtColumn]].
Definition TabFor (e : Entity) : option Tab := List.find (fun t => String.eqb (tab_Entity t) e) Contract.
Definition Written (t : Tab) : list string := List.filter (fun c => negb (String.eqb c deletedAtColumn)) (tab_Columns t).

Definition DefaultSheetSlugs : SheetSlugs :=
  let slug := fun e => match TabFor e with Some t => tab_DefaultSlug t | None => "" end in
  mkSheetSlugs (slug EntityTransaction) (slug EntityWallet) (slug EntityCategory).

Record SheetSettings := mkSheetSettings {
  set_OSOrg : string; set_OSProject : string; set_APIKey : string; set_Sheets : SheetSlugs
}.
Definition Normalized (s : SheetSettings) : SheetSettings :=
  mkSheetSettings (TrimSpace (set_OSOrg s)) (TrimSpace (set_OSProject s)) (TrimSpace (set_APIKey s))
    (mkSheetSlugs (TrimSpace (ss_Transactions (set_Sheets s))) (TrimSpace (ss_Wallets (set_Sheets s)))
       (TrimSpace (ss_Categories (set_Sheets s)))).

(** [^[a-z0-9][a-z0-9-]{0,63}$]. *)
Definition slug_head (c : ascii) : bool := in_range 97 122 c || in_range 48 57 c.
Definition slugRe (s : string) : bool :=
  match s with
  | EmptyString => false
  | String c rest =>
    slug_head c && all_chars (fun c => slug_head c || Ascii.eqb c "-"%char) rest && (String.length rest <=? 63)%nat
  end.
Definition maxAPIKeyLen : Z := 512.
Definition hintLen : nat := 4.
Definition DisableAfter : Z := 3.
(** [strings.ContainsAny] with blank, tab and the two line ends. *)
Definition has_blank (s : string) : bool :=
  existsb (fun c => existsb (Ascii.eqb c) [" "%char; "009"%char; "013"%char; "010"%char]) (list_ascii_of_string s).

Definition bad_slug (s : SheetSettings) : option string :=
  let slugs := [("os_org", set_OSOrg s); ("os_project", set_OSProject s); ("transactions_sheet", ss_Transactions (set_Sheets s));
                ("wallets_sheet", ss_Wallets (set_Sheets s)); ("categories_sheet", ss_Categories (set_Sheets s))] in
  option_map fst (List.find (fun f => negb (slugRe (snd f))) slugs).
Definition settings_Validate (s : SheetSettings) (requireKey : bool) : option SheetError :=
  let sh := set_Sheets s in
  match bad_slug s with
  | Some field => Some (InvalidSettingError field "use lowercase letters, digits and hyphens, at most 64")
  | None =>
    if String.eqb (ss_Transactions sh) (ss_Wallets sh) || String.eqb (ss_Transactions sh) (ss_Categories sh)
       || String.eqb (ss_Wallets sh) (ss_Categories sh)
    then Some (InvalidSettingError "sheets" "each tab needs its own sheet")
    else if String.eqb (set_APIKey s) "" then (if requireKey then Some APIKeyRequiredError else None)
    else if (maxAPIKeyLen <? RuneCountInString (set_APIKey s)) || has_blank (set_APIKey s)
    then Some (InvalidSettingError "api_key" "paste the key exactly as opensheet showed it")
    else None
  end.

(** The runes of a key, an invalid byte as [utf8.RuneError]'s encoding. *)
Definition KeyHint (key : string) : string :=
  let r := map (fun p => encode_rune (fst p)) (runes key) in
  if (List.length r <? 3 * hintLen)%nat then "" else String.concat "" (skipn (List.length r - hintLen) r).

Record Link := mkLink {
  lk_ID : uuid;
  lk_OrgID : uuid;
  lk_ProjectID : uuid;
  lk_OSOrg : string;
  lk_OSProject : string;
  lk_APIKeySealed : string;
  lk_APIKeyHint : string;
  lk_Sheets : SheetSlugs;
  lk_Enabled : bool;
  lk_VerifiedAt : option Z;
  lk_LastError : string;
  lk_LastSyncedAt : option Z;
  lk_FailureStreak : Z;
  lk_AutoDisabledAt : option Z;
  lk_CreatedBy : uuid;
  lk_CreatedByKeyID : uuid;
  lk_CreatedAt : Z;
  lk_UpdatedAt : Z
}.
Definition NewLink (id orgID projectID by_ byKey : uuid) (at_ : Z) : Link :=
  mkLink id orgID projectID "" "" "" "" DefaultSheetSlugs false None "" None 0 None by_ byKey at_ at_.
(** A nil [sealed] keeps the saved key. *)
Definition Configure (l : Link) (s : SheetSettings) (sealed : option string) (hint : string) (at_ : Z) : Link :=
  mkLink (lk_ID l) (lk_OrgID l) (lk_ProjectID l) (set_OSOrg s) (set_OSProject s)
    (match sealed with Some k => k | None => lk_APIKeySealed l end)
    (match sealed with Some _ => hint | None => lk_APIKeyHint l end)
    (set_Sheets s) (lk_Enabled l) (Some at_) (lk_LastError l) (lk_LastSyncedAt l) 0 None
    (lk_CreatedBy l) (lk_CreatedByKeyID l) (lk_CreatedAt l) at_.
Definition Retargets (l : Link) (s : SheetSettings) : bool :=
  negb (String.eqb (lk_OSOrg l) (set_OSOrg s)) || negb (String.eqb (lk_OSProject l) (set_OSProject s))
  || negb (bool_decide (lk_Sheets l = set_Sheets s)).
Definition link_Settings (l : Link) : SheetSettings :=
  mkSheetSettings (lk_OSOrg l) (lk_OSProject l) "" (lk_Sheets l).
Definition Enable (l : Link) (at_ : Z) : SheetError + Link :=
  match lk_VerifiedAt l with
  | None => inl NotVerifiedError
  | Some _ =>
    inr (mkLink (lk_ID l) (lk_OrgID l) (lk_ProjectID l) (lk_OSOrg l) (lk_OSProject l) (lk_APIKeySealed l)
      (lk_APIKeyHint l) (lk_Sheets l) true (lk_VerifiedAt l) "" (lk_LastSyncedAt l) 0 None
      (lk_CreatedBy l) (lk_CreatedByKeyID l) (lk_CreatedAt l) at_)
  end.
Definition Disable (l : Link) (at_ : Z) : Link :=
  mkLink (lk_ID l) (lk_OrgID l) (lk_ProjectID l) (lk_OSOrg l) (lk_OSProject l) (lk_APIKeySealed l)
    (lk_APIKeyHint l) (lk_Sheets l) false (lk_VerifiedAt l) (lk_LastError l) (lk_LastSyncedAt l) (lk_FailureStreak l)
    (lk_AutoDisabledAt l) (lk_CreatedBy l) (lk_CreatedByKeyID l) (lk_CreatedAt l) at_.
Definition AutoDisabled (l : Link) : bool := match lk_AutoDisabledAt l with Some _ => true | None => false end.
Definition AwaitingFirstSync (l : Link) : bool :=
  match lk_VerifiedAt l with
  | None => false
  | Some v => match lk_LastSyncedAt l with None => true | Some s => s <? v end
  end.

(** ** The mirror's tables *)
Record SheetDB := mkSheetDB {
  sd_links : gmap uuid Link;           (** by id *)
  sd_state : gmap SyncKey SyncRow      (** by org, entity and id *)
}.
Definition empty_sheets : SheetDB := mkSheetDB ∅ ∅.

(** ** Store values ([store.go]) *)
Record SyncOutcome := mkSyncOutcome { oc_At : Z; oc_Err : string; oc_LinkUpdatedAt : Z }.
Record Failure := mkFailure {
  fa_Reason : string; fa_At : Z; fa_Count : bool; fa_RetryAfter : option Z; fa_Version : Z
}.
Record Backlog := mkBacklog { bl_Pending : Z; bl_Failing : Z; bl_GivenUp : Z }.

(** ** The job's payload ([job.go]) *)
Definition maxRefsPerJob : nat := 50.
Record SyncV1 := mkSyncV1 { v1_ProjectID : uuid; v1_Refs : list (string * uuid) }.
Definition payloadOf (projectID : uuid) (refs : list Ref) : SyncV1 :=
  mkSyncV1 projectID (map (fun r => (rf_Entity r, rf_ID r)) refs).
Fixpoint payload_refs_from (rs : list (string * uuid)) : Error + list Ref :=
  match rs with
  | [] => inr []
  | (e, id) :: rest =>
    match ParseEntity e with
    | None => inl (EText ("opensheetsync: payload: unknown entity " ++ quoted e))
    | Some e => match payload_refs_from rest with inl err => inl err | inr out => inr (mkRef e id false false :: out) end
    end
  end.
Definition payload_refs (p : SyncV1) : Error + list Ref := payload_refs_from (v1_Refs p).

(** ** What the process sends out *)
Abbreviation Row := (gmap string string).
(** The writes of the opensheet client, and what came back: no answer at all, or a
    status with the error envelope's code and message. *)
Inductive SheetCall :=
| PatchRow (sheet id : string) (row : Row)
| CreateRow (sheet : string) (row : Row) (key : string)
| DeleteRow (sheet id : string).
Inductive Transport :=
| PrivateAddress (msg : string)
| ContextDone (deadline : bool)
| Unreachable (msg : string)
| BadBody (msg : string).
Inductive HttpResult :=
| NoAnswer (e : Transport)
| Answer (status : Z) (code message : string).

(** ** [Dedupe] keeps one ref per key *)

Abbreviation key_dec := (fun a b : Entity * uuid => decide (a = b)).
Lemma merge_ref_keys out r : map refKey (merge_ref out r) =
  if in_dec key_dec (refKey r) (map refKey out) then map refKey out else (map refKey out ++ [refKey r])%list.
Proof.
  induction out as [|x out IH]; cbn [merge_ref map].
  { destruct (in_dec _ _ _) as [[]|]; reflexivity. }
  unfold same_ref. destruct (bool_decide_reflect (refKey x = refKey r)) as [E|E].
  - destruct (in_dec key_dec (refKey r) (refKey x :: map refKey out)) as [|N]; [reflexivity | exfalso; apply N; left; exact E].
  - cbn [map]. rewrite IH.
    destruct (in_dec key_dec (refKey r) (map refKey out)) as [I|I], (in_dec key_dec (refKey r) (refKey x :: _)) as [J|J];
      cbn [In app] in *; try reflexivity; exfalso; tauto.
Qed.
Lemma Dedupe_from refs out : NoDup (map refKey out) ->
  NoDup (map refKey (fold_left merge_ref refs out)) /\
  forall k, In k (map refKey (fold_left merge_ref refs out)) <-> In k (map refKey out) \/ In k (map refKey refs).
Proof.
  revert out. induction refs as [|r refs IH]; intros out N; cbn [fold_left map]; [split; [exact N | cbn; tauto]|].
  assert (N1 : NoDup (map refKey (merge_ref out r))).
  { rewrite merge_ref_keys. destruct (in_dec _ _ _) as [I|I]; [exact N|]. apply NoDup_app. split; [exact N|]. split.
    - intros x X Y. apply list_elem_of_singleton in Y. subst. apply I, list_elem_of_In, X.
    - apply NoDup_singleton. }
  destruct (IH _ N1) as [A C]. split; [exact A|]. intros k. rewrite C, merge_ref_keys. cbn [In].
  destruct (in_dec key_dec (refKey r) (map refKey out)) as [I|I]; [|rewrite in_app_iff; cbn; tauto].
  split; [tauto|]. intros [J|[<-|J]]; auto.
Qed.
Lemma Dedupe_NoDup refs : NoDup (map refKey (Dedupe refs)).
Proof. apply (Dedupe_from refs []). constructor. Qed.
Lemma Dedupe_keys refs k : In k (map refKey (Dedupe refs)) <-> In k (map refKey refs).
Proof. unfold Dedupe. rewrite (proj2 (Dedupe_from refs [] NoDup_nil_2)). cbn. tauto. Qed.

(** ** ... with the flags of all its refs *)

(** [x] stands for the refs of its key: it has the flags any of them has. *)
Definition stands_for (refs : list Ref) (x : Ref) : Prop :=
  rf_Deleted x = existsb (fun r => same_ref x r && rf_Deleted r) refs
  /\ rf_Cascade x = existsb (fun r => same_ref x r && rf_Cascade r) refs.
Lemma same_ref_key a b : same_ref a b = true <-> refKey a = refKey b.
Proof. unfold same_ref. apply bool_decide_eq_true. Qed.
Lemma existsb_snoc {A} (f : A -> bool) l x : existsb f (l ++ [x]) = existsb f l || f x.
Proof. rewrite existsb_app. cbn. rewrite orb_false_r. reflexivity. Qed.

Lemma merge_ref_stands seen out r : NoDup (map refKey out) -> (forall k, In k (map refKey out) <-> In k (map refKey seen)) ->
  (forall x, In x out -> stands_for seen x) -> forall x, In x (merge_ref out r) -> stands_for (seen ++ [r]) x.
Proof.
  intros N K S x. unfold stands_for. rewrite !existsb_snoc.
  assert (Hmiss : ~ In (refKey r) (map refKey out) -> forall p, existsb (fun y => same_ref r y && p y) seen = false).
  { intros HN p. apply not_true_is_false. intros E. apply existsb_exists in E as (y & I & E). apply andb_prop in E as [E _].
    apply same_ref_key in E. apply HN, K. rewrite E. apply in_map, I. }
  revert S N Hmiss. clear K. induction out as [|y out IH]; cbn [merge_ref map]; intros S N Hmiss.
  - intros [<-|[]]. rewrite !(Hmiss (fun X => X)). replace (same_ref r r) with true by (symmetry; apply same_ref_key; reflexivity). auto.
  - apply NoDup_cons in N as [N1 N2]. destruct (same_ref y r) eqn:E.
    + intros [<-|I].
      * destruct (S y (or_introl eq_refl)) as [Sd Sc]. split.
        -- change (rf_Deleted y || rf_Deleted r = existsb (fun z => same_ref y z && rf_Deleted z) seen || (same_ref y r && rf_Deleted r)).
           rewrite E, Sd. reflexivity.
        -- change (rf_Cascade y || rf_Cascade r = existsb (fun z => same_ref y z && rf_Cascade z) seen || (same_ref y r && rf_Cascade r)).
           rewrite E, Sc. reflexivity.
      * destruct (S x (or_intror I)) as [Sd Sc]. assert (X : same_ref x r = false).
        { apply not_true_is_false. intros X. apply same_ref_key in X, E. apply N1, list_elem_of_In. rewrite E, <- X. apply in_map, I. }
        rewrite X. cbn [andb]. rewrite !orb_false_r. auto.
    + intros [<-|I].
      * destruct (S y (or_introl eq_refl)) as [Sd Sc]. rewrite E. cbn [andb]. rewrite !orb_false_r. auto.
      * apply IH; [intros z Hz; apply S; right; exact Hz | exact N2 | | exact I].
        intros HN. apply Hmiss. intros [X|X]; [|apply HN, X]. apply same_ref_key in X. congruence.
Qed.
Lemma Dedupe_stands refs x : In x (Dedupe refs) -> stands_for refs x.
Proof.
  unfold Dedupe. enough (G : forall rest seen out, NoDup (map refKey out) -> (forall k, In k (map refKey out) <-> In k (map refKey seen)) ->
    (forall x, In x out -> stands_for seen x) -> forall x, In x (fold_left merge_ref rest out) -> stands_for (seen ++ rest) x).
  { intros Hx. apply (G refs [] []); [constructor | tauto | intros ? [] | exact Hx]. }
  induction rest as [|r rest IH]; intros seen out N K S y; cbn [fold_left]; [rewrite app_nil_r; apply S|].
  replace (seen ++ r :: rest)%list with ((seen ++ [r]) ++ rest)%list by (rewrite <- app_assoc; reflexivity).
  destruct (Dedupe_from [r] out N) as [N' K']. cbn [fold_left] in N', K'.
  apply IH; [exact N' | | apply merge_ref_stands; assumption].
  intros k. rewrite K', K, map_app, in_app_iff. reflexivity.
Qed.
Lemma In_LockOrder refs x : In x (LockOrder refs) <-> In x (Dedupe refs).
Proof. apply In_sort_by. Qed.
Lemma LockOrder_keys refs k : In k (map refKey (LockOrder refs)) <-> In k (map refKey refs).
Proof.
  rewrite <- (Dedupe_keys refs), !in_map_iff. split; intros (x & E & I); exists x; (split; [exact E|]); apply In_LockOrder; exact I.
Qed.

(** The lock order is total on known entities, and tells their keys apart. *)
Lemma lock_le_spec a b : lock_le a b = true <->
  LockRank (rf_Entity a) < LockRank (rf_Entity b)
  \/ LockRank (rf_Entity a) = LockRank (rf_Entity b) /\ (rf_ID a <= rf_ID b)%N.
Proof.
  unfold lock_le. destruct (Z.ltb_spec (LockRank (rf_Entity a)) (LockRank (rf_Entity b))); [intuition lia|].
  destruct (Z.ltb_spec (LockRank (rf_Entity b)) (LockRank (rf_Entity a))); [intuition (discriminate || lia)|].
  rewrite N.leb_le. intuition lia.
Qed.
Lemma lock_le_total a b : lock_le a b = true \/ lock_le b a = true.
Proof. rewrite !lock_le_spec. lia. Qed.
Lemma lock_le_trans a b c : lock_le a b = true -> lock_le b c = true -> lock_le a c = true.
Proof. rewrite !lock_le_spec. lia. Qed.
Lemma lock_le_antisym a b : In (rf_Entity a) entities -> In (rf_Entity b) entities ->
  lock_le a b = true -> lock_le b a = true -> refKey a = refKey b.
Proof.
  rewrite !lock_le_spec. intros Ea Eb L1 L2. unfold refKey. f_equal; [|lia].
  destruct Ea as [X|[X|[X|[]]]], Eb as [Y|[Y|[Y|[]]]]; rewrite <- X, <- Y in *; cbn in *; try reflexivity; lia.
Qed.

(** Two lists of the same refs, in any order, lock the same rows in the same order. *)
Lemma Dedupe_perm refs refs' : refs ≡ₚ refs' -> Dedupe refs ≡ₚ Dedupe refs'.
Proof.
  intros P. assert (X : forall l l' x, l ≡ₚ l' -> In x (Dedupe l) -> In x (Dedupe l')).
  { intros l l' x Q I. assert (Ik : In (refKey x) (map refKey (Dedupe l'))).
    { apply Dedupe_keys. rewrite <- (Permutation_map refKey Q). apply Dedupe_keys, in_map, I. }
    apply in_map_iff in Ik as (y & Ey & Iy). destruct (Dedupe_stands _ _ I) as [D1 C1], (Dedupe_stands _ _ Iy) as [D2 C2].
    assert (B : forall p, existsb (fun r => same_ref x r && p r) l = existsb (fun r => same_ref y r && p r) l').
    { intros p. apply eq_iff_eq_true. rewrite !existsb_exists. unfold same_ref. rewrite Ey.
      split; intros (r & Ir & Er); exists r; (split; [|exact Er]); eapply Permutation_in; try exact Ir; [exact Q | symmetry; exact Q]. }
    assert (Ed : rf_Deleted x = rf_Deleted y) by (rewrite D1, D2; apply B).
    assert (Ec : rf_Cascade x = rf_Cascade y) by (rewrite C1, C2; apply B).
    replace x with y; [exact Iy|]. clear - Ey Ed Ec. destruct x, y. unfold refKey in Ey. cbn in *. congruence. }
  apply NoDup_Permutation.
  - eapply NoDup_fmap_1, (Dedupe_NoDup refs).
  - eapply NoDup_fmap_1, (Dedupe_NoDup refs').
  - intros x. rewrite !list_elem_of_In. split; apply X; [exact P | symmetry; exact P].
Qed.
