(* ===== verification/World.v ===== *)
(** * The world: database, clock, faults and transactions

    The SQLite database as one map per table (the sheet mirror's two tables
    apart, [W_sheet]), what the process has sent out, the oracle a run draws ids, clock
    readings, driver faults and other sessions' commits from, and the two ways
    the code opens a transaction: [db.RunInTx] ([internal/platform/db/uow.go])
    and each store's [txAcquire]/[endTx]. *)
From Stdlib Require Import ZArith Lia String List.
From stdpp Require Import base gmap list strings.
From S2P Require Import Prelude GoStrings Errors Civil Money Tenant Ledger Period Wallet Category Transaction Outbox Webhook Sheet Org ApiKey Account.
Local Open Scope string_scope.

(** ** What the process sends out

    The calls the sheet mirror makes of opensheet, the sync jobs it submits, the
    webhook deliveries and the mails, each with what came back. *)
Inductive Sent :=
| Called (c : SheetCall) (r : HttpResult)
| SubmitJob (payload : SyncV1)
| Posted (p : HttpPost) (r : PostResult)
| Mailed (m : Mail) (failure : option string).

(** ** The database *)

(** A row of [api_key_projects]. *)
Record Grant := mkGrantRow { gr_OrgID : uuid; gr_CreatedAt : Z }.
Record DB := mkDB {
  db_user_rows : gmap uuid UserRow;
  db_invites : gmap uuid Invite;                (** who sent one is never read *)
  db_bootstrap : option Bootstrap;
  db_org_rows : gmap uuid Org;
  db_members : gmap (uuid * uuid) Membership;   (** by organisation and user *)
  db_project_rows : gmap uuid Project;
  db_apikeys : gmap uuid APIKey;                (** their grants apart *)
  db_grants : gmap (uuid * uuid) Grant;         (** by key and project *)
  db_ledger : gmap uuid Settings;       (** by project *)
  db_periods : gmap uuid Period;
  db_closings : gmap uuid Closing;
  db_wallets : gmap uuid Wallet;
  db_categories : gmap uuid Category;
  db_txs : gmap uuid Transaction;
  db_outbox : gmap uuid OutboxRow;
  db_endpoints : gmap uuid Endpoint;
  db_attempts : gmap uuid Attempt
}.

Definition set_ledger (m : gmap uuid Settings) (db : DB) : DB :=
  mkDB (db_user_rows db) (db_invites db) (db_bootstrap db) (db_org_rows db) (db_members db) (db_project_rows db) (db_apikeys db) (db_grants db) m (db_periods db) (db_closings db) (db_wallets db)
    (db_categories db) (db_txs db) (db_outbox db) (db_endpoints db) (db_attempts db).
Definition set_periods (m : gmap uuid Period) (db : DB) : DB :=
  mkDB (db_user_rows db) (db_invites db) (db_bootstrap db) (db_org_rows db) (db_members db) (db_project_rows db) (db_apikeys db) (db_grants db) (db_ledger db) m (db_closings db) (db_wallets db)
    (db_categories db) (db_txs db) (db_outbox db) (db_endpoints db) (db_attempts db).
Definition set_closings (m : gmap uuid Closing) (db : DB) : DB :=
  mkDB (db_user_rows db) (db_invites db) (db_bootstrap db) (db_org_rows db) (db_members db) (db_project_rows db) (db_apikeys db) (db_grants db) (db_ledger db) (db_periods db) m (db_wallets db)
    (db_categories db) (db_txs db) (db_outbox db) (db_endpoints db) (db_attempts db).
Definition set_wallets (m : gmap uuid Wallet) (db : DB) : DB :=
  mkDB (db_user_rows db) (db_invites db) (db_bootstrap db) (db_org_rows db) (db_members db) (db_project_rows db) (db_apikeys db) (db_grants db) (db_ledger db) (db_periods db) (db_closings db) m
    (db_categories db) (db_txs db) (db_outbox db) (db_endpoints db) (db_attempts db).
Definition set_categories (m : gmap uuid Category) (db : DB) : DB :=
  mkDB (db_user_rows db) (db_invites db) (db_bootstrap db) (db_org_rows db) (db_members db) (db_project_rows db) (db_apikeys db) (db_grants db) (db_ledger db) (db_periods db) (db_closings db)
    (db_wallets db) m (db_txs db) (db_outbox db) (db_endpoints db) (db_attempts db).
Definition set_txs (m : gmap uuid Transaction) (db : DB) : DB :=
  mkDB (db_user_rows db) (db_invites db) (db_bootstrap db) (db_org_rows db) (db_members db) (db_project_rows db) (db_apikeys db) (db_grants db) (db_ledger db) (db_periods db) (db_closings db)
    (db_wallets db) (db_categories db) m (db_outbox db) (db_endpoints db) (db_attempts db).
Definition set_outbox (m : gmap uuid OutboxRow) (db : DB) : DB :=
  mkDB (db_user_rows db) (db_invites db) (db_bootstrap db) (db_org_rows db) (db_members db) (db_project_rows db) (db_apikeys db) (db_grants db) (db_ledger db) (db_periods db) (db_closings db)
    (db_wallets db) (db_categories db) (db_txs db) m (db_endpoints db) (db_attempts db).
Definition set_endpoints (m : gmap uuid Endpoint) (db : DB) : DB :=
  mkDB (db_user_rows db) (db_invites db) (db_bootstrap db) (db_org_rows db) (db_members db) (db_project_rows db) (db_apikeys db) (db_grants db) (db_ledger db) (db_periods db) (db_closings db)
    (db_wallets db) (db_categories db) (db_txs db) (db_outbox db) m (db_attempts db).
Definition set_attempts (m : gmap uuid Attempt) (db : DB) : DB :=
  mkDB (db_user_rows db) (db_invites db) (db_bootstrap db) (db_org_rows db) (db_members db) (db_project_rows db) (db_apikeys db) (db_grants db) (db_ledger db) (db_periods db) (db_closings db)
    (db_wallets db) (db_categories db) (db_txs db) (db_outbox db) (db_endpoints db) m.

Definition set_orgs (m : gmap uuid Org) (db : DB) : DB :=
  mkDB (db_user_rows db) (db_invites db) (db_bootstrap db) m (db_members db) (db_project_rows db) (db_apikeys db) (db_grants db) (db_ledger db) (db_periods db) (db_closings db)
    (db_wallets db) (db_categories db) (db_txs db) (db_outbox db) (db_endpoints db) (db_attempts db).
Definition set_members (m : gmap (uuid * uuid) Membership) (db : DB) : DB :=
  mkDB (db_user_rows db) (db_invites db) (db_bootstrap db) (db_org_rows db) m (db_project_rows db) (db_apikeys db) (db_grants db) (db_ledger db) (db_periods db) (db_closings db)
    (db_wallets db) (db_categories db) (db_txs db) (db_outbox db) (db_endpoints db) (db_attempts db).
Definition set_projects (m : gmap uuid Project) (db : DB) : DB :=
  mkDB (db_user_rows db) (db_invites db) (db_bootstrap db) (db_org_rows db) (db_members db) m (db_apikeys db) (db_grants db) (db_ledger db) (db_periods db) (db_closings db)
    (db_wallets db) (db_categories db) (db_txs db) (db_outbox db) (db_endpoints db) (db_attempts db).
Definition set_apikeys (m : gmap uuid APIKey) (db : DB) : DB :=
  mkDB (db_user_rows db) (db_invites db) (db_bootstrap db) (db_org_rows db) (db_members db) (db_project_rows db) m (db_grants db) (db_ledger db) (db_periods db) (db_closings db)
    (db_wallets db) (db_categories db) (db_txs db) (db_outbox db) (db_endpoints db) (db_attempts db).
Definition set_grants (m : gmap (uuid * uuid) Grant) (db : DB) : DB :=
  mkDB (db_user_rows db) (db_invites db) (db_bootstrap db) (db_org_rows db) (db_members db) (db_project_rows db) (db_apikeys db) m (db_ledger db) (db_periods db) (db_closings db)
    (db_wallets db) (db_categories db) (db_txs db) (db_outbox db) (db_endpoints db) (db_attempts db).

Definition set_users (m : gmap uuid UserRow) (db : DB) : DB :=
  mkDB m (db_invites db) (db_bootstrap db) (db_org_rows db) (db_members db) (db_project_rows db) (db_apikeys db) (db_grants db)
    (db_ledger db) (db_periods db) (db_closings db) (db_wallets db) (db_categories db) (db_txs db) (db_outbox db) (db_endpoints db) (db_attempts db).
Definition set_invites (m : gmap uuid Invite) (db : DB) : DB :=
  mkDB (db_user_rows db) m (db_bootstrap db) (db_org_rows db) (db_members db) (db_project_rows db) (db_apikeys db) (db_grants db)
    (db_ledger db) (db_periods db) (db_closings db) (db_wallets db) (db_categories db) (db_txs db) (db_outbox db) (db_endpoints db) (db_attempts db).
Definition set_bootstrap (b : option Bootstrap) (db : DB) : DB :=
  mkDB (db_user_rows db) (db_invites db) b (db_org_rows db) (db_members db) (db_project_rows db) (db_apikeys db) (db_grants db)
    (db_ledger db) (db_periods db) (db_closings db) (db_wallets db) (db_categories db) (db_txs db) (db_outbox db) (db_endpoints db) (db_attempts db).

(** The ids other tables refer to. *)
Definition db_users (db : DB) : gset uuid := dom (db_user_rows db).
Definition db_orgs (db : DB) : gset uuid := dom (db_org_rows db).
Definition db_projects (db : DB) : gset uuid := dom (db_project_rows db).
Definition db_keys (db : DB) : gset uuid := dom (db_apikeys db).
#[global] Arguments db_users : simpl never.
#[global] Arguments db_orgs : simpl never.
#[global] Arguments db_projects : simpl never.
#[global] Arguments db_keys : simpl never.

(** The rows of a table. *)
Definition rows {A} (m : gmap uuid A) : list A := map snd (map_to_list m).

Lemma rows_In {A} (m : gmap uuid A) a : In a (rows m) <-> exists i, m !! i = Some a.
Proof.
  unfold rows. rewrite in_map_iff. split.
  - intros ([i x] & <- & Hin). exists i. apply elem_of_map_to_list, list_elem_of_In. exact Hin.
  - intros (i & Hi). exists (i, a). split; [reflexivity|]. apply list_elem_of_In, elem_of_map_to_list. exact Hi.
Qed.

Lemma rows_insert {A} (m : gmap uuid A) i a : m !! i = None -> rows (<[i := a]> m) ≡ₚ a :: rows m.
Proof. intros Hi. unfold rows. rewrite map_to_list_insert by exact Hi. reflexivity. Qed.

(** ** The environment of a run *)
Class Env := {
  env_uuid : nat -> DB -> uuid;       (** [uuid.NewV7], off the ids in use *)
  env_now : nat -> Z;                 (** [time.Now], in nanoseconds *)
  env_fault : nat -> option string;   (** the driver error of the n-th call, when it fails *)
  env_other : nat -> DB -> DB;        (** what other sessions committed before a transaction begins *)
  env_sheet : nat -> SheetDB -> SheetDB   (** the same, in the sheet mirror's tables *)
}.

Record World := Build_World {
  W_db : DB;
  W_sheet : SheetDB;
  W_sent : list Sent;                 (** latest first *)
  W_step : nat
}.
(** A start: nothing linked, nothing sent. *)
Definition mkWorld (db : DB) (n : nat) : World := Build_World db empty_sheets [] n.
Definition M (A : Type) : Type := ST World Error A.

Definition with_db (db : DB) (w : World) : World := Build_World db (W_sheet w) (W_sent w) (W_step w).
Definition with_sheet (s : SheetDB) (w : World) : World := Build_World (W_db w) s (W_sent w) (W_step w).

Section Primitives.
Context `{Env} {E : Type}.

Definition tick : ST World E nat :=
  fun w => (Ok (W_step w), Build_World (W_db w) (W_sheet w) (W_sent w) (S (W_step w))).
Definition get_db : ST World E DB := fun w => (Ok (W_db w), w).
Definition put_db (db : DB) : ST World E unit := fun w => (Ok tt, with_db db w).
Definition get_sheet : ST World E SheetDB := fun w => (Ok (W_sheet w), w).
Definition put_sheet (s : SheetDB) : ST World E unit := fun w => (Ok tt, with_sheet s w).
Definition get_sent : ST World E (list Sent) := fun w => (Ok (W_sent w), w).
(** Something leaves the process. *)
Definition send (c : Sent) : ST World E unit :=
  fun w => (Ok tt, Build_World (W_db w) (W_sheet w) (c :: W_sent w) (W_step w)).
Definition NewV7 : ST World E uuid := let* n := tick in let* db := get_db in st_ret (env_uuid n db).
Definition time_Now : ST World E Z := let* n := tick in st_ret (env_now n).
(** Other sessions commit while this one holds no transaction. *)
Definition others : ST World E unit :=
  fun w => (Ok tt, Build_World (env_other (W_step w) (W_db w)) (env_sheet (W_step w) (W_sheet w)) (W_sent w) (S (W_step w))).
End Primitives.

Section Driver.
Context `{Env}.

(** A call into the driver, which may fail. *)
Definition driver_call : M unit :=
  let* n := tick in
  match env_fault n with Some msg => st_err (ESqlite OtherCode msg) | None => st_ret tt end.

(** A statement: the constraint it violates, or the new database and the
    number of rows it affected. A statement that fails changes nothing. *)
Definition Statement : Type := DB -> (SqliteCode * string) + (DB * nat).

Definition exec_stmt (stmt : Statement) : M nat :=
  driver_call ;;;
  let* db := get_db in
  match stmt db with
  | inl (code, msg) => st_err (ESqlite code msg)
  | inr (db', n) => put_db db' ;;; st_ret n
  end.

Definition query {A} (op : string) (q : DB -> A) : M A :=
  st_maperr (EWrap op) driver_call ;;; let* db := get_db in st_ret (q db).

(** [m], with every table put back unless it succeeds; what was sent stays sent. *)
Definition or_rollback {E A} (m : ST World E A) : ST World E A :=
  fun w => match m w with
           | (Ok a, w') => (Ok a, w')
           | (o, w') => (o, with_sheet (W_sheet w) (with_db (W_db w) w'))
           end.

(** Begin, body, commit; a failure of the body or of the commit rolls back. *)
Definition in_tx {E A} (inj : Error -> E) (begin_ commit_ : string) (body : ST World E A) : ST World E A :=
  others ;;;
  st_maperr (fun e => inj (EWrap begin_ e)) driver_call ;;;
  or_rollback (let* a := body in
               st_maperr (fun e => inj (EWrap commit_ e)) driver_call ;;; st_ret a).

Definition ErrNestedUnitOfWork : Error := EText "db: nested unit of work is not supported".

(** [db.RunInTx]. [fn]'s captured variables are its result, or its error type [E]. *)
Definition RunInTx {E A} (inj : Error -> E) (cx : Ctx) (fn : Ctx -> ST World E A) : ST World E A :=
  if cx_tx cx then st_err (inj ErrNestedUnitOfWork)
  else in_tx inj "db: begin tx" "db: commit" (fn (WithTx cx)).

Definition from_tenant (cx : Ctx) : M Tenant :=
  match From_ cx with inl e => st_err (ETenant e) | inr tc => st_ret tc end.

(** [txAcquire] and [endTx] around a write: the caller's unit of work, or a
    transaction of its own. *)
Definition write_tx {A} (pkg : string) (cx : Ctx) (body : Tenant -> M A) : M A :=
  let* tc := from_tenant cx in
  if cx_tx cx then body tc
  else in_tx (fun e => e) (pkg ++ ".sqlite: begin") (pkg ++ ".sqlite: commit") (body tc).

(** [txAcquire] around a read, whose own transaction is always rolled back. *)
Definition read_tx {A} (pkg : string) (cx : Ctx) (body : Tenant -> M A) : M A :=
  let* tc := from_tenant cx in
  if cx_tx cx then body tc
  else others ;;; st_maperr (EWrap (pkg ++ ".sqlite: begin")) driver_call ;;; body tc.

(** The upsert of a store's [Save]: a translated constraint, a wrapped driver
    error, or not-found when the tenant predicate refused the row. *)
Definition exec_save (op : string) (translate : Error -> option Error) (notfound : Error)
    (stmt : Statement) : M unit :=
  let* r := st_try (exec_stmt stmt) in
  match r with
  | inl e => match translate e with Some typed => st_err typed | None => st_err (EWrap op e) end
  | inr n => if Nat.eqb n 0 then st_err notfound else st_ret tt
  end.

(** [apperror.UnexpectedFunc]: the error logged and masked. *)
Definition unexpected {A} (op : string) (cause : Error) : M A := st_err (EUnexpected op cause).
End Driver.

(** ** Relations on databases a run preserves *)
Section Rel.
Context `{Env} (R : DB -> DB -> Prop) `{!PreOrder R}.

(** A relation on databases, on worlds. *)
Definition on_db (w w' : World) : Prop := R (W_db w) (W_db w').
#[export] Instance on_db_pre : PreOrder on_db.
Proof. split; [intros w; unfold on_db; reflexivity | intros a b c; unfold on_db; etransitivity; eauto]. Qed.

(** Interference stays within the relation. *)
Hypothesis rely : forall n db, R db (env_other n db).

Lemma pres_tick {E} : preserves on_db (@tick E).
Proof. intros w. unfold on_db; simpl. reflexivity. Qed.
Lemma pres_get_db {E} : preserves on_db (@get_db E).
Proof. intros w. unfold on_db; simpl. reflexivity. Qed.
Lemma pres_NewV7 {E} : preserves on_db (NewV7 (E:=E)).
Proof. intros w. unfold on_db; simpl. reflexivity. Qed.
Lemma pres_time_Now {E} : preserves on_db (time_Now (E:=E)).
Proof. apply preserves_bind; [apply _ | apply pres_tick | intros; apply preserves_ret, _]. Qed.
Lemma pres_others {E} : preserves on_db (others (E:=E)).
Proof. intros w. unfold on_db, others, st_bind; simpl. apply rely. Qed.
Lemma pres_driver_call : preserves on_db driver_call.
Proof. intros w. unfold on_db, driver_call, st_bind; simpl. destruct (env_fault _); simpl; reflexivity. Qed.
Lemma pres_from_tenant cx : preserves on_db (from_tenant cx).
Proof. unfold from_tenant. destruct (From_ cx); intros w; unfold on_db; simpl; reflexivity. Qed.
Lemma pres_with_tenant {A} cx (k : Tenant -> M A) :
  (forall tc, From_ cx = inr tc -> preserves on_db (k tc)) -> preserves on_db (let* tc := from_tenant cx in k tc).
Proof.
  intros Hk. unfold from_tenant. destruct (From_ cx) as [e|tc] eqn:F; [apply preserves_err, _ | apply (Hk tc eq_refl)].
Qed.
Lemma pres_unexpected {A} op e : preserves on_db (@unexpected A op e).
Proof. intros w; unfold on_db; simpl; reflexivity. Qed.

Lemma pres_exec_stmt stmt :
  (forall db db' n, stmt db = inr (db', n) -> R db db') -> preserves on_db (exec_stmt stmt).
Proof.
  intros Hs w. unfold exec_stmt, st_bind. pose proof (pres_driver_call w) as Hd.
  destruct (driver_call w) as [[[]|e|p] w1]; simpl in *; auto.
  destruct (stmt (W_db w1)) as [[c m]|[db' n]] eqn:E; simpl; auto.
  unfold on_db in *; simpl. etransitivity; [exact Hd | eapply Hs, E].
Qed.
Lemma pres_query {A} op (q : DB -> A) : preserves on_db (query op q).
Proof.
  unfold query. apply preserves_bind; [apply _ | apply preserves_maperr, pres_driver_call|].
  intros. apply preserves_bind; [apply _ | apply pres_get_db | intros; apply preserves_ret, _].
Qed.
Lemma pres_or_rollback {E A} (m : ST World E A) : preserves on_db m -> preserves on_db (or_rollback m).
Proof.
  intros Hm w. specialize (Hm w). unfold or_rollback, on_db in *.
  destruct (m w) as [[a|e|p] w']; simpl in *; auto; reflexivity.
Qed.
Lemma pres_in_tx {E A} inj b c (body : ST World E A) :
  preserves on_db body -> preserves on_db (in_tx inj b c body).
Proof.
  intros Hb. unfold in_tx. apply preserves_bind; [apply _ | apply pres_others|]. intros _.
  apply preserves_bind; [apply _ | apply preserves_maperr, pres_driver_call|]. intros _.
  apply pres_or_rollback. apply preserves_bind; [apply _ | exact Hb|]. intros a.
  apply preserves_bind; [apply _ | apply preserves_maperr, pres_driver_call|]. intros _.
  apply preserves_ret, _.
Qed.
Lemma pres_RunInTx {E A} inj cx (fn : Ctx -> ST World E A) :
  preserves on_db (fn (WithTx cx)) -> preserves on_db (RunInTx inj cx fn).
Proof. unfold RunInTx. destruct (cx_tx cx); [intros _; apply preserves_err, _ | apply pres_in_tx]. Qed.
Lemma pres_write_tx {A} pkg cx (body : Tenant -> M A) :
  (forall tc, From_ cx = inr tc -> preserves on_db (body tc)) -> preserves on_db (write_tx pkg cx body).
Proof.
  intros Hb. unfold write_tx, from_tenant. destruct (From_ cx) as [e|tc] eqn:F.
  - intros w; unfold on_db; simpl; reflexivity.
  - change (preserves on_db (if cx_tx cx then body tc
      else in_tx (fun e => e) (pkg ++ ".sqlite: begin") (pkg ++ ".sqlite: commit") (body tc))).
    destruct (cx_tx cx); [auto | apply pres_in_tx; auto].
Qed.
Lemma pres_read_tx {A} pkg cx (body : Tenant -> M A) :
  (forall tc, preserves on_db (body tc)) -> preserves on_db (read_tx pkg cx body).
Proof.
  intros Hb. unfold read_tx. apply preserves_bind; [apply _ | apply pres_from_tenant|]. intros tc.
  destruct (cx_tx cx); [auto|]. apply preserves_bind; [apply _ | apply pres_others|]. intros _.
  apply preserves_bind; [apply _ | apply preserves_maperr, pres_driver_call | auto].
Qed.
Lemma pres_exec_save op tr nf stmt :
  (forall db db' n, stmt db = inr (db', n) -> R db db') -> preserves on_db (exec_save op tr nf stmt).
Proof.
  intros Hs. unfold exec_save. apply preserves_bind; [apply _ | apply preserves_try, pres_exec_stmt, Hs|].
  intros [e|n]; [destruct (tr e)|destruct (Nat.eqb n 0)];
    first [apply preserves_err, _ | apply preserves_ret, _].
Qed.
End Rel.

#[export] Hint Resolve pres_tick pres_get_db pres_NewV7 pres_time_Now pres_others pres_driver_call
  pres_from_tenant pres_unexpected pres_query pres_RunInTx : pres.

(** [pres_go] walks through a program made of reads, draws and returns, leaving its other calls. *)
Ltac pres_step rely :=
  first
    [ apply preserves_ret; exact _ | apply preserves_err; exact _ | apply pres_unexpected; exact _
    | apply pres_from_tenant; exact _ | apply pres_query; exact _ | apply pres_NewV7; exact _
    | apply pres_time_Now; exact _
    | apply pres_read_tx; [exact _ | exact rely | intros ?]
    | apply preserves_bind; [exact _ | | intros ?] | apply preserves_try | apply preserves_maperr
    | match goal with |- preserves _ (match ?x with _ => _ end) => destruct x end ].
Ltac pres_go rely := repeat pres_step rely.

(** ** A rely-guarantee logic

    [rg R P m Q]: started where [P] holds, [m] stays within [R] at every commit of
    its own, other sessions staying within [R], and a value it returns satisfies
    [Q] where it ends. Assertions carried across a transaction are stable under [R]. *)
Section RelyGuarantee.
Context `{Env} (R : DB -> DB -> Prop) `{!PreOrder R}.

Definition rg {E A} (P : DB -> Prop) (m : ST World E A) (Q : A -> DB -> Prop) : Prop :=
  forall w, P (W_db w) ->
    R (W_db w) (W_db (snd (m w))) /\ forall a, fst (m w) = Ok a -> Q a (W_db (snd (m w))).
Definition stable (P : DB -> Prop) : Prop := forall db db', R db db' -> P db -> P db'.

Lemma rg_conseq {E A} (P P' : DB -> Prop) (m : ST World E A) (Q Q' : A -> DB -> Prop) :
  rg P m Q -> (forall db, P' db -> P db) -> (forall a db, Q a db -> Q' a db) -> rg P' m Q'.
Proof. intros Hm HP HQ w Hw. destruct (Hm w (HP _ Hw)) as [H1 H2]. auto. Qed.
Lemma rg_ret {E A} (a : A) (P : DB -> Prop) (Q : A -> DB -> Prop) :
  (forall db, P db -> Q a db) -> rg P (@st_ret World E A a) Q.
Proof. intros HQ w Hw. split; [reflexivity|]. intros ? [= <-]. auto. Qed.
Lemma rg_err {E A} (e : E) (P : DB -> Prop) (Q : A -> DB -> Prop) : rg P (st_err e) Q.
Proof. intros w Hw. split; [reflexivity | discriminate]. Qed.
Lemma rg_bind {E A B} (m : ST World E A) (k : A -> ST World E B) P Q Q' :
  rg P m Q -> (forall a, rg (Q a) (k a) Q') -> rg P (st_bind m k) Q'.
Proof.
  intros Hm Hk w Hw. unfold st_bind. destruct (Hm w Hw) as [H1 H2].
  destruct (m w) as [[a|e|p] w1]; simpl in *; [|split; [exact H1 | discriminate] ..].
  destruct (Hk a w1 (H2 a eq_refl)) as [H3 H4]. split; [etransitivity; eauto | exact H4].
Qed.
Lemma rg_try {E E' A} (m : ST World E A) (P : DB -> Prop) (Q : A -> DB -> Prop) :
  stable P -> rg P m Q ->
  rg P (st_try (E':=E') m) (fun r db => match r with inr a => Q a db | inl _ => P db end).
Proof.
  intros Hs Hm w Hw. unfold st_try. destruct (Hm w Hw) as [H1 H2].
  destruct (m w) as [[a|e|p] w1]; simpl in *; (split; [exact H1|]); intros ? Hx; simplify_eq; eauto.
Qed.
Lemma rg_maperr {E E' A} (f : E -> E') (m : ST World E A) P Q : rg P m Q -> rg P (st_maperr f m) Q.
Proof.
  intros Hm w Hw. unfold st_maperr. destruct (Hm w Hw) as [H1 H2].
  destruct (m w) as [[a|e|p] w1]; simpl in *; (split; [exact H1|]); intros; simplify_eq; auto.
Qed.
(** A program that keeps to [R] keeps every stable assertion. *)
Lemma rg_preserves {E A} (m : ST World E A) (P : DB -> Prop) :
  stable P -> preserves (on_db R) m -> rg P m (fun _ => P).
Proof. intros Hs Hm w Hw. pose proof (Hm w) as Hr. split; [exact Hr|]. intros a _. eapply Hs; eauto. Qed.
Lemma preserves_rg {E A} (m : ST World E A) Q : rg (fun _ => True) m Q -> preserves (on_db R) m.
Proof. intros Hm w. apply (Hm w I). Qed.
Lemma rg_unit {E A} (m : ST World E A) : preserves (on_db R) m -> rg (fun _ => True) m (fun _ _ => True).
Proof. intros Hm w _. split; [apply Hm | auto]. Qed.

Hypothesis rely : forall n db, R db (env_other n db).

Lemma rg_query {A} op (q : DB -> A) (P : DB -> Prop) (Q : A -> DB -> Prop) :
  (forall db, P db -> Q (q db) db) -> rg P (query op q) Q.
Proof.
  intros HQ w Hw. unfold query, st_maperr, driver_call, st_bind; simpl.
  destruct (env_fault _); simpl; (split; [reflexivity|]); intros ? Hx; [discriminate|].
  injection Hx as <-. auto.
Qed.
Lemma rg_read_tx {A} pkg cx (body : Tenant -> M A) (P : DB -> Prop) (Q : A -> DB -> Prop) :
  stable P -> (forall tc, From_ cx = inr tc -> rg P (body tc) Q) -> rg P (read_tx pkg cx body) Q.
Proof.
  intros Hs Hb. unfold read_tx, from_tenant. destruct (From_ cx) as [e|tc] eqn:F; [apply rg_err|].
  change (rg P (if cx_tx cx then body tc
    else others ;;; st_maperr (EWrap (pkg ++ ".sqlite: begin")) driver_call ;;; body tc) Q).
  destruct (cx_tx cx); [apply Hb; reflexivity|].
  eapply rg_bind; [apply rg_preserves; [exact Hs | apply pres_others; exact rely]|]. intros ?.
  eapply rg_bind; [apply rg_preserves; [exact Hs | apply preserves_maperr, pres_driver_call; exact _]|].
  intros ?. apply Hb. reflexivity.
Qed.

Lemma rg_same {E A} (m : ST World E A) (P : DB -> Prop) :
  (forall w, W_db (snd (m w)) = W_db w) -> rg P m (fun _ => P).
Proof. intros Hm w Hw. rewrite Hm. split; [reflexivity | auto]. Qed.
Lemma driver_call_same w : W_db (snd (driver_call w)) = W_db w.
Proof. unfold driver_call, st_bind; simpl. destruct (env_fault _); reflexivity. Qed.
Lemma driver_maperr_same {E} (f : Error -> E) w : W_db (snd (st_maperr f driver_call w)) = W_db w.
Proof.
  unfold st_maperr. pose proof (driver_call_same w). destruct (driver_call w) as [[a|e|q] w']; exact H0.
Qed.
Lemma rg_or_rollback {E A} (m : ST World E A) P Q : rg P m Q -> rg P (or_rollback m) Q.
Proof.
  intros Hm w Hw. destruct (Hm w Hw) as [H1 H2]. unfold or_rollback.
  destruct (m w) as [[a|e|q] w']; simpl in *; [auto | split; [reflexivity | discriminate] ..].
Qed.
Lemma rg_in_tx {E A} inj b c (body : ST World E A) P Q :
  stable P -> rg P body Q -> rg P (in_tx inj b c body) Q.
Proof.
  intros Hs Hb. unfold in_tx.
  eapply rg_bind; [apply rg_preserves; [exact Hs | apply pres_others; exact rely]|]. intros ?.
  eapply rg_bind; [apply (rg_same _ P), driver_maperr_same|]. intros ?.
  apply rg_or_rollback. eapply rg_bind; [exact Hb|]. intros x.
  eapply rg_bind; [apply (rg_same _ (Q x)), driver_maperr_same|]. intros ?.
  apply rg_ret. auto.
Qed.
Lemma rg_write_tx {A} pkg cx (body : Tenant -> M A) (P : DB -> Prop) (Q : A -> DB -> Prop) :
  stable P -> (forall tc, From_ cx = inr tc -> rg P (body tc) Q) -> rg P (write_tx pkg cx body) Q.
Proof.
  intros Hs Hb. unfold write_tx, from_tenant. destruct (From_ cx) as [e|tc] eqn:F; [apply rg_err|].
  change (rg P (if cx_tx cx then body tc
    else in_tx (fun e => e) (pkg ++ ".sqlite: begin") (pkg ++ ".sqlite: commit") (body tc)) Q).
  destruct (cx_tx cx); [|apply rg_in_tx; [exact Hs|]]; apply Hb; reflexivity.
Qed.
Lemma rg_exec_stmt (stmt : Statement) (P : DB -> Prop) :
  (forall db db' n, P db -> stmt db = inr (db', n) -> R db db') ->
  rg P (exec_stmt stmt) (fun _ _ => True).
Proof.
  intros HS w Hw. unfold exec_stmt, st_bind. pose proof (driver_call_same w) as Hd.
  destruct (driver_call w) as [[[]|e|q] w1]; simpl in *; [|split; [rewrite Hd; reflexivity | auto] ..].
  destruct (stmt (W_db w1)) as [[c m]|[db' n]] eqn:E; simpl; (split; [|auto]); [rewrite Hd; reflexivity|].
  rewrite Hd in E. eapply HS; eauto.
Qed.
(** A statement with what it leaves. *)
Lemma rg_exec_post (stmt : Statement) (P : DB -> Prop) (Q : nat -> DB -> Prop) :
  (forall db db' n, P db -> stmt db = inr (db', n) -> R db db' /\ Q n db') -> rg P (exec_stmt stmt) Q.
Proof.
  intros HS w Hw. unfold exec_stmt, st_bind. pose proof (driver_call_same w) as Hd.
  destruct (driver_call w) as [[[]|e|q] w1]; simpl in *; [|split; [rewrite Hd; reflexivity | discriminate] ..].
  destruct (stmt (W_db w1)) as [[c m]|[db' n]] eqn:E; simpl; [rewrite Hd; split; [reflexivity | discriminate]|].
  rewrite Hd in E. destruct (HS _ _ _ Hw E) as [H1 H2]. split; [exact H1|]. intros a [= <-]. exact H2.
Qed.
(** A write whose precondition other sessions keep, though the operation's own steps may not. *)
Lemma rg_write_tx_at {A} pkg cx (body : Tenant -> M A) (P : DB -> Prop) (Q : A -> DB -> Prop) :
  (forall n db, P db -> P (env_other n db)) -> (forall tc, From_ cx = inr tc -> rg P (body tc) Q) ->
  rg P (write_tx pkg cx body) Q.
Proof.
  intros Hs Hb. unfold write_tx, from_tenant. destruct (From_ cx) as [e|tc] eqn:F; [apply rg_err|].
  change (rg P (if cx_tx cx then body tc
    else in_tx (fun e => e) (pkg ++ ".sqlite: begin") (pkg ++ ".sqlite: commit") (body tc)) Q).
  destruct (cx_tx cx); [apply Hb; reflexivity|]. unfold in_tx.
  eapply (rg_bind _ _ P (fun _ => P)).
  { intros w Hw. split; [apply rely|]. intros [] _. apply (Hs (W_step w)), Hw. }
  intros ?. eapply rg_bind; [apply (rg_same _ P), driver_maperr_same|]. intros ?.
  apply rg_or_rollback. eapply rg_bind; [apply Hb; reflexivity|]. intros x.
  eapply rg_bind; [apply (rg_same _ (Q x)), driver_maperr_same|]. intros ?.
  apply rg_ret. auto.
Qed.
Lemma rg_exec_save op tr nf stmt (P : DB -> Prop) :
  (forall db db' n, P db -> stmt db = inr (db', n) -> R db db') ->
  rg P (exec_save op tr nf stmt) (fun _ _ => True).
Proof.
  intros HS w Hw. unfold exec_save, st_bind, st_try. destruct (rg_exec_stmt stmt P HS w Hw) as [H1 _].
  destruct (exec_stmt stmt w) as [[n|e|q] w1]; simpl in *.
  - destruct n; simpl; split; auto.
  - destruct (tr e); simpl; split; auto.
  - split; auto.
Qed.
End RelyGuarantee.

(** ** A logic of runs without interference

    [reads P m]: [m] leaves the database alone and a value it returns satisfies [P];
    [runs Q m]: a run of [m] that succeeds relates its value and databases by [Q];
    [commits Q m]: as [runs], and a run that fails leaves the database alone. *)
Section Quiet.
Context `{Env}.

Definition quiet : Prop := forall n db, env_other n db = db.
(** No other session interferes with a call: it runs inside a unit of work, or there is none. *)
Definition calm (cx : Ctx) : Prop := cx_tx cx = true \/ quiet.
Lemma calm_WithTx cx : calm (WithTx cx).
Proof. left; reflexivity. Qed.
Lemma calm_quiet cx : quiet -> calm cx.
Proof. right; assumption. Qed.

Definition reads_e {E A} (P : A -> DB -> Prop) (X : E -> DB -> Prop) (m : ST World E A) : Prop :=
  forall w, W_db (snd (m w)) = W_db w /\
    match fst (m w) with Ok a => P a (W_db w) | Err e => X e (W_db w) | Panic _ => True end.
Definition reads {E A} (P : A -> DB -> Prop) (m : ST World E A) : Prop := reads_e P (fun _ _ => True) m.
Definition runs {E A} (Q : A -> DB -> DB -> Prop) (m : ST World E A) : Prop :=
  forall w a, fst (m w) = Ok a -> Q a (W_db w) (W_db (snd (m w))).
Definition commits {E A} (Q : A -> DB -> DB -> Prop) (m : ST World E A) : Prop :=
  runs Q m /\ forall w, (forall a, fst (m w) <> Ok a) -> W_db (snd (m w)) = W_db w.

Lemma runs_conseq {E A} (Q Q' : A -> DB -> DB -> Prop) (m : ST World E A) :
  runs Q m -> (forall a db db', Q a db db' -> Q' a db db') -> runs Q' m.
Proof. intros Hm HQ w a Ha. auto. Qed.
Lemma commits_conseq {E A} (Q Q' : A -> DB -> DB -> Prop) (m : ST World E A) :
  commits Q m -> (forall a db db', Q a db db' -> Q' a db db') -> commits Q' m.
Proof. intros [H1 H2] HQ. split; auto. eapply runs_conseq; eauto. Qed.

Lemma reads_e_conseq {E A} (P P' : A -> DB -> Prop) (X X' : E -> DB -> Prop) (m : ST World E A) :
  reads_e P X m -> (forall a db, P a db -> P' a db) -> (forall e db, X e db -> X' e db) -> reads_e P' X' m.
Proof. intros Hm HP HX w. destruct (Hm w) as [H1 H2]. split; auto. destruct (fst (m w)); auto. Qed.
Lemma reads_of {E A} (P : A -> DB -> Prop) (X : E -> DB -> Prop) m : reads_e P X m -> reads P m.
Proof. intros Hm. eapply reads_e_conseq; [exact Hm | auto | auto]. Qed.
Lemma reads_conseq {E A} (P P' : A -> DB -> Prop) (m : ST World E A) :
  reads P m -> (forall a db, P a db -> P' a db) -> reads P' m.
Proof. intros Hm HP. eapply reads_e_conseq; eauto. Qed.
Lemma reads_ret {E A} (a : A) (P : A -> DB -> Prop) (X : E -> DB -> Prop) :
  (forall db, P a db) -> reads_e P X (@st_ret World E A a).
Proof. intros HP w. split; [reflexivity | apply HP]. Qed.
Lemma reads_err {E A} (e : E) (P : A -> DB -> Prop) (X : E -> DB -> Prop) :
  (forall db, X e db) -> reads_e P X (@st_err World E A e).
Proof. intros HX w. split; [reflexivity | apply HX]. Qed.
Lemma reads_bind {E A B} (m : ST World E A) (k : A -> ST World E B) P Q X :
  reads_e P X m ->
  (forall a, (exists db, P a db) ->
     reads_e (fun b db => P a db -> Q b db) (fun e db => P a db -> X e db) (k a)) ->
  reads_e Q X (st_bind m k).
Proof.
  intros Hm Hk w. unfold st_bind. destruct (Hm w) as [H1 H2].
  destruct (m w) as [[a|e|p] w1]; simpl in *; [|split; auto ..].
  destruct (Hk a (ex_intro _ _ H2) w1) as [H3 H4]. split; [congruence|].
  rewrite H1 in H4. destruct (fst (k a w1)); auto.
Qed.
Lemma reads_seq {E A B} (m : ST World E A) (k : A -> ST World E B) P Q :
  reads P m -> (forall a, (exists db, P a db) -> reads (fun b db => P a db -> Q b db) (k a)) ->
  reads Q (st_bind m k).
Proof.
  intros Hm Hk. eapply reads_bind; [exact Hm|]. intros a Ha.
  eapply reads_e_conseq; [apply Hk, Ha | auto | auto].
Qed.
Lemma reads_try {E E' A} (m : ST World E A) (P : A -> DB -> Prop) X :
  reads_e P X m ->
  reads (fun (r : E + A) db => match r with inr a => P a db | inl e => X e db end) (st_try (E':=E') m).
Proof.
  intros Hm w. unfold st_try. destruct (Hm w) as [H1 H2].
  destruct (m w) as [[a|e|p] w1]; simpl in *; auto.
Qed.
Lemma reads_maperr {E E' A} (f : E -> E') (m : ST World E A) (P : A -> DB -> Prop) X :
  reads_e P X m -> reads_e P (fun e' db => exists e, e' = f e /\ X e db) (st_maperr f m).
Proof.
  intros Hm w. unfold st_maperr. destruct (Hm w) as [H1 H2].
  destruct (m w) as [[a|e|p] w1]; simpl in *; eauto.
Qed.
Lemma reads_tick {E} X : reads_e (fun _ _ => True) X (@tick E).
Proof. intros w. split; [reflexivity | exact I]. Qed.
Lemma reads_NewV7 {E} X : reads_e (fun _ _ => True) X (NewV7 (E:=E)).
Proof. intros w. split; [reflexivity | exact I]. Qed.
Lemma reads_time_Now {E} X : reads_e (fun _ _ => True) X (time_Now (E:=E)).
Proof. intros w. split; [reflexivity | exact I]. Qed.
Lemma reads_others {E} X : quiet -> reads_e (fun _ _ => True) X (others (E:=E)).
Proof. intros Hq w. unfold others, st_bind; simpl. auto. Qed.

(** The errors of the infrastructure: the tenant, the driver and their wraps. *)
Lemma reads_driver_call : reads_e (fun _ _ => True) (fun e _ => infra e) driver_call.
Proof. intros w. unfold driver_call, st_bind; simpl. destruct (env_fault _); split; reflexivity || auto. Qed.
Lemma reads_driver_wrap op : reads_e (fun _ _ => True) (fun e _ => infra e) (st_maperr (EWrap op) driver_call).
Proof.
  eapply reads_e_conseq; [apply reads_maperr, reads_driver_call | auto|].
  simpl. intros e db (e' & -> & H'). exact H'.
Qed.
Lemma reads_from_tenant cx : reads_e (fun tc _ => From_ cx = inr tc) (fun e _ => infra e) (from_tenant cx).
Proof. intros w. unfold from_tenant. destruct (From_ cx) eqn:F; split; reflexivity || auto. Qed.
Lemma reads_unexpected {A} op e (P : A -> DB -> Prop) (X : Error -> DB -> Prop) :
  (forall db, X (EUnexpected op e) db) -> reads_e P X (unexpected op e).
Proof. apply reads_err. Qed.
Lemma reads_query {A} op (q : DB -> A) : reads_e (fun a db => a = q db) (fun e _ => infra e) (query op q).
Proof.
  intros w. unfold query, st_bind. destruct (reads_driver_wrap op w) as [H1 H2].
  destruct (st_maperr _ _ w) as [[[]|e|p] w1]; simpl in *; [|auto ..].
  split; congruence.
Qed.
Lemma reads_read_tx {A} pkg cx (body : Tenant -> M A) P (X : Error -> DB -> Prop) :
  calm cx -> (forall e db, infra e -> X e db) ->
  (forall tc, From_ cx = inr tc -> reads_e P X (body tc)) -> reads_e P X (read_tx pkg cx body).
Proof.
  intros Hq HX Hb. unfold read_tx.
  eapply reads_bind; [eapply reads_e_conseq; [apply reads_from_tenant | eauto | eauto]|].
  intros tc [db F]. simpl in F. specialize (Hb tc F).
  assert (Hb' : forall Y : DB -> Prop, reads_e (fun b db => Y db -> P b db) (fun e db => Y db -> X e db) (body tc))
    by (intros Y; eapply reads_e_conseq; [exact Hb | auto | auto]).
  destruct (cx_tx cx) eqn:Hx; [apply (Hb' (fun _ => From_ cx = inr tc))|].
  assert (Hq' : quiet) by (destruct Hq as [Hq|Hq]; [congruence | exact Hq]).
  eapply reads_bind; [apply reads_others, Hq'|]. intros u ?.
  eapply (reads_bind _ _ (fun _ _ => True));
    [eapply reads_e_conseq; [apply reads_driver_wrap | auto | simpl; auto]|].
  intros u' ?. eapply reads_e_conseq; [exact Hb | auto | auto].
Qed.

Lemma runs_bind {E A B} (m : ST World E A) (k : A -> ST World E B) Q1 (Q2 : A -> B -> DB -> DB -> Prop)
    (Q : B -> DB -> DB -> Prop) :
  runs Q1 m -> (forall a, (exists db db', Q1 a db db') -> runs (Q2 a) (k a)) ->
  (forall a b db db1 db2, Q1 a db db1 -> Q2 a b db1 db2 -> Q b db db2) -> runs Q (st_bind m k).
Proof.
  intros Hm Hk HQ w b. unfold st_bind. pose proof (Hm w) as H1.
  destruct (m w) as [[a|e|p] w1]; simpl in *; try discriminate. intros Hb.
  eapply HQ; [apply H1; reflexivity|]. eapply Hk; eauto.
Qed.
Lemma reads_runs {E A} (P : A -> DB -> Prop) (m : ST World E A) :
  reads P m -> runs (fun a db db' => db' = db /\ P a db) m.
Proof. intros Hm w a Ha. destruct (Hm w) as [H1 H2]. rewrite Ha in H2. auto. Qed.
Lemma runs_read_bind {E A B} (m : ST World E A) (k : A -> ST World E B) P (Q : B -> DB -> DB -> Prop) :
  reads P m -> (forall a, (exists db, P a db) -> runs (fun b db db' => P a db -> Q b db db') (k a)) ->
  runs Q (st_bind m k).
Proof.
  intros Hm Hk. eapply runs_bind; [apply reads_runs, Hm | |].
  - intros a (db & db' & _ & Ha). apply Hk. eauto.
  - intros a b db db1 db2 [-> Ha] Hb. auto.
Qed.
Lemma commits_read_bind {E A B} (m : ST World E A) (k : A -> ST World E B) P (Q : B -> DB -> DB -> Prop) :
  reads P m -> (forall a, (exists db, P a db) -> commits (fun b db db' => P a db -> Q b db db') (k a)) ->
  commits Q (st_bind m k).
Proof.
  intros Hm Hk. split.
  - eapply runs_read_bind; [exact Hm|]. intros a Ha. apply Hk, Ha.
  - intros w Hf. unfold st_bind in *. destruct (Hm w) as [H1 H2].
    destruct (m w) as [[a|e|p] w1]; simpl in *; auto.
    destruct (Hk a (ex_intro _ _ H2)) as [_ H3]. rewrite <- H1. apply H3, Hf.
Qed.
Lemma reads_commits {E A} (P : A -> DB -> Prop) (m : ST World E A) :
  reads P m -> commits (fun a db db' => db' = db /\ P a db) m.
Proof. intros Hm. split; [apply reads_runs, Hm|]. intros w _. apply Hm. Qed.
Lemma commits_err {E A} (e : E) (Q : A -> DB -> DB -> Prop) : commits Q (st_err e).
Proof. split; [intros w a [=] | intros w _; reflexivity]. Qed.
(** A commit followed by a value: a step that cannot fail. *)
Lemma commits_map {E A B} (m : ST World E A) (f : A -> B) (Q : B -> DB -> DB -> Prop) :
  commits (fun a => Q (f a)) m -> commits Q (let* a := m in st_ret (f a)).
Proof.
  intros [H1 H2]. unfold st_bind. split.
  - intros w b. specialize (H1 w). destruct (m w) as [[a|e|p] w1]; simpl in *; try discriminate.
    intros [= <-]. auto.
  - intros w Hf. specialize (H2 w). destruct (m w) as [[a|e|p] w1]; simpl in *;
      [destruct (Hf _ eq_refl) | apply H2; discriminate ..].
Qed.
(** A commit whose error is mapped by the caller, after which it stops. *)
Lemma commits_try_bind {E E' A B} (m : ST World E A) (k : E + A -> ST World E' B) (Q1 : A -> DB -> DB -> Prop) Q :
  commits Q1 m ->
  (forall e, commits (fun _ _ _ => False) (k (inl e))) ->
  (forall a, exists b, k (inr a) = st_ret b /\ (forall db db', Q1 a db db' -> Q b db db')) ->
  commits Q (let* r := st_try m in k r).
Proof.
  intros [H1 H2] Hl Hr. unfold st_bind, st_try. split.
  - intros w b. specialize (H1 w). destruct (m w) as [[a|e|p] w1]; simpl in *; try discriminate.
    + destruct (Hr a) as (b' & -> & HQ). simpl. intros [= <-]. auto.
    + intros Hb. destruct (proj1 (Hl e) w1 b Hb).
  - intros w Hf. specialize (H2 w). destruct (m w) as [[a|e|p] w1]; simpl in *.
    + destruct (Hr a) as (b' & Ek & HQ). rewrite Ek in Hf. destruct (Hf _ eq_refl).
    + rewrite (proj2 (Hl e)); [|exact Hf]. apply H2. discriminate.
    + apply H2; discriminate.
Qed.

Lemma runs_maperr {E E' A} (f : E -> E') (m : ST World E A) (Q : A -> DB -> DB -> Prop) :
  runs Q m -> runs Q (st_maperr f m).
Proof.
  intros Hm w a. specialize (Hm w). unfold st_maperr.
  destruct (m w) as [[b|e|p] w1]; simpl in *; intros; simplify_eq; auto.
Qed.

Lemma runs_or_rollback {E A} (m : ST World E A) (Q : A -> DB -> DB -> Prop) :
  runs Q m -> commits Q (or_rollback m).
Proof.
  intros Hr. split.
  - intros w a. specialize (Hr w). unfold or_rollback.
    destruct (m w) as [[x|e|p] w1]; simpl in *; intros; simplify_eq; auto.
  - intros w Hf. unfold or_rollback in *.
    destruct (m w) as [[x|e|p] w1]; simpl in *; auto. destruct (Hf _ eq_refl).
Qed.
Lemma commits_in_tx {E A} inj b c (body : ST World E A) (Q : A -> DB -> DB -> Prop) :
  quiet -> runs Q body -> commits Q (in_tx inj b c body).
Proof.
  intros Hq Hb. unfold in_tx.
  eapply commits_read_bind; [apply reads_others, Hq|]. intros u ?.
  eapply commits_read_bind; [apply (reads_of _ _ _ (reads_maperr _ _ _ _ reads_driver_call))|]. intros u' _.
  apply runs_or_rollback. eapply (runs_bind _ _ Q (fun a b db db' => db' = db /\ b = a)); [exact Hb | |].
  - intros a _. eapply runs_read_bind; [apply (reads_of _ _ _ (reads_maperr _ _ _ _ reads_driver_call))|].
    intros u'' _ w x. simpl. intros [= <-]. auto.
  - simpl. intros a a' db db1 db2 Ha [-> ->] _ _. exact Ha.
Qed.
(** Under interference a unit of work keeps to [R] when its body's runs do: its failures roll back. *)
Lemma pres_in_tx_runs {E A} (R : DB -> DB -> Prop) `{!PreOrder R} inj b c (body : ST World E A) :
  (forall n db, R db (env_other n db)) -> runs (fun _ => R) body -> preserves (on_db R) (in_tx inj b c body).
Proof.
  intros Hr Hb. unfold in_tx. apply preserves_bind; [apply _ | apply pres_others, Hr|]. intros _.
  apply preserves_bind; [apply _ | apply preserves_maperr, pres_driver_call; exact _|]. intros _.
  assert (HR : runs (fun _ => R) (let* a := body in st_maperr (fun e => inj (EWrap c e)) driver_call ;;; st_ret a)).
  { eapply (runs_bind _ _ (fun _ => R) (fun _ _ db db' => db' = db)); [exact Hb | |].
    - intros a _. eapply runs_read_bind; [apply (reads_of _ _ _ (reads_maperr _ _ _ _ reads_driver_call))|].
      intros u _ w x. simpl. intros [= <-]. auto.
    - intros a a' db db1 db2 Ha ->. exact Ha. }
  intros w. unfold on_db. destruct (runs_or_rollback _ _ HR) as [H1 H2].
  specialize (H1 w). specialize (H2 w).
  destruct (or_rollback _ w) as [[a|e|p] w1]; simpl in *;
    [apply (H1 a); reflexivity | rewrite H2; [reflexivity | discriminate] ..].
Qed.
Lemma pres_RunInTx_runs {E A} (R : DB -> DB -> Prop) `{!PreOrder R} inj cx (fn : Ctx -> ST World E A) :
  (forall n db, R db (env_other n db)) -> runs (fun _ => R) (fn (WithTx cx)) ->
  preserves (on_db R) (RunInTx inj cx fn).
Proof.
  intros Hr Hb. unfold RunInTx. destruct (cx_tx cx); [apply preserves_err, _ | apply pres_in_tx_runs; auto].
Qed.
Lemma commits_RunInTx {E A} inj cx (fn : Ctx -> ST World E A) (Q : A -> DB -> DB -> Prop) :
  quiet -> (cx_tx cx = false -> runs Q (fn (WithTx cx))) -> commits Q (RunInTx inj cx fn).
Proof. intros Hq Hb. unfold RunInTx. destruct (cx_tx cx); [apply commits_err | apply commits_in_tx; auto]. Qed.
Lemma commits_write_tx {A} pkg cx (body : Tenant -> M A) (Q : A -> DB -> DB -> Prop) :
  quiet -> cx_tx cx = false -> (forall tc, From_ cx = inr tc -> runs Q (body tc)) ->
  commits Q (write_tx pkg cx body).
Proof.
  intros Hq Hx Hb. unfold write_tx. rewrite Hx.
  eapply commits_read_bind; [apply (reads_of _ _ _ (reads_from_tenant cx))|]. intros tc [? F].
  apply commits_in_tx; auto. eapply runs_conseq; [apply Hb, F | auto].
Qed.
(** Inside the caller's unit of work a write runs with no transaction of its own. *)
Lemma runs_write_tx {A} pkg cx (body : Tenant -> M A) (Q : A -> DB -> DB -> Prop) :
  calm cx -> (forall tc, From_ cx = inr tc -> runs Q (body tc)) -> runs Q (write_tx pkg cx body).
Proof.
  intros Hq Hb. destruct (cx_tx cx) eqn:Hx; [|apply commits_write_tx; auto; destruct Hq; congruence || auto].
  unfold write_tx. rewrite Hx.
  eapply runs_read_bind; [apply (reads_of _ _ _ (reads_from_tenant cx))|]. intros tc [? F].
  eapply runs_conseq; [apply Hb, F | auto].
Qed.
Lemma runs_exec_save op tr nf stmt :
  runs (fun _ db db' => exists n, stmt db = inr (db', S n)) (exec_save op tr nf stmt).
Proof.
  intros w a. unfold exec_save, st_bind, st_try, exec_stmt, st_bind.
  pose proof (reads_driver_call w) as [H1 _]. destruct (driver_call w) as [[[]|e|p] w1]; simpl in *.
  - destruct (stmt (W_db w1)) as [[c m]|[db' n]] eqn:E; simpl.
    + destruct (tr _); discriminate.
    + destruct n; simpl; [discriminate|]. intros _. rewrite <- H1. eauto.
  - destruct (tr e); discriminate.
  - discriminate.
Qed.
End Quiet.

(** [reads_go] shows that a program of reads leaves the database alone. *)
Lemma reads_any_bind `{Env} {E A B} (m : ST World E A) (k : A -> ST World E B) :
  reads (fun _ _ => True) m -> (forall a, reads (fun _ _ => True) (k a)) -> reads (fun _ _ => True) (st_bind m k).
Proof.
  intros Hm Hk. eapply reads_seq; [exact Hm|]. intros a _. eapply reads_conseq; [apply Hk | auto].
Qed.
Lemma reads_any_try `{Env} {E E' A} (m : ST World E A) :
  reads (fun _ _ => True) m -> reads (fun _ _ => True) (st_try (E':=E') m).
Proof. intros Hm. eapply reads_conseq; [apply reads_try, Hm | auto]. Qed.
Lemma reads_any_read_tx `{Env} {A} pkg cx (body : Tenant -> M A) :
  calm cx -> (forall tc, reads (fun _ _ => True) (body tc)) -> reads (fun _ _ => True) (read_tx pkg cx body).
Proof. intros Hc Hb. apply reads_read_tx; [exact Hc | auto | intros tc _; apply Hb]. Qed.
Lemma reads_any_query `{Env} {A} op (q : DB -> A) : reads (fun _ _ => True) (query op q).
Proof. eapply reads_conseq; [apply (reads_of _ _ _ (reads_query op q)) | auto]. Qed.
Lemma reads_any_tenant `{Env} cx : reads (fun _ _ => True) (from_tenant cx).
Proof. eapply reads_conseq; [apply (reads_of _ _ _ (reads_from_tenant cx)) | auto]. Qed.

Ltac reads_go calm :=
  repeat first
    [ apply reads_ret; exact (fun _ => I) | apply reads_err; exact (fun _ => I)
    | apply reads_unexpected; exact (fun _ => I)
    | apply reads_any_tenant | apply reads_any_query | apply reads_time_Now | apply reads_NewV7
    | apply reads_any_read_tx; [exact calm | intros ?]
    | apply reads_any_bind; [| intros ?] | apply reads_any_try
    | match goal with |- reads _ (match ?x with _ => _ end) => destruct x end ].

(** Reads and commits in the rely-guarantee logic. *)
Lemma rg_read_bind `{Env} (R : DB -> DB -> Prop) `{!PreOrder R} {E A B} (m : ST World E A) (k : A -> ST World E B)
    (P0 : DB -> Prop) P Q :
  reads P m -> (forall a, rg R (fun db => P0 db /\ P a db) (k a) Q) -> rg R P0 (st_bind m k) Q.
Proof.
  intros Hm Hk w Hw. unfold st_bind. destruct (Hm w) as [E1 E2].
  destruct (m w) as [[a|e|q] w1]; simpl in *; [|split; [rewrite E1; reflexivity | discriminate] ..].
  destruct (Hk a w1) as [E3 E4]; [rewrite E1; auto|]. rewrite E1 in E3. auto.
Qed.
Lemma rg_of_commits `{Env} (R : DB -> DB -> Prop) `{!PreOrder R} {E A} (m : ST World E A) (P : DB -> Prop)
    (Q : A -> DB -> DB -> Prop) :
  commits Q m -> (forall a db db', Q a db db' -> P db -> R db db') -> rg R P m (fun _ _ => True).
Proof.
  intros [C1 C2] HQ w Hw. split; [|auto]. specialize (C1 w). specialize (C2 w).
  destruct (m w) as [[a|e|q] w1]; simpl in *; [eapply HQ; eauto | rewrite C2; [reflexivity | discriminate] ..].
Qed.
(** A port that only reads keeps to every relation other sessions keep to. *)
Definition read_only `{Env} {A} (m : M A) : Prop :=
  forall (R : DB -> DB -> Prop), PreOrder R ->
    (forall n db, R db (env_other n db)) -> preserves (on_db R) m.
(** Inside a unit of work it sees, and leaves, one database. *)
Definition reads_in_tx `{Env} {A} (m : Ctx -> M A) : Prop :=
  forall cx, cx_tx cx = true -> reads (fun _ _ => True) (m cx).

Section ReadOnly.
Context `{Env}.
Lemma read_only_bind {A B} (m : M A) (k : A -> M B) :
  read_only m -> (forall a, read_only (k a)) -> read_only (st_bind m k).
Proof. intros Hm Hk R HR rely. apply preserves_bind; [exact _ | apply Hm; assumption | intros a; apply Hk; assumption]. Qed.
Lemma read_only_try {A} (m : M A) : read_only m -> read_only (st_try (E' := Error) m).
Proof. intros Hm R HR rely. apply preserves_try, Hm; assumption. Qed.
Lemma read_only_ret {A} (a : A) : read_only (@st_ret World Error A a).
Proof. intros R HR _. apply preserves_ret, _. Qed.
Lemma read_only_err {A} (e : Error) : read_only (@st_err World Error A e).
Proof. intros R HR _. apply preserves_err, _. Qed.
Lemma read_only_same {A} (m : M A) : (forall w, W_db (snd (m w)) = W_db w) -> read_only m.
Proof. intros Hm R HR _ w. unfold on_db. rewrite Hm. reflexivity. Qed.
End ReadOnly.
Ltac ro :=
  repeat first
    [ match goal with
      | |- read_only (st_ret _) => apply read_only_ret
      | |- read_only (st_err _) => apply read_only_err
      | |- read_only (st_bind _ _) => apply read_only_bind; [| intros ?]
      | |- read_only (st_try _) => apply read_only_try
      end
    | match goal with |- read_only (match ?x with _ => _ end) => destruct x end
    | match goal with |- read_only (if ?x then _ else _) => destruct x end ].

Lemma read_only_reads `{Env} {A} (m : M A) : quiet -> read_only m -> reads (fun _ _ => True) m.
Proof.
  intros Hq Hr w. split; [symmetry; apply (Hr eq _ (fun n db => eq_sym (Hq n db)) w)|].
  destruct (fst (m w)); auto.
Qed.
Lemma reads_port `{Env} {A} (m : Ctx -> M A) cx :
  calm cx -> read_only (m cx) -> reads_in_tx m -> reads (fun _ _ => True) (m cx).
Proof. intros [Hx|Hq] Hr Ht; [apply Ht, Hx | apply read_only_reads; assumption]. Qed.

(** [NewV7] never gives an id twice: what it draws is in no table. *)
Definition fresh_in (db : DB) (u : uuid) : Prop :=
  u <> uuid_Nil /\ db_periods db !! u = None /\ db_closings db !! u = None /\ db_wallets db !! u = None
  /\ db_categories db !! u = None /\ db_txs db !! u = None.
Definition fresh_ids `{Env} : Prop := forall n db, fresh_in db (env_uuid n db).

Lemma reads_NewV7_fresh `{Env} {E} X : fresh_ids -> reads_e (fun u db => fresh_in db u) X (NewV7 (E:=E)).
Proof. intros Hf w. split; [reflexivity | apply Hf]. Qed.

(** One more than every id in the database. *)
Definition max_id {A} (m : gmap uuid A) : N := fold_right N.max 0%N (map fst (map_to_list m)).
Definition demo_fresh (db : DB) : uuid :=
  (100 + N.max (max_id (db_periods db)) (N.max (max_id (db_closings db)) (N.max (max_id (db_wallets db))
    (N.max (max_id (db_categories db)) (max_id (db_txs db))))))%N.

Lemma max_id_fresh {A} (m : gmap uuid A) u : (max_id m < u)%N -> m !! u = None.
Proof.
  intros Hu. destruct (m !! u) as [a|] eqn:E; [|reflexivity]. exfalso.
  apply elem_of_map_to_list, list_elem_of_In in E. unfold max_id in Hu.
  apply (in_map fst) in E. simpl in E. revert Hu E.
  generalize (map fst (map_to_list m)). intros l. induction l as [|x l IH]; simpl; [tauto|].
  intros Hu [->|Hin]; [lia|]. apply IH; auto. lia.
Qed.

(** ** A concrete environment, for the witnesses: no faults, no other session,
    ids above those in use and a clock that reads 2024-03-09T00:00:00Z. *)
Definition demo_env : Env := {|
  env_uuid := fun _ db => demo_fresh db;
  env_now := fun _ => (1709942400 * 1000000000)%Z;
  env_fault := fun _ => None;
  env_other := fun _ db => db;
  env_sheet := fun _ s => s
|}.
Definition demo_unicode : Unicode := {| unicode_lower := fun r => r; unicode_upper := fun r => r |}.
Definition demo_tz : TZDatabase := {| LoadLocation := fun name =>
  if String.eqb name "Asia/Jakarta" then Some (fun _ => mkZone 25200 (- 2 ^ 63) (2 ^ 63 - 1))
  else if String.eqb name "UTC" then Some UTC else None |}%Z.
Definition demo_tenant : Tenant := mkTenant 1 2 3.
Definition demo_cx : Ctx := mkCtx (Some demo_tenant) (Some (mkPrincipal 3 uuid_Nil)) false.
Definition empty_db : DB := 
  mkDB {[3%N := mkUserRow 3 "owner@demo.id" "Owner" true None None "" "" None 0]} ∅ None {[1%N := mkOrg 1 "demo" "Demo" 3 0 false]} {[(1%N, 3%N) := mkMembership 1 3 RoleOwner 0 false]}
    {[2%N := mkProject 2 1 "home" "Home" 0 false]} ∅ ∅ ∅ ∅ ∅ ∅ ∅ ∅ ∅ ∅ ∅.
Definition demo_world : World := mkWorld empty_db 0.

Lemma demo_quiet : @quiet demo_env.
Proof. intros n db. reflexivity. Qed.

Lemma demo_fresh_ids : @fresh_ids demo_env.
Proof.
  intros n db. simpl. unfold fresh_in, demo_fresh. split; [unfold uuid_Nil; lia|].
  repeat split; apply max_id_fresh; lia.
Qed.
