(* ===== verification/Wp.v ===== *)
(** * A weakest-precondition calculus

    [wp m db Q]: every run of [m] from the database [db] ends in an outcome and a
    database that satisfy [Q]. Unlike the logics of [World], it says how a run
    ends: [Q] tells a value from an error. *)
From Stdlib Require Import ZArith Lia String List.
From stdpp Require Import base gmap list strings.
From S2P Require Import Prelude GoStrings Errors Tenant World.
Local Open Scope string_scope.

Section Wp.
Context `{Env}.

Definition wp {E A} (m : ST World E A) (db : DB) (Q : Outcome E A -> DB -> Prop) : Prop :=
  forall w, W_db w = db -> Q (fst (m w)) (W_db (snd (m w))).

(** No call into the driver fails. *)
Definition faultless : Prop := forall n, env_fault n = None.

Lemma wp_conseq {E A} (m : ST World E A) db (Q Q' : Outcome E A -> DB -> Prop) :
  wp m db Q -> (forall o db', Q o db' -> Q' o db') -> wp m db Q'.
Proof. intros Hm HQ w Hw. apply HQ, Hm, Hw. Qed.
Lemma wp_and {E A} (m : ST World E A) db (Q Q' : Outcome E A -> DB -> Prop) :
  wp m db Q -> wp m db Q' -> wp m db (fun o db' => Q o db' /\ Q' o db').
Proof. intros H1 H2 w Hw. split; [apply H1, Hw | apply H2, Hw]. Qed.
Lemma wp_ret {E A} (a : A) db (Q : Outcome E A -> DB -> Prop) : Q (Ok a) db -> wp (st_ret a) db Q.
Proof. intros HQ w <-. exact HQ. Qed.
Lemma wp_err {E A} (e : E) db (Q : Outcome E A -> DB -> Prop) : Q (Err e) db -> wp (st_err e) db Q.
Proof. intros HQ w <-. exact HQ. Qed.
Lemma wp_bind {E A B} (m : ST World E A) (k : A -> ST World E B) db (Q : Outcome E B -> DB -> Prop) :
  wp m db (fun o db1 => match o with
                        | Ok a => wp (k a) db1 Q
                        | Err e => Q (Err e) db1
                        | Panic p => Q (Panic p) db1
                        end) ->
  wp (st_bind m k) db Q.
Proof.
  intros Hm w Hw. unfold st_bind. specialize (Hm w Hw).
  destruct (m w) as [[a|e|p] w1]; cbn in *; [apply Hm; reflexivity | exact Hm | exact Hm].
Qed.
Lemma wp_try {E E' A} (m : ST World E A) db (Q : Outcome E' (E + A) -> DB -> Prop) :
  wp m db (fun o db' => match o with
                        | Ok a => Q (Ok (inr a)) db'
                        | Err e => Q (Ok (inl e)) db'
                        | Panic p => Q (Panic p) db'
                        end) ->
  wp (st_try m) db Q.
Proof. intros Hm w Hw. unfold st_try. specialize (Hm w Hw). destruct (m w) as [[a|e|p] w1]; exact Hm. Qed.
Lemma wp_maperr {E E' A} (f : E -> E') (m : ST World E A) db (Q : Outcome E' A -> DB -> Prop) :
  wp m db (fun o db' => match o with
                        | Ok a => Q (Ok a) db'
                        | Err e => Q (Err (f e)) db'
                        | Panic p => Q (Panic p) db'
                        end) ->
  wp (st_maperr f m) db Q.
Proof. intros Hm w Hw. unfold st_maperr. specialize (Hm w Hw). destruct (m w) as [[a|e|p] w1]; exact Hm. Qed.
Lemma wp_tick {E} db (Q : Outcome E nat -> DB -> Prop) : (forall n, Q (Ok n) db) -> wp tick db Q.
Proof. intros HQ w <-. apply HQ. Qed.
Lemma wp_get_db {E} db (Q : Outcome E DB -> DB -> Prop) : Q (Ok db) db -> wp get_db db Q.
Proof. intros HQ w <-. exact HQ. Qed.
Lemma wp_put_db {E} db db' (Q : Outcome E unit -> DB -> Prop) : Q (Ok tt) db' -> wp (put_db db') db Q.
Proof. intros HQ w Hw. exact HQ. Qed.
Lemma wp_time_Now {E} db (Q : Outcome E Z -> DB -> Prop) : (forall n, Q (Ok (env_now n)) db) -> wp time_Now db Q.
Proof. intros HQ w <-. apply HQ. Qed.
Lemma wp_NewV7 {E} db (Q : Outcome E uuid -> DB -> Prop) :
  (forall n, Q (Ok (env_uuid n db)) db) -> wp NewV7 db Q.
Proof. intros HQ w <-. apply HQ. Qed.
Lemma wp_others {E} db (Q : Outcome E unit -> DB -> Prop) : quiet -> Q (Ok tt) db -> wp others db Q.
Proof. intros Hq HQ w <-. unfold others, st_bind; cbn. rewrite Hq. exact HQ. Qed.
(** With other sessions at work, what they commit. *)
Lemma wp_others_rely {E} db (Q : Outcome E unit -> DB -> Prop) :
  (forall n, Q (Ok tt) (env_other n db)) -> wp others db Q.
Proof. intros HQ w <-. apply HQ. Qed.
Lemma wp_from_tenant cx tc db (Q : Outcome Error Tenant -> DB -> Prop) :
  From_ cx = inr tc -> Q (Ok tc) db -> wp (from_tenant cx) db Q.
Proof. intros F HQ. unfold from_tenant. rewrite F. apply wp_ret, HQ. Qed.

(** A driver call gives nothing, or the fault it met. *)
Lemma wp_driver_call db (Q : Outcome Error unit -> DB -> Prop) :
  Q (Ok tt) db -> (~ faultless -> forall msg, Q (Err (ESqlite OtherCode msg)) db) -> wp driver_call db Q.
Proof.
  intros HQ HF w <-. unfold driver_call, st_bind; cbn. destruct (env_fault (W_step w)) as [msg|] eqn:E; cbn.
  - apply HF. intros Hf. rewrite Hf in E. discriminate.
  - exact HQ.
Qed.
Lemma wp_exec_stmt (stmt : Statement) db (Q : Outcome Error nat -> DB -> Prop) :
  match stmt db with
  | inl (code, msg) => Q (Err (ESqlite code msg)) db
  | inr (db', n) => Q (Ok n) db'
  end ->
  (~ faultless -> forall msg, Q (Err (ESqlite OtherCode msg)) db) -> wp (exec_stmt stmt) db Q.
Proof.
  intros HQ HF. unfold exec_stmt. apply wp_bind, wp_driver_call; [|exact HF].
  apply wp_bind, wp_get_db. destruct (stmt db) as [[c m]|[db' n]]; [apply wp_err, HQ|].
  apply wp_bind, wp_put_db, wp_ret, HQ.
Qed.
Lemma wp_query {A} op (q : DB -> A) db (Q : Outcome Error A -> DB -> Prop) :
  Q (Ok (q db)) db -> (~ faultless -> forall msg, Q (Err (EWrap op (ESqlite OtherCode msg))) db) ->
  wp (query op q) db Q.
Proof.
  intros HQ HF. unfold query. apply wp_bind, wp_maperr, wp_driver_call; [|exact HF].
  apply wp_bind, wp_get_db, wp_ret, HQ.
Qed.
Lemma wp_read_tx {A} pkg cx tc (body : Tenant -> M A) db (Q : Outcome Error A -> DB -> Prop) :
  calm cx -> From_ cx = inr tc -> wp (body tc) db Q ->
  (~ faultless -> forall msg, Q (Err (EWrap (pkg ++ ".sqlite: begin") (ESqlite OtherCode msg))) db) ->
  wp (read_tx pkg cx body) db Q.
Proof.
  intros Hc F Hb HF. unfold read_tx. apply wp_bind, (wp_from_tenant _ tc); [exact F|].
  destruct (cx_tx cx) eqn:Ex; [exact Hb|].
  assert (Hq : quiet) by (destruct Hc; congruence || assumption).
  apply wp_bind, wp_others; [exact Hq|]. apply wp_bind, wp_maperr, wp_driver_call; [exact Hb | exact HF].
Qed.
Lemma wp_or_rollback {E A} (m : ST World E A) db (Q : Outcome E A -> DB -> Prop) :
  wp m db (fun o db' => match o with Ok a => Q (Ok a) db' | o => Q o db end) -> wp (or_rollback m) db Q.
Proof.
  intros Hm w <-. specialize (Hm w eq_refl). unfold or_rollback. destruct (m w) as [[a|e|p] w1]; exact Hm.
Qed.
(** A unit of work: in a faultless environment, its body. *)
Lemma wp_in_tx {E A} inj b c (body : ST World E A) db (Q : Outcome E A -> DB -> Prop) :
  quiet ->
  wp body db (fun o db' => match o with Ok a => Q (Ok a) db' | o => Q o db end) ->
  (~ faultless -> forall e, Q (Err (inj e)) db) -> wp (in_tx inj b c body) db Q.
Proof.
  intros Hq Hb HF. unfold in_tx. apply wp_bind, wp_others; [exact Hq|].
  apply wp_bind, wp_maperr, wp_driver_call; [|intros Hf msg; apply (HF Hf)].
  apply wp_or_rollback, wp_bind. eapply wp_conseq; [exact Hb|]. intros [a|e|p] db' HQ; [|exact HQ ..].
  apply wp_bind, wp_maperr, wp_driver_call; [apply wp_ret, HQ | intros Hf msg; apply (HF Hf)].
Qed.
Lemma wp_RunInTx {E A} inj cx (fn : Ctx -> ST World E A) db (Q : Outcome E A -> DB -> Prop) :
  quiet -> cx_tx cx = false ->
  wp (fn (WithTx cx)) db (fun o db' => match o with Ok a => Q (Ok a) db' | o => Q o db end) ->
  (~ faultless -> forall e, Q (Err (inj e)) db) -> wp (RunInTx inj cx fn) db Q.
Proof. intros Hq Hx Hb HF. unfold RunInTx. rewrite Hx. apply wp_in_tx; assumption. Qed.
Lemma wp_write_tx {A} pkg cx tc (body : Tenant -> M A) db (Q : Outcome Error A -> DB -> Prop) :
  calm cx -> From_ cx = inr tc ->
  wp (body tc) db (fun o db' => match o with Ok a => Q (Ok a) db' | o => Q o db /\ Q o db' end) ->
  (~ faultless -> forall e, Q (Err e) db) -> wp (write_tx pkg cx body) db Q.
Proof.
  intros Hc F Hb HF. unfold write_tx. apply wp_bind, (wp_from_tenant _ tc); [exact F|].
  destruct (cx_tx cx) eqn:Ex.
  - eapply wp_conseq; [exact Hb|]. intros [a|e|p] db'; tauto.
  - apply wp_in_tx; [destruct Hc; congruence || assumption | | exact HF].
    eapply wp_conseq; [exact Hb|]. intros [a|e|p] db'; tauto.
Qed.

(** What every run of [m] does in the other logics, as a precondition. *)
Lemma wp_preserves {E A} (R : DB -> DB -> Prop) (m : ST World E A) db :
  preserves (on_db R) m -> wp m db (fun _ db' => R db db').
Proof. intros Hm w <-. apply (Hm w). Qed.
Lemma wp_commits {E A} (Q : A -> DB -> DB -> Prop) (m : ST World E A) db :
  commits Q m -> wp m db (fun o db' => match o with Ok a => Q a db db' | _ => db' = db end).
Proof.
  intros [H1 H2] w <-. specialize (H1 w). specialize (H2 w).
  destruct (m w) as [[a|e|p] w1]; cbn in *; [auto | apply H2; discriminate ..].
Qed.
End Wp.
