(* ===== verification/OutboxStore.v ===== *)
(** * The outbox's store and dispatch worker ([internal/platform/outbox/sqlite.go], [worker.go])

    The durable delivery queue: entries are enqueued inside a unit of work,
    claimed by dispatchers under a lease, and settled by the claim that still
    holds them. Each statement commits by itself outside a unit of work, so other
    dispatchers may act between any two of them. *)
From Stdlib Require Import ZArith Lia String List.
From stdpp Require Import base gmap list strings.
From S2P Require Import Prelude GoStrings Errors Tenant Outbox World.
Local Open Scope string_scope.
Local Open Scope Z_scope.

(** ** Columns *)

Definition row_org (r : OutboxRow) : uuid := ob_OrgID (or_entry r).
Definition row_status (r : OutboxRow) : Status := ob_Status (or_entry r).
Definition row_attempt (r : OutboxRow) : Z := ob_Attempt (or_entry r).
Definition row_due (r : OutboxRow) : Z := ob_NextAttemptAt (or_entry r).
Definition row_target (r : OutboxRow) : string := ob_Target (or_entry r).

(** [UPDATE ... SET attempt, next_attempt_at, status, last_error, delivered_at]. *)
Definition set_state (attempt due : Z) (status : Status) (lastError : string) (deliveredAt : option Z)
    (r : OutboxRow) : OutboxRow :=
  let e := or_entry r in
  mkOutboxRow
    (mkEntry (ob_ID e) (ob_EventID e) (ob_OrgID e) (ob_ProjectID e) (ob_Target e) (ob_Payload e)
       attempt due status lastError (ob_CreatedAt e)) deliveredAt.

(** The [SET] lists of the statements below. *)
Definition set_claimed (now : Z) (r : OutboxRow) : OutboxRow :=
  set_state (row_attempt r + 1) (now + ClaimLease) (row_status r) (ob_LastError (or_entry r)) (or_DeliveredAt r) r.
Definition set_reaped (r : OutboxRow) : OutboxRow :=
  set_state (row_attempt r) (row_due r) StatusFailed (ob_LastError (or_entry r)) (or_DeliveredAt r) r.
Definition set_delivered (at_ : Z) (r : OutboxRow) : OutboxRow :=
  set_state (row_attempt r) (row_due r) StatusDelivered "" (Some at_) r.
Definition set_failed_try (retryAt : Z) (cause : string) (r : OutboxRow) : OutboxRow :=
  set_state (row_attempt r) retryAt (if MaxAttempts <=? row_attempt r then StatusFailed else StatusPending)
    (truncateCause cause) (or_DeliveredAt r) r.
Definition set_requeued (now : Z) (r : OutboxRow) : OutboxRow :=
  set_state 0 now StatusPending "" (or_DeliveredAt r) r.

(** ** The [WHERE] clauses *)

Definition pendingIn (tc : Tenant) (r : OutboxRow) : bool :=
  N.eqb (row_org r) (OrgID tc) && String.eqb (row_status r) StatusPending.
Definition dueRow (tc : Tenant) (now : Z) (r : OutboxRow) : bool :=
  pendingIn tc r && (row_attempt r <? MaxAttempts) && (row_due r <=? now).
Definition exhaustedRow (tc : Tenant) (now : Z) (r : OutboxRow) : bool :=
  pendingIn tc r && (MaxAttempts <=? row_attempt r) && (row_due r <=? now).
Definition claimedRow (tc : Tenant) (e : Entry) (r : OutboxRow) : bool :=
  N.eqb (row_org r) (OrgID tc) && N.eqb (ob_ID (or_entry r)) (ob_ID e)
  && String.eqb (row_status r) StatusPending && (row_attempt r =? ob_Attempt e).
Definition failedRow (tc : Tenant) (id : uuid) (target : string) (r : OutboxRow) : bool :=
  N.eqb (row_org r) (OrgID tc) && N.eqb (ob_ID (or_entry r)) id
  && String.eqb (row_target r) target && String.eqb (row_status r) StatusFailed.
Definition failedOf (tc : Tenant) (target : string) (r : OutboxRow) : bool :=
  N.eqb (row_org r) (OrgID tc) && String.eqb (row_target r) target && String.eqb (row_status r) StatusFailed.

(** ** Statements *)

(** [UPDATE ... WHERE], which no constraint of the table refuses. *)
Definition update_where (p : OutboxRow -> bool) (f : OutboxRow -> OutboxRow) : Statement := fun db =>
  inr (set_outbox ((fun r => if p r then f r else r) <$> db_outbox db) db,
       List.length (List.filter p (rows (db_outbox db)))).

(** The unique key (org_id, event_id, target). *)
Definition same_key (a b : Entry) : bool :=
  N.eqb (ob_OrgID a) (ob_OrgID b) && N.eqb (ob_EventID a) (ob_EventID b)
  && String.eqb (ob_Target a) (ob_Target b).

(** [INSERT ... ON CONFLICT (org_id, event_id, target) DO NOTHING]: the conflict
    target first, then the primary key, then the foreign keys. *)
Definition outbox_insert (row : OutboxRow) : Statement := fun db =>
  let e := or_entry row in
  if existsb (fun r => same_key (or_entry r) e) (rows (db_outbox db)) then inr (db, 0%nat) else
  match db_outbox db !! ob_ID e with
  | Some _ => inl (CONSTRAINT_PRIMARYKEY, "UNIQUE constraint failed: outbox_entries.id")
  | None =>
    if bool_decide (ob_OrgID e ∈ db_orgs db) && bool_decide (ob_ProjectID e ∈ db_projects db)
    then inr (set_outbox (<[ob_ID e := row]> (db_outbox db)) db, 1%nat)
    else inl (CONSTRAINT_FOREIGNKEY, "FOREIGN KEY constraint failed")
  end.

(** The ids [ClaimDue]'s subquery selects: the oldest due first, [limit] at most. *)
Definition due_ids (tc : Tenant) (now limit : Z) (db : DB) : list uuid :=
  map (fun r => ob_ID (or_entry r))
    (firstn (Z.to_nat (claimBatch limit))
       (sort_by (fun a b => row_due a <=? row_due b) (List.filter (dueRow tc now) (rows (db_outbox db))))).

(** The rows a claim updates. *)
Definition claims_row (tc : Tenant) (now limit : Z) (db : DB) (r : OutboxRow) : bool :=
  N.eqb (row_org r) (OrgID tc) && existsb (N.eqb (ob_ID (or_entry r))) (due_ids tc now limit db).

(** ** The store *)
Section Store.
Context `{Env}.

(** [conn]: the caller's unit of work, or a statement of its own, before which
    other sessions may commit. *)
Definition on_conn {A} (cx : Ctx) (stmt : M A) : M A := if cx_tx cx then stmt else others ;;; stmt.

Definition reapExhausted (cx : Ctx) (tc : Tenant) (now : Z) : M unit :=
  on_conn cx (st_maperr (EWrap "outbox.sqlite.ClaimDue: reap exhausted")
                (exec_stmt (update_where (exhaustedRow tc now) set_reaped))) ;;; st_ret tt.

(** [UPDATE ... RETURNING]: the rows as the statement left them. *)
Definition claim_stmt (tc : Tenant) (now limit : Z) : M (list Entry) :=
  st_maperr (EWrap "outbox.sqlite.ClaimDue") driver_call ;;;
  let* db := get_db in
  let p := claims_row tc now limit db in
  put_db (set_outbox ((fun r => if p r then set_claimed now r else r) <$> db_outbox db) db) ;;;
  st_ret (map (fun r => or_entry (set_claimed now r)) (List.filter p (rows (db_outbox db)))).

Definition outbox_Enqueue (cx : Ctx) (e : Entry) : M unit :=
  match Entry_validate e with
  | Some err => st_err (EOutbox err)
  | None =>
    let* tc := from_tenant cx in
    if negb (N.eqb (ob_OrgID e) (OrgID tc))
    then st_err (EOutbox (InvalidEntryError "OrgID" "does not match the tenant scope on ctx")) else
    if negb (N.eqb (ob_ProjectID e) (ProjectID tc))
    then st_err (EOutbox (InvalidEntryError "ProjectID" "does not match the tenant scope on ctx")) else
    let* now := time_Now in
    let due := if ob_NextAttemptAt e =? zero_Time then now else ob_NextAttemptAt e in
    let row := mkOutboxRow (mkEntry (ob_ID e) (ob_EventID e) (ob_OrgID e) (ob_ProjectID e) (ob_Target e)
                              (ob_Payload e) 0 due StatusPending "" now) None in
    on_conn cx (st_maperr (EWrap "outbox.sqlite.Enqueue") (exec_stmt (outbox_insert row))) ;;; st_ret tt
  end.

Definition outbox_ClaimDue (cx : Ctx) (now limit : Z) : M (list Entry) :=
  let* tc := from_tenant cx in
  reapExhausted cx tc now ;;;
  on_conn cx (claim_stmt tc now limit).

Definition refuseReason (cx : Ctx) (tc : Tenant) (e : Entry) : M unit :=
  let* r := on_conn cx (query "outbox.sqlite: settle: read status" (fun db =>
      List.find (fun r => N.eqb (row_org r) (OrgID tc) && N.eqb (ob_ID (or_entry r)) (ob_ID e))
        (rows (db_outbox db)))) in
  match r with
  | None => st_err (EOutbox (OutboxNotFoundError (uuid_String (ob_ID e))))
  | Some row =>
    if String.eqb (row_status row) StatusPending
    then st_err (EOutbox (StaleClaimError (uuid_String (ob_ID e)) (ob_Attempt e) (row_attempt row)))
    else st_err (EOutbox (TerminalStateError (uuid_String (ob_ID e)) (row_status row)))
  end.

Definition settle (cx : Ctx) (tc : Tenant) (e : Entry) (stmt : Statement) : M unit :=
  let* n := on_conn cx (st_maperr (EWrap "outbox.sqlite: settle") (exec_stmt stmt)) in
  if Nat.ltb 0 n then st_ret tt else refuseReason cx tc e.

Definition outbox_Succeed (cx : Ctx) (e : Entry) (at_ : Z) : M unit :=
  let* tc := from_tenant cx in
  settle cx tc e (update_where (claimedRow tc e) (set_delivered at_)).

Definition outbox_Fail (cx : Ctx) (e : Entry) (retryAt : Z) (cause : string) : M unit :=
  let* tc := from_tenant cx in
  settle cx tc e (update_where (claimedRow tc e) (set_failed_try retryAt cause)).

Definition refuseRequeue (cx : Ctx) (tc : Tenant) (id : uuid) (target : string) : M unit :=
  let* r := on_conn cx (query "outbox.sqlite.Requeue: read status" (fun db =>
      List.find (fun r => N.eqb (row_org r) (OrgID tc) && N.eqb (ob_ID (or_entry r)) id
                          && String.eqb (row_target r) target) (rows (db_outbox db)))) in
  match r with
  | None => st_err (EOutbox (OutboxNotFoundError (uuid_String id)))
  | Some row => st_err (EOutbox (NotFailedError (uuid_String id) (row_status row)))
  end.

Definition outbox_Requeue (cx : Ctx) (id : uuid) (target : string) : M unit :=
  let* tc := from_tenant cx in
  let* now := time_Now in
  let* n := on_conn cx (st_maperr (EWrap "outbox.sqlite.Requeue")
              (exec_stmt (update_where (failedRow tc id target) (set_requeued now)))) in
  if Nat.ltb 0 n then st_ret tt else refuseRequeue cx tc id target.

Definition outbox_RequeueFailed (cx : Ctx) (target : string) : M nat :=
  let* tc := from_tenant cx in
  let* now := time_Now in
  on_conn cx (st_maperr (EWrap "outbox.sqlite.RequeueFailed")
    (exec_stmt (update_where (failedOf tc target) (set_requeued now)))).

Definition outbox_ByID (cx : Ctx) (id : uuid) (target : string) : M Entry :=
  let* tc := from_tenant cx in
  let* r := on_conn cx (query "outbox.sqlite.ByID" (fun db =>
      List.find (fun r => N.eqb (row_org r) (OrgID tc) && N.eqb (ob_ID (or_entry r)) id
                          && String.eqb (row_target r) target) (rows (db_outbox db)))) in
  match r with
  | None => st_err (EOutbox (OutboxNotFoundError (uuid_String id)))
  | Some row => st_ret (or_entry row)
  end.

(** Newest first: [created_at DESC, id DESC]. *)
Definition newest_first (a b : OutboxRow) : bool :=
  (ob_CreatedAt (or_entry b) <? ob_CreatedAt (or_entry a))
  || ((ob_CreatedAt (or_entry b) =? ob_CreatedAt (or_entry a))
      && N.leb (ob_ID (or_entry b)) (ob_ID (or_entry a))).

Definition outbox_ListByTarget (cx : Ctx) (target : string) (limit : Z) : M (list Entry) :=
  let* tc := from_tenant cx in
  let* rs := on_conn cx (query "outbox.sqlite.ListByTarget" (fun db =>
      firstn (Z.to_nat (listBatch limit))
        (sort_by newest_first
           (List.filter (fun r => N.eqb (row_org r) (OrgID tc) && String.eqb (row_target r) target)
              (rows (db_outbox db)))))) in
  st_ret (map or_entry rs).
End Store.

(** ** The dispatch worker *)

(** What a sweep draws from its surroundings: random numbers, and whether its
    context is done. *)
Class Sweeping := {
  sw_rand : nat -> Z;
  sw_done : nat -> bool
}.
(** [outbox.Deliverer]: the worker sees no more of its error than the text. *)
Class Deliverer := { Deliver : Ctx -> Entry -> ST World string unit }.

Record WorkerOpts := mkWorkerOpts { o_Tick : Z; o_Batch : Z; o_Concurrency : Z; o_SettleGrace : Z }.
(** [NewWorker]'s defaults. *)
Definition worker_opts (o : WorkerOpts) : WorkerOpts :=
  mkWorkerOpts (if o_Tick o <=? 0 then 5 * Second else o_Tick o)
    (if o_Batch o <=? 0 then 100 else o_Batch o)
    (if o_Concurrency o <=? 0 then 8 else o_Concurrency o)
    (if o_SettleGrace o <=? 0 then 5 * Second else o_SettleGrace o).

Section Worker.
Context `{Env, Sweeping, Deliverer}.

Definition ctx_Err : M bool := let* n := tick in st_ret (sw_done n).

(** The outcome is recorded; an error of the settle is logged. *)
Definition deliverOne (cx : Ctx) (e : Entry) : M unit :=
  let* r := st_try (Deliver cx e) in
  match r with
  | inr _ =>
    let* now := time_Now in
    let* _ := st_try (E' := Error) (outbox_Succeed cx e now) in st_ret tt
  | inl err =>
    let* now := time_Now in
    let* n := tick in
    let* _ := st_try (E' := Error)
                (outbox_Fail cx e (now + Backoff (sw_rand n) (ob_Attempt e + 1)) err) in st_ret tt
  end.

(** The batch's goroutines, one after the other; what runs beside one of them is
    interference on its statements. *)
Fixpoint deliver_all (cx : Ctx) (claimed : list Entry) : M unit :=
  match claimed with
  | [] => st_ret tt
  | e :: es =>
    let* done := ctx_Err in
    if done then st_ret tt else
    (let* done := ctx_Err in if done then st_ret tt else deliverOne cx e) ;;;
    deliver_all cx es
  end.

Definition drain (batch : Z) (cx : Ctx) : M unit :=
  let* now := time_Now in
  let* r := st_try (outbox_ClaimDue cx now batch) in
  match r with
  | inl _ => st_ret tt
  | inr claimed => deliver_all cx claimed
  end.

(** [tenant.Enumerator.Each] with [drain], stopping once the sweep's context is done. *)
Fixpoint drain_orgs (batch : Z) (cx : Ctx) (ids : list uuid) : M unit :=
  match ids with
  | [] => st_ret tt
  | id :: ids' =>
    drain batch (Into cx (mkTenant id uuid_Nil uuid_Nil)) ;;;
    let* done := ctx_Err in
    if done then st_ret tt else drain_orgs batch cx ids'
  end.

Definition OrgIDs : M (list uuid) :=
  others ;;; query "tenant: enumerate orgs" (fun db => elements (db_orgs db)).

Definition sweep (batch : Z) (cx : Ctx) : M unit :=
  let* r := st_try OrgIDs in
  match r with
  | inl _ => st_ret tt
  | inr ids => drain_orgs batch cx ids
  end.

(** [Run], for as many ticks as fire before the context is done. *)
Fixpoint worker_Run (ticks : nat) (opts : WorkerOpts) (cx : Ctx) : M unit :=
  match ticks with
  | O => st_ret tt
  | S n =>
    let* done := ctx_Err in
    if done then st_ret tt else sweep (o_Batch (worker_opts opts)) cx ;;; worker_Run n opts cx
  end.
End Worker.
