(* ===== verification/OrgService.v ===== *)
(** * Organisations and projects: stores and services ([internal/org], [internal/project])

    The SQLite stores run each statement on the pool, past any unit of work; the
    services over them, with the membership gate other modules ask. *)
From Stdlib Require Import ZArith Lia String List.
From stdpp Require Import base gmap list strings.
From S2P Require Import Prelude GoStrings Errors Tenant Org World.
Local Open Scope string_scope.
Local Open Scope Z_scope.

(** ** Statements *)
Definition other_org (p : Org -> bool) (id : uuid) (db : DB) : bool :=
  existsb (fun o => negb (N.eqb (og_ID o) id) && p o) (rows (db_org_rows db)).
(** Slugs are unique, at most one organisation is the system's, and its creator exists. *)
Definition org_upsert (o : Org) : Statement := fun db =>
  let row := match db_org_rows db !! og_ID o with
             | Some old => mkOrg (og_ID o) (og_Slug o) (og_Name o) (og_OwnerID o) (og_CreatedAt old) (og_System o)
             | None => o
             end in
  if other_org (fun x => String.eqb (og_Slug x) (og_Slug o)) (og_ID o) db
  then inl (CONSTRAINT_UNIQUE, "UNIQUE constraint failed: orgs.slug") else
  if og_System o && other_org og_System (og_ID o) db
  then inl (CONSTRAINT_UNIQUE, "UNIQUE constraint failed: orgs.system") else
  if bool_decide (og_OwnerID o ∈ db_users db)
  then inr (set_orgs (<[og_ID o := row]> (db_org_rows db)) db, 1%nat)
  else inl (CONSTRAINT_FOREIGNKEY, "FOREIGN KEY constraint failed").
Definition member_upsert (m : Membership) : Statement := fun db =>
  let key := (mb_OrgID m, mb_UserID m) in
  let row := match db_members db !! key with
             | Some old => mkMembership (mb_OrgID m) (mb_UserID m) (mb_Role m) (mb_CreatedAt old) (mb_System m)
             | None => m
             end in
  if negb (Role_IsValid (mb_Role m)) then inl (CONSTRAINT_CHECK, "CHECK constraint failed: role") else
  if bool_decide (mb_OrgID m ∈ db_orgs db) && bool_decide (mb_UserID m ∈ db_users db)
  then inr (set_members (<[key := row]> (db_members db)) db, 1%nat)
  else inl (CONSTRAINT_FOREIGNKEY, "FOREIGN KEY constraint failed").
Definition member_delete (orgID userID : uuid) : Statement := fun db =>
  match db_members db !! (orgID, userID) with
  | Some _ => inr (set_members (delete (orgID, userID) (db_members db)) db, 1%nat)
  | None => inr (db, 0%nat)
  end.
Definition other_project (p : Project -> bool) (orgID id : uuid) (db : DB) : bool :=
  existsb (fun x => negb (N.eqb (pj_ID x) id) && N.eqb (pj_OrgID x) orgID && p x) (rows (db_project_rows db)).
(** A conflicting row of another organisation is left alone and counts no row. *)
Definition project_upsert (tc : Tenant) (p : Project) : Statement := fun db =>
  match db_project_rows db !! pj_ID p with
  | Some old =>
    if negb (N.eqb (pj_OrgID old) (OrgID tc)) then inr (db, 0%nat) else
    if pj_System p && other_project pj_System (pj_OrgID old) (pj_ID p) db
    then inl (CONSTRAINT_UNIQUE, "UNIQUE constraint failed: projects.org_id") else
    inr (set_projects (<[pj_ID p := mkProject (pj_ID p) (pj_OrgID old) (pj_Slug old) (pj_Name p) (pj_CreatedAt old) (pj_System p)]>
           (db_project_rows db)) db, 1%nat)
  | None =>
    if other_project (fun x => String.eqb (pj_Slug x) (pj_Slug p)) (pj_OrgID p) (pj_ID p) db
    then inl (CONSTRAINT_UNIQUE, "UNIQUE constraint failed: projects.org_id, projects.slug") else
    if pj_System p && other_project pj_System (pj_OrgID p) (pj_ID p) db
    then inl (CONSTRAINT_UNIQUE, "UNIQUE constraint failed: projects.org_id") else
    if bool_decide (pj_OrgID p ∈ db_orgs db) && bool_decide (UserID tc ∈ db_users db)
    then inr (set_projects (<[pj_ID p := p]> (db_project_rows db)) db, 1%nat)
    else inl (CONSTRAINT_FOREIGNKEY, "FOREIGN KEY constraint failed")
  end.

(** ** Ports *)
(** [rand.IntN], before it is brought under its bound. *)
Class SlugDraws := slug_draw : nat -> Z.
(** The deployment allows new organisations ([capabilities.OrgCreation]). *)
Class OrgCaps := OrgCreation : bool.
(** The hooks registered with [OnMemberRemoved]. *)
Class RemovalHooks := onRemoved : list (Ctx -> uuid -> uuid -> M unit).

Section Stores.
Context `{Env}.

(** A statement on the pool: other sessions may commit before it. *)
Definition on_pool {A} (stmt : M A) : M A := others ;;; stmt.

Definition isSQLiteUniqueViolation (e : Error) (column : string) : bool :=
  match e with
  | ESqlite _ msg => Contains msg "UNIQUE constraint failed" && Contains msg column
  | _ => false
  end.
Definition org_Save (o : Org) : M unit :=
  let* r := st_try (on_pool (exec_stmt (org_upsert o))) in
  match r with
  | inl e =>
    if isSQLiteUniqueViolation e "orgs.system" then st_err (EOrg (SystemOrgExistsError (og_Slug o))) else
    if isSQLiteUniqueViolation e "slug" then st_err (EOrg (OrgAlreadyExistsError (og_Slug o)))
    else st_err (EWrap "org.sqlite: Save" e)
  | inr _ => st_ret tt
  end.
Definition org_one (op : string) (q : DB -> option Org) (notFound : OrgError) : M Org :=
  let* r := on_pool (query op q) in match r with None => st_err (EOrg notFound) | Some o => st_ret o end.
Definition by_slug (slug : string) (db : DB) : option Org :=
  List.find (fun o => String.eqb (og_Slug o) slug) (rows (db_org_rows db)).
Definition older_org (a b : Org) : bool :=
  (og_CreatedAt a <? og_CreatedAt b) || ((og_CreatedAt a =? og_CreatedAt b) && (og_ID a <=? og_ID b)%N).
Definition system_org (db : DB) : option Org := head (sort_by older_org (List.filter og_System (rows (db_org_rows db)))).
Definition org_store_BySlug (slug : string) : M Org := org_one "org.sqlite: query" (by_slug slug) (OrgNotFoundError "" slug false).
Definition org_store_SystemOrg : M Org := org_one "org.sqlite: SystemOrg" system_org (OrgNotFoundError "" "" true).
Definition org_store_ByID (id : uuid) : M Org :=
  org_one "org.sqlite: query" (fun db => db_org_rows db !! id) (OrgNotFoundError (uuid_String id) "" false).
Definition org_store_List (userID : uuid) : M (list Org) :=
  on_pool (query "org.sqlite: List" (fun db =>
    sort_by (fun a b => og_CreatedAt a <=? og_CreatedAt b)
      (List.filter (fun o => match db_members db !! (og_ID o, userID) with Some _ => true | None => false end)
         (rows (db_org_rows db))))).
(** The row's own id is drawn and never read again. *)
Definition SaveMembership (m : Membership) : M unit :=
  let* _ := NewV7 in
  st_maperr (EWrap "org.sqlite: SaveMembership") (on_pool (exec_stmt (member_upsert m))) ;;; st_ret tt.
Definition store_MembershipOf (orgID userID : uuid) : M Membership :=
  let* r := on_pool (query "org.sqlite: MembershipOf" (fun db => db_members db !! (orgID, userID))) in
  match r with
  | None => st_err (EOrg (MembershipMissingError (uuid_String orgID) (uuid_String userID)))
  | Some m => st_ret m
  end.
Definition store_ListMembers (orgID : uuid) : M (list Membership) :=
  on_pool (query "org.sqlite: ListMembers" (fun db =>
    sort_by (fun a b => mb_CreatedAt a <=? mb_CreatedAt b)
      (List.filter (fun m => N.eqb (mb_OrgID m) orgID) (map snd (map_to_list (db_members db)))))).
Definition store_RemoveMember (orgID userID : uuid) : M unit :=
  let* n := st_maperr (EWrap "org.sqlite: RemoveMember") (on_pool (exec_stmt (member_delete orgID userID))) in
  if Nat.eqb n 0 then st_err (EOrg (MembershipMissingError (uuid_String orgID) (uuid_String userID))) else st_ret tt.

(** Projects. *)
Definition is_unique (e : Error) : bool :=
  match e with ESqlite CONSTRAINT_UNIQUE _ | ESqlite CONSTRAINT_PRIMARYKEY _ => true | _ => false end.
Definition isSQLiteOneSystemViolation (e : Error) : bool :=
  is_unique e && match e with ESqlite _ msg => Contains msg "projects.org_id" && negb (Contains msg "projects.slug") | _ => false end.
Definition project_Save (cx : Ctx) (p : Project) : M unit :=
  let* tc := from_tenant cx in
  let* r := st_try (on_pool (exec_stmt (project_upsert tc p))) in
  match r with
  | inl e =>
    if isSQLiteOneSystemViolation e then st_err (EProject (SystemProjectExistsError (uuid_String (pj_OrgID p)) (pj_Slug p))) else
    if is_unique e then st_err (EProject (ProjectAlreadyExistsError "slug" (pj_Slug p)))
    else st_err (EWrap "project.sqlite.Save" e)
  | inr n => if Nat.eqb n 0 then st_err (EProject (ProjectNotFoundError (uuid_String (pj_ID p)) "" "")) else st_ret tt
  end.
Definition project_of (db : DB) (tc : Tenant) (id : uuid) : option Project :=
  match db_project_rows db !! id with
  | Some p => if N.eqb (pj_OrgID p) (OrgID tc) then Some p else None
  | None => None
  end.
Definition project_store_ByID (cx : Ctx) (id : uuid) : M Project :=
  let* tc := from_tenant cx in
  let* r := on_pool (query "project.sqlite.queryOne" (fun db => project_of db tc id)) in
  match r with None => st_err (EProject (ProjectNotFoundError (uuid_String id) "" "")) | Some p => st_ret p end.
Definition project_store_BySlug (cx : Ctx) (orgID : uuid) (slug : string) : M Project :=
  let* _ := from_tenant cx in
  let* r := on_pool (query "project.sqlite.queryOne" (fun db =>
    List.find (fun p => N.eqb (pj_OrgID p) orgID && String.eqb (pj_Slug p) slug) (rows (db_project_rows db)))) in
  match r with
  | None => st_err (EProject (ProjectNotFoundError "" (uuid_String orgID) slug))
  | Some p => st_ret p
  end.
Definition projects_of (db : DB) (orgID : uuid) : list Project :=
  sort_by (fun a b => pj_CreatedAt a <=? pj_CreatedAt b)
    (List.filter (fun p => N.eqb (pj_OrgID p) orgID) (rows (db_project_rows db))).
Definition project_store_List (cx : Ctx) (orgID : uuid) : M (list Project) :=
  let* _ := from_tenant cx in on_pool (query "project.sqlite.List" (fun db => projects_of db orgID)).
End Stores.

(** ** Generated slugs ([slug.Retry]) *)
Section Slugs.
Context `{Env, SlugDraws}.

Definition IntN (n : Z) : M Z := let* k := tick in st_ret (slug_draw k mod n).
Definition slug_Generate : M string :=
  let* a := IntN (Z.of_nat (List.length adjectives)) in
  let* n := IntN (Z.of_nat (List.length nouns)) in
  let* s := IntN (suffixMax - suffixMin + 1) in
  st_ret (Generate (Z.to_nat a) (Z.to_nat n) s).
Fixpoint retry_from {A} (attempts : nat) (taken : Error -> bool) (create : string -> M A) (last : Error) : M A :=
  match attempts with
  | O => st_err last
  | S rest =>
    let* candidate := slug_Generate in
    let* r := st_try (create candidate) in
    match r with
    | inr v => st_ret v
    | inl err => if taken err then retry_from rest taken create err else st_err err
    end
  end.
Definition Retry {A} (attempts : nat) (taken : Error -> bool) (create : string -> M A) : M A :=
  retry_from (Nat.max attempts 1) taken create (EText "").
End Slugs.

(** ** The organisations' service *)
Section OrgService.
Context `{Env, SlugDraws, OrgCaps, RemovalHooks}.

Definition adoptSingleton (existing : Org) (ownerID : uuid) : M Org :=
  let* existing :=
    (if og_System existing then st_ret existing else
     let o := org_set_system existing in
     let* r := st_try (org_Save o) in
     match r with
     | inl e => if IsSystemOrgExists e then st_err e else unexpected "org.BootstrapSingleton: Save" e
     | inr _ => st_ret o
     end) in
  let* r := st_try (store_MembershipOf (og_ID existing) ownerID) in
  match r with
  | inr m =>
    if mb_System m then st_ret existing else
    let* r := st_try (SaveMembership (member_set_system m)) in
    match r with
    | inl e => unexpected "org.BootstrapSingleton: SaveMembership" e
    | inr _ => st_ret existing
    end
  | inl e =>
    if negb (IsMembershipMissing e) && negb (IsOrgNotFound e) then unexpected "org.BootstrapSingleton: MembershipOf" e else
    let* now := time_Now in
    match NewMembership now (og_ID existing) ownerID RoleOwner with
    | inl e => st_err (EOrg e)
    | inr m =>
      let* r := st_try (SaveMembership (member_set_system m)) in
      match r with
      | inl e => unexpected "org.BootstrapSingleton: SaveMembership" e
      | inr _ => st_ret existing
      end
    end
  end.

(** [NewOrg] draws its id and its clock reading once the slug and the name pass. *)
Definition draw_org (slug name : string) (ownerID : uuid) : M Org :=
  match NewOrg uuid_Nil 0 slug name ownerID with
  | inl e => st_err (EOrg e)
  | inr o =>
    let* id := NewV7 in
    let* now := time_Now in
    st_ret (mkOrg id (og_Slug o) (og_Name o) (og_OwnerID o) now (og_System o))
  end.

Definition insertSingleton (orgID : uuid) (slug name : string) (ownerID : uuid) : M Org :=
  let* o := draw_org slug name ownerID in
  let o := mkOrg orgID (og_Slug o) (og_Name o) (og_OwnerID o) (og_CreatedAt o) true in
  let* r := st_try (org_Save o) in
  match r with
  | inl e => if IsOrgAlreadyExists e || IsSystemOrgExists e then st_err e else unexpected "org.BootstrapSingleton: Save" e
  | inr _ =>
    let* now := time_Now in
    match NewMembership now (og_ID o) ownerID RoleOwner with
    | inl e => st_err (EOrg e)
    | inr m =>
      let* r := st_try (SaveMembership (member_set_system m)) in
      match r with
      | inl e => unexpected "org.BootstrapSingleton: SaveMembership" e
      | inr _ => st_ret o
      end
    end
  end.
Definition ensureSingleton (orgID : uuid) (slug name : string) (ownerID : uuid) : M Org :=
  let* r := st_try org_store_SystemOrg in
  match r with
  | inr existing => adoptSingleton existing ownerID
  | inl e =>
    if negb (IsOrgNotFound e) then unexpected "org.BootstrapSingleton: SystemOrg" e else
    if String.eqb slug "" then
      Retry slug_MaxAttempts IsOrgAlreadyExists (fun candidate =>
        let* r := st_try (org_store_BySlug candidate) in
        match r with
        | inr _ => st_err (EOrg (OrgAlreadyExistsError candidate))
        | inl e => if negb (IsOrgNotFound e) then unexpected "org.BootstrapSingleton: BySlug" e
                   else insertSingleton orgID candidate name ownerID
        end)
    else
      let* r := st_try (org_store_BySlug slug) in
      match r with
      | inr existing => adoptSingleton existing ownerID
      | inl e =>
        if negb (IsOrgNotFound e) then unexpected "org.BootstrapSingleton: BySlug" e else
        let* r := st_try (insertSingleton orgID slug name ownerID) in
        match r with
        | inl e => if IsOrgAlreadyExists e then st_err (EOrg (UnreadableExistingOrgError slug)) else st_err e
        | inr o => st_ret o
        end
      end
  end.
(** [scopeForBootstrap], for the id; the SQLite stores do not read the scope it sets. *)
Definition scopeForBootstrap (cx : Ctx) : M uuid :=
  match From_ cx with inr tc => st_ret (OrgID tc) | inl _ => NewV7 end.
Definition BootstrapSingleton (cx : Ctx) (slug name : string) (ownerID : uuid) : M Org :=
  let* orgID := scopeForBootstrap cx in
  let* r := st_try (ensureSingleton orgID (TrimSpace slug) name ownerID) in
  match r with
  | inr o => st_ret o
  | inl err =>
    if negb (IsSystemOrgExists err) && negb (IsUnreadableExistingOrg err) then st_err err else
    let* w := st_try org_store_SystemOrg in
    match w with
    | inl wErr =>
      if IsOrgNotFound wErr && IsUnreadableExistingOrg err then st_err err
      else unexpected "org.BootstrapSingleton: SystemOrg after conflict" wErr
    | inr winner => adoptSingleton winner ownerID
    end
  end.

Definition org_createWithSlug (name : string) (ownerID : uuid) (chosen : string) : M Org :=
  let* r := st_try (org_store_BySlug chosen) in
  match r with
  | inr _ => st_err (EOrg (OrgAlreadyExistsError chosen))
  | inl e =>
    if negb (IsOrgNotFound e) then unexpected "org.Create: BySlug" (EWrap "org.Create: BySlug" e) else
    let* o := draw_org chosen name ownerID in
    let* r := st_try (org_Save o) in
    match r with
    | inl e => if IsOrgAlreadyExists e then st_err e else unexpected "org.Create: Save" (EWrap "org.Create: Save" e)
    | inr _ =>
      let* now := time_Now in
      match NewMembership now (og_ID o) ownerID RoleOwner with
      | inl e => st_err (EOrg e)
      | inr m =>
        let* r := st_try (SaveMembership m) in
        match r with
        | inl e => unexpected "org.Create: SaveMembership" (EWrap "org.Create: SaveMembership" e)
        | inr _ => st_ret o
        end
      end
    end
  end.
Definition org_Create (slug name : string) (ownerID : uuid) : M Org :=
  if negb OrgCreation then st_err (EOrg CreationDisabledError) else
  let chosen := TrimSpace slug in
  if negb (String.eqb chosen "") then org_createWithSlug name ownerID chosen
  else Retry slug_MaxAttempts IsOrgAlreadyExists (org_createWithSlug name ownerID).

Definition org_List (userID : uuid) : M (list Org) :=
  let* r := st_try (org_store_List userID) in
  match r with inl e => unexpected "org.List" (EWrap "org.List" e) | inr l => st_ret l end.

Definition org_Rename (id : uuid) (name : string) : M Org :=
  let* r := st_try (org_store_ByID id) in
  match r with
  | inl e => if IsOrgNotFound e then st_err e else unexpected "org.Rename: ByID" (EWrap "org.Rename: ByID" e)
  | inr o =>
    if og_System o then st_err (EOrg (OrgSystemProtectedError "rename" (uuid_String id) "" "org")) else
    match Org_Rename o name with
    | inl e => st_err (EOrg e)
    | inr o =>
      let* r := st_try (org_Save o) in
      match r with
      | inl e => unexpected "org.Rename: Save" (EWrap "org.Rename: Save" e)
      | inr _ => st_ret o
      end
    end
  end.

Definition AddMember (orgID userID : uuid) (role : Role) : M Membership :=
  if negb (Role_IsValid role) then st_err (EOrg (InvalidRoleError role)) else
  let* r := st_try (store_MembershipOf orgID userID) in
  match r with
  | inr _ => st_err (EOrg (MembershipExistsError (uuid_String orgID) (uuid_String userID)))
  | inl e =>
    if negb (IsMembershipMissing e) && negb (IsOrgNotFound e)
    then unexpected "org.AddMember: MembershipOf" (EWrap "org.AddMember: MembershipOf" e) else
    let* now := time_Now in
    match NewMembership now orgID userID role with
    | inl e => st_err (EOrg e)
    | inr m =>
      let* r := st_try (SaveMembership m) in
      match r with
      | inl e => unexpected "org.AddMember: SaveMembership" (EWrap "org.AddMember: SaveMembership" e)
      | inr _ => st_ret m
      end
    end
  end.

Fixpoint run_hooks (hooks : list (Ctx -> uuid -> uuid -> M unit)) (cx : Ctx) (orgID userID : uuid) : M unit :=
  match hooks with
  | [] => st_ret tt
  | fn :: rest =>
    let* r := st_try (fn cx orgID userID) in
    match r with
    | inl e => unexpected "org.RemoveMember: hook" (EWrap "org.RemoveMember: hook" e)
    | inr _ => run_hooks rest cx orgID userID
    end
  end.
Definition member_or (op : string) (r : Error + Membership) : M Membership :=
  match r with
  | inr m => st_ret m
  | inl e => if IsMembershipMissing e || IsOrgNotFound e then st_err e else unexpected op (EWrap op e)
  end.

Definition RemoveMember (cx : Ctx) (orgID userID : uuid) : M unit :=
  let cx := WithOrg cx orgID in
  let* r := st_try (store_MembershipOf orgID userID) in
  let* m := member_or "org.RemoveMember: MembershipOf" r in
  let* tc := from_tenant cx in
  let* actor := store_MembershipOf orgID (UserID tc) in
  match RemovalRefusal orgID (UserID tc) userID (mb_Role actor) (mb_Role m) (mb_System m) with
  | Some refusal => st_err (EOrg refusal)
  | None =>
    run_hooks onRemoved cx orgID userID ;;;
    let* r := st_try (store_RemoveMember orgID userID) in
    match r with
    | inl e => if IsMembershipMissing e then st_err e else unexpected "org.RemoveMember" (EWrap "org.RemoveMember" e)
    | inr _ => st_ret tt
    end
  end.

Definition org_or (op : string) (m : M Org) : M Org :=
  let* r := st_try m in
  match r with inl e => if IsOrgNotFound e then st_err e else unexpected op (EWrap op e) | inr o => st_ret o end.
Definition SystemOrg : M Org := org_or "org.SystemOrg" org_store_SystemOrg.
Definition org_BySlug (slug : string) : M Org := org_or "org.BySlug" (org_store_BySlug slug).
Definition org_ByID (id : uuid) : M Org := org_or "org.ByID" (org_store_ByID id).
Definition MembershipOf (orgID userID : uuid) : M Membership :=
  let* r := st_try (store_MembershipOf orgID userID) in member_or "org.MembershipOf" r.
Definition ListMembers (orgID : uuid) : M (list Membership) :=
  let* r := st_try (store_ListMembers orgID) in
  match r with inl e => unexpected "org.ListMembers" (EWrap "org.ListMembers" e) | inr l => st_ret l end.

Definition IsManager (orgID userID : uuid) : M bool :=
  if N.eqb userID uuid_Nil then st_ret false else
  let* r := st_try (MembershipOf orgID userID) in
  match r with
  | inl e => if IsMembershipMissing e || IsOrgNotFound e then st_ret false else st_err e
  | inr m => st_ret (CanManage (mb_Role m))
  end.
Definition org_RequireManager (orgID userID : uuid) : M unit :=
  let* ok := IsManager orgID userID in
  if ok then st_ret tt else st_err (EOrg (NotManagerError (uuid_String orgID) (uuid_String userID))).
Definition org_RequireMember (orgID userID : uuid) : M unit :=
  let missing := EOrg (MembershipMissingError (uuid_String orgID) (uuid_String userID)) in
  if N.eqb userID uuid_Nil then st_err missing else
  let* r := st_try (MembershipOf orgID userID) in
  match r with
  | inl e => if IsOrgNotFound e then st_err missing else st_err e
  | inr _ => st_ret tt
  end.
End OrgService.

(** ** The projects' service *)
Section ProjectService.
Context `{Env, SlugDraws}.

(** [New] draws its id and its clock reading once the slug and the name pass. *)
Definition draw_project (orgID : uuid) (slug name : string) : M Project :=
  match Project_New uuid_Nil 0 orgID slug name with
  | inl e => st_err (EProject e)
  | inr p =>
    let* id := NewV7 in
    let* now := time_Now in
    st_ret (mkProject id (pj_OrgID p) (pj_Slug p) (pj_Name p) now (pj_System p))
  end.
Definition project_createWithSlug (cx : Ctx) (orgID : uuid) (name : string) (system : bool) (chosen : string) : M Project :=
  let* r := st_try (project_store_BySlug cx orgID chosen) in
  match r with
  | inr _ => st_err (EProject (ProjectAlreadyExistsError "slug" chosen))
  | inl e =>
    if negb (IsProjectNotFound e) then unexpected "project.Create: bySlug" e else
    let* p := draw_project orgID chosen name in
    let p := project_set_system system p in
    let* r := st_try (project_Save cx p) in
    match r with
    | inl e => if IsProjectAlreadyExists e || IsSystemProjectExists e then st_err e else unexpected "project.Create: save" e
    | inr _ => st_ret p
    end
  end.
Definition project_Create (cx : Ctx) (orgID : uuid) (slug name : string) : M Project :=
  let* _ := from_tenant cx in
  let chosen := TrimSpace slug in
  if negb (String.eqb chosen "") then project_createWithSlug cx orgID name false chosen
  else Retry slug_MaxAttempts IsProjectAlreadyExists (project_createWithSlug cx orgID name false).

Definition systemProject (cx : Ctx) (orgID : uuid) : M (option Project) :=
  let* r := st_try (project_store_List cx orgID) in
  match r with
  | inl e => unexpected "project.BootstrapSystem: list" e
  | inr l => st_ret (List.find pj_System l)
  end.
Definition ensureSystem (cx : Ctx) (orgID : uuid) (slug name : string) : M Project :=
  let* existing := systemProject cx orgID in
  match existing with
  | Some p => st_ret p
  | None =>
    if String.eqb slug "" then Retry slug_MaxAttempts IsProjectAlreadyExists (project_createWithSlug cx orgID name true) else
    let* r := st_try (project_store_BySlug cx orgID slug) in
    match r with
    | inr p =>
      let p := project_set_system true p in
      let* r := st_try (project_Save cx p) in
      match r with
      | inl e => if IsSystemProjectExists e then st_err e else unexpected "project.BootstrapSystem: promote" e
      | inr _ => st_ret p
      end
    | inl e =>
      if negb (IsProjectNotFound e) then unexpected "project.BootstrapSystem: bySlug" e
      else project_createWithSlug cx orgID name true slug
    end
  end.
Definition BootstrapSystem (cx : Ctx) (orgID : uuid) (slug name : string) : M Project :=
  let* _ := from_tenant cx in
  let* r := st_try (ensureSystem cx orgID (TrimSpace slug) name) in
  match r with
  | inr p => st_ret p
  | inl err =>
    if negb (IsSystemProjectExists err) && negb (IsProjectAlreadyExists err) then st_err err else
    let* winner := systemProject cx orgID in
    match winner with None => st_err err | Some p => st_ret p end
  end.

Definition project_List (cx : Ctx) (orgID : uuid) : M (list Project) :=
  let* _ := from_tenant cx in
  let* r := st_try (project_store_List cx orgID) in
  match r with inl e => unexpected "project.List: list" e | inr l => st_ret l end.
Definition project_or (op : string) (m : M Project) : M Project :=
  let* r := st_try m in
  match r with inl e => if IsProjectNotFound e then st_err e else unexpected op e | inr p => st_ret p end.
Definition project_Rename (cx : Ctx) (id : uuid) (name : string) : M Project :=
  let* _ := from_tenant cx in
  let* p := project_or "project.Rename: byID" (project_store_ByID cx id) in
  if pj_System p then st_err (EProject (ProjectSystemProtectedError "rename" (uuid_String id))) else
  match Project_Rename p name with
  | inl e => st_err (EProject e)
  | inr p =>
    let* r := st_try (project_Save cx p) in
    match r with inl e => unexpected "project.Rename: save" e | inr _ => st_ret p end
  end.
Definition project_ByID (cx : Ctx) (id : uuid) : M Project :=
  let* _ := from_tenant cx in project_or "project.ByID: byID" (project_store_ByID cx id).
Definition project_BySlug (cx : Ctx) (orgID : uuid) (slug : string) : M Project :=
  let* _ := from_tenant cx in project_or "project.BySlug: bySlug" (project_store_BySlug cx orgID slug).
End ProjectService.
