(* ===== verification/OrgTheory.v ===== *)
(** * What the operations of organisations and projects keep

    One walk over the services for any relation their statements step within, and the
    tables' own invariant: unique slugs that validate, one system organisation, one
    system project per organisation, members with known roles. *)
From Stdlib Require Import ZArith Lia String List.
From stdpp Require Import base gmap list strings.
From S2P Require Import Prelude GoStrings Errors Tenant Org World OrgService.
Local Open Scope string_scope.

(** ** The walk

    [J] is what the tables satisfy throughout, [okO] and [okP] what it gives of each
    organisation and project; the hooks of a removal step within [R] too. *)
Section Walk.
Context `{Env, SlugDraws, OrgCaps, RemovalHooks} (R : DB -> DB -> Prop) `{!PreOrder R}.
Context (J : DB -> Prop) (okO : Org -> Prop) (okP : Project -> Prop) (hookable : Ctx -> uuid -> Prop).
Hypothesis rely : forall n db, R db (env_other n db).
Hypothesis J_stable : stable R J.
Hypothesis J_org : forall db id o, J db -> db_org_rows db !! id = Some o -> okO o.
Hypothesis J_project : forall db id p, J db -> db_project_rows db !! id = Some p -> okP p.
Hypothesis org_step : forall o db db' n, J db -> okO o -> org_upsert o db = inr (db', n) -> R db db'.
Hypothesis member_step : forall m db db' n, J db -> member_upsert m db = inr (db', n) -> R db db'.
Hypothesis removal_step : forall o u db db' n, J db -> member_delete o u db = inr (db', n) -> R db db'.
Hypothesis project_step : forall tc p db db' n, J db -> okP p -> project_upsert tc p db = inr (db', n) -> R db db'.
Hypothesis hooks_step : forall fn, In fn onRemoved -> forall cx o u, hookable cx o -> rg R J (fn cx o u) (fun _ _ => True).
Hypothesis new_org : forall id now slug name owner o b, NewOrg uuid_Nil 0 slug name owner = inr o ->
  okO (mkOrg id (og_Slug o) (og_Name o) (og_OwnerID o) now b).
Hypothesis system_okO : forall o, okO o -> okO (org_set_system o).
Hypothesis rename_okO : forall o name o', okO o -> Org_Rename o name = inr o' -> okO o'.
Hypothesis new_project : forall id now o slug name p b, Project_New uuid_Nil 0 o slug name = inr p ->
  okP (mkProject id (pj_OrgID p) (pj_Slug p) (pj_Name p) now b).
Hypothesis system_okP : forall p, okP p -> okP (project_set_system true p).
Hypothesis rename_okP : forall p name p', okP p -> Project_Rename p name = inr p' -> okP p'.

(** A program under [J], whose value satisfies a fact of its own. *)
Definition gives {E A} (Q : A -> Prop) (m : ST World E A) : Prop := rg R J m (fun a db => J db /\ Q a).
Lemma gives_ret {E A} (a : A) (Q : A -> Prop) : Q a -> gives Q (@st_ret World E A a).
Proof. intros HQ. apply rg_ret; auto. Qed.
Lemma gives_err {E A} (e : E) (Q : A -> Prop) : gives Q (st_err e).
Proof. apply rg_err; exact _. Qed.
Lemma gives_unexpected {A} op e (Q : A -> Prop) : gives Q (unexpected op e).
Proof. apply gives_err. Qed.
Lemma gives_bind {E A B} (m : ST World E A) (k : A -> ST World E B) Q Q' :
  gives Q m -> (forall a, Q a -> gives Q' (k a)) -> gives Q' (st_bind m k).
Proof. intros Hm Hk. eapply rg_bind; [exact _ | exact Hm|]. intros a w [Hw Ha]. exact (Hk a Ha w Hw). Qed.
Definition okR {A} (Q : A -> Prop) {X} (r : X + A) : Prop := match r with inr a => Q a | inl _ => True end.
Lemma gives_try {E E' A} (m : ST World E A) Q : gives Q m -> gives (okR Q) (st_try (E':=E') m).
Proof.
  intros Hm. eapply rg_conseq; [apply rg_try; [exact J_stable | exact Hm] | auto|].
  intros [e|a] db; cbn; tauto.
Qed.
Lemma gives_any {E A} (m : ST World E A) : rg R J m (fun _ _ => True) -> gives (fun _ => True) m.
Proof. intros Hm w Hw. destruct (Hm w Hw) as [HR _]. split; [exact HR|]. intros a _. split; [exact (J_stable _ _ HR Hw) | exact I]. Qed.
Lemma gives_pres {E A} (m : ST World E A) : preserves (on_db R) m -> gives (fun _ => True) m.
Proof. intros Hm. apply gives_any. intros w _. split; [apply Hm | auto]. Qed.
Lemma gives_weak {E A} (m : ST World E A) (Q Q' : A -> Prop) : (forall a, Q a -> Q' a) -> gives Q m -> gives Q' m.
Proof. intros HQ Hm. eapply rg_conseq; [exact Hm | auto|]. intros a db [? ?]; auto. Qed.
Lemma gives_stmt stmt : (forall db db' n, J db -> stmt db = inr (db', n) -> R db db') -> gives (fun _ => True) (on_pool (exec_stmt stmt)).
Proof.
  intros Hs. unfold on_pool. eapply gives_bind; [apply gives_pres, pres_others, rely|]. intros u _.
  apply gives_any, (rg_exec_stmt R). exact Hs.
Qed.
Lemma gives_query {A} op (q : DB -> A) (Q : A -> Prop) : (forall db, J db -> Q (q db)) -> gives Q (on_pool (query op q)).
Proof.
  intros Hq. unfold on_pool. eapply gives_bind; [apply gives_pres, pres_others, rely|]. intros u _.
  apply (rg_query R). intros db Hdb. auto.
Qed.
Lemma gives_maperr {E E' A} (f : E -> E') (m : ST World E A) Q : gives Q m -> gives Q (st_maperr f m).
Proof. apply (rg_maperr R). Qed.
Lemma gives_tenant cx : gives (fun tc => From_ cx = inr tc) (from_tenant cx).
Proof. unfold from_tenant. destruct (From_ cx) as [e|tc]; [apply gives_err | apply gives_ret; reflexivity]. Qed.
Lemma gives_now {E} : gives (fun _ => True) (time_Now (E:=E)).
Proof. apply gives_pres, pres_time_Now; exact _. Qed.
Lemma gives_id {E} : gives (fun _ => True) (NewV7 (E:=E)).
Proof. apply gives_pres, pres_NewV7; exact _. Qed.

(** *** The stores *)
Lemma gives_org_one op q nf : (forall db o, q db = Some o -> exists id, db_org_rows db !! id = Some o) -> gives okO (org_one op q nf).
Proof.
  intros Hq. unfold org_one. eapply (gives_bind _ _ (fun r => match r with Some o => okO o | None => True end)).
  - apply gives_query. intros db Hdb. destruct (q db) as [o|] eqn:E; [|exact I]. destruct (Hq _ _ E) as [id Hid]. exact (J_org _ _ _ Hdb Hid).
  - intros [o|] Ho; [apply gives_ret, Ho | apply gives_err].
Qed.
Lemma found_row {A} (p : A -> bool) (m : gmap uuid A) a : List.find p (rows m) = Some a -> exists id, m !! id = Some a.
Proof. intros E. apply rows_In. apply (List.find_some _ _ E). Qed.
Lemma BySlug_gives s : gives okO (org_store_BySlug s).
Proof. apply gives_org_one. intros db o E. exact (found_row _ _ _ E). Qed.
Lemma ByID_gives id : gives okO (org_store_ByID id).
Proof. apply gives_org_one. eauto. Qed.
Lemma SystemOrg_gives : gives okO org_store_SystemOrg.
Proof.
  apply gives_org_one. intros db o E. apply rows_In.
  assert (Hin : In o (sort_by older_org (List.filter og_System (rows (db_org_rows db))))).
  { unfold system_org in E. destruct (sort_by _ _); [discriminate | injection E as ->; left; reflexivity]. }
  apply In_sort_by, filter_In in Hin. apply Hin.
Qed.
Lemma org_Save_gives o : okO o -> gives (fun _ => True) (org_Save o).
Proof.
  intros Ho. unfold org_Save. eapply gives_bind; [apply gives_try, gives_stmt; intros db db' n Hdb; apply org_step; assumption|].
  intros [e|n] _; [|apply gives_ret; exact I].
  destruct (isSQLiteUniqueViolation e "orgs.system"); [apply gives_err|]. destruct (isSQLiteUniqueViolation e "slug"); apply gives_err.
Qed.
Lemma SaveMembership_gives m : gives (fun _ => True) (SaveMembership m).
Proof.
  unfold SaveMembership. eapply gives_bind; [apply gives_id|]. intros u _.
  eapply gives_bind; [apply gives_maperr, gives_stmt; intros db db' n; apply member_step | intros n _; apply gives_ret; exact I].
Qed.
Lemma MembershipOf_gives o u : gives (fun _ => True) (store_MembershipOf o u).
Proof.
  unfold store_MembershipOf. eapply gives_bind; [apply (gives_query _ _ (fun _ => True)); auto|].
  intros [m|] _; [apply gives_ret; exact I | apply gives_err].
Qed.
Lemma store_RemoveMember_gives o u : gives (fun _ => True) (store_RemoveMember o u).
Proof.
  unfold store_RemoveMember. eapply gives_bind; [apply gives_maperr, gives_stmt; intros db db' n; apply removal_step|].
  intros n _. destruct (Nat.eqb n 0); [apply gives_err | apply gives_ret; exact I].
Qed.
Lemma project_Save_gives cx p : okP p -> gives (fun _ => True) (project_Save cx p).
Proof.
  intros Hp. unfold project_Save. eapply gives_bind; [apply gives_tenant|]. intros tc _.
  eapply gives_bind; [apply gives_try, gives_stmt; intros db db' n Hdb; apply project_step; assumption|].
  intros [e|n] _.
  - destruct (isSQLiteOneSystemViolation e); [apply gives_err|]. destruct (is_unique e); apply gives_err.
  - destruct (Nat.eqb n 0); [apply gives_err | apply gives_ret; exact I].
Qed.
Lemma project_one_gives op (q : DB -> option Project) e : (forall db p, q db = Some p -> exists id, db_project_rows db !! id = Some p) ->
  gives okP (let* r := on_pool (query op q) in match r with None => st_err e | Some p => st_ret p end).
Proof.
  intros Hq. eapply (gives_bind _ _ (fun r => match r with Some p => okP p | None => True end)).
  - apply gives_query. intros db Hdb. destruct (q db) as [p|] eqn:E; [|exact I]. destruct (Hq _ _ E) as [id Hid]. exact (J_project _ _ _ Hdb Hid).
  - intros [p|] Hp; [apply gives_ret, Hp | apply gives_err].
Qed.
Lemma project_ByID_gives cx id : gives okP (project_store_ByID cx id).
Proof.
  unfold project_store_ByID. eapply gives_bind; [apply gives_tenant|]. intros tc _. apply project_one_gives.
  intros db p. unfold project_of. destruct (db_project_rows db !! id) as [x|] eqn:E; [|discriminate].
  destruct (N.eqb _ _); [intros [= <-]; eauto | discriminate].
Qed.
Lemma project_BySlug_gives cx o s : gives okP (project_store_BySlug cx o s).
Proof.
  unfold project_store_BySlug. eapply gives_bind; [apply gives_tenant|]. intros tc _. apply project_one_gives.
  intros db p E. exact (found_row _ _ _ E).
Qed.
Lemma project_List_gives cx o : gives (Forall okP) (project_store_List cx o).
Proof.
  unfold project_store_List. eapply gives_bind; [apply gives_tenant|]. intros tc _. apply gives_query.
  intros db Hdb. apply Forall_forall. intros p Hp%list_elem_of_In. unfold projects_of in Hp. apply In_sort_by, filter_In in Hp as [Hp _].
  apply rows_In in Hp as [id Hid]. exact (J_project _ _ _ Hdb Hid).
Qed.

(** *** Generated slugs *)
Lemma IntN_gives n : gives (fun _ => True) (IntN n).
Proof. apply gives_pres. unfold IntN. apply preserves_bind; [exact _ | apply pres_tick; exact _ | intros; apply preserves_ret; exact _]. Qed.
Lemma Generate_gives : gives (fun _ => True) slug_Generate.
Proof.
  unfold slug_Generate. do 3 (eapply gives_bind; [apply IntN_gives|]; intros ? _). apply gives_ret; exact I.
Qed.
Lemma Retry_gives {A} n taken (create : string -> M A) Q : (forall s, gives Q (create s)) -> gives Q (Retry n taken create).
Proof.
  intros Hc. unfold Retry. generalize (EText ""). induction (Nat.max n 1) as [|k IH]; intros last; cbn [retry_from]; [apply gives_err|].
  eapply gives_bind; [apply Generate_gives|]. intros s _.
  eapply gives_bind; [apply gives_try, Hc|]. intros [e|a] Ha; [|apply gives_ret, Ha]. destruct (taken e); [apply IH | apply gives_err].
Qed.

(** *** The services *)

(** Walks through a service: its calls by the lemmas above, its branches by cases. *)
Ltac gives_call :=
  first [ apply BySlug_gives | apply ByID_gives | apply SystemOrg_gives | apply SaveMembership_gives | apply MembershipOf_gives
        | apply store_RemoveMember_gives | apply project_ByID_gives | apply project_BySlug_gives | apply project_List_gives
        | apply org_Save_gives; assumption | apply project_Save_gives; assumption | apply gives_tenant | apply gives_now | apply gives_id
        | apply gives_err | apply gives_ret; first [exact I | eassumption | reflexivity] ].
Ltac gives_step :=
  cbn [okR] in *;
  first [ gives_call
        | eapply gives_bind; [first [gives_call | apply gives_try; gives_call] | intros ? ?]
        | match goal with |- gives _ (match ?x with _ => _ end) => destruct x eqn:? end ].
Ltac gives_go := repeat gives_step.

Lemma draw_org_gives slug name owner : gives (fun o => forall id b, okO (mkOrg id (og_Slug o) (og_Name o) (og_OwnerID o) (og_CreatedAt o) b)) (draw_org slug name owner).
Proof.
  unfold draw_org. destruct (NewOrg uuid_Nil 0 slug name owner) as [e|o] eqn:E; [apply gives_err|].
  eapply gives_bind; [apply gives_id|]. intros id _. eapply gives_bind; [apply gives_now|]. intros now _.
  apply gives_ret. intros id' b. exact (new_org _ _ _ _ _ _ _ E).
Qed.
Lemma adopt_gives o u : okO o -> gives okO (adoptSingleton o u).
Proof.
  intros Ho. unfold adoptSingleton. eapply (gives_bind _ _ okO).
  - destruct (og_System o); [apply gives_ret, Ho|]. pose proof (system_okO _ Ho). gives_go.
  - intros o' Ho'. gives_go.
Qed.
Lemma insertSingleton_gives id slug name u : gives okO (insertSingleton id slug name u).
Proof.
  unfold insertSingleton. eapply gives_bind; [apply draw_org_gives|]. intros o Ho. cbv beta in Ho. pose proof (Ho id true). gives_go.
Qed.
Lemma ensureSingleton_gives id slug name u : gives okO (ensureSingleton id slug name u).
Proof.
  unfold ensureSingleton. eapply gives_bind; [apply gives_try, SystemOrg_gives|]. intros [e|o] Ho; [|apply adopt_gives, Ho].
  destruct (negb _); [apply gives_unexpected|]. destruct (String.eqb slug "").
  - apply Retry_gives. intros s. eapply gives_bind; [apply gives_try, BySlug_gives|]. intros [e'|o] _; [|apply gives_err].
    destruct (negb _); [apply gives_unexpected | apply insertSingleton_gives].
  - eapply gives_bind; [apply gives_try, BySlug_gives|]. intros [e'|o] Ho'; [|apply adopt_gives, Ho'].
    destruct (negb _); [apply gives_unexpected|].
    eapply gives_bind; [apply gives_try, insertSingleton_gives|]. intros [e2|o] Ho2; [destruct (IsOrgAlreadyExists e2); apply gives_err | apply gives_ret, Ho2].
Qed.
Lemma BootstrapSingleton_gives cx slug name u : gives okO (BootstrapSingleton cx slug name u).
Proof.
  unfold BootstrapSingleton, scopeForBootstrap. eapply (gives_bind _ _ (fun _ => True)); [destruct (From_ cx); gives_go|]. intros id _.
  eapply gives_bind; [apply gives_try, ensureSingleton_gives|]. intros [e|o] Ho; [|apply gives_ret, Ho].
  destruct (_ && _); [apply gives_err|]. eapply gives_bind; [apply gives_try, SystemOrg_gives|]. intros [e'|o] Ho'; [|apply adopt_gives, Ho'].
  destruct (_ && _); apply gives_err.
Qed.
Lemma createWithSlug_gives name u chosen : gives okO (org_createWithSlug name u chosen).
Proof.
  unfold org_createWithSlug. eapply gives_bind; [apply gives_try, BySlug_gives|]. intros [e|o] _; [|apply gives_err].
  destruct (negb _); [apply gives_unexpected|]. eapply gives_bind; [apply draw_org_gives|]. intros o Ho.
  assert (okO o) by (destruct o; apply Ho). gives_go.
Qed.
Lemma org_Create_gives slug name u : gives okO (org_Create slug name u).
Proof.
  unfold org_Create. destruct (negb _); [apply gives_err|]. destruct (negb _); [apply createWithSlug_gives|].
  apply Retry_gives, createWithSlug_gives.
Qed.
Lemma org_Rename_gives id name : gives okO (org_Rename id name).
Proof.
  unfold org_Rename. eapply gives_bind; [apply gives_try, ByID_gives|]. intros [e|o] Ho; [destruct (IsOrgNotFound e); apply gives_err|].
  cbn in Ho. destruct (og_System o); [apply gives_err|]. destruct (Org_Rename o name) as [e|o'] eqn:E; [apply gives_err|].
  pose proof (rename_okO _ _ _ Ho E). gives_go.
Qed.
Lemma AddMember_gives o u r : gives (fun _ => True) (AddMember o u r).
Proof. unfold AddMember. gives_go. Qed.
Lemma hooks_gives cx o u l : hookable cx o -> incl l onRemoved -> gives (fun _ => True) (run_hooks l cx o u).
Proof.
  intros Hh. induction l as [|fn l IH]; intros Hl; cbn [run_hooks]; [apply gives_ret; exact I|].
  eapply gives_bind; [apply gives_try, gives_any, hooks_step; [apply Hl; left; reflexivity | exact Hh]|]. intros [e|u'] _; [apply gives_err|].
  apply IH. intros x Hx. apply Hl. right. exact Hx.
Qed.
Lemma RemoveMember_gives cx o u : hookable (WithOrg cx o) o -> gives (fun _ => True) (RemoveMember cx o u).
Proof.
  intros Hh. unfold RemoveMember, member_or. eapply gives_bind; [apply gives_try, MembershipOf_gives|]. intros r _.
  eapply (gives_bind _ _ (fun _ => True)); [gives_go|]. intros m _. gives_step. gives_step.
  destruct (RemovalRefusal _ _ _ _ _ _); [apply gives_err|].
  eapply gives_bind; [apply hooks_gives; [exact Hh | apply incl_refl]|]. intros u' _. gives_go.
Qed.
Lemma draw_project_gives o slug name : gives (fun p => forall b, okP (project_set_system b p)) (draw_project o slug name).
Proof.
  unfold draw_project. destruct (Project_New uuid_Nil 0 o slug name) as [e|p] eqn:E; [apply gives_err|].
  eapply gives_bind; [apply gives_id|]. intros id _. eapply gives_bind; [apply gives_now|]. intros now _.
  apply gives_ret. intros b. exact (new_project _ _ _ _ _ _ _ E).
Qed.
Lemma project_createWithSlug_gives cx o name sys chosen : gives okP (project_createWithSlug cx o name sys chosen).
Proof.
  unfold project_createWithSlug. eapply gives_bind; [apply gives_try, project_BySlug_gives|]. intros [e|p] _; [|apply gives_err].
  destruct (negb _); [apply gives_unexpected|]. eapply gives_bind; [apply draw_project_gives|]. intros p Hp. pose proof (Hp sys). gives_go.
Qed.
Lemma project_Create_gives cx o slug name : gives okP (project_Create cx o slug name).
Proof.
  unfold project_Create. gives_step. destruct (negb _); [apply project_createWithSlug_gives | apply Retry_gives, project_createWithSlug_gives].
Qed.
Lemma systemProject_gives cx o : gives (fun r => match r with Some p => okP p | None => True end) (systemProject cx o).
Proof.
  unfold systemProject. eapply gives_bind; [apply gives_try, project_List_gives|]. intros [e|l] Hl; [apply gives_err|]. apply gives_ret.
  destruct (List.find pj_System l) as [p|] eqn:E; [|exact I]. apply List.find_some in E as [Hin _].
  exact (proj1 (Forall_forall _ _) Hl p (proj2 (list_elem_of_In _ _) Hin)).
Qed.
Lemma ensureSystem_gives cx o slug name : gives okP (ensureSystem cx o slug name).
Proof.
  unfold ensureSystem. eapply gives_bind; [apply systemProject_gives|]. intros [p|] Hp; [apply gives_ret, Hp|].
  destruct (String.eqb slug ""); [apply Retry_gives, project_createWithSlug_gives|].
  eapply gives_bind; [apply gives_try, project_BySlug_gives|]. intros [e|p] Hp'.
  - destruct (negb _); [apply gives_unexpected | apply project_createWithSlug_gives].
  - cbn in Hp'. pose proof (system_okP _ Hp'). gives_go.
Qed.
Lemma BootstrapSystem_gives cx o slug name : gives okP (BootstrapSystem cx o slug name).
Proof.
  unfold BootstrapSystem. gives_step. eapply gives_bind; [apply gives_try, ensureSystem_gives|]. intros [e|p] Hp; [|apply gives_ret, Hp].
  destruct (_ && _); [apply gives_err|]. eapply gives_bind; [apply systemProject_gives|]. intros [p|] Hp'; [apply gives_ret, Hp' | apply gives_err].
Qed.
Lemma project_Rename_gives cx id name : gives okP (project_Rename cx id name).
Proof.
  unfold project_Rename, project_or. gives_step. eapply (gives_bind _ _ okP); [eapply gives_bind; [apply gives_try, project_ByID_gives|]; intros [e|p] Hp;
    [destruct (IsProjectNotFound e); apply gives_err | apply gives_ret, Hp]|]. intros p Hp.
  destruct (pj_System p); [apply gives_err|]. destruct (Project_Rename p name) as [e|p'] eqn:E; [apply gives_err|].
  pose proof (rename_okP _ _ _ Hp E). gives_go.
Qed.
End Walk.

(** ** The invariant *)
Definition org_ok (o : Org) : Prop := org_validateSlug (og_Slug o) = None /\ org_validateName (og_Name o) = None.
Definition project_ok (p : Project) : Prop := project_validateSlug (pj_Slug p) = None /\ exists n, project_validateName n = inr (pj_Name p).
Definition orgs_table (db : DB) : Prop :=
  (forall id o, db_org_rows db !! id = Some o -> og_ID o = id /\ org_ok o)
  /\ (forall i j a b, db_org_rows db !! i = Some a -> db_org_rows db !! j = Some b -> og_Slug a = og_Slug b -> i = j)
  /\ (forall i j a b, db_org_rows db !! i = Some a -> db_org_rows db !! j = Some b -> og_System a = true -> og_System b = true -> i = j).
Definition members_table (db : DB) : Prop :=
  forall o u m, db_members db !! (o, u) = Some m -> mb_OrgID m = o /\ mb_UserID m = u /\ Role_IsValid (mb_Role m) = true /\ o ∈ db_orgs db.
Definition projects_table (db : DB) : Prop :=
  (forall id p, db_project_rows db !! id = Some p -> pj_ID p = id /\ project_ok p /\ pj_OrgID p ∈ db_orgs db)
  /\ (forall i j a b, db_project_rows db !! i = Some a -> db_project_rows db !! j = Some b -> pj_OrgID a = pj_OrgID b ->
        pj_Slug a = pj_Slug b -> i = j)
  /\ (forall i j a b, db_project_rows db !! i = Some a -> db_project_rows db !! j = Some b -> pj_OrgID a = pj_OrgID b ->
        pj_System a = true -> pj_System b = true -> i = j).
Definition orgs_wf (db : DB) : Prop := orgs_table db /\ members_table db /\ projects_table db.
Definition orgs_step (db db' : DB) : Prop := orgs_wf db -> orgs_wf db'.
#[export] Instance orgs_step_pre : PreOrder orgs_step.
Proof. split; [intros db Hw; exact Hw | intros a b c S1 S2 Hw; auto]. Qed.
Lemma orgs_stable : stable orgs_step orgs_wf.
Proof. intros db db' Hs Hw. exact (Hs Hw). Qed.
Lemma orgs_step_same db db' :
  db_org_rows db' = db_org_rows db -> db_members db' = db_members db -> db_project_rows db' = db_project_rows db -> orgs_step db db'.
Proof. intros E1 E2 E3. unfold orgs_step, orgs_wf, orgs_table, members_table, projects_table, db_orgs. rewrite E1, E2, E3. auto. Qed.

Lemma other_org_none p id db i o : other_org p id db = false -> db_org_rows db !! i = Some o -> og_ID o = i -> p o = true -> i = id.
Proof.
  intros Hf Hi Ei Hp. destruct (N.eqb_spec i id) as [|Hne]; [assumption|]. exfalso. assert (T : other_org p id db = true); [|congruence].
  apply existsb_exists. exists o. split; [apply rows_In; eauto|]. rewrite Ei, Hp, andb_true_r. apply negb_true_iff, N.eqb_neq, Hne.
Qed.
Lemma other_project_none p org id db i x : other_project p org id db = false -> db_project_rows db !! i = Some x -> pj_ID x = i ->
  pj_OrgID x = org -> p x = true -> i = id.
Proof.
  intros Hf Hi Ei Eo Hp. destruct (N.eqb_spec i id) as [|Hne]; [assumption|]. exfalso. assert (T : other_project p org id db = true); [|congruence].
  apply existsb_exists. exists x. split; [apply rows_In; eauto|]. rewrite Ei, Eo, N.eqb_refl, Hp. apply N.eqb_neq in Hne. rewrite Hne. reflexivity.
Qed.
(** A table keyed by a column that no other row shares stays keyed when a row is put. *)
Lemma put_unique {A} (share : A -> A -> Prop) (m : gmap uuid A) id x :
  (forall a b, share a b -> share b a) ->
  (forall i j a b, m !! i = Some a -> m !! j = Some b -> share a b -> i = j) -> (forall i a, m !! i = Some a -> share a x -> i = id) ->
  forall i j a b, <[id := x]> m !! i = Some a -> <[id := x]> m !! j = Some b -> share a b -> i = j.
Proof.
  intros Hsym Hm Hx i j a b. rewrite !lookup_insert_Some. intros [[<- <-]|[_ Ha]] [[<- <-]|[_ Hb]] Hs; [reflexivity | | |].
  - symmetry. apply (Hx _ _ Hb), Hsym, Hs.
  - apply (Hx _ _ Ha), Hs.
  - exact (Hm _ _ _ _ Ha Hb Hs).
Qed.
Lemma org_upsert_step o db db' n : org_ok o -> org_upsert o db = inr (db', n) -> orgs_step db db'.
Proof.
  intros Ho. unfold org_upsert. destruct (other_org (fun x => _) _ _) eqn:Es; [discriminate|].
  destruct (og_System o && _) eqn:Ey; [discriminate|]. destruct (bool_decide _); [|discriminate]. intros [= <- _] Hw. destruct Hw as ((T1 & T2 & T3) & Tm & Tp).
  set (row := match db_org_rows db !! og_ID o with Some _ => _ | None => o end).
  assert (Er : og_ID row = og_ID o /\ og_Slug row = og_Slug o /\ og_Name row = og_Name o /\ og_System row = og_System o).
  { unfold row. destruct (db_org_rows db !! og_ID o); auto. }
  destruct Er as (E1 & E2 & E3 & E4).
  assert (Hsub : db_orgs db ⊆ dom (<[og_ID o := row]> (db_org_rows db))) by (rewrite dom_insert; apply union_subseteq_r).
  split; [split; [|split]|split].
  - intros i x. cbn. rewrite lookup_insert_Some. intros [[<- <-]|[_ Hx]]; [|exact (T1 _ _ Hx)]. split; [exact E1|]. unfold org_ok. rewrite E2, E3. exact Ho.
  - cbn. apply (put_unique (fun a b => og_Slug a = og_Slug b)); [congruence | exact T2|]. intros i a Ha Hs.
    apply (other_org_none _ _ _ _ _ Es Ha); [apply (T1 _ _ Ha) | apply String.eqb_eq; congruence].
  - cbn. intros i j a b Ha Hb Sa Sb. revert Ha Hb. intros Ha Hb.
    apply (put_unique (fun a b => og_System a = true /\ og_System b = true) (db_org_rows db) (og_ID o) row) with (a := a) (b := b); [tauto | | | assumption ..|auto].
    + intros i' j' a' b' Ha' Hb' [? ?]. exact (T3 _ _ _ _ Ha' Hb' ltac:(assumption) ltac:(assumption)).
    + intros i' a' Ha' [Sa' Sr]. rewrite E4 in Sr. rewrite Sr in Ey. exact (other_org_none _ _ _ _ _ Ey Ha' (proj1 (T1 _ _ Ha')) Sa').
  - intros o' u m Hm. destruct (Tm _ _ _ Hm) as (A & B & C & D). cbn. unfold db_orgs at 1. cbn. auto.
  - destruct Tp as (P1 & P2 & P3). split; [|split; [exact P2 | exact P3]]. intros id p Hp. destruct (P1 _ _ Hp) as (A & B & C).
    unfold db_orgs at 1. cbn. auto.
Qed.
Lemma member_upsert_step m db db' n : member_upsert m db = inr (db', n) -> orgs_step db db'.
Proof.
  unfold member_upsert. destruct (Role_IsValid (mb_Role m)) eqn:Er; [cbn [negb]|discriminate]. destruct (_ && _) eqn:Eo; [|discriminate].
  apply andb_true_iff in Eo as [Eo%bool_decide_eq_true _]. intros [= <- _] (To & Tm & Tp). split; [exact To|]. split; [|exact Tp].
  intros o u x. cbn. rewrite lookup_insert_Some. intros [[E <-]|[_ Hx]]; [|exact (Tm _ _ _ Hx)].
  injection E as <- <-. destruct (db_members db !! _); cbn; auto.
Qed.
Lemma member_delete_step o u db db' n : member_delete o u db = inr (db', n) -> orgs_step db db'.
Proof.
  unfold member_delete. destruct (db_members db !! (o, u)); intros [= <- _]; [|reflexivity]. intros (To & Tm & Tp).
  split; [exact To|]. split; [|exact Tp]. intros o' u' x. cbn. rewrite lookup_delete_Some. intros [_ Hx]. exact (Tm _ _ _ Hx).
Qed.
Lemma put_project_step p id db : orgs_wf db ->
  pj_ID p = id -> project_ok p -> pj_OrgID p ∈ db_orgs db ->
  (forall i x, db_project_rows db !! i = Some x -> pj_OrgID x = pj_OrgID p -> pj_Slug x = pj_Slug p -> i = id) ->
  (pj_System p = true -> forall i x, db_project_rows db !! i = Some x -> pj_OrgID x = pj_OrgID p -> pj_System x = true -> i = id) ->
  orgs_wf (set_projects (<[id := p]> (db_project_rows db)) db).
Proof.
  intros (To & Tm & P1 & P2 & P3) Hi Hok Ho Hs Hy. split; [exact To|]. split; [exact Tm|]. split; [|split].
  - intros i x. cbn. rewrite lookup_insert_Some. intros [[<- <-]|[_ Hx]]; [auto | exact (P1 _ _ Hx)].
  - intros i j a b Ha Hb Eo Es. cbn in Ha, Hb.
    apply (put_unique (fun a b => pj_OrgID a = pj_OrgID b /\ pj_Slug a = pj_Slug b) (db_project_rows db) id p) with (a := a) (b := b);
      [intros ? ? []; auto | intros ? ? ? ? Hx Hy' []; eauto | intros ? ? Hx []; eauto | assumption ..|auto].
  - intros i j a b Ha Hb Eo Sa Sb. cbn in Ha, Hb.
    apply (put_unique (fun a b => pj_OrgID a = pj_OrgID b /\ pj_System a = true /\ pj_System b = true) (db_project_rows db) id p) with (a := a) (b := b);
      [intros ? ? (? & ? & ?); auto | intros ? ? ? ? Hx Hy' (? & ? & ?); eauto | intros ? ? Hx (? & ? & ?); eauto | assumption ..|auto].
Qed.
Lemma project_upsert_step tc p db db' n : project_ok p -> project_upsert tc p db = inr (db', n) -> orgs_step db db'.
Proof.
  intros Hok. unfold project_upsert. destruct (db_project_rows db !! pj_ID p) as [old|] eqn:E.
  - destruct (negb _); [intros [= <- _]; reflexivity|]. destruct (pj_System p && _) eqn:Ey; [discriminate|]. intros [= <- _] Hw.
    pose proof Hw as (_ & _ & P1 & P2 & P3). destruct (P1 _ _ E) as (_ & [Hos _] & Hoo).
    apply put_project_step; [exact Hw | reflexivity | split; [exact Hos | exact (proj2 Hok)] | exact Hoo | |]; cbn.
    + intros i x Hx Eo Es. exact (P2 _ _ _ _ Hx E Eo Es).
    + intros Sp i x Hx Eo Sx. rewrite Sp in Ey. exact (other_project_none _ _ _ _ _ _ Ey Hx (proj1 (P1 _ _ Hx)) Eo Sx).
  - destruct (other_project (fun x => _) _ _ _) eqn:Es; [discriminate|]. destruct (pj_System p && _) eqn:Ey; [discriminate|].
    destruct (bool_decide (pj_OrgID p ∈ db_orgs db) && _) eqn:Eo; [|discriminate]. apply andb_true_iff in Eo as [Eo%bool_decide_eq_true _]. intros [= <- _] Hw.
    pose proof Hw as (_ & _ & P1 & P2 & P3).
    apply put_project_step; [exact Hw | reflexivity | exact Hok | exact Eo | |].
    + intros i x Hx Ex Exs. apply (other_project_none _ _ _ _ _ _ Es Hx (proj1 (P1 _ _ Hx)) Ex), String.eqb_eq, Exs.
    + intros Sp i x Hx Ex Sx. rewrite Sp in Ey. exact (other_project_none _ _ _ _ _ _ Ey Hx (proj1 (P1 _ _ Hx)) Ex Sx).
Qed.

(** *** The aggregates *)
Lemma NewOrg_ok id now slug name u o b : NewOrg uuid_Nil 0 slug name u = inr o -> org_ok (mkOrg id (og_Slug o) (og_Name o) (og_OwnerID o) now b).
Proof.
  unfold NewOrg. cbv zeta. destruct (org_validateSlug _) eqn:Es; [discriminate|]. destruct (org_validateName _) eqn:En; [discriminate|].
  intros [= <-]. split; assumption.
Qed.
Lemma rename_ok o name o' : org_ok o -> Org_Rename o name = inr o' -> org_ok o'.
Proof. intros [Hs _]. unfold Org_Rename. cbv zeta. destruct (org_validateName _) eqn:En; [discriminate|]. intros [= <-]. split; assumption. Qed.
Lemma Project_New_ok id now o slug name p b : Project_New uuid_Nil 0 o slug name = inr p -> project_ok (mkProject id (pj_OrgID p) (pj_Slug p) (pj_Name p) now b).
Proof.
  unfold Project_New. destruct (project_validateSlug slug) eqn:Es; [discriminate|]. destruct (project_validateName name) eqn:En; [discriminate|].
  intros [= <-]. split; [exact Es | exists name; exact En].
Qed.
Lemma project_rename_ok p name p' : project_ok p -> Project_Rename p name = inr p' -> project_ok p'.
Proof. intros [Hs _]. unfold Project_Rename. destruct (project_validateName name) eqn:En; [discriminate|]. intros [= <-]. split; [exact Hs | exists name; exact En]. Qed.
