(* ===== verification/ApiKeyService.v ===== *)
(** * API keys: store, service and authenticator ([internal/apikey])

    The tables [api_keys] and [api_key_projects]; the service that mints, widens and
    revokes keys behind the membership gate; and the authenticator that turns a
    credential into a principal, with the worker that notes when a key was used. *)
From Stdlib Require Import ZArith Lia String List.
From stdpp Require Import base gmap list strings.
From S2P Require Import Prelude GoStrings Errors Encoding Tenant Org ApiKey World OutboxStore OrgService.
Local Open Scope string_scope.
Local Open Scope Z_scope.

(** ** Statements *)

(** The [api_keys_kind_shape] check. *)
Definition kind_shape (k : APIKey) : bool :=
  (String.eqb (ak_Kind k) KindProject && negb (N.eqb (ak_ProjectID k) uuid_Nil) && negb (ak_AllProjects k))
  || (HasGrant k && N.eqb (ak_ProjectID k) uuid_Nil).
(** A row as [api_keys] holds it: its projects are in [api_key_projects]. *)
Definition key_row (k : APIKey) : APIKey := set_grant (ak_AllProjects k) [] k.
Definition taken_hash (k : APIKey) (db : DB) : bool :=
  existsb (fun x => negb (N.eqb (ak_ID x) (ak_ID k)) && String.eqb (ak_SecretHash x) (ak_SecretHash k)) (rows (db_apikeys db)).
Definition key_refs_ok (k : APIKey) (db : DB) : bool :=
  bool_decide (ak_OrgID k ∈ db_orgs db)
  && (N.eqb (ak_ProjectID k) uuid_Nil || bool_decide (ak_ProjectID k ∈ db_projects db))
  && (N.eqb (ak_CreatedBy k) uuid_Nil || bool_decide (ak_CreatedBy k ∈ db_users db)).
(** What a conflicting save writes over a stored row. *)
Definition key_updated (old k : APIKey) : APIKey :=
  mkKey (ak_ID old) (ak_OrgID old) (ak_ProjectID old) (ak_Kind old) (ak_AllProjects k) [] (ak_Name k) (ak_SecretHash old)
    (ak_SecretHint old) (ak_Scopes k) (ak_ResourceIDs k) (ak_CreatedBy old) (ak_CreatedAt old) (ak_ExpiresAt k)
    (ak_RevokedAt k) (ak_LastUsedAt k).
Definition key_upsert (tc : Tenant) (k : APIKey) : Statement := fun db =>
  if negb (kind_shape k) then inl (CONSTRAINT_CHECK, "CHECK constraint failed: api_keys_kind_shape") else
  match db_apikeys db !! ak_ID k with
  | Some old =>
    if negb (N.eqb (ak_OrgID old) (OrgID tc)) then inr (db, 0%nat) else
    if negb (kind_shape (key_updated old k)) then inl (CONSTRAINT_CHECK, "CHECK constraint failed: api_keys_kind_shape")
    else inr (set_apikeys (<[ak_ID k := key_updated old k]> (db_apikeys db)) db, 1%nat)
  | None =>
    if taken_hash k db then inl (CONSTRAINT_UNIQUE, "UNIQUE constraint failed: api_keys.secret_hash") else
    if key_refs_ok k db then inr (set_apikeys (<[ak_ID k := key_row k]> (db_apikeys db)) db, 1%nat)
    else inl (CONSTRAINT_FOREIGNKEY, "FOREIGN KEY constraint failed")
  end.

Definition grants_prune (tc : Tenant) (k : APIKey) : Statement := fun db =>
  let keep := fun p : (uuid * uuid) * Grant =>
    ~ (gr_OrgID (snd p) = OrgID tc /\ fst (fst p) = ak_ID k /\ snd (fst p) ∉ ak_ProjectIDs k) in
  let rest := filter keep (db_grants db) in
  inr (set_grants rest db, (size (db_grants db) - size rest)%nat).
(** The composite keys: the key and the project are of the row's organisation. *)
Definition grant_ok (tc : Tenant) (k : APIKey) (db : DB) (id : uuid) : bool :=
  match db_apikeys db !! ak_ID k with Some x => N.eqb (ak_OrgID x) (OrgID tc) | None => false end
  && match db_project_rows db !! id with Some p => N.eqb (pj_OrgID p) (OrgID tc) | None => false end.
Definition grant_row (tc : Tenant) (now : Z) (kid : uuid) (m : gmap (uuid * uuid) Grant) (id : uuid) : gmap (uuid * uuid) Grant :=
  match m !! (kid, id) with Some _ => m | None => <[(kid, id) := mkGrantRow (OrgID tc) now]> m end.
Definition grants_insert (tc : Tenant) (k : APIKey) (now : Z) : Statement := fun db =>
  if forallb (grant_ok tc k db) (List.filter (fun id => match db_grants db !! (ak_ID k, id) with Some _ => false | None => true end) (ak_ProjectIDs k))
  then let m := fold_left (grant_row tc now (ak_ID k)) (ak_ProjectIDs k) (db_grants db) in
       inr (set_grants m db, (size m - size (db_grants db))%nat)
  else inl (CONSTRAINT_FOREIGNKEY, "FOREIGN KEY constraint failed").

Definition grant_before (a b : (uuid * uuid) * Grant) : bool :=
  (gr_CreatedAt (snd a) <? gr_CreatedAt (snd b))
  || ((gr_CreatedAt (snd a) =? gr_CreatedAt (snd b)) && (snd (fst a) <=? snd (fst b))%N).
(** The projects of a key's grants, oldest first. *)
Definition grants_of (db : DB) (orgID keyID : uuid) : list uuid :=
  map (fun p => snd (fst p))
    (sort_by grant_before
       (List.filter (fun p => N.eqb (gr_OrgID (snd p)) orgID && N.eqb (fst (fst p)) keyID) (map_to_list (db_grants db)))).
Definition with_grants (db : DB) (k : APIKey) : APIKey := set_grant (ak_AllProjects k) (grants_of db (ak_OrgID k) (ak_ID k)) k.
Definition key_of (db : DB) (tc : Tenant) (id : uuid) : option APIKey :=
  match db_apikeys db !! id with
  | Some k => if N.eqb (ak_OrgID k) (OrgID tc) then Some (with_grants db k) else None
  | None => None
  end.
Definition key_by_hash (db : DB) (hash : string) : option APIKey :=
  option_map (with_grants db) (List.find (fun k => String.eqb (ak_SecretHash k) hash) (rows (db_apikeys db))).
Definition newer_key (a b : APIKey) : bool :=
  (ak_CreatedAt b <? ak_CreatedAt a) || ((ak_CreatedAt a =? ak_CreatedAt b) && (ak_ID b <=? ak_ID a)%N).
Definition keys_where (db : DB) (tc : Tenant) (p : APIKey -> bool) : list APIKey :=
  map (with_grants db) (sort_by newer_key (List.filter (fun k => N.eqb (ak_OrgID k) (OrgID tc) && p k) (rows (db_apikeys db)))).
Definition personal_of (ownerID : uuid) (k : APIKey) : bool := String.eqb (ak_Kind k) KindPersonal && N.eqb (ak_CreatedBy k) ownerID.
Definition unrevoked (k : APIKey) : bool := match ak_RevokedAt k with None => true | Some _ => false end.
Definition keys_revoke (tc : Tenant) (ownerID : uuid) (at_ : Z) : Statement := fun db =>
  let hit := fun k => N.eqb (ak_OrgID k) (OrgID tc) && personal_of ownerID k && unrevoked k in
  inr (set_apikeys ((fun k => if hit k then set_times (Some at_) (ak_LastUsedAt k) k else k) <$> db_apikeys db) db,
       List.length (List.filter hit (rows (db_apikeys db)))).
Definition key_touch (tc : Tenant) (id : uuid) (at_ : Z) : Statement := fun db =>
  match db_apikeys db !! id with
  | Some k =>
    if N.eqb (ak_OrgID k) (OrgID tc)
    then inr (set_apikeys (<[id := set_times (ak_RevokedAt k) (Some at_) k]> (db_apikeys db)) db, 1%nat) else inr (db, 0%nat)
  | None => inr (db, 0%nat)
  end.

(** ** The store *)
Section Store.
Context `{Env}.

Definition key_save (tc : Tenant) (k : APIKey) : M unit :=
  let* n := st_maperr (EWrap "apikey.sqlite.Save") (exec_stmt (key_upsert tc k)) in
  if Nat.eqb n 0 then st_err (EAPIKey KeyNotFoundError) else st_ret tt.
Definition syncGrants (tc : Tenant) (k : APIKey) : M unit :=
  st_maperr (EWrap "apikey.sqlite.Save: prune grants") (exec_stmt (grants_prune tc k)) ;;;
  if Nat.eqb (List.length (ak_ProjectIDs k)) 0 then st_ret tt else
  let* now := time_Now in
  st_maperr (EWrap "apikey.sqlite.Save: add grants") (exec_stmt (grants_insert tc k now)) ;;; st_ret tt.
Definition key_Save (cx : Ctx) (k : APIKey) : M unit :=
  write_tx "apikey" cx (fun tc => key_save tc k ;;; syncGrants tc k).
Definition key_store_ByID (cx : Ctx) (id : uuid) : M APIKey :=
  read_tx "apikey" cx (fun tc =>
    let* r := query "apikey.sqlite.query" (fun db => key_of db tc id) in
    match r with None => st_err (EAPIKey KeyNotFoundError) | Some k => st_ret k end).
(** No tenant: the caller is not known yet. *)
Definition BySecretHash (cx : Ctx) (hash : string) : M APIKey :=
  let* r := on_conn cx (query "apikey.sqlite.query" (fun db => key_by_hash db hash)) in
  match r with None => st_err (EAPIKey KeyNotFoundError) | Some k => st_ret k end.
Definition key_store_List (cx : Ctx) (projectID : uuid) : M (list APIKey) :=
  read_tx "apikey" cx (fun tc => query "apikey.sqlite.List" (fun db =>
    keys_where db tc (fun k => String.eqb (ak_Kind k) KindProject && N.eqb (ak_ProjectID k) projectID))).
Definition key_store_ListOrg (cx : Ctx) : M (list APIKey) :=
  read_tx "apikey" cx (fun tc => query "apikey.sqlite.ListOrg" (fun db =>
    keys_where db tc (fun k => String.eqb (ak_Kind k) KindOrg))).
Definition key_store_ListPersonal (cx : Ctx) (ownerID : uuid) : M (list APIKey) :=
  read_tx "apikey" cx (fun tc => query "apikey.sqlite.ListPersonal" (fun db => keys_where db tc (personal_of ownerID))).
Definition RevokePersonal (cx : Ctx) (ownerID : uuid) (at_ : Z) : M unit :=
  write_tx "apikey" cx (fun tc =>
    st_maperr (EWrap "apikey.sqlite.RevokePersonal") (exec_stmt (keys_revoke tc ownerID at_)) ;;; st_ret tt).
Definition TouchLastUsed (cx : Ctx) (id : uuid) (at_ : Z) : M unit :=
  write_tx "apikey" cx (fun tc =>
    let* n := st_maperr (EWrap "apikey.sqlite.TouchLastUsed") (exec_stmt (key_touch tc id at_)) in
    if Nat.eqb n 0 then st_err (EAPIKey KeyNotFoundError) else st_ret tt).
End Store.

(** ** Ports *)

(** [Members], the membership gate, and [Projects], an organisation's project ids. *)
Class KeyMembers := {
  RequireManager_ : Ctx -> uuid -> uuid -> M unit;
  RequireMember_ : Ctx -> uuid -> uuid -> M unit
}.
Class KeyProjects := ProjectIDs : Ctx -> uuid -> M (list uuid).

(** ** The service *)
Section Service.
Context `{Env, SecretBytes, KeyMembers, KeyProjects}.

Definition hasOrgLevelScope (scopes : list string) : bool := existsb (level_is LevelOrg) scopes.
Definition requireOwner (cx : Ctx) (orgID userID : uuid) (scopes : list string) : M unit :=
  if hasOrgLevelScope scopes then RequireManager_ cx orgID userID else RequireMember_ cx orgID userID.
Definition requireMinter (cx : Ctx) (kind : Kind) (tc : Tenant) (scopes : list string) : M unit :=
  if String.eqb kind KindPersonal then requireOwner cx (OrgID tc) (UserID tc) scopes
  else RequireManager_ cx (OrgID tc) (UserID tc).
Definition requireMintable (scopes : list string) : option APIKeyError :=
  option_map RetiredScopeError (List.find (fun sc => ValidScope sc && negb (Mintable sc)) scopes).
Definition refuse_some (e : option APIKeyError) : M unit := match e with Some e => st_err (EAPIKey e) | None => st_ret tt end.
Definition mintGate (cx : Ctx) (kind : Kind) (scopes : list string) (expiresAt : option Z) : M Tenant :=
  let* tc := from_tenant cx in
  requireMinter cx kind tc scopes ;;;
  refuse_some (requireMintable scopes) ;;;
  let* now := time_Now in
  refuse_some (validateLifetime expiresAt now) ;;;
  st_ret tc.
Definition requireOrgProjects (cx : Ctx) (orgID : uuid) (projectIDs : list uuid) : M unit :=
  if Nat.eqb (List.length projectIDs) 0 then st_ret tt else
  let* r := st_try (ProjectIDs cx orgID) in
  match r with
  | inl e => unexpected "apikey: list org projects" e
  | inr owned =>
    match List.find (fun id => negb (existsb (N.eqb id) owned)) projectIDs with
    | Some id => st_err (EAPIKey (ProjectNotInOrgError (uuid_String id)))
    | None => st_ret tt
    end
  end.

(** [Scheme.mint] and the three mints over it. *)
Definition mint (sc : Scheme) (orgID : uuid) (name : string) (scopes : list string) (expiresAt : option Z) (now : Z)
    : M (APIKey * string) :=
  refuse_some (unknown_scope scopes) ;;;
  let* n := tick in
  let* random := st_sum (rand_bytes n) in
  let* id := NewV7 in
  st_ret (new_key sc random id orgID name scopes expiresAt now).
Definition scheme_Mint (sc : Scheme) (orgID projectID : uuid) (name : string) (scopes : list string) (resourceIDs : list uuid)
    (expiresAt : option Z) (now : Z) : M (APIKey * string) :=
  refuse_some (org_scope scopes) ;;;
  let* '(k, plaintext) := mint sc orgID name scopes expiresAt now in
  st_ret (set_binding KindProject projectID false [] resourceIDs k, plaintext).
Definition scheme_MintOrg (sc : Scheme) (orgID : uuid) (name : string) (scopes : list string) (grant : ProjectGrant)
    (expiresAt : option Z) (now : Z) : M (APIKey * string) :=
  refuse_some (grant_validate grant) ;;;
  let* '(k, plaintext) := mint sc orgID name scopes expiresAt now in
  st_ret (set_binding KindOrg uuid_Nil (pg_All grant) (dedupe (pg_ProjectIDs grant)) [] k, plaintext).
Definition scheme_MintPersonal (sc : Scheme) (orgID ownerID : uuid) (name : string) (scopes : list string) (grant : ProjectGrant)
    (expiresAt : option Z) (now : Z) : M (APIKey * string) :=
  let* '(k, plaintext) := scheme_MintOrg sc orgID name scopes grant expiresAt now in
  st_ret (set_createdBy ownerID (set_binding KindPersonal (ak_ProjectID k) (ak_AllProjects k) (ak_ProjectIDs k) (ak_ResourceIDs k) k),
          plaintext).

Definition saveMinted (cx : Ctx) (tc : Tenant) (minted : APIKey * string) : M (APIKey * string) :=
  let k := set_createdBy (UserID tc) (fst minted) in
  let* r := st_try (key_Save cx k) in
  match r with
  | inl e => unexpected "apikey.Mint: save" e
  | inr _ => st_ret (k, snd minted)
  end.
Definition key_Mint (sc : Scheme) (cx : Ctx) (name : string) (scopes : list string) (resourceIDs : list uuid) (expiresAt : option Z)
    : M (APIKey * string) :=
  let* tc := mintGate cx KindProject scopes expiresAt in
  let* now := time_Now in
  let* minted := scheme_Mint sc (OrgID tc) (ProjectID tc) name scopes resourceIDs expiresAt now in
  saveMinted cx tc minted.
Definition key_MintOrg (sc : Scheme) (cx : Ctx) (name : string) (scopes : list string) (grant : ProjectGrant) (expiresAt : option Z)
    : M (APIKey * string) :=
  let* tc := mintGate cx KindOrg scopes expiresAt in
  requireOrgProjects cx (OrgID tc) (pg_ProjectIDs grant) ;;;
  let* now := time_Now in
  let* minted := scheme_MintOrg sc (OrgID tc) name scopes grant expiresAt now in
  saveMinted cx tc minted.
Definition key_MintPersonal (sc : Scheme) (cx : Ctx) (name : string) (scopes : list string) (grant : ProjectGrant) (expiresAt : option Z)
    : M (APIKey * string) :=
  let* tc := mintGate cx KindPersonal scopes expiresAt in
  requireOrgProjects cx (OrgID tc) (pg_ProjectIDs grant) ;;;
  let* now := time_Now in
  let* minted := scheme_MintPersonal sc (OrgID tc) (UserID tc) name scopes grant expiresAt now in
  saveMinted cx tc minted.

Definition masked {A} (op : string) (m : M A) : M A :=
  let* r := st_try m in match r with inl e => unexpected op e | inr a => st_ret a end.
Definition key_List (cx : Ctx) (projectID : uuid) : M (list APIKey) := masked "apikey.List: list" (key_store_List cx projectID).
Definition key_ListOrg (cx : Ctx) : M (list APIKey) := masked "apikey.ListOrg: list" (key_store_ListOrg cx).
Definition key_ListPersonal (cx : Ctx) : M (list APIKey) :=
  let* tc := from_tenant cx in masked "apikey.ListPersonal: list" (key_store_ListPersonal cx (UserID tc)).
Definition RevokePersonalOf (cx : Ctx) (orgID userID : uuid) : M unit :=
  let* now := time_Now in
  masked "apikey.RevokePersonalOf" (RevokePersonal (WithOrg cx orgID) userID now).

Definition key_load (cx : Ctx) (tc : Tenant) (id : uuid) : M APIKey :=
  let* r := st_try (key_store_ByID cx id) in
  match r with
  | inl e => if IsKeyNotFound e then st_err e else unexpected "apikey.load" e
  | inr k =>
    if negb (N.eqb (ak_OrgID k) (OrgID tc)) || negb (N.eqb (ak_ProjectID k) (ProjectID tc))
    then st_err (EAPIKey KeyNotFoundError) else st_ret k
  end.
Definition loadForChange (cx : Ctx) (id : uuid) : M (Tenant * APIKey) :=
  let* tc := from_tenant cx in
  let* k := key_load cx tc id in
  if negb (String.eqb (ak_Kind k) KindPersonal) then RequireManager_ cx (OrgID tc) (UserID tc) ;;; st_ret (tc, k) else
  if N.eqb (UserID tc) uuid_Nil || negb (N.eqb (ak_CreatedBy k) (UserID tc)) then st_err (EAPIKey KeyNotFoundError) else
  RequireMember_ cx (OrgID tc) (UserID tc) ;;; st_ret (tc, k).
Definition promote (cx : Ctx) (id : uuid) (widen : Tenant -> APIKey -> M APIKey) : M APIKey :=
  let* '(tc, k) := loadForChange cx id in
  let* k := widen tc k in
  let* r := st_try (key_Save cx k) in
  match r with inl e => unexpected "apikey.promote: save" e | inr _ => st_ret k end.
Definition widened (r : APIKeyError + APIKey) : M APIKey := match r with inl e => st_err (EAPIKey e) | inr k => st_ret k end.
Definition GrantProjects (cx : Ctx) (id : uuid) (projectIDs : list uuid) : M APIKey :=
  promote cx id (fun tc k =>
    requireOrgProjects cx (OrgID tc) projectIDs ;;; widened (key_GrantProjects k projectIDs)).
Definition GrantAllProjects (cx : Ctx) (id : uuid) : M APIKey := promote cx id (fun _ k => widened (key_GrantAllProjects k)).
Definition key_Revoke (cx : Ctx) (id : uuid) : M unit :=
  let* '(_, k) := loadForChange cx id in
  let* k := match ak_RevokedAt k with
            | Some _ => st_ret k
            | None => let* now := time_Now in st_ret (set_times (Some now) (ak_LastUsedAt k) k)
            end in
  let* r := st_try (key_Save cx k) in
  match r with inl e => unexpected "apikey.Revoke: save" e | inr _ => st_ret tt end.
End Service.

(** ** The authenticator *)

(** The usage worker's queue: the tenant an entry is written under, and when. *)
Record usageEntry := mkUsage { us_tc : Tenant; us_at : Z }.
Definition Pending : Type := gmap uuid usageEntry.
Definition usage_Record (p : Pending) (id : uuid) (tc : Tenant) (at_ : Z) : Pending :=
  match p !! id with
  | Some cur => if us_at cur <? at_ then <[id := mkUsage tc at_]> p else p
  | None => <[id := mkUsage tc at_]> p
  end.

Section Authenticator.
Context `{Env, KeyMembers}.

(** The worker's flush: the queue is taken, and each entry written on its own; a
    write that fails is logged. *)
Fixpoint flush_from (l : list (uuid * usageEntry)) (cx : Ctx) : M unit :=
  match l with
  | [] => st_ret tt
  | (id, e) :: rest =>
    let* _ := st_try (E' := Error) (TouchLastUsed (Into cx (us_tc e)) id (us_at e)) in flush_from rest cx
  end.
Definition usage_flush (cx : Ctx) (p : Pending) : M Pending :=
  flush_from (map_to_list p) cx ;;; st_ret ∅.

Definition requireLiveOwner (cx : Ctx) (k : APIKey) : M unit :=
  if negb (String.eqb (ak_Kind k) KindPersonal) then st_ret tt else
  if N.eqb (ak_CreatedBy k) uuid_Nil then st_err (EAuthn UnauthorizedError)
  else requireOwner (WithOrg cx (ak_OrgID k)) (ak_OrgID k) (ak_CreatedBy k) (ak_Scopes k).
Definition ownerRefusal (e : Error) : Error :=
  if is_app e || IsUnauthorized e then EAuthn UnauthorizedError else EAuthnUnavailable e.
(** With the usage worker's queue, which a success adds to. *)
Definition resolve (sc : Scheme) (cx : Ctx) (raw : string) (p : Pending) : M (APIKey * Pending) :=
  if negb (looks_key sc raw) then st_err (EAuthn UnauthorizedError) else
  let* r := st_try (BySecretHash cx (sha256 raw)) in
  match r with
  | inl e => if IsKeyNotFound e then st_err (EAuthn UnauthorizedError) else st_err (EAuthnUnavailable e)
  | inr k =>
    let* now := time_Now in
    if negb (Usable k now) then st_err (EAuthn UnauthorizedError) else
    st_maperr ownerRefusal (requireLiveOwner cx k) ;;;
    let* now := time_Now in
    st_ret (k, usage_Record p (ak_ID k) (mkTenant (ak_OrgID k) (ak_ProjectID k) uuid_Nil) now)
  end.
Definition Authenticate (sc : Scheme) (cx : Ctx) (raw : string) (p : Pending) : M (KeyPrincipal * Pending) :=
  let* '(k, p) := resolve sc cx raw p in st_ret (principalFor k, p).
Definition authorize_with (reaches : KeyPrincipal -> bool) (scope : string) (orgID projectID : uuid) (r : KeyPrincipal * Pending)
    : M (KeyPrincipal * Pending) :=
  if negb (ReachesProject (fst r) orgID projectID) then st_err (EAuthn UnauthorizedError) else
  if negb (existsb (String.eqb scope) (kp_Scopes (fst r))) || negb (reaches (fst r))
  then st_err (EAuthn (InsufficientScopeError scope)) else st_ret r.
Definition Authorize (sc : Scheme) (cx : Ctx) (raw scope : string) (orgID projectID resourceID : uuid) (p : Pending)
    : M (KeyPrincipal * Pending) :=
  let* r := Authenticate sc cx raw p in
  authorize_with (fun q => ReachesResource q orgID projectID resourceID) scope orgID projectID r.
Definition AuthorizeProject (sc : Scheme) (cx : Ctx) (raw scope : string) (orgID projectID : uuid) (p : Pending)
    : M (KeyPrincipal * Pending) :=
  let* r := Authenticate sc cx raw p in
  authorize_with (fun q => ReachesWholeProject q orgID projectID) scope orgID projectID r.
End Authenticator.

(** ** Wiring ([internal/boot/services.go], [shims.go]) *)
Section Wiring.
Context `{Env}.
#[export] Instance orgMembers : KeyMembers := {|
  RequireManager_ := fun _ => org_RequireManager;
  RequireMember_ := fun _ => org_RequireMember
|}.
#[export] Instance orgProjectIDs : KeyProjects := fun cx orgID =>
  let* l := project_List (WithOrg cx orgID) orgID in st_ret (map pj_ID l).
(** [orgs.OnMemberRemoved(keys.RevokePersonalOf)]. *)
#[export] Instance revokeOnRemoval : RemovalHooks := [RevokePersonalOf].
End Wiring.
