(* ===== verification/ApiKeyTheory.v ===== *)
(** * What API key operations keep

    The keys' tables stay well formed and a key stays what it was minted as, whatever
    sessions interleave; keys of organisations a session does not act in stay as they
    are. *)
From Stdlib Require Import ZArith Lia String List.
From stdpp Require Import base gmap list strings.
From S2P Require Import Prelude GoStrings Errors Encoding Tenant Org ApiKey World OutboxStore OrgService OrgTheory ApiKeyService.
Local Open Scope string_scope.

(** ** The invariant *)

(** What no operation changes of a key. *)
Definition core (k : APIKey) : APIKey := set_grant false [] (set_times None None k).

Section Rows.
Context `{Env}.

(** The expiry lies within [MaxLifetime] of a clock reading it was in the future of. *)
Definition lifetime_ok (k : APIKey) : Prop :=
  exists e n, ak_ExpiresAt k = Some e /\ (env_now n < e <= env_now n + MaxLifetime)%Z.
Definition mintable_key (k : APIKey) : Prop := lifetime_ok k /\ Forall (fun s => ValidScope s = true) (ak_Scopes k).
Definition key_ok (k : APIKey) : Prop := ak_ProjectIDs k = [] /\ kind_shape k = true /\ mintable_key k.

Definition keys_wf (db : DB) : Prop :=
  (forall id k, db_apikeys db !! id = Some k -> ak_ID k = id /\ key_ok k)
  /\ (forall i j k l, db_apikeys db !! i = Some k -> db_apikeys db !! j = Some l -> ak_SecretHash k = ak_SecretHash l -> i = j)
  /\ (forall kid pid g, db_grants db !! (kid, pid) = Some g ->
        exists k p, db_apikeys db !! kid = Some k /\ ak_OrgID k = gr_OrgID g /\ HasGrant k = true
          /\ db_project_rows db !! pid = Some p /\ pj_OrgID p = gr_OrgID g).

Variable foreign : uuid -> Prop.   (** the organisations out of reach *)
(** Keys stay, with their cores; the keys and grants of organisations out of reach stay as they
    are; projects stay in their organisations. *)
Definition keys_kept (db db' : DB) : Prop :=
  (forall id k, db_apikeys db !! id = Some k -> exists k', db_apikeys db' !! id = Some k' /\ core k' = core k)
  /\ (forall id k, foreign (ak_OrgID k) -> (db_apikeys db !! id = Some k <-> db_apikeys db' !! id = Some k))
  /\ (forall i g, foreign (gr_OrgID g) -> (db_grants db !! i = Some g <-> db_grants db' !! i = Some g)).
Definition projects_kept (db db' : DB) : Prop :=
  forall id p, db_project_rows db !! id = Some p -> exists p', db_project_rows db' !! id = Some p' /\ pj_OrgID p' = pj_OrgID p.
(** Projects stay in their organisations, and the organisations' tables well formed. *)
Definition directory_kept (db db' : DB) : Prop := projects_kept db db' /\ orgs_step db db'.
Definition key_step (db db' : DB) : Prop := keys_wf db -> keys_wf db' /\ keys_kept db db' /\ directory_kept db db'.
Lemma key_step_intro db db' : directory_kept db db' -> (keys_wf db -> keys_wf db' /\ keys_kept db db') -> key_step db db'.
Proof. intros Hp Hs Hw. destruct (Hs Hw). auto. Qed.

Lemma directory_kept_same db db' :
  db_org_rows db' = db_org_rows db -> db_members db' = db_members db -> db_project_rows db' = db_project_rows db -> directory_kept db db'.
Proof. intros E1 E2 E3. split; [intros id p Hp; rewrite E3; eauto | apply orgs_step_same; assumption]. Qed.
#[local] Instance directory_kept_pre : PreOrder directory_kept.
Proof.
  split; [intros db; apply directory_kept_same; reflexivity|]. intros a b c [P1 O1] [P2 O2]. split; [|etransitivity; eassumption].
  intros id p Hp. destruct (P1 _ _ Hp) as (p1 & Hp1 & E1). destruct (P2 _ _ Hp1) as (p2 & Hp2 & E2). exists p2. split; congruence.
Qed.
Lemma keys_kept_refl db : keys_kept db db.
Proof. split; [intros id k Hk; eauto | split; reflexivity]. Qed.
Lemma keys_kept_trans a b c : keys_kept a b -> keys_kept b c -> keys_kept a c.
Proof.
  intros (K1 & F1 & G1) (K2 & F2 & G2). split; [|split].
  - intros id k Hk. destruct (K1 _ _ Hk) as (k1 & H1 & E1). destruct (K2 _ _ H1) as (k2 & H2' & E2). exists k2. split; congruence.
  - intros id k Hf. rewrite F1 by exact Hf. apply F2, Hf.
  - intros i g Hf. rewrite G1 by exact Hf. apply G2, Hf.
Qed.
#[export] Instance key_step_pre : PreOrder key_step.
Proof.
  split.
  - intros db Hw. split; [exact Hw | split; [apply keys_kept_refl | reflexivity]].
  - intros a b c S1 S2 Hw. destruct (S1 Hw) as (Hb & K1 & P1). destruct (S2 Hb) as (Hc & K2 & P2).
    split; [exact Hc|]. split; [exact (keys_kept_trans _ _ _ K1 K2) | etransitivity; eassumption].
Qed.
(** A step that leaves the keys and grants alone. *)
Lemma key_step_free db db' :
  db_apikeys db' = db_apikeys db -> db_grants db' = db_grants db -> directory_kept db db' -> key_step db db'.
Proof.
  intros Ek Eg Hp. apply key_step_intro; [exact Hp|]. intros (W1 & W2 & W3). unfold keys_wf, keys_kept. rewrite Ek, Eg. split; [split; [exact W1 | split; [exact W2|]]|].
  - intros kid pid g Hg. destruct (W3 _ _ _ Hg) as (k & p & Hk & Eo & Hh & Hr & Epo).
    destruct (proj1 Hp _ _ Hr) as (p' & Hr' & Epo'). exists k, p'. split; [exact Hk|]. split; [exact Eo|]. split; [exact Hh|]. split; [exact Hr' | congruence].
  - split; [intros id k Hk; eauto | split; reflexivity].
Qed.

(** ** Cores *)
Lemma core_fields k k' : core k' = core k ->
  ak_ID k' = ak_ID k /\ ak_OrgID k' = ak_OrgID k /\ ak_ProjectID k' = ak_ProjectID k /\ ak_Kind k' = ak_Kind k
  /\ ak_Name k' = ak_Name k /\ ak_SecretHash k' = ak_SecretHash k /\ ak_SecretHint k' = ak_SecretHint k /\ ak_Scopes k' = ak_Scopes k
  /\ ak_ResourceIDs k' = ak_ResourceIDs k /\ ak_CreatedBy k' = ak_CreatedBy k /\ ak_CreatedAt k' = ak_CreatedAt k
  /\ ak_ExpiresAt k' = ak_ExpiresAt k.
Proof. destruct k, k'. unfold core, set_grant, set_binding, set_times. cbn. intros [= -> -> -> -> -> -> -> -> -> -> -> ->]. repeat split. Qed.
Lemma core_HasGrant k k' : core k' = core k -> HasGrant k' = HasGrant k.
Proof. intros (_ & _ & _ & E & _)%core_fields. unfold HasGrant. rewrite E. reflexivity. Qed.
Lemma core_set_times r u k : core (set_times r u k) = core k.
Proof. reflexivity. Qed.
Lemma core_set_grant a l k : core (set_grant a l k) = core k.
Proof. reflexivity. Qed.
Lemma core_with_grants db k : core (with_grants db k) = core k.
Proof. reflexivity. Qed.
Lemma core_updated old k : core k = core old -> core (key_updated old k) = core old.
Proof.
  intros (_ & _ & _ & _ & En & _ & _ & Es & Er & _ & _ & Ee)%core_fields. destruct old, k. cbn in *. subst. reflexivity.
Qed.
Lemma lifetime_core k k' : core k' = core k -> lifetime_ok k -> lifetime_ok k'.
Proof. intros (_ & _ & _ & _ & _ & _ & _ & _ & _ & _ & _ & E)%core_fields (e & n & He & Hn). exists e, n. split; [congruence | exact Hn]. Qed.

(** Writing a row with the core of the stored one, or a new row under a fresh hash. *)
Lemma put_key_step db id old k :
  db_apikeys db !! id = Some old -> core k = core old -> ~ foreign (ak_OrgID old) -> ak_ProjectIDs k = [] -> kind_shape k = true ->
  key_step db (set_apikeys (<[id := k]> (db_apikeys db)) db).
Proof.
  intros Ho Hc Hf Hp Hs. pose proof (core_fields _ _ Hc) as (E1 & E2 & _ & _ & _ & E6 & _ & E8 & _).
  apply key_step_intro; [apply directory_kept_same; reflexivity|]. intros (W1 & W2 & W3). destruct (W1 _ _ Ho) as [Hi (Hop & Hos & Hol & Hoc)].
  split; [split; [|split]|].
  - intros i x. cbn. rewrite lookup_insert_Some. intros [[<- <-]|[_ Hx]]; [|eauto].
    split; [congruence|]. split; [exact Hp|]. split; [exact Hs|]. split; [apply (lifetime_core old); assumption | rewrite E8; exact Hoc].
  - intros i j x y. cbn. rewrite !lookup_insert_Some. intros [[<- <-]|[Hi' Hx]] [[<- <-]|[Hj Hy]] E; [reflexivity| | |].
    + apply (W2 _ _ _ _ Ho Hy). congruence.
    + apply (W2 _ _ _ _ Hx Ho). congruence.
    + apply (W2 _ _ _ _ Hx Hy E).
  - intros kid pid g. cbn. intros Hg. destruct (W3 _ _ _ Hg) as (x & p & Hx & Eo & Hh & Hr).
    destruct (decide (kid = id)) as [->|Hne].
    + exists k, p. rewrite lookup_insert_eq. rewrite Ho in Hx. injection Hx as <-.
      split; [reflexivity|]. split; [congruence|]. split; [rewrite (core_HasGrant old k Hc); exact Hh | exact Hr].
    + exists x, p. rewrite lookup_insert_ne by congruence. auto.
  - split; [|split; [|reflexivity]].
    + intros i x Hx. cbn. destruct (decide (i = id)) as [->|Hne]; [rewrite lookup_insert_eq | rewrite lookup_insert_ne by congruence; eauto].
      exists k. split; [reflexivity | congruence].
    + intros i x Hx. cbn. destruct (decide (i = id)) as [->|Hne]; [|rewrite lookup_insert_ne by congruence; reflexivity].
      rewrite lookup_insert_eq, Ho. split; intros E; injection E as <-; [destruct (Hf Hx) | destruct Hf; congruence].
Qed.
Lemma new_key_step db id k :
  db_apikeys db !! id = None -> ak_ID k = id -> key_ok k -> ~ foreign (ak_OrgID k) -> taken_hash k db = false ->
  key_step db (set_apikeys (<[id := k]> (db_apikeys db)) db).
Proof.
  intros Hn Hi Hok Hf Ht. apply key_step_intro; [apply directory_kept_same; reflexivity|]. intros (W1 & W2 & W3).
  assert (Hh : forall j x, db_apikeys db !! j = Some x -> ak_SecretHash x <> ak_SecretHash k).
  { intros j x Hx E. assert (taken_hash k db = true); [|congruence]. apply existsb_exists. exists x.
    split; [apply rows_In; eauto|]. rewrite E, String.eqb_refl, andb_true_r. destruct (W1 _ _ Hx) as [Ej _].
    apply negb_true_iff, N.eqb_neq. congruence. }
  split; [split; [|split]|].
  - intros i x. cbn. rewrite lookup_insert_Some. intros [[<- <-]|[_ Hx]]; eauto.
  - intros i j x y. cbn. rewrite !lookup_insert_Some. intros [[<- <-]|[Hi' Hx]] [[<- <-]|[Hj Hy]] E; [reflexivity| | |].
    + symmetry in E. destruct (Hh _ _ Hy E).
    + destruct (Hh _ _ Hx E).
    + apply (W2 _ _ _ _ Hx Hy E).
  - intros kid pid g. cbn. intros Hg. destruct (W3 _ _ _ Hg) as (x & p & Hx & Hr). exists x, p.
    rewrite lookup_insert_ne by congruence. auto.
  - split; [|split; [|reflexivity]].
    + intros i x Hx. cbn. rewrite lookup_insert_ne by congruence. eauto.
    + intros i x Hx. cbn. destruct (decide (i = id)) as [->|Hne]; [|rewrite lookup_insert_ne by congruence; reflexivity].
      rewrite lookup_insert_eq, Hn. split; [discriminate|]. intros E. injection E as <-. destruct (Hf Hx).
Qed.

(** *** The statements *)

(** The row under [k]'s id, when there is one, is this key. *)
Definition savable (k : APIKey) (db : DB) : Prop :=
  keys_wf db /\ match db_apikeys db !! ak_ID k with Some k0 => core k0 = core k | None => mintable_key k end.
Definition stored (k : APIKey) (db : DB) : Prop :=
  keys_wf db /\ exists k0, db_apikeys db !! ak_ID k = Some k0 /\ core k0 = core k.
Lemma stored_stable k db db' : key_step db db' -> stored k db -> stored k db'.
Proof.
  intros Hs [Hw (k0 & Hk & Hc)]. destruct (Hs Hw) as (Hw' & (K & _) & _). split; [exact Hw'|].
  destruct (K _ _ Hk) as (k1 & Hk1 & Hc1). exists k1. split; congruence.
Qed.
Lemma stored_savable k db : stored k db -> savable k db.
Proof. intros [Hw (k0 & Hk & Hc)]. split; [exact Hw|]. rewrite Hk. exact Hc. Qed.

Lemma key_upsert_step tc k db db' n :
  savable k db -> ~ foreign (OrgID tc) -> (db_apikeys db !! ak_ID k = None -> ak_OrgID k = OrgID tc) ->
  key_upsert tc k db = inr (db', S n) -> key_step db db' /\ stored k db'.
Proof.
  intros [Hw Hk] Hf Ho. unfold key_upsert. destruct (kind_shape k) eqn:Hs; [cbn [negb]|discriminate].
  assert (Hw' : forall d, key_step db d -> (exists k0, db_apikeys d !! ak_ID k = Some k0 /\ core k0 = core k) -> key_step db d /\ stored k d).
  { intros d Hd Hx. split; [exact Hd|]. split; [apply (Hd Hw) | exact Hx]. }
  destruct (db_apikeys db !! ak_ID k) as [old|] eqn:E.
  - destruct (N.eqb_spec (ak_OrgID old) (OrgID tc)) as [Eo|]; [|discriminate]. cbn [negb].
    destruct (kind_shape (key_updated old k)) eqn:Hu; [|discriminate]. cbn [negb]. intros [= <- _].
    pose proof (core_updated old k (eq_sym Hk)) as Hc. apply Hw'.
    + apply (put_key_step _ _ old); [exact E | exact Hc | congruence | reflexivity | exact Hu].
    + exists (key_updated old k). cbn. rewrite lookup_insert_eq. split; congruence.
  - destruct (taken_hash k db) eqn:Ht; [discriminate|]. destruct (key_refs_ok k db); [|discriminate]. intros [= <- _]. apply Hw'.
    + apply new_key_step; [exact E | reflexivity | split; [reflexivity | split; [exact Hs | exact Hk]] | cbn; rewrite Ho by reflexivity; exact Hf | exact Ht].
    + exists (key_row k). cbn. rewrite lookup_insert_eq. split; reflexivity.
Qed.
Lemma key_upsert_none tc k db db' : key_upsert tc k db = inr (db', 0%nat) -> db' = db.
Proof.
  unfold key_upsert. destruct (negb _); [discriminate|]. destruct (db_apikeys db !! ak_ID k).
  - destruct (negb (N.eqb _ _)); [intros [= <-]; reflexivity|]. destruct (negb _); discriminate.
  - destruct (taken_hash k db); [discriminate|]. destruct (key_refs_ok k db); discriminate.
Qed.

(** Grants of organisations in reach come and go; each names a key and a project of its own. *)
Lemma grants_step m db :
  (forall i g, foreign (gr_OrgID g) -> (db_grants db !! i = Some g <-> m !! i = Some g)) ->
  (forall kid pid g, m !! (kid, pid) = Some g -> db_grants db !! (kid, pid) = Some g \/
     exists k p, db_apikeys db !! kid = Some k /\ ak_OrgID k = gr_OrgID g /\ HasGrant k = true
       /\ db_project_rows db !! pid = Some p /\ pj_OrgID p = gr_OrgID g) ->
  key_step db (set_grants m db).
Proof.
  intros Hf Hm. apply key_step_intro; [apply directory_kept_same; reflexivity|]. intros (W1 & W2 & W3). split; [split; [exact W1 | split; [exact W2|]]|].
  - intros kid pid g Hg. destruct (Hm _ _ _ Hg) as [Hg'|Hg']; [exact (W3 _ _ _ Hg') | exact Hg'].
  - split; [intros id k Hk; eauto | split; [reflexivity | exact Hf]].
Qed.
Lemma grants_prune_step tc k db db' n : ~ foreign (OrgID tc) -> grants_prune tc k db = inr (db', n) -> key_step db db'.
Proof.
  intros Hf [= <- _]. apply grants_step.
  - intros i g Hg. rewrite map_lookup_filter_Some. cbn. split; [|tauto]. intros Hi. split; [exact Hi|]. intros (E & _). apply Hf. congruence.
  - intros kid pid g. rewrite map_lookup_filter_Some. tauto.
Qed.
Lemma grant_rows_spec tc now kid ids : forall (m : gmap (uuid * uuid) Grant) i g,
  fold_left (grant_row tc now kid) ids m !! i = Some g <->
  m !! i = Some g \/ (m !! i = None /\ fst i = kid /\ In (snd i) ids /\ g = mkGrantRow (OrgID tc) now).
Proof.
  induction ids as [|id ids IH]; intros m [a b] g; cbn [fold_left]; [cbn; intuition|].
  rewrite IH. unfold grant_row. destruct (m !! (kid, id)) as [x|] eqn:E.
  - cbn. intuition. subst. congruence.
  - destruct (decide ((kid, id) = (a, b))) as [Eq|Hne].
    + injection Eq as <- <-. rewrite lookup_insert_eq, E. cbn. split.
      * intros [Eq|(? & _)]; [injection Eq as <-; right; auto | discriminate].
      * intros [|(_ & _ & _ & ->)]; [discriminate | auto].
    + rewrite lookup_insert_ne by exact Hne. cbn. intuition. subst. destruct Hne. congruence.
Qed.
Lemma grants_insert_step tc k now db db' n :
  ~ foreign (OrgID tc) -> stored k db -> (HasGrant k = true \/ ak_ProjectIDs k = []) ->
  grants_insert tc k now db = inr (db', n) -> key_step db db'.
Proof.
  intros Hf [_ (k0 & Hk & Hc)] Hg. unfold grants_insert. destruct (forallb _ _) eqn:Hall; [|discriminate]. intros [= <- _].
  apply grants_step.
  - intros i g Hfg. rewrite grant_rows_spec. split; [auto|]. intros [Hi|(_ & _ & _ & ->)]; [exact Hi | destruct (Hf Hfg)].
  - intros kid pid g. rewrite grant_rows_spec. cbn [fst snd]. intros [Hi|(Hn & -> & Hin & ->)]; [auto|]. right.
    assert (Hok : grant_ok tc k db pid = true).
    { rewrite forallb_forall in Hall. apply Hall, filter_In. rewrite Hn. auto. }
    unfold grant_ok in Hok. rewrite Hk in Hok. apply andb_true_iff in Hok as [Ho Hp].
    destruct (db_project_rows db !! pid) as [p|] eqn:Ep; [|discriminate Hp].
    exists k0, p. split; [exact Hk|]. split; [apply N.eqb_eq, Ho|]. split; [|split; [reflexivity | apply N.eqb_eq, Hp]].
    rewrite (core_HasGrant k k0 Hc). destruct Hg as [Hg|Hg]; [exact Hg | rewrite Hg in Hin; destruct Hin].
Qed.

(** A map over the keys that keeps their cores, and leaves the others alone. *)
Lemma map_keys_step (f : APIKey -> APIKey) db :
  (forall k, core (f k) = core k) -> (forall k, ak_ProjectIDs (f k) = ak_ProjectIDs k) -> (forall k, kind_shape (f k) = kind_shape k) ->
  (forall k, foreign (ak_OrgID k) -> f k = k) -> key_step db (set_apikeys (f <$> db_apikeys db) db).
Proof.
  intros Hc Hp Hs Hf. apply key_step_intro; [apply directory_kept_same; reflexivity|]. intros (W1 & W2 & W3).
  assert (Hl : forall id x, (f <$> db_apikeys db) !! id = Some x -> exists k, db_apikeys db !! id = Some k /\ x = f k).
  { intros id x. rewrite lookup_fmap. intros (k & Hk & Hx)%fmap_Some. eauto. }
  split; [split; [|split]|split; [|split; [|reflexivity]]].
  - intros id x Hx. destruct (Hl _ _ Hx) as (k & Hk & ->). destruct (W1 _ _ Hk) as [Hi (A & B & C & D)].
    pose proof (core_fields _ _ (Hc k)) as (E1 & _ & _ & _ & _ & _ & _ & E8 & _).
    split; [congruence|]. split; [congruence|]. split; [congruence|]. split; [apply (lifetime_core k); auto | rewrite E8; exact D].
  - intros i j x y Hx Hy E. destruct (Hl _ _ Hx) as (k & Hk & ->). destruct (Hl _ _ Hy) as (l & Hl' & ->).
    apply (W2 _ _ _ _ Hk Hl'). pose proof (core_fields _ _ (Hc k)) as (_ & _ & _ & _ & _ & E6 & _).
    pose proof (core_fields _ _ (Hc l)) as (_ & _ & _ & _ & _ & E6' & _). congruence.
  - intros kid pid g Hg. destruct (W3 _ _ _ Hg) as (k & p & Hk & Eo & Hh & Hr). exists (f k), p.
    split; [cbn; rewrite lookup_fmap, Hk; reflexivity|]. pose proof (core_fields _ _ (Hc k)) as (_ & E2 & _).
    split; [congruence|]. split; [rewrite (core_HasGrant k (f k) (Hc k)); exact Hh | exact Hr].
  - intros id k Hk. exists (f k). split; [cbn; rewrite lookup_fmap, Hk; reflexivity | apply Hc].
  - intros id k Hk. cbn. rewrite lookup_fmap. split.
    + intros E. rewrite E. cbn. rewrite Hf by exact Hk. reflexivity.
    + intros (x & Hx & E)%fmap_Some. rewrite Hx, E. rewrite Hf; [reflexivity|].
      pose proof (core_fields _ _ (Hc x)) as (_ & E2 & _). congruence.
Qed.
Lemma keys_revoke_step tc owner at_ db db' n : ~ foreign (OrgID tc) -> keys_revoke tc owner at_ db = inr (db', n) -> key_step db db'.
Proof.
  intros Hf [= <- _]. apply map_keys_step; intros k; [| | |intros Hk]; destruct (_ && _) eqn:E; try reflexivity.
  destruct Hf. apply andb_true_iff in E as [E _]. apply andb_true_iff in E as [E _]. apply N.eqb_eq in E. congruence.
Qed.
Lemma key_touch_step tc id at_ db db' n : ~ foreign (OrgID tc) -> keys_wf db -> key_touch tc id at_ db = inr (db', n) -> key_step db db'.
Proof.
  intros Hf Hw. unfold key_touch. destruct (db_apikeys db !! id) as [k|] eqn:E; [|intros [= <- _]; reflexivity].
  destruct (N.eqb_spec (ak_OrgID k) (OrgID tc)) as [Eo|]; intros [= <- _]; [|reflexivity].
  destruct (proj1 Hw _ _ E) as [_ (A & B & _)].
  apply (put_key_step _ _ k); [exact E | reflexivity | congruence | exact A | exact B].
Qed.
End Rows.

(** ** The operations *)

(** The gate and the project list write nothing. *)
Class KeyMembersLaws `{Env, !KeyMembers} := {
  RequireManager_read cx o u : read_only (RequireManager_ cx o u);
  RequireMember_read cx o u : read_only (RequireMember_ cx o u)
}.
Class KeyProjectsLaws `{Env, !KeyProjects} := ProjectIDs_read cx o : read_only (ProjectIDs cx o).
(** The ids drawn for keys are no other key's, and no other session makes a key under one. *)
Definition fresh_keys `{Env} : Prop :=
  (forall n db, db_apikeys db !! env_uuid n db = None)
  /\ forall n m db db', db_apikeys db !! env_uuid m db' = None -> db_apikeys (env_other n db) !! env_uuid m db' = None.

Section Operations.
Context `{Env, SecretBytes, !KeyMembers, !KeyMembersLaws, !KeyProjects, !KeyProjectsLaws}.
Context (foreign : uuid -> Prop).
Notation R := (key_step foreign).
Hypothesis rely : forall n db, R db (env_other n db).
Hypothesis fresh : fresh_keys.

Definition inside (cx : Ctx) : Prop := forall tc, From_ cx = inr tc -> ~ foreign (OrgID tc).

Lemma keys_wf_stable : stable R keys_wf.
Proof. intros db db' Hs Hw. apply (Hs Hw). Qed.
Lemma rg_keys {E A} (m : ST World E A) Q : rg R keys_wf m Q -> preserves (on_db R) m.
Proof. intros Hm w Hw. exact (proj1 (Hm w Hw) Hw). Qed.
Lemma rg_any {E A} (P : DB -> Prop) (m : ST World E A) : preserves (on_db R) m -> rg R P m (fun _ _ => True).
Proof. intros Hm w _. split; [apply Hm | auto]. Qed.

Lemma rg_key_save cx tc k (P : DB -> Prop) : From_ cx = inr tc -> inside cx ->
  (forall db, P db -> savable k db) -> (forall db, P db -> db_apikeys db !! ak_ID k = None -> ak_OrgID k = OrgID tc) ->
  rg R P (key_save tc k) (fun _ => stored k).
Proof.
  intros F Hin HP Ho. unfold key_save.
  eapply rg_bind; [exact _ | apply rg_maperr, (rg_exec_post R _ _ (fun n db => n <> 0%nat -> stored k db))|].
  - intros db db' [|n] Hdb E.
    + rewrite (key_upsert_none _ _ _ _ E). split; [reflexivity | congruence].
    + destruct (key_upsert_step foreign tc k db db' n (HP _ Hdb) (Hin _ F) (Ho _ Hdb) E) as [HR Hst]. auto.
  - intros [|n]; [apply rg_err; exact _ | apply rg_ret; [exact _ | auto]].
Qed.
Lemma rg_syncGrants cx tc k : From_ cx = inr tc -> inside cx -> (HasGrant k = true \/ ak_ProjectIDs k = []) ->
  rg R (stored k) (syncGrants tc k) (fun _ _ => True).
Proof.
  intros F Hin Hg. unfold syncGrants.
  eapply rg_bind; [exact _ | apply rg_maperr, (rg_exec_post R _ _ (fun _ => stored k))|].
  - intros db db' n Hst E. assert (HR : R db db') by (eapply grants_prune_step; [exact (Hin _ F) | exact E]).
    split; [exact HR | exact (stored_stable _ _ _ _ HR Hst)].
  - intros n. destruct (Nat.eqb _ _); [apply rg_ret; [exact _ | auto]|].
    eapply rg_bind; [exact _ | apply (rg_same _ _ (stored k)); reflexivity|]. intros now.
    eapply rg_bind; [exact _ | eapply (rg_maperr R), (rg_exec_stmt R) | intros ?; apply rg_ret; [exact _ | auto]].
    intros db db' m Hst. apply grants_insert_step; [exact (Hin _ F) | exact Hst | exact Hg].
Qed.
(** A save of a key that is this one, or of a new one under its id. *)
Lemma rg_key_Save cx k (P : DB -> Prop) : inside cx ->
  (forall n db, P db -> P (env_other n db)) -> (forall db, P db -> savable k db) ->
  (forall tc db, From_ cx = inr tc -> P db -> db_apikeys db !! ak_ID k = None -> ak_OrgID k = OrgID tc) ->
  (HasGrant k = true \/ ak_ProjectIDs k = []) -> rg R P (key_Save cx k) (fun _ _ => True).
Proof.
  intros Hin Hs HP Ho Hg. unfold key_Save. apply rg_write_tx_at; [exact _ | exact rely | exact Hs|]. intros tc F.
  eapply rg_bind; [exact _ | apply (rg_key_save cx); eauto | intros u; apply (rg_syncGrants cx); assumption].
Qed.
Lemma rg_save_stored cx k : inside cx -> (HasGrant k = true \/ ak_ProjectIDs k = []) ->
  rg R (stored k) (key_Save cx k) (fun _ _ => True).
Proof.
  intros Hin Hg. apply rg_key_Save; [exact Hin | | intros db; apply stored_savable | | exact Hg].
  - intros n db. apply (stored_stable foreign), rely.
  - intros tc db F [_ (k0 & Hk & _)] Hn. congruence.
Qed.

Lemma free_gate {A} (m : M A) : read_only m -> preserves (on_db R) m.
Proof. intros Hm. apply Hm; [exact _ | exact rely]. Qed.

(** *** Reading a key *)
Lemma key_of_some db tc id k : keys_wf db -> key_of db tc id = Some k ->
  stored k db /\ ak_ID k = id /\ ak_OrgID k = OrgID tc /\ (HasGrant k = true \/ ak_ProjectIDs k = []).
Proof.
  intros Hw. unfold key_of. destruct (db_apikeys db !! id) as [k0|] eqn:E; [|discriminate].
  destruct (N.eqb_spec (ak_OrgID k0) (OrgID tc)) as [Eo|]; [|discriminate]. intros [= <-].
  destruct (proj1 Hw _ _ E) as [Hi _]. split; [split; [exact Hw|]; exists k0; cbn; rewrite Hi; auto|].
  split; [exact Hi|]. split; [exact Eo|]. change (HasGrant (with_grants db k0)) with (HasGrant k0).
  destruct (HasGrant k0) eqn:Hg; [auto|]. right. cbn. unfold grants_of.
  assert (En : List.filter (fun p : uuid * uuid * Grant => N.eqb (gr_OrgID (snd p)) (ak_OrgID k0) && N.eqb (fst (fst p)) (ak_ID k0)) (map_to_list (db_grants db)) = []).
  { apply filter_none. intros [[kid pid] g] Hin. apply list_elem_of_In, elem_of_map_to_list in Hin. cbn.
    destruct (N.eqb_spec kid (ak_ID k0)) as [->|]; [|apply andb_false_r].
    destruct (proj2 (proj2 Hw) _ _ _ Hin) as (x & p & Hx & _ & Hh & _). rewrite Hi, E in Hx. injection Hx as <-. congruence. }
  rewrite En. reflexivity.
Qed.
Definition loaded (k : APIKey) (db : DB) : Prop := stored k db /\ (HasGrant k = true \/ ak_ProjectIDs k = []).
Lemma loaded_stable k : stable R (loaded k).
Proof. intros db db' Hs [Hst Hg]. split; [exact (stored_stable _ _ _ _ Hs Hst) | exact Hg]. Qed.
Lemma rg_load_key cx tc id : From_ cx = inr tc ->
  rg R keys_wf (key_load cx tc id) (fun k db => loaded k db /\ ak_ID k = id /\ ak_OrgID k = OrgID tc).
Proof.
  intros F. unfold key_load.
  eapply rg_bind; [exact _ | apply rg_try; [exact keys_wf_stable|]|].
  - unfold key_store_ByID. apply rg_read_tx; [exact _ | exact rely | exact keys_wf_stable|]. intros tc' F'.
    rewrite F in F'. injection F' as <-.
    eapply rg_bind; [exact _ | apply (rg_query _ _ _ _ (fun r db => keys_wf db /\ r = key_of db tc id)); auto|].
    intros [k|]; [|apply rg_err; exact _]. apply (rg_ret _ _ _ (fun k db => loaded k db /\ ak_ID k = id /\ ak_OrgID k = OrgID tc)).
    intros db [Hw Hk]. destruct (key_of_some _ _ _ _ Hw (eq_sym Hk)) as (Hst & Hi & Ho & Hg). split; [split; assumption | auto].
  - intros [e|k]; [destruct (IsKeyNotFound e); apply rg_err; exact _|].
    destruct (negb _ || negb _); [apply rg_err; exact _ | apply rg_ret; [exact _ | auto]].
Qed.
Lemma rg_keep {E A} (m : ST World E A) (P : DB -> Prop) : stable R P -> preserves (on_db R) m -> rg R P m (fun _ => P).
Proof. apply rg_preserves. Qed.
Lemma rg_with_tenant {A} cx (P : DB -> Prop) (k : Tenant -> M A) Q :
  (forall tc, From_ cx = inr tc -> rg R P (k tc) Q) -> rg R P (let* tc := from_tenant cx in k tc) Q.
Proof. intros Hk. unfold from_tenant. destruct (From_ cx) as [e|tc]; [apply rg_err; exact _ | apply (Hk tc eq_refl)]. Qed.
Lemma rg_loadForChange cx id :
  rg R keys_wf (loadForChange cx id) (fun r db => loaded (snd r) db /\ ak_ID (snd r) = id /\ From_ cx = inr (fst r)).
Proof.
  unfold loadForChange. apply rg_with_tenant. intros tc F.
  eapply rg_bind; [exact _ | apply (rg_load_key _ _ _ F)|]. intros k.
  assert (Hs : stable R (fun db => loaded k db /\ ak_ID k = id /\ ak_OrgID k = OrgID tc)).
  { intros db db' Hd [Hl Hr]. split; [exact (loaded_stable _ _ _ Hd Hl) | exact Hr]. }
  destruct (negb _); [|destruct (_ || _); [apply rg_err; exact _|]];
    (eapply rg_bind; [exact _ | apply rg_keep; [exact Hs | apply free_gate; first [apply RequireManager_read | apply RequireMember_read]]|];
     intros u; apply rg_ret; [exact _|]; intros db (Hl & Hi & _); auto).
Qed.

(** *** Changing a key *)
Lemma rg_save_changed cx k k' op {A} (x : M A) : inside cx -> core k' = core k -> (HasGrant k = true \/ ak_ProjectIDs k' = []) ->
  preserves (on_db R) x ->
  rg R (loaded k) (let* r := st_try (key_Save cx k') in match r with inl e => unexpected op e | inr _ => x end) (fun _ _ => True).
Proof.
  intros Hin Hc Hg Hx. rewrite <- (core_HasGrant _ _ Hc) in Hg. pose proof (core_fields _ _ Hc) as (Hi & _).
  eapply rg_bind; [exact _ | apply rg_try; [apply loaded_stable|] |].
  - eapply rg_conseq; [apply (rg_save_stored cx k' Hin Hg) | | intros ? ? Ht; exact Ht].
    intros db [[Hw (k0 & Hk & Hc0)] _]. split; [exact Hw|]. exists k0. split; congruence.
  - intros [e|u]; apply rg_any; [apply pres_unexpected; exact _ | exact Hx].
Qed.
Lemma requireOrgProjects_step cx o ids : preserves (on_db R) (requireOrgProjects cx o ids).
Proof. unfold requireOrgProjects. pres_go rely. apply free_gate, ProjectIDs_read. Qed.
Lemma GrantProjects_core k ids k' : key_GrantProjects k ids = inr k' -> core k' = core k /\ HasGrant k = true.
Proof.
  unfold key_GrantProjects, promotable. destruct (HasGrant k); [|discriminate]. cbn [negb]. destruct (ak_RevokedAt k); [discriminate|].
  destruct (ak_AllProjects k); [discriminate|]. destruct (Nat.eqb _ _); [discriminate|]. intros [= <-]. auto.
Qed.
Lemma GrantAll_core k k' : key_GrantAllProjects k = inr k' -> core k' = core k /\ HasGrant k = true.
Proof.
  unfold key_GrantAllProjects, promotable. destruct (HasGrant k); [|discriminate]. cbn [negb]. destruct (ak_RevokedAt k); [discriminate|].
  destruct (ak_AllProjects k); [discriminate|]. intros [= <-]. auto.
Qed.
Lemma promote_step cx id widen : inside cx ->
  (forall tc k, rg R (loaded k) (widen tc k) (fun k' db => loaded k db /\ core k' = core k /\ HasGrant k = true)) ->
  preserves (on_db R) (promote cx id widen).
Proof.
  intros Hin Hw. unfold promote. eapply rg_keys, rg_bind; [exact _ | apply rg_loadForChange|]. intros [tc k].
  eapply rg_bind; [exact _ | eapply rg_conseq; [apply (Hw tc k) | cbn; tauto | intros ? ? Hq; exact Hq] |]. intros k' w (Hl & Hc & Hg).
  exact (rg_save_changed cx k k' "apikey.promote: save" (st_ret k') Hin Hc (or_introl Hg) (preserves_ret _ k') w Hl).
Qed.
Lemma GrantProjects_step cx id ids : inside cx -> preserves (on_db R) (GrantProjects cx id ids).
Proof.
  intros Hin. apply promote_step; [exact Hin|]. intros tc k.
  eapply rg_bind; [exact _ | apply rg_keep; [apply loaded_stable | apply requireOrgProjects_step]|]. intros u.
  unfold widened. destruct (key_GrantProjects k ids) as [e|k'] eqn:E; [apply rg_err; exact _ | apply rg_ret; [exact _|]].
  intros db Hl. split; [exact Hl | exact (GrantProjects_core _ _ _ E)].
Qed.
Lemma GrantAllProjects_step cx id : inside cx -> preserves (on_db R) (GrantAllProjects cx id).
Proof.
  intros Hin. apply promote_step; [exact Hin|]. intros tc k.
  unfold widened. destruct (key_GrantAllProjects k) as [e|k'] eqn:E; [apply rg_err; exact _ | apply rg_ret; [exact _|]].
  intros db Hl. split; [exact Hl | exact (GrantAll_core _ _ E)].
Qed.
Lemma key_Revoke_step cx id : inside cx -> preserves (on_db R) (key_Revoke cx id).
Proof.
  intros Hin. unfold key_Revoke. eapply rg_keys, rg_bind; [exact _ | apply rg_loadForChange|]. intros [tc k]. cbn [fst snd].
  eapply (rg_bind _ _ _ _ (fun k' db => loaded k db /\ core k' = core k /\ ak_ProjectIDs k' = ak_ProjectIDs k)).
  - destruct (ak_RevokedAt k).
    + apply rg_ret; [exact _ | cbn; tauto].
    + eapply rg_bind; [exact _ | eapply rg_conseq; [apply (rg_keep time_Now (loaded k)); [apply loaded_stable | apply pres_time_Now; exact _] | cbn; tauto | intros ? ? Hq; exact Hq]|].
      intros now. apply rg_ret; [exact _ | auto].
  - intros k' w (Hl & Hc & Hp). assert (Hg' : HasGrant k = true \/ ak_ProjectIDs k' = []) by (rewrite Hp; apply Hl).
    exact (rg_save_changed cx k k' "apikey.Revoke: save" (st_ret tt) Hin Hc Hg' (preserves_ret _ tt) w Hl).
Qed.
Lemma RevokePersonal_step cx u at_ : inside cx -> preserves (on_db R) (RevokePersonal cx u at_).
Proof.
  intros Hin. unfold RevokePersonal. apply pres_write_tx; [exact _ | exact rely|]. intros tc F.
  apply preserves_bind; [exact _ | apply preserves_maperr, pres_exec_stmt; [exact _|] | intros; apply preserves_ret, _].
  intros db db' n. apply keys_revoke_step, Hin, F.
Qed.
Lemma masked_step {A} op (m : M A) : preserves (on_db R) m -> preserves (on_db R) (masked op m).
Proof.
  intros Hm. unfold masked. apply preserves_bind; [exact _ | apply preserves_try, Hm|].
  intros [e|a]; [apply pres_unexpected, _ | apply preserves_ret, _].
Qed.
Lemma RevokePersonalOf_step cx o u : inside (WithOrg cx o) -> preserves (on_db R) (RevokePersonalOf cx o u).
Proof.
  intros Hin. unfold RevokePersonalOf. apply preserves_bind; [exact _ | apply pres_time_Now, _|]. intros now.
  apply masked_step, RevokePersonal_step, Hin.
Qed.
Lemma rg_touch cx tc id at_ : From_ cx = inr tc -> inside cx -> rg R keys_wf (exec_stmt (key_touch tc id at_)) (fun _ _ => True).
Proof.
  intros F Hin. apply (rg_exec_stmt R). intros db db' n Hw E. exact (key_touch_step foreign _ _ _ _ _ _ (Hin _ F) Hw E).
Qed.
Lemma TouchLastUsed_step cx id at_ : inside cx -> preserves (on_db R) (TouchLastUsed cx id at_).
Proof.
  intros Hin. apply (rg_keys _ (fun _ _ => True)). unfold TouchLastUsed. apply rg_write_tx_at; [exact _ | exact rely | | ].
  - intros n db. apply keys_wf_stable, rely.
  - intros tc F. eapply rg_bind; [exact _ | eapply (rg_maperr R), (rg_touch cx); assumption|].
    intros n. destruct (Nat.eqb n 0); [apply rg_err; exact _ | apply rg_ret; [exact _ | auto]].
Qed.

(** *** Minting *)
(** A key drawn and not saved yet: no row has its id, and none will get it. *)
Definition unborn (id : uuid) (db : DB) : Prop :=
  keys_wf db /\ (exists n db0, id = env_uuid n db0) /\ db_apikeys db !! id = None.
Definition lifetime_given (exp : option Z) : Prop :=
  exists e n, exp = Some e /\ (env_now n < e <= env_now n + MaxLifetime)%Z.
Definition minted (o : uuid) (k : APIKey) (db : DB) : Prop :=
  unborn (ak_ID k) db /\ mintable_key k /\ ak_OrgID k = o /\ (HasGrant k = true \/ ak_ProjectIDs k = []).
Lemma minted_others o k n db : minted o k db -> minted o k (env_other n db).
Proof.
  intros [(Hw & (m & db0 & E) & Hn) Hk]. split; [|exact Hk]. split; [exact (keys_wf_stable _ _ (rely n db) Hw)|].
  split; [eauto|]. rewrite E in *. apply (proj2 fresh), Hn.
Qed.
Lemma rg_mintGate cx kind scopes exp :
  rg R keys_wf (mintGate cx kind scopes exp) (fun tc db => keys_wf db /\ From_ cx = inr tc /\ lifetime_given exp).
Proof.
  unfold mintGate. apply rg_with_tenant. intros tc F.
  eapply rg_bind; [exact _ | apply rg_keep; [exact keys_wf_stable|] |].
  - unfold requireMinter, requireOwner. repeat match goal with |- context [if ?b then _ else _] => destruct b end;
      apply free_gate; first [apply RequireManager_read | apply RequireMember_read].
  - intros u. eapply rg_bind; [exact _ | apply rg_keep; [exact keys_wf_stable|]; unfold refuse_some; pres_go rely|]. intros u'.
    intros w Hw. unfold st_bind at 1. cbn [time_Now tick st_bind st_ret fst snd]. unfold time_Now, st_bind at 1, tick, st_ret.
    destruct (validateLifetime exp (env_now (W_step w))) as [e|] eqn:Ev; cbn [refuse_some].
    + split; [cbn; reflexivity | discriminate].
    + split; [cbn; reflexivity|]. intros a [= <-]. split; [exact Hw|]. split; [exact F|].
      unfold validateLifetime in Ev. destruct exp as [e|]; [|discriminate]. exists e, (W_step w). split; [reflexivity|].
      destruct (Z.ltb_spec (env_now (W_step w)) e); [cbn [negb] in Ev|discriminate].
      destruct (Z.ltb_spec MaxLifetime (e - env_now (W_step w))); [discriminate | lia].
Qed.
Lemma unknown_scope_none scopes : unknown_scope scopes = None -> Forall (fun s => ValidScope s = true) scopes.
Proof.
  unfold unknown_scope. destruct (List.find _ _) eqn:E; [discriminate|]. intros _. apply Forall_forall. intros x Hx%list_elem_of_In.
  apply negb_false_iff, (List.find_none _ _ E x Hx).
Qed.
Lemma rg_mint sc o name scopes exp now : lifetime_given exp ->
  rg R keys_wf (mint sc o name scopes exp now) (fun r db => unborn (ak_ID (fst r)) db /\ mintable_key (fst r) /\ ak_OrgID (fst r) = o).
Proof.
  intros He. unfold mint. destruct (unknown_scope scopes) as [e|] eqn:Eu.
  { intros w Hw. split; [cbn; reflexivity | discriminate]. }
  cbn [refuse_some]. eapply rg_bind; [exact _ | apply (rg_same R _ keys_wf); reflexivity|]. intros u.
  eapply rg_bind; [exact _ | apply (rg_same R _ keys_wf); reflexivity|]. intros n.
  eapply rg_bind; [exact _ | apply (rg_same R _ keys_wf); intros w; destruct (rand_bytes n); reflexivity|]. intros random.
  eapply (rg_bind R _ _ _ (fun id db => unborn id db)).
  - intros w Hw. split; [cbn; reflexivity|]. intros id [= <-]. split; [exact Hw|]. split; [eauto | apply (proj1 fresh)].
  - intros id. apply rg_ret; [exact _|]. intros db Hu. cbn. split; [exact Hu|]. split; [|reflexivity].
    destruct He as (e & m & -> & Hm). split; [exists e, m; auto | apply unknown_scope_none, Eu].
Qed.
Lemma rg_saveMinted cx tc r : From_ cx = inr tc -> inside cx -> rg R (minted (OrgID tc) (fst r)) (saveMinted cx tc r) (fun _ _ => True).
Proof.
  intros F Hin. unfold saveMinted. set (k := set_createdBy (UserID tc) (fst r)).
  eapply (rg_bind R _ _ _ (fun _ _ => True)); [|intros [e|[]]; [apply rg_err; exact _ | apply rg_ret; [exact _ | auto]]].
  intros w Hm. pose proof Hm as (_ & _ & _ & Hg).
  assert (Hs : rg R (minted (OrgID tc) k) (key_Save cx k) (fun _ _ => True)).
  { apply rg_key_Save; [exact Hin | intros n db; apply minted_others | | | exact Hg].
    - intros db [(Hw & _ & Hn) (Hk & _)]. split; [exact Hw|]. rewrite Hn. exact Hk.
    - intros tc' db F' (_ & _ & Hok & _) _. rewrite F in F'. injection F' as <-. exact Hok. }
  destruct (Hs w Hm) as [HR _]. unfold st_try. destruct (key_Save cx k w) as [[a|e|p] w']; (split; [exact HR | auto]).
Qed.
Lemma rg_scheme_Mint sc o p name scopes res exp now : lifetime_given exp ->
  rg R keys_wf (scheme_Mint sc o p name scopes res exp now) (fun r => minted o (fst r)).
Proof.
  intros He. unfold scheme_Mint. destruct (org_scope scopes); [intros w Hw; split; [cbn; reflexivity | discriminate]|].
  cbn [refuse_some]. eapply rg_bind; [exact _ | apply (rg_same R _ keys_wf); reflexivity|]. intros u.
  eapply rg_bind; [exact _ | apply rg_mint, He|]. intros [k t]. apply rg_ret; [exact _|]. intros db (Hu & Hm & Ho).
  split; [exact Hu|]. split; [exact Hm|]. split; [exact Ho | right; reflexivity].
Qed.
Lemma rg_scheme_MintOrg sc o name scopes g exp now : lifetime_given exp ->
  rg R keys_wf (scheme_MintOrg sc o name scopes g exp now) (fun r => minted o (fst r)).
Proof.
  intros He. unfold scheme_MintOrg. destruct (grant_validate g); [intros w Hw; split; [cbn; reflexivity | discriminate]|].
  cbn [refuse_some]. eapply rg_bind; [exact _ | apply (rg_same R _ keys_wf); reflexivity|]. intros u.
  eapply rg_bind; [exact _ | apply rg_mint, He|]. intros [k t]. apply rg_ret; [exact _|]. intros db (Hu & Hm & Ho).
  split; [exact Hu|]. split; [exact Hm|]. split; [exact Ho | left; reflexivity].
Qed.
Lemma rg_scheme_MintPersonal sc o u name scopes g exp now : lifetime_given exp ->
  rg R keys_wf (scheme_MintPersonal sc o u name scopes g exp now) (fun r => minted o (fst r)).
Proof.
  intros He. unfold scheme_MintPersonal. eapply rg_bind; [exact _ | apply rg_scheme_MintOrg, He|]. intros [k t].
  apply rg_ret; [exact _|]. intros db (Hu & Hm & Ho & _).
  split; [exact Hu|]. split; [exact Hm|]. split; [exact Ho | left; reflexivity].
Qed.
(** A gated mint, given what it does between its gate and its save. *)
Lemma gated_mint cx kind scopes exp (x : Tenant -> M (APIKey * string)) : inside cx ->
  (forall tc, lifetime_given exp -> rg R keys_wf (x tc) (fun r => minted (OrgID tc) (fst r))) ->
  preserves (on_db R) (let* tc := mintGate cx kind scopes exp in let* r := x tc in saveMinted cx tc r).
Proof.
  intros Hin Hx. apply (rg_keys _ (fun _ _ => True)). eapply rg_bind; [exact _ | apply rg_mintGate|]. intros tc w (Hw & F & He).
  exact (rg_bind R (x tc) _ _ _ (fun _ _ => True) (Hx tc He) (fun r => rg_saveMinted cx tc r F Hin) w Hw).
Qed.
Lemma rg_now_then {A} (x : Z -> M A) Q : (forall t, rg R keys_wf (x t) Q) -> rg R keys_wf (let* now := time_Now in x now) Q.
Proof. intros Hx. eapply rg_bind; [exact _ | apply (rg_same R _ keys_wf); reflexivity | exact Hx]. Qed.
Lemma rg_projects_then {A} cx o ids (x : M A) Q : rg R keys_wf x Q -> rg R keys_wf (requireOrgProjects cx o ids ;;; x) Q.
Proof. intros Hx. eapply rg_bind; [exact _ | apply rg_keep; [exact keys_wf_stable | apply requireOrgProjects_step] | intros u; exact Hx]. Qed.
Lemma bind_assoc {E A B C} (m : ST World E A) (f : A -> ST World E B) (g : B -> ST World E C) w :
  (let* b := (let* a := m in f a) in g b) w = (let* a := m in let* b := f a in g b) w.
Proof. unfold st_bind. destruct (m w) as [[a|e|p] w']; reflexivity. Qed.
Lemma bind_cong {E A B} (m : ST World E A) (f g : A -> ST World E B) : (forall a w, f a w = g a w) -> forall w, st_bind m f w = st_bind m g w.
Proof. intros Hf w. unfold st_bind. destruct (m w) as [[a|e|p] w']; [apply Hf | reflexivity ..]. Qed.
Lemma preserves_ext {E A} (m m' : ST World E A) : (forall w, m w = m' w) -> preserves (on_db R) m' -> preserves (on_db R) m.
Proof. intros E' Hm w. rewrite E'. apply Hm. Qed.
Lemma Mint_step sc cx name scopes res exp : inside cx -> preserves (on_db R) (key_Mint sc cx name scopes res exp).
Proof.
  intros Hin. eapply preserves_ext; [|apply (gated_mint cx KindProject scopes exp
    (fun tc => let* now := time_Now in scheme_Mint sc (OrgID tc) (ProjectID tc) name scopes res exp now) Hin)].
  - intros w. unfold key_Mint. apply bind_cong. intros tc w'. symmetry. apply bind_assoc.
  - intros tc He. apply rg_now_then. intros t. apply rg_scheme_Mint, He.
Qed.
Lemma MintOrg_step sc cx name scopes g exp : inside cx -> preserves (on_db R) (key_MintOrg sc cx name scopes g exp).
Proof.
  intros Hin. eapply preserves_ext; [|apply (gated_mint cx KindOrg scopes exp (fun tc => requireOrgProjects cx (OrgID tc) (pg_ProjectIDs g) ;;;
    let* now := time_Now in scheme_MintOrg sc (OrgID tc) name scopes g exp now) Hin)].
  - intros w. unfold key_MintOrg. apply bind_cong. intros tc w'. rewrite bind_assoc. apply bind_cong. intros u w2. symmetry. apply bind_assoc.
  - intros tc He. apply rg_projects_then, rg_now_then. intros t. apply rg_scheme_MintOrg, He.
Qed.
Lemma MintPersonal_step sc cx name scopes g exp : inside cx -> preserves (on_db R) (key_MintPersonal sc cx name scopes g exp).
Proof.
  intros Hin. eapply preserves_ext; [|apply (gated_mint cx KindPersonal scopes exp (fun tc => requireOrgProjects cx (OrgID tc) (pg_ProjectIDs g) ;;;
    let* now := time_Now in scheme_MintPersonal sc (OrgID tc) (UserID tc) name scopes g exp now) Hin)].
  - intros w. unfold key_MintPersonal. apply bind_cong. intros tc w'. rewrite bind_assoc. apply bind_cong. intros u w2. symmetry. apply bind_assoc.
  - intros tc He. apply rg_projects_then, rg_now_then. intros t. apply rg_scheme_MintPersonal, He.
Qed.

(** *** Reading, authenticating, the usage worker *)
Lemma list_step {A} op pkg cx (q : Tenant -> DB -> A) o :
  preserves (on_db R) (masked op (read_tx pkg cx (fun tc => query o (q tc)))).
Proof. apply masked_step, pres_read_tx; [exact _ | exact rely|]. intros tc. apply pres_query. exact _. Qed.
Lemma flush_step cx l : Forall (fun e => ~ foreign (OrgID (us_tc (snd e)))) l -> preserves (on_db R) (flush_from l cx).
Proof.
  induction l as [|[id e] l IH]; intros Hl; [apply preserves_ret; exact _|]. apply Forall_cons in Hl as [He Hl].
  cbn [flush_from]. apply preserves_bind; [exact _ | apply preserves_try, TouchLastUsed_step | intros; exact (IH Hl)].
  intros tc F. cbn [fst snd] in He. assert (tc = us_tc e) by (revert F; unfold From_; cbn; destruct (N.eqb _ _); congruence).
  subst tc. exact He.
Qed.
Lemma BySecretHash_step cx h : preserves (on_db R) (BySecretHash cx h).
Proof.
  unfold BySecretHash, on_conn. apply preserves_bind; [exact _ | | intros [k|]; [apply preserves_ret | apply preserves_err]; exact _].
  destruct (cx_tx cx); [apply pres_query; exact _|].
  apply preserves_bind; [exact _ | apply pres_others; exact rely | intros; apply pres_query; exact _].
Qed.
Lemma requireOwner_step cx o u scopes : preserves (on_db R) (requireOwner cx o u scopes).
Proof. unfold requireOwner. destruct (hasOrgLevelScope _); apply free_gate; [apply RequireManager_read | apply RequireMember_read]. Qed.
Lemma Authenticate_step sc cx raw p : preserves (on_db R) (Authenticate sc cx raw p).
Proof.
  unfold Authenticate. apply preserves_bind; [exact _ | | intros [k q]; apply preserves_ret; exact _].
  unfold resolve. destruct (negb _); [apply preserves_err; exact _|].
  apply preserves_bind; [exact _ | apply preserves_try, BySecretHash_step|]. intros [e|k].
  { destruct (IsKeyNotFound e); apply preserves_err; exact _. }
  apply preserves_bind; [exact _ | apply pres_time_Now; exact _|]. intros now.
  destruct (negb _); [apply preserves_err; exact _|].
  apply preserves_bind; [exact _ | apply preserves_maperr | intros u; pres_go rely].
  unfold requireLiveOwner. destruct (negb _); [apply preserves_ret; exact _|].
  destruct (N.eqb _ _); [apply preserves_err; exact _ | apply requireOwner_step].
Qed.
Lemma authorize_step reaches scope o p r : preserves (on_db R) (authorize_with reaches scope o p r).
Proof. unfold authorize_with. destruct (negb _); [|destruct (_ || _)]; first [apply preserves_err; exact _ | apply preserves_ret; exact _]. Qed.
End Operations.

(** ** With the organisations as the gate, and the hook on removals *)
Section Wired.
Context `{Env}.

Lemma on_pool_read {A} op (q : DB -> A) : read_only (on_pool (query op q)).
Proof. intros R HR rely. apply preserves_bind; [exact _ | apply pres_others; exact rely | intros; apply pres_query; exact _]. Qed.
Lemma store_MembershipOf_read o u : read_only (store_MembershipOf o u).
Proof. unfold store_MembershipOf. apply read_only_bind; [apply on_pool_read | intros r; ro]. Qed.
Lemma MembershipOf_read o u : read_only (MembershipOf o u).
Proof. unfold MembershipOf, member_or, unexpected. apply read_only_bind; [apply read_only_try, store_MembershipOf_read | intros r; ro]. Qed.
Lemma tenant_read cx : read_only (from_tenant cx).
Proof. unfold from_tenant. ro. Qed.
#[export] Instance orgMembers_laws : KeyMembersLaws.
Proof.
  split; intros cx o u; cbn [RequireManager_ RequireMember_ orgMembers].
  - unfold org_RequireManager, IsManager. apply read_only_bind; [|intros b; ro]. destruct (N.eqb _ _); [ro|].
    apply read_only_bind; [apply read_only_try, MembershipOf_read | intros r; ro].
  - unfold org_RequireMember. destruct (N.eqb _ _); [ro|]. apply read_only_bind; [apply read_only_try, MembershipOf_read | intros r; ro].
Qed.
#[export] Instance orgProjectIDs_laws : KeyProjectsLaws.
Proof.
  intros cx o. unfold ProjectIDs, orgProjectIDs, project_List, project_store_List, unexpected. apply read_only_bind; [|intros l; ro].
  apply read_only_bind; [apply tenant_read | intros tc]. apply read_only_bind; [|intros r; ro].
  apply read_only_try, read_only_bind; [apply tenant_read | intros tc'; apply on_pool_read].
Qed.
End Wired.

Section Directory.
Context `{Env, SlugDraws, OrgCaps} (foreign : uuid -> Prop).
Notation R := (key_step foreign).
Hypothesis rely : forall n db, R db (env_other n db).

Definition tables_wf (db : DB) : Prop := keys_wf db /\ orgs_wf db.
Lemma tables_stable : stable R tables_wf.
Proof. intros db db' Hs [Hw Ho]. destruct (Hs Hw) as (Hw' & _ & _ & Hd). split; [exact Hw' | exact (Hd Ho)]. Qed.
(** A statement of the directory leaves keys and grants, and keeps the directory. *)
Lemma directory_step db db' : tables_wf db -> db_apikeys db' = db_apikeys db -> db_grants db' = db_grants db ->
  (forall id p, db_project_rows db !! id = Some p -> exists p', db_project_rows db' !! id = Some p' /\ pj_OrgID p' = pj_OrgID p) ->
  orgs_step db db' -> R db db'.
Proof. intros _ Ek Eg Hp Ho. apply key_step_free; [exact Ek | exact Eg | split; assumption]. Qed.
Lemma org_upsert_frame o db db' n : org_upsert o db = inr (db', n) ->
  db_apikeys db' = db_apikeys db /\ db_grants db' = db_grants db /\ db_project_rows db' = db_project_rows db.
Proof.
  unfold org_upsert. destruct (other_org (fun x => _) _ _); [discriminate|]. destruct (og_System o && _); [discriminate|].
  destruct (bool_decide _); [|discriminate]. intros [= <- _]. auto.
Qed.
Lemma member_upsert_frame m db db' n : member_upsert m db = inr (db', n) ->
  db_apikeys db' = db_apikeys db /\ db_grants db' = db_grants db /\ db_project_rows db' = db_project_rows db.
Proof. unfold member_upsert. destruct (negb _); [discriminate|]. destruct (_ && _); [|discriminate]. intros [= <- _]. auto. Qed.
Lemma member_delete_frame o u db db' n : member_delete o u db = inr (db', n) ->
  db_apikeys db' = db_apikeys db /\ db_grants db' = db_grants db /\ db_project_rows db' = db_project_rows db.
Proof. unfold member_delete. destruct (db_members db !! _); intros [= <- _]; auto. Qed.
Lemma project_upsert_frame tc p db db' n : project_upsert tc p db = inr (db', n) ->
  db_apikeys db' = db_apikeys db /\ db_grants db' = db_grants db
  /\ (forall id x, db_project_rows db !! id = Some x -> exists x', db_project_rows db' !! id = Some x' /\ pj_OrgID x' = pj_OrgID x).
Proof.
  unfold project_upsert. destruct (db_project_rows db !! pj_ID p) as [old|] eqn:E.
  - destruct (negb _); [intros [= <- _]; repeat split; eauto|]. destruct (pj_System p && _); [discriminate|]. intros [= <- _].
    repeat split. intros id x Hx. cbn. destruct (decide (id = pj_ID p)) as [->|Hne].
    + rewrite lookup_insert_eq. rewrite E in Hx. injection Hx as <-. eauto.
    + rewrite lookup_insert_ne by congruence. eauto.
  - destruct (other_project (fun x => _) _ _ _); [discriminate|]. destruct (pj_System p && _); [discriminate|].
    destruct (bool_decide (pj_OrgID p ∈ db_orgs db) && _); [|discriminate]. intros [= <- _]. repeat split. intros id x Hx. cbn.
    rewrite lookup_insert_ne by congruence. eauto.
Qed.
Lemma tables_org db id o : tables_wf db -> db_org_rows db !! id = Some o -> org_ok o.
Proof. intros (_ & (T & _) & _) Ho. apply (T _ _ Ho). Qed.
Lemma tables_project db id p : tables_wf db -> db_project_rows db !! id = Some p -> project_ok p.
Proof. intros (_ & _ & _ & T & _) Hp. apply (T _ _ Hp). Qed.
Lemma same_projects db db' : db_project_rows db' = db_project_rows db ->
  forall id p, db_project_rows db !! id = Some p -> exists p', db_project_rows db' !! id = Some p' /\ pj_OrgID p' = pj_OrgID p.
Proof. intros E id p Hp. rewrite E. eauto. Qed.
Lemma org_stmt o db db' n : tables_wf db -> org_ok o -> org_upsert o db = inr (db', n) -> R db db'.
Proof.
  intros Hw Ho E. destruct (org_upsert_frame _ _ _ _ E) as (E1 & E2 & E3).
  apply directory_step; [exact Hw | exact E1 | exact E2 | apply same_projects, E3 | exact (org_upsert_step _ _ _ _ Ho E)].
Qed.
Lemma member_stmt m db db' n : tables_wf db -> member_upsert m db = inr (db', n) -> R db db'.
Proof.
  intros Hw E. destruct (member_upsert_frame _ _ _ _ E) as (E1 & E2 & E3).
  apply directory_step; [exact Hw | exact E1 | exact E2 | apply same_projects, E3 | exact (member_upsert_step _ _ _ _ E)].
Qed.
Lemma removal_stmt o u db db' n : tables_wf db -> member_delete o u db = inr (db', n) -> R db db'.
Proof.
  intros Hw E. destruct (member_delete_frame _ _ _ _ _ E) as (E1 & E2 & E3).
  apply directory_step; [exact Hw | exact E1 | exact E2 | apply same_projects, E3 | exact (member_delete_step _ _ _ _ _ E)].
Qed.
Lemma project_stmt tc p db db' n : tables_wf db -> project_ok p -> project_upsert tc p db = inr (db', n) -> R db db'.
Proof.
  intros Hw Hp E. destruct (project_upsert_frame _ _ _ _ _ E) as (E1 & E2 & E3).
  apply directory_step; [exact Hw | exact E1 | exact E2 | exact E3 | exact (project_upsert_step _ _ _ _ _ Hp E)].
Qed.
Definition hookable (_ : Ctx) (o : uuid) : Prop := ~ foreign o.
Lemma inside_WithOrg cx o : ~ foreign o -> inside foreign (WithOrg cx o).
Proof. intros Ho tc. unfold From_, WithOrg, Into. cbn. destruct (N.eqb o uuid_Nil); intros [= <-]. exact Ho. Qed.
Lemma hooks_ok : forall fn, In fn onRemoved -> forall cx o u, hookable cx o -> rg R tables_wf (fn cx o u) (fun _ _ => True).
Proof.
  intros fn [<-|[]] cx o u Ho w _. split; [|auto].
  apply (RevokePersonalOf_step foreign rely), inside_WithOrg, Ho.
Qed.
Lemma walked {A} (Q : A -> Prop) (m : M A) w : tables_wf (W_db w) -> gives R tables_wf Q m -> R (W_db w) (W_db (snd (m w))).
Proof. intros Hw Hm. apply (Hm w Hw). Qed.
End Directory.
(** Every hypothesis of the walk. *)
Ltac walk :=
  first [ assumption | exact (key_step_pre _) | exact (tables_stable _) | exact tables_org | exact tables_project | exact (org_stmt _) | exact (member_stmt _)
        | exact (removal_stmt _) | exact (project_stmt _) | (apply hooks_ok; assumption) | exact NewOrg_ok | exact rename_ok | exact Project_New_ok
        | exact project_rename_ok | (intros ? ?; assumption) ].

(** ** Sessions *)
Inductive AccessOp :=
| OpOrgBootstrap (slug name : string) (owner : uuid)
| OpOrgCreate (slug name : string) (owner : uuid)
| OpOrgRename (id : uuid) (name : string)
| OpAddMember (o u : uuid) (r : Role)
| OpRemoveMember (o u : uuid)
| OpProjectCreate (o : uuid) (slug name : string)
| OpProjectBootstrap (o : uuid) (slug name : string)
| OpProjectRename (id : uuid) (name : string)
| OpMint (name : string) (scopes : list string) (resources : list uuid) (expiry : option Z)
| OpMintOrg (name : string) (scopes : list string) (grant : ProjectGrant) (expiry : option Z)
| OpMintPersonal (name : string) (scopes : list string) (grant : ProjectGrant) (expiry : option Z)
| OpGrantProjects (id : uuid) (ids : list uuid)
| OpGrantAll (id : uuid)
| OpKeyRevoke (id : uuid)
| OpRevokePersonalOf (o u : uuid)
| OpAuthenticate (raw : string) (p : Pending)
| OpFlush (p : Pending).

Section Sessions.
Context `{Env, SlugDraws, OrgCaps, SecretBytes}.

Definition run_access_op (sc : Scheme) (cx : Ctx) (op : AccessOp) (w : World) : World :=
  match op with
  | OpOrgBootstrap slug name u => snd (BootstrapSingleton cx slug name u w)
  | OpOrgCreate slug name u => snd (org_Create slug name u w)
  | OpOrgRename id name => snd (org_Rename id name w)
  | OpAddMember o u r => snd (AddMember o u r w)
  | OpRemoveMember o u => snd (RemoveMember cx o u w)
  | OpProjectCreate o slug name => snd (project_Create cx o slug name w)
  | OpProjectBootstrap o slug name => snd (BootstrapSystem cx o slug name w)
  | OpProjectRename id name => snd (project_Rename cx id name w)
  | OpMint name scopes res exp => snd (key_Mint sc cx name scopes res exp w)
  | OpMintOrg name scopes g exp => snd (key_MintOrg sc cx name scopes g exp w)
  | OpMintPersonal name scopes g exp => snd (key_MintPersonal sc cx name scopes g exp w)
  | OpGrantProjects id ids => snd (GrantProjects cx id ids w)
  | OpGrantAll id => snd (GrantAllProjects cx id w)
  | OpKeyRevoke id => snd (key_Revoke cx id w)
  | OpRevokePersonalOf o u => snd (RevokePersonalOf cx o u w)
  | OpAuthenticate raw p => snd (Authenticate sc cx raw p w)
  | OpFlush p => snd (usage_flush cx p w)
  end.
Definition access_session (sc : Scheme) (ops : list (Ctx * AccessOp)) (w : World) : World :=
  fold_left (fun w c => run_access_op sc (fst c) (snd c) w) ops w.

(** The operation works in organisations that are not [foreign]. *)
Definition access_within (foreign : uuid -> Prop) (c : Ctx * AccessOp) : Prop :=
  match snd c with
  | OpRemoveMember o _ | OpRevokePersonalOf o _ => ~ foreign o
  | OpFlush p => Forall (fun e => ~ foreign (OrgID (us_tc (snd e)))) (map_to_list p)
  | OpOrgBootstrap _ _ _ | OpOrgCreate _ _ _ | OpOrgRename _ _ | OpAddMember _ _ _ | OpProjectCreate _ _ _
  | OpProjectBootstrap _ _ _ | OpProjectRename _ _ | OpAuthenticate _ _ => True
  | _ => inside foreign (fst c)
  end.

Context (foreign : uuid -> Prop).
Hypothesis rely : forall n db, key_step foreign db (env_other n db).
Hypothesis fresh : fresh_keys.

Lemma access_op_step sc cx op w : access_within foreign (cx, op) -> tables_wf (W_db w) ->
  key_step foreign (W_db w) (W_db (run_access_op sc cx op w)).
Proof.
  intros Hin Hw. destruct op; cbn [run_access_op access_within fst snd] in *.
  - eapply walked; [exact Hw|]. eapply BootstrapSingleton_gives; walk.
  - eapply walked; [exact Hw|]. eapply org_Create_gives; walk.
  - eapply walked; [exact Hw|]. eapply org_Rename_gives; walk.
  - eapply walked; [exact Hw|]. eapply AddMember_gives; walk.
  - eapply walked; [exact Hw|]. eapply (RemoveMember_gives (key_step foreign)) with (hookable := hookable foreign); first [exact Hin | walk].
  - eapply walked; [exact Hw|]. eapply project_Create_gives; walk.
  - eapply walked; [exact Hw|]. eapply BootstrapSystem_gives; walk.
  - eapply walked; [exact Hw|]. eapply project_Rename_gives; walk.
  - apply (Mint_step foreign rely fresh); exact Hin.
  - apply (MintOrg_step foreign rely fresh); exact Hin.
  - apply (MintPersonal_step foreign rely fresh); exact Hin.
  - apply (GrantProjects_step foreign rely); exact Hin.
  - apply (GrantAllProjects_step foreign rely); exact Hin.
  - apply (key_Revoke_step foreign rely); exact Hin.
  - apply (RevokePersonalOf_step foreign rely), inside_WithOrg, Hin.
  - apply (Authenticate_step foreign rely).
  - apply (preserves_bind (on_db (key_step foreign))); [apply (flush_step foreign rely), Hin | intros; apply preserves_ret; exact _].
Qed.
Lemma access_session_step sc ops w : Forall (access_within foreign) ops -> tables_wf (W_db w) ->
  key_step foreign (W_db w) (W_db (access_session sc ops w)).
Proof.
  revert w. induction ops as [|[cx op] ops IH]; intros w Hops Hw; [reflexivity|]. apply Forall_cons in Hops as [Ho Hops].
  pose proof (access_op_step sc cx op w Ho Hw) as HR. cbn [access_session fold_left fst snd].
  etransitivity; [exact HR|]. apply (IH _ Hops), (tables_stable foreign _ _ HR Hw).
Qed.
End Sessions.
