(* ===== verification/ApiKeyProps.v ===== *)
(** * What API keys and their organisations promise

    The theorems of the keys and the organisations: what every session keeps of the
    tables, whom the authenticator admits, that a minted secret authenticates, that a
    removed member's tokens stop, and the races the services leave open. *)
From Stdlib Require Import ZArith NArith Lia String Ascii List.
From stdpp Require Import base gmap list strings.
From S2P Require Import Prelude GoStrings Errors Encoding Tenant Org ApiKey Account World Wp GoJSON OutboxStore OrgService OrgTheory ApiKeyService ApiKeyTheory.
Local Open Scope string_scope.
Local Open Scope Z_scope.

(** ** Calls with no fault and no other session *)
Section Calls.
Context `{Env}.
Hypothesis q : quiet.
Hypothesis nf : faultless.

Lemma wp_pool {A} op (f : DB -> A) db (Q : Outcome Error A -> DB -> Prop) : Q (Ok (f db)) db -> wp (on_pool (query op f)) db Q.
Proof. intros HQ. apply wp_bind, wp_others; [exact q|]. apply wp_query; [exact HQ | intros Hf; destruct (Hf nf)]. Qed.
Lemma wp_pool_exec (stmt : Statement) db (Q : Outcome Error nat -> DB -> Prop) :
  match stmt db with inl (code, msg) => Q (Err (ESqlite code msg)) db | inr (db', n) => Q (Ok n) db' end -> wp (on_pool (exec_stmt stmt)) db Q.
Proof. intros HQ. apply wp_bind, wp_others; [exact q|]. apply wp_exec_stmt; [exact HQ | intros Hf; destruct (Hf nf)]. Qed.
Lemma wp_MembershipOf o u db (Q : Outcome Error Membership -> DB -> Prop) :
  Q (match db_members db !! (o, u) with
     | Some m => Ok m
     | None => Err (EOrg (MembershipMissingError (uuid_String o) (uuid_String u)))
     end) db -> wp (store_MembershipOf o u) db Q.
Proof.
  intros HQ. unfold store_MembershipOf. apply wp_bind, wp_pool. destruct (db_members db !! (o, u)); [apply wp_ret | apply wp_err]; exact HQ.
Qed.
Lemma wp_MembershipOf_service o u db (Q : Outcome Error Membership -> DB -> Prop) :
  Q (match db_members db !! (o, u) with
     | Some m => Ok m
     | None => Err (EOrg (MembershipMissingError (uuid_String o) (uuid_String u)))
     end) db -> wp (MembershipOf o u) db Q.
Proof.
  intros HQ. unfold MembershipOf. apply wp_bind, wp_try, wp_MembershipOf. destruct (db_members db !! (o, u)); [apply wp_ret | apply wp_err]; exact HQ.
Qed.

(** The owner of a personal token is still a member, and a manager when a scope asks for it. *)
Definition member_of (db : DB) (o u : uuid) : bool :=
  negb (N.eqb u uuid_Nil) && match db_members db !! (o, u) with Some _ => true | None => false end.
Definition manager_of (db : DB) (o u : uuid) : bool :=
  negb (N.eqb u uuid_Nil) && match db_members db !! (o, u) with Some m => CanManage (mb_Role m) | None => false end.
Definition owner_live (db : DB) (k : APIKey) : bool :=
  negb (String.eqb (ak_Kind k) KindPersonal)
  || (if hasOrgLevelScope (ak_Scopes k) then manager_of db (ak_OrgID k) (ak_CreatedBy k) else member_of db (ak_OrgID k) (ak_CreatedBy k)).

Lemma wp_RequireManager o u db (Q : Outcome Error unit -> DB -> Prop) :
  Q (if manager_of db o u then Ok tt else Err (EOrg (NotManagerError (uuid_String o) (uuid_String u)))) db -> wp (org_RequireManager o u) db Q.
Proof.
  intros HQ. unfold org_RequireManager, IsManager, manager_of in *. destruct (N.eqb u uuid_Nil); cbn [negb andb] in HQ.
  - apply wp_bind, wp_ret, wp_err, HQ.
  - apply wp_bind, wp_bind, wp_try, wp_MembershipOf_service. destruct (db_members db !! (o, u)) as [m|]; apply wp_ret.
    + destruct (CanManage _); [apply wp_ret | apply wp_err]; exact HQ.
    + apply wp_err, HQ.
Qed.
Lemma wp_RequireMember o u db (Q : Outcome Error unit -> DB -> Prop) :
  Q (if member_of db o u then Ok tt else Err (EOrg (MembershipMissingError (uuid_String o) (uuid_String u)))) db -> wp (org_RequireMember o u) db Q.
Proof.
  intros HQ. unfold org_RequireMember, member_of in *. destruct (N.eqb u uuid_Nil); cbn [negb andb] in HQ; [apply wp_err, HQ|].
  apply wp_bind, wp_try, wp_MembershipOf_service. destruct (db_members db !! (o, u)) as [m|]; [apply wp_ret | apply wp_err]; exact HQ.
Qed.
Lemma wp_requireLiveOwner cx k db (Q : Outcome Error unit -> DB -> Prop) :
  (if owner_live db k then Q (Ok tt) db else forall e, ownerRefusal e = EAuthn UnauthorizedError -> Q (Err e) db) -> wp (requireLiveOwner cx k) db Q.
Proof.
  intros HQ. unfold requireLiveOwner, owner_live in *. destruct (String.eqb (ak_Kind k) KindPersonal); cbn [negb orb] in *; [|apply wp_ret, HQ].
  destruct (N.eqb (ak_CreatedBy k) uuid_Nil) eqn:En.
  - apply wp_err. unfold manager_of, member_of in HQ. rewrite En in HQ. destruct (hasOrgLevelScope _); apply HQ; reflexivity.
  - unfold requireOwner. destruct (hasOrgLevelScope _); [apply wp_RequireManager | apply wp_RequireMember];
      (destruct (_ db (ak_OrgID k) (ak_CreatedBy k)); [exact HQ | apply HQ; reflexivity]).
Qed.

(** The key a credential names, when it may be used at [now]. *)
Definition live_key (sc : Scheme) (raw : string) (now : Z) (db : DB) : option APIKey :=
  if negb (looks_key sc raw) then None else
  match key_by_hash db (sha256 raw) with
  | Some k => if Usable k now && owner_live db k then Some k else None
  | None => None
  end.
Lemma wp_Authenticate sc cx raw p db (Q : Outcome Error (KeyPrincipal * Pending) -> DB -> Prop) :
  (forall n m, Q (match live_key sc raw (env_now n) db with
                  | Some k => Ok (principalFor k, usage_Record p (ak_ID k) (mkTenant (ak_OrgID k) (ak_ProjectID k) uuid_Nil) (env_now m))
                  | None => Err (EAuthn UnauthorizedError)
                  end) db) -> wp (Authenticate sc cx raw p) db Q.
Proof.
  intros HQ. unfold live_key in HQ. unfold Authenticate, resolve. apply wp_bind. destruct (negb (looks_key sc raw)).
  { apply wp_err, (HQ 0%nat 0%nat). }
  apply wp_bind, wp_try. unfold BySecretHash, on_conn. apply wp_bind.
  assert (Hq : forall Q', Q' (Ok (key_by_hash db (sha256 raw))) db ->
    wp (if cx_tx cx then query "apikey.sqlite.query" (fun db => key_by_hash db (sha256 raw))
        else others ;;; query "apikey.sqlite.query" (fun db => key_by_hash db (sha256 raw))) db Q').
  { intros Q' HQ'. destruct (cx_tx cx); [apply wp_query; [exact HQ' | intros Hf; destruct (Hf nf)] | apply wp_pool, HQ']. }
  apply Hq. destruct (key_by_hash db (sha256 raw)) as [k|]; [apply wp_ret | apply wp_err, wp_err, (HQ 0%nat 0%nat)].
  apply wp_bind, wp_time_Now. intros n. destruct (Usable k (env_now n)) eqn:Eu; cbn [negb].
  - apply wp_bind, wp_maperr, wp_requireLiveOwner. destruct (owner_live db k) eqn:Eo.
    + apply wp_bind, wp_time_Now. intros m. apply wp_ret, wp_ret. specialize (HQ n m). rewrite Eu in HQ. exact HQ.
    + intros e ->. specialize (HQ n n). rewrite Eu in HQ. exact HQ.
  - apply wp_err. specialize (HQ n n). rewrite Eu in HQ. exact HQ.
Qed.
End Calls.

(** ** Whom the authenticator admits *)
Section Admission.
Context `{Env}.

(** The stored key [k] gives [raw] access to the resource at [now]: said of the tables. *)
Record grants_access (db : DB) (now : Z) (raw scope : string) (o p r : uuid) (k : APIKey) : Prop := {
  ga_stored : db_apikeys db !! ak_ID k = Some k;
  ga_secret : ak_SecretHash k = sha256 raw;
  ga_unrevoked : forall t, ak_RevokedAt k = Some t -> now < t;
  ga_unexpired : forall t, ak_ExpiresAt k = Some t -> now < t;
  ga_owner : ak_Kind k = KindPersonal -> ak_CreatedBy k <> uuid_Nil /\ exists m, db_members db !! (ak_OrgID k, ak_CreatedBy k) = Some m
               /\ ((exists s, In s (ak_Scopes k) /\ LevelOf s = Some LevelOrg) -> mb_Role m = RoleOwner \/ mb_Role m = RoleAdmin);
  ga_org : o <> uuid_Nil /\ ak_OrgID k = o;
  ga_project : if HasGrant k then ak_AllProjects k = true \/ exists g, db_grants db !! (ak_ID k, p) = Some g else ak_ProjectID k = p;
  ga_scope : In scope (ak_Scopes k);
  ga_resource : ak_ResourceIDs k = [] \/ In r (ak_ResourceIDs k)
}.

Lemma grants_of_In db o kid p : In p (grants_of db o kid) <-> exists g, db_grants db !! (kid, p) = Some g /\ gr_OrgID g = o.
Proof.
  unfold grants_of. rewrite in_map_iff. split.
  - intros ([[a b] g] & <- & Hin). apply In_sort_by, filter_In in Hin as [Hin Hb]. cbn in Hb.
    apply andb_true_iff in Hb as [Ho%N.eqb_eq Hk%N.eqb_eq]. apply list_elem_of_In, elem_of_map_to_list in Hin. subst. cbn. eauto.
  - intros (g & Hg & Ho). exists ((kid, p), g). split; [reflexivity|]. apply In_sort_by, filter_In. split.
    + apply list_elem_of_In, elem_of_map_to_list, Hg.
    + cbn. apply andb_true_iff. split; apply N.eqb_eq; [exact Ho | reflexivity].
Qed.
Lemma key_by_hash_spec db h : keys_wf db -> forall k',
  key_by_hash db h = Some k' <-> exists k, db_apikeys db !! ak_ID k = Some k /\ ak_SecretHash k = h /\ k' = with_grants db k.
Proof.
  intros (W1 & W2 & _) k'. unfold key_by_hash. destruct (List.find _ _) as [x|] eqn:E; cbn [option_map].
  - pose proof (List.find_some _ _ E) as [Hin Hh%String.eqb_eq]. apply rows_In in Hin as [i Hi]. destruct (W1 _ _ Hi) as [Ei _].
    split; [intros [= <-]; exists x; rewrite Ei; auto|]. intros (k & Hk & Hhk & ->).
    assert (i = ak_ID k) as -> by (apply (W2 _ _ _ _ Hi Hk); congruence). rewrite Hi in Hk. congruence.
  - split; [discriminate|]. intros (k & Hk & Hh & _). pose proof (List.find_none _ _ E k (proj2 (rows_In _ _) (ex_intro _ _ Hk))) as Hn.
    cbn beta in Hn. rewrite Hh, String.eqb_refl in Hn. discriminate.
Qed.
Lemma Usable_spec k now : Usable k now = true <->
  (forall t, ak_RevokedAt k = Some t -> now < t) /\ (forall t, ak_ExpiresAt k = Some t -> now < t).
Proof.
  unfold Usable. rewrite andb_true_iff, !negb_true_iff. split.
  - intros [Ha Hb]. split; intros t E; rewrite E in *; [apply negb_false_iff, Z.ltb_lt in Ha | apply negb_false_iff, Z.ltb_lt in Hb]; assumption.
  - intros [Ha Hb]. split; [destruct (ak_RevokedAt k) | destruct (ak_ExpiresAt k)]; try reflexivity; apply negb_false_iff, Z.ltb_lt; auto.
Qed.
Lemma CanManage_spec r : CanManage r = true <-> r = RoleOwner \/ r = RoleAdmin.
Proof. unfold CanManage. rewrite orb_true_iff, !String.eqb_eq. reflexivity. Qed.
Lemma hasOrgLevel_spec scopes : hasOrgLevelScope scopes = true <-> exists s, In s scopes /\ LevelOf s = Some LevelOrg.
Proof.
  unfold hasOrgLevelScope. rewrite existsb_exists. split; intros (s & Hs & Hl); exists s; (split; [exact Hs|]); unfold level_is in *.
  - destruct (LevelOf s) as [l|]; [|discriminate]. apply String.eqb_eq in Hl. congruence.
  - rewrite Hl. reflexivity.
Qed.
Lemma owner_live_spec db k : owner_live db k = true <->
  (ak_Kind k = KindPersonal -> ak_CreatedBy k <> uuid_Nil /\ exists m, db_members db !! (ak_OrgID k, ak_CreatedBy k) = Some m
     /\ ((exists s, In s (ak_Scopes k) /\ LevelOf s = Some LevelOrg) -> mb_Role m = RoleOwner \/ mb_Role m = RoleAdmin)).
Proof.
  unfold owner_live, member_of, manager_of. destruct (String.eqb_spec (ak_Kind k) KindPersonal) as [Ek|Ek]; cbn [negb orb]; [|tauto].
  destruct (N.eqb_spec (ak_CreatedBy k) uuid_Nil) as [En|En]; cbn [negb andb].
  { destruct (hasOrgLevelScope _); split; [discriminate | intros Hx; destruct (Hx Ek); contradiction ..| discriminate | intros Hx; destruct (Hx Ek); contradiction]. }
  destruct (db_members db !! _) as [m|]; [|destruct (hasOrgLevelScope _); split; try discriminate; intros Hx; destruct (Hx Ek) as (_ & ? & ? & _); discriminate].
  destruct (hasOrgLevelScope (ak_Scopes k)) eqn:Es.
  - apply hasOrgLevel_spec in Es. rewrite CanManage_spec.
    split; [intros Hr _; split; [exact En | exists m; auto] | intros Hx; destruct (Hx Ek) as (_ & m' & [= <-] & Hr); auto].
  - split; [|reflexivity]. intros _ _. split; [exact En|]. exists m. split; [reflexivity|]. intros Hx%hasOrgLevel_spec. congruence.
Qed.
Lemma ReachesProject_spec db k o p : keys_wf db -> db_apikeys db !! ak_ID k = Some k ->
  ReachesProject (principalFor (with_grants db k)) o p = true <->
  (o <> uuid_Nil /\ ak_OrgID k = o) /\ (if HasGrant k then ak_AllProjects k = true \/ exists g, db_grants db !! (ak_ID k, p) = Some g else ak_ProjectID k = p).
Proof.
  intros (W1 & _ & W3) Hk. unfold ReachesProject, principalFor, ReachableProjects. cbn [kp_ActiveOrgID kp_Source kp_AllProjects kp_ProjectIDs].
  change (HasGrant (with_grants db k)) with (HasGrant k). cbn [with_grants set_grant set_binding ak_OrgID ak_AllProjects ak_ProjectIDs ak_ProjectID].
  destruct (N.eqb_spec o uuid_Nil) as [|Hn]; cbn [orb]; [split; [discriminate | intros [[? _] _]; contradiction]|].
  destruct (N.eqb_spec o (ak_OrgID k)) as [->|Ho]; cbn [negb]; [|split; [discriminate | intros [[_ ?] _]; congruence]].
  cbn [orb negb]. change (String.eqb SourceAPIKey SourceAPIKey) with true. cbn [negb orb].
  destruct (W1 _ _ Hk) as [_ (_ & Hs & _)]. destruct (HasGrant k) eqn:Hg.
  - destruct (ak_AllProjects k); [split; auto|]. rewrite existsb_exists. split.
    + intros (x & Hx & <-%N.eqb_eq). apply grants_of_In in Hx as (g & Hg' & _). split; [auto | right; eauto].
    + intros [_ [|(g & Hg')]]; [discriminate|]. exists p. split; [|apply N.eqb_refl]. apply grants_of_In. exists g. split; [exact Hg'|].
      destruct (W3 _ _ _ Hg') as (k0 & _ & Hk0 & Eo & _). congruence.
  - unfold kind_shape in Hs. rewrite Hg, andb_false_l, orb_false_r in Hs. apply andb_true_iff in Hs as [_ Ha%negb_true_iff]. rewrite Ha.
    cbn [existsb]. rewrite orb_false_r, N.eqb_eq. split; [intros ->; auto | intros [_ <-]; reflexivity].
Qed.
Lemma ReachesResource_spec q o p r : ReachesResource q o p r = true <-> ReachesProject q o p = true /\ (kp_ResourceIDs q = [] \/ In r (kp_ResourceIDs q)).
Proof.
  unfold ReachesResource. destruct (ReachesProject q o p); cbn [negb]; [|split; [discriminate | intros [? _]; discriminate]].
  rewrite orb_true_iff, Nat.eqb_eq, length_zero_iff_nil, existsb_exists. split.
  - intros [E|(x & Hx & <-%N.eqb_eq)]; auto.
  - intros [_ [E|Hx]]; [auto|]. right. exists r. split; [exact Hx | apply N.eqb_refl].
Qed.
(** A live key is a stored one, in time, whose owner is in place. *)
Lemma live_key_spec sc raw now db : keys_wf db -> forall k',
  live_key sc raw now db = Some k' <->
  looks_key sc raw = true /\ exists k, db_apikeys db !! ak_ID k = Some k /\ ak_SecretHash k = sha256 raw
    /\ Usable k now = true /\ owner_live db k = true /\ k' = with_grants db k.
Proof.
  intros Hw k'. unfold live_key. destruct (looks_key sc raw); cbn [negb]; [|split; [discriminate | intros [? _]; discriminate]].
  pose proof (key_by_hash_spec db (sha256 raw) Hw) as Hs. destruct (key_by_hash db (sha256 raw)) as [k1|].
  - destruct (proj1 (Hs k1) eq_refl) as (k & Hk & Hh & ->).
    change (Usable (with_grants db k) now) with (Usable k now). change (owner_live db (with_grants db k)) with (owner_live db k).
    split.
    + destruct (Usable k now && owner_live db k) eqn:E; [|discriminate]. apply andb_true_iff in E as [Eu Eo]. intros [= <-].
      split; [reflexivity|]. exists k. auto.
    + intros (_ & k2 & Hk2 & Hh2 & Hu & Ho & ->). pose proof (proj2 (Hs (with_grants db k2)) ltac:(eauto)) as E2. injection E2 as E2.
      assert (k2 = k) as -> by (assert (ak_ID k2 = ak_ID k) as Ei by congruence; rewrite Ei, Hk in Hk2; congruence).
      rewrite Hu, Ho. reflexivity.
  - split; [discriminate|]. intros (_ & k & Hk & Hh & _). assert (X : None = Some (with_grants db k)) by (apply Hs; eauto). discriminate X.
Qed.
(** What is asked of the principal of a live key. *)
Definition reaches_all (q : KeyPrincipal) (scope : string) (o p r : uuid) : bool :=
  ReachesProject q o p && existsb (String.eqb scope) (kp_Scopes q) && ReachesResource q o p r.
Lemma grants_access_spec sc raw now db scope o p r k : keys_wf db ->
  (looks_key sc raw = true /\ grants_access db now raw scope o p r k) <->
  (db_apikeys db !! ak_ID k = Some k /\ live_key sc raw now db = Some (with_grants db k)
   /\ reaches_all (principalFor (with_grants db k)) scope o p r = true).
Proof.
  intros Hw. unfold reaches_all. rewrite !andb_true_iff, ReachesResource_spec, existsb_exists.
  change (kp_Scopes (principalFor (with_grants db k))) with (ak_Scopes k). change (kp_ResourceIDs (principalFor (with_grants db k))) with (ak_ResourceIDs k).
  split.
  - intros [Hl [G1 G2 G3 G4 G5 G6 G7 G8 G9]]. split; [exact G1|].
    assert (Hp : ReachesProject (principalFor (with_grants db k)) o p = true) by (apply ReachesProject_spec; auto).
    split; [|repeat split; [exact Hp | exists scope; split; [exact G8 | apply String.eqb_refl] | exact Hp | exact G9]].
    apply (live_key_spec _ _ _ _ Hw). split; [exact Hl|]. exists k.
    split; [exact G1|]. split; [exact G2|]. split; [apply Usable_spec; auto|]. split; [apply owner_live_spec, G5 | reflexivity].
  - intros (Hk & Hl & [Hp (s & Hs & ->%String.eqb_eq)] & _ & Hr). apply (live_key_spec _ _ _ _ Hw) in Hl as (Hl & k2 & Hk2 & Hh & Hu & Ho & E).
    assert (k2 = k) as ->.
    { assert (ak_ID k = ak_ID k2) as Ei by (change (ak_ID (with_grants db k) = ak_ID (with_grants db k2)); rewrite E; reflexivity).
      rewrite Ei in Hk. congruence. }
    split; [exact Hl|]. apply Usable_spec in Hu as [H1' H2']. apply (ReachesProject_spec _ _ _ _ Hw Hk) in Hp as [P1 P2].
    split; [exact Hk | exact Hh | exact H1' | exact H2' | apply owner_live_spec, Ho | exact P1 | exact P2 | exact Hs | exact Hr].
Qed.

(** The authorizer's answer, against the tables. *)
Definition decided (db : DB) (now : Z) (sc : Scheme) (raw scope : string) (o p r : uuid) (out : Outcome Error (KeyPrincipal * Pending)) : Prop :=
  match out with
  | Ok (q, _) => looks_key sc raw = true /\ exists k, grants_access db now raw scope o p r k /\ q = principalFor (with_grants db k)
  | Err e => (exists a, e = EAuthn a) /\ ~ (looks_key sc raw = true /\ exists k, grants_access db now raw scope o p r k)
  | Panic _ => False
  end.
Lemma wp_authorize sc raw scope o p r now pend db : keys_wf db ->
  forall k', live_key sc raw now db = Some k' ->
  wp (authorize_with (fun q => ReachesResource q o p r) scope o p (principalFor k', pend)) db
    (fun out db' => db' = db /\ decided db now sc raw scope o p r out).
Proof.
  intros Hw k' El. pose proof (proj1 (live_key_spec _ _ _ _ Hw _) El) as (Hl & k & Hk & _ & _ & _ & ->).
  assert (Hspec : forall k2, grants_access db now raw scope o p r k2 -> k2 = k /\ reaches_all (principalFor (with_grants db k)) scope o p r = true).
  { intros k2 G. destruct (proj1 (grants_access_spec sc raw now db scope o p r k2 Hw) (conj Hl G)) as (Hk2 & El2 & Hr).
    rewrite El in El2. injection El2 as E2. assert (k2 = k) as ->; [|auto].
    assert (ak_ID k2 = ak_ID k) as Ei by congruence. rewrite Ei, Hk in Hk2. congruence. }
  assert (Hno : forall e, reaches_all (principalFor (with_grants db k)) scope o p r = false ->
    db = db /\ decided db now sc raw scope o p r (Err (EAuthn e))).
  { intros e Hr. split; [reflexivity|]. split; [eauto|]. intros [_ (k2 & G)]. destruct (Hspec k2 G). congruence. }
  unfold authorize_with. cbn [fst]. unfold reaches_all in Hno. destruct (ReachesProject _ o p) eqn:Ep; cbn [negb]; [|apply wp_err, Hno; reflexivity].
  destruct (existsb _ _) eqn:Es; cbn [negb orb]; [|apply wp_err, Hno; reflexivity].
  destruct (ReachesResource _ o p r) eqn:Er; cbn [negb]; [|apply wp_err, Hno; reflexivity].
  apply wp_ret. split; [reflexivity|]. split; [exact Hl|]. exists k. split; [|reflexivity].
  apply (grants_access_spec sc raw now db scope o p r k Hw). split; [exact Hk|]. split; [exact El|].
  unfold reaches_all. rewrite Ep, Es, Er. reflexivity.
Qed.
End Admission.

(** C27: With no fault and no other session, [Authorize] admits a credential to a resource
    exactly when the tables grant it at the clock reading taken: it has the shape of a
    key, a stored key has its hash, is neither revoked nor expired by then, belongs to
    the organisation asked about, reaches the project (its own, all of them, or one
    granted), carries the scope and is not bound to other resources; and the owner of a
    personal token is a member of the organisation, an owner or admin where a scope is
    an organisation's. What comes back is the key's principal; every refusal is an
    authentication error, and the tables stay as they are. *)
Theorem Authorize_exact `{Env} sc cx raw scope o p r pend w :
  quiet -> faultless -> keys_wf (W_db w) ->
  let run := Authorize sc cx raw scope o p r pend w in
  W_db (snd run) = W_db w /\ exists n, decided (W_db w) (env_now n) sc raw scope o p r (fst run).
Proof.
  intros Hq Hf Hw. cbv zeta.
  refine (wp_bind (Authenticate sc cx raw pend) _ (W_db w) (fun out db' => db' = W_db w /\ exists n, decided (W_db w) (env_now n) sc raw scope o p r out) _ w eq_refl).
  apply (wp_Authenticate Hq Hf). intros n m. destruct (live_key sc raw (env_now n) (W_db w)) as [k'|] eqn:El.
  - eapply wp_conseq; [apply (wp_authorize sc raw scope o p r (env_now n) _ _ Hw k' El)|]. cbn. intros out db' [Hd Ho]. eauto.
  - split; [reflexivity|]. exists n. split; [eauto|]. intros [Hl (k & G)].
    destruct (proj1 (grants_access_spec sc raw (env_now n) _ scope o p r k Hw) (conj Hl G)) as (_ & E & _). congruence.
Qed.

(** ** Concrete data *)
Definition key_now : Z := 1709942400 * 1000000000.
Definition key_fresh (db : DB) : uuid :=
  (100 + N.max (max_id (db_apikeys db)) (N.max (max_id (db_org_rows db)) (max_id (db_project_rows db))))%N.
(** A second between two readings of the clock. *)
Definition key_env : Env := {|
  env_uuid := fun _ db => key_fresh db;
  env_now := fun n => key_now + Z.of_nat n * 1000000000;
  env_fault := fun _ => None;
  env_other := fun _ db => db;
  env_sheet := fun _ s => s
|}.
Definition demo_Draws : SlugDraws := fun n => Z.of_nat n.
Definition demo_Caps : OrgCaps := true.
Definition key_Secrets : SecretBytes := fun n => inr (FormatInt (Z.of_nat n)).
Lemma key_quiet : @quiet key_env.
Proof. intros n db. reflexivity. Qed.
Lemma key_faultless : @faultless key_env.
Proof. intros n. reflexivity. Qed.
Lemma key_fresh_keys : @fresh_keys key_env.
Proof. split; [intros n db; apply max_id_fresh; cbn [key_env env_uuid]; unfold key_fresh; lia | intros n m db db' Hn; exact Hn]. Qed.
Definition demo_access (ops : list (Ctx * AccessOp)) (w : World) : World :=
  @access_session key_env demo_Draws demo_Caps key_Secrets "" ops w.
Lemma single_row {A} (i : uuid) (a : A) j b : ({[i := a]} : gmap uuid A) !! j = Some b -> j = i /\ b = a.
Proof. rewrite lookup_singleton_Some. intros [<- <-]. auto. Qed.
Lemma empty_tables_wf : @tables_wf key_env empty_db.
Proof.
  split; [split; [|split]; intros *; cbn; rewrite lookup_empty; discriminate|]. split; [|split].
  - split; [|split]; intros *; cbn [empty_db db_org_rows].
    + intros [-> ->]%single_row. split; [reflexivity | split; reflexivity].
    + intros [-> _]%single_row [-> _]%single_row _. reflexivity.
    + intros [-> _]%single_row [-> _]%single_row _ _. reflexivity.
  - intros o u m. cbn [empty_db db_members]. rewrite lookup_singleton_Some. intros [[= <- <-] <-].
    split; [reflexivity|]. split; [reflexivity|]. split; [reflexivity|]. apply elem_of_dom. eexists. reflexivity.
  - split; [|split]; intros *; cbn [empty_db db_project_rows].
    + intros [-> ->]%single_row. split; [reflexivity|]. split; [split; [reflexivity | exists "Home"; reflexivity]|].
      apply elem_of_dom. eexists. reflexivity.
    + intros [-> _]%single_row [-> _]%single_row _ _. reflexivity.
    + intros [-> _]%single_row [-> _]%single_row _ _ _. reflexivity.
Qed.
Definition org_cx : Ctx := mkCtx (Some (mkTenant 1 uuid_Nil 3)) (Some (mkPrincipal 3 uuid_Nil)) false.
Definition key_expiry : option Z := Some (key_now + 30 * 24 * 3600 * 1000000000).
(** Three keys of an organisation, its own key widened to every project. *)
Definition access_setup : list (Ctx * AccessOp) :=
  [(demo_cx, OpMint "reader" [ScopeYasakuRead] [] key_expiry);
   (demo_cx, OpMintOrg "mirror" [ScopeYasakuRead; ScopeMembersRead] (mkGrant false [2%N]) key_expiry);
   (demo_cx, OpMintPersonal "laptop" [ScopeYasakuRead; ScopeYasakuWrite] (mkGrant false [2%N]) key_expiry);
   (org_cx, OpGrantAll 202);
   (demo_cx, OpOrgCreate "" "Second" 3);
   (demo_cx, OpProjectCreate 1 "books" "Books")].
Definition access_world : World := demo_access access_setup demo_world.

(** ** What sessions keep *)

(** C28: Over any session of the organisations, the projects, the keys and the
    authenticator, interleaved with other sessions that do the same, the tables stay
    well formed: organisations lie under their ids with slugs and names that validate,
    no two share a slug and at most one is the system's; members have a known role in
    an organisation that exists; projects have slugs of their own in their
    organisation, one system project at most; no two keys share a hash, each has the
    shape of its kind, scopes of the catalog and an expiry within 366 days of a clock
    reading, and every grant joins a key that has grants to a project of its own
    organisation. And a key stays what it was minted as: its organisation, kind,
    binding, hash, scopes, owner and expiry never change. *)
Theorem access_well_formed `{Env, SlugDraws, OrgCaps, SecretBytes} sc ops w :
  (forall n db, key_step (fun _ => False) db (env_other n db)) -> fresh_keys -> tables_wf (W_db w) ->
  let w' := access_session sc ops w in
  tables_wf (W_db w') /\ forall id k, db_apikeys (W_db w) !! id = Some k -> exists k', db_apikeys (W_db w') !! id = Some k' /\ core k' = core k.
Proof.
  intros rely fresh Hw. cbv zeta.
  assert (Hs : key_step (fun _ => False) (W_db w) (W_db (access_session sc ops w))).
  { apply access_session_step; [exact rely | exact fresh | | exact Hw]. apply Forall_forall. intros [cx op] _.
    destruct op; cbn [access_within snd]; try exact I; try (intros tc _ []); try (intros []). apply Forall_forall. intros e _ []. }
  split; [exact (tables_stable _ _ _ Hs Hw) | apply (Hs (proj1 Hw))].
Qed.

(** C31: A session that works in other organisations leaves an organisation's keys and
    their grants exactly as they are, whatever ids it names; the other sessions are
    such sessions too. *)
Theorem keys_confined `{Env, SlugDraws, OrgCaps, SecretBytes} o sc ops w :
  let theirs := fun o' => o' = o in
  (forall n db, key_step theirs db (env_other n db)) -> fresh_keys -> Forall (access_within theirs) ops -> tables_wf (W_db w) ->
  let w' := access_session sc ops w in
  (forall id k, ak_OrgID k = o -> (db_apikeys (W_db w) !! id = Some k <-> db_apikeys (W_db w') !! id = Some k))
  /\ (forall i g, gr_OrgID g = o -> (db_grants (W_db w) !! i = Some g <-> db_grants (W_db w') !! i = Some g)).
Proof.
  intros theirs rely fresh Hops Hw. cbv zeta.
  destruct (access_session_step theirs rely fresh sc ops w Hops Hw (proj1 Hw)) as (_ & (_ & Hk & Hg) & _). split; [exact Hk | exact Hg].
Qed.

Lemma key_rely foreign : forall n db, @key_step key_env foreign db (@env_other key_env n db).
Proof. intros n db. cbn [key_env env_other]. reflexivity. Qed.
Lemma access_world_wf : @tables_wf key_env (W_db access_world).
Proof.
  unfold access_world. pose proof (@access_session_step key_env demo_Draws demo_Caps key_Secrets (fun _ => False) (key_rely _) key_fresh_keys "" access_setup demo_world) as Hs.
  refine (@tables_stable key_env (fun _ => False) _ _ (Hs _ empty_tables_wf) empty_tables_wf).
  apply Forall_forall. intros [cx op] _. destruct op; cbn [access_within snd]; try exact I; try (intros tc _ []); try (intros []). apply Forall_forall. intros e _ [].
Qed.
Lemma access_well_formed_witness :
  map (fun k => (ak_ID k, ak_Kind k, ak_AllProjects k)) (rows (db_apikeys (W_db access_world)))
    = [(302%N, KindPersonal, false); (102%N, KindProject, false); (202%N, KindOrg, true)]
  /\ @tables_wf key_env (W_db access_world).
Proof.
  split; [vm_compute; reflexivity|].
  apply (@access_well_formed key_env demo_Draws demo_Caps key_Secrets "" access_setup demo_world); [apply key_rely | exact key_fresh_keys | exact empty_tables_wf].
Defined.
(** A session of the second organisation that names the first one's keys. *)
Definition second_cx : Ctx := mkCtx (Some (mkTenant 402 uuid_Nil 3)) (Some (mkPrincipal 3 uuid_Nil)) false.
Definition second_ops : list (Ctx * AccessOp) :=
  [(second_cx, OpKeyRevoke 202); (second_cx, OpGrantProjects 202 [502%N]); (second_cx, OpRevokePersonalOf 402 3);
   (second_cx, OpMintOrg "spy" [ScopeYasakuRead] (mkGrant false [2%N]) key_expiry); (second_cx, OpMintOrg "own" [ScopeYasakuRead] (mkGrant true []) key_expiry)].
Lemma keys_confined_witness :
  let w' := demo_access second_ops access_world in
  (ak_OrgID <$> db_apikeys (W_db w') !! 602%N) = Some 402%N
  /\ forall id k, ak_OrgID k = 1%N -> (db_apikeys (W_db access_world) !! id = Some k <-> db_apikeys (W_db w') !! id = Some k).
Proof.
  split; [vm_compute; reflexivity|].
  apply (@keys_confined key_env demo_Draws demo_Caps key_Secrets 1 "" second_ops access_world);
    [apply key_rely | exact key_fresh_keys | | exact access_world_wf].
  repeat constructor; first [intros tc [= <-]; discriminate | discriminate].
Defined.

(** The organisation's key reads the second project, and no key of it writes there. *)
Definition demo_secret (n : nat) : string := (DefaultPrefix ++ RawURL_EncodeToString (FormatInt (Z.of_nat n)))%string.
Definition demo_Authorize (raw scope : string) (o p r : uuid) : Outcome Error (KeyPrincipal * Pending) :=
  fst (@Authorize key_env (@orgMembers key_env) "" demo_cx raw scope o p r ∅ access_world).
Lemma Authorize_exact_witness :
  match demo_Authorize (demo_secret 17) ScopeYasakuRead 1 502 7 with Ok (q, _) => kp_KeyID q = 202%N | _ => False end
  /\ demo_Authorize (demo_secret 17) ScopeYasakuWrite 1 502 7 = Err (EAuthn (InsufficientScopeError ScopeYasakuWrite))
  /\ demo_Authorize (demo_secret 17) ScopeYasakuRead 402 502 7 = Err (EAuthn UnauthorizedError)
  /\ exists n, @decided (W_db access_world) (@env_now key_env n) "" (demo_secret 17) ScopeYasakuRead 1 502 7
       (demo_Authorize (demo_secret 17) ScopeYasakuRead 1 502 7).
Proof.
  split; [vm_compute; reflexivity|]. split; [vm_compute; reflexivity|]. split; [vm_compute; reflexivity|].
  unfold demo_Authorize.
  exact (proj2 (@Authorize_exact key_env "" demo_cx (demo_secret 17) ScopeYasakuRead 1 502 7 ∅ access_world key_quiet key_faultless (proj1 access_world_wf))).
Defined.

(** ** Minting *)
Section Minting.
Context `{Env, SecretBytes}.
Hypothesis q : quiet.
Hypothesis nf : faultless.
Hypothesis fresh : fresh_keys.

(** A key just minted, stored, and the secret that was shown once. *)
Definition usable_from (sc : Scheme) (r : APIKey * string) (db : DB) : Prop :=
  looks_key sc (snd r) = true /\ ak_SecretHash (fst r) = sha256 (snd r) /\ ak_RevokedAt (fst r) = None
  /\ db_apikeys db !! ak_ID (fst r) = Some (key_row (fst r)) /\ owner_live db (fst r) = true.
(** Before it is saved. *)
Definition drawn (sc : Scheme) (r : APIKey * string) (db : DB) : Prop :=
  looks_key sc (snd r) = true /\ ak_SecretHash (fst r) = sha256 (snd r) /\ ak_RevokedAt (fst r) = None
  /\ db_apikeys db !! ak_ID (fst r) = None.
Definition on_ok {A} (P : A -> DB -> Prop) (out : Outcome Error A) (db : DB) : Prop :=
  match out with Ok a => P a db | _ => True end.

Lemma new_key_looks sc random id o name scopes exp now : looks_key sc (snd (new_key sc random id o name scopes exp now)) = true.
Proof.
  unfold looks_key, new_key. cbn [snd]. unfold Looks. assert (Hp : String.eqb (Prefix sc) "" = false).
  { unfold Prefix. destruct (String.eqb sc "") eqn:E; [reflexivity | exact E]. }
  rewrite Hp, HasPrefix_app. cbn [negb andb]. destruct (Prefix sc); [discriminate|]. reflexivity.
Qed.
Lemma wp_refuse e db : wp (refuse_some e) db (on_ok (fun _ db' => db' = db)).
Proof. destruct e; [apply wp_err; exact I | apply wp_ret; reflexivity]. Qed.
Lemma wp_mint sc o name scopes exp now db :
  wp (mint sc o name scopes exp now) db (on_ok (fun r db' => db' = db /\ drawn sc r db /\ ak_Scopes (fst r) = scopes /\ ak_OrgID (fst r) = o)).
Proof.
  unfold mint. apply wp_bind. eapply wp_conseq; [apply wp_refuse|]. intros [u|e|p] db'; cbn; [intros ->|auto ..].
  apply wp_bind, wp_tick. intros n. apply wp_bind. destruct (rand_bytes n) as [e|random]; [apply wp_err; exact I|]. apply wp_ret.
  apply wp_bind, wp_NewV7. intros m. apply wp_ret. cbn. split; [reflexivity|]. split; [|split; reflexivity].
  split; [apply new_key_looks|]. split; [reflexivity|]. split; [reflexivity | apply (proj1 fresh)].
Qed.
Lemma wp_key_Save cx k db : db_apikeys db !! ak_ID k = None ->
  wp (key_Save cx k) db (on_ok (fun _ db' => db_apikeys db' !! ak_ID k = Some (key_row k) /\ db_members db' = db_members db)).
Proof.
  intros Hn. unfold key_Save. destruct (From_ cx) as [e|tc] eqn:F.
  { unfold write_tx, from_tenant. rewrite F. apply wp_bind, wp_err. exact I. }
  apply (wp_write_tx "apikey" cx tc); [right; exact q | exact F | | intros Hf; destruct (Hf nf)].
  eapply wp_conseq; [|intros [a|e|p] db' Hx; [exact Hx | split; exact I ..]].
  apply wp_bind. unfold key_save. apply wp_bind, wp_maperr, wp_exec_stmt; [|intros Hf; destruct (Hf nf)].
  unfold key_upsert. rewrite Hn. destruct (negb (kind_shape k)); [exact I|]. destruct (taken_hash k db); [exact I|].
  destruct (key_refs_ok k db); [|exact I]. cbn [Nat.eqb]. apply wp_ret. set (db1 := set_apikeys _ db).
  assert (H1 : db_apikeys db1 !! ak_ID k = Some (key_row k) /\ db_members db1 = db_members db) by (split; [apply lookup_insert_eq | reflexivity]).
  unfold syncGrants. apply wp_bind, wp_maperr, wp_exec_stmt; [|intros Hf; destruct (Hf nf)]. unfold grants_prune. cbv zeta.
  destruct (Nat.eqb _ _); [apply wp_ret; exact H1|]. apply wp_bind, wp_time_Now. intros n.
  apply wp_bind, wp_maperr, wp_exec_stmt; [|intros Hf; destruct (Hf nf)]. unfold grants_insert.
  destruct (forallb _ _); [apply wp_ret; exact H1 | exact I].
Qed.
Lemma wp_saveMinted sc cx tc r db : drawn sc r db -> owner_live db (set_createdBy (UserID tc) (fst r)) = true ->
  wp (saveMinted cx tc r) db (on_ok (usable_from sc)).
Proof.
  intros (Hl & Hh & Hr & Hn) Ho. unfold saveMinted. apply wp_bind, wp_try.
  eapply wp_conseq; [apply (wp_key_Save cx (set_createdBy (UserID tc) (fst r)) db Hn)|]. intros [[]|e|p] db' Hx; cbn in Hx.
  - apply wp_ret. destruct Hx as [Hs Hm]. cbn. unfold usable_from. cbn [fst snd]. split; [exact Hl|]. split; [exact Hh|]. split; [exact Hr|].
    split; [exact Hs|]. unfold owner_live, manager_of, member_of in *. rewrite Hm. exact Ho.
  - apply wp_err. exact I.
  - exact I.
Qed.
(** The gate lets an owner of a personal token through when it would be live. *)
Lemma wp_mintGate cx kind scopes exp db :
  wp (mintGate cx kind scopes exp) db (on_ok (fun tc db' => db' = db /\ From_ cx = inr tc /\
    forall k, ak_Kind k = kind -> ak_OrgID k = OrgID tc -> ak_CreatedBy k = UserID tc -> ak_Scopes k = scopes -> owner_live db k = true)).
Proof.
  unfold mintGate. destruct (From_ cx) as [e|tc] eqn:F.
  { unfold from_tenant. rewrite F. apply wp_bind, wp_err. exact I. }
  apply wp_bind, (wp_from_tenant _ tc); [exact F|]. apply wp_bind.
  assert (Hrest : forall db', (forall k, ak_Kind k = kind -> ak_OrgID k = OrgID tc -> ak_CreatedBy k = UserID tc -> ak_Scopes k = scopes -> owner_live db k = true) ->
    db' = db -> wp (refuse_some (requireMintable scopes) ;;; let* now := time_Now in refuse_some (validateLifetime exp now) ;;; st_ret tc) db'
      (on_ok (fun tc0 db'' => db'' = db /\ inr (A := TenantError) tc = inr tc0 /\
        forall k, ak_Kind k = kind -> ak_OrgID k = OrgID tc0 -> ak_CreatedBy k = UserID tc0 -> ak_Scopes k = scopes -> owner_live db k = true))).
  { intros db' Ho ->. apply wp_bind. eapply wp_conseq; [apply wp_refuse|]. intros [u|e|p] db'; cbn; [intros ->|auto ..].
    apply wp_bind, wp_time_Now. intros n. apply wp_bind. eapply wp_conseq; [apply wp_refuse|]. intros [u'|e|p] db'; cbn; [intros ->|auto ..].
    apply wp_ret. cbn. auto. }
  unfold requireMinter. destruct (String.eqb_spec kind KindPersonal) as [->|Hk].
  - unfold requireOwner. assert (Hd : forall b, b = true -> b = (if hasOrgLevelScope scopes then manager_of db (OrgID tc) (UserID tc) else member_of db (OrgID tc) (UserID tc)) ->
      forall k, ak_Kind k = KindPersonal -> ak_OrgID k = OrgID tc -> ak_CreatedBy k = UserID tc -> ak_Scopes k = scopes -> owner_live db k = true).
    { intros b -> Hb k Ek Eo Eu Es. unfold owner_live. rewrite Ek, Eo, Eu, Es, <- Hb. reflexivity. }
    destruct (hasOrgLevelScope scopes); [apply (wp_RequireManager q nf) | apply (wp_RequireMember q nf)];
      (destruct (_ db (OrgID tc) (UserID tc)) eqn:E; [apply Hrest; [apply (Hd true); auto | reflexivity] | exact I]).
  - apply (wp_RequireManager q nf). destruct (manager_of _ _ _); [|exact I]. apply Hrest; [|reflexivity].
    intros k Ek _ _ _. unfold owner_live. rewrite Ek. apply String.eqb_neq in Hk. rewrite Hk. reflexivity.
Qed.

(** The three ways to mint. *)
Inductive MintCall :=
| MintProject (name : string) (scopes : list string) (resources : list uuid) (expiry : option Z)
| MintForOrg (name : string) (scopes : list string) (grant : ProjectGrant) (expiry : option Z)
| MintForOwner (name : string) (scopes : list string) (grant : ProjectGrant) (expiry : option Z).
Definition mint_with (sc : Scheme) (cx : Ctx) (c : MintCall) : M (APIKey * string) :=
  match c with
  | MintProject name scopes res exp => key_Mint sc cx name scopes res exp
  | MintForOrg name scopes g exp => key_MintOrg sc cx name scopes g exp
  | MintForOwner name scopes g exp => key_MintPersonal sc cx name scopes g exp
  end.
Lemma wp_projects cx o ids db : wp (requireOrgProjects cx o ids) db (on_ok (fun _ db' => db' = db)).
Proof.
  assert (Hr : read_only (requireOrgProjects cx o ids)).
  { unfold requireOrgProjects, unexpected. destruct (Nat.eqb _ _); [ro|]. apply read_only_bind; [apply read_only_try, ProjectIDs_read | intros r; ro]. }
  eapply wp_conseq; [apply (wp_preserves (fun a b => b = a)), Hr; [split; [intros x; reflexivity | intros x y z -> ->; reflexivity] | intros n d; apply q]|].
  intros [a|e|p] db'; cbn; auto.
Qed.
Lemma wp_scheme_MintOrg sc o name scopes g exp now db :
  wp (scheme_MintOrg sc o name scopes g exp now) db
    (on_ok (fun r db' => db' = db /\ drawn sc r db /\ ak_Scopes (fst r) = scopes /\ ak_OrgID (fst r) = o /\ ak_Kind (fst r) = KindOrg)).
Proof.
  unfold scheme_MintOrg. apply wp_bind. eapply wp_conseq; [apply wp_refuse|]. intros [u|e|p] db'; cbn; [intros ->|auto ..].
  apply wp_bind. eapply wp_conseq; [apply wp_mint|]. intros [[k t]|e|p] db'; cbn; [|auto ..]. intros (-> & Hd & Hs & Ho).
  apply wp_ret. cbn. repeat split; [apply Hd .. | exact Hs | exact Ho].
Qed.
(** What each scheme draws, of its kind. *)
Definition drawn_as (sc : Scheme) (kind : Kind) (o : uuid) (scopes : list string) (db : DB) (r : APIKey * string) (db' : DB) : Prop :=
  db' = db /\ drawn sc r db /\ ak_Scopes (fst r) = scopes /\ ak_OrgID (fst r) = o /\ ak_Kind (fst r) = kind.
Lemma wp_scheme_Mint sc o p name scopes res exp now db :
  wp (scheme_Mint sc o p name scopes res exp now) db (on_ok (drawn_as sc KindProject o scopes db)).
Proof.
  unfold scheme_Mint. apply wp_bind. eapply wp_conseq; [apply wp_refuse|]. intros [u|e|m] db'; cbn; [intros ->|auto ..].
  apply wp_bind. eapply wp_conseq; [apply wp_mint|]. intros [[k t]|e|m] db'; cbn; [|auto ..]. intros (-> & Hd & Hs & Ho).
  apply wp_ret. repeat split; [apply Hd .. | exact Hs | exact Ho].
Qed.
Lemma wp_scheme_MintPersonal sc o u name scopes g exp now db :
  wp (scheme_MintPersonal sc o u name scopes g exp now) db (on_ok (drawn_as sc KindPersonal o scopes db)).
Proof.
  unfold scheme_MintPersonal. apply wp_bind. eapply wp_conseq; [apply wp_scheme_MintOrg|]. intros [[k t]|e|m] db'; cbn; [|auto ..].
  intros (-> & Hd & Hs & Ho & _). apply wp_ret. repeat split; [apply Hd .. | exact Hs | exact Ho].
Qed.
Lemma wp_drawn_save sc cx tc kind scopes db (x : Z -> M (APIKey * string)) :
  (forall now, wp (x now) db (on_ok (drawn_as sc kind (OrgID tc) scopes db))) ->
  (forall k, ak_Kind k = kind -> ak_OrgID k = OrgID tc -> ak_CreatedBy k = UserID tc -> ak_Scopes k = scopes -> owner_live db k = true) ->
  wp (let* now := time_Now in let* r := x now in saveMinted cx tc r) db (on_ok (usable_from sc)).
Proof.
  intros Hx Ho. apply wp_bind, wp_time_Now. intros n. apply wp_bind. eapply wp_conseq; [apply Hx|].
  intros [r|e|p] db'; cbn; [|auto ..]. intros (-> & Hd & Hs & Horg & Hk).
  apply wp_saveMinted; [exact Hd|]. apply Ho; cbn; [exact Hk | exact Horg | reflexivity | exact Hs].
Qed.
Lemma wp_mint_with sc cx c db : wp (mint_with sc cx c) db (on_ok (usable_from sc)).
Proof.
  assert (Hgrant : forall tc kind scopes ids (x : Z -> M (APIKey * string)),
    (forall now, wp (x now) db (on_ok (drawn_as sc kind (OrgID tc) scopes db))) ->
    (forall k, ak_Kind k = kind -> ak_OrgID k = OrgID tc -> ak_CreatedBy k = UserID tc -> ak_Scopes k = scopes -> owner_live db k = true) ->
    wp (requireOrgProjects cx (OrgID tc) ids ;;; let* now := time_Now in let* r := x now in saveMinted cx tc r) db (on_ok (usable_from sc))).
  { intros tc kind scopes ids x Hx Ho. apply wp_bind. eapply wp_conseq; [apply wp_projects|]. intros [u|e|p] db'; cbn; [intros ->|auto ..].
    exact (wp_drawn_save sc cx tc kind scopes db x Hx Ho). }
  destruct c as [name scopes res exp|name scopes g exp|name scopes g exp]; cbn [mint_with];
    [unfold key_Mint | unfold key_MintOrg | unfold key_MintPersonal];
    (apply wp_bind; eapply wp_conseq; [apply wp_mintGate|]; intros [tc|e|p] db'; cbn [on_ok]; [|exact (fun _ => I) ..]; intros (-> & F & Ho)).
  - exact (wp_drawn_save sc cx tc _ _ db _ (fun now => wp_scheme_Mint sc _ _ name scopes res exp now db) Ho).
  - exact (Hgrant tc _ _ _ _ (fun now => wp_scheme_MintOrg sc _ name scopes g exp now db) Ho).
  - exact (Hgrant tc _ _ _ _ (fun now => wp_scheme_MintPersonal sc _ _ name scopes g exp now db) Ho).
Qed.
Lemma mint_with_step sc cx c : preserves (on_db (key_step (fun _ => False))) (mint_with sc cx c).
Proof.
  assert (rely : forall n db, key_step (fun _ => False) db (env_other n db)) by (intros n db; rewrite q; reflexivity).
  destruct c; [apply (Mint_step _ rely fresh) | apply (MintOrg_step _ rely fresh) | apply (MintPersonal_step _ rely fresh)]; intros tc _ [].
Qed.
End Minting.

(** C30: With no fault and no other session, the secret a mint hands out authenticates:
    whatever kind of key was minted, as long as the clock is before its expiry and the
    tables are as the mint left them, [Authenticate] returns the principal of that
    key. *)
Theorem minted_authenticates `{Env, SecretBytes} sc cx c w k secret :
  quiet -> faultless -> fresh_keys -> keys_wf (W_db w) -> fst (mint_with sc cx c w) = Ok (k, secret) ->
  forall cx' pend w', W_db w' = W_db (snd (mint_with sc cx c w)) ->
  (forall n e, ak_ExpiresAt k = Some e -> env_now n < e) ->
  exists pend', fst (Authenticate sc cx' secret pend w') = Ok (principalFor (with_grants (W_db w') k), pend').
Proof.
  intros Hq Hf Hfr Hw E cx' pend w' Ew Hn.
  pose proof (wp_mint_with Hq Hf Hfr sc cx c (W_db w) w eq_refl) as Hu. rewrite E in Hu. cbn [on_ok] in Hu. rewrite <- Ew in Hu.
  assert (Hw' : keys_wf (W_db w')) by (rewrite Ew; apply (mint_with_step Hq Hfr sc cx c w), Hw).
  destruct Hu as (Hl & Hh & Hr & Hs & Ho). cbn [fst snd] in *.
  refine (wp_Authenticate Hq Hf sc cx' secret pend (W_db w') (fun out _ => exists pend', out = Ok (principalFor (with_grants (W_db w') k), pend')) _ w' eq_refl).
  intros n m. assert (El : live_key sc secret (env_now n) (W_db w') = Some (with_grants (W_db w') (key_row k))).
  { apply (live_key_spec _ _ _ _ Hw'). split; [exact Hl|]. exists (key_row k). split; [exact Hs|]. split; [exact Hh|].
    split; [|split; [exact Ho | reflexivity]]. apply Usable_spec. cbn. rewrite Hr. split; [discriminate | apply Hn]. }
  rewrite El. eexists. reflexivity.
Qed.
(** A clock that stands still. *)
Definition still_env : Env := {|
  env_uuid := fun _ db => key_fresh db;
  env_now := fun _ => key_now;
  env_fault := fun _ => None;
  env_other := fun _ db => db;
  env_sheet := fun _ s => s
|}.
Lemma still_fresh_keys : @fresh_keys still_env.
Proof. split; [intros n db; apply max_id_fresh; cbn [still_env env_uuid]; unfold key_fresh; lia | intros n m db db' Hn; exact Hn]. Qed.
Lemma empty_keys_wf `{Env} : keys_wf empty_db.
Proof. split; [|split]; intros *; cbn; rewrite lookup_empty; discriminate. Qed.
Definition demo_mint : Outcome Error (APIKey * string) * World :=
  @mint_with still_env key_Secrets "" demo_cx (MintForOwner "laptop" [ScopeYasakuRead; ScopeMembersRead] (mkGrant false [2%N; 2%N]) key_expiry) demo_world.
Definition minted_key : APIKey := match fst demo_mint with Ok (k, _) => k | _ => key_row (mkKey 0 0 0 "" false [] "" "" "" [] [] 0 0 None None None) end.
Definition minted_secret : string := match fst demo_mint with Ok (_, s) => s | _ => "" end.
Lemma minted_authenticates_witness :
  (ak_ProjectIDs minted_key, ak_Kind minted_key, ak_CreatedBy minted_key) = ([2%N], KindPersonal, 3%N)
  /\ exists pend, fst (@Authenticate still_env (@orgMembers still_env) "" demo_cx minted_secret ∅ (snd demo_mint))
       = Ok (principalFor (@with_grants (W_db (snd demo_mint)) minted_key), pend).
Proof.
  split; [vm_compute; reflexivity|].
  assert (E : fst demo_mint = Ok (minted_key, minted_secret)) by (vm_compute; reflexivity).
  assert (En : ak_ExpiresAt minted_key = key_expiry) by (vm_compute; reflexivity).
  unfold demo_mint in *.
  refine (@minted_authenticates still_env key_Secrets "" demo_cx _ demo_world minted_key minted_secret _ _ still_fresh_keys empty_keys_wf E
    demo_cx ∅ _ eq_refl _); [intros n db; reflexivity | intros n; reflexivity|].
  intros n e He. rewrite En in He. injection He as <-. cbn [still_env env_now]. lia.
Defined.

(** ** Removing a member *)
Section Removal.
Context `{Env}.
Hypothesis q : quiet.
Hypothesis nf : faultless.

(** The tables after [u] is removed from [o]: tokens revoked at [t], the membership gone. *)
Definition revoke_owned (o u : uuid) (t : Z) (k : APIKey) : APIKey :=
  if N.eqb (ak_OrgID k) o && personal_of u k && unrevoked k then set_times (Some t) (ak_LastUsedAt k) k else k.
Definition removed (o u : uuid) (t : Z) (db : DB) : DB :=
  set_members (delete (o, u) (db_members db)) (set_apikeys (revoke_owned o u t <$> db_apikeys db) db).
Definition missing (o u : uuid) : Error := EOrg (MembershipMissingError (uuid_String o) (uuid_String u)).

Lemma wp_RevokePersonalOf cx o u db (Q : Outcome Error unit -> DB -> Prop) : o <> uuid_Nil ->
  (forall n, Q (Ok tt) (set_apikeys (revoke_owned o u (env_now n) <$> db_apikeys db) db)) -> wp (RevokePersonalOf cx o u) db Q.
Proof.
  intros Ho HQ. unfold RevokePersonalOf, masked, RevokePersonal. apply wp_bind, wp_time_Now. intros n. apply wp_bind, wp_try.
  assert (F : From_ (WithOrg cx o) = inr (mkTenant o (ProjectID (tenant_or_zero cx)) (UserID (tenant_or_zero cx)))).
  { unfold From_, WithOrg, Into. cbn. destruct (N.eqb_spec o uuid_Nil); [contradiction | reflexivity]. }
  apply (wp_write_tx "apikey" _ _ _ _ _ (or_intror q) F); [|intros Hf; destruct (Hf nf)].
  apply wp_bind, wp_maperr, wp_exec_stmt; [|intros Hf; destruct (Hf nf)]. apply wp_ret, wp_ret, HQ.
Qed.
(** What a removal answers, and what it leaves. *)
Definition removal_outcome (cx : Ctx) (o u : uuid) (db : DB) (out : Outcome Error unit) (db' : DB) : Prop :=
  let actor := UserID (tenant_or_zero cx) in
  match db_members db !! (o, u) with
  | None => out = Err (missing o u) /\ db' = db
  | Some m =>
    if N.eqb o uuid_Nil then out = Err (ETenant UnscopedError) /\ db' = db else
    match db_members db !! (o, actor) with
    | None => out = Err (missing o actor) /\ db' = db
    | Some a =>
      match RemovalRefusal o actor u (mb_Role a) (mb_Role m) (mb_System m) with
      | Some e => out = Err (EOrg e) /\ db' = db
      | None => out = Ok tt /\ exists n, db' = removed o u (env_now n) db
      end
    end
  end.
Lemma wp_RemoveMember cx o u db : wp (RemoveMember cx o u) db (removal_outcome cx o u db).
Proof.
  unfold removal_outcome, RemoveMember. apply wp_bind, wp_try, wp_MembershipOf; [exact q | exact nf|].
  destruct (db_members db !! (o, u)) as [m|] eqn:Em; [|apply wp_bind, wp_err; auto].
  apply wp_bind, wp_ret. unfold from_tenant, From_, WithOrg, Into. cbn [cx_tenant].
  destruct (N.eqb_spec o uuid_Nil) as [Eo|Eo]; cbn [OrgID]; [rewrite Eo; apply wp_bind, wp_err; auto|].
  destruct (N.eqb_spec o uuid_Nil) as [|_]; [contradiction|]. apply wp_bind, wp_ret. cbn [UserID].
  apply wp_bind, wp_MembershipOf; [exact q | exact nf|].
  destruct (db_members db !! (o, UserID (tenant_or_zero cx))) as [a|]; [|auto].
  destruct (RemovalRefusal _ _ _ _ _ _); [apply wp_err; auto|]. apply wp_bind. cbn [onRemoved revokeOnRemoval run_hooks].
  apply wp_bind, wp_try, wp_RevokePersonalOf; [exact Eo|]. intros n. apply wp_ret, wp_bind, wp_try.
  unfold store_RemoveMember. apply wp_bind, wp_maperr, wp_pool_exec; [exact q | exact nf|]. unfold member_delete. cbn [db_members set_apikeys].
  rewrite Em. cbn [Nat.eqb]. apply wp_ret, wp_ret. split; [reflexivity | exists n; reflexivity].
Qed.
End Removal.

(** C32: With no fault and no other session, [RemoveMember] with the revocation hook
    answers as its refusals say, in every state of the tables: a target or an actor who
    is not a member is missing, a system membership, oneself and, for anyone but an
    owner, an owner cannot be removed, and then nothing changes; else every personal
    token the member holds in the organisation is revoked at one clock reading and the
    membership is gone, and nothing else changes. *)
Theorem RemoveMember_exact `{Env} cx o u w :
  quiet -> faultless ->
  let run := RemoveMember cx o u w in removal_outcome cx o u (W_db w) (fst run) (W_db (snd run)).
Proof. intros Hq Hf. exact (wp_RemoveMember Hq Hf cx o u (W_db w) w eq_refl). Qed.

Section Ends.
Context `{Env}.
End Ends.


(** An organisation with an owner. *)
Definition has_owner (o : uuid) (db : DB) : Prop := exists u m, db_members db !! (o, u) = Some m /\ mb_Role m = RoleOwner.

(** An organisation with two owners, the second of whom holds a personal token. *)
Definition team_db : DB :=
  mkDB (<[4%N := mkUserRow 4 "partner@demo.id" "Partner" false None None "" "" None 0]> (db_user_rows empty_db)) ∅ None (db_org_rows empty_db) {[(1%N, 3%N) := mkMembership 1 3 RoleOwner 0 false; (1%N, 4%N) := mkMembership 1 4 RoleOwner 0 false]}
    (db_project_rows empty_db) ∅ ∅ ∅ ∅ ∅ ∅ ∅ ∅ ∅ ∅ ∅.
Definition four_cx : Ctx := mkCtx (Some (mkTenant 1 2 4)) (Some (mkPrincipal 4 uuid_Nil)) false.
Definition team_ops : list (Ctx * AccessOp) :=
  [(four_cx, OpMintPersonal "laptop" [ScopeYasakuRead] (mkGrant true []) key_expiry);
   (demo_cx, OpMintOrg "mirror" [ScopeYasakuRead] (mkGrant true []) key_expiry)].
Definition team_world : World := demo_access team_ops (mkWorld team_db 0).
Definition demo_remove (cx : Ctx) (o u : uuid) (w : World) : Outcome Error unit * World :=
  @RemoveMember key_env (@revokeOnRemoval key_env) cx o u w.

Lemma RemoveMember_exact_witness :
  fst (demo_remove demo_cx 1 3 team_world) = Err (EOrg (SelfRemovalError (uuid_String 1) (uuid_String 3)))
  /\ fst (demo_remove demo_cx 1 9 team_world) = Err (missing 1 9)
  /\ @removal_outcome key_env demo_cx 1 4 (W_db team_world) (fst (demo_remove demo_cx 1 4 team_world)) (W_db (snd (demo_remove demo_cx 1 4 team_world))).
Proof.
  split; [vm_compute; reflexivity|]. split; [vm_compute; reflexivity|]. unfold demo_remove.
  exact (@RemoveMember_exact key_env demo_cx 1 4 team_world key_quiet key_faultless).
Defined.

(** ** What other sessions can do in between *)

(** The environment of [key_env] in which another session's operation commits at one step. *)
Definition meanwhile (step : nat) (op : World -> World) : Env := {|
  env_uuid := fun _ db => key_fresh db;
  env_now := @env_now key_env;
  env_fault := fun _ => None;
  env_other := fun n db => if Nat.eqb n step then W_db (op (mkWorld db 1000)) else db;
  env_sheet := fun _ s => s
|}.

(** Two owners who remove each other at the same time both succeed, and the
    organisation is left with no member at all: between one's check of the memberships
    and its delete, the other's removal commits, and no statement checks again. *)
Theorem owners_remove_each_other :
  let theirs := fun w => snd (demo_remove four_cx 1 3 w) in
  let env := meanwhile 31 theirs in
  let run := @RemoveMember env (@revokeOnRemoval env) demo_cx 1 4 team_world in
  fst (demo_remove four_cx 1 3 (mkWorld (W_db team_world) 1000)) = Ok tt
  /\ fst run = Ok tt /\ db_members (W_db (snd run)) = ∅ /\ ~ has_owner 1 (W_db (snd run)).
Proof.
  cbv zeta. set (run := RemoveMember demo_cx 1 4 team_world).
  assert (E : db_members (W_db (snd run)) = ∅) by (vm_compute; reflexivity).
  split; [vm_compute; reflexivity|]. split; [vm_compute; reflexivity|]. split; [exact E|].
  intros (u & m & Hm & _). rewrite E, lookup_empty in Hm. discriminate.
Qed.

(** Two keys with grants, and a session that replaces the organisation's one. *)
Definition two_keys : World := demo_access (firstn 3 access_setup) demo_world.
Definition replace_key (w : World) : World :=
  demo_access [(org_cx, OpKeyRevoke 202); (org_cx, OpMintOrg "mirror 2" [ScopeYasakuRead] (mkGrant true []) key_expiry)] w.
Definition revoked_in (id : uuid) (w : World) : option bool := negb ∘ unrevoked <$> db_apikeys (W_db w) !! id.
(** A revocation is not final: a [GrantProjects] that read the key before another
    session revoked it, and saves it after, writes the key back unrevoked, and its
    secret authenticates again. Alone, the same grant is refused on a revoked key. *)
Theorem grant_revives_revoked :
  let env := meanwhile 44 replace_key in
  let run := @GrantProjects env (@orgMembers env) (@orgProjectIDs env) org_cx 202 [2%N] two_keys in
  revoked_in 202 (replace_key two_keys) = Some true
  /\ fst (@GrantProjects key_env (@orgMembers key_env) (@orgProjectIDs key_env) org_cx 202 [2%N] (replace_key two_keys)) = Err (EAPIKey RevokedError)
  /\ (exists k, fst run = Ok k) /\ revoked_in 402 (snd run) = Some false /\ revoked_in 202 (snd run) = Some false
  /\ match fst (@Authenticate key_env (@orgMembers key_env) "" demo_cx (demo_secret 17) ∅ (snd run)) with Ok (q, _) => kp_KeyID q = 202%N | _ => False end.
Proof.
  cbv zeta. set (run := GrantProjects org_cx 202 [2%N] two_keys).
  assert (Hok : match fst run with Ok _ => true | _ => false end = true) by (vm_compute; reflexivity).
  split; [vm_compute; reflexivity|]. split; [vm_compute; reflexivity|].
  split; [destruct (fst run) as [k|e|p]; [exists k; reflexivity | discriminate Hok ..]|].
  split; [vm_compute; reflexivity|]. split; vm_compute; reflexivity.
Qed.

(** The driver fails at one step. *)
Definition faulty (step : nat) : Env := {|
  env_uuid := fun _ db => key_fresh db;
  env_now := @env_now key_env;
  env_fault := fun n => if Nat.eqb n step then Some "disk I/O error" else None;
  env_other := fun _ db => db;
  env_sheet := fun _ s => s
|}.
Definition demo_login (e : Env) : Outcome Error (KeyPrincipal * Pending) :=
  fst (@Authenticate e (@orgMembers e) "" demo_cx (demo_secret 4) ∅ team_world).
(** A store failure during the owner check reads as a wrong credential: the
    organisations' service masks it before the authenticator sees it, so the personal
    token that authenticates without the fault is refused as unauthorized, where the
    same fault in the key's own lookup is reported as unavailable. *)
Theorem owner_fault_unauthorized :
  match demo_login key_env with Ok (q, _) => kp_KeyID q = 102%N | _ => False end
  /\ demo_login (faulty 26) = Err (EAuthn UnauthorizedError)
  /\ (exists e, demo_login (faulty 23) = Err (EAuthnUnavailable e))
  /\ (forall op e, ownerRefusal (EUnexpected op e) = EAuthn UnauthorizedError)
  /\ forall code msg, ownerRefusal (ESqlite code msg) = EAuthnUnavailable (ESqlite code msg).
Proof.
  split; [vm_compute; reflexivity|]. split; [vm_compute; reflexivity|].
  split; [exists (EWrap "apikey.sqlite.query" (ESqlite OtherCode "disk I/O error")); vm_compute; reflexivity|].
  split; intros; reflexivity.
Qed.
