(* ===== verification/AccountService.v ===== *)
(** * Accounts: stores, services and logins
    ([internal/user], [internal/invite], [internal/onboard], [internal/auth], [internal/platform/authn])

    The tables [users], [invites] and [bootstrap], whose stores run each statement on the
    pool; the users' service; the invites' workflows; onboarding of the deployment and of a
    signed-in user; the two logins; and the chain of authenticators behind an RPC. *)
From Stdlib Require Import ZArith Lia String Ascii List.
From stdpp Require Import base gmap list strings.
From S2P Require Import Prelude GoStrings Errors Encoding Ledger Tenant Org ApiKey Password Account World OrgService ApiKeyService.
Local Open Scope string_scope.
Local Open Scope Z_scope.

(** ** Statements *)
Definition same_text (a b : option string) : bool :=
  match a, b with Some a, Some b => String.eqb a b | _, _ => false end.
Definition other_user (p : UserRow -> bool) (id : uuid) (db : DB) : bool :=
  existsb (fun r => negb (N.eqb (ur_ID r) id) && p r) (rows (db_user_rows db)).
Definition same_idp (r x : UserRow) : bool :=
  same_text (ur_IDPIssuer x) (ur_IDPIssuer r) && same_text (ur_IDPSubject x) (ur_IDPSubject r).
(** A login at one issuer names one user, and an address too; the creation time stays. *)
Definition user_upsert (u : User) : Statement := fun db =>
  let row := to_row u (match db_user_rows db !! usr_ID u with Some old => ur_CreatedAt old | None => usr_CreatedAt u end) in
  if other_user (same_idp row) (usr_ID u) db
  then inl (CONSTRAINT_UNIQUE, "UNIQUE constraint failed: users.idp_issuer, users.idp_subject") else
  if other_user (fun x => String.eqb (ur_Email x) (usr_Email u)) (usr_ID u) db
  then inl (CONSTRAINT_UNIQUE, "UNIQUE constraint failed: users.email") else
  inr (set_users (<[usr_ID u := row]> (db_user_rows db)) db, 1%nat).
Definition row_set_locale (l : string) (r : UserRow) : UserRow :=
  mkUserRow (ur_ID r) (ur_Email r) (ur_Name r) (ur_IsAdmin r) (ur_IDPIssuer r) (ur_IDPSubject r) (ur_PasswordHash r) l
    (ur_TermsAcceptedAt r) (ur_CreatedAt r).
Definition locale_update (id : uuid) (l : string) : Statement := fun db =>
  match db_user_rows db !! id with
  | Some r => inr (set_users (<[id := row_set_locale l r]> (db_user_rows db)) db, 1%nat)
  | None => inr (db, 0%nat)
  end.
(** A conflicting row of another organisation is left alone and counts no row. *)
Definition invite_upsert (tc : Tenant) (i : Invite) : Statement := fun db =>
  if negb (Role_IsValid (iv_Role i)) then inl (CONSTRAINT_CHECK, "CHECK constraint failed: role") else
  match db_invites db !! iv_ID i with
  | Some old =>
    if negb (N.eqb (iv_OrgID old) (OrgID tc)) then inr (db, 0%nat) else
    inr (set_invites (<[iv_ID i := mkInvite (iv_ID i) (iv_OrgID old) (iv_Email i) (iv_Role i) (iv_TokenHash i) (iv_ExpiresAt i)
           (iv_UsedAt i) (iv_CreatedAt old)]> (db_invites db)) db, 1%nat)
  | None =>
    if bool_decide (iv_OrgID i ∈ db_orgs db) && bool_decide (UserID tc ∈ db_users db)
    then inr (set_invites (<[iv_ID i := i]> (db_invites db)) db, 1%nat)
    else inl (CONSTRAINT_FOREIGNKEY, "FOREIGN KEY constraint failed")
  end.
Definition invite_delete (tc : Tenant) (id : uuid) : Statement := fun db =>
  match db_invites db !! id with
  | Some i => if N.eqb (iv_OrgID i) (OrgID tc) then inr (set_invites (delete id (db_invites db)) db, 1%nat) else inr (db, 0%nat)
  | None => inr (db, 0%nat)
  end.
(** The one row, which a second insert leaves alone. *)
Definition bootstrap_insert (b : Bootstrap) : Statement := fun db =>
  if negb (Method_IsValid (bs_Method b)) then inl (CONSTRAINT_CHECK, "CHECK constraint failed: method") else
  match db_bootstrap db with
  | Some _ => inr (db, 0%nat)
  | None =>
    if bool_decide (bs_OnboardedBy b ∈ db_users db) then inr (set_bootstrap (Some b) db, 1%nat)
    else inl (CONSTRAINT_FOREIGNKEY, "FOREIGN KEY constraint failed")
  end.

(** ** The stores *)
Section Stores.
Context `{Env, Unicode}.

Definition driver_text (e : Error) : string := match e with ESqlite _ msg => msg | _ => "" end.
Definition isSQLiteUnique (e : Error) : bool :=
  Contains (driver_text e) "UNIQUE constraint failed" || Contains (driver_text e) "constraint failed: UNIQUE".
Definition user_Save (u : User) : M unit :=
  let* r := st_try (on_pool (exec_stmt (user_upsert u))) in
  match r with
  | inl e =>
    if isSQLiteUnique e then
      if Contains (driver_text e) "idp_subject" || Contains (driver_text e) "idp_issuer"
      then st_err (EUser (UserAlreadyExistsError "idp_subject" (usr_IDPSubject u)))
      else st_err (EUser (UserAlreadyExistsError "email" (usr_Email u)))
    else st_err (EWrap "user.sqlite.Save" e)
  | inr _ => st_ret tt
  end.
Definition user_one (q : DB -> option UserRow) (notFound : UserError) : M User :=
  let* r := on_pool (query "user.sqlite.queryOne" q) in
  match r with None => st_err (EUser notFound) | Some r => st_ret (toUser r) end.
Definition user_where (p : UserRow -> bool) (db : DB) : option UserRow := List.find p (rows (db_user_rows db)).
Definition user_store_ByID (id : uuid) : M User :=
  user_one (fun db => db_user_rows db !! id) (UserNotFoundError (uuid_String id) "" "").
Definition ByEmail (email : string) : M User :=
  user_one (user_where (fun r => String.eqb (ur_Email r) (ToLower email))) (UserNotFoundError "" email "").
Definition idp_is (issuer subject : string) (r : UserRow) : bool :=
  same_text (ur_IDPIssuer r) (Some issuer) && same_text (ur_IDPSubject r) (Some subject).
Definition ByIDP (issuer subject : string) : M User :=
  user_one (user_where (idp_is issuer subject)) (UserNotFoundError "" "" subject).
Definition user_store_HasLocalUsers : M bool :=
  on_pool (query "user.sqlite.HasLocalUsers" (fun db =>
    match user_where (fun r => negb (String.eqb (ur_PasswordHash r) "")) db with Some _ => true | None => false end)).
Definition user_store_UpdateLocale (id : uuid) (locale : string) : M unit :=
  let* n := st_maperr (EWrap "user.sqlite.UpdateLocale") (on_pool (exec_stmt (locale_update id locale))) in
  if Nat.eqb n 0 then st_err (EUser (UserNotFoundError (uuid_String id) "" "")) else st_ret tt.

Definition invite_Save (cx : Ctx) (i : Invite) : M unit :=
  let* tc := from_tenant cx in
  let* n := st_maperr (EWrap "invite.sqlite.Save") (on_pool (exec_stmt (invite_upsert tc i))) in
  if Nat.eqb n 0 then st_err (EInvite (InviteNotFoundError (uuid_String (iv_ID i)))) else st_ret tt.
Definition invite_one (q : DB -> option Invite) (notFound : InviteError) : M Invite :=
  let* r := on_pool (query "invite.sqlite.query" q) in match r with None => st_err (EInvite notFound) | Some i => st_ret i end.
Definition invite_of (db : DB) (tc : Tenant) (id : uuid) : option Invite :=
  match db_invites db !! id with Some i => if N.eqb (iv_OrgID i) (OrgID tc) then Some i else None | None => None end.
Definition invite_store_ByID (cx : Ctx) (id : uuid) : M Invite :=
  let* tc := from_tenant cx in invite_one (fun db => invite_of db tc id) (InviteNotFoundError (uuid_String id)).
(** No tenant: the caller of the link is not known yet. *)
Definition invite_by_hash (hash : string) (db : DB) : option Invite :=
  List.find (fun i => String.eqb (iv_TokenHash i) hash) (rows (db_invites db)).
Definition ByTokenHash (hash : string) : M Invite := invite_one (invite_by_hash hash) (InviteNotFoundError "").
Definition pending_where (p : Invite -> bool) (db : DB) : list Invite :=
  sort_by (fun a b => iv_CreatedAt a <=? iv_CreatedAt b)
    (List.filter (fun i => p i && negb (IsUsed i)) (rows (db_invites db))).
Definition invite_store_ListPending (cx : Ctx) (orgID : uuid) : M (list Invite) :=
  let* tc := from_tenant cx in
  if negb (N.eqb (OrgID tc) orgID) then st_ret []
  else on_pool (query "invite.sqlite.ListPending" (pending_where (fun i => N.eqb (iv_OrgID i) orgID))).
Definition FindPendingForEmail (email : string) : M (list Invite) :=
  on_pool (query "invite.sqlite.FindPendingForEmail" (pending_where (fun i => String.eqb (iv_Email i) email))).
Definition invite_store_Delete (cx : Ctx) (id : uuid) : M unit :=
  let* tc := from_tenant cx in
  let* n := st_maperr (EWrap "invite.sqlite.Delete") (on_pool (exec_stmt (invite_delete tc id))) in
  if Nat.eqb n 0 then st_err (EInvite (InviteNotFoundError (uuid_String id))) else st_ret tt.

Definition bootstrap_Get : M Bootstrap :=
  let* r := on_pool (query "onboard.Get" db_bootstrap) in
  match r with None => st_err (EOnboard NotOnboardedError) | Some b => st_ret b end.
Definition bootstrap_Save (b : Bootstrap) : M unit :=
  let* r := st_try (on_pool (exec_stmt (bootstrap_insert b))) in
  match r with
  | inl e => if isSQLiteUnique e then st_err (EOnboard AlreadyOnboardedError) else st_err (EWrap "onboard.Save" e)
  | inr n => if Nat.eqb n 0 then st_err (EOnboard AlreadyOnboardedError) else st_ret tt
  end.
End Stores.

(** ** The deployment

    What [boot] reads of the configuration: the built-in administrator, whether invites go
    out, the mode of onboarding and the address the links start with. *)
Class Deployment := {
  genesis_Email : string;
  genesis_Name : string;
  genesis_PasswordHash : string;
  invites_enabled : bool;
  policy_Mode : string;
  base_URL : string
}.
Definition PolicyModeSelfhosted : string := "selfhosted".
Definition PolicyModeCloud : string := "cloud".

(** ** The users' service *)
Record Claims := mkClaims { cl_Issuer : string; cl_Subject : string; cl_Email : string; cl_EmailVerified : bool; cl_Name : string }.
Definition OutcomeUnconfigured : string := "unconfigured".
Definition OutcomeSatisfied : string := "satisfied".
Definition OutcomeClaimed : string := "claimed".
Definition OutcomeUnclaimed : string := "unclaimed".

Section UserService.
Context `{Env, Unicode, Argon2, RandRead, Deployment}.

(** [New] draws its id and its clock reading once the email and the name pass. *)
Definition draw_user (email name source : string) : M User :=
  match User_New uuid_Nil 0 email name source with
  | inl e => st_err (EUser e)
  | inr u =>
    let* id := NewV7 in
    let* now := time_Now in
    st_ret (mkUser id (usr_Email u) (usr_Name u) (usr_Source u) "" "" "" false "" None now)
  end.
Definition user_or {A} (op : string) (m : M A) : M A :=
  let* r := st_try m in
  match r with inl e => if IsUserNotFound e then st_err e else unexpected op e | inr a => st_ret a end.
Definition save_or (op : string) (u : User) : M unit :=
  let* r := st_try (user_Save u) in match r with inl e => unexpected op e | inr _ => st_ret tt end.

(** [CheckOIDCSignupEligibility], over the lookup of invites when there is one. *)
Definition CheckOIDCSignupEligibility (invites : option (string -> M bool)) (email : string) : M unit :=
  let e := lower_trim email in
  if String.eqb e "" then st_err (EUser (UserInvalidEmailError "empty" "")) else
  let* r := st_try (ByEmail e) in
  match r with
  | inr _ => st_ret tt
  | inl err =>
    if negb (IsUserNotFound err) then unexpected "user.CheckOIDCSignupEligibility: byEmail" err else
    let* has :=
      match invites with
      | None => st_ret false
      | Some HasPendingForEmail =>
        let* r := st_try (HasPendingForEmail e) in
        match r with inl err => unexpected "user.CheckOIDCSignupEligibility: invites" err | inr b => st_ret b end
      end in
    if has : bool then st_ret tt else st_err (EUser (NotInvitedError e))
  end.

Definition user_Create (email name source password : string) : M User :=
  let* u := draw_user email name source in
  let pw := TrimSpace password in
  let* u :=
    (if String.eqb pw "" then st_ret u else
     let* n := tick in
     let* hash := st_maperr (EWrap "user.Create: hash") (password_Hash n pw) in st_ret (user_set_hash hash u)) in
  let* r := st_try (user_Save u) in
  match r with
  | inl e => if IsUserAlreadyExists e then st_err e else unexpected "user.Create: save" e
  | inr _ => st_ret u
  end.
Definition Promote (id : uuid) : M unit :=
  let* u := user_or "user.Promote: byID" (user_store_ByID id) in
  if usr_IsAdmin u then st_ret tt else save_or "user.Promote: save" (user_set_admin u).
Definition HasLocalUsers : M bool :=
  let* r := st_try user_store_HasLocalUsers in
  match r with inl e => unexpected "user.HasLocalUsers" e | inr b => st_ret b end.
Definition ReconcileGenesisAdmin : M string :=
  let email := lower_trim genesis_Email in
  if String.eqb email "" then st_ret OutcomeUnconfigured else
  let* r := st_try (ByEmail email) in
  match r with
  | inl e => if IsUserNotFound e then st_ret OutcomeUnclaimed else unexpected "user.ReconcileGenesisAdmin: byEmail" e
  | inr u => if usr_IsAdmin u then st_ret OutcomeSatisfied else Promote (usr_ID u) ;;; st_ret OutcomeClaimed
  end.

(** The first [AlreadyExistsError] of a chain, by its field. *)
Definition dup_field (e : Error) : option string :=
  match List.find (fun x => match x with EUser (UserAlreadyExistsError _ _) => true | _ => false end) (chain e) with
  | Some (EUser (UserAlreadyExistsError field _)) => Some field
  | _ => None
  end.
Definition renamed (name : string) (u : User) : UserError + (User * bool) :=
  let n := TrimSpace name in
  if negb (String.eqb n "") && negb (String.eqb (usr_Name u) n)
  then match User_Rename u n with inl e => inl e | inr u => inr (u, true) end else inr (u, false).
Definition relink (u : User) (issuer subject : string) (c : Claims) : M User :=
  if negb (String.eqb (usr_IDPSubject u) "") && String.eqb (usr_IDPIssuer u) issuer && negb (String.eqb (usr_IDPSubject u) subject)
  then st_err (EUser IdentityConflictError) else
  match renamed (cl_Name c) u with
  | inl e => st_err (EUser e)
  | inr (u, _) =>
    let u := user_set_idp issuer subject u in
    save_or "user.EnsureFromOIDC: relink" u ;;; st_ret u
  end.
Definition refreshed (u : User) (c : Claims) : UserError + (User * bool) :=
  match renamed (cl_Name c) u with
  | inl e => inl e
  | inr (u, dirty) =>
    let email := lower_trim (cl_Email c) in
    if cl_EmailVerified c && negb (String.eqb email "") && negb (String.eqb (usr_Email u) email)
    then match User_ChangeEmail u email with inl e => inl e | inr u => inr (u, true) end else inr (u, dirty)
  end.
Definition refreshFromClaims (u : User) (c : Claims) : M User :=
  match refreshed u c with
  | inl e => st_err (EUser e)
  | inr (u, false) => st_ret u
  | inr (u, true) =>
    let* r := st_try (user_Save u) in
    match r with
    | inl e =>
      match dup_field e with
      | Some field => if String.eqb field "email" then st_err (EIdentityConflict e) else st_err e
      | None => unexpected "user.EnsureFromOIDC: refresh" e
      end
    | inr _ => st_ret u
    end
  end.
Definition EnsureFromOIDC (c : Claims) : M User :=
  let issuer := TrimSpace (cl_Issuer c) in
  let subject := TrimSpace (cl_Subject c) in
  if String.eqb issuer "" || String.eqb subject ""
  then st_err (EUser (UserInvalidEmailError "oidc claims missing issuer or subject" "")) else
  let email := lower_trim (cl_Email c) in
  let* r := st_try (ByIDP issuer subject) in
  match r with
  | inr linked => refreshFromClaims linked c
  | inl e =>
    if negb (IsUserNotFound e) then unexpected "user.EnsureFromOIDC: byIDP" e else
    if negb (cl_EmailVerified c) then st_err (EUser EmailUnverifiedError) else
    let* r := st_try (ByEmail email) in
    match r with
    | inr existing => relink existing issuer subject c
    | inl e =>
      if negb (IsUserNotFound e) then unexpected "user.EnsureFromOIDC: byEmail" e else
      let name := let n := TrimSpace (cl_Name c) in if String.eqb n "" then defaultNameFromEmail email else n in
      let* u := draw_user (cl_Email c) name SourceOIDC in
      let u := user_set_idp issuer subject u in
      let* r := st_try (user_Save u) in
      match r with
      | inl e =>
        match dup_field e with
        | Some field => if String.eqb field "idp_subject" then ByIDP issuer subject else ByEmail (usr_Email u)
        | None => unexpected "user.EnsureFromOIDC: save" e
        end
      | inr _ => st_ret u
      end
    end
  end.

Definition AcceptTerms (id : uuid) : M unit :=
  let* u := user_or "user.AcceptTerms: byID" (user_store_ByID id) in
  match usr_TermsAcceptedAt u with
  | Some _ => st_ret tt
  | None => let* now := time_Now in save_or "user.AcceptTerms: save" (User_AcceptTerms now u)
  end.
Definition UpdateLocale (id : uuid) (locale : string) : M unit :=
  user_or "user.UpdateLocale" (user_store_UpdateLocale id (TrimSpace locale)).
Definition user_ByID (id : uuid) : M User := user_or "user.ByID: byID" (user_store_ByID id).
Definition user_Rename (id : uuid) (name : string) : M unit :=
  let* u := user_or "user.Rename: byID" (user_store_ByID id) in
  match User_Rename u name with inl e => st_err (EUser e) | inr u => save_or "user.Rename: save" u end.
End UserService.

(** ** Invites *)
(** What the acceptance knows of a user. *)
Record UserRef := mkUserRef { rf_ID : uuid; rf_Email : string; rf_Name : string; rf_Source : string }.
Record AcceptResult := mkAccept { ac_Invite : Invite; ac_User : UserRef; ac_Membership : Membership }.
(** [userStoreForInvite] and [orgStoreForInvite] ([internal/boot/shims.go]): the fields a
    projection leaves out are stored as their zero values. *)
Definition user_ref (u : User) : UserRef := mkUserRef (usr_ID u) (usr_Email u) (usr_Name u) (usr_Source u).
Definition user_of_ref (r : UserRef) : User := mkUser (rf_ID r) (rf_Email r) (rf_Name r) (rf_Source r) "" "" "" false "" None zero_Time.
Definition member_ref (orgID userID : uuid) (role : Role) : Membership := mkMembership orgID userID role zero_Time false.
Definition defaultName (email : string) : string :=
  match IndexByte email "@" with Some (S at_) => substring 0 (S at_) email | _ => email end.
Definition SourceInvite : string := "invite".

Section InviteService.
Context `{Env, Unicode, Folding, MailAddresses, Mailer, RandRead, Deployment}.

(** [nanoid.NewInviteToken], whose hash is computed again where it is stored. *)
Definition NewInviteToken : M string :=
  let* n := tick in
  let* pool := st_sum (rand_Read n (2 * invite_token_len)) in
  st_ret (nanoid_of invite_token_len pool).
Definition mailer_Send (m : Mail) : M unit :=
  let* n := tick in
  let failure := mail_answer n m in
  send (Mailed m failure) ;;;
  match failure with Some msg => st_err (EText msg) | None => st_ret tt end.
(** [New] draws its id once the role and the email pass. *)
Definition draw_invite (orgID : uuid) (email : string) (role : Role) (ttl : Z) (token : string) (now : Z) : M Invite :=
  match Invite_New uuid_Nil orgID email role ttl token now with
  | inl e => st_err (EInvite e)
  | inr i =>
    let* id := NewV7 in
    st_ret (mkInvite id (iv_OrgID i) (iv_Email i) (iv_Role i) (iv_TokenHash i) (iv_ExpiresAt i) (iv_UsedAt i) (iv_CreatedAt i))
  end.
Definition refuse_with {A} (r : InviteError + A) : M A := match r with inl e => st_err (EInvite e) | inr a => st_ret a end.
(** A failure said twice: in the message and around the cause. *)
Definition masked_as {A} (op : string) (m : M A) : M A :=
  let* r := st_try m in match r with inl e => unexpected op (EWrap op e) | inr a => st_ret a end.
Definition Send_Execute (cx : Ctx) (email : string) (role : Role) (ttl : Z) : M Invite :=
  let* tc := from_tenant cx in
  if negb (Role_IsValid role) then st_err (EInvite (InviteInvalidRoleError role)) else
  let* _ := refuse_with (invite_normalizeEmail email) in
  let ttl := if ttl <=? 0 then DefaultTTL else ttl in
  let* raw := masked_as "invite.Send: tokenGen" NewInviteToken in
  let* now := time_Now in
  let* i := draw_invite (OrgID tc) email role ttl raw now in
  masked_as "invite.Send: save" (invite_Save cx i) ;;;
  masked_as "invite.Send: mail" (mailer_Send (invite_mail (TrimRightByte "/" base_URL) raw i)) ;;;
  st_ret i.
Definition invite_Send (cx : Ctx) (email : string) (role : Role) (ttl : Z) : M Invite :=
  if negb invites_enabled
  then st_err (EInvite (InvitesDisabledError "invites require OIDC in selfhosted mode; set YASAKU_OIDC_ISSUER to enable"))
  else Send_Execute cx email role ttl.
Definition HasPendingForEmail (email : string) : M bool :=
  let* r := st_try (FindPendingForEmail email) in
  match r with
  | inl e => unexpected "invite.HasPendingForEmail" e
  | inr l => st_ret (negb (Nat.eqb (List.length l) 0))
  end.

(** Any failure of the lookup is taken for an unknown user. *)
Definition ensureUser (email name : string) : M UserRef :=
  let* r := st_try (E' := Error) (ByEmail email) in
  match r with
  | inr u => st_ret (user_ref u)
  | inl _ =>
    let displayName := TrimSpace name in
    let displayName := if String.eqb displayName "" then defaultName email else displayName in
    let* id := NewV7 in
    let usr := mkUserRef id email displayName SourceInvite in
    masked_as "invite.Accept: user save" (user_Save (user_of_ref usr)) ;;;
    st_ret usr
  end.
Definition Accept_Execute (cx : Ctx) (token email name : string) : M AcceptResult :=
  if String.eqb token "" then st_err (EInvite TokenMismatchError) else
  let* email := refuse_with (invite_normalizeEmail email) in
  let* r := st_try (ByTokenHash (HashToken token)) in
  let* inv :=
    match r with
    | inr inv => st_ret inv
    | inl e =>
      if IsInviteNotFound e then st_err (EInvite TokenMismatchError)
      else unexpected "invite.Accept: byTokenHash" (EWrap "invite.Accept: byTokenHash" e)
    end in
  if negb (EqualFold (iv_Email inv) email) then st_err (EInvite TokenMismatchError) else
  let* now := time_Now in
  let* inv := refuse_with (Consume inv now) in
  let* usr := ensureUser email name in
  let* _ := masked_as "invite.Accept: org lookup" (org_store_ByID (iv_OrgID inv)) in
  let tctx := Into cx (mkTenant (iv_OrgID inv) uuid_Nil (rf_ID usr)) in
  let m := member_ref (iv_OrgID inv) (rf_ID usr) (iv_Role inv) in
  masked_as "invite.Accept: save membership" (SaveMembership m) ;;;
  masked_as "invite.Accept: save invite" (invite_Save tctx inv) ;;;
  st_ret (mkAccept inv usr m).
Definition invite_Accept : Ctx -> string -> string -> string -> M AcceptResult := Accept_Execute.
Definition ListPending (cx : Ctx) : M (list Invite) :=
  let* tc := from_tenant cx in masked_as "invite.ListPending" (invite_store_ListPending cx (OrgID tc)).
Definition invite_or {A} (op : string) (m : M A) : M A :=
  let* r := st_try m in
  match r with inl e => if IsInviteNotFound e then st_err e else unexpected op (EWrap op e) | inr a => st_ret a end.
Definition invite_Revoke (cx : Ctx) (id : uuid) : M unit :=
  let* tc := from_tenant cx in
  let* inv := invite_or "invite.Revoke: byID" (invite_store_ByID cx id) in
  if negb (N.eqb (iv_OrgID inv) (OrgID tc)) then st_err (EInvite (InviteNotFoundError (uuid_String id))) else
  invite_or "invite.Revoke: delete" (invite_store_Delete cx id).
End InviteService.

(** ** Onboarding *)
Section Onboarding.
Context `{Env, Unicode, Folding, Deployment}.

(** The deployment's, once. *)
Definition Required : M bool :=
  let* r := st_try bootstrap_Get in
  match r with
  | inr _ => st_ret false
  | inl e => if IsNotOnboarded e then st_ret true else unexpected "onboard.Required: get" e
  end.
Definition Status : M Bootstrap :=
  let* r := st_try bootstrap_Get in
  match r with
  | inr b => st_ret b
  | inl e => if IsNotOnboarded e then st_err e else unexpected "onboard.Status: get" e
  end.
Definition Complete (by_ : uuid) (method : Method) : M Bootstrap :=
  let* now := time_Now in
  match Bootstrap_New by_ method now with
  | inl e => st_err (EOnboard e)
  | inr b =>
    let* r := st_try (bootstrap_Save b) in
    match r with
    | inl e => if IsAlreadyOnboarded e then st_err e else unexpected "onboard.Complete: save" e
    | inr _ => st_ret b
    end
  end.
(** [bootstrap] of [internal/boot/bootstrap.go]: whether the deployment has been onboarded. *)
Definition boot_bootstrap : M bool :=
  let* required := st_maperr (EWrap "onboard: required") Required in
  let* _ := st_maperr (EWrap "genesis") ReconcileGenesisAdmin in
  st_ret (negb required).

(** *** A signed-in user's, over the ports of [shims.go] *)
Definition onboard_SystemOrg : M Org :=
  let* r := st_try org_store_SystemOrg in
  match r with
  | inl e => if IsOrgNotFound e then st_err (EUser SingletonOrgMissingError) else st_err e
  | inr o => st_ret o
  end.
Definition onboard_invite_Save (cx : Ctx) (i : Invite) : M unit :=
  let* existing := invite_store_ByID cx (iv_ID i) in invite_Save cx (invite_set_used (iv_UsedAt i) existing).
Definition onboard_masked {A} (op : string) (m : M A) : M A :=
  let* r := st_try m in match r with inl e => unexpected op e | inr a => st_ret a end.
Definition pickProject (cx : Ctx) (orgID : uuid) : M uuid :=
  let* l := onboard_masked "user.Onboard: list projects" (project_store_List (WithOrg cx orgID) orgID) in
  st_ret (match l with [] => uuid_Nil | p :: _ => pj_ID p end).
Definition open_invite (now : Z) (i : Invite) : bool := negb (IsUsed i) && negb (iv_ExpiresAt i <? now).
Definition findPendingInvite (cx : Ctx) (orgID : uuid) (userEmail : string) : M (option Invite) :=
  let* l := onboard_masked "user.Onboard: list invites" (invite_store_ListPending (WithOrg cx orgID) orgID) in
  let e := lower_trim userEmail in
  let* now := time_Now in
  st_ret (List.find (fun i => open_invite now i && EqualFold (iv_Email i) e) l).
Definition findAnyPendingInvite (userEmail : string) : M (option Invite) :=
  let* l := onboard_masked "user.Onboard: list invites for email" (FindPendingForEmail (lower_trim userEmail)) in
  let* now := time_Now in
  st_ret (List.find (open_invite now) l).
(** The invite used up, the membership saved, and the project to work in. *)
Definition join (cx : Ctx) (orgID userID : uuid) (inv : Invite) : M (uuid * uuid) :=
  let* now := time_Now in
  onboard_masked "user.Onboard: accept invite" (onboard_invite_Save (WithOrg cx (iv_OrgID inv)) (invite_set_used (Some now) inv)) ;;;
  onboard_masked "user.Onboard: save membership" (SaveMembership (member_ref orgID userID (iv_Role inv))) ;;;
  let* p := pickProject cx orgID in
  st_ret (orgID, p).
Definition onboardSelfhosted (cx : Ctx) (userID : uuid) (userEmail : string) : M (uuid * uuid) :=
  let* r := st_try onboard_SystemOrg in
  match r with
  | inl e =>
    if IsSingletonOrgMissing e then st_err (EUser (SignupRequiredError (uuid_String userID) userEmail))
    else unexpected "user.Onboard: singleton org lookup" e
  | inr o =>
    let* r := st_try (E' := Error) (store_MembershipOf (og_ID o) userID) in
    match r with
    | inr _ => let* p := pickProject cx (og_ID o) in st_ret (og_ID o, p)
    | inl _ =>
      let* inv := findPendingInvite cx (og_ID o) userEmail in
      match inv with
      | None => st_err (EUser (NotInvitedError userEmail))
      | Some inv => join cx (og_ID o) userID inv
      end
    end
  end.
Definition onboardCloud (cx : Ctx) (userID : uuid) (userEmail : string) : M (uuid * uuid) :=
  let* memberships := onboard_masked "user.Onboard: list memberships" (org_store_List userID) in
  match memberships with
  | o :: _ => let* p := pickProject cx (og_ID o) in st_ret (og_ID o, p)
  | [] =>
    let* inv := findAnyPendingInvite userEmail in
    match inv with
    | None => st_err (EUser (SignupRequiredError (uuid_String userID) userEmail))
    | Some inv => join cx (iv_OrgID inv) userID inv
    end
  end.
Definition Onboard (cx : Ctx) (userID : uuid) (userEmail : string) : M (uuid * uuid) :=
  if String.eqb policy_Mode PolicyModeSelfhosted then onboardSelfhosted cx userID userEmail else
  if String.eqb policy_Mode PolicyModeCloud then onboardCloud cx userID userEmail
  else st_err (EText "user: unknown policy mode").
End Onboarding.

(** ** Logging in ([internal/auth]) *)
Section Logins.
Context `{Env, Unicode, Folding, Argon2, RandRead, Deployment}.

Definition Genesis_Configured : bool :=
  negb (String.eqb (TrimSpace genesis_Email) "") && negb (String.eqb genesis_PasswordHash "").
Definition password_ok (hash plain : string) : M bool :=
  match password_Verify hash plain with
  | VerifyOK => st_ret true
  | ErrMismatch | ErrInvalidHash => st_ret false
  | VerifyPanics => st_panic "argon2"
  end.
(** [userStoreForAuth]: what a login saves of a user. *)
Definition auth_user (u : User) : User :=
  mkUser (usr_ID u) (usr_Email u) (usr_Name u) (usr_Source u) "" "" (usr_PasswordHash u) (usr_IsAdmin u) "" None zero_Time.
Definition sourceFor (u : User) : string :=
  if EqualFold (usr_Source u) SourceLocal then SourceLocal else
  if EqualFold (usr_Source u) SourceOIDC then SourceOIDC else SourceGenesis.
Definition principalFromRef (u : User) (src : string) (now : Z) : SessionPrincipal :=
  mkSP (usr_ID u) uuid_Nil (usr_Email u) (usr_Name u) src "" "" [] uuid_Nil uuid_Nil [] false [] (usr_IsAdmin u) (usr_Locale u)
    (usr_TermsAcceptedAt u) now.
Definition login_as (u : User) (src : string) : M SessionPrincipal := let* now := time_Now in st_ret (principalFromRef u src now).
(** The built-in administrator's password, whatever row there is of the address. *)
Definition login_genesis (gotEmail password : string) (u : option User) : M SessionPrincipal :=
  if negb Genesis_Configured then st_err (EAuth InvalidCredentialsError) else
  let wantEmail := lower_trim genesis_Email in
  let* passwordOK := password_ok genesis_PasswordHash password in
  if negb (String.eqb gotEmail wantEmail) || negb passwordOK then st_err (EAuth InvalidCredentialsError) else
  match u with
  | Some u => login_as u SourceGenesis
  | None =>
    let name := let n := TrimSpace genesis_Name in if String.eqb n "" then "Root" else n in
    let* id := NewV7 in
    let u := mkUser id wantEmail name SourceGenesis "" "" "" false "" None zero_Time in
    let* r := st_try (user_Save (auth_user u)) in
    match r with
    | inl e => unexpected "auth.LocalLogin.Execute: save genesis" e
    | inr _ => login_as u SourceGenesis
    end
  end.
Definition LoginLocal (email password : string) : M SessionPrincipal :=
  let gotEmail := lower_trim email in
  if String.eqb gotEmail "" || String.eqb password "" then st_err (EAuth InvalidCredentialsError) else
  let* r := st_try (ByEmail gotEmail) in
  match r with
  | inr u =>
    if negb (String.eqb (usr_PasswordHash u) "") then
      let* ok := password_ok (usr_PasswordHash u) password in
      if ok : bool then login_as u (sourceFor u) else st_err (EAuth InvalidCredentialsError)
    else login_genesis gotEmail password (Some u)
  | inl e =>
    if negb (IsUserNotFound e) then unexpected "auth.LocalLogin.Execute: byEmail" e
    else login_genesis gotEmail password None
  end.

(** [OIDCLogin.Execute]: a typed refusal is passed on, anything else is masked. *)
Definition app_or {A} (op : string) (m : M A) : M A :=
  let* r := st_try m in
  match r with inl e => if is_app e then st_err e else unexpected op e | inr a => st_ret a end.
(** In a selfhosted deployment nobody new signs in without an invite, once it is onboarded. *)
Definition allowSignup (email : string) : M unit :=
  if negb (String.eqb policy_Mode PolicyModeSelfhosted) then st_ret tt else
  let* r := st_try (E' := Error) Required in
  match r with
  | inr true => st_ret tt
  | _ => CheckOIDCSignupEligibility (Some HasPendingForEmail) email
  end.
Definition blank (s : string) : bool := String.eqb (TrimSpace s) "".
Definition LoginOIDC (cx : Ctx) (c : Claims) : M SessionPrincipal :=
  if blank (cl_Issuer c) then st_err (EAuth (OIDCClaimMissingError "iss")) else
  if blank (cl_Subject c) then st_err (EAuth (OIDCClaimMissingError "sub")) else
  if blank (cl_Email c) then st_err (EAuth (OIDCClaimMissingError "email")) else
  app_or "auth.OIDCLogin.Execute: allowSignup" (allowSignup (cl_Email c)) ;;;
  let* u := app_or "auth.OIDCLogin.Execute: ensureFromOIDC" (EnsureFromOIDC c) in
  let* r := st_try (Onboard cx (usr_ID u) (usr_Email u)) in
  let* '(orgID, projectID) :=
    match r with
    | inr res => st_ret res
    | inl e =>
      if IsSignupRequired e then st_ret (uuid_Nil, uuid_Nil) else
      if is_app e then st_err e else unexpected "auth.OIDCLogin.Execute: onboard" e
    end in
  let* now := time_Now in
  st_ret (mkSP (usr_ID u) uuid_Nil (usr_Email u) (usr_Name u) SourceOIDC (cl_Issuer c) (cl_Subject c) [] orgID projectID [] false []
            (usr_IsAdmin u) (usr_Locale u) (usr_TermsAcceptedAt u) now).
End Logins.

(** ** Credentials of an RPC ([internal/platform/authn], [internal/platform/tokens], [internal/user/authn.go]) *)

(** The resource server's verification of a token: what it says, or how it fails. *)
Record Token := mkToken { tk_Issuer : string; tk_Subject : string; tk_Scopes : list string }.
Inductive TokenFailure := TokenExpired | TokenRefused | IssuerDown (text : string).
Class Verifier := token_Verify : nat -> string -> TokenFailure + Token.
Definition SourceToken : string := "token".
Definition token_refusal (f : TokenFailure) : Error :=
  match f with
  | TokenExpired => EToken ExpiredTokenError
  | TokenRefused => EToken (InvalidTokenError "refused by the resource server")
  | IssuerDown text => EAuthnUnavailable (EText text)
  end.

Section Credentials.
Context `{Env, Unicode}.
Definition Authn : Type := Ctx -> string -> M SessionPrincipal.

Definition token_Authenticate `{Verifier} (prefix tokenPrefix : string) : Authn := fun _ raw =>
  match Looks prefix tokenPrefix raw with
  | ShapeJWT | ShapePersonalToken =>
    let* n := tick in
    match token_Verify n raw with
    | inl f => st_err (token_refusal f)
    | inr t =>
      st_ret (mkSP uuid_Nil uuid_Nil "" "" SourceToken (tk_Issuer t) (tk_Subject t) (tk_Scopes t) uuid_Nil uuid_Nil [] false [] false "" None
                zero_Time)
    end
  | _ => st_err (EToken (InvalidTokenError "neither an access token nor a personal token"))
  end.

(** [user.Authenticator] over the stores of [shims.go]. *)
Definition needsIdentity (p : SessionPrincipal) : bool :=
  negb (String.eqb (sp_Source p) SourceAPIKey) && N.eqb (sp_UserID p) uuid_Nil
  && negb (String.eqb (sp_IDPIssuer p) "") && negb (String.eqb (sp_IDPSubject p) "").
Definition identified (p : SessionPrincipal) (u : User) : SessionPrincipal :=
  mkSP (usr_ID u) (sp_KeyID p) (usr_Email u) (usr_Name u) (sp_Source p) (sp_IDPIssuer p) (sp_IDPSubject p) (sp_Scopes p)
    (sp_ActiveOrgID p) (sp_ActiveProjectID p) (sp_ProjectIDs p) (sp_AllProjects p) (sp_ResourceIDs p) (usr_IsAdmin u) (usr_Locale u)
    (match usr_TermsAcceptedAt u with Some t => Some t | None => sp_TermsAcceptedAt p end) (sp_IssuedAt p).
Definition in_tenant (p : SessionPrincipal) (orgID projectID : uuid) : SessionPrincipal :=
  mkSP (sp_UserID p) (sp_KeyID p) (sp_Email p) (sp_Name p) (sp_Source p) (sp_IDPIssuer p) (sp_IDPSubject p) (sp_Scopes p)
    orgID projectID (sp_ProjectIDs p) (sp_AllProjects p) (sp_ResourceIDs p) (sp_IsAdmin p) (sp_Locale p) (sp_TermsAcceptedAt p)
    (sp_IssuedAt p).
Definition pickOrg (orgs : list Org) : uuid := match orgs with [o] => og_ID o | _ => uuid_Nil end.
Definition authn_pickProject (cx : Ctx) (orgID : uuid) : M uuid :=
  let* r := st_try (E' := Error) (project_store_List (WithOrg cx orgID) orgID) in
  st_ret (match r with inr (p :: _) => pj_ID p | _ => uuid_Nil end).
Definition resolveTenant (cx : Ctx) (p : SessionPrincipal) : M SessionPrincipal :=
  if negb (N.eqb (sp_ActiveOrgID p) uuid_Nil) then st_ret p else
  let* orgs := st_maperr EAuthnUnavailable (org_store_List (sp_UserID p)) in
  let orgID := pickOrg orgs in
  if N.eqb orgID uuid_Nil then st_ret p else
  let* projectID := authn_pickProject cx orgID in
  st_ret (in_tenant p orgID projectID).
Definition user_Authenticate (next : Authn) : Authn := fun cx raw =>
  let* p := next cx raw in
  if negb (needsIdentity p) then st_ret p else
  let* r := st_try (ByIDP (sp_IDPIssuer p) (sp_IDPSubject p)) in
  match r with
  | inl e => if IsUserNotFound e then st_err (EAuthn UnauthorizedError) else st_err (EAuthnUnavailable e)
  | inr u => resolveTenant cx (identified p u)
  end.

(** [Chain.Authenticate]: the first success, or else the first outage, or else one opaque refusal. *)
Definition first_unavailable (e : Error) : option Error :=
  List.find (fun x => match x with EAuthnUnavailable _ => true | _ => false end) (chain e).
Fixpoint chain_from (l : list Authn) (outage : option Error) (cx : Ctx) (raw : string) : M SessionPrincipal :=
  match l with
  | [] => match outage with Some e => st_err e | None => st_err (EAuthn UnauthorizedError) end
  | a :: rest =>
    let* r := st_try (a cx raw) in
    match r with
    | inr p => st_ret p
    | inl e => chain_from rest (match outage with Some _ => outage | None => first_unavailable e end) cx raw
    end
  end.
Definition Chain_Authenticate (l : list Authn) : Authn := chain_from l None.

(** [CredentialFromHeader], from the two headers it reads. *)
Definition CredentialFromHeader (authorization apiKey : string) : string :=
  if negb (String.eqb authorization "") then
    if HasPrefix authorization "Bearer " then TrimSpace (TrimPrefix authorization "Bearer ") else
    if HasPrefix authorization "bearer " then TrimSpace (TrimPrefix authorization "bearer ") else ""
  else TrimSpace apiKey.
(** [Interceptor]: a procedure outside the table is refused to all but a session. *)
Definition SessionOnly : string := "session-only".
Definition Interceptor {A} (c : Authn) (table : string -> option string) (procedure authorization apiKey : string) (cx : Ctx)
    (next : SessionPrincipal -> M A) : M A :=
  let raw := CredentialFromHeader authorization apiKey in
  if String.eqb raw "" then st_err (EAuthn UnauthorizedError) else
  let* p := c cx raw in
  if isSession (sp_Source p) then next p else
  match table procedure with
  | None => st_err (EAuthn (InsufficientScopeError ""))
  | Some want =>
    if String.eqb want SessionOnly then st_err (EAuthn SessionRequiredError) else
    if existsb (String.eqb want) (sp_Scopes p) then next p else st_err (EAuthn (InsufficientScopeError want))
  end.

(** [boot]'s chain: the key's authenticator first, with the usage queue it was given; then
    the token's, with its local user. *)
Definition boot_chain `{Verifier, KeyMembers} (sc : Scheme) (tokenPrefix : string) (usage : Pending) : list Authn :=
  [ (fun cx raw => let* '(p, _) := Authenticate sc cx raw usage in st_ret (of_key p));
    user_Authenticate (token_Authenticate (Prefix sc) tokenPrefix) ].
End Credentials.
