(* ===== verification/OutboxTheory.v ===== *)
(** * The outbox as a state machine

    The abstract life of one entry, and that every statement of the store moves
    every entry along it. *)
From Stdlib Require Import ZArith Lia String List.
From stdpp Require Import base gmap list strings relations sorting.
From S2P Require Import Prelude GoStrings Errors Tenant Outbox World Wp OutboxStore.
Local Open Scope string_scope.
Local Open Scope Z_scope.

(** ** The abstract machine *)

(** One entry's moves: a claim or a reap of an expired lease, a settle, a requeue. *)
Inductive row_step : OutboxRow -> OutboxRow -> Prop :=
| step_claim now r : row_status r = StatusPending -> row_attempt r < MaxAttempts -> row_due r <= now ->
    row_step r (set_claimed now r)
| step_reap now r : row_status r = StatusPending -> MaxAttempts <= row_attempt r -> row_due r <= now ->
    row_step r (set_reaped r)
| step_deliver at_ r : row_status r = StatusPending -> row_step r (set_delivered at_ r)
| step_fail retryAt cause r : row_status r = StatusPending -> row_step r (set_failed_try retryAt cause r)
| step_requeue now r : row_status r = StatusFailed -> row_step r (set_requeued now r).

(** A row as [Enqueue] writes it. *)
Definition born (id : uuid) (r : OutboxRow) : Prop :=
  ob_ID (or_entry r) = id /\ row_status r = StatusPending /\ row_attempt r = 0 /\ or_DeliveredAt r = None
  /\ ob_LastError (or_entry r) = "" /\ id <> uuid_Nil /\ ob_EventID (or_entry r) <> uuid_Nil
  /\ row_org r <> uuid_Nil /\ ob_ProjectID (or_entry r) <> uuid_Nil
  /\ (0 < String.length (row_target r) <= 255)%nat.

Inductive entry_step (id : uuid) : option OutboxRow -> option OutboxRow -> Prop :=
| es_born r : born id r -> entry_step id None (Some r)
| es_move r r' : row_step r r' -> entry_step id (Some r) (Some r').

(** The primary key and the unique key of the table. *)
Definition keyed (db : DB) : Prop := forall id r, db_outbox db !! id = Some r -> ob_ID (or_entry r) = id.
Definition unique_keys (db : DB) : Prop := forall i j a b,
  db_outbox db !! i = Some a -> db_outbox db !! j = Some b -> same_key (or_entry a) (or_entry b) = true -> i = j.
Definition outbox_wf (db : DB) : Prop := keyed db /\ unique_keys db.

(** Every entry moves along the machine, and the keys stay keys. *)
Definition outbox_step (db db' : DB) : Prop :=
  outbox_wf db ->
  outbox_wf db' /\ forall id, rtc (entry_step id) (db_outbox db !! id) (db_outbox db' !! id).

#[export] Instance outbox_step_pre : PreOrder outbox_step.
Proof.
  split.
  - intros db Hw. split; [exact Hw|]. intros id. apply rtc_refl.
  - intros a b c Hab Hbc Hw. destruct (Hab Hw) as [Hb H1]. destruct (Hbc Hb) as [Hc H2].
    split; [exact Hc|]. intros id. etransitivity; eauto.
Qed.

(** A step that leaves the table alone. *)
Lemma outbox_step_same db db' : db_outbox db' = db_outbox db -> outbox_step db db'.
Proof.
  intros E [Hk Hu]. unfold outbox_wf, keyed, unique_keys. rewrite E. split; [split; assumption|].
  intros id. apply rtc_refl.
Qed.

(** ** What a row keeps *)

(** The columns no statement writes again. *)
Definition identity (r : OutboxRow) : Entry :=
  or_entry (set_state 0 0 "" "" None r).
Lemma identity_set_state a d s l t r : identity (set_state a d s l t r) = identity r.
Proof. reflexivity. Qed.
Lemma row_step_identity r r' : row_step r r' -> identity r' = identity r.
Proof. destruct 1; reflexivity. Qed.
Lemma same_key_identity a a' b b' :
  identity a = identity a' -> identity b = identity b' ->
  same_key (or_entry a) (or_entry b) = same_key (or_entry a') (or_entry b').
Proof.
  unfold identity, set_state, same_key. intros Ha Hb. injection Ha; injection Hb; intros; congruence.
Qed.
Lemma same_key_sym a b : same_key a b = true -> same_key b a = true.
Proof.
  unfold same_key. rewrite !andb_true_iff, !N.eqb_eq, !String.eqb_eq. intros [[? ?] ?]. auto.
Qed.

(** ** Updates *)

Lemma lookup_update (p : OutboxRow -> bool) (f : OutboxRow -> OutboxRow) db id :
  db_outbox (set_outbox ((fun r => if p r then f r else r) <$> db_outbox db) db) !! id
  = (fun r => if p r then f r else r) <$> db_outbox db !! id.
Proof. cbn. apply lookup_fmap. Qed.

(** An update of rows that each make one step is a step of the table. *)
Lemma update_step (p : OutboxRow -> bool) (f : OutboxRow -> OutboxRow) db :
  (keyed db -> forall id r, db_outbox db !! id = Some r -> p r = true -> row_step r (f r)) ->
  outbox_step db (set_outbox ((fun r => if p r then f r else r) <$> db_outbox db) db).
Proof.
  intros Hp [Hk Hu]. specialize (Hp Hk).
  assert (Hid : forall id r, db_outbox db !! id = Some r -> identity (if p r then f r else r) = identity r).
  { intros id r Hr. destruct (p r) eqn:E; [apply row_step_identity; eauto | reflexivity]. }
  split; [split|].
  - intros id r. rewrite lookup_update. intros (r0 & Hr & ->)%fmap_Some.
    pose proof (Hid _ _ Hr) as Hi. apply (f_equal ob_ID) in Hi. cbn in Hi. rewrite Hi. eauto.
  - intros i j a b. rewrite !lookup_update. intros (a0 & Ha & ->)%fmap_Some (b0 & Hb & ->)%fmap_Some.
    rewrite (same_key_identity _ a0 _ b0) by eauto; eauto.
  - intros id. rewrite lookup_update. destruct (db_outbox db !! id) as [r|] eqn:E; cbn; [|apply rtc_refl].
    destruct (p r) eqn:Ep; [apply rtc_once; constructor; eauto | apply rtc_refl].
Qed.

Lemma update_where_step p f db db' n :
  (forall r, p r = true -> row_step r (f r)) -> update_where p f db = inr (db', n) -> outbox_step db db'.
Proof. intros Hp [= <- _]. apply update_step. eauto. Qed.

(** ** The statements *)

Ltac split_where :=
  unfold exhaustedRow, dueRow, claimedRow, failedRow, failedOf, pendingIn in *;
  rewrite ?andb_true_iff, ?N.eqb_eq, ?String.eqb_eq, ?Z.leb_le, ?Z.ltb_lt, ?Z.eqb_eq in *;
  destruct_and?; eauto.

Lemma reap_rows tc now r : exhaustedRow tc now r = true -> row_step r (set_reaped r).
Proof. intros. split_where. econstructor; eauto. Qed.
Lemma due_rows tc now r : dueRow tc now r = true -> row_step r (set_claimed now r).
Proof. intros. split_where. constructor; auto. Qed.
Lemma deliver_rows tc e at_ r : claimedRow tc e r = true -> row_step r (set_delivered at_ r).
Proof. intros. split_where. constructor; auto. Qed.
Lemma fail_rows tc e retryAt cause r : claimedRow tc e r = true -> row_step r (set_failed_try retryAt cause r).
Proof. intros. split_where. constructor; auto. Qed.
Lemma requeue_rows tc id target now r : failedRow tc id target r = true -> row_step r (set_requeued now r).
Proof. intros. split_where. constructor; auto. Qed.
Lemma requeue_all_rows tc target now r : failedOf tc target r = true -> row_step r (set_requeued now r).
Proof. intros. split_where. constructor; auto. Qed.

Lemma In_firstn {A} (x : A) n l : In x (firstn n l) -> In x l.
Proof. intros Hx. rewrite <- (firstn_skipn n l), in_app_iff. auto. Qed.

Lemma due_ids_In tc now limit db i :
  In i (due_ids tc now limit db) ->
  exists r, In r (rows (db_outbox db)) /\ ob_ID (or_entry r) = i /\ dueRow tc now r = true.
Proof.
  unfold due_ids. rewrite in_map_iff. intros (r & <- & Hr%In_firstn).
  apply In_sort_by, List.filter_In in Hr as [Hin Hd]. eauto.
Qed.
(** A claim takes due rows. *)
Lemma claims_row_due tc now limit db id r :
  keyed db -> db_outbox db !! id = Some r -> claims_row tc now limit db r = true -> dueRow tc now r = true.
Proof.
  intros Hk Hr. unfold claims_row. rewrite andb_true_iff, existsb_exists. intros [_ (i & Hi & Ei)].
  apply N.eqb_eq in Ei. apply due_ids_In in Hi as (r' & Hin & Hid & Hd).
  apply rows_In in Hin as (j & Hj). pose proof (Hk _ _ Hr). pose proof (Hk _ _ Hj). congruence.
Qed.

Lemma insert_step row db db' n :
  born (ob_ID (or_entry row)) row -> outbox_insert row db = inr (db', n) -> outbox_step db db'.
Proof.
  intros Hb. unfold outbox_insert. destruct (existsb _ _) eqn:Ec; [intros [= <- _]; reflexivity|].
  destruct (db_outbox db !! ob_ID (or_entry row)) eqn:El; [discriminate|].
  destruct (_ && _)%bool; [|discriminate]. intros [= <- _] [Hk Hu].
  assert (Hc : forall i r, db_outbox db !! i = Some r -> same_key (or_entry r) (or_entry row) = false).
  { intros i r Hr. apply not_true_iff_false. intros E. apply not_true_iff_false in Ec. apply Ec.
    apply existsb_exists. exists r. split; [apply rows_In; eauto | exact E]. }
  split; [split|].
  - intros id r. cbn. rewrite lookup_insert_Some. intros [[<- <-]|[_ Hr]]; eauto.
  - intros i j a b. cbn. rewrite !lookup_insert_Some. intros [[<- <-]|[Hi Ha]] [[<- <-]|[Hj Hbb]] E; auto.
    + apply same_key_sym in E. rewrite (Hc _ _ Hbb) in E. discriminate.
    + rewrite (Hc _ _ Ha) in E. discriminate.
    + eauto.
  - intros id. cbn. destruct (decide (ob_ID (or_entry row) = id)) as [<-|Hne].
    + rewrite lookup_insert_eq, El. apply rtc_once. constructor. exact Hb.
    + rewrite lookup_insert_ne by exact Hne. apply rtc_refl.
Qed.

(** ** The operations, whatever other sessions commit that is itself such a step *)
Section Operations.
Context `{Env}.
Hypothesis rely : forall n db, outbox_step db (env_other n db).

Lemma on_conn_step {A} cx (m : M A) :
  preserves (on_db outbox_step) m -> preserves (on_db outbox_step) (on_conn cx m).
Proof.
  intros Hm. unfold on_conn. destruct (cx_tx cx); [exact Hm|].
  apply preserves_bind; [apply _ | apply pres_others, rely | auto].
Qed.
Lemma exec_update_step op p f :
  (forall r, p r = true -> row_step r (f r)) ->
  preserves (on_db outbox_step) (st_maperr (EWrap op) (exec_stmt (update_where p f))).
Proof.
  intros Hp. apply preserves_maperr, pres_exec_stmt; [exact _|].
  intros db db' n. apply update_where_step, Hp.
Qed.

Lemma claim_stmt_step tc now limit : preserves (on_db outbox_step) (claim_stmt tc now limit).
Proof.
  unfold claim_stmt. apply preserves_bind; [apply _ | apply preserves_maperr, pres_driver_call; exact _|].
  intros _ w. unfold on_db, st_bind; cbn. apply update_step. intros Hk id r Hr Hc.
  eapply due_rows, claims_row_due; eauto.
Qed.
Lemma ClaimDue_step cx now limit : preserves (on_db outbox_step) (outbox_ClaimDue cx now limit).
Proof.
  unfold outbox_ClaimDue, reapExhausted. pres_go rely;
    apply on_conn_step; [apply exec_update_step, reap_rows | apply claim_stmt_step].
Qed.
Lemma on_query_step {A} cx op (q : DB -> A) : preserves (on_db outbox_step) (on_conn cx (query op q)).
Proof. apply on_conn_step, pres_query. exact _. Qed.
Lemma settle_step cx tc e p f :
  (forall r, p r = true -> row_step r (f r)) -> preserves (on_db outbox_step) (settle cx tc e (update_where p f)).
Proof.
  intros Hp. unfold settle, refuseReason. pres_go rely; try apply on_query_step.
  apply on_conn_step, exec_update_step, Hp.
Qed.
Lemma Succeed_step cx e at_ : preserves (on_db outbox_step) (outbox_Succeed cx e at_).
Proof. unfold outbox_Succeed. apply pres_with_tenant; [exact _|]. intros. apply settle_step, deliver_rows. Qed.
Lemma Fail_step cx e retryAt cause : preserves (on_db outbox_step) (outbox_Fail cx e retryAt cause).
Proof. unfold outbox_Fail. apply pres_with_tenant; [exact _|]. intros. apply settle_step, fail_rows. Qed.
Lemma Requeue_step cx id target : preserves (on_db outbox_step) (outbox_Requeue cx id target).
Proof.
  unfold outbox_Requeue, refuseRequeue. pres_go rely; try apply on_query_step.
  apply on_conn_step, exec_update_step. intros r. apply requeue_rows.
Qed.
Lemma RequeueFailed_step cx target : preserves (on_db outbox_step) (outbox_RequeueFailed cx target).
Proof.
  unfold outbox_RequeueFailed. pres_go rely. apply on_conn_step, exec_update_step.
  intros r. apply requeue_all_rows.
Qed.
Lemma ByID_step cx id target : preserves (on_db outbox_step) (outbox_ByID cx id target).
Proof. unfold outbox_ByID. pres_go rely; apply on_query_step. Qed.
Lemma ListByTarget_step cx target limit : preserves (on_db outbox_step) (outbox_ListByTarget cx target limit).
Proof. unfold outbox_ListByTarget. pres_go rely; apply on_query_step. Qed.

Lemma validate_inv e :
  Entry_validate e = None ->
  ob_ID e <> uuid_Nil /\ ob_EventID e <> uuid_Nil /\ ob_OrgID e <> uuid_Nil /\ ob_ProjectID e <> uuid_Nil
  /\ (0 < String.length (ob_Target e) <= 255)%nat /\ (ob_Status e = "" \/ ob_Status e = StatusPending).
Proof.
  unfold Entry_validate, MaxTargetLen.
  repeat match goal with |- context [N.eqb ?a ?b] => destruct (N.eqb_spec a b); [discriminate|] end.
  destruct (String.eqb_spec (ob_Target e) ""); [discriminate|].
  destruct (Z.ltb_spec 255 (Z.of_nat (String.length (ob_Target e)))); [discriminate|].
  destruct (String.eqb_spec (ob_Status e) ""); [|destruct (String.eqb_spec (ob_Status e) StatusPending); [|discriminate]];
    intros _; repeat (split; [assumption|]); (split; [|auto]);
    destruct (ob_Target e); cbn in *; congruence || lia.
Qed.
Lemma Enqueue_step cx e : preserves (on_db outbox_step) (outbox_Enqueue cx e).
Proof.
  unfold outbox_Enqueue. destruct (Entry_validate e) eqn:Ev; [apply preserves_err; exact _|].
  apply validate_inv in Ev as (? & ? & ? & ? & ? & ?). pres_go rely.
  apply on_conn_step, preserves_maperr, pres_exec_stmt; [exact _|]. intros db db' n.
  apply insert_step. repeat split; cbn; tauto || lia.
Qed.

#[local] Opaque outbox_Succeed outbox_Fail outbox_ClaimDue.
Context `{Sweeping, Deliverer}.
Hypothesis deliver_rely : forall cx e, preserves (on_db outbox_step) (Deliver cx e).

Lemma ctx_Err_step : preserves (on_db outbox_step) ctx_Err.
Proof. intros w. unfold on_db; cbn. reflexivity. Qed.
Lemma tick_step : preserves (on_db outbox_step) (@tick Error).
Proof. apply pres_tick. exact _. Qed.
Lemma deliverOne_step cx e : preserves (on_db outbox_step) (deliverOne cx e).
Proof.
  unfold deliverOne. pres_go rely;
    first [apply deliver_rely | apply Succeed_step | apply Fail_step | apply tick_step].
Qed.
Lemma deliver_all_step cx es : preserves (on_db outbox_step) (deliver_all cx es).
Proof.
  induction es as [|e es IH]; cbn [deliver_all]; [apply preserves_ret; exact _|].
  apply preserves_bind; [exact _ | apply ctx_Err_step|]. intros [|]; [apply preserves_ret; exact _|].
  apply preserves_bind; [exact _ | | intros; exact IH].
  apply preserves_bind; [exact _ | apply ctx_Err_step|]. intros [|]; [apply preserves_ret; exact _|].
  apply deliverOne_step.
Qed.
Lemma drain_step batch cx : preserves (on_db outbox_step) (drain batch cx).
Proof. unfold drain. pres_go rely; [apply ClaimDue_step | apply deliver_all_step]. Qed.
Lemma sweep_step batch cx : preserves (on_db outbox_step) (sweep batch cx).
Proof.
  assert (Ho : forall ids, preserves (on_db outbox_step) (drain_orgs batch cx ids)).
  { induction ids as [|i ids IH]; cbn [drain_orgs]; [apply preserves_ret; exact _|].
    apply preserves_bind; [exact _ | apply drain_step | intros _].
    apply preserves_bind; [exact _ | apply ctx_Err_step|].
    intros [|]; [apply preserves_ret; exact _ | exact IH]. }
  unfold sweep. apply preserves_bind; [exact _ | apply preserves_try | intros [?|?]; [apply preserves_ret; exact _ | apply Ho]].
  unfold OrgIDs. apply preserves_bind; [exact _ | apply pres_others, rely | intros _; apply pres_query; exact _].
Qed.
Lemma Run_step ticks opts cx : preserves (on_db outbox_step) (worker_Run ticks opts cx).
Proof.
  induction ticks as [|n IH]; cbn [worker_Run]; [apply preserves_ret; exact _|].
  apply preserves_bind; [exact _ | apply ctx_Err_step|]. intros [|]; [apply preserves_ret; exact _|].
  apply preserves_bind; [exact _ | apply sweep_step | intros _; exact IH].
Qed.
End Operations.

(** ** Settling a claim

    The answer of a settle as a function of the table, and that [Succeed] and
    [Fail] compute it. *)
(** ** Statements on one row of a keyed table *)

Lemma set_outbox_id db : set_outbox (db_outbox db) db = db.
Proof. destruct db; reflexivity. Qed.

Section OneRow.
Context (db : DB) (id : uuid) (p : OutboxRow -> bool).
Hypothesis keyed_db : keyed db.
Hypothesis p_id : forall r, p r = true -> ob_ID (or_entry r) = id.

Lemma one_row_false i r : db_outbox db !! i = Some r -> i <> id -> p r = false.
Proof. intros Hr Hi. apply not_true_iff_false. intros Ep. pose proof (keyed_db _ _ Hr). pose proof (p_id _ Ep). congruence. Qed.

Lemma one_row_filter :
  List.filter p (rows (db_outbox db))
  = match db_outbox db !! id with Some r => if p r then [r] else [] | None => [] end.
Proof.
  destruct (db_outbox db !! id) as [r|] eqn:E.
  - assert (HP : rows (db_outbox db) ≡ₚ r :: rows (base.delete id (db_outbox db))).
    { rewrite <- (insert_delete_id (db_outbox db) id r E) at 1. apply rows_insert, lookup_delete_eq. }
    apply (filter_perm p) in HP. cbn [List.filter] in HP.
    rewrite (filter_none p (rows (base.delete id (db_outbox db)))) in HP.
    + destruct (p r); [apply Permutation_singleton_r in HP | apply Permutation_nil_r in HP]; exact HP.
    + intros x (j & Hj)%rows_In. rewrite lookup_delete_Some in Hj. destruct Hj as [Hne Hj].
      eapply one_row_false; eauto.
  - apply filter_none. intros x (j & Hj)%rows_In. eapply one_row_false; [exact Hj|]. congruence.
Qed.
Lemma one_row_find :
  List.find p (rows (db_outbox db))
  = match db_outbox db !! id with Some r => if p r then Some r else None | None => None end.
Proof.
  rewrite (find_filter p). rewrite one_row_filter.
  destruct (db_outbox db !! id) as [r|]; [destruct (p r)|]; reflexivity.
Qed.
Lemma one_row_update (f : OutboxRow -> OutboxRow) :
  update_where p f db = inr
    match db_outbox db !! id with
    | Some r => if p r then (set_outbox (<[id := f r]> (db_outbox db)) db, 1%nat) else (db, 0%nat)
    | None => (db, 0%nat)
    end.
Proof.
  unfold update_where. rewrite one_row_filter.
  assert (E : (fun r => if p r then f r else r) <$> db_outbox db
    = match db_outbox db !! id with Some r => if p r then <[id := f r]> (db_outbox db) else db_outbox db
      | None => db_outbox db end).
  { apply map_eq. intros i. rewrite lookup_fmap. destruct (decide (i = id)) as [->|Hi].
    - destruct (db_outbox db !! id) as [r|] eqn:E; [destruct (p r) eqn:Ep|]; cbn;
        rewrite ?Ep, ?lookup_insert_eq, ?E; reflexivity.
    - assert (Hf : (fun r => if p r then f r else r) <$> db_outbox db !! i = db_outbox db !! i).
      { destruct (db_outbox db !! i) as [r|] eqn:E; [cbn; rewrite (one_row_false _ _ E Hi)|]; reflexivity. }
      rewrite Hf. destruct (db_outbox db !! id) as [r|]; [destruct (p r)|]; [|reflexivity ..].
      rewrite lookup_insert_ne by congruence. reflexivity. }
  rewrite E. destruct (db_outbox db !! id) as [r|]; [destruct (p r)|]; rewrite ?set_outbox_id; reflexivity.
Qed.
End OneRow.

(** ** The answer of a settle *)

Definition settle_verdict (tc : Tenant) (e : Entry) (db : DB) : Outcome Error unit :=
  let id := uuid_String (ob_ID e) in
  match db_outbox db !! ob_ID e with
  | None => Err (EOutbox (OutboxNotFoundError id))
  | Some r =>
    if negb (N.eqb (row_org r) (OrgID tc)) then Err (EOutbox (OutboxNotFoundError id)) else
    if negb (String.eqb (row_status r) StatusPending) then Err (EOutbox (TerminalStateError id (row_status r))) else
    if row_attempt r =? ob_Attempt e then Ok tt
    else Err (EOutbox (StaleClaimError id (ob_Attempt e) (row_attempt r)))
  end.
(** The table after a settle that writes [f]. *)
Definition settled (tc : Tenant) (e : Entry) (f : OutboxRow -> OutboxRow) (db : DB) : DB :=
  match settle_verdict tc e db, db_outbox db !! ob_ID e with
  | Ok _, Some r => set_outbox (<[ob_ID e := f r]> (db_outbox db)) db
  | _, _ => db
  end.

(** [m] computes [o] and [db'] from [db], unless the driver fails it and nothing changes. *)
Definition computes `{Env} {A} (m : M A) (db : DB) (o : Outcome Error A) (db' : DB) : Prop :=
  wp m db (fun o' d => (o' = o /\ d = db') \/ (~ faultless /\ d = db /\ exists x, o' = Err x /\ infra x)).

Section Settle.
Context `{Env}.

Lemma wp_on_conn {A} cx (m : M A) db Q : calm cx -> wp m db Q -> wp (on_conn cx m) db Q.
Proof.
  intros Hc Hm. unfold on_conn. destruct (cx_tx cx) eqn:Ex; [exact Hm|].
  apply wp_bind, wp_others; [destruct Hc; congruence || assumption | exact Hm].
Qed.

Lemma settle_computes cx tc e f db :
  calm cx -> keyed db ->
  computes (settle cx tc e (update_where (claimedRow tc e) f)) db (settle_verdict tc e db) (settled tc e f db).
Proof.
  intros Hc Hk. unfold computes, settle. apply wp_bind, wp_on_conn; [exact Hc|]. apply wp_maperr, wp_exec_stmt.
  2: { intros Hf msg. right. split; [exact Hf|]. split; [reflexivity|]. eexists. split; [reflexivity|]. reflexivity. }
  rewrite (one_row_update db (ob_ID e)); [|exact Hk | intros r; unfold claimedRow; rewrite !andb_true_iff, !N.eqb_eq; tauto].
  assert (HR : (forall r, db_outbox db !! ob_ID e = Some r -> claimedRow tc e r = false) ->
    wp (refuseReason cx tc e) db (fun o' d => (o' = settle_verdict tc e db /\ d = settled tc e f db)
      \/ (~ faultless /\ d = db /\ exists x, o' = Err x /\ infra x))).
  { intros Hno. unfold refuseReason. apply wp_bind, wp_on_conn; [exact Hc|]. apply wp_query.
    2: { intros Hf msg. right. split; [exact Hf|]. split; [reflexivity|]. eexists. split; [reflexivity|]. reflexivity. }
    rewrite (one_row_find db (ob_ID e)); [|exact Hk | intros r; rewrite andb_true_iff, !N.eqb_eq; tauto].
    unfold settled, settle_verdict. destruct (db_outbox db !! ob_ID e) as [r|] eqn:E.
    2: { apply wp_err. auto. }
    specialize (Hno r eq_refl). pose proof (Hk _ _ E) as Hi. unfold claimedRow in Hno. rewrite Hi, N.eqb_refl in *.
    rewrite !andb_true_r in Hno. rewrite andb_true_r.
    destruct (N.eqb (row_org r) (OrgID tc)) eqn:Eo; cbn [andb negb] in *; [|apply wp_err; auto].
    destruct (String.eqb (row_status r) StatusPending) eqn:Es; cbn [andb negb] in *; [|apply wp_err; auto].
    rewrite Hno. apply wp_err. auto. }
  destruct (db_outbox db !! ob_ID e) as [r|] eqn:E; [destruct (claimedRow tc e r) eqn:Ec|]; cbn [Nat.ltb Nat.leb].
  - apply wp_ret. left. unfold settled, settle_verdict. rewrite E. unfold claimedRow in Ec.
    rewrite !andb_true_iff in Ec. destruct Ec as [[[-> _] ->] ->]. auto.
  - apply HR. intros ? [= <-]. exact Ec.
  - apply HR. discriminate.
Qed.

Lemma computes_tenant {A} cx tc (k : Tenant -> M A) db o db' :
  From_ cx = inr tc -> computes (k tc) db o db' -> computes (let* tc := from_tenant cx in k tc) db o db'.
Proof. intros F Hk. unfold computes. apply wp_bind, (wp_from_tenant _ tc); [exact F | exact Hk]. Qed.
Lemma Succeed_computes cx tc e at_ db :
  calm cx -> keyed db -> From_ cx = inr tc ->
  computes (outbox_Succeed cx e at_) db (settle_verdict tc e db) (settled tc e (set_delivered at_) db).
Proof. intros Hc Hk F. apply (computes_tenant _ tc _ _ _ _ F), settle_computes; assumption. Qed.
Lemma Fail_computes cx tc e retryAt cause db :
  calm cx -> keyed db -> From_ cx = inr tc ->
  computes (outbox_Fail cx e retryAt cause) db (settle_verdict tc e db) (settled tc e (set_failed_try retryAt cause) db).
Proof. intros Hc Hk F. apply (computes_tenant _ tc _ _ _ _ F), settle_computes; assumption. Qed.
End Settle.

(** ** Claims and their leases

    What one [ClaimDue] takes, and that no other takes it while the lease lasts. *)
(** The ids of a list of entries, and of a table's rows. *)
Definition entry_ids (es : list Entry) : list uuid := map ob_ID es.

Lemma rows_ids db : keyed db -> map (fun r => ob_ID (or_entry r)) (rows (db_outbox db)) = map fst (map_to_list (db_outbox db)).
Proof.
  intros Hk. unfold rows. rewrite map_map. apply map_ext_in. intros [i r] Hin. cbn.
  apply Hk. apply elem_of_map_to_list, list_elem_of_In, Hin.
Qed.
Lemma rows_ids_NoDup db : keyed db -> NoDup (map (fun r => ob_ID (or_entry r)) (rows (db_outbox db))).
Proof. intros Hk. rewrite rows_ids by exact Hk. apply NoDup_fst_map_to_list. Qed.
Lemma filter_map_NoDup {A B} (g : A -> B) (p : A -> bool) l : NoDup (map g l) -> NoDup (map g (List.filter p l)).
Proof.
  induction l as [|x l IH]; cbn; [auto|]. rewrite NoDup_cons. intros [Hx Hl]. destruct (p x); cbn; [|auto].
  apply NoDup_cons. split; [|auto]. intros Hin. apply Hx. rewrite list_elem_of_In, in_map_iff in Hin |- *.
  destruct Hin as (y & <- & Hy%List.filter_In). exists y. tauto.
Qed.

(** What the claim statement hands out: the claimed rows, each once. *)
Definition claimed_entries (tc : Tenant) (now limit : Z) (db : DB) : list Entry :=
  map (fun r => or_entry (set_claimed now r)) (List.filter (claims_row tc now limit db) (rows (db_outbox db))).
Definition claimed_db (tc : Tenant) (now limit : Z) (db : DB) : DB :=
  set_outbox ((fun r => if claims_row tc now limit db r then set_claimed now r else r) <$> db_outbox db) db.

Lemma claimed_entries_In tc now limit db e :
  keyed db -> In e (claimed_entries tc now limit db) ->
  exists r, db_outbox db !! ob_ID e = Some r /\ dueRow tc now r = true /\ e = or_entry (set_claimed now r)
    /\ db_outbox (claimed_db tc now limit db) !! ob_ID e = Some (set_claimed now r).
Proof.
  intros Hk. unfold claimed_entries. rewrite in_map_iff. intros (r & <- & [Hin Hc]%List.filter_In).
  apply rows_In in Hin as (i & Hi). pose proof (Hk _ _ Hi) as Hid. exists r. cbn.
  rewrite Hid. split; [exact Hi|]. split; [eapply claims_row_due; eauto|]. split; [reflexivity|].
  rewrite lookup_fmap, Hi. cbn. rewrite Hc. reflexivity.
Qed.
Lemma claimed_entries_NoDup tc now limit db : keyed db -> NoDup (entry_ids (claimed_entries tc now limit db)).
Proof.
  intros Hk. unfold entry_ids, claimed_entries. rewrite map_map.
  change (NoDup (map (fun r => ob_ID (or_entry r)) (List.filter (claims_row tc now limit db) (rows (db_outbox db))))).
  apply filter_map_NoDup, rows_ids_NoDup, Hk.
Qed.
Lemma claim_stmt_wp `{Env} tc now limit db Q :
  Q (Ok (claimed_entries tc now limit db)) (claimed_db tc now limit db) ->
  (~ faultless -> forall msg, Q (Err (EWrap "outbox.sqlite.ClaimDue" (ESqlite OtherCode msg))) db) ->
  wp (claim_stmt tc now limit) db Q.
Proof.
  intros HQ HF. unfold claim_stmt. apply wp_bind, wp_maperr, wp_driver_call; [|exact HF].
  apply wp_bind, wp_get_db. apply wp_bind, wp_put_db, wp_ret, HQ.
Qed.

(** ** The order and the size of a batch *)

Lemma dueRow_org tc now r : dueRow tc now r = true -> N.eqb (row_org r) (OrgID tc) = true.
Proof. unfold dueRow, pendingIn. rewrite !andb_true_iff. tauto. Qed.
(** In a keyed table the claim takes exactly the rows its subquery selects. *)
Lemma claim_length tc now limit db : keyed db ->
  List.length (claimed_entries tc now limit db) = List.length (due_ids tc now limit db).
Proof.
  intros Hk. unfold claimed_entries. rewrite length_map.
  rewrite <- (length_map (fun r => ob_ID (or_entry r))). apply Permutation_length, NoDup_Permutation.
  - apply filter_map_NoDup, rows_ids_NoDup, Hk.
  - unfold due_ids. rewrite <- firstn_map. eapply sublist_NoDup; [|apply sublist_take].
    eapply NoDup_Permutation_proper; [apply Permutation_map, sort_by_perm|].
    apply filter_map_NoDup, rows_ids_NoDup, Hk.
  - intros i. rewrite !list_elem_of_In, in_map_iff. split.
    + intros (r & <- & [_ Hc]%List.filter_In). unfold claims_row in Hc. apply andb_prop in Hc as [_ Hc].
      apply existsb_exists in Hc as (j & Hj & ->%N.eqb_eq). exact Hj.
    + intros Hi. destruct (due_ids_In _ _ _ _ _ Hi) as (r & Hin & <- & Hd). exists r. split; [reflexivity|].
      apply List.filter_In. split; [exact Hin|]. unfold claims_row.
      rewrite (dueRow_org _ _ _ Hd). apply existsb_exists. eauto using N.eqb_refl.
Qed.
Lemma claim_size tc now limit db : keyed db ->
  Z.of_nat (List.length (claimed_entries tc now limit db)) <= claimBatch limit.
Proof.
  intros Hk. rewrite (claim_length _ _ _ _ Hk). unfold due_ids. rewrite length_map.
  pose proof (firstn_le_length (Z.to_nat (claimBatch limit))
    (sort_by (fun a b => row_due a <=? row_due b) (List.filter (dueRow tc now) (rows (db_outbox db))))).
  pose proof (clampLimit_bounds limit MaxClaimLimit). unfold claimBatch, MaxClaimLimit in *. lia.
Qed.

(** A due row the claim passes over: the batch is full of entries due no later. *)
Lemma claim_passed_over tc now limit db id r :
  keyed db -> db_outbox db !! id = Some r -> dueRow tc now r = true -> claims_row tc now limit db r = false ->
  Z.of_nat (List.length (due_ids tc now limit db)) = claimBatch limit
  /\ forall id' r', db_outbox db !! id' = Some r' -> claims_row tc now limit db r' = true -> row_due r' <= row_due r.
Proof.
  intros Hk Hr Hd Hc. set (le := fun a b => row_due a <=? row_due b).
  set (s := sort_by le (List.filter (dueRow tc now) (rows (db_outbox db)))).
  assert (Hin : In r s) by (apply In_sort_by, List.filter_In; split; [apply rows_In; eauto | exact Hd]).
  assert (Hno : ~ In r (firstn (Z.to_nat (claimBatch limit)) s)).
  { intros Hf. apply not_true_iff_false in Hc. apply Hc. unfold claims_row.
    rewrite (dueRow_org _ _ _ Hd). apply existsb_exists. eexists. split; [|apply N.eqb_refl].
    unfold due_ids. apply in_map_iff. exists r. split; [reflexivity | exact Hf]. }
  rewrite <- (firstn_skipn (Z.to_nat (claimBatch limit)) s) in Hin. apply in_app_iff in Hin as [Hin|Hin]; [tauto|].
  pose proof (clampLimit_bounds limit MaxClaimLimit) as Hb. unfold MaxClaimLimit in Hb.
  split.
  - unfold due_ids. rewrite length_map. fold le. fold s. rewrite length_firstn.
    assert (skipn (Z.to_nat (claimBatch limit)) s <> []) by (intros X; rewrite X in Hin; destruct Hin).
    assert (Z.to_nat (claimBatch limit) < List.length s)%nat.
    { destruct (Nat.lt_ge_cases (Z.to_nat (claimBatch limit)) (List.length s)); [assumption|].
      rewrite skipn_all2 in * by lia. congruence. }
    unfold claimBatch, MaxClaimLimit in *. lia.
  - intros id' r' Hr' Hc'. unfold claims_row in Hc'. apply andb_prop in Hc' as [_ Hc'].
    apply existsb_exists in Hc' as (j & Hj & Ej%N.eqb_eq).
    unfold due_ids in Hj. apply in_map_iff in Hj as (x & Ex & Hx).
    assert (x = r').
    { apply In_firstn, In_sort_by, List.filter_In in Hx as [Hx _]. apply rows_In in Hx as (k & Hx).
      pose proof (Hk _ _ Hx). pose proof (Hk _ _ Hr'). congruence. }
    subst x.
    assert (Hsrt : StronglySorted (fun a b => le a b = true) s).
    { apply sort_by_sorted; unfold le; intros *; rewrite !Z.leb_le; lia. }
    rewrite <- (firstn_skipn (Z.to_nat (claimBatch limit)) s) in Hsrt.
    apply StronglySorted_app in Hsrt as (Hs & _ & _). fold le in Hx. fold s in Hx.
    apply Z.leb_le, (Hs r' r); apply list_elem_of_In; assumption.
Qed.

(** ** Leases *)

(** The entry [id] is out of reach of every claim before [t + ClaimLease]. *)
Definition leased (t : Z) (db : DB) (id : uuid) : Prop :=
  exists r, db_outbox db !! id = Some r /\ t + ClaimLease <= row_due r.
(** Leases are respected, and the primary key with them. *)
Definition lease_step (t : Z) (db db' : DB) : Prop :=
  keyed db -> keyed db' /\ forall id, leased t db id -> leased t db' id.
#[export] Instance lease_step_pre t : PreOrder (lease_step t).
Proof.
  split; [intros db Hk; auto|]. intros a b c Hab Hbc Hk. destruct (Hab Hk) as [Hb H1].
  destruct (Hbc Hb) as [Hc H2]. auto.
Qed.
(** An update that keeps ids and brings no due time forward before the lease. *)
Lemma update_lease t (p : OutboxRow -> bool) (f : OutboxRow -> OutboxRow) db :
  (forall r, p r = true -> ob_ID (or_entry (f r)) = ob_ID (or_entry r)) ->
  (forall r, p r = true -> t + ClaimLease <= row_due r -> t + ClaimLease <= row_due (f r)) ->
  lease_step t db (set_outbox ((fun r => if p r then f r else r) <$> db_outbox db) db).
Proof.
  intros Hid Hd Hk. split.
  - intros id r. rewrite lookup_update. intros (r0 & Hr & ->)%fmap_Some.
    rewrite <- (Hk _ _ Hr). destruct (p r0) eqn:E; auto.
  - intros id (r & Hr & Hdue). exists (if p r then f r else r). rewrite lookup_update, Hr. split; [reflexivity|].
    destruct (p r) eqn:E; auto.
Qed.

Section Leases.
Context `{Env} (t : Z).
Hypothesis rely : forall n db, lease_step t db (env_other n db).

Lemma wp_on_conn_rely {A} cx (m : M A) db (Q : Outcome Error A -> DB -> Prop) :
  (forall db1, lease_step t db db1 -> wp m db1 Q) -> wp (on_conn cx m) db Q.
Proof.
  intros Hm. unfold on_conn. destruct (cx_tx cx); [apply Hm; reflexivity|].
  apply wp_bind, wp_others_rely. intros n. apply Hm, rely.
Qed.

(** A claim while the lease lasts takes entries that were not leased, and leases them. *)
Lemma ClaimDue_lease cx now limit db :
  t <= now < t + ClaimLease -> keyed db ->
  wp (outbox_ClaimDue cx now limit) db (fun o db' => lease_step t db db' /\
    match o with
    | Ok es => NoDup (entry_ids es) /\ forall id, id ∈ entry_ids es -> ~ leased t db id /\ leased t db' id
    | _ => True
    end).
Proof.
  intros Hnow Hk. unfold outbox_ClaimDue, from_tenant. destruct (From_ cx) as [e|tc].
  { apply wp_bind, wp_err. split; [reflexivity | exact I]. }
  apply wp_bind, wp_ret. unfold reapExhausted. apply wp_bind, wp_bind, wp_on_conn_rely. intros db1 S1.
  apply wp_maperr, wp_exec_stmt; [|intros; split; [exact S1 | exact I]]. unfold update_where.
  set (db2 := set_outbox _ db1). apply wp_ret.
  assert (S2 : lease_step t db db2).
  { etransitivity; [exact S1|]. apply update_lease; [reflexivity | auto]. }
  clearbody db2. clear S1 db1. apply wp_on_conn_rely. intros db3 S3.
  assert (S4 : lease_step t db db3) by (etransitivity; eauto). destruct (S4 Hk) as [Hk3 HL].
  apply claim_stmt_wp; [|intros; split; [exact S4 | exact I]].
  split.
  - etransitivity; [exact S4|]. apply update_lease; [reflexivity|]. intros r _ _. cbn. lia.
  - split; [apply claimed_entries_NoDup, Hk3|]. intros id Hin.
    unfold entry_ids in Hin. apply list_elem_of_In, in_map_iff in Hin as (e & <- & He).
    apply claimed_entries_In in He as (r & Hr & Hd & He & Hr'); [|exact Hk3]. split.
    + intros Hl. apply HL in Hl as (r0 & Hr0 & Hdue). rewrite Hr in Hr0. simplify_eq.
      unfold dueRow in Hd. rewrite !andb_true_iff, Z.leb_le in Hd. lia.
    + eexists. split; [exact Hr'|]. cbn. lia.
Qed.
End Leases.

(** Dispatchers that claim one after the other: the ids each takes. *)
Fixpoint claim_run `{Env} (calls : list (Ctx * Z * Z)) (w : World) : list uuid :=
  match calls with
  | [] => []
  | (cx, now, limit) :: calls' =>
    let r := outbox_ClaimDue cx now limit w in
    match fst r with Ok es => entry_ids es | _ => [] end ++ claim_run calls' (snd r)
  end.

Lemma claim_run_fresh `{Env} t (rely : forall n db, lease_step t db (env_other n db)) calls w :
  keyed (W_db w) -> Forall (fun c => t <= snd (fst c) < t + ClaimLease) calls ->
  NoDup (claim_run calls w) /\ forall id, id ∈ claim_run calls w -> ~ leased t (W_db w) id.
Proof.
  revert w. induction calls as [|[[cx now] limit] calls IH]; intros w Hk Hc; cbn [claim_run].
  { split; [constructor | intros id Hin; inversion Hin]. }
  inversion Hc as [|? ? Hnow Hcs]; subst. cbn in Hnow.
  destruct (ClaimDue_lease t rely cx now limit (W_db w) Hnow Hk w eq_refl) as [S Ho].
  destruct (S Hk) as [Hk' HL]. destruct (IH (snd (outbox_ClaimDue cx now limit w)) Hk' Hcs) as [HN HF].
  destruct (fst (outbox_ClaimDue cx now limit w)) as [es|e|p]; cbn [app];
    [|split; [exact HN | intros id Hin Hl; exact (HF id Hin (HL id Hl))] ..].
  destruct Ho as [HNe Hes]. split.
  - apply NoDup_app. split; [exact HNe|]. split; [|exact HN]. intros id Hin Hin'.
    apply (HF id Hin'), Hes, Hin.
  - intros id [Hin|Hin]%elem_of_app Hl; [apply (Hes id Hin), Hl | exact (HF id Hin (HL id Hl))].
Qed.
