(* ===== verification/OutboxDrain.v ===== *)
(** * One drain of the worker, and several

    With no fault, no other session and a context that is not done, a drain takes
    every due entry of its organisation through one attempt. *)
From Stdlib Require Import ZArith Lia String List.
From stdpp Require Import base gmap list strings relations.
From S2P Require Import Prelude GoStrings Errors Tenant Outbox World Wp OutboxStore OutboxTheory.
Local Open Scope string_scope.
Local Open Scope Z_scope.

(** A row after an attempt to deliver the entry [e]. *)
Definition attempted (e : Entry) (r : OutboxRow) : Prop :=
  identity r = identity (mkOutboxRow e None)
  /\ (Status_Terminal (row_status r) = true
      \/ (row_status r = StatusPending /\ row_attempt r = ob_Attempt e /\ ob_Attempt e < MaxAttempts)).
(** The entry [e] is held by its claim. *)
Definition held (tc : Tenant) (db : DB) (e : Entry) : Prop :=
  exists r, db_outbox db !! ob_ID e = Some r /\ or_entry r = e /\ pendingIn tc r = true.

Section Drain.
Context `{Env, Sweeping, Deliverer}.
Hypothesis quiet_env : quiet.
Hypothesis no_faults : faultless.
Hypothesis not_done : forall n, sw_done n = false.
(** A delivery returns, with or without an error, and leaves the outbox alone. *)
Hypothesis deliver_returns : forall cx e w,
  db_outbox (W_db (snd (Deliver cx e w))) = db_outbox (W_db w) /\ forall p, fst (Deliver cx e w) <> Panic p.

(** What the deliveries are accepted under, which they keep and the outbox does not touch. *)
Variable setting : DB -> Prop.
Hypothesis setting_outbox : forall m db, setting db -> setting (set_outbox m db).
Hypothesis setting_deliver : forall cx e w, setting (W_db w) -> setting (W_db (snd (Deliver cx e w))).

(** The deliveries of an entry with these columns are all accepted. *)
Definition accepted (tc : Tenant) (x : Entry) : Prop := forall cx e w,
  From_ cx = inr tc -> setting (W_db w) -> identity (mkOutboxRow e None) = x -> fst (Deliver cx e w) = Ok tt.

Lemma computes_ok {A} (m : M A) db o db' : computes m db o db' -> wp m db (fun o' d => o' = o /\ d = db').
Proof. intros Hm. eapply wp_conseq; [exact Hm|]. intros o' d [HQ|[Hf _]]; [exact HQ | destruct (Hf no_faults)]. Qed.

Lemma held_settled tc db e f :
  held tc db e ->
  settle_verdict tc e db = Ok tt /\
  exists r, or_entry r = e /\ row_status r = StatusPending
    /\ settled tc e f db = set_outbox (<[ob_ID e := f r]> (db_outbox db)) db.
Proof.
  intros (r & Hr & He & Hp). unfold pendingIn in Hp. rewrite andb_true_iff, N.eqb_eq, String.eqb_eq in Hp.
  destruct Hp as [Ho Hs]. unfold settled, settle_verdict. rewrite Hr, Ho, N.eqb_refl, Hs, String.eqb_refl.
  cbn [negb]. unfold row_attempt. rewrite He, Z.eqb_refl. split; [reflexivity|]. exists r. auto.
Qed.

Lemma keyed_insert db id r : keyed db -> ob_ID (or_entry r) = id -> keyed (set_outbox (<[id := r]> (db_outbox db)) db).
Proof. intros Hk Hid i x. cbn. rewrite lookup_insert_Some. intros [[<- <-]|[_ Hx]]; eauto. Qed.
Lemma same_outbox_keyed db db' : db_outbox db' = db_outbox db -> keyed db -> keyed db'.
Proof. unfold keyed. intros ->. auto. Qed.

(** What a delivery leaves: the entry attempted, every other row as it was. *)
Definition delivered_once (tc : Tenant) (e : Entry) (tbl tbl' : gmap uuid OutboxRow) : Prop :=
  (forall id, id <> ob_ID e -> tbl' !! id = tbl !! id)
  /\ exists r, tbl' !! ob_ID e = Some r /\ attempted e r
       /\ (accepted tc (identity (mkOutboxRow e None)) -> row_status r = StatusDelivered).

Lemma settled_setting tc e f db : setting db -> setting (settled tc e f db).
Proof.
  intros Hs. unfold settled. destruct (settle_verdict tc e db); [|exact Hs ..].
  destruct (db_outbox db !! ob_ID e); [apply setting_outbox|]; exact Hs.
Qed.
Lemma settled_once tc e f db :
  keyed db -> held tc db e ->
  (forall r, or_entry r = e -> attempted e (f r)
     /\ (accepted tc (identity (mkOutboxRow e None)) -> row_status (f r) = StatusDelivered)) ->
  keyed (settled tc e f db) /\ delivered_once tc e (db_outbox db) (db_outbox (settled tc e f db)).
Proof.
  intros Hk Hh Hf. destruct (held_settled tc db e f Hh) as (_ & r & He & Hs & ->).
  destruct (Hf r He) as [Ha Hacc]. split; [|split].
  - apply keyed_insert; [exact Hk|]. destruct Ha as [Hi _]. exact (f_equal ob_ID Hi).
  - intros id Hne. cbn. apply lookup_insert_ne. congruence.
  - exists (f r). cbn. rewrite lookup_insert_eq. auto.
Qed.
Lemma wp_settled {A} (m : M unit) (k : M A) tc e f db (Q : Outcome Error A -> DB -> Prop) :
  held tc db e -> computes m db (settle_verdict tc e db) (settled tc e f db) ->
  wp k (settled tc e f db) Q -> wp (let* _ := st_try (E' := Error) m in k) db Q.
Proof.
  intros Hh Hm Hk. apply wp_bind, wp_try. eapply wp_conseq; [apply computes_ok, Hm|].
  intros o d [-> ->]. rewrite (proj1 (held_settled tc db e f Hh)). exact Hk.
Qed.
Lemma set_delivered_attempted at_ e r : or_entry r = e -> attempted e (set_delivered at_ r).
Proof. intros <-. split; [reflexivity | left; reflexivity]. Qed.
Lemma set_failed_attempted retryAt cause e r : or_entry r = e -> attempted e (set_failed_try retryAt cause r).
Proof.
  intros <-. split; [reflexivity|]. cbn. unfold row_attempt.
  destruct (Z.leb_spec MaxAttempts (ob_Attempt (or_entry r))); [left; reflexivity | right; auto].
Qed.

(** One delivery settles the entry it holds and touches no other row. *)
Lemma deliverOne_wp cx tc e db :
  From_ cx = inr tc -> keyed db -> setting db -> held tc db e ->
  wp (deliverOne cx e) db
    (fun o db' => o = Ok tt /\ keyed db' /\ setting db' /\ delivered_once tc e (db_outbox db) (db_outbox db')).
Proof.
  intros F Hk HI Hh. unfold deliverOne. apply wp_bind, wp_try.
  intros w <-. destruct (deliver_returns cx e w) as [Eo Hp].
  pose proof (fun Ha : accepted tc (identity (mkOutboxRow e None)) => Ha cx e w F HI eq_refl) as Hacc.
  pose proof (setting_deliver cx e w HI) as HI1.
  destruct (Deliver cx e w) as [[u|err|p] w1]; cbn in *; [| |destruct (Hp p eq_refl)].
  all: assert (Hk1 : keyed (W_db w1)) by exact (same_outbox_keyed _ _ Eo Hk).
  all: assert (Hh1 : held tc (W_db w1) e) by (unfold held; rewrite Eo; exact Hh).
  all: rewrite <- Eo; apply wp_bind, wp_time_Now; intros n.
  2: apply wp_bind, wp_tick; intros k.
  - eapply (wp_settled _ _ tc); [exact Hh1 | apply Succeed_computes; [right; exact quiet_env | exact Hk1 | exact F]|].
    apply wp_ret. split; [reflexivity|].
    apply and_comm, and_assoc. split; [apply settled_setting, HI1|]. apply and_comm, settled_once; [exact Hk1 | exact Hh1|].
    intros r He. split; [apply set_delivered_attempted, He | reflexivity].
  - eapply (wp_settled _ _ tc); [exact Hh1 | apply Fail_computes; [right; exact quiet_env | exact Hk1 | exact F]|].
    apply wp_ret. split; [reflexivity|].
    apply and_comm, and_assoc. split; [apply settled_setting, HI1|]. apply and_comm, settled_once; [exact Hk1 | exact Hh1|].
    intros r He. split; [apply set_failed_attempted, He | intros Ha; specialize (Hacc Ha); discriminate].
Qed.

(** The batch: every held entry attempted, every other row as it was. *)
Lemma deliver_all_wp cx tc es db :
  From_ cx = inr tc -> keyed db -> setting db -> NoDup (entry_ids es) -> Forall (held tc db) es ->
  wp (deliver_all cx es) db (fun o db' => o = Ok tt /\ keyed db' /\ setting db'
    /\ (forall id, id ∉ entry_ids es -> db_outbox db' !! id = db_outbox db !! id)
    /\ forall e, In e es -> exists r, db_outbox db' !! ob_ID e = Some r /\ attempted e r
         /\ (accepted tc (identity (mkOutboxRow e None)) -> row_status r = StatusDelivered)).
Proof.
  intros F. revert db. induction es as [|e es IH]; intros db Hk HI Hn Hh; cbn [deliver_all].
  { apply wp_ret. repeat split; auto. intros e []. }
  inversion Hn as [|? ? Hni Hn']; subst. inversion Hh as [|? ? He Hes]; subst.
  unfold ctx_Err. apply wp_bind, wp_bind, wp_tick. intros n. apply wp_ret. rewrite not_done.
  apply wp_bind, wp_bind, wp_bind, wp_tick. intros k. apply wp_ret. rewrite not_done.
  eapply wp_conseq; [apply (deliverOne_wp cx tc); assumption|]. intros o d (-> & Hk' & HI' & Hother & r & Hr & Hatt & Hacc).
  assert (Hne : forall e', In e' es -> ob_ID e' <> ob_ID e).
  { intros e' Hin E. apply Hni. rewrite <- E. apply list_elem_of_In, in_map, Hin. }
  eapply wp_conseq; [apply IH; [exact Hk' | exact HI' | exact Hn' |]|].
  { rewrite List.Forall_forall in Hes |- *. intros e' Hin. unfold held. rewrite (Hother _ (Hne e' Hin)). apply Hes, Hin. }
  cbn. intros o d' (-> & Hk'' & HI'' & Ho & Hin). split; [reflexivity|]. split; [exact Hk''|]. split; [exact HI''|]. split.
  - intros id Hid. apply not_elem_of_cons in Hid as [Hid1 Hid2]. rewrite (Ho _ Hid2). apply Hother, Hid1.
  - intros e' [<-|He']; [|apply Hin, He']. exists r. rewrite (Ho _ Hni). auto.
Qed.

(** *** The claim *)

Lemma rows_fmap (f : OutboxRow -> OutboxRow) (m : gmap uuid OutboxRow) : rows (f <$> m) ≡ₚ map f (rows m).
Proof.
  unfold rows. rewrite (map_to_list_fmap f m).
  change (map snd (map (prod_map (fun x => x) f) (map_to_list m)) ≡ₚ map f (map snd (map_to_list m))).
  rewrite !map_map. reflexivity.
Qed.
Lemma filter_map_length {A} (p q : A -> bool) (f : A -> A) l :
  (forall x, p (f x) = true -> q x = true) ->
  (List.length (List.filter p (map f l)) <= List.length (List.filter q l))%nat.
Proof.
  intros Hpq. induction l as [|x l IH]; cbn; [lia|]. specialize (Hpq x).
  destruct (p (f x)), (q x); cbn; lia.
Qed.
(** A batch large enough passes over no due row. *)
Lemma claim_all_due tc now limit db id r :
  Z.of_nat (List.length (List.filter (dueRow tc now) (rows (db_outbox db)))) <= claimBatch limit ->
  db_outbox db !! id = Some r -> claims_row tc now limit db r = false -> dueRow tc now r = false.
Proof.
  intros Hl Hr Hc. apply not_true_iff_false. intros Hd. apply not_true_iff_false in Hc. apply Hc.
  unfold claims_row. rewrite (dueRow_org _ _ _ Hd). apply existsb_exists. eexists. split; [|apply N.eqb_refl].
  unfold due_ids. apply in_map_iff. exists r. split; [reflexivity|]. rewrite firstn_all2.
  - apply In_sort_by, List.filter_In. split; [apply rows_In; eauto | exact Hd].
  - pose proof (sort_by_perm (fun a b => row_due a <=? row_due b) (List.filter (dueRow tc now) (rows (db_outbox db)))) as HP.
    apply Permutation_length in HP. lia.
Qed.

Definition reaped_db (tc : Tenant) (now : Z) (db : DB) : DB :=
  set_outbox ((fun r => if exhaustedRow tc now r then set_reaped r else r) <$> db_outbox db) db.

Lemma pending_reap tc now r :
  pendingIn tc (if exhaustedRow tc now r then set_reaped r else r) = true -> pendingIn tc r = true /\ exhaustedRow tc now r = false.
Proof.
  destruct (exhaustedRow tc now r) eqn:E; [|auto]. unfold pendingIn; cbn. rewrite andb_false_r. discriminate.
Qed.
Lemma reap_due_count tc now db :
  (List.length (List.filter (dueRow tc now) (rows (db_outbox (reaped_db tc now db))))
   <= List.length (List.filter (pendingIn tc) (rows (db_outbox db))))%nat.
Proof.
  cbn. rewrite (Permutation_length (filter_perm (dueRow tc now) _ _ (rows_fmap _ _))).
  apply filter_map_length. intros r Hd. unfold dueRow in Hd. rewrite !andb_true_iff in Hd.
  destruct Hd as [[Hp _] _]. apply (pending_reap tc now r Hp).
Qed.
Lemma ClaimDue_wp cx tc now limit db :
  From_ cx = inr tc ->
  wp (outbox_ClaimDue cx now limit) db (fun o db' =>
    o = Ok (claimed_entries tc now limit (reaped_db tc now db))
    /\ db' = claimed_db tc now limit (reaped_db tc now db)).
Proof.
  intros F. assert (Hc : calm cx) by (right; exact quiet_env).
  unfold outbox_ClaimDue, reapExhausted. apply wp_bind, (wp_from_tenant _ tc); [exact F|].
  apply wp_bind, wp_bind, wp_on_conn; [exact Hc|]. apply wp_maperr, wp_exec_stmt; [|intros Hf; destruct (Hf no_faults)].
  unfold update_where. apply wp_ret. apply wp_on_conn; [exact Hc|].
  apply claim_stmt_wp; [auto | intros Hf; destruct (Hf no_faults)].
Qed.

Lemma claimed_entry tc now limit db id r :
  keyed db -> db_outbox db !! id = Some r -> claims_row tc now limit db r = true ->
  In (or_entry (set_claimed now r)) (claimed_entries tc now limit db).
Proof.
  intros Hk Hr Hc. unfold claimed_entries. apply in_map_iff. exists r. split; [reflexivity|].
  apply List.filter_In. split; [apply rows_In; eauto | exact Hc].
Qed.
(** The reap leaves the due rows alone. *)
Lemma reaped_due tc now db id r :
  db_outbox (reaped_db tc now db) !! id = Some r -> dueRow tc now r = true -> db_outbox db !! id = Some r.
Proof.
  unfold reaped_db. rewrite lookup_update. intros (r0 & Hr & ->)%fmap_Some Hd.
  unfold dueRow in Hd. rewrite !andb_true_iff in Hd. destruct Hd as [[Hp _] _].
  destruct (pending_reap _ _ _ Hp) as [_ Hx]. rewrite Hx. exact Hr.
Qed.
Lemma due_reaped tc now db id r :
  db_outbox db !! id = Some r -> dueRow tc now r = true -> db_outbox (reaped_db tc now db) !! id = Some r.
Proof.
  intros Hr Hd. unfold reaped_db. rewrite lookup_update, Hr. cbn.
  unfold dueRow, exhaustedRow in *. rewrite !andb_true_iff, Z.ltb_lt in Hd. destruct Hd as [[-> Ha] ->].
  apply Z.leb_gt in Ha. rewrite Ha. reflexivity.
Qed.

(** The batch one claim takes. *)
Lemma claim_batch tc now limit db :
  keyed db ->
  let db' := claimed_db tc now limit (reaped_db tc now db) in
  exists es, Ok (claimed_entries tc now limit (reaped_db tc now db)) = @Ok Error _ es
    /\ NoDup (entry_ids es) /\ Z.of_nat (List.length es) <= claimBatch limit
    /\ (forall e, In e es -> exists r, db_outbox db !! ob_ID e = Some r /\ dueRow tc now r = true
         /\ e = or_entry (set_claimed now r) /\ db_outbox db' !! ob_ID e = Some (set_claimed now r))
    /\ (forall id r, db_outbox db !! id = Some r -> dueRow tc now r = true -> id ∉ entry_ids es ->
         db_outbox db' !! id = Some r /\ Z.of_nat (List.length es) = claimBatch limit
         /\ forall e, In e es -> exists r', db_outbox db !! ob_ID e = Some r' /\ row_due r' <= row_due r).
Proof.
  intros Hk db'. assert (Hk1 : keyed (reaped_db tc now db)).
  { intros id r. unfold reaped_db. rewrite lookup_update. intros (r0 & Hr & ->)%fmap_Some.
    rewrite <- (Hk _ _ Hr). destruct (exhaustedRow tc now r0); reflexivity. }
  eexists. split; [reflexivity|]. split; [apply claimed_entries_NoDup, Hk1|].
  split; [apply claim_size, Hk1|]. split.
  - intros e He. apply claimed_entries_In in He as (r & Hr & Hd & He & Hr'); [|exact Hk1].
    exists r. split; [exact (reaped_due _ _ _ _ _ Hr Hd)|]. auto.
  - intros id r Hr Hd Hni. pose proof (due_reaped _ _ _ _ _ Hr Hd) as Hr1.
    destruct (claims_row tc now limit (reaped_db tc now db) r) eqn:Ec.
    { exfalso. apply Hni. unfold entry_ids. rewrite <- (Hk _ _ Hr).
      exact (proj2 (list_elem_of_In _ _) (in_map ob_ID _ _ (claimed_entry _ _ _ _ _ _ Hk1 Hr1 Ec))). }
    destruct (claim_passed_over _ _ _ _ _ _ Hk1 Hr1 Hd Ec) as [Hfull Hold]. split; [|split].
    + unfold db', claimed_db. rewrite lookup_update, Hr1. cbn. rewrite Ec. reflexivity.
    + rewrite <- Hfull. f_equal. apply claim_length, Hk1.
    + intros e He. assert (Hc := He). unfold claimed_entries in Hc. apply in_map_iff in Hc as (r' & <- & [Hin Hc]%List.filter_In).
      apply rows_In in Hin as (i & Hi). pose proof (Hk1 _ _ Hi) as Hid. exists r'. cbn. rewrite Hid.
      split; [exact (reaped_due _ _ _ _ _ Hi (claims_row_due _ _ _ _ _ _ Hk1 Hi Hc)) | eapply Hold; eauto].
Qed.

(** *** One drain *)

(** What one drain does to a row of the table. *)
Definition round (tc : Tenant) (o o' : option OutboxRow) : Prop :=
  match o with
  | None => o' = None
  | Some r =>
    if pendingIn tc r
    then exists r', o' = Some r' /\ identity r' = identity r
      /\ (Status_Terminal (row_status r') = true
          \/ (row_status r' = StatusPending /\ row_attempt r' = row_attempt r + 1 /\ row_attempt r' < MaxAttempts))
      /\ (accepted tc (identity r) -> row_attempt r < MaxAttempts -> row_status r' = StatusDelivered)
    else o' = Some r
  end.

Lemma claimed_held tc now limit db :
  keyed db -> Forall (held tc (claimed_db tc now limit db)) (claimed_entries tc now limit db).
Proof.
  intros Hk. apply List.Forall_forall. intros e He.
  apply claimed_entries_In in He as (r & Hr & Hd & -> & Hr'); [|exact Hk].
  exists (set_claimed now r). split; [exact Hr'|]. split; [reflexivity|].
  unfold dueRow in Hd. rewrite !andb_true_iff in Hd. apply Hd.
Qed.
Lemma unclaimed_entry tc now limit db id r :
  keyed db -> db_outbox db !! id = Some r -> claims_row tc now limit db r = false ->
  id ∉ entry_ids (claimed_entries tc now limit db).
Proof.
  intros Hk Hr Hc Hin. unfold entry_ids, claimed_entries in Hin. rewrite map_map in Hin.
  apply list_elem_of_In, in_map_iff in Hin as (r' & E & [Hin Hc']%List.filter_In). cbn in E.
  apply rows_In in Hin as (j & Hj). pose proof (Hk _ _ Hj). congruence.
Qed.

Lemma reaped_keyed tc now db : keyed db -> keyed (reaped_db tc now db).
Proof.
  intros Hk id r. unfold reaped_db. rewrite lookup_update. intros (r0 & Hr & ->)%fmap_Some.
  rewrite <- (Hk _ _ Hr). destruct (exhaustedRow tc now r0); reflexivity.
Qed.
Lemma claimed_keyed tc now limit db : keyed db -> keyed (claimed_db tc now limit db).
Proof.
  intros Hk id r. unfold claimed_db. rewrite lookup_update. intros (r0 & Hr & ->)%fmap_Some.
  rewrite <- (Hk _ _ Hr). destruct (claims_row tc now limit db r0); reflexivity.
Qed.

(** One row, through the reap, the claim and the deliveries. *)
Lemma round_row tc now limit db db' id :
  keyed db ->
  Z.of_nat (List.length (List.filter (pendingIn tc) (rows (db_outbox db)))) <= claimBatch limit ->
  (forall i r, db_outbox db !! i = Some r -> pendingIn tc r = true -> row_due r <= now) ->
  let db1 := reaped_db tc now db in
  let es := claimed_entries tc now limit db1 in
  (forall i, i ∉ entry_ids es -> db_outbox db' !! i = db_outbox (claimed_db tc now limit db1) !! i) ->
  (forall e, In e es -> exists r, db_outbox db' !! ob_ID e = Some r /\ attempted e r
     /\ (accepted tc (identity (mkOutboxRow e None)) -> row_status r = StatusDelivered)) ->
  round tc (db_outbox db !! id) (db_outbox db' !! id).
Proof.
  intros Hk Hn Hdue db1 es Ho He. unfold round.
  assert (Hk1 : keyed db1) by apply reaped_keyed, Hk.
  destruct (db_outbox db !! id) as [r|] eqn:E.
  2: { rewrite Ho.
       - unfold claimed_db. rewrite lookup_update. unfold db1, reaped_db. rewrite lookup_update, E. reflexivity.
       - intros Hin. unfold entry_ids in Hin. apply list_elem_of_In, in_map_iff in Hin as (e & Ei & Hin).
         apply claimed_entries_In in Hin as (r & Hr & _); [|exact Hk1]. subst id.
         unfold db1, reaped_db in Hr. rewrite lookup_update, E in Hr. discriminate. }
  assert (E1 : db_outbox db1 !! id = Some (if exhaustedRow tc now r then set_reaped r else r))
    by (unfold db1, reaped_db; rewrite lookup_update, E; reflexivity).
  set (r1 := if exhaustedRow tc now r then set_reaped r else r) in *.
  destruct (claims_row tc now limit db1 r1) eqn:Ec.
  - pose proof (claims_row_due _ _ _ _ _ _ Hk1 E1 Ec) as Hd. unfold dueRow in Hd. rewrite !andb_true_iff in Hd.
    destruct Hd as [[Hp Ha] _]. destruct (pending_reap _ _ _ Hp) as [Hp0 Hx]. unfold r1 in *. rewrite Hx in *.
    rewrite Hp0. destruct (He _ (claimed_entry _ _ _ _ _ _ Hk1 E1 Ec)) as (r' & Hr' & [Hi Hatt] & Hacc).
    cbn in Hr', Hi, Hatt, Hacc. rewrite (Hk _ _ E) in Hr'. exists r'. split; [exact Hr'|].
    split; [exact Hi|]. split; [|auto]. destruct Hatt as [Ht|(Hs & Hat & Hlt)]; [auto|]. right.
    rewrite Hs, Hat. auto.
  - rewrite Ho by (eapply unclaimed_entry; eauto). unfold claimed_db. rewrite lookup_update, E1. cbn. rewrite Ec.
    assert (Hnd : dueRow tc now r1 = false).
    { eapply claim_all_due; [|exact E1 | exact Ec]. pose proof (reap_due_count tc now db). unfold db1. lia. }
    destruct (pendingIn tc r) eqn:Hp.
    + specialize (Hdue _ _ E Hp). destruct (exhaustedRow tc now r) eqn:Hx; unfold r1 in *.
      * exists (set_reaped r). split; [reflexivity|]. split; [reflexivity|]. split; [left; reflexivity|].
        intros _ Ha. unfold exhaustedRow in Hx. rewrite !andb_true_iff, Z.leb_le in Hx. lia.
      * exfalso. unfold dueRow, exhaustedRow in *. rewrite Hp in *. cbn [andb] in *.
        destruct (Z.leb_spec (row_due r) now); [|lia]. rewrite andb_true_r in *.
        rewrite Z.ltb_ge in Hnd. rewrite Z.leb_gt in Hx. lia.
    + unfold r1. destruct (exhaustedRow tc now r) eqn:Hx; [|reflexivity].
      unfold exhaustedRow in Hx. rewrite Hp in Hx. discriminate.
Qed.

Lemma drain_round batch cx tc w :
  From_ cx = inr tc -> keyed (W_db w) -> setting (W_db w) ->
  Z.of_nat (List.length (List.filter (pendingIn tc) (rows (db_outbox (W_db w))))) <= claimBatch batch ->
  (forall id r, db_outbox (W_db w) !! id = Some r -> pendingIn tc r = true -> row_due r <= env_now (W_step w)) ->
  let w' := snd (drain batch cx w) in
  keyed (W_db w') /\ setting (W_db w') /\ forall id, round tc (db_outbox (W_db w) !! id) (db_outbox (W_db w') !! id).
Proof.
  intros F Hk HI Hn Hdue. set (now := env_now (W_step w)) in *.
  assert (Hwp : wp (let* r := st_try (outbox_ClaimDue cx now batch) in
                    match r with inl _ => st_ret tt | inr claimed => deliver_all cx claimed end) (W_db w)
    (fun o db' => keyed db' /\ setting db' /\ forall id, round tc (db_outbox (W_db w) !! id) (db_outbox db' !! id))).
  { apply wp_bind, wp_try. eapply wp_conseq; [apply (ClaimDue_wp cx tc), F|]. intros o d [-> ->].
    pose proof (reaped_keyed tc now _ Hk) as Hk1.
    eapply wp_conseq; [apply (deliver_all_wp cx tc); [exact F | apply claimed_keyed, Hk1 | apply setting_outbox, setting_outbox, HI
      | apply claimed_entries_NoDup, Hk1 | apply claimed_held, Hk1]|].
    cbn. intros o d (-> & Hk' & HI' & Ho & He). split; [exact Hk'|]. split; [exact HI'|]. intros id. eapply round_row; eauto. }
  unfold drain. unfold st_bind at 1. exact (Hwp (Build_World (W_db w) (W_sheet w) (W_sent w) (S (W_step w))) eq_refl).
Qed.

(** *** Several drains *)

Definition drains (n : nat) (batch : Z) (cx : Ctx) (w : World) : World :=
  Nat.iter n (fun w => snd (drain batch cx w)) w.

Lemma round_pending_count tc db db' :
  (forall id, round tc (db_outbox db !! id) (db_outbox db' !! id)) ->
  (List.length (List.filter (pendingIn tc) (rows (db_outbox db')))
   <= List.length (List.filter (pendingIn tc) (rows (db_outbox db))))%nat.
Proof.
  intros Hr.
  assert (Hc : forall m : gmap uuid OutboxRow,
    List.length (List.filter (pendingIn tc) (rows m)) = size (base.filter (fun kv => pendingIn tc (snd kv) = true) m)).
  { intros m. induction m as [|i x m Hi IH] using map_ind; [reflexivity|].
    rewrite (Permutation_length (filter_perm (pendingIn tc) _ _ (rows_insert m i x Hi))). cbn [List.filter].
    destruct (pendingIn tc x) eqn:Ep; cbn [List.length].
    - rewrite map_filter_insert_True by exact Ep. rewrite map_size_insert_None by (apply map_lookup_filter_None; auto).
      rewrite IH. reflexivity.
    - rewrite map_filter_insert_not' by (intros; cbn in *; congruence). exact IH. }
  rewrite !Hc, <- !size_dom. apply subseteq_size. intros id. rewrite !elem_of_dom.
  intros [r' Hr']. apply map_lookup_filter_Some in Hr' as [Hr' Hp]. cbn in Hp. specialize (Hr id).
  rewrite Hr' in Hr. unfold round in Hr. destruct (db_outbox db !! id) as [r|] eqn:E; [|discriminate].
  exists r. apply map_lookup_filter_Some. split; [exact E|]. cbn.
  destruct (pendingIn tc r) eqn:Ep; [reflexivity|]. simplify_eq. congruence.
Qed.

Lemma Terminal_not_pending s : Status_Terminal s = true -> String.eqb s StatusPending = false.
Proof.
  unfold Status_Terminal. rewrite orb_true_iff, !String.eqb_eq. intros [-> | ->]; reflexivity.
Qed.

(** After [n] drains a row of the organisation is settled, or has been tried [n]
    times more; an entry whose deliveries are accepted is delivered. *)
Lemma drains_rows batch cx tc w n :
  From_ cx = inr tc -> keyed (W_db w) -> setting (W_db w) ->
  Z.of_nat (List.length (List.filter (pendingIn tc) (rows (db_outbox (W_db w))))) <= claimBatch batch ->
  (forall k id r, (k < n)%nat -> db_outbox (W_db (drains k batch cx w)) !! id = Some r -> pendingIn tc r = true ->
     row_due r <= env_now (W_step (drains k batch cx w))) ->
  let w' := drains n batch cx w in
  keyed (W_db w') /\ setting (W_db w')
  /\ Z.of_nat (List.length (List.filter (pendingIn tc) (rows (db_outbox (W_db w'))))) <= claimBatch batch
  /\ forall id r, db_outbox (W_db w) !! id = Some r -> row_org r = OrgID tc -> exists r',
       db_outbox (W_db w') !! id = Some r' /\ identity r' = identity r
       /\ (row_status r' = StatusPending -> row_status r = StatusPending
            /\ row_attempt r' = row_attempt r + Z.of_nat n /\ ((0 < n)%nat -> row_attempt r' < MaxAttempts))
       /\ (row_status r' = StatusPending \/ Status_Terminal (row_status r') = true \/ row_status r' = row_status r)
       /\ ((0 < n)%nat -> accepted tc (identity r) -> row_status r = StatusPending -> row_attempt r < MaxAttempts ->
            row_status r' = StatusDelivered).
Proof.
  intros F Hk HI Hc. induction n as [|n IH]; intros Hdue; cbn zeta.
  { cbn. split; [exact Hk|]. split; [exact HI|]. split; [exact Hc|]. intros id r Hr _. exists r. split; [exact Hr|].
    split; [reflexivity|]. split; [intros Hs; split; [exact Hs|]; split; [lia|lia] | split; [auto | lia]]. }
  destruct IH as (Hk1 & HI1 & Hc1 & Hrow); [intros k id r Hlt; apply Hdue; lia|].
  assert (Hdue1 := fun id r => Hdue n id r (Nat.lt_succ_diag_r n)).
  cbn [drains Nat.iter nat_rect] in *. fold (drains n batch cx w) in *.
  change (Nat.iter n (fun w0 => snd (drain batch cx w0)) w) with (drains n batch cx w) in *.
  set (w1 := drains n batch cx w) in *.
  destruct (drain_round batch cx tc w1 F Hk1 HI1 Hc1 Hdue1) as (Hk' & HI' & Hround).
  split; [exact Hk'|]. split; [exact HI'|]. split; [exact (Z.le_trans _ _ _ (inj_le _ _ (round_pending_count _ _ _ Hround)) Hc1)|].
  intros id r Hr Hor. destruct (Hrow id r Hr Hor) as (r1 & Hr1 & Hi1 & Hp1 & Hst1 & Ha1).
  specialize (Hround id). rewrite Hr1 in Hround. unfold round in Hround.
  assert (Hor1 : row_org r1 = OrgID tc).
  { rewrite <- Hor. apply (f_equal ob_OrgID) in Hi1. exact Hi1. }
  unfold pendingIn in Hround. rewrite Hor1, N.eqb_refl in Hround. cbn [andb] in Hround.
  destruct (String.eqb (row_status r1) StatusPending) eqn:Es.
  - apply String.eqb_eq in Es. destruct (Hp1 Es) as (Hs0 & Hat & Hlt).
    destruct Hround as (r' & Hr' & Hi' & Hcase & Hacc). exists r'. split; [exact Hr'|]. split; [exact (eq_trans Hi' Hi1)|].
    split.
    + intros Hs'. split; [exact Hs0|]. destruct Hcase as [Ht|(_ & Hat' & Hlt')].
      * apply Terminal_not_pending in Ht. rewrite Hs' in Ht. discriminate.
      * rewrite Hat', Hat. split; [lia|]. intros _. rewrite <- Hat, <- Hat'. exact Hlt'.
    + split; [tauto|]. intros _ Ha _ Hlt0. apply Hacc; [rewrite Hi1; exact Ha|]. destruct n as [|n']; [rewrite Hat, Z.add_0_r; exact Hlt0|]. apply Hlt. lia.
  - exists r1. split; [exact Hround|]. split; [exact Hi1|]. split.
    + intros Hs'. rewrite Hs' in Es. discriminate.
    + split; [exact Hst1|]. intros _ Ha Hs0 Hlt0. destruct n as [|n']; [|apply Ha1; auto; lia].
      cbn in w1. subst w1. rewrite Hr in Hr1. simplify_eq. rewrite Hs0 in Es. discriminate.
Qed.
End Drain.

(** A row with no attempt left to make, once it has been through the drains. *)
Lemma drained_terminal r r' n :
  Status_Valid (row_status r) = true -> 0 <= row_attempt r -> (Z.to_nat MaxAttempts <= n)%nat ->
  (row_status r' = StatusPending -> row_status r = StatusPending
     /\ row_attempt r' = row_attempt r + Z.of_nat n /\ ((0 < n)%nat -> row_attempt r' < MaxAttempts)) ->
  (row_status r' = StatusPending \/ Status_Terminal (row_status r') = true \/ row_status r' = row_status r) ->
  Status_Terminal (row_status r') = true.
Proof.
  unfold MaxAttempts. intros Hv Ha Hn Hp Hc.
  assert (Hnp : row_status r' <> StatusPending).
  { intros Hs. destruct (Hp Hs) as (_ & Hat & Hlt). lia. }
  destruct Hc as [Hs|[Ht|He]]; [contradiction | exact Ht|]. unfold Status_Valid in Hv. rewrite <- He in Hv.
  unfold Status_Terminal. destruct (String.eqb_spec (row_status r') StatusPending); [contradiction | exact Hv].
Qed.
