(* ===== verification/OutboxProps.v ===== *)
(** * Properties of the outbox

    The store refines the entry machine; delivered entries are final; a settle
    answers exactly what the row says; claims are exclusive while their lease
    lasts; every entry settles after [MaxAttempts] sweeps. *)
From Stdlib Require Import ZArith Lia String List.
From stdpp Require Import base gmap list strings relations.
From S2P Require Import Prelude GoStrings Errors Tenant Outbox World Wp OutboxStore OutboxTheory.
From S2P Require Import OutboxTheory OutboxDrain.
Local Open Scope string_scope.
Local Open Scope Z_scope.

(** ** Sessions of the outbox *)

Inductive OutboxOp :=
| OpEnqueue (e : Entry)
| OpClaimDue (now limit : Z)
| OpSucceed (e : Entry) (at_ : Z)
| OpFail (e : Entry) (retryAt : Z) (cause : string)
| OpRequeue (id : uuid) (target : string)
| OpRequeueFailed (target : string)
| OpByID (id : uuid) (target : string)
| OpListByTarget (target : string) (limit : Z)
| OpWorker (ticks : nat) (opts : WorkerOpts).

Section Sessions.
Context `{Env, Sweeping, Deliverer}.

Definition run_outbox_op (cx : Ctx) (op : OutboxOp) (w : World) : World :=
  match op with
  | OpEnqueue e => snd (outbox_Enqueue cx e w)
  | OpClaimDue now limit => snd (outbox_ClaimDue cx now limit w)
  | OpSucceed e at_ => snd (outbox_Succeed cx e at_ w)
  | OpFail e retryAt cause => snd (outbox_Fail cx e retryAt cause w)
  | OpRequeue id target => snd (outbox_Requeue cx id target w)
  | OpRequeueFailed target => snd (outbox_RequeueFailed cx target w)
  | OpByID id target => snd (outbox_ByID cx id target w)
  | OpListByTarget target limit => snd (outbox_ListByTarget cx target limit w)
  | OpWorker ticks opts => snd (worker_Run ticks opts cx w)
  end.
Definition outbox_session (ops : list (Ctx * OutboxOp)) (w : World) : World :=
  fold_left (fun w p => run_outbox_op (fst p) (snd p) w) ops w.

(** Other sessions, and what a delivery itself commits, keep to the machine. *)
Hypothesis rely : forall n db, outbox_step db (env_other n db).
Hypothesis deliver_rely : forall cx e, preserves (on_db outbox_step) (Deliver cx e).

Lemma run_outbox_op_step cx op w : outbox_step (W_db w) (W_db (run_outbox_op cx op w)).
Proof.
  destruct op; cbn [run_outbox_op].
  - exact (Enqueue_step rely cx e w).
  - exact (ClaimDue_step rely cx now limit w).
  - exact (Succeed_step rely cx e at_ w).
  - exact (Fail_step rely cx e retryAt cause w).
  - exact (Requeue_step rely cx id target w).
  - exact (RequeueFailed_step rely cx target w).
  - exact (ByID_step rely cx id target w).
  - exact (ListByTarget_step rely cx target limit w).
  - exact (Run_step rely deliver_rely ticks opts cx w).
Qed.
Lemma outbox_session_step ops w : outbox_step (W_db w) (W_db (outbox_session ops w)).
Proof.
  revert w. induction ops as [|[cx op] ops IH]; intros w; cbn [outbox_session fold_left fst snd]; [reflexivity|].
  etransitivity; [apply run_outbox_op_step | apply IH].
Qed.
End Sessions.

(** ** Invariants of the machine, by rule induction *)

Definition row_ok (r : OutboxRow) : Prop :=
  Status_Valid (row_status r) = true /\ 0 <= row_attempt r <= MaxAttempts
  /\ (row_status r = StatusFailed -> row_attempt r = MaxAttempts)
  /\ (row_status r = StatusDelivered <-> or_DeliveredAt r <> None)
  /\ Z.of_nat (String.length (ob_LastError (or_entry r))) <= MaxCauseLen.

Lemma born_ok id r : born id r -> row_ok r.
Proof.
  unfold row_ok. intros (_ & -> & -> & -> & -> & _). unfold MaxAttempts, MaxCauseLen. cbn.
  repeat split; lia || discriminate || congruence.
Qed.
Lemma row_step_ok r r' : row_step r r' -> row_ok r -> row_ok r'.
Proof.
  unfold row_ok, MaxAttempts, MaxCauseLen.
  destruct 1 as [now r Hs Ha Hd|now r Hs Ha Hd|at_ r Hs|retryAt cause r Hs|now r Hs];
    intros (Hv & Hat & Hf & Hde & Hl); rewrite Hs in *; cbn; change MaxAttempts with 8 in *.
  all: try (pose proof (truncateCause_length cause) as Ht; unfold MaxCauseLen in Ht;
            destruct (Z.leb_spec 8 (row_attempt r))).
  all: repeat split; rewrite ?Hs in *; auto; try lia; try discriminate; try congruence;
    try (intros X; apply Hde in X; discriminate).
Qed.

(** Over any number of moves. *)
Lemma entry_steps_ok id r r' :
  rtc (entry_step id) (Some r) (Some r') -> row_ok r -> row_ok r' /\ identity r' = identity r.
Proof.
  intros Hs. remember (Some r) as x eqn:Ex. remember (Some r') as y eqn:Ey.
  revert r Ex. induction Hs as [x|x y z Hxy Hyz IH]; intros r Ex Hr.
  - simplify_eq. auto.
  - destruct Hxy as [r0 Hb|r0 r1 Hm]; simplify_eq.
    destruct (IH eq_refl r1 eq_refl) as [H1 H2]; [eapply row_step_ok; eauto|].
    split; [exact H1|]. rewrite H2. apply row_step_identity, Hm.
Qed.
Lemma entry_steps_born id r' : rtc (entry_step id) None (Some r') -> row_ok r'.
Proof.
  intros Hs. inversion Hs as [|? y ? Hxy Hyz]; subst. inversion Hxy as [r Hb|]; subst.
  eapply (entry_steps_ok id r); [exact Hyz | eapply born_ok, Hb].
Qed.
Lemma entry_steps_some id r y : rtc (entry_step id) (Some r) y -> exists r', y = Some r'.
Proof.
  intros Hs. remember (Some r) as x eqn:Ex. revert r Ex.
  induction Hs as [x|x y z Hxy Hyz IH]; intros r Ex; [eauto|].
  destruct Hxy; simplify_eq. eauto.
Qed.
(** No move leaves a delivered row. *)
Lemma delivered_stuck r r' : row_status r = StatusDelivered -> ~ row_step r r'.
Proof. intros Hr Hs. destruct Hs; rewrite Hr in *; discriminate. Qed.
Lemma entry_steps_delivered id r y :
  row_status r = StatusDelivered -> rtc (entry_step id) (Some r) y -> y = Some r.
Proof.
  intros Hr Hs. inversion Hs as [|? y' ? Hxy Hyz]; subst; [reflexivity|].
  inversion Hxy; subst. exfalso. eapply delivered_stuck; eauto.
Qed.

(** ** A concrete worker *)

Definition demo_sweeping : Sweeping := {| sw_rand := fun n => Z.of_nat n; sw_done := fun _ => false |}.
Definition demo_deliverer : Deliverer := {| Deliver := fun _ e =>
  if String.eqb (ob_Target e) "down" then st_err "connection refused" else st_ret tt |}.
Definition demo_entry (id : uuid) (target : string) : Entry :=
  mkEntry id 7 1 2 target "{}" 0 zero_Time "" "" 0.
Definition demo_opts : WorkerOpts := mkWorkerOpts 0 0 0 0.
Definition demo_outbox (ops : list (Ctx * OutboxOp)) : World :=
  @outbox_session demo_env demo_sweeping demo_deliverer ops demo_world.
Definition queued_world : World :=
  demo_outbox [(demo_cx, OpEnqueue (demo_entry 50 "up")); (demo_cx, OpEnqueue (demo_entry 51 "down"))].

Lemma demo_rely : forall n db, outbox_step db (@env_other demo_env n db).
Proof. intros n db. reflexivity. Qed.
Lemma demo_deliver_rely : forall cx e, preserves (on_db outbox_step) (@Deliver demo_deliverer cx e).
Proof. intros cx e. cbn. destruct (String.eqb _ _); intros w; unfold on_db; cbn; reflexivity. Qed.
Lemma empty_outbox_wf : outbox_wf empty_db.
Proof. split; [intros id r | intros i j a b]; cbn; rewrite lookup_empty; discriminate. Qed.

(** ** The properties of every session *)

(** C12: the outbox store and its dispatch worker refine the entry machine:
    whatever sequence of operations runs, and whatever other dispatchers, queuers
    and deliveries do beside them that itself keeps to the machine, every entry
    only moves by being queued, claimed when due, reaped, settled or requeued,
    and the two keys of the table stay keys. *)
Theorem outbox_refines_machine `{Env, Sweeping, Deliverer}
    (rely : forall n db, outbox_step db (env_other n db))
    (deliver_rely : forall cx e, preserves (on_db outbox_step) (Deliver cx e)) ops w :
  outbox_wf (W_db w) ->
  outbox_wf (W_db (outbox_session ops w))
  /\ forall id, rtc (entry_step id) (db_outbox (W_db w) !! id) (db_outbox (W_db (outbox_session ops w)) !! id).
Proof. apply (outbox_session_step rely deliver_rely). Qed.

Lemma outbox_refines_machine_witness :
  let w := demo_outbox [(demo_cx, OpEnqueue (demo_entry 50 "up")); (demo_cx, OpWorker 1 demo_opts)] in
  (row_status <$> db_outbox (W_db w) !! 50%N = Some StatusDelivered)
  /\ rtc (entry_step 50) None (db_outbox (W_db w) !! 50%N).
Proof.
  split; [vm_compute; reflexivity|].
  exact (proj2 (@outbox_refines_machine demo_env demo_sweeping demo_deliverer demo_rely demo_deliver_rely
    [(demo_cx, OpEnqueue (demo_entry 50 "up")); (demo_cx, OpWorker 1 demo_opts)] demo_world empty_outbox_wf) 50%N).
Defined.

(** Every row stays well formed: one of the three states, between zero and
    [MaxAttempts] attempts, failed only once they are exhausted, dated exactly
    when delivered, its last error within its bound. *)
Theorem outbox_rows_well_formed `{Env, Sweeping, Deliverer}
    (rely : forall n db, outbox_step db (env_other n db))
    (deliver_rely : forall cx e, preserves (on_db outbox_step) (Deliver cx e)) ops w :
  outbox_wf (W_db w) ->
  (forall id r, db_outbox (W_db w) !! id = Some r -> row_ok r) ->
  forall id r, db_outbox (W_db (outbox_session ops w)) !! id = Some r -> row_ok r.
Proof.
  intros Hw Hok id r Hr. destruct (outbox_session_step rely deliver_rely ops w Hw) as [_ Hs].
  specialize (Hs id). rewrite Hr in Hs. destruct (db_outbox (W_db w) !! id) as [r0|] eqn:E.
  - eapply entry_steps_ok; eauto.
  - eapply entry_steps_born, Hs.
Qed.

Lemma outbox_rows_well_formed_witness :
  let w := demo_outbox [(demo_cx, OpEnqueue (demo_entry 50 "down")); (demo_cx, OpWorker 1 demo_opts)] in
  exists r, db_outbox (W_db w) !! 50%N = Some r /\ row_attempt r = 1 /\ row_ok r.
Proof.
  intros w. assert (E : row_attempt <$> db_outbox (W_db w) !! 50%N = Some 1) by (vm_compute; reflexivity).
  destruct (_ !! 50%N) as [r|] eqn:Er; [|discriminate]. exists r. split; [reflexivity|].
  split; [injection E as <-; reflexivity|]. subst w.
  apply (@outbox_rows_well_formed demo_env demo_sweeping demo_deliverer demo_rely demo_deliver_rely
    [(demo_cx, OpEnqueue (demo_entry 50 "down")); (demo_cx, OpWorker 1 demo_opts)] demo_world
    empty_outbox_wf) with (id := 50%N); [|exact Er].
  intros id x. cbn. rewrite lookup_empty. discriminate.
Defined.

(** Delivery is final and entries are never lost: a delivered row is the same
    row after any session, and any row is still there with its id, event, tenant,
    target, payload and creation time. *)
Theorem delivered_is_final `{Env, Sweeping, Deliverer}
    (rely : forall n db, outbox_step db (env_other n db))
    (deliver_rely : forall cx e, preserves (on_db outbox_step) (Deliver cx e)) ops w id r :
  outbox_wf (W_db w) -> row_ok r -> db_outbox (W_db w) !! id = Some r ->
  exists r', db_outbox (W_db (outbox_session ops w)) !! id = Some r'
    /\ identity r' = identity r /\ (row_status r = StatusDelivered -> r' = r).
Proof.
  intros Hw Hok Hr. destruct (outbox_session_step rely deliver_rely ops w Hw) as [_ Hs].
  specialize (Hs id). rewrite Hr in Hs. destruct (entry_steps_some _ _ _ Hs) as [r' E]. rewrite E in Hs |- *.
  exists r'. split; [reflexivity|]. split; [eapply entry_steps_ok; eauto|].
  intros Hd. apply entry_steps_delivered in Hs; [congruence | exact Hd].
Qed.

Definition delivered_row : OutboxRow :=
  set_delivered (1709942400 * Second)
    (mkOutboxRow (mkEntry 50 7 1 2 "up" "{}" 1 (1709942400 * Second + ClaimLease) StatusPending "" (1709942400 * Second))
       None).
Definition delivered_world : World := mkWorld (set_outbox {[50%N := delivered_row]} empty_db) 0.
Lemma single_wf r : outbox_wf (set_outbox {[ob_ID (or_entry r) := r]} empty_db).
Proof.
  split.
  - intros id x. cbn. rewrite lookup_singleton_Some. intros [<- <-]. reflexivity.
  - intros i j a b. cbn. rewrite !lookup_singleton_Some. intros [<- _] [<- _]. auto.
Qed.

Lemma delivered_is_final_witness :
  exists r', db_outbox (W_db (@outbox_session demo_env demo_sweeping demo_deliverer
               [(demo_cx, OpRequeue 50 "up"); (demo_cx, OpWorker 2 demo_opts)] delivered_world)) !! 50%N = Some r'
    /\ identity r' = identity delivered_row /\ (row_status delivered_row = StatusDelivered -> r' = delivered_row).
Proof.
  apply (@delivered_is_final demo_env demo_sweeping demo_deliverer demo_rely demo_deliver_rely _ delivered_world).
  - exact (single_wf delivered_row).
  - unfold row_ok, delivered_row, MaxAttempts, MaxCauseLen. cbn. repeat split; lia || discriminate || congruence.
  - reflexivity.
Defined.

(** ** Settling *)

(** C15: a settle answers what the row says and nothing else: [Succeed] and [Fail]
    write exactly when the entry is pending at the attempt that was claimed; an
    absent entry or another organisation's is not found, a superseded claim is
    stale with both attempt numbers, a settled entry is in its terminal state,
    and none of the refusals, nor a driver fault, changes the table. *)
Theorem settle_exact `{Env} cx tc e db :
  calm cx -> From_ cx = inr tc -> keyed db ->
  (forall at_, computes (outbox_Succeed cx e at_) db
     (settle_verdict tc e db) (settled tc e (set_delivered at_) db))
  /\ (forall retryAt cause, computes (outbox_Fail cx e retryAt cause) db
     (settle_verdict tc e db) (settled tc e (set_failed_try retryAt cause) db)).
Proof.
  intros Hc F Hk. split; intros; [apply Succeed_computes | apply Fail_computes]; assumption.
Qed.

(** An entry claimed once, by a dispatcher whose lease then expired. *)
Definition claim_now : Z := 1709942400 * Second.
Definition demo_claim (now : Z) (w : World) : list Entry * World :=
  match @outbox_ClaimDue demo_env demo_cx now 10 w with
  | (Ok es, w') => (es, w')
  | (_, w') => ([], w')
  end.
Definition first_claim : list Entry * World := demo_claim claim_now queued_world.
Definition second_claim : list Entry * World := demo_claim (claim_now + ClaimLease) (snd first_claim).
Definition stale_entry : Entry := hd (demo_entry 0 "") (fst first_claim).

Lemma queued_wf : outbox_wf (W_db queued_world).
Proof.
  exact (proj1 (@outbox_session_step demo_env demo_sweeping demo_deliverer demo_rely demo_deliver_rely _ demo_world
    empty_outbox_wf)).
Qed.
Lemma demo_claim_wf now w : outbox_wf (W_db w) -> outbox_wf (W_db (snd (demo_claim now w))).
Proof.
  intros Hw. unfold demo_claim. pose proof (@ClaimDue_step demo_env demo_rely demo_cx now 10 w) as Hs. unfold on_db in Hs.
  destruct (outbox_ClaimDue demo_cx now 10 w) as [[es|e|p] w']; exact (proj1 (Hs Hw)).
Qed.
Lemma second_claim_keyed : keyed (W_db (snd second_claim)).
Proof. exact (proj1 (demo_claim_wf _ _ (demo_claim_wf _ _ queued_wf))). Qed.
Lemma demo_calm cx : @calm demo_env cx.
Proof. right. apply demo_quiet. Qed.

Lemma settle_exact_witness :
  fst (@outbox_Succeed demo_env demo_cx stale_entry claim_now (snd second_claim))
    = Err (EOutbox (StaleClaimError (uuid_String (ob_ID stale_entry)) 1 2))
  /\ @computes demo_env unit (@outbox_Succeed demo_env demo_cx stale_entry claim_now) (W_db (snd second_claim))
       (settle_verdict demo_tenant stale_entry (W_db (snd second_claim)))
       (settled demo_tenant stale_entry (set_delivered claim_now) (W_db (snd second_claim))).
Proof.
  split; [vm_compute; reflexivity|].
  exact (proj1 (@settle_exact demo_env demo_cx demo_tenant stale_entry (W_db (snd second_claim))
    (demo_calm demo_cx) eq_refl second_claim_keyed) claim_now).
Defined.

(** ** Claiming *)

(** C14: while the lease lasts, claims are exclusive: whatever dispatchers claim
    between [t] and [t + ClaimLease], interleaved with any other sessions that
    respect the leases, no entry is handed out twice. *)
Theorem claims_exclusive `{Env} t (rely : forall n db, lease_step t db (env_other n db)) calls w :
  keyed (W_db w) -> Forall (fun c => t <= snd (fst c) < t + ClaimLease) calls -> NoDup (claim_run calls w).
Proof. intros Hk Hc. apply (claim_run_fresh t rely calls w Hk Hc). Qed.

Definition two_dispatchers : list (Ctx * Z * Z) :=
  [(demo_cx, claim_now, 1); (demo_cx, claim_now + Minute, 1); (demo_cx, claim_now + 2 * Minute, 5)].
Lemma claims_exclusive_witness :
  claim_run (H := demo_env) two_dispatchers queued_world = [50; 51]%N
  /\ NoDup (claim_run (H := demo_env) two_dispatchers queued_world).
Proof.
  split; [vm_compute; reflexivity|].
  apply (@claims_exclusive demo_env claim_now).
  - intros n db. reflexivity.
  - exact (proj1 queued_wf).
  - unfold two_dispatchers, ClaimLease, Minute, Second. repeat constructor; cbn; lia.
Defined.

(** A claim takes the entries longest due: at most [claimBatch limit] of them,
    each once, each due and under the attempt limit and now one attempt on and
    leased; and when it passes over a due entry, the batch is full of entries due
    no later. *)
Theorem ClaimDue_takes_oldest `{Env} cx tc now limit db :
  quiet -> faultless -> From_ cx = inr tc -> keyed db ->
  wp (outbox_ClaimDue cx now limit) db (fun o db' => exists es,
    o = Ok es /\ NoDup (entry_ids es) /\ Z.of_nat (List.length es) <= claimBatch limit
    /\ (forall e, In e es -> exists r, db_outbox db !! ob_ID e = Some r /\ dueRow tc now r = true
         /\ e = or_entry (set_claimed now r) /\ db_outbox db' !! ob_ID e = Some (set_claimed now r))
    /\ (forall id r, db_outbox db !! id = Some r -> dueRow tc now r = true -> id ∉ entry_ids es ->
         db_outbox db' !! id = Some r /\ Z.of_nat (List.length es) = claimBatch limit
         /\ forall e, In e es -> exists r', db_outbox db !! ob_ID e = Some r' /\ row_due r' <= row_due r)).
Proof.
  intros Hq Hf F Hk. eapply wp_conseq; [apply (ClaimDue_wp Hq Hf cx tc now limit db F)|].
  intros o db' [-> ->]. exact (claim_batch tc now limit db Hk).
Qed.

Lemma demo_faultless : @faultless demo_env.
Proof. intros n. reflexivity. Qed.
Lemma ClaimDue_takes_oldest_witness :
  exists es, fst (@outbox_ClaimDue demo_env demo_cx claim_now 1 queued_world) = Ok es
    /\ Z.of_nat (List.length es) <= claimBatch 1.
Proof.
  destruct (@ClaimDue_takes_oldest demo_env demo_cx demo_tenant claim_now 1 (W_db queued_world) demo_quiet
    demo_faultless eq_refl (proj1 queued_wf) queued_world eq_refl) as (es & H1 & _ & H2 & _).
  exists es. exact (conj H1 H2).
Defined.

(** ** Every entry settles *)

(** The deliveries of [id] are all accepted. *)
Definition accepts `{Deliverer} (id : uuid) : Prop :=
  forall cx e w, ob_ID e = id -> fst (Deliver cx e w) = Ok tt.
Lemma accepts_accepted `{Deliverer} setting tc r : accepts (ob_ID (or_entry r)) -> accepted setting tc (identity r).
Proof. intros Ha cx e w _ _ Hi. apply Ha. exact (f_equal ob_ID Hi). Qed.

(** C13: the queue drains: with no fault, no other session and sweeps spaced so that
    what is pending is due, [MaxAttempts] drains of a batch that holds the pending
    entries settle every entry of the organisation, as delivered or as failed,
    whatever its deliveries answer; and an entry with an attempt left whose
    deliveries are accepted ends up delivered. *)
Theorem outbox_settles `{Env, Sweeping, Deliverer} batch cx tc w :
  quiet -> faultless -> (forall n, sw_done n = false) ->
  (forall cx e w, db_outbox (W_db (snd (Deliver cx e w))) = db_outbox (W_db w)
     /\ forall p, fst (Deliver cx e w) <> Panic p) ->
  From_ cx = inr tc -> keyed (W_db w) ->
  (forall id r, db_outbox (W_db w) !! id = Some r -> row_ok r) ->
  Z.of_nat (List.length (List.filter (pendingIn tc) (rows (db_outbox (W_db w))))) <= claimBatch batch ->
  (forall k id r, (k < Z.to_nat MaxAttempts)%nat ->
     db_outbox (W_db (drains k batch cx w)) !! id = Some r -> pendingIn tc r = true ->
     row_due r <= env_now (W_step (drains k batch cx w))) ->
  forall id r, db_outbox (W_db w) !! id = Some r -> row_org r = OrgID tc ->
  exists r', db_outbox (W_db (drains (Z.to_nat MaxAttempts) batch cx w)) !! id = Some r'
    /\ identity r' = identity r /\ Status_Terminal (row_status r') = true
    /\ (accepts id -> row_status r = StatusPending -> row_attempt r < MaxAttempts ->
        row_status r' = StatusDelivered).
Proof.
  intros Hq Hf Hd Hdel F Hk Hok Hc Hdue id r Hr Hor.
  destruct (drains_rows Hq Hf Hd Hdel (fun _ => True) (fun _ _ _ => I) (fun _ _ _ _ => I) batch cx tc w _ F Hk I Hc Hdue)
    as (_ & _ & _ & Hrow).
  destruct (Hrow id r Hr Hor) as (r' & Hr' & Hi & Hp & Hst & Ha). exists r'. split; [exact Hr'|]. split; [exact Hi|].
  assert (Hlt : (0 < Z.to_nat MaxAttempts)%nat) by (unfold MaxAttempts; lia).
  split; [|intros Hacc; apply Ha; [exact Hlt|]; apply accepts_accepted; rewrite (Hk _ _ Hr); exact Hacc].
  destruct (Hok _ _ Hr) as (Hv & [Hat _] & _). exact (drained_terminal r r' _ Hv Hat (le_n _) Hp Hst).
Qed.

(** A clock that reads twelve hours later each time it is read. *)
Definition slow_env : Env := {|
  env_uuid := fun _ db => demo_fresh db;
  env_now := fun n => claim_now + Z.of_nat n * (12 * Hour);
  env_fault := fun _ => None;
  env_other := fun _ db => db;
  env_sheet := fun _ s => s
|}.
Definition slow_drains (k : nat) : World := @drains slow_env demo_sweeping demo_deliverer k 100 demo_cx queued_world.
Definition due_at (w : World) : bool :=
  forallb (fun r => negb (pendingIn demo_tenant r) || (row_due r <=? @env_now slow_env (W_step w)))
    (rows (db_outbox (W_db w))).
Lemma slow_drains_due :
  forall k id r, (k < Z.to_nat MaxAttempts)%nat ->
    db_outbox (W_db (slow_drains k)) !! id = Some r -> pendingIn demo_tenant r = true ->
    row_due r <= @env_now slow_env (W_step (slow_drains k)).
Proof.
  assert (Hc : forallb (fun k => due_at (slow_drains k)) (seq 0 8) = true) by (vm_compute; reflexivity).
  intros k id r Hlt Hr Hp. rewrite forallb_forall in Hc.
  specialize (Hc k). rewrite in_seq in Hc. unfold MaxAttempts in Hlt. specialize (Hc ltac:(lia)).
  unfold due_at in Hc. rewrite forallb_forall in Hc. specialize (Hc r).
  rewrite Hp in Hc. apply Z.leb_le, Hc, rows_In. eauto.
Qed.
Lemma queued_rows_ok : forall id r, db_outbox (W_db queued_world) !! id = Some r -> row_ok r.
Proof.
  intros id r Hr.
  destruct (@outbox_session_step demo_env demo_sweeping demo_deliverer demo_rely demo_deliver_rely
    [(demo_cx, OpEnqueue (demo_entry 50 "up")); (demo_cx, OpEnqueue (demo_entry 51 "down"))] demo_world
    empty_outbox_wf) as [_ Hs].
  specialize (Hs id). change (rtc (entry_step id) (db_outbox empty_db !! id) (db_outbox (W_db queued_world) !! id)) in Hs.
  rewrite Hr in Hs. cbn in Hs. rewrite lookup_empty in Hs. eapply entry_steps_born, Hs.
Qed.

Lemma outbox_settles_witness :
  exists r r', db_outbox (W_db queued_world) !! 51%N = Some r /\ row_status r = StatusPending
    /\ db_outbox (W_db (slow_drains (Z.to_nat MaxAttempts))) !! 51%N = Some r'
    /\ identity r' = identity r /\ Status_Terminal (row_status r') = true.
Proof.
  assert (E : (fun r => (row_status r, row_org r)) <$> db_outbox (W_db queued_world) !! 51%N = Some (StatusPending, 1%N))
    by (vm_compute; reflexivity).
  destruct (db_outbox (W_db queued_world) !! 51%N) as [r|] eqn:Er; [|discriminate]. injection E as Es Eo.
  assert (Hr : exists r', db_outbox (W_db (slow_drains (Z.to_nat MaxAttempts))) !! 51%N = Some r'
    /\ identity r' = identity r /\ Status_Terminal (row_status r') = true
    /\ (@accepts demo_deliverer 51%N -> row_status r = StatusPending -> row_attempt r < MaxAttempts ->
        row_status r' = StatusDelivered)).
  { apply (@outbox_settles slow_env demo_sweeping demo_deliverer 100 demo_cx demo_tenant queued_world) with (r := r).
    - intros n db. reflexivity.
    - intros n. reflexivity.
    - intros n. reflexivity.
    - intros cx e w. cbn. destruct (String.eqb _ _); split; reflexivity || discriminate.
    - reflexivity.
    - exact (proj1 queued_wf).
    - exact queued_rows_ok.
    - vm_compute. discriminate.
    - exact slow_drains_due.
    - exact Er.
    - exact Eo. }
  destruct Hr as (r' & Hr' & Hi & Ht & _). exists r, r'. auto.
Defined.

(** The failing entry takes all its attempts, the other is delivered at once. *)
Example slow_drains_outcome :
  map (fun r => (row_status r, row_attempt r)) (rows (db_outbox (W_db (slow_drains 8))))
  = [(StatusDelivered, 1); (StatusFailed, 8)].
Proof. vm_compute. reflexivity. Qed.

(** ** The fence across a requeue *)

(** Seven more dispatchers claim the entries and die; the last lease expires, the
    entries are reaped and one is requeued and claimed anew, at attempt one. *)
Definition expired_claims : list (Ctx * OutboxOp) :=
  map (fun k => (demo_cx, OpClaimDue (claim_now + Z.of_nat k * ClaimLease) 10)) (seq 1 8).
Definition requeued_world : World :=
  @outbox_session demo_env demo_sweeping demo_deliverer
    (expired_claims ++ [(demo_cx, OpRequeue 50 "up"); (demo_cx, OpClaimDue claim_now 10)]) (snd first_claim).

(** The attempt does not fence a settle across a requeue: [Requeue] counts the
    attempts from zero again, so the first dispatcher's claim, superseded eight
    times and whose entry had failed, is accepted once the requeued entry is
    claimed by another dispatcher at the same attempt number. *)
Theorem stale_claim_settles_after_requeue :
  let r := @outbox_Succeed demo_env demo_cx stale_entry claim_now requeued_world in
  (row_status <$> db_outbox (W_db (@outbox_session demo_env demo_sweeping demo_deliverer expired_claims (snd first_claim)))
     !! 50%N = Some StatusFailed)
  /\ fst r = Ok tt
  /\ row_status <$> db_outbox (W_db (snd r)) !! 50%N = Some StatusDelivered.
Proof. vm_compute. auto. Qed.

(** ** The retry schedule *)

(** [Backoff] stays within a tenth of its base, the bases grow with the attempt
    from thirty seconds to ten hours, and the wait is never shorter than the
    twenty-seven seconds nor longer than eleven hours. *)
Theorem Backoff_schedule draw a b :
  9 * BackoffBase a <= 10 * Backoff draw a <= 11 * BackoffBase a
  /\ (a <= b -> BackoffBase a <= BackoffBase b)
  /\ 27 * Second <= Backoff draw a <= 11 * Hour.
Proof.
  pose proof (Backoff_near draw a). pose proof (BackoffBase_bounds a).
  unfold Hour, Minute, Second in *. split; [assumption|]. split; [apply BackoffBase_mono | lia].
Qed.
