(* ===== verification/LedgerService.v ===== *)
(** * Ledger settings: store and service ([internal/ledger/sqlite.go], [service.go]) *)
From Stdlib Require Import ZArith Lia String List.
From stdpp Require Import base gmap list strings.
From S2P Require Import Prelude GoStrings Errors Civil Money Tenant Ledger World.
Local Open Scope string_scope.

(** ** The store *)
Section Store.
Context `{Env}.

(** The table's CHECKs, then its primary key, then its foreign keys. *)
Definition ledger_upsert (tc : Tenant) (st : Settings) : Statement := fun db =>
  if negb (Nat.eqb (String.length (s_Currency st)) 3)
  then inl (CONSTRAINT_CHECK, "length(currency) = 3") else
  if negb ((1 <=? s_PeriodStartDay st) && (s_PeriodStartDay st <=? 28))%Z
  then inl (CONSTRAINT_CHECK, "period_start_day BETWEEN 1 AND 28") else
  match db_ledger db !! s_ProjectID st with
  | Some old =>
    if N.eqb (s_OrgID old) (OrgID tc)
    then inr (set_ledger (<[s_ProjectID st :=
                mkSettings (s_OrgID old) (s_ProjectID old) (s_Timezone st) (s_Currency st)
                  (s_PeriodStartDay st) (s_UpdatedAt st)]> (db_ledger db)) db, 1%nat)
    else inr (db, 0%nat)
  | None =>
    if bool_decide (s_ProjectID st ∈ db_projects db) && bool_decide (s_OrgID st ∈ db_orgs db)
    then inr (set_ledger (<[s_ProjectID st := st]> (db_ledger db)) db, 1%nat)
    else inl (CONSTRAINT_FOREIGNKEY, "FOREIGN KEY constraint failed")
  end.

Definition ledger_ByProject (cx : Ctx) (orgID projectID : uuid) : M Settings :=
  read_tx "ledger" cx (fun tc =>
    let* r := query "ledger.sqlite.ByProject" (fun db => db_ledger db !! projectID) in
    match r with
    | Some st => if N.eqb (s_OrgID st) orgID && N.eqb (s_OrgID st) (OrgID tc) then st_ret st
                 else st_err (ELedger (LedgerNotFoundError (uuid_String projectID)))
    | None => st_err (ELedger (LedgerNotFoundError (uuid_String projectID)))
    end).

Definition ledger_Save (cx : Ctx) (st : Settings) : M unit :=
  write_tx "ledger" cx (fun tc =>
    exec_save "ledger.sqlite.Save" (fun _ => None)
      (ELedger (LedgerNotFoundError (uuid_String (s_ProjectID st)))) (ledger_upsert tc st)).
End Store.

(** ** The service *)
Section Service.
Context `{Env, Unicode, TZDatabase}.

Definition effective (cx : Ctx) (op : string) (orgID projectID : uuid) : M Settings :=
  let* r := st_try (ledger_ByProject cx orgID projectID) in
  match r with
  | inr st => st_ret st
  | inl e => if IsLedgerNotFound e then st_ret (Defaults orgID projectID)
             else unexpected (op ++ ": byProject") e
  end.

Definition ledger_Get (cx : Ctx) : M Settings :=
  let* tc := from_tenant cx in effective cx "ledger.Get" (OrgID tc) (ProjectID tc).

Definition ledger_Update (cx : Ctx) (p : Patch) : M Settings :=
  let* tc := from_tenant cx in
  let* cur := effective cx "ledger.Update" (OrgID tc) (ProjectID tc) in
  let* now := time_Now in
  match Apply cur p now with
  | inl e => st_err (ELedger e)
  | inr cur =>
    let* r := st_try (ledger_Save cx cur) in
    match r with
    | inr _ => st_ret cur
    | inl e => if IsLedgerNotFound e then st_err e else unexpected "ledger.Update: save" e
    end
  end.

Definition ledger_Location (cx : Ctx) (orgID projectID : uuid) : M Location :=
  let* st := effective cx "ledger.Location" orgID projectID in
  match Settings_Location st with inl e => st_err (ELedger e) | inr loc => st_ret loc end.

Definition ledger_StartDay (cx : Ctx) (orgID projectID : uuid) : M Z :=
  let* st := effective cx "ledger.StartDay" orgID projectID in st_ret (s_PeriodStartDay st).

Definition ledger_DefaultCurrency (cx : Ctx) (orgID projectID : uuid) : M Currency :=
  let* st := effective cx "ledger.DefaultCurrency" orgID projectID in st_ret (s_Currency st).
End Service.

(** ** What the settings writes do to the database *)

(** Only the caller's own row is written, and it stays with its org. *)
Definition ledger_guar (tc : Tenant) (db db' : DB) : Prop :=
  db' = set_ledger (db_ledger db') db
  /\ forall p, p <> ProjectID tc -> db_ledger db' !! p = db_ledger db !! p.

Lemma ledger_upsert_effect tc st db db' n :
  ledger_upsert tc st db = inr (db', n) ->
  (n = 0%nat /\ db' = db) \/
  (n = 1%nat /\ exists row, db' = set_ledger (<[s_ProjectID st := row]> (db_ledger db)) db
     /\ s_Timezone row = s_Timezone st /\ s_Currency row = s_Currency st
     /\ s_PeriodStartDay row = s_PeriodStartDay st /\ s_UpdatedAt row = s_UpdatedAt st
     /\ (forall old, db_ledger db !! s_ProjectID st = Some old ->
           s_OrgID old = OrgID tc /\ s_OrgID row = s_OrgID old /\ s_ProjectID row = s_ProjectID old)
     /\ (db_ledger db !! s_ProjectID st = None -> row = st)).
Proof.
  unfold ledger_upsert. destruct (negb (Nat.eqb _ 3)); [discriminate|].
  destruct (negb (_ && _)%bool); [discriminate|].
  destruct (db_ledger db !! s_ProjectID st) as [old|] eqn:E.
  - destruct (N.eqb_spec (s_OrgID old) (OrgID tc)); intros [= <- <-]; [right|left; auto].
    split; [auto|]. eexists. split; [reflexivity|]. cbn.
    do 4 (split; [reflexivity|]). split; [intros o; intros; simplify_eq; auto | discriminate].
  - destruct (_ && _)%bool; [|discriminate]. intros [= <- <-]. right. split; [auto|].
    exists st. do 5 (split; [reflexivity|]). split; [discriminate | auto].
Qed.

Lemma infra_not_ledger e : infra e -> IsLedgerNotFound e = false.
Proof. intros Hi. apply (infra_chain_is _ e Hi). intros []; simpl; try discriminate; auto. Qed.

(** The settings a project behaves as: its row, when its org owns it, or the defaults. *)
Definition settings_of (db : DB) (orgID projectID : uuid) : Settings :=
  match db_ledger db !! projectID with
  | Some row => if N.eqb (s_OrgID row) orgID then row else Defaults orgID projectID
  | None => Defaults orgID projectID
  end.

Section Reads.
Context `{Env, Unicode, TZDatabase}.

Lemma reads_ledger_ByProject cx tc projectID :
  calm cx -> From_ cx = inr tc ->
  reads_e (fun st db => st = settings_of db (OrgID tc) projectID)
          (fun e db => infra e \/ (IsLedgerNotFound e = true
                        /\ settings_of db (OrgID tc) projectID = Defaults (OrgID tc) projectID))
    (ledger_ByProject cx (OrgID tc) projectID).
Proof.
  intros Hq F. unfold ledger_ByProject. apply reads_read_tx; [exact Hq | auto|].
  intros tc' F'. rewrite F in F'. injection F' as <-.
  eapply (reads_bind _ _ (fun r db => r = db_ledger db !! projectID));
    [eapply reads_e_conseq; [apply reads_query | auto | simpl; auto]|].
  intros r _. unfold settings_of. destruct r as [st|]; cycle 1.
  { apply reads_err. intros db E. rewrite <- E. auto. }
  destruct (N.eqb (s_OrgID st) (OrgID tc)) eqn:E; cbn [andb].
  - apply reads_ret. intros db El. rewrite <- El, E. reflexivity.
  - apply reads_err. intros db El. rewrite <- El, E. auto.
Qed.

Lemma reads_effective cx tc op projectID :
  calm cx -> From_ cx = inr tc ->
  reads (fun st db => st = settings_of db (OrgID tc) projectID) (effective cx op (OrgID tc) projectID).
Proof.
  intros Hq F. unfold effective.
  eapply reads_bind; [apply reads_try, reads_ledger_ByProject; auto|].
  intros [e|st] [db0 _].
  - destruct (IsLedgerNotFound e) eqn:E; [|apply reads_unexpected; auto].
    apply reads_ret. intros db [Hi|[_ Hd]]; [|auto]. rewrite infra_not_ledger in E by exact Hi. discriminate.
  - apply reads_ret. auto.
Qed.

Lemma runs_ledger_Save cx tc st :
  quiet -> cx_tx cx = false -> From_ cx = inr tc ->
  commits (fun _ db db' => exists n, ledger_upsert tc st db = inr (db', S n)) (ledger_Save cx st).
Proof.
  intros Hq Hx F. unfold ledger_Save. apply commits_write_tx; auto.
  intros tc' F'. rewrite F in F'. injection F' as <-. apply runs_exec_save.
Qed.
End Reads.

(** [Update] is all or nothing: when it succeeds the stored row is the
    caller's own project's, it holds the current settings (or the defaults of a
    project never configured) with the patch applied and nothing else in the
    database changed; when it fails, whatever failed, nothing changed. *)
Theorem ledger_Update_atomic `{Env, Unicode, TZDatabase} cx p :
  quiet -> cx_tx cx = false ->
  commits (fun st db db' => exists tc now row,
      From_ cx = inr tc
      /\ Apply (settings_of db (OrgID tc) (ProjectID tc)) p now = inr st
      /\ db' = set_ledger (<[s_ProjectID st := row]> (db_ledger db)) db
      /\ s_OrgID row = OrgID tc /\ s_Timezone row = s_Timezone st /\ s_Currency row = s_Currency st
      /\ s_PeriodStartDay row = s_PeriodStartDay st /\ s_UpdatedAt row = now)
    (ledger_Update cx p).
Proof.
  intros Hq Hx. unfold ledger_Update.
  eapply commits_read_bind; [apply (reads_of _ _ _ (reads_from_tenant cx))|]. intros tc [db0 F].
  eapply commits_read_bind; [apply reads_effective; [right; exact Hq | exact F]|]. intros cur _.
  eapply commits_read_bind; [apply reads_time_Now|]. intros now _.
  destruct (Apply cur p now) as [e|st] eqn:A; [apply commits_err|].
  apply (commits_try_bind _ _ (fun _ db db' => exists n, ledger_upsert tc st db = inr (db', S n))).
  - apply runs_ledger_Save; auto.
  - intros e. destruct (IsLedgerNotFound e); apply commits_err.
  - intros []. exists st. split; [reflexivity|]. intros db db' [n E] _ Hcur _. subst cur.
    apply ledger_upsert_effect in E as [[[=] _]|(_ & row & -> & R1 & R2 & R3 & R4 & R5 & R6)].
    exists tc, now, row. pose proof A as A'. apply Apply_ok_inv in A as (tz & c & d & _ & _ & _ & ->).
    cbn [s_UpdatedAt s_ProjectID s_OrgID] in *. split; [exact F|]. split; [exact A'|].
    split; [reflexivity|]. split; [|auto].
    destruct (db_ledger db !! _) as [old|] eqn:El.
    + destruct (R5 old eq_refl) as (Ho & -> & _). exact Ho.
    + rewrite (R6 eq_refl). cbn [s_OrgID]. unfold settings_of.
      destruct (db_ledger db !! ProjectID tc) as [row0|]; [|reflexivity].
      destruct (N.eqb_spec (s_OrgID row0) (OrgID tc)); [assumption | reflexivity].
Qed.

Lemma ledger_Update_atomic_witness :
  let run := @ledger_Update demo_env demo_unicode demo_tz demo_cx (mkPatch None (Some " usd ") (Some 25%Z)) demo_world in
  exists st row, fst run = Ok st
    /\ db_ledger (W_db (snd run)) = {[2%N := row]} /\ s_Currency row = "USD" /\ s_PeriodStartDay row = 25%Z.
Proof.
  intros run.
  destruct (proj1 (@ledger_Update_atomic demo_env demo_unicode demo_tz demo_cx
    (mkPatch None (Some " usd ") (Some 25%Z)) demo_quiet eq_refl) demo_world _ eq_refl)
    as (tc & now & row & F & A & E & H1 & H2 & H3 & H4 & H5).
  eexists. exists row. split; [vm_compute; reflexivity|].
  fold run in E. rewrite E. vm_compute in H3, H4. split; [reflexivity | split; [exact H3 | exact H4]].
Defined.
