(* ===== verification/PeriodStore.v ===== *)
(** * The periods tables and their store ([internal/period/sqlite.go])

    The statements with the constraints of [005_yasaku.sql] and
    [013_key_authorship.sql], and the store's operations over them. Dates are
    compared as days: the text order of the columns is the calendar order
    ([Civil.Date_text_order]). *)
From Stdlib Require Import ZArith Lia String List.
From stdpp Require Import base gmap list strings.
From S2P Require Import Prelude GoStrings Errors Civil Money Tenant Ledger Period World.
Local Open Scope string_scope.

(** ** The table's constraints *)
Definition period_check (p : Period) : option string :=
  match pr_EndDate p with
  | Some e => if Before e (pr_StartDate p) then Some "CHECK constraint failed: end_date >= start_date" else None
  | None => if IsLocked p then Some "CHECK constraint failed: status = 'open' OR end_date IS NOT NULL" else None
  end.

(** The partial unique index on [project_id] where [end_date] is null. *)
Definition current_conflict (db : DB) (p : Period) : bool :=
  IsCurrent p &&
  existsb (fun q => negb (N.eqb (pr_ID q) (pr_ID p)) && N.eqb (pr_ProjectID q) (pr_ProjectID p) && IsCurrent q)
    (rows (db_periods db)).

Definition period_scope_fk (db : DB) (p : Period) : bool :=
  bool_decide (pr_OrgID p ∈ db_orgs db) && bool_decide (pr_ProjectID p ∈ db_projects db).

Definition UNIQUE_current : SqliteCode * string :=
  (CONSTRAINT_UNIQUE, "UNIQUE constraint failed: periods.project_id").
Definition FK_failed : SqliteCode * string := (CONSTRAINT_FOREIGNKEY, "FOREIGN KEY constraint failed").

(** The row an upsert leaves: the conflict clause keeps id, scope and creation time. *)
Definition updated_period (old p : Period) : Period :=
  mkPeriod (pr_ID old) (pr_OrgID old) (pr_ProjectID old) (pr_Name p) (pr_StartDate p) (pr_EndDate p)
    (pr_Status p) (pr_ClosedAt p) (pr_Snapshot p) (pr_CreatedAt old) (pr_UpdatedAt p).

Definition period_upsert (tc : Tenant) (p : Period) : Statement := fun db =>
  match period_check p with
  | Some msg => inl (CONSTRAINT_CHECK, msg)
  | None =>
    match db_periods db !! pr_ID p with
    | Some old =>
      if N.eqb (pr_OrgID old) (OrgID tc) && N.eqb (pr_ProjectID old) (ProjectID tc) then
        let row := updated_period old p in
        if current_conflict db row then inl UNIQUE_current
        else inr (set_periods (<[pr_ID p := row]> (db_periods db)) db, 1%nat)
      else inr (db, 0%nat)
    | None =>
      if current_conflict db p then inl UNIQUE_current else
      if period_scope_fk db p then inr (set_periods (<[pr_ID p := p]> (db_periods db)) db, 1%nat)
      else inl FK_failed
    end
  end.

(** The insert of [CreateCurrent]: ON CONFLICT (project_id) WHERE end_date IS NULL DO NOTHING. *)
Definition period_insert_current (p : Period) : Statement := fun db =>
  match period_check p with
  | Some msg => inl (CONSTRAINT_CHECK, msg)
  | None =>
    if IsCurrent p && existsb (fun q => N.eqb (pr_ProjectID q) (pr_ProjectID p) && IsCurrent q) (rows (db_periods db))
    then inr (db, 0%nat) else
    match db_periods db !! pr_ID p with
    | Some _ => inl (CONSTRAINT_PRIMARYKEY, "UNIQUE constraint failed: periods.id")
    | None =>
      if period_scope_fk db p then inr (set_periods (<[pr_ID p := p]> (db_periods db)) db, 1%nat)
      else inl FK_failed
    end
  end.

(** [sqliteAuthorExprs]: the user and key columns, [None] for NULL. *)
Definition sqliteAuthorExprs (user key : uuid) : option uuid * option uuid :=
  if negb (N.eqb key uuid_Nil) then (None, Some key) else (Some user, None).
Definition author_one (cols : option uuid * option uuid) : bool :=
  match cols with (None, Some _) | (Some _, None) => true | _ => false end.
Definition opt_uuid (o : option uuid) : uuid := match o with Some u => u | None => uuid_Nil end.

Definition closing_insert (c : Closing) : Statement := fun db =>
  let cols := sqliteAuthorExprs (cl_ClosedBy c) (cl_ClosedByKeyID c) in
  if negb (author_one cols) then inl (CONSTRAINT_CHECK, "CHECK constraint failed: period_closings_author_one") else
  match db_closings db !! cl_ID c with
  | Some _ => inl (CONSTRAINT_PRIMARYKEY, "UNIQUE constraint failed: period_closings.id")
  | None =>
    let period_fk := match db_periods db !! cl_PeriodID c with
                     | Some p => N.eqb (pr_OrgID p) (cl_OrgID c) | None => false end in
    let key_fk := match snd cols with Some k => bool_decide (k ∈ db_keys db) | None => true end in
    if bool_decide (cl_OrgID c ∈ db_orgs db) && bool_decide (cl_ProjectID c ∈ db_projects db)
       && period_fk && key_fk
    then inr (set_closings (<[cl_ID c := mkClosing (cl_ID c) (cl_OrgID c) (cl_ProjectID c) (cl_PeriodID c)
                (cl_ClosedAt c) (opt_uuid (fst cols)) (opt_uuid (snd cols)) (cl_Snapshot c)]>
                (db_closings db)) db, 1%nat)
    else inl FK_failed
  end.

Definition newOverlapError (p : Period) : PeriodError :=
  OverlapError (Date_String (pr_StartDate p))
    (match pr_EndDate p with Some e => Date_String e | None => "" end).

(** [translateSQLiteError]. *)
Definition period_translate (p : Period) (e : Error) : option Error :=
  match e with
  | ESqlite CONSTRAINT_UNIQUE _ => Some (EPeriod (newOverlapError p))
  | ESqlite CONSTRAINT_CHECK msg => if Contains msg "author_one" then Some (EPeriod PeriodAuthorMissingError) else None
  | _ => None
  end.

(** Newest start first, then newest id. *)
Definition period_desc (p q : Period) : bool :=
  (days (pr_StartDate q) <? days (pr_StartDate p))%Z
  || ((days (pr_StartDate q) =? days (pr_StartDate p))%Z && (pr_ID q <=? pr_ID p)%N).
Definition period_asc (p q : Period) : bool := period_desc q p.
Definition closing_desc (c d : Closing) : bool :=
  (cl_ClosedAt d <? cl_ClosedAt c)%Z || ((cl_ClosedAt d =? cl_ClosedAt c)%Z && (cl_ID d <=? cl_ID c)%N).

Definition period_scope (orgID projectID ctxOrgID : uuid) (p : Period) : bool :=
  N.eqb (pr_OrgID p) orgID && N.eqb (pr_OrgID p) ctxOrgID && N.eqb (pr_ProjectID p) projectID.

(** [LIMIT n], where a limit that is not positive is left out. *)
Definition limited {A} (limit : Z) (l : list A) : list A :=
  if (0 <? limit)%Z then firstn (Z.to_nat limit) l else l.

(** ** The store *)
Section Store.
Context `{Env}.

Definition period_queryOne (where_ : Period -> bool) (notFoundID : string) : M Period :=
  let* r := query "period.sqlite.queryOne" (fun db => List.find where_ (rows (db_periods db))) in
  match r with Some p => st_ret p | None => st_err (EPeriod (PeriodNotFoundError notFoundID)) end.

Definition period_queryEdge (where_ : Period -> bool) (order : Period -> Period -> bool) : M (option Period) :=
  query "period.sqlite.queryEdge"
    (fun db => head (sort_by order (List.filter where_ (rows (db_periods db))))).

Definition period_Save (cx : Ctx) (p : Period) : M unit :=
  write_tx "period" cx (fun tc =>
    exec_save "period.sqlite.Save" (period_translate p)
      (EPeriod (PeriodNotFoundError (uuid_String (pr_ID p)))) (period_upsert tc p)).

Definition period_CreateCurrent (cx : Ctx) (p : Period) : M bool :=
  write_tx "period" cx (fun tc =>
    if negb (N.eqb (pr_OrgID p) (OrgID tc) && N.eqb (pr_ProjectID p) (ProjectID tc))
    then st_err (EPeriod (PeriodNotFoundError (uuid_String (pr_ID p)))) else
    let* n := st_maperr (EWrap "period.sqlite.CreateCurrent") (exec_stmt (period_insert_current p)) in
    st_ret (Nat.eqb n 1)).

Definition period_SaveClosing (cx : Ctx) (c : Closing) : M unit :=
  write_tx "period" cx (fun tc =>
    if negb (N.eqb (cl_OrgID c) (OrgID tc) && N.eqb (cl_ProjectID c) (ProjectID tc))
    then st_err (EPeriod (PeriodNotFoundError (uuid_String (cl_PeriodID c)))) else
    let* r := st_try (exec_stmt (closing_insert c)) in
    match r with
    | inr _ => st_ret tt
    | inl (ESqlite CONSTRAINT_CHECK msg as e) =>
      if Contains msg "author_one" then st_err (EPeriod PeriodAuthorMissingError)
      else st_err (EWrap "period.sqlite.SaveClosing" e)
    | inl e => st_err (EWrap "period.sqlite.SaveClosing" e)
    end).

Definition period_store_ByID (cx : Ctx) (id : uuid) : M Period :=
  read_tx "period" cx (fun tc =>
    period_queryOne (fun p => N.eqb (pr_ID p) id && N.eqb (pr_OrgID p) (OrgID tc)) (uuid_String id)).
Definition period_store_ByIDLocked (cx : Ctx) (id : uuid) : M Period := period_store_ByID cx id.

Definition period_store_Current (cx : Ctx) (orgID projectID : uuid) : M Period :=
  read_tx "period" cx (fun tc =>
    period_queryOne (fun p => period_scope orgID projectID (OrgID tc) p && IsCurrent p) (uuid_String projectID)).

Definition period_store_Containing (cx : Ctx) (orgID projectID : uuid) (d : Date) : M Period :=
  read_tx "period" cx (fun tc =>
    period_queryOne (fun p => period_scope orgID projectID (OrgID tc) p
        && (days (pr_StartDate p) <=? days d)%Z
        && match pr_EndDate p with None => true | Some e => (days d <=? days e)%Z end)
      (Date_String d)).

Definition period_store_List (cx : Ctx) (orgID projectID : uuid) (opts : ListOpts) : M (list Period) :=
  read_tx "period" cx (fun tc =>
    query "period.sqlite.List" (fun db =>
      limited (lo_Limit opts) (sort_by period_desc (List.filter
        (fun p => period_scope orgID projectID (OrgID tc) p
           && match lo_Before opts with None => true | Some b => (days (pr_StartDate p) <? days b)%Z end)
        (rows (db_periods db)))))).

Definition period_store_Neighbors (cx : Ctx) (orgID projectID id : uuid) : M (option Period * option Period) :=
  read_tx "period" cx (fun tc =>
    let scope := period_scope orgID projectID (OrgID tc) in
    let* self := period_queryOne (fun p => scope p && N.eqb (pr_ID p) id) (uuid_String id) in
    let start := days (pr_StartDate self) in
    let* prev := period_queryEdge (fun p => scope p && (days (pr_StartDate p) <? start)%Z) period_desc in
    let* next := period_queryEdge (fun p => scope p && (start <? days (pr_StartDate p))%Z) period_asc in
    st_ret (prev, next)).

Definition period_store_ListClosings (cx : Ctx) (orgID projectID periodID : uuid) : M (list Closing) :=
  read_tx "period" cx (fun tc =>
    query "period.sqlite.ListClosings" (fun db =>
      sort_by closing_desc (List.filter
        (fun c => N.eqb (cl_OrgID c) orgID && N.eqb (cl_OrgID c) (OrgID tc) && N.eqb (cl_ProjectID c) projectID
           && N.eqb (cl_PeriodID c) periodID) (rows (db_closings db))))).
End Store.
