(* ===== verification/PeriodService.v ===== *)
(** * The periods service ([internal/period/service.go]) *)
From Stdlib Require Import ZArith Lia String List.
From stdpp Require Import base gmap list strings.
From S2P Require Import Prelude GoStrings Errors Civil Money Tenant Ledger Period World LedgerService PeriodStore.
Local Open Scope string_scope.

(** ** The ports the service is given *)

(** [period.SettingsReader]; a nil location is [None]. *)
Class SettingsReader := {
  sr_Location : Ctx -> uuid -> uuid -> M (option Location);
  sr_StartDay : Ctx -> uuid -> uuid -> M Z
}.
(** [period.Snapshotter]. *)
Class Snapshotter := {
  snap_Snapshot : Ctx -> uuid -> uuid -> uuid -> Date -> Z -> M Snapshot
}.

Class SettingsReaderLaws `{Env} `{SettingsReader} := {
  sr_Location_read cx o p : read_only (sr_Location cx o p);
  sr_StartDay_read cx o p : read_only (sr_StartDay cx o p);
  sr_Location_in_tx o p : reads_in_tx (fun cx => sr_Location cx o p);
  sr_StartDay_in_tx o p : reads_in_tx (fun cx => sr_StartDay cx o p)
}.
Class SnapshotterLaws `{Env} `{Snapshotter} := {
  snap_read cx o p id end_ at_ : read_only (snap_Snapshot cx o p id end_ at_);
  snap_in_tx o p id end_ at_ : reads_in_tx (fun cx => snap_Snapshot cx o p id end_ at_)
}.

Section Service.
Context `{Env, SettingsReader, Snapshotter}.

(** [time.Time.Truncate(time.Microsecond)] of an instant after the zero time. *)
Definition Truncate_us (t : Z) : Z := (t - t mod 1000)%Z.

Definition period_author (cx : Ctx) (by_ : uuid) : PeriodError + (uuid * uuid) :=
  match author cx by_ with Some uk => inr uk | None => inl PeriodAuthorMissingError end.

Definition scopedRow (cx : Ctx) (tc : Tenant) (id : uuid) (read : Ctx -> uuid -> M Period) : M Period :=
  let* r := st_try (read cx id) in
  match r with
  | inl e => if IsPeriodNotFound e then st_err e else unexpected "period.scoped: byID" e
  | inr p =>
    if negb (N.eqb (pr_OrgID p) (OrgID tc)) || negb (N.eqb (pr_ProjectID p) (ProjectID tc))
    then st_err (EPeriod (PeriodNotFoundError (uuid_String id))) else st_ret p
  end.
Definition scoped (cx : Ctx) (tc : Tenant) (id : uuid) : M Period := scopedRow cx tc id period_store_ByID.
Definition scopedLocked (cx : Ctx) (tc : Tenant) (id : uuid) : M Period :=
  scopedRow cx tc id period_store_ByIDLocked.

Definition location (cx : Ctx) (tc : Tenant) : M Location :=
  let* r := st_try (sr_Location cx (OrgID tc) (ProjectID tc)) in
  match r with
  | inl e => unexpected "period.location: location" e
  | inr None => st_ret UTC
  | inr (Some loc) => st_ret loc
  end.

Definition cycle (cx : Ctx) (tc : Tenant) : M (Location * Z) :=
  let* loc := location cx tc in
  let* r := st_try (sr_StartDay cx (OrgID tc) (ProjectID tc)) in
  match r with
  | inl e => unexpected "period.cycle: start day" e
  | inr day => st_ret (loc, day)
  end.

Definition checkClosable (cx : Ctx) (tc : Tenant) (p : Period) (end_ : Date) : M unit :=
  if IsLocked p then st_err (EPeriod (AlreadyClosedError (uuid_String (pr_ID p)))) else
  match pr_EndDate p with
  | Some e =>
    if negb (Compare end_ e =? 0)%Z then st_err (EPeriod (InvalidRangeError "end date is fixed after reopen"))
    else st_ret tt
  | None =>
    if Before end_ (pr_StartDate p)
    then st_err (EPeriod (InvalidRangeError "end date is before the start date")) else
    let* loc := location cx tc in
    let* now := time_Now in
    if Before (DateOf now loc) end_ then st_err (EPeriod (InvalidRangeError "end date is in the future"))
    else st_ret tt
  end.
Definition closable (cx : Ctx) (tc : Tenant) (id : uuid) (end_ : Date) : M Period :=
  let* p := scoped cx tc id in checkClosable cx tc p end_ ;;; st_ret p.
Definition closableLocked (cx : Ctx) (tc : Tenant) (id : uuid) (end_ : Date) : M Period :=
  let* p := scopedLocked cx tc id in checkClosable cx tc p end_ ;;; st_ret p.

Definition currentAfterRace (cx : Ctx) (tc : Tenant) : M Period :=
  let* r := st_try (period_store_Current cx (OrgID tc) (ProjectID tc)) in
  match r with
  | inr cur => st_ret cur
  | inl e => if IsPeriodNotFound e then st_err e
             else unexpected "period.EnsureCurrent: reread after race" e
  end.

Definition EnsureCurrent (cx : Ctx) : M Period :=
  let* tc := from_tenant cx in
  let* r := st_try (period_store_Current cx (OrgID tc) (ProjectID tc)) in
  match r with
  | inr cur => st_ret cur
  | inl e =>
    if negb (IsPeriodNotFound e) then unexpected "period.EnsureCurrent: current" e else
    let* ' (loc, startDay) := cycle cx tc in
    let* now := time_Now in
    let start := FirstStart (DateOf now loc) startDay in
    let* id := NewV7 in
    let* stamp := time_Now in
    match Period_New id stamp (OrgID tc) (ProjectID tc) start "" with
    | inl e => st_err (EPeriod e)
    | inr first =>
      let* c := st_try (period_CreateCurrent cx first) in
      match c with
      | inl e => unexpected "period.EnsureCurrent: create" e
      | inr created => if negb created then currentAfterRace cx tc else st_ret first
      end
    end
  end.

Definition period_SuggestedEnd (cx : Ctx) (id : uuid) : M Date :=
  let* tc := from_tenant cx in
  let* p := scoped cx tc id in
  match pr_EndDate p with
  | Some e => st_ret e
  | None =>
    let* ' (loc, startDay) := cycle cx tc in
    let* now := time_Now in
    st_ret (SuggestedEnd (pr_StartDate p) (DateOf now loc) startDay)
  end.

Definition Reopenable (cx : Ctx) : M (option Period) :=
  let* tc := from_tenant cx in
  let* r := st_try (period_store_List cx (OrgID tc) (ProjectID tc) all_periods) in
  match r with
  | inl e => unexpected "period.Reopenable: list" e
  | inr items => st_ret (LatestClosed items)
  end.

Definition Current (cx : Ctx) : M Period :=
  let* tc := from_tenant cx in
  let* r := st_try (period_store_Current cx (OrgID tc) (ProjectID tc)) in
  match r with
  | inr cur => st_ret cur
  | inl e => if IsPeriodNotFound e then st_err e else unexpected "period.Current: current" e
  end.

Definition period_List (cx : Ctx) (opts : ListOpts) : M (list Period) :=
  let* tc := from_tenant cx in
  let* r := st_try (period_store_List cx (OrgID tc) (ProjectID tc) opts) in
  match r with inl e => unexpected "period.List: list" e | inr out => st_ret out end.

Definition period_ByID (cx : Ctx) (id : uuid) : M Period :=
  let* tc := from_tenant cx in scoped cx tc id.

Definition Rename (cx : Ctx) (id : uuid) (name : string) : M Period :=
  let* tc := from_tenant cx in
  let* p := scoped cx tc id in
  let* now := time_Now in
  match Period_Rename p name now with
  | inl e => st_err (EPeriod e)
  | inr p =>
    let* r := st_try (period_Save cx p) in
    match r with
    | inr _ => st_ret p
    | inl e => if period_isDomainError e then st_err e else unexpected "period.Rename: save" e
    end
  end.

Definition PreviewClose (cx : Ctx) (id : uuid) (end_ : Date) : M Snapshot :=
  let* tc := from_tenant cx in
  let* p := closable cx tc id end_ in
  let* now := time_Now in
  let* r := st_try (snap_Snapshot cx (OrgID tc) (ProjectID tc) (pr_ID p) end_ now) in
  match r with inl e => unexpected "period.PreviewClose: snapshot" e | inr snap => st_ret snap end.

(** The period [Close] saves: locked at [closedAt] with its snapshot, its end set on a first close. *)
Definition closed_period (p : Period) (end_ : Date) (closedAt : Z) (snap : Snapshot) : Period :=
  mkPeriod (pr_ID p) (pr_OrgID p) (pr_ProjectID p) (pr_Name p) (pr_StartDate p)
    (if IsCurrent p then Some end_ else pr_EndDate p)
    StatusClosed (Some closedAt) (Some snap) (pr_CreatedAt p) closedAt.

(** The body of [Close]'s unit of work. Its error carries the captured
    [snapErr]: whether the snapshot was what failed. *)
Definition close_body (tc : Tenant) (id : uuid) (end_ : Date) (by_ : uuid) (closedAt : Z) (cx : Ctx)
    : ST World (Error * bool) Period :=
  let fails {A} (m : M A) := st_maperr (fun e => (e, false)) m in
  let* p := fails (closableLocked cx tc id end_) in
  let firstClose := IsCurrent p in
  let* snap := st_maperr (fun e => (e, true))
                 (snap_Snapshot cx (OrgID tc) (ProjectID tc) (pr_ID p) end_ closedAt) in
  let p := closed_period p end_ closedAt snap in
  fails (period_Save cx p) ;;;
  match period_author cx by_ with
  | inl e => st_err (EPeriod e, false)
  | inr (closedBy, closedByKey) =>
    let* cid := NewV7 in
    fails (period_SaveClosing cx
      (mkClosing cid (pr_OrgID p) (pr_ProjectID p) (pr_ID p) closedAt closedBy closedByKey snap)) ;;;
    if negb firstClose then st_ret p else
    let* nid := NewV7 in
    let* stamp := time_Now in
    match Period_New nid stamp (pr_OrgID p) (pr_ProjectID p) (AddDays end_ 1) "" with
    | inl e => st_err (EPeriod e, false)
    | inr next => fails (period_Save cx next) ;;; st_ret p
    end
  end.

Definition Close (cx : Ctx) (id : uuid) (end_ : Date) (by_ : uuid) : M Period :=
  let* tc := from_tenant cx in
  closable cx tc id end_ ;;;
  let* now := time_Now in
  let closedAt := Truncate_us now in
  let* r := st_try (RunInTx (fun e => (e, false)) cx (close_body tc id end_ by_ closedAt)) in
  match r with
  | inr closed => st_ret closed
  | inl (e, true) => unexpected "period.Close: snapshot" e
  | inl (e, false) => if period_isDomainError e then st_err e else unexpected "period.Close: commit" e
  end.

(** The period [Reopen] saves: open again, its end and stale snapshot kept. *)
Definition reopened (p : Period) (now : Z) : Period :=
  mkPeriod (pr_ID p) (pr_OrgID p) (pr_ProjectID p) (pr_Name p) (pr_StartDate p) (pr_EndDate p)
    StatusOpen (pr_ClosedAt p) (pr_Snapshot p) (pr_CreatedAt p) now.

Definition Reopen (cx : Ctx) (id : uuid) : M Period :=
  let* tc := from_tenant cx in
  let* p := scoped cx tc id in
  if negb (IsLocked p) then st_err (EPeriod (NotClosedError (uuid_String id))) else
  let* r := st_try (period_store_List cx (OrgID tc) (ProjectID tc) all_periods) in
  match r with
  | inl e => unexpected "period.Reopen: list" e
  | inr siblings =>
    if negb (match LatestClosed siblings with Some latest => N.eqb (pr_ID latest) (pr_ID p) | None => false end)
    then st_err (EPeriod (NotLatestClosedError (uuid_String id))) else
    let* now := time_Now in
    let p := reopened p now in
    let* s := st_try (period_Save cx p) in
    match s with
    | inr _ => st_ret p
    | inl e => if period_isDomainError e then st_err e else unexpected "period.Reopen: save" e
    end
  end.

Definition Containing (cx : Ctx) (at_ : Z) : M Period :=
  let* tc := from_tenant cx in
  EnsureCurrent cx ;;;
  let* loc := location cx tc in
  let* r := st_try (period_store_Containing cx (OrgID tc) (ProjectID tc) (DateOf at_ loc)) in
  match r with
  | inr p => st_ret p
  | inl e => if IsPeriodNotFound e then st_err e else unexpected "period.Containing: containing" e
  end.

Definition period_OpeningDate (cx : Ctx) (at_ : Z) : M OpeningDate :=
  let* tc := from_tenant cx in
  let* loc := location cx tc in
  let today := DateOf at_ loc in
  let kept := mkOpeningDate at_ today false in
  let* r := st_try (period_store_Containing cx (OrgID tc) (ProjectID tc) today) in
  match r with
  | inl e => if IsPeriodNotFound e then st_ret kept else unexpected "period.OpeningDate: containing" e
  | inr p =>
    if negb (IsLocked p) then st_ret kept else
    let* l := st_try (period_store_List cx (OrgID tc) (ProjectID tc) all_periods) in
    match l with
    | inl e => unexpected "period.OpeningDate: list" e
    | inr items =>
      let start := NextOpenStart items p today in
      st_ret (mkOpeningDate (In_ start loc) start true)
    end
  end.

Definition Neighbors (cx : Ctx) (id : uuid) : M (option Period * option Period) :=
  let* tc := from_tenant cx in
  scoped cx tc id ;;;
  let* r := st_try (period_store_Neighbors cx (OrgID tc) (ProjectID tc) id) in
  match r with
  | inr pn => st_ret pn
  | inl e => if IsPeriodNotFound e then st_err e else unexpected "period.Neighbors: neighbors" e
  end.

Definition Closings (cx : Ctx) (id : uuid) : M (list Closing) :=
  let* tc := from_tenant cx in
  scoped cx tc id ;;;
  let* r := st_try (period_store_ListClosings cx (OrgID tc) (ProjectID tc) id) in
  match r with inl e => unexpected "period.Closings: list" e | inr out => st_ret out end.
End Service.

(** ** Wiring: the ledger module as the periods' settings ([internal/boot]

    The ledger service satisfies [period.SettingsReader]; its laws are those
    the periods' theorems ask of that port. A small snapshotter for witnesses
    stands in for the report module. *)
Section LedgerSettings.
Context `{Env, Unicode, TZDatabase}.

#[export] Instance ledger_settings : SettingsReader := {|
  sr_Location := fun cx o p => let* loc := ledger_Location cx o p in st_ret (Some loc);
  sr_StartDay := ledger_StartDay
|}.

Lemma effective_read_only cx op o p : read_only (effective cx op o p).
Proof.
  intros R HR rely. unfold effective. apply preserves_bind; [exact _ | |].
  - apply preserves_try. unfold ledger_ByProject. apply pres_read_tx; [exact _ | exact rely|].
    intros tc. apply preserves_bind; [exact _ | apply pres_query, _|].
    intros [st|]; [destruct (_ && _)%bool|]; first [apply preserves_err, _ | apply preserves_ret, _].
  - intros [e|st]; [destruct (IsLedgerNotFound e)|]; first [apply preserves_err, _ | apply preserves_ret, _].
Qed.
Lemma effective_reads cx op o p : calm cx -> reads (fun _ _ => True) (effective cx op o p).
Proof.
  intros Hc. unfold effective. eapply (reads_seq _ _ (fun _ _ => True)).
  - eapply reads_e_conseq; [apply reads_try, (reads_read_tx "ledger" cx _ (fun _ _ => True) (fun _ _ => True)); auto | auto | auto].
    intros tc _. eapply reads_seq; [apply (reads_of _ _ _ (reads_query _ _))|].
    intros [st|] _; [destruct (_ && _)%bool|]; first [apply reads_err; auto | apply reads_ret; auto].
  - intros [e|st] _; [destruct (IsLedgerNotFound e)|]; first [apply reads_err; auto | apply reads_ret; auto].
Qed.

Lemma Location_read_only cx o p : read_only (sr_Location cx o p).
Proof.
  intros R HR rely. simpl. apply preserves_bind; [exact _ | | intros; apply preserves_ret, _].
  unfold ledger_Location. apply preserves_bind; [exact _ | apply effective_read_only; assumption|].
  intros st. destruct (Settings_Location st); first [apply preserves_err, _ | apply preserves_ret, _].
Qed.
Lemma StartDay_read_only cx o p : read_only (sr_StartDay cx o p).
Proof.
  intros R HR rely. simpl. unfold ledger_StartDay.
  apply preserves_bind; [exact _ | apply effective_read_only; assumption | intros; apply preserves_ret, _].
Qed.
Lemma Location_in_tx o p : reads_in_tx (fun cx => sr_Location cx o p).
Proof.
  intros cx Hx. simpl. eapply (reads_seq _ _ (fun _ _ => True)); [|intros; apply reads_ret; auto].
  unfold ledger_Location. eapply (reads_seq _ _ (fun _ _ => True)); [apply effective_reads; left; exact Hx|].
  intros st _. destruct (Settings_Location st); [apply reads_err | apply reads_ret]; auto.
Qed.

Lemma StartDay_in_tx o p : reads_in_tx (fun cx => sr_StartDay cx o p).
Proof.
  intros cx Hx. simpl. unfold ledger_StartDay.
  apply reads_any_bind; [apply effective_reads; left; exact Hx | intros st; apply reads_ret; auto].
Qed.

#[export] Instance ledger_settings_laws : SettingsReaderLaws.
Proof.
  constructor; [apply Location_read_only | apply StartDay_read_only | apply Location_in_tx | apply StartDay_in_tx].
Qed.
End LedgerSettings.

(** A snapshotter that counts the rows of the transactions table. *)
Section DemoSnapshot.
Context `{Env}.

#[export] Instance demo_snapshotter : Snapshotter := {|
  snap_Snapshot := fun _ _ _ _ _ at_ =>
    query "demo" (fun db => mkSnapshot IDR 0 0 0 (Z.of_nat (size (db_txs db))) [] at_)
|}.
#[export] Instance demo_snapshotter_laws : SnapshotterLaws.
Proof.
  constructor.
  - intros cx o p id e a R HR rely. apply pres_query, _.
  - intros o p id e a cx _. eapply reads_e_conseq; [apply reads_query | auto | auto].
Qed.
End DemoSnapshot.
