(* ===== verification/PeriodTheory.v ===== *)
(** * The chain of periods

    The periods of a project form a chain: they do not overlap, the day after
    an ended one is the start of another, and one of them is current. This file
    states that invariant, shows that every operation of the periods service
    keeps it whatever the other sessions do within the same rules, and gives the
    exact effect of a close. *)
From Stdlib Require Import ZArith Lia String List.
From stdpp Require Import base gmap list strings.
From S2P Require Import Prelude GoStrings Errors Civil Money Tenant Ledger Period World PeriodStore PeriodService.
Local Open Scope string_scope.
Local Open Scope Z_scope.

(** ** The invariant *)
Definition before (p q : Period) : Prop := exists e, pr_EndDate p = Some e /\ days e < days (pr_StartDate q).

Record Chain (db : DB) : Prop := mkChain {
  ch_key : forall i p, db_periods db !! i = Some p -> pr_ID p = i;
  ch_end : forall i p e, db_periods db !! i = Some p -> pr_EndDate p = Some e ->
    days (pr_StartDate p) <= days e;
  ch_locked : forall i p, db_periods db !! i = Some p -> IsLocked p = true -> IsCurrent p = false;
  ch_current : forall i p, db_periods db !! i = Some p ->
    exists j q, db_periods db !! j = Some q /\ pr_ProjectID q = pr_ProjectID p /\ IsCurrent q = true;
  ch_next : forall i p e, db_periods db !! i = Some p -> pr_EndDate p = Some e ->
    exists j q, db_periods db !! j = Some q /\ pr_ProjectID q = pr_ProjectID p
      /\ days (pr_StartDate q) = days e + 1;
  ch_disjoint : forall i j p q, db_periods db !! i = Some p -> db_periods db !! j = Some q -> i <> j ->
    pr_ProjectID p = pr_ProjectID q -> before p q \/ before q p
}.

(** What an operation may do to the periods: keep them all, with their scope
    and start, and never change an end once set. *)
Definition grows (db db' : DB) : Prop :=
  forall i p, db_periods db !! i = Some p ->
    exists p', db_periods db' !! i = Some p' /\ pr_OrgID p' = pr_OrgID p /\ pr_ProjectID p' = pr_ProjectID p
      /\ pr_StartDate p' = pr_StartDate p /\ (forall e, pr_EndDate p = Some e -> pr_EndDate p' = Some e).

Definition guar (db db' : DB) : Prop := Chain db -> Chain db' /\ grows db db'.

Lemma grows_refl db : grows db db.
Proof. intros i p Hp. exists p. auto. Qed.
#[export] Instance guar_pre : PreOrder guar.
Proof.
  split.
  - intros db Hc. split; [exact Hc | apply grows_refl].
  - intros a b c Hab Hbc Ha. destruct (Hab Ha) as [Hb G1]. destruct (Hbc Hb) as [Hc G2].
    split; [exact Hc|]. intros i p Hp. destruct (G1 i p Hp) as (p1 & H1 & O1 & P1 & S1 & E1).
    destruct (G2 i p1 H1) as (p2 & H2 & O2 & P2 & S2 & E2).
    exists p2. split; [exact H2|]. split; [congruence|]. split; [congruence|]. split; [congruence|]. auto.
Qed.

Lemma IsCurrent_spec p : IsCurrent p = true <-> pr_EndDate p = None.
Proof. unfold IsCurrent. destruct (pr_EndDate p); split; congruence. Qed.
Lemma IsCurrent_false p : IsCurrent p = false <-> exists e, pr_EndDate p = Some e.
Proof. unfold IsCurrent. destruct (pr_EndDate p); split; try congruence; eauto. intros [e [=]]. Qed.

Lemma before_not_current p q : before p q -> IsCurrent p = false.
Proof. intros (e & He & _). apply IsCurrent_false. eauto. Qed.

Lemma chain_current_unique db i j p q : Chain db ->
  db_periods db !! i = Some p -> db_periods db !! j = Some q -> pr_ProjectID p = pr_ProjectID q ->
  IsCurrent p = true -> IsCurrent q = true -> i = j.
Proof.
  intros Hc Hp Hq Epr Cp Cq. destruct (decide (i = j)) as [|Hne]; [assumption|].
  destruct (ch_disjoint db Hc i j p q Hp Hq Hne Epr) as [B|B]; apply before_not_current in B; congruence.
Qed.

(** The conflict the partial unique index reports. *)
Lemma current_conflict_spec db p : Chain db ->
  current_conflict db p = true <->
  IsCurrent p = true /\ exists j q, db_periods db !! j = Some q /\ j <> pr_ID p
     /\ pr_ProjectID q = pr_ProjectID p /\ IsCurrent q = true.
Proof.
  intros Hc. unfold current_conflict. rewrite andb_true_iff, existsb_exists. split.
  - intros [Hp (q & Hq & Hx)]. split; [exact Hp|]. apply rows_In in Hq as (j & Hj).
    rewrite !andb_true_iff, negb_true_iff, N.eqb_neq, N.eqb_eq in Hx. destruct Hx as [[H1 H2] H3].
    exists j, q. rewrite (ch_key db Hc j q Hj) in H1. auto.
  - intros [Hp (j & q & Hq & Hne & Hpr & Hcq)]. split; [exact Hp|]. exists q. split; [apply rows_In; eauto|].
    rewrite !andb_true_iff, negb_true_iff, N.eqb_neq, N.eqb_eq, (ch_key db Hc j q Hq). auto.
Qed.

(** ** Replacing a row that keeps its range *)
Definition same_range (p q : Period) : Prop :=
  pr_ID q = pr_ID p /\ pr_OrgID q = pr_OrgID p /\ pr_ProjectID q = pr_ProjectID p
  /\ pr_StartDate q = pr_StartDate p /\ pr_EndDate q = pr_EndDate p.

Lemma same_range_before p p' q q' : same_range p p' -> same_range q q' -> before p q -> before p' q'.
Proof.
  intros (_ & _ & _ & _ & E) (_ & _ & _ & S' & _) (e & He & Hl). exists e. rewrite E, S'. auto.
Qed.
Lemma same_range_refl p : same_range p p.
Proof. repeat split. Qed.

Lemma lookup_replace db i p p' j q : db_periods db !! i = Some p -> same_range p p' ->
  <[i := p']> (db_periods db) !! j = Some q ->
  exists q0, db_periods db !! j = Some q0 /\ same_range q0 q.
Proof.
  intros Hp Hs. destruct (decide (j = i)) as [->|Hne].
  - rewrite lookup_insert_eq. intros [= <-]. eauto.
  - rewrite lookup_insert_ne by auto. intros Hq. exists q. split; [exact Hq | apply same_range_refl].
Qed.
Lemma lookup_replace' db i p p' j q0 : db_periods db !! i = Some p -> same_range p p' ->
  db_periods db !! j = Some q0 ->
  exists q, <[i := p']> (db_periods db) !! j = Some q /\ same_range q0 q.
Proof.
  intros Hp Hs Hq. destruct (decide (j = i)) as [->|Hne].
  - rewrite lookup_insert_eq. exists p'. split; congruence.
  - rewrite lookup_insert_ne by auto. exists q0. split; [exact Hq | apply same_range_refl].
Qed.

Lemma chain_replace db i p p' : Chain db -> db_periods db !! i = Some p -> same_range p p' ->
  (IsLocked p' = true -> IsCurrent p' = false) -> guar db (set_periods (<[i := p']> (db_periods db)) db).
Proof.
  intros Hc Hp Hs Hl _. split; [constructor; cbn [db_periods set_periods] | ].
  - intros j q Hq. destruct (lookup_replace db i p p' j q Hp Hs Hq) as (q0 & Hq0 & (E & _)).
    rewrite E. apply (ch_key db Hc), Hq0.
  - intros j q e Hq He. destruct (lookup_replace db i p p' j q Hp Hs Hq) as (q0 & Hq0 & (_ & _ & _ & S & E)).
    rewrite S. apply (ch_end db Hc j q0); congruence.
  - intros j q Hq HL. destruct (decide (j = i)) as [->|Hne].
    + rewrite lookup_insert_eq in Hq. injection Hq as <-. auto.
    + rewrite lookup_insert_ne in Hq by auto. apply (ch_locked db Hc j q Hq HL).
  - intros j q Hq. destruct (lookup_replace db i p p' j q Hp Hs Hq) as (q0 & Hq0 & (_ & _ & P & _)).
    destruct (ch_current db Hc j q0 Hq0) as (k & r & Hr & Pr & Cr).
    destruct (lookup_replace' db i p p' k r Hp Hs Hr) as (r' & Hr' & (_ & _ & P' & _ & E')).
    exists k, r'. split; [exact Hr'|]. split; [congruence|]. apply IsCurrent_spec. rewrite E'. apply IsCurrent_spec, Cr.
  - intros j q e Hq He. destruct (lookup_replace db i p p' j q Hp Hs Hq) as (q0 & Hq0 & (_ & _ & P & _ & E)).
    destruct (ch_next db Hc j q0 e Hq0) as (k & r & Hr & Pr & Sr); [congruence|].
    destruct (lookup_replace' db i p p' k r Hp Hs Hr) as (r' & Hr' & (_ & _ & P' & S' & _)).
    exists k, r'. split; [exact Hr'|]. split; [congruence|]. rewrite S'. exact Sr.
  - intros j k q r Hq Hr Hne Epr.
    destruct (lookup_replace db i p p' j q Hp Hs Hq) as (q0 & Hq0 & Sq).
    destruct (lookup_replace db i p p' k r Hp Hs Hr) as (r0 & Hr0 & Sr).
    assert (pr_ProjectID q0 = pr_ProjectID r0) by (destruct Sq as (_ & _ & P & _), Sr as (_ & _ & P' & _); congruence).
    destruct (ch_disjoint db Hc j k q0 r0 Hq0 Hr0 Hne) as [B|B]; [assumption | left | right];
      eapply same_range_before; eauto.
  - intros j q Hq. cbn [db_periods set_periods].
    destruct (lookup_replace' db i p p' j q Hp Hs Hq) as (q' & Hq' & (_ & O & P & S & E)).
    exists q'. split; [exact Hq'|]. split; [exact O|]. split; [exact P|]. split; [exact S|]. congruence.
Qed.

(** Adding the first period of a project. *)
Lemma chain_first db p : Chain db -> db_periods db !! pr_ID p = None ->
  pr_EndDate p = None -> IsLocked p = false ->
  (forall j q, db_periods db !! j = Some q -> pr_ProjectID q <> pr_ProjectID p) ->
  guar db (set_periods (<[pr_ID p := p]> (db_periods db)) db).
Proof.
  intros Hc Hf He Hl Hno _.
  assert (Look : forall j q, <[pr_ID p := p]> (db_periods db) !! j = Some q ->
      (j = pr_ID p /\ q = p) \/ (j <> pr_ID p /\ db_periods db !! j = Some q)).
  { intros j q. destruct (decide (j = pr_ID p)) as [->|Hne]; [rewrite lookup_insert_eq | rewrite lookup_insert_ne by auto];
      intros Hq; [left; split; congruence | auto]. }
  assert (Keep : forall j q, db_periods db !! j = Some q -> <[pr_ID p := p]> (db_periods db) !! j = Some q).
  { intros j q Hq. rewrite lookup_insert_ne; [exact Hq|]. intros <-. congruence. }
  split; [constructor; cbn [db_periods set_periods]|].
  - intros j q Hq. destruct (Look j q Hq) as [[-> ->]|[_ Hq']]; [reflexivity | apply (ch_key db Hc), Hq'].
  - intros j q e Hq Ee. destruct (Look j q Hq) as [[-> ->]|[_ Hq']]; [congruence | eapply (ch_end db Hc); eauto].
  - intros j q Hq HL. destruct (Look j q Hq) as [[-> ->]|[_ Hq']]; [congruence | eapply (ch_locked db Hc); eauto].
  - intros j q Hq. destruct (Look j q Hq) as [[-> ->]|[_ Hq']].
    + exists (pr_ID p), p. split; [exact Hq|]. split; [reflexivity | apply IsCurrent_spec, He].
    + destruct (ch_current db Hc j q Hq') as (k & r & Hr & ?). exists k, r. auto.
  - intros j q e Hq Ee. destruct (Look j q Hq) as [[-> ->]|[_ Hq']]; [congruence|].
    destruct (ch_next db Hc j q e Hq' Ee) as (k & r & Hr & ?). exists k, r. auto.
  - intros j k q r Hq Hr Hne Epr.
    destruct (Look j q Hq) as [[-> ->]|[_ Hq']], (Look k r Hr) as [[-> ->]|[_ Hr']].
    + congruence.
    + destruct (Hno k r Hr'). congruence.
    + destruct (Hno j q Hq'). congruence.
    + eapply (ch_disjoint db Hc); eauto.
  - intros j q Hq. exists q. cbn [db_periods set_periods]. auto.
Qed.

(** Ending the current period and opening the next one the day after. *)
Lemma chain_close_first db i p p' e n next : Chain db ->
  db_periods db !! i = Some p -> IsCurrent p = true ->
  pr_ID p' = pr_ID p -> pr_OrgID p' = pr_OrgID p -> pr_ProjectID p' = pr_ProjectID p ->
  pr_StartDate p' = pr_StartDate p -> pr_EndDate p' = Some e -> days (pr_StartDate p) <= days e ->
  db_periods db !! n = None -> pr_ID next = n -> pr_ProjectID next = pr_ProjectID p ->
  pr_EndDate next = None -> IsLocked next = false -> days (pr_StartDate next) = days e + 1 ->
  forall db', db_periods db' = <[n := next]> (<[i := p']> (db_periods db)) -> Chain db' /\ grows db db'.
Proof.
  intros Hc Hp Cp Ei Eo Ep Es Ee Hle Hn In Pn En Ln Sn db' Edb.
  assert (Hni : n <> i) by congruence.
  assert (Look : forall j q, db_periods db' !! j = Some q ->
      (j = n /\ q = next) \/ (j = i /\ q = p') \/ (j <> i /\ db_periods db !! j = Some q)).
  { intros j q. rewrite Edb. destruct (decide (j = n)) as [->|Hne]; [rewrite lookup_insert_eq; left; split; congruence|].
    rewrite lookup_insert_ne by auto. destruct (decide (j = i)) as [->|Hne'].
    - rewrite lookup_insert_eq. intros [= <-]. auto.
    - rewrite lookup_insert_ne by auto. auto. }
  assert (L1 : db_periods db' !! n = Some next) by (rewrite Edb; apply lookup_insert_eq).
  assert (L2 : db_periods db' !! i = Some p') by (rewrite Edb, lookup_insert_ne by auto; apply lookup_insert_eq).
  assert (L3 : forall j q, j <> i -> db_periods db !! j = Some q -> db_periods db' !! j = Some q).
  { intros j q Hji Hq. rewrite Edb, !lookup_insert_ne; [exact Hq | auto | congruence]. }
  assert (Old : forall j q, j <> i -> db_periods db !! j = Some q -> pr_ProjectID q = pr_ProjectID p -> before q p).
  { intros j q Hji Hq Hpr. destruct (ch_disjoint db Hc j i q p Hq Hp Hji Hpr) as [B|B]; [exact B|].
    apply before_not_current in B. congruence. }
  assert (Bnew : before p' next) by (exists e; split; [exact Ee | lia]).
  assert (Bold : forall q, before q p -> before q p' /\ before q next).
  { intros q (d & Hd & Hl). split; exists d; (split; [exact Hd|]); [rewrite Es; exact Hl | lia]. }
  split; [constructor|].
  - intros j q Hq. destruct (Look j q Hq) as [[-> ->]|[[-> ->]|[_ Hq']]]; [exact In | | apply (ch_key db Hc), Hq'].
    rewrite Ei. apply (ch_key db Hc), Hp.
  - intros j q d Hq Hd. destruct (Look j q Hq) as [[-> ->]|[[-> ->]|[_ Hq']]]; [congruence | | eapply (ch_end db Hc); eauto].
    rewrite Es. congruence.
  - intros j q Hq HL. destruct (Look j q Hq) as [[-> ->]|[[-> ->]|[_ Hq']]]; [congruence | | eapply (ch_locked db Hc); eauto].
    apply IsCurrent_false. eauto.
  - intros j q Hq. destruct (decide (pr_ProjectID q = pr_ProjectID p)) as [Hpr|Hpr].
    { exists n, next. split; [exact L1|]. split; [congruence | apply IsCurrent_spec, En]. }
    destruct (Look j q Hq) as [[-> ->]|[[-> ->]|[_ Hq']]]; [congruence | congruence |].
    destruct (ch_current db Hc j q Hq') as (k & r & Hr & Pr & Cr). exists k, r.
    split; [apply L3; [intros ->; congruence | exact Hr] | auto].
  - intros j q d Hq Hd. destruct (Look j q Hq) as [[-> ->]|[[-> ->]|[Hji Hq']]]; [congruence | |].
    + exists n, next. split; [exact L1|]. split; congruence.
    + destruct (ch_next db Hc j q d Hq' Hd) as (k & r & Hr & Pr & Sr).
      destruct (decide (k = i)) as [->|Hki].
      * exists i, p'. split; [exact L2|]. split; congruence.
      * exists k, r. auto.
  - intros j k q r Hq Hr Hne Epr.
    destruct (Look j q Hq) as [[-> ->]|[[-> ->]|[Hji Hq']]], (Look k r Hr) as [[-> ->]|[[-> ->]|[Hki Hr']]].
    + congruence.
    + right. exact Bnew.
    + right. apply Bold, (Old k r Hki Hr'). congruence.
    + left. exact Bnew.
    + congruence.
    + right. apply Bold, (Old k r Hki Hr'). congruence.
    + left. apply Bold, (Old j q Hji Hq'). congruence.
    + left. apply Bold, (Old j q Hji Hq'). congruence.
    + eapply (ch_disjoint db Hc); eauto.
  - intros j q Hq. destruct (decide (j = i)) as [->|Hji].
    + exists p'. assert (q = p) as -> by congruence. split; [exact L2|].
      split; [exact Eo|]. split; [exact Ep|]. split; [exact Es|]. apply IsCurrent_spec in Cp. congruence.
    + exists q. auto.
Qed.

(** ** What a reader knows later

    A period read earlier still names a row of the same scope and start, and
    an end it carried is still that row's end. *)
Definition known (p : Period) (db : DB) : Prop :=
  exists row, db_periods db !! pr_ID p = Some row /\ pr_OrgID row = pr_OrgID p
    /\ pr_ProjectID row = pr_ProjectID p /\ pr_StartDate row = pr_StartDate p
    /\ (forall e, pr_EndDate p = Some e -> pr_EndDate row = Some e).

Lemma known_stable p : stable guar (fun db => Chain db /\ known p db).
Proof.
  intros db db' HG [Hc (row & Hr & O & P & S & E)]. destruct (HG Hc) as [Hc' Gr]. split; [exact Hc'|].
  destruct (Gr _ _ Hr) as (row' & Hr' & O' & P' & S' & E'). exists row'.
  split; [exact Hr'|]. split; [congruence|]. split; [congruence|]. split; [congruence|]. auto.
Qed.
Lemma chain_stable : stable guar Chain.
Proof. intros db db' HG Hc. apply HG, Hc. Qed.

Lemma rows_known db p : Chain db -> In p (rows (db_periods db)) -> known p db /\ db_periods db !! pr_ID p = Some p.
Proof.
  intros Hc Hin. apply rows_In in Hin as (i & Hi). pose proof (ch_key db Hc i p Hi) as <-.
  split; [|exact Hi]. exists p. auto.
Qed.

(** Saving a value known from before: the partial index refuses the one write
    that would undo a close, so the row keeps its range. *)
Lemma upsert_known tc p db db' n :
  known p db -> period_upsert tc p db = inr (db', n) -> guar db db'.
Proof.
  intros (row & Hr & O & P & S & E) U Hc. unfold period_upsert in U.
  destruct (period_check p) eqn:Ck; [discriminate|]. rewrite Hr in U.
  destruct (_ && _)%bool; [|injection U as <- <-; apply guar_pre, Hc].
  destruct (current_conflict db (updated_period row p)) eqn:Cf; [discriminate|]. injection U as <- <-.
  assert (Hend : pr_EndDate p = pr_EndDate row).
  { destruct (pr_EndDate p) as [e|] eqn:Ep; [symmetry; auto|]. symmetry. apply IsCurrent_spec.
    destruct (ch_current db Hc _ _ Hr) as (j & q & Hq & Pq & Cq).
    destruct (decide (j = pr_ID p)) as [->|Hne]; [congruence|]. exfalso.
    apply not_true_iff_false in Cf. apply Cf, current_conflict_spec; [exact Hc|].
    split; [apply IsCurrent_spec; exact Ep|]. exists j, q. cbn [updated_period pr_ID pr_ProjectID].
    rewrite (ch_key db Hc _ _ Hr). auto. }
  refine (chain_replace db (pr_ID p) row _ Hc Hr _ _ Hc).
  - repeat split; cbn [updated_period pr_ID pr_OrgID pr_ProjectID pr_StartDate pr_EndDate]; congruence.
  - unfold period_check in Ck. unfold updated_period, IsLocked, IsCurrent.
    cbn [pr_Status pr_EndDate]. intros HL. destruct (pr_EndDate p); [reflexivity|].
    unfold IsLocked in Ck. rewrite HL in Ck. discriminate.
Qed.

(** The insert of [CreateCurrent]. *)
Lemma insert_current_guar p db db' n : pr_EndDate p = None -> IsLocked p = false ->
  period_insert_current p db = inr (db', n) -> guar db db'.
Proof.
  intros He Hl U Hc. unfold period_insert_current in U. destruct (period_check p); [discriminate|].
  replace (IsCurrent p) with true in U by (symmetry; apply IsCurrent_spec, He). cbn [andb] in U.
  destruct (existsb _ (rows (db_periods db))) eqn:X; [injection U as <- <-; apply guar_pre, Hc|].
  destruct (db_periods db !! pr_ID p) eqn:Hf; [discriminate|].
  destruct (period_scope_fk db p); [|discriminate]. injection U as <- <-.
  refine (chain_first db p Hc Hf He Hl _ Hc). intros j q Hq Hpr.
  destruct (ch_current db Hc j q Hq) as (k & r & Hr & Pr & Cr).
  apply not_true_iff_false in X. apply X, existsb_exists. exists r. split; [apply rows_In; eauto|].
  rewrite Cr, andb_true_r. apply N.eqb_eq. congruence.
Qed.

(** ** The service under interference *)
Section Interference.
Context `{Env, SettingsReader, Snapshotter, !SettingsReaderLaws, !SnapshotterLaws}.

(** The other sessions keep to the same rules. *)
Hypothesis rely : forall n db, guar db (env_other n db).

Notation rg := (rg guar).
Definition chained (p : Period) (db : DB) : Prop := Chain db /\ known p db.

Lemma rg_queryOne w nf : rg Chain (period_queryOne w nf) chained.
Proof.
  unfold period_queryOne. eapply (rg_bind _ _ _ _ (fun r db => forall p, r = Some p -> chained p db)).
  - apply rg_query; [exact _|]. intros db Hc p Hf. apply find_some in Hf as [Hin _].
    split; [exact Hc | apply rows_known; assumption].
  - intros [p|]; [apply rg_ret; [exact _ | auto] | apply rg_err, _].
Qed.
Lemma rg_read_one cx (body : Tenant -> M Period) :
  (forall tc, rg Chain (body tc) chained) -> rg Chain (read_tx "period" cx body) chained.
Proof. intros Hb. apply rg_read_tx; [exact _ | exact rely | exact chain_stable | auto]. Qed.

Lemma rg_scoped cx tc id : rg Chain (scoped cx tc id) chained.
Proof.
  unfold scoped, scopedRow. eapply rg_bind; [exact _ | |].
  - apply rg_try; [exact chain_stable | apply rg_read_one; intros; apply rg_queryOne].
  - intros [e|p]; [destruct (IsPeriodNotFound e); apply rg_err, _|].
    destruct (_ || _)%bool; [apply rg_err, _ | apply rg_ret; [exact _ | auto]].
Qed.

Lemma rg_period_Save cx p : rg (chained p) (period_Save cx p) (fun _ _ => True).
Proof.
  unfold period_Save. apply rg_write_tx; [exact _ | exact rely | exact (known_stable p)|].
  intros tc _. apply rg_exec_save; [exact _|]. intros db db' n [Hc Hk] U. eapply upsert_known; eauto.
Qed.

(** A period that keeps the range of one known before is as well known. *)
Lemma chained_range p p' db : same_range p p' -> chained p db -> chained p' db.
Proof.
  intros (I & O & P & S & E) [Hc (row & Hr & O' & P' & S' & E')]. split; [exact Hc|].
  exists row. rewrite I, O, P, S, E. auto.
Qed.

(** A pass through the steps that only read or draw from the environment. *)
Lemma rg_frame {E A} (m : ST World E A) (P : DB -> Prop) :
  stable guar P -> preserves (on_db guar) m -> rg P m (fun _ => P).
Proof. apply rg_preserves. Qed.

Lemma pres_location cx tc : preserves (on_db guar) (location cx tc).
Proof.
  unfold location. apply preserves_bind; [exact _ | apply preserves_try, sr_Location_read; [exact _ | exact rely]|].
  intros [e|[loc|]]; first [apply preserves_err, _ | apply preserves_ret, _].
Qed.
Lemma pres_cycle cx tc : preserves (on_db guar) (cycle cx tc).
Proof.
  unfold cycle. apply preserves_bind; [exact _ | apply pres_location|]. intros loc.
  apply preserves_bind; [exact _ | apply preserves_try, sr_StartDay_read; [exact _ | exact rely]|].
  intros [e|day]; first [apply preserves_err, _ | apply preserves_ret, _].
Qed.
Lemma pres_store_read {A} cx (body : Tenant -> M A) :
  (forall tc, preserves (on_db guar) (body tc)) -> preserves (on_db guar) (read_tx "period" cx body).
Proof. apply pres_read_tx; [exact _ | exact rely]. Qed.
Lemma pres_queryOne w nf : preserves (on_db guar) (period_queryOne w nf).
Proof.
  unfold period_queryOne. apply preserves_bind; [exact _ | apply pres_query, _|].
  intros [p|]; first [apply preserves_err, _ | apply preserves_ret, _].
Qed.
Lemma pres_queryEdge w o : preserves (on_db guar) (period_queryEdge w o).
Proof. apply pres_query, _. Qed.

Lemma pres_store_Current cx o p : preserves (on_db guar) (period_store_Current cx o p).
Proof. apply pres_store_read. intros. apply pres_queryOne. Qed.
Lemma pres_scoped cx tc id : preserves (on_db guar) (scoped cx tc id).
Proof.
  unfold scoped, scopedRow. apply preserves_bind; [exact _ | |].
  - apply preserves_try, pres_store_read. intros. apply pres_queryOne.
  - intros [e|p]; [destruct (IsPeriodNotFound e) | destruct (_ || _)%bool];
      first [apply preserves_err, _ | apply preserves_ret, _].
Qed.
Lemma pres_checkClosable cx tc p end_ : preserves (on_db guar) (checkClosable cx tc p end_).
Proof.
  unfold checkClosable. destruct (IsLocked p); [apply preserves_err, _|].
  destruct (pr_EndDate p) as [e|]; [destruct (negb _); first [apply preserves_err, _ | apply preserves_ret, _]|].
  destruct (Before _ _); [apply preserves_err, _|].
  apply preserves_bind; [exact _ | apply pres_location|]. intros loc.
  apply preserves_bind; [exact _ | apply pres_time_Now, _|]. intros now.
  destruct (Before _ _); first [apply preserves_err, _ | apply preserves_ret, _].
Qed.

Lemma pres_CreateCurrent cx p : pr_EndDate p = None -> IsLocked p = false ->
  preserves (on_db guar) (period_CreateCurrent cx p).
Proof.
  intros He Hl. unfold period_CreateCurrent. apply pres_write_tx; [exact _ | exact rely|].
  intros tc _. destruct (negb _); [apply preserves_err, _|].
  apply preserves_bind; [exact _ | | intros; apply preserves_ret, _].
  apply preserves_maperr, pres_exec_stmt; [exact _|]. intros db db' n U. eapply insert_current_guar; eauto.
Qed.

Lemma Period_New_inv id now o p start name q : Period_New id now o p start name = inr q ->
  pr_ID q = id /\ pr_OrgID q = o /\ pr_ProjectID q = p /\ pr_StartDate q = start /\ pr_EndDate q = None
  /\ pr_Status q = StatusOpen.
Proof.
  unfold Period_New. destruct (IsZero start); [discriminate|].
  destruct (cleanName _) as [|clean]; [discriminate|]. intros [= <-]. repeat split.
Qed.
Lemma open_not_locked p : pr_Status p = StatusOpen -> IsLocked p = false.
Proof. unfold IsLocked. intros ->. reflexivity. Qed.

Lemma EnsureCurrent_guar cx : preserves (on_db guar) (EnsureCurrent cx).
Proof.
  unfold EnsureCurrent. apply preserves_bind; [exact _ | apply pres_from_tenant, _|]. intros tc.
  apply preserves_bind; [exact _ | apply preserves_try, pres_store_Current|].
  intros [e|cur]; [|apply preserves_ret, _]. destruct (negb _); [apply pres_unexpected, _|].
  apply preserves_bind; [exact _ | apply pres_cycle|]. intros [loc day].
  apply preserves_bind; [exact _ | apply pres_time_Now, _|]. intros now.
  apply preserves_bind; [exact _ | apply pres_NewV7, _|]. intros id.
  apply preserves_bind; [exact _ | apply pres_time_Now, _|]. intros stamp.
  destruct (Period_New _ _ _ _ _ _) as [x|first] eqn:EN; [apply preserves_err, _|].
  apply Period_New_inv in EN as (_ & _ & _ & _ & He & Hs).
  apply preserves_bind; [exact _ | apply preserves_try, pres_CreateCurrent; auto using open_not_locked|].
  intros [x|created]; [apply pres_unexpected, _|]. destruct (negb created); [|apply preserves_ret, _].
  unfold currentAfterRace. apply preserves_bind; [exact _ | apply preserves_try, pres_store_Current|].
  intros [x|cur]; [destruct (IsPeriodNotFound x)|]; first [apply preserves_err, _ | apply preserves_ret, _].
Qed.

(** Saving a period that keeps the range of the one just read. *)
Lemma rg_save_result {A} cx p p' (k : Error + unit -> M A) :
  same_range p p' -> (forall r, preserves (on_db guar) (k r)) ->
  rg (chained p) (let* r := st_try (period_Save cx p') in k r) (fun _ _ => True).
Proof.
  intros Hs Hk. eapply (rg_bind _ _ _ _ (fun _ _ => True)); [|intros r; apply rg_unit, Hk].
  intros w Hw. unfold st_try. destruct (rg_period_Save cx p' w (chained_range p p' _ Hs Hw)) as [G _].
  destruct (period_Save cx p' w) as [[a|e|q] w']; split; auto.
Qed.

Lemma Rename_guar cx id name w : Chain (W_db w) -> guar (W_db w) (W_db (snd (Rename cx id name w))).
Proof.
  intros Hc. apply (fun H : rg Chain (Rename cx id name) (fun _ _ => True) => proj1 (H w Hc)).
  unfold Rename. eapply rg_bind; [exact _ | apply rg_frame; [exact chain_stable | apply pres_from_tenant, _]|].
  intros tc. eapply rg_bind; [exact _ | apply rg_scoped|]. intros p.
  eapply rg_bind; [exact _ | apply (rg_frame _ (chained p)); [exact (known_stable p) | apply pres_time_Now, _]|].
  intros now. destruct (Period_Rename p name now) as [e|p'] eqn:ER; [apply rg_err, _|].
  apply rg_save_result.
  - unfold Period_Rename in ER. destruct (cleanName name); [discriminate|]. injection ER as <-. repeat split.
  - intros [e|[]]; [destruct (period_isDomainError e)|]; first [apply preserves_err, _ | apply preserves_ret, _].
Qed.

Lemma Reopen_guar cx id w : Chain (W_db w) -> guar (W_db w) (W_db (snd (Reopen cx id w))).
Proof.
  intros Hc. apply (fun H : rg Chain (Reopen cx id) (fun _ _ => True) => proj1 (H w Hc)).
  unfold Reopen. eapply rg_bind; [exact _ | apply rg_frame; [exact chain_stable | apply pres_from_tenant, _]|].
  intros tc. eapply rg_bind; [exact _ | apply rg_scoped|]. intros p.
  destruct (negb (IsLocked p)); [apply rg_err, _|].
  eapply rg_bind; [exact _ | apply (rg_frame _ (chained p)); [exact (known_stable p) |]|].
  { apply preserves_try, pres_store_read. intros. apply pres_query, _. }
  intros [e|siblings]; [apply rg_err, _|]. destruct (negb _); [apply rg_err, _|].
  eapply rg_bind; [exact _ | apply (rg_frame _ (chained p)); [exact (known_stable p) | apply pres_time_Now, _]|].
  intros now. apply rg_save_result; [repeat split|].
  intros [e|[]]; [destruct (period_isDomainError e)|]; first [apply preserves_err, _ | apply preserves_ret, _].
Qed.
End Interference.

(** ** The effect of a close *)
Section CloseEffect.
Context `{Env, SettingsReader, Snapshotter, !SettingsReaderLaws, !SnapshotterLaws}.

Lemma reads_queryOne w nf : reads (fun p db => In p (rows (db_periods db)) /\ w p = true) (period_queryOne w nf).
Proof.
  unfold period_queryOne. eapply reads_seq; [apply (reads_of _ _ _ (reads_query _ _))|].
  intros [p|] _; [|apply reads_err; auto]. apply reads_ret. intros db Hf. symmetry in Hf. apply find_some, Hf.
Qed.
Lemma reads_location cx tc : calm cx -> reads (fun _ _ => True) (location cx tc).
Proof.
  intros Hc. unfold location.
  eapply reads_seq; [apply reads_try, (reads_port (fun cx => sr_Location cx (OrgID tc) (ProjectID tc)));
    [exact Hc | apply sr_Location_read | apply sr_Location_in_tx]|].
  intros [e|[loc|]] _; [apply reads_unexpected; auto | apply reads_ret; auto ..].
Qed.

Definition in_scope (tc : Tenant) (id : uuid) (p : Period) : Prop :=
  pr_ID p = id /\ pr_OrgID p = OrgID tc /\ pr_ProjectID p = ProjectID tc.

Lemma reads_scoped cx tc id : calm cx ->
  reads (fun p db => In p (rows (db_periods db)) /\ in_scope tc id p) (scoped cx tc id).
Proof.
  intros Hc. unfold scoped, scopedRow.
  eapply (reads_seq _ _ (fun r db => match r with inr p => In p (rows (db_periods db)) /\ pr_ID p = id | _ => True end)).
  { eapply reads_e_conseq; [apply reads_try, (reads_read_tx "period" cx _
      (fun p db => In p (rows (db_periods db)) /\ pr_ID p = id) (fun _ _ => True)); [exact Hc | auto|] | | auto].
    - intros tc' _. eapply reads_conseq; [apply reads_queryOne|]. intros p db [Hin Hw].
      apply andb_prop in Hw as [Hw _]. apply N.eqb_eq in Hw. auto.
    - intros [e|p] db; auto. }
  intros [e|p] _; [destruct (IsPeriodNotFound e); apply reads_err; auto|].
  destruct (N.eqb_spec (pr_OrgID p) (OrgID tc)); [|apply reads_err; auto].
  destruct (N.eqb_spec (pr_ProjectID p) (ProjectID tc)); [|apply reads_err; auto].
  apply reads_ret. intros db [Hin Hid]. unfold in_scope. auto.
Qed.

(** What the guard of a close checks. *)
Definition closable_facts (p : Period) (end_ : Date) : Prop :=
  IsLocked p = false /\
  match pr_EndDate p with Some e => days end_ = days e | None => days (pr_StartDate p) <= days end_ end.

Lemma reads_checkClosable cx tc p end_ : calm cx ->
  reads (fun _ _ => closable_facts p end_) (checkClosable cx tc p end_).
Proof.
  intros Hc. unfold checkClosable, closable_facts. destruct (IsLocked p); [apply reads_err; auto|].
  destruct (pr_EndDate p) as [e|].
  - destruct (Z.eqb_spec (Compare end_ e) 0) as [E|]; [|apply reads_err; auto].
    apply reads_ret. intros _. apply Compare_0 in E. auto.
  - destruct (Before end_ (pr_StartDate p)) eqn:B; [apply reads_err; auto|]. apply Before_false in B.
    eapply reads_seq; [apply reads_location, Hc|]. intros loc _.
    eapply reads_seq; [apply reads_time_Now|]. intros now _.
    destruct (Before _ _); [apply reads_err; auto | apply reads_ret; auto].
Qed.
Lemma reads_closableLocked cx tc id end_ : calm cx ->
  reads (fun p db => In p (rows (db_periods db)) /\ in_scope tc id p /\ closable_facts p end_)
    (closableLocked cx tc id end_).
Proof.
  intros Hc. unfold closableLocked, scopedLocked. eapply reads_seq; [apply reads_scoped, Hc|]. intros p _.
  eapply reads_seq; [apply (reads_checkClosable cx tc p end_ Hc)|].
  intros u [db0 Hf]. apply reads_ret. intros db _ [Hin Hs]. auto.
Qed.

Lemma runs_period_Save cx tc p : calm cx -> From_ cx = inr tc ->
  runs (fun _ db db' => exists n, period_upsert tc p db = inr (db', S n)) (period_Save cx p).
Proof.
  intros Hc F. unfold period_Save. apply runs_write_tx; [exact Hc|].
  intros tc' F'. rewrite F in F'. injection F' as <-. apply runs_exec_save.
Qed.
Lemma runs_SaveClosing cx c : calm cx ->
  runs (fun _ db db' => exists n, closing_insert c db = inr (db', n)) (period_SaveClosing cx c).
Proof.
  intros Hc. unfold period_SaveClosing. apply runs_write_tx; [exact Hc|].
  intros tc _. destruct (negb _); [intros w a; discriminate|]. intros w a.
  unfold st_bind, st_try. unfold exec_stmt, st_bind. pose proof (driver_call_same w) as Hd.
  destruct (driver_call w) as [[[]|e|q] w1]; simpl in *.
  - destruct (closing_insert c (W_db w1)) as [[co msg]|[db' n]] eqn:E; simpl.
    + destruct co; simpl; try discriminate. destruct (Contains msg "author_one"); discriminate.
    + intros _. rewrite <- Hd. eauto.
  - destruct e; try discriminate. destruct code; try discriminate.
    destruct (Contains msg "author_one"); discriminate.
  - discriminate.
Qed.

Lemma closing_insert_effect c db db' n :
  (cl_ClosedBy c = uuid_Nil <-> cl_ClosedByKeyID c <> uuid_Nil) ->
  closing_insert c db = inr (db', n) ->
  db_closings db !! cl_ID c = None /\ db' = set_closings (<[cl_ID c := c]> (db_closings db)) db.
Proof.
  intros Ha. unfold closing_insert. destruct (negb (author_one _)); [discriminate|].
  destruct (db_closings db !! cl_ID c); [discriminate|]. destruct (_ && _)%bool; [|discriminate].
  intros [= <- _]. split; [reflexivity|]. do 2 f_equal. unfold sqliteAuthorExprs.
  destruct (N.eqb_spec (cl_ClosedByKeyID c) uuid_Nil) as [E|E]; cbn [negb fst snd opt_uuid].
  - destruct c; cbn in *. congruence.
  - apply Ha in E. destruct c; cbn in *. congruence.
Qed.

Lemma upsert_fresh tc p db db' n : db_periods db !! pr_ID p = None -> period_upsert tc p db = inr (db', n) ->
  db' = set_periods (<[pr_ID p := p]> (db_periods db)) db.
Proof.
  intros Hf. unfold period_upsert. destruct (period_check p); [discriminate|]. rewrite Hf.
  destruct (current_conflict db p); [discriminate|]. destruct (period_scope_fk db p); [|discriminate].
  intros [= <- _]. reflexivity.
Qed.
Lemma upsert_existing tc p old db db' n : db_periods db !! pr_ID p = Some old -> period_upsert tc p db = inr (db', S n) ->
  db' = set_periods (<[pr_ID p := updated_period old p]> (db_periods db)) db.
Proof.
  intros Hf. unfold period_upsert. destruct (period_check p); [discriminate|]. rewrite Hf.
  destruct (_ && _)%bool; [|discriminate]. destruct (current_conflict db _); [discriminate|].
  intros [= <- _]. reflexivity.
Qed.

(** The next period a first close opens. *)
Definition next_period (tc : Tenant) (end_ : Date) (next : Period) : Prop :=
  pr_OrgID next = OrgID tc /\ pr_ProjectID next = ProjectID tc /\ pr_StartDate next = AddDays end_ 1
  /\ pr_EndDate next = None /\ pr_Status next = StatusOpen.

(** What [Close] commits: the period locked with its snapshot and its end set,
    one closing with its author, and on a first close the period of the day after. *)
Definition close_effect (cx : Ctx) (tc : Tenant) (id : uuid) (end_ : Date) (by_ : uuid) (closedAt : Z)
    (p' : Period) (db db' : DB) : Prop :=
  exists p snap cid u k,
    db_periods db !! id = Some p /\ in_scope tc id p /\ closable_facts p end_
    /\ p' = closed_period p end_ closedAt snap
    /\ author cx by_ = Some (u, k) /\ db_closings db !! cid = None
    /\ exists ps,
       db' = set_closings (<[cid := mkClosing cid (OrgID tc) (ProjectID tc) id closedAt u k snap]> (db_closings db))
               (set_periods ps db)
       /\ if IsCurrent p
          then exists next, db_periods db !! pr_ID next = None /\ next_period tc end_ next
                 /\ ps = <[pr_ID next := next]> (<[id := p']> (db_periods db))
          else ps = <[id := p']> (db_periods db).

(** The writes of [Close] after the period is saved. *)
Definition close_tail (cx : Ctx) (by_ : uuid) (closedAt : Z) (end_ : Date) (snap : Snapshot) (first : bool)
    (p : Period) : ST World (Error * bool) Period :=
  match period_author cx by_ with
  | inl e => st_err (EPeriod e, false)
  | inr (closedBy, closedByKey) =>
    let* cid := NewV7 in
    st_maperr (fun e => (e, false)) (period_SaveClosing cx
      (mkClosing cid (pr_OrgID p) (pr_ProjectID p) (pr_ID p) closedAt closedBy closedByKey snap)) ;;;
    if negb first then st_ret p else
    let* nid := NewV7 in
    let* stamp := time_Now in
    match Period_New nid stamp (pr_OrgID p) (pr_ProjectID p) (AddDays end_ 1) "" with
    | inl e => st_err (EPeriod e, false)
    | inr next => st_maperr (fun e => (e, false)) (period_Save cx next) ;;; st_ret p
    end
  end.

Definition tail_effect (cx : Ctx) (by_ : uuid) (closedAt : Z) (end_ : Date) (snap : Snapshot) (first : bool)
    (p r : Period) (db db' : DB) : Prop :=
  r = p /\ exists cid u k, author cx by_ = Some (u, k) /\ db_closings db !! cid = None
   /\ exists ps, db' = set_closings (<[cid := mkClosing cid (pr_OrgID p) (pr_ProjectID p) (pr_ID p) closedAt u k snap]>
                          (db_closings db)) (set_periods ps db)
      /\ if first
         then exists next, db_periods db !! pr_ID next = None
                /\ next_period (mkTenant (pr_OrgID p) (pr_ProjectID p) uuid_Nil) end_ next
                /\ ps = <[pr_ID next := next]> (db_periods db)
         else ps = db_periods db.

Lemma set_periods_same db : set_periods (db_periods db) db = db.
Proof. destruct db; reflexivity. Qed.

Lemma runs_save_next cx tc p end_ : fresh_ids -> calm cx -> From_ cx = inr tc ->
  runs (fun (r : Period) db db' => r = p /\ exists next, db_periods db !! pr_ID next = None
          /\ next_period (mkTenant (pr_OrgID p) (pr_ProjectID p) uuid_Nil) end_ next
          /\ db' = set_periods (<[pr_ID next := next]> (db_periods db)) db)
    (let* nid := NewV7 in
     let* stamp := time_Now in
     match Period_New nid stamp (pr_OrgID p) (pr_ProjectID p) (AddDays end_ 1) "" with
     | inl e => st_err (EPeriod e, false)
     | inr next => st_maperr (fun e => (e, false)) (period_Save cx next) ;;; st_ret p
     end).
Proof.
  intros Hf Hc F. eapply runs_read_bind; [apply (reads_NewV7_fresh _ Hf)|]. intros nid _.
  eapply runs_read_bind; [apply reads_time_Now|]. intros stamp _.
  destruct (Period_New _ _ _ _ _ _) as [x|next] eqn:EN; [intros w a; discriminate|].
  apply Period_New_inv in EN as (I & O & P & S & E & St).
  eapply (runs_bind _ _ _ (fun _ r db db' => r = p /\ db' = db));
    [apply runs_maperr, (runs_period_Save cx tc next Hc F) | intros a _ w r; simpl; intros [= <-]; auto|].
  intros u r db db1 db2 [n U] [-> ->] _ (_ & Hfr & _). rewrite <- I in Hfr. split; [reflexivity|].
  exists next. split; [exact Hfr|]. split; [repeat split; assumption|]. eapply upsert_fresh; eauto.
Qed.

Lemma runs_close_tail cx tc by_ closedAt end_ snap first p : fresh_ids -> calm cx -> From_ cx = inr tc ->
  runs (tail_effect cx by_ closedAt end_ snap first p) (close_tail cx by_ closedAt end_ snap first p).
Proof.
  intros Hf Hc F. unfold close_tail, period_author. destruct (author cx by_) as [[u k]|] eqn:A;
    [|intros w a; discriminate].
  eapply runs_read_bind; [apply reads_NewV7; exact (fun _ _ => True)|]. intros cid _.
  set (c := mkClosing _ _ _ _ _ _ _ _).
  eapply (runs_bind _ _ _ (fun _ r db db' => r = p /\
     if first then exists next, db_periods db !! pr_ID next = None
          /\ next_period (mkTenant (pr_OrgID p) (pr_ProjectID p) uuid_Nil) end_ next
          /\ db' = set_periods (<[pr_ID next := next]> (db_periods db)) db
     else db' = db)); [apply runs_maperr, (runs_SaveClosing cx c Hc) | |].
  - intros a _. destruct first; cbn [negb].
    + eapply runs_conseq; [apply (runs_save_next cx tc p end_ Hf Hc F)|]. auto.
    + intros w r. simpl. intros [= <-]. auto.
  - intros a r db db1 db2 [n I] [-> Hn] _. apply closing_insert_effect in I as [Hcn ->];
      [|apply (Tenant.author_one cx by_ u k A)].
    split; [reflexivity|]. exists cid, u, k. split; [exact A|]. split; [exact Hcn|].
    destruct first.
    + destruct Hn as (next & Hfr & Hnx & ->). exists (<[pr_ID next := next]> (db_periods db)).
      split; [reflexivity|]. exists next. auto.
    + subst db2. exists (db_periods db). rewrite set_periods_same. auto.
Qed.

Lemma close_body_tail cx tc id end_ by_ closedAt :
  close_body tc id end_ by_ closedAt cx =
    (let* p := st_maperr (fun e => (e, false)) (closableLocked cx tc id end_) in
     let* snap := st_maperr (fun e => (e, true))
                    (snap_Snapshot cx (OrgID tc) (ProjectID tc) (pr_ID p) end_ closedAt) in
     st_maperr (fun e => (e, false)) (period_Save cx (closed_period p end_ closedAt snap)) ;;;
     close_tail cx by_ closedAt end_ snap (IsCurrent p) (closed_period p end_ closedAt snap)).
Proof. reflexivity. Qed.

Lemma runs_close_body cx tc id end_ by_ closedAt : fresh_ids -> cx_tx cx = true -> From_ cx = inr tc ->
  runs (fun p' db db' => Chain db -> close_effect cx tc id end_ by_ closedAt p' db db')
    (close_body tc id end_ by_ closedAt cx).
Proof.
  intros Hf Hx F. assert (Hc : calm cx) by (left; exact Hx). rewrite close_body_tail.
  eapply runs_read_bind; [apply (reads_of _ _ _ (reads_maperr _ _ _ _ (reads_closableLocked cx tc id end_ Hc)))|].
  intros p [db0 (_ & Hs & Hfa)].
  eapply runs_read_bind; [apply (reads_of _ _ _ (reads_maperr _ _ _ _ (snap_in_tx _ _ _ _ _ cx Hx)))|].
  intros snap _. set (p' := closed_period p end_ closedAt snap).
  eapply runs_bind; [apply runs_maperr, (runs_period_Save cx tc p' Hc F)
    | intros u _; apply (runs_close_tail cx tc by_ closedAt end_ snap (IsCurrent p) p' Hf Hc F) |].
  intros u r db db1 db2 [n U] (-> & cid & us & k & A & Hcn & ps & -> & Hps) _ (Hin & _ & _) Hch.
  destruct Hs as (I & O & P). destruct (rows_known db p Hch Hin) as [_ Hp].
  change (pr_ID p') with (pr_ID p) in *. change (pr_OrgID p') with (pr_OrgID p) in *.
  change (pr_ProjectID p') with (pr_ProjectID p) in *.
  apply (upsert_existing tc p' p) in U; [|exact Hp].
  change (updated_period p p') with p' in U. subst db1. change (pr_ID p') with (pr_ID p) in *.
  rewrite I, O, P in *. cbn [db_closings db_periods set_periods] in *.
  exists p, snap, cid, us, k. split; [exact Hp|]. split; [repeat split; assumption|]. split; [exact Hfa|].
  split; [reflexivity|]. split; [exact A|]. split; [exact Hcn|]. exists ps. split; [reflexivity|].
  destruct (IsCurrent p); [|exact Hps]. destruct Hps as (next & Hfr & Hnx & ->). exists next.
  split; [|split; [exact Hnx | reflexivity]].
  rewrite lookup_insert_None in Hfr. apply Hfr.
Qed.

(** The period [Close] returns carries the snapshot the port gave for it. *)
Lemma runs_close_body_snapshot cx tc id end_ by_ closedAt (Pr : Snapshot -> DB -> Prop) :
  fresh_ids -> cx_tx cx = true -> From_ cx = inr tc ->
  reads Pr (snap_Snapshot cx (OrgID tc) (ProjectID tc) id end_ closedAt) ->
  runs (fun p' db _ => exists snap, pr_Snapshot p' = Some snap /\ Pr snap db)
    (close_body tc id end_ by_ closedAt cx).
Proof.
  intros Hf Hx F HP. assert (Hc : calm cx) by (left; exact Hx). rewrite close_body_tail.
  eapply runs_read_bind; [apply (reads_of _ _ _ (reads_maperr _ _ _ _ (reads_closableLocked cx tc id end_ Hc)))|].
  intros p [db0 (_ & (I & _) & _)]. rewrite I.
  eapply runs_read_bind; [apply (reads_of _ _ _ (reads_maperr _ _ _ _ HP))|].
  intros snap _. set (p' := closed_period p end_ closedAt snap).
  eapply runs_bind; [apply runs_maperr, (runs_period_Save cx tc p' Hc F)
    | intros u _; apply (runs_close_tail cx tc by_ closedAt end_ snap (IsCurrent p) p' Hf Hc F) |].
  intros u r db db1 db2 _ [-> _] Hs _. exists snap. split; [reflexivity | exact Hs].
Qed.

Lemma close_effect_guar cx tc id end_ by_ closedAt p' db db' :
  close_effect cx tc id end_ by_ closedAt p' db db' -> guar db db'.
Proof.
  intros (p & snap & cid & u & k & Hp & (I & O & P) & (Hl & Hf) & -> & _ & _ & ps & -> & Hps) Hch.
  destruct (IsCurrent p) eqn:Cp.
  - destruct Hps as (next & Hfr & (On & Pn & Sn & En & St) & ->).
    apply IsCurrent_spec in Cp as Ep. rewrite Ep in Hf.
    apply (chain_close_first db id p (closed_period p end_ closedAt snap) end_ (pr_ID next) next); auto.
    + unfold closed_period. rewrite Cp. reflexivity.
    + congruence.
    + apply open_not_locked, St.
    + rewrite Sn, days_AddDays. lia.
  - subst ps. pose proof (chain_replace db id p (closed_period p end_ closedAt snap) Hch Hp) as Hr.
    destruct Hr as [[] Gr]; [| | exact Hch|].
    + unfold same_range, closed_period. rewrite Cp. cbn. repeat split.
    + intros _. unfold closed_period. rewrite Cp. exact Cp.
    + split; [constructor; assumption | exact Gr].
Qed.
End CloseEffect.
