(* ===== verification/PeriodProps.v ===== *)
(** * The properties of the periods module

    What a session of period operations does to the chain, the exact effect of
    [Close] and [Reopen], and one write that undoes another. *)
From Stdlib Require Import ZArith Lia String List.
From stdpp Require Import base gmap list strings.
From S2P Require Import Prelude GoStrings Errors Civil Money Tenant Ledger Period World LedgerService.
From S2P Require Import PeriodStore PeriodService PeriodTheory.
Local Open Scope string_scope.
Local Open Scope Z_scope.

(** ** Sessions of operations *)
Inductive PeriodOp :=
| OpEnsureCurrent
| OpRename (id : uuid) (name : string)
| OpClose (id : uuid) (end_ : Date) (by_ : uuid)
| OpReopen (id : uuid).

Section Sessions.
Context `{Env, SettingsReader, Snapshotter, !SettingsReaderLaws, !SnapshotterLaws}.

Definition run_period_op (cx : Ctx) (op : PeriodOp) : M Period :=
  match op with
  | OpEnsureCurrent => EnsureCurrent cx
  | OpRename id name => Rename cx id name
  | OpClose id end_ by_ => Close cx id end_ by_
  | OpReopen id => Reopen cx id
  end.

(** Operations one after the other, each in its own request, their outcomes dropped. *)
Fixpoint period_session (ops : list (Ctx * PeriodOp)) (w : World) : World :=
  match ops with
  | [] => w
  | (cx, op) :: rest => period_session rest (snd (run_period_op cx op w))
  end.

Hypothesis rely : forall n db, guar db (env_other n db).
Hypothesis fresh : fresh_ids.

Lemma Close_guar cx id end_ by_ : preserves (on_db guar) (Close cx id end_ by_).
Proof.
  unfold Close, closable. apply pres_with_tenant; [exact _|]. intros tc F.
  apply preserves_bind; [exact _ | |].
  { apply preserves_bind; [exact _ | apply pres_scoped; exact rely|]. intros p.
    apply preserves_bind; [exact _ | apply pres_checkClosable; exact rely | intros; apply preserves_ret, _]. }
  intros _. apply preserves_bind; [exact _ | apply pres_time_Now, _|]. intros now.
  apply preserves_bind; [exact _ | |].
  - apply preserves_try, pres_RunInTx_runs; [exact _ | exact rely|].
    eapply runs_conseq; [apply runs_close_body; [exact fresh | reflexivity | exact F]|].
    intros p' db db' He Hc. eapply close_effect_guar; [apply He, Hc | exact Hc].
  - intros [[e []]|p]; [apply pres_unexpected, _ | | apply preserves_ret, _].
    destruct (period_isDomainError e); [apply preserves_err, _ | apply pres_unexpected, _].
Qed.

Lemma run_period_op_guar cx op w : Chain (W_db w) -> guar (W_db w) (W_db (snd (run_period_op cx op w))).
Proof.
  intros Hc. destruct op; simpl.
  - apply (EnsureCurrent_guar rely).
  - apply (Rename_guar rely), Hc.
  - apply Close_guar.
  - apply (Reopen_guar rely), Hc.
Qed.

Lemma session_guar ops : forall w, Chain (W_db w) -> guar (W_db w) (W_db (period_session ops w)).
Proof.
  induction ops as [|[cx op] ops IH]; intros w Hc; [reflexivity|]. simpl.
  pose proof (run_period_op_guar cx op w Hc) as G. etransitivity; [exact G | apply IH, G, Hc].
Qed.
End Sessions.

(** C3: Whatever periods operations a session runs, with whatever arguments and
    driver faults, and whatever the other sessions commit between its
    transactions by the same rules, the periods of every project stay a chain (no
    overlap, exactly one current, no gap), no period is lost or moved to another
    scope or start, and no end once set ever changes. *)
Theorem session_keeps_chain `{Env, SettingsReader, Snapshotter, !SettingsReaderLaws, !SnapshotterLaws} ops w :
  (forall n db, guar db (env_other n db)) -> fresh_ids -> Chain (W_db w) ->
  Chain (W_db (period_session ops w)) /\ grows (W_db w) (W_db (period_session ops w)).
Proof. intros Hr Hf Hc. exact (session_guar Hr Hf ops w Hc Hc). Qed.

Lemma empty_chain : Chain empty_db.
Proof. split; intros i p *; cbn; rewrite lookup_empty; discriminate. Qed.

(** ** Every day has its period *)
Lemma chain_covers db i p : Chain db -> db_periods db !! i = Some p ->
  forall k : nat, exists j q, db_periods db !! j = Some q /\ pr_ProjectID q = pr_ProjectID p
    /\ days (pr_StartDate q) <= days (pr_StartDate p) + Z.of_nat k
    /\ match pr_EndDate q with None => True | Some e => days (pr_StartDate p) + Z.of_nat k <= days e end.
Proof.
  intros Hc Hp. induction k as [|k (j & q & Hq & Pq & Sq & Eq)].
  - exists i, p. split; [exact Hp|]. split; [reflexivity|]. split; [lia|].
    destruct (pr_EndDate p) as [e|] eqn:E; [|exact I]. pose proof (ch_end db Hc i p e Hp E). lia.
  - destruct (pr_EndDate q) as [e|] eqn:E; [|exists j, q; rewrite E; repeat split; auto; lia].
    destruct (Z.eq_dec (days e) (days (pr_StartDate p) + Z.of_nat k)) as [He|He];
      [|exists j, q; rewrite E; repeat split; auto; lia].
    destruct (ch_next db Hc j q e Hq E) as (m & r & Hr & Pr & Sr).
    exists m, r. split; [exact Hr|]. split; [congruence|]. split; [lia|].
    destruct (pr_EndDate r) as [f|] eqn:F; [|exact I]. pose proof (ch_end db Hc m r f Hr F). lia.
Qed.

Lemma chain_one db i j p q d : Chain db -> db_periods db !! i = Some p -> db_periods db !! j = Some q ->
  pr_ProjectID p = pr_ProjectID q -> Period_Contains p d = true -> Period_Contains q d = true -> i = j.
Proof.
  intros Hc Hp Hq Epr Cp Cq. destruct (decide (i = j)) as [|Hne]; [assumption|]. exfalso.
  apply Contains_spec in Cp as [S1 E1]. apply Contains_spec in Cq as [S2 E2].
  destruct (ch_disjoint db Hc i j p q Hp Hq Hne Epr) as [(e & He & Hl)|(e & He & Hl)];
    rewrite He in *; lia.
Qed.

(** After any session of period operations, every day from a project's
    first period on, with no bound in the future, falls in exactly one of the
    project's periods. *)
Theorem every_day_in_one_period `{Env, SettingsReader, Snapshotter, !SettingsReaderLaws, !SnapshotterLaws} ops w i p d :
  (forall n db, guar db (env_other n db)) -> fresh_ids -> Chain (W_db w) ->
  let db := W_db (period_session ops w) in
  db_periods db !! i = Some p -> days (pr_StartDate p) <= days d ->
  exists j q, (db_periods db !! j = Some q /\ pr_ProjectID q = pr_ProjectID p /\ Period_Contains q d = true)
    /\ forall k r, db_periods db !! k = Some r -> pr_ProjectID r = pr_ProjectID p ->
         Period_Contains r d = true -> k = j /\ r = q.
Proof.
  intros Hr Hf Hc db Hp Hd. assert (Hdb : Chain db) by (apply (session_guar Hr Hf ops w Hc Hc)).
  destruct (chain_covers db i p Hdb Hp (Z.to_nat (days d - days (pr_StartDate p)))) as (j & q & Hq & Pq & Sq & Eq).
  rewrite Z2Nat.id in * by lia. replace (days (pr_StartDate p) + (days d - days (pr_StartDate p))) with (days d) in * by lia.
  assert (Cq : Period_Contains q d = true) by (apply Contains_spec; auto).
  exists j, q. split; [auto|]. intros k r Hk Pk Ck.
  assert (k = j) as -> by (apply (chain_one db k j r q d); congruence). split; congruence.
Qed.

(** ** A concrete session *)
Definition demo_ops : list (Ctx * PeriodOp) :=
  [ (demo_cx, OpEnsureCurrent);
    (demo_cx, OpClose 100 (mkDate 2024 3 8) 3);
    (demo_cx, OpRename 100 " March ");
    (demo_cx, OpReopen 100) ].
Definition demo_session (ops : list (Ctx * PeriodOp)) : World :=
  @period_session demo_env (@ledger_settings demo_env demo_tz) (@demo_snapshotter demo_env) ops demo_world.

Lemma session_keeps_chain_witness :
  let w := demo_session demo_ops in
  Chain (W_db w) /\ grows (W_db demo_world) (W_db w) /\ size (db_periods (W_db w)) = 2%nat.
Proof.
  intros w.
  destruct (@session_keeps_chain demo_env (@ledger_settings demo_env demo_tz) (@demo_snapshotter demo_env)
    (@ledger_settings_laws demo_env demo_tz) (@demo_snapshotter_laws demo_env) demo_ops demo_world
    (fun n db => guar_pre.(PreOrder_Reflexive) db) demo_fresh_ids empty_chain) as [Hc Hg].
  split; [exact Hc|]. split; [exact Hg|]. vm_compute. reflexivity.
Defined.

Lemma every_day_in_one_period_witness :
  exists j q, db_periods (W_db (demo_session demo_ops)) !! j = Some q
    /\ Period_Contains q (mkDate 2030 1 1) = true /\ j = 300%N.
Proof.
  destruct (db_periods (W_db (demo_session demo_ops)) !! 100%N) as [p|] eqn:Hp; [|vm_compute in Hp; discriminate].
  destruct (@every_day_in_one_period demo_env (@ledger_settings demo_env demo_tz) (@demo_snapshotter demo_env)
    (@ledger_settings_laws demo_env demo_tz) (@demo_snapshotter_laws demo_env) demo_ops demo_world 100%N p (mkDate 2030 1 1)
    (fun n db => guar_pre.(PreOrder_Reflexive) db) demo_fresh_ids empty_chain Hp) as (j & q & (Hq & Pq & Cq) & Hu).
  - vm_compute in Hp. injection Hp as <-. vm_compute. discriminate.
  - exists j, q. split; [exact Hq|]. split; [exact Cq|].
    assert (H3 : exists r, db_periods (W_db (demo_session demo_ops)) !! 300%N = Some r
       /\ pr_ProjectID r = 2%N /\ Period_Contains r (mkDate 2030 1 1) = true)
      by (eexists; split; [vm_compute; reflexivity | split; vm_compute; reflexivity]).
    destruct H3 as (r & Hr & Pr & Cr). symmetry. refine (proj1 (Hu 300%N r Hr _ Cr)).
    rewrite Pr. vm_compute in Hp. injection Hp as <-. reflexivity.
Defined.

(** ** Close and Reopen without interference *)
Section Quiet.
Context `{Env, SettingsReader, Snapshotter, !SettingsReaderLaws, !SnapshotterLaws}.

Lemma reads_closable cx tc id end_ : calm cx -> reads (fun _ _ => True) (closable cx tc id end_).
Proof.
  intros Hc. unfold closable. eapply reads_seq; [apply reads_scoped, Hc|]. intros p _.
  eapply reads_seq; [apply (reads_checkClosable cx tc p end_ Hc)|]. intros u _. apply reads_ret. auto.
Qed.

Definition project_periods (db : DB) (tc : Tenant) : list Period :=
  List.filter (period_scope (OrgID tc) (ProjectID tc) (OrgID tc)) (rows (db_periods db)).

Lemma project_periods_In db tc p : In p (project_periods db tc) <->
  In p (rows (db_periods db)) /\ pr_OrgID p = OrgID tc /\ pr_ProjectID p = ProjectID tc.
Proof.
  unfold project_periods, period_scope. rewrite filter_In, !andb_true_iff, !N.eqb_eq. tauto.
Qed.

Lemma reads_list_all cx tc : calm cx -> From_ cx = inr tc ->
  reads (fun l db => forall p, In p l <-> In p (project_periods db tc))
    (period_store_List cx (OrgID tc) (ProjectID tc) all_periods).
Proof.
  intros Hc F. unfold period_store_List. apply reads_read_tx; [exact Hc | auto|].
  intros tc' F'. rewrite F in F'. injection F' as <-.
  eapply reads_e_conseq; [apply reads_query | | auto].
  intros l db -> p. unfold all_periods, limited. cbn [lo_Limit lo_Before]. change (0 <? 0) with false. cbn iota.
  rewrite In_sort_by. unfold project_periods. rewrite !filter_In, andb_true_r. reflexivity.
Qed.
End Quiet.

(** C4: [Close] is one unit of work. When it succeeds, the period was open (or
    current) with the asked end, it is now locked with the snapshot and the end,
    one closing with its author was written, on a first close the period of the
    next day was opened, and nothing else changed; when it fails, for whatever
    reason, nothing changed. *)
Theorem Close_atomic `{Env, SettingsReader, Snapshotter, !SettingsReaderLaws, !SnapshotterLaws} cx id end_ by_ :
  quiet -> fresh_ids ->
  commits (fun p' db db' => Chain db -> exists tc now,
      From_ cx = inr tc /\ close_effect cx tc id end_ by_ (Truncate_us now) p' db db')
    (Close cx id end_ by_).
Proof.
  intros Hq Hf. unfold Close.
  eapply commits_read_bind; [apply (reads_of _ _ _ (reads_from_tenant cx))|]. intros tc [db0 F].
  eapply commits_read_bind; [apply reads_closable, calm_quiet, Hq|]. intros ? _.
  eapply commits_read_bind; [apply reads_time_Now|]. intros now _.
  eapply commits_try_bind.
  - apply commits_RunInTx; [exact Hq|]. intros _.
    apply (runs_close_body (WithTx cx) tc id end_ by_ (Truncate_us now) Hf eq_refl F).
  - intros [e []]; [apply commits_err|]. destruct (period_isDomainError e); apply commits_err.
  - intros p'. exists p'. split; [reflexivity|]. intros db db' He _ _ F' Hc. exists tc, now.
    split; [exact F | apply He, Hc].
Qed.

(** [Reopen] succeeds only on the locked period of the caller's project that
    is newer than every other ended period, all of them locked; it stores the
    period open with its end, closing time and snapshot kept, and changes
    nothing else. When it fails nothing changed. *)
Theorem Reopen_newest_only `{Env} cx id :
  quiet -> cx_tx cx = false ->
  commits (fun p' db db' => Chain db -> exists tc p now,
      From_ cx = inr tc /\ db_periods db !! id = Some p /\ in_scope tc id p /\ IsLocked p = true
      /\ (forall q, In q (project_periods db tc) -> IsCurrent q = false -> pr_ID q <> id ->
            IsLocked q = true /\ days (pr_StartDate q) < days (pr_StartDate p))
      /\ p' = reopened p now /\ db' = set_periods (<[id := p']> (db_periods db)) db)
    (Reopen cx id).
Proof.
  intros Hq Hx. unfold Reopen.
  eapply commits_read_bind; [apply (reads_of _ _ _ (reads_from_tenant cx))|]. intros tc [db0 F].
  eapply commits_read_bind; [apply reads_scoped, calm_quiet, Hq|]. intros p [db1 [_ (I & O & P)]].
  destruct (IsLocked p) eqn:HL; [cbn [negb]|apply commits_err].
  eapply commits_read_bind; [apply reads_try, (reads_list_all cx tc (calm_quiet _ Hq) F)|].
  intros [e|l] _; [apply commits_err|].
  destruct (LatestClosed l) as [b|] eqn:L; [|apply commits_err].
  destruct (N.eqb_spec (pr_ID b) (pr_ID p)) as [Eb|]; [cbn [negb]|apply commits_err].
  eapply commits_read_bind; [apply reads_time_Now|]. intros now _.
  eapply (commits_try_bind _ _ (fun _ db db' => exists n, period_upsert tc (reopened p now) db = inr (db', S n))).
  - apply commits_write_tx; auto. intros tc' F'. rewrite F in F'. injection F' as <-. apply runs_exec_save.
  - intros e. destruct (period_isDomainError e); apply commits_err.
  - intros []. eexists. split; [reflexivity|]. intros db db' [n U] _ Hl [Hin _] _ Hc.
    destruct (rows_known db p Hc Hin) as [_ Hp]. rewrite I in Hp.
    apply (upsert_existing tc _ p) in U; [|cbn [reopened pr_ID]; rewrite I; exact Hp].
    cbn [reopened pr_ID] in U. rewrite I in U. change (updated_period p (reopened p now)) with (reopened p now) in U.
    apply LatestClosed_spec in L as (Hb & _ & _ & Hrest). apply Hl, project_periods_In in Hb as [Hb _].
    destruct (rows_known db b Hc Hb) as [_ Hb']. rewrite Eb, I, Hp in Hb'. injection Hb' as <-.
    exists tc, p, now. split; [exact F|]. split; [exact Hp|]. split; [repeat split; assumption|].
    split; [exact HL|]. split; [|auto]. intros q Hqi Hqc Hqn. apply Hl in Hqi.
    destruct (Hrest q Hqi Hqc) as [Hlq [E|Hlt]]; [congruence | auto].
Qed.

Definition demo_close (w : World) : Outcome Error Period * World :=
  @Close demo_env (@ledger_settings demo_env demo_tz) (@demo_snapshotter demo_env) demo_cx 100 (mkDate 2024 3 8) 3 w.

Lemma Close_atomic_witness :
  let w := demo_session [(demo_cx, OpEnsureCurrent)] in
  exists p' now, close_effect demo_cx demo_tenant 100 (mkDate 2024 3 8) 3 (Truncate_us now) p' (W_db w)
      (W_db (snd (demo_close w)))
    /\ pr_EndDate p' = Some (mkDate 2024 3 8) /\ IsLocked p' = true.
Proof.
  intros w.
  pose proof (@session_guar demo_env (@ledger_settings demo_env demo_tz) (@demo_snapshotter demo_env)
    (@ledger_settings_laws demo_env demo_tz) (@demo_snapshotter_laws demo_env)
    (fun n db => guar_pre.(PreOrder_Reflexive) db) demo_fresh_ids
    [(demo_cx, OpEnsureCurrent)] demo_world empty_chain empty_chain) as [Hc _].
  assert (E : exists p', fst (demo_close w) = Ok p' /\ pr_EndDate p' = Some (mkDate 2024 3 8) /\ IsLocked p' = true)
    by (eexists; split; [vm_compute; reflexivity | split; vm_compute; reflexivity]).
  destruct E as (p' & E & Ee & El).
  destruct (proj1 (@Close_atomic demo_env (@ledger_settings demo_env demo_tz) (@demo_snapshotter demo_env)
    (@ledger_settings_laws demo_env demo_tz) (@demo_snapshotter_laws demo_env) demo_cx 100%N (mkDate 2024 3 8) 3%N
    demo_quiet demo_fresh_ids) w p' E Hc) as (tc & now & F & He).
  injection F as <-. exists p', now. auto.
Defined.

Definition demo_reopen (w : World) : Outcome Error Period * World := @Reopen demo_env demo_cx 100 w.

Lemma Reopen_newest_only_witness :
  let w := demo_session [(demo_cx, OpEnsureCurrent); (demo_cx, OpClose 100 (mkDate 2024 3 8) 3)] in
  exists p' p now, db_periods (W_db w) !! 100%N = Some p /\ IsLocked p = true
    /\ p' = reopened p now /\ db_periods (W_db (snd (demo_reopen w))) = <[100%N := p']> (db_periods (W_db w)).
Proof.
  intros w.
  pose proof (@session_guar demo_env (@ledger_settings demo_env demo_tz) (@demo_snapshotter demo_env)
    (@ledger_settings_laws demo_env demo_tz) (@demo_snapshotter_laws demo_env)
    (fun n db => guar_pre.(PreOrder_Reflexive) db) demo_fresh_ids
    [(demo_cx, OpEnsureCurrent); (demo_cx, OpClose 100 (mkDate 2024 3 8) 3)] demo_world empty_chain empty_chain) as [Hc _].
  assert (E : exists p', fst (demo_reopen w) = Ok p') by (eexists; vm_compute; reflexivity).
  destruct E as (p' & E).
  destruct (proj1 (@Reopen_newest_only demo_env demo_cx 100%N demo_quiet eq_refl) w p' E Hc)
    as (tc & p & now & F & Hp & Hs & HL & _ & Ep & Ed).
  exists p', p, now. split; [exact Hp|]. split; [exact HL|]. split; [exact Ep|].
  unfold demo_reopen. rewrite Ed. reflexivity.
Defined.

(** ** A close that a rename undoes *)

(** Another session closes the period again just before [Rename] saves. *)
Definition racing_env : Env := {|
  env_uuid := fun _ db => demo_fresh db;
  env_now := fun _ => (1709942400 * 1000000000)%Z;
  env_fault := fun _ => None;
  env_other := fun n db => if Nat.eqb n 4 then W_db (snd (demo_close (mkWorld db 0))) else db;
  env_sheet := fun _ s => s
|}.

(** [Rename] writes back the whole row it read outside any transaction: a
    reopened period that another session closes again in between is silently
    open once more after the rename, although the close had succeeded and its
    closing is on record. *)
Theorem Rename_undoes_close :
  let w := mkWorld (W_db (demo_session [(demo_cx, OpEnsureCurrent);
             (demo_cx, OpClose 100 (mkDate 2024 3 8) 3); (demo_cx, OpReopen 100)])) 0 in
  let r := @Rename racing_env demo_cx 100 "March" w in
  (exists p, fst (demo_close w) = Ok p /\ IsLocked p = true)
  /\ (exists p, fst r = Ok p)
  /\ (exists row, db_periods (W_db (snd r)) !! 100%N = Some row /\ IsLocked row = false)
  /\ size (db_closings (W_db (snd r))) = 2%nat.
Proof.
  intros w r. split; [|split; [|split]].
  - eexists. split; [vm_compute; reflexivity | vm_compute; reflexivity].
  - eexists. vm_compute. reflexivity.
  - eexists. split; [vm_compute; reflexivity | vm_compute; reflexivity].
  - vm_compute. reflexivity.
Qed.
