(* ===== verification/Commit.v ===== *)
(** * Commits and the mirror

    The unit of work the wallet, category and transaction services run their
    writes in, the mirror that is told of every changed row inside it and kicked
    after the commit ([mirror.go] of the three packages), and the statements'
    helpers the three stores share. *)
From Stdlib Require Import ZArith Lia String Ascii List.
From stdpp Require Import base gmap list strings.
From S2P Require Import Prelude GoStrings Errors Civil Money Tenant Ledger Period Wallet Category Transaction World.
Local Open Scope string_scope.

(** ** The mirror *)
Definition MirrorWallet := "wallet".
Definition MirrorCategory := "category".
Definition MirrorTransaction := "transaction".

Record MirrorRef := mkMirrorRef { mr_Entity : string; mr_ID : uuid; mr_Deleted : bool; mr_Cascade : bool }.

(** [Mirror]: [Mark] inside the write's unit of work, [Kick] after its commit. *)
Class Mirror := {
  Mark : Ctx -> list MirrorRef -> M unit;
  Kick : Ctx -> list MirrorRef -> World -> World
}.
(** [passthrough], or [db.RunInTx] bound to the pool. *)
Inductive UnitOfWork := passthrough | run_in_tx.
Class Uow := uow : UnitOfWork.

(** What a mirror promises: marks and kicks write none of the modelled tables; a
    kick opens transactions, before which other sessions may commit. *)
Class MirrorLaws `{Env} `{Mirror} := {
  Mark_in_tx cx refs : cx_tx cx = true -> reads (fun _ _ => True) (Mark cx refs);
  Kick_read cx refs (R : DB -> DB -> Prop) `{!PreOrder R} :
    (forall n db, R db (env_other n db)) -> forall w, on_db R w (Kick cx refs w)
}.

Section Commit.
Context `{Env, Mirror, Uow}.

Definition run_uow {E A} (inj : Error -> E) (cx : Ctx) (fn : Ctx -> ST World E A) : ST World E A :=
  match uow with passthrough => fn cx | run_in_tx => RunInTx inj cx fn end.

Definition kick (cx : Ctx) (refs : list MirrorRef) : M unit := fun w => (Ok tt, Kick cx refs w).

(** [mark]: a failed mark is masked, and fails the unit of work. *)
Definition mark (cx : Ctx) (op : string) (refs : list MirrorRef) : M unit :=
  let* r := st_try (Mark cx refs) in
  match r with inl e => unexpected (op ++ ": mark") e | inr _ => st_ret tt end.

(** [commit]: [write] and the marks of the refs it returns in one unit of work.
    [write]'s captured result is returned beside its refs; an error of the write
    or of the mark is its own, any other is the unit of work's. *)
Definition commit {A} (cx : Ctx) (op : string) (write : Ctx -> M (A * list MirrorRef)) : M (A * list MirrorRef) :=
  let* r := st_try (run_uow (fun e => (e, false)) cx (fun cx =>
    st_maperr (fun e => (e, true))
      (let* ar := write cx in mark cx op (snd ar) ;;; st_ret ar))) in
  match r with
  | inl (e, true) => st_err e
  | inl (e, false) => unexpected (op ++ ": unit of work") e
  | inr ar => st_ret ar
  end.

(** [commit], then the kick of what it marked. *)
Definition commit_kick {A} (cx : Ctx) (op : string) (write : Ctx -> M (A * list MirrorRef)) : M A :=
  let* ar := commit cx op write in kick cx (snd ar) ;;; st_ret (fst ar).
End Commit.

(** ** What a commit does to the database *)
Section CommitLaws.
Context `{Env, Mirror, !MirrorLaws, Uow}.

Lemma reads_mark cx op refs : cx_tx cx = true -> reads (fun _ _ => True) (mark cx op refs).
Proof.
  intros Hx. unfold mark. eapply (reads_seq _ _ (fun _ _ => True));
    [eapply reads_conseq; [apply reads_try, Mark_in_tx, Hx | auto]|].
  intros [e|[]] _; [apply reads_unexpected | apply reads_ret]; auto.
Qed.
Lemma runs_commit_body {A} cx op (write : Ctx -> M (A * list MirrorRef)) (Q : A -> DB -> DB -> Prop) :
  cx_tx cx = true -> runs (fun ar => Q (fst ar)) (write cx) ->
  runs (fun ar => Q (fst ar))
    (st_maperr (fun e => (e, true)) (let* ar := write cx in mark cx op (snd ar) ;;; st_ret ar)).
Proof.
  intros Hx Hw. apply runs_maperr.
  eapply (runs_bind _ _ _ (fun ar ar' db db' => ar' = ar /\ db' = db)); [exact Hw | |].
  - intros ar _. eapply runs_read_bind; [apply reads_mark, Hx|]. intros u _ w x. simpl. intros [= <-]. auto.
  - intros ar ar' db db1 db2 HQ [-> ->]. exact HQ.
Qed.

Lemma Kick_db cx refs w : quiet -> W_db (Kick cx refs w) = W_db w.
Proof.
  intros Hq. symmetry. apply (Kick_read cx refs eq). intros n db. symmetry. apply Hq.
Qed.
Lemma commits_then_kick {A} cx (m : M (A * list MirrorRef)) (Q : A -> DB -> DB -> Prop) :
  quiet -> commits (fun ar => Q (fst ar)) m -> commits Q (let* ar := m in kick cx (snd ar) ;;; st_ret (fst ar)).
Proof.
  intros Hq [HA HB]. unfold st_bind. split.
  - intros w b. specialize (HA w). destruct (m w) as [[[a refs]|e|p] w1]; simpl in *; try discriminate.
    intros [= <-]. rewrite Kick_db by exact Hq. apply (HA (a, refs)). reflexivity.
  - intros w Hf. specialize (HB w). destruct (m w) as [[[a refs]|e|p] w1]; simpl in *;
      [destruct (Hf a eq_refl) | apply HB; discriminate ..].
Qed.

(** Without interference a commit is all or nothing. *)
Lemma commits_commit {A} cx op (write : Ctx -> M (A * list MirrorRef)) (Q : A -> DB -> DB -> Prop) :
  quiet -> uow = run_in_tx -> runs (fun ar => Q (fst ar)) (write (WithTx cx)) ->
  commits (fun ar => Q (fst ar)) (commit cx op write).
Proof.
  intros Hq Hu Hw. unfold commit, run_uow. rewrite Hu. eapply (commits_try_bind _ _ (fun ar => Q (fst ar))).
  - apply commits_RunInTx; [exact Hq|]. intros _. apply (runs_commit_body (WithTx cx) op write Q eq_refl Hw).
  - intros [e []]; apply commits_err.
  - intros ar. exists ar. auto.
Qed.
Lemma commits_commit_kick {A} cx op (write : Ctx -> M (A * list MirrorRef)) (Q : A -> DB -> DB -> Prop) :
  quiet -> uow = run_in_tx -> runs (fun ar => Q (fst ar)) (write (WithTx cx)) ->
  commits Q (commit_kick cx op write).
Proof. intros Hq Hu Hw. unfold commit_kick. apply commits_then_kick; [exact Hq|]. apply commits_commit; assumption. Qed.
(** Under interference it keeps to whatever its write's successful runs keep to. *)
Lemma pres_commit {A} (R : DB -> DB -> Prop) `{!PreOrder R} cx op (write : Ctx -> M (A * list MirrorRef)) :
  (forall n db, R db (env_other n db)) -> uow = run_in_tx -> runs (fun _ => R) (write (WithTx cx)) ->
  preserves (on_db R) (commit cx op write).
Proof.
  intros rely Hu Hw. unfold commit, run_uow. rewrite Hu. apply preserves_bind; [exact _ | |].
  - apply preserves_try, pres_RunInTx_runs; [exact _ | exact rely|].
    apply (runs_commit_body (WithTx cx) op write (fun _ => R) eq_refl Hw).
  - intros [[e []]|ar]; [apply preserves_err, _ | apply pres_unexpected, _ | apply preserves_ret, _].
Qed.
Lemma pres_kick (R : DB -> DB -> Prop) `{!PreOrder R} cx refs :
  (forall n db, R db (env_other n db)) -> preserves (on_db R) (kick cx refs).
Proof. intros rely w. apply Kick_read; [exact _ | exact rely]. Qed.
Lemma pres_commit_kick {A} (R : DB -> DB -> Prop) `{!PreOrder R} cx op (write : Ctx -> M (A * list MirrorRef)) :
  (forall n db, R db (env_other n db)) -> uow = run_in_tx -> runs (fun _ => R) (write (WithTx cx)) ->
  preserves (on_db R) (commit_kick cx op write).
Proof.
  intros rely Hu Hw. unfold commit_kick. apply preserves_bind; [exact _ | apply pres_commit; assumption|].
  intros ar. apply preserves_bind; [exact _ | apply pres_kick; [exact _ | exact rely] | intros; apply preserves_ret, _].
Qed.
End CommitLaws.

(** A mirror that is not wired: [nopMirror]. *)
Definition nopMirror : Mirror := {| Mark := fun _ _ => st_ret tt; Kick := fun _ _ w => w |}.
Lemma nopMirror_laws `{Env} : @MirrorLaws _ nopMirror.
Proof. split; [intros cx refs _; apply reads_ret; auto | intros cx refs R HR _ w; unfold on_db; reflexivity]. Qed.

(** ** Statement helpers *)

(** SQLite's [lower]: ASCII letters only. *)
Fixpoint sqlite_lower (s : string) : string :=
  match s with
  | EmptyString => EmptyString
  | String c r => String (if in_range 65 90 c then ascii_of_N (byte_of c + 32) else c) (sqlite_lower r)
  end.
