(* ===== verification/SheetStore.v ===== *)
(** * The sheet mirror's store ([internal/opensheetsync/sqlite.go])

    The statements on [opensheet_links] and [opensheet_sync_state]: marks bump a
    row's version, a claim leases one dirty row, the lease's holder settles or
    releases it; a sync's outcome is kept on the link. Each method runs in the
    caller's unit of work or in a transaction of its own. *)
From Stdlib Require Import ZArith Lia String List.
From stdpp Require Import base gmap list strings.
From S2P Require Import Prelude GoStrings Errors Tenant Wallet Category Transaction Outbox Sheet World.
Local Open Scope string_scope.
Local Open Scope Z_scope.

(** ** Columns *)

Definition key_of (orgID : uuid) (r : Ref) : SyncKey := (orgID, refKey r).
Definition row_key (r : SyncRow) : SyncKey := (sr_OrgID r, (sr_Entity r, sr_EntityID r)).
Definition row_dirty (r : SyncRow) : bool := sr_SyncedVersion r <? sr_Version r.

(** The row [markColumns] inserts. *)
Definition new_mark (orgID projectID : uuid) (e : Entity) (id : uuid) (deleted : bool) (ts : Z) : SyncRow :=
  mkSyncRow orgID projectID e id 1 0 deleted 0 "" None None None ts.
Definition markSets (ts : Z) (deleted : bool) (r : SyncRow) : SyncRow :=
  mkSyncRow (sr_OrgID r) (sr_ProjectID r) (sr_Entity r) (sr_EntityID r) (sr_Version r + 1) (sr_SyncedVersion r)
    (if deleted then true else sr_Deleted r) 0 (sr_LastError r) (sr_LeaseToken r) (sr_LeasedUntil r) None ts.
Definition set_claim (token : uuid) (until : Z) (r : SyncRow) : SyncRow :=
  mkSyncRow (sr_OrgID r) (sr_ProjectID r) (sr_Entity r) (sr_EntityID r) (sr_Version r) (sr_SyncedVersion r)
    (sr_Deleted r) (sr_Attempts r) (sr_LastError r) (Some token) (Some until) (sr_RetryAfter r) (sr_UpdatedAt r).
Definition set_settled (version : Z) (r : SyncRow) : SyncRow :=
  mkSyncRow (sr_OrgID r) (sr_ProjectID r) (sr_Entity r) (sr_EntityID r) (sr_Version r) version
    (sr_Deleted r) 0 "" None None None (sr_UpdatedAt r).
(** A mark since the claim moved the version on; that edit keeps its own attempts. *)
Definition set_released (f : Failure) (r : SyncRow) : SyncRow :=
  let same := (fa_Version f =? 0) || (sr_Version r =? fa_Version f) in
  mkSyncRow (sr_OrgID r) (sr_ProjectID r) (sr_Entity r) (sr_EntityID r) (sr_Version r) (sr_SyncedVersion r)
    (sr_Deleted r) (if same then (if fa_Count f then sr_Attempts r + 1 else sr_Attempts r) else sr_Attempts r)
    (fa_Reason f) None None (if same then fa_RetryAfter f else sr_RetryAfter r) (fa_At f).

(** ** The [WHERE] clauses *)

Definition before_ (t : option Z) (at_ : Z) : bool := match t with None => true | Some t => t <? at_ end.
Definition claimable (at_ : Z) (r : SyncRow) : bool :=
  row_dirty r && (sr_Attempts r <? MaxRowAttempts) && before_ (sr_LeasedUntil r) at_ && before_ (sr_RetryAfter r) at_.
Definition in_project (orgID projectID : uuid) (r : SyncRow) : bool :=
  N.eqb (sr_OrgID r) orgID && N.eqb (sr_ProjectID r) projectID.
Definition holds_lease (token : uuid) (r : SyncRow) : bool :=
  match sr_LeaseToken r with Some t => N.eqb t token | None => false end.
Definition linkWhere (orgID projectID : uuid) (l : Link) : bool :=
  N.eqb (lk_OrgID l) orgID && N.eqb (lk_ProjectID l) projectID.
Definition link_of (s : SheetDB) (orgID projectID : uuid) : option Link :=
  List.find (linkWhere orgID projectID) (rows (sd_links s)).

(** The row [stateKey] names, when the project's. *)
Definition state_row (s : SheetDB) (orgID projectID : uuid) (ref : Ref) : option SyncRow :=
  match sd_state s !! key_of orgID ref with
  | Some r => if N.eqb (sr_ProjectID r) projectID then Some r else None
  | None => None
  end.
Definition state_rows (s : SheetDB) : list SyncRow := map snd (map_to_list (sd_state s)).

(** ** Statements *)

Definition set_state_rows (m : gmap SyncKey SyncRow) (s : SheetDB) : SheetDB := mkSheetDB (sd_links s) m.
Definition set_links (m : gmap uuid Link) (s : SheetDB) : SheetDB := mkSheetDB m (sd_state s).

(** The constraint it violates, or the new tables and the rows it returns. *)
Definition SheetStmt (A : Type) : Type := DB -> SheetDB -> (SqliteCode * string) + (SheetDB * A).

(** [INSERT ... ON CONFLICT (org_id, entity, entity_id) DO UPDATE] of one row:
    the entity check, the conflict target, the foreign keys. *)
Definition mark_row (db : DB) (s : SheetDB) (r : SyncRow) : (SqliteCode * string) + SheetDB :=
  match ParseEntity (sr_Entity r) with
  | None => inl (CONSTRAINT_CHECK, "CHECK constraint failed: entity IN ('transaction','wallet','category')")
  | Some _ =>
    match sd_state s !! row_key r with
    | Some old => inr (set_state_rows (<[row_key r := markSets (sr_UpdatedAt r) (sr_Deleted r) old]> (sd_state s)) s)
    | None =>
      match link_of s (sr_OrgID r) (sr_ProjectID r) with
      | Some _ =>
        if bool_decide (sr_OrgID r ∈ db_orgs db)
        then inr (set_state_rows (<[row_key r := r]> (sd_state s)) s)
        else inl (CONSTRAINT_FOREIGNKEY, "FOREIGN KEY constraint failed")
      | None => inl (CONSTRAINT_FOREIGNKEY, "FOREIGN KEY constraint failed")
      end
    end
  end.
Fixpoint mark_rows (db : DB) (s : SheetDB) (rs : list SyncRow) : (SqliteCode * string) + SheetDB :=
  match rs with
  | [] => inr s
  | r :: rest => match mark_row db s r with inl e => inl e | inr s' => mark_rows db s' rest end
  end.

Definition mark_one (orgID projectID : uuid) (ts : Z) (r : Ref) : SheetStmt unit := fun db s =>
  match mark_row db s (new_mark orgID projectID (rf_Entity r) (rf_ID r) (rf_Deleted r) ts) with
  | inl e => inl e
  | inr s' => inr (s', tt)
  end.
(** [INSERT ... SELECT id ... ORDER BY id ... ON CONFLICT DO UPDATE]. *)
Definition markSelect (orgID projectID : uuid) (e : Entity) (ts : Z) (ids : DB -> list uuid) : SheetStmt Z := fun db s =>
  let sel := sort_by N.leb (ids db) in
  match mark_rows db s (map (fun id => new_mark orgID projectID e id false ts) sel) with
  | inl err => inl err
  | inr s' => inr (s', Z.of_nat (List.length sel))
  end.

(** The project's rows of each mirrored table. *)
Definition tx_of (orgID projectID : uuid) (t : Transaction) : bool :=
  N.eqb (t_OrgID t) orgID && N.eqb (t_ProjectID t) projectID.
Definition wallet_of (orgID projectID : uuid) (w : Wallet) : bool :=
  N.eqb (w_OrgID w) orgID && N.eqb (w_ProjectID w) projectID.
Definition category_of (orgID projectID : uuid) (c : Category) : bool :=
  N.eqb (c_OrgID c) orgID && N.eqb (c_ProjectID c) projectID.
Definition entity_ids (orgID projectID : uuid) (e : Entity) (db : DB) : list uuid :=
  if String.eqb e EntityTransaction then map t_ID (List.filter (tx_of orgID projectID) (rows (db_txs db)))
  else if String.eqb e EntityCategory then map c_ID (List.filter (category_of orgID projectID) (rows (db_categories db)))
  else map w_ID (List.filter (wallet_of orgID projectID) (rows (db_wallets db))).
Definition opt_is (o : option uuid) (id : uuid) : bool := match o with Some x => N.eqb x id | None => false end.
(** [None] when the entity is referenced by no transaction column. *)
Definition names_ref (r : Ref) : option (Transaction -> bool) :=
  if String.eqb (rf_Entity r) EntityWallet
  then Some (fun t => N.eqb (t_WalletID t) (rf_ID r) || opt_is (t_ToWalletID t) (rf_ID r))
  else if String.eqb (rf_Entity r) EntityCategory then Some (fun t => opt_is (t_CategoryID t) (rf_ID r))
  else None.
Definition referencing (orgID projectID : uuid) (names : Transaction -> bool) (db : DB) : list uuid :=
  map t_ID (List.filter (fun t => tx_of orgID projectID t && names t) (rows (db_txs db))).

(** Whether the org still has a row of the entity under that id. *)
Definition entity_exists (orgID : uuid) (e : Entity) (id : uuid) (db : DB) : bool :=
  if String.eqb e EntityTransaction
  then match db_txs db !! id with Some t => N.eqb (t_OrgID t) orgID | None => false end
  else if String.eqb e EntityCategory
  then match db_categories db !! id with Some c => N.eqb (c_OrgID c) orgID | None => false end
  else match db_wallets db !! id with Some w => N.eqb (w_OrgID w) orgID | None => false end.
Definition goneRow (orgID projectID : uuid) (e : Entity) (db : DB) (r : SyncRow) : bool :=
  in_project orgID projectID r && String.eqb (sr_Entity r) e && negb (entity_exists orgID e (sr_EntityID r) db).
Definition update_state (p : SyncRow -> bool) (f : SyncRow -> SyncRow) (s : SheetDB) : SheetDB :=
  set_state_rows ((fun r => if p r then f r else r) <$> sd_state s) s.
Definition markGone (orgID projectID : uuid) (e : Entity) (ts : Z) : SheetStmt Z := fun db s =>
  inr (update_state (goneRow orgID projectID e db) (markSets ts true) s,
       Z.of_nat (List.length (List.filter (goneRow orgID projectID e db) (state_rows s)))).

(** [UPDATE ... WHERE stateKey AND p ... RETURNING]: the row as the statement left it. *)
Definition update_row (orgID projectID : uuid) (ref : Ref) (p : SyncRow -> bool) (f : SyncRow -> SyncRow)
    : SheetStmt (option SyncRow) := fun _ s =>
  match state_row s orgID projectID ref with
  | Some r =>
    if p r then inr (set_state_rows (<[key_of orgID ref := f r]> (sd_state s)) s, Some (f r)) else inr (s, None)
  | None => inr (s, None)
  end.

(** ** Link statements *)

Definition author_ok (l : Link) : bool := xorb (N.eqb (lk_CreatedBy l) uuid_Nil) (N.eqb (lk_CreatedByKeyID l) uuid_Nil).
Definition sheets_distinct (s : SheetSlugs) : bool :=
  negb (String.eqb (ss_Transactions s) (ss_Wallets s)) && negb (String.eqb (ss_Transactions s) (ss_Categories s))
  && negb (String.eqb (ss_Wallets s) (ss_Categories s)).
Definition key_ref_ok (db : DB) (l : Link) : bool :=
  N.eqb (lk_CreatedByKeyID l) uuid_Nil || bool_decide (lk_CreatedByKeyID l ∈ db_keys db).
(** The conflict branch of [SaveLink]: [last_synced_at], the author and the creation stay. *)
Definition relink (l old : Link) : Link :=
  mkLink (lk_ID old) (lk_OrgID old) (lk_ProjectID old) (lk_OSOrg l) (lk_OSProject l) (lk_APIKeySealed l)
    (lk_APIKeyHint l) (lk_Sheets l) (lk_Enabled l) (lk_VerifiedAt l) (lk_LastError l) (lk_LastSyncedAt old)
    (lk_FailureStreak l) (lk_AutoDisabledAt l) (lk_CreatedBy old) (lk_CreatedByKeyID old) (lk_CreatedAt old)
    (lk_UpdatedAt l).
Definition link_upsert (l : Link) : SheetStmt nat := fun db s =>
  if String.eqb (lk_APIKeySealed l) "" then inl (CONSTRAINT_CHECK, "CHECK constraint failed: length(api_key_sealed) > 0") else
  if lk_FailureStreak l <? 0 then inl (CONSTRAINT_CHECK, "CHECK constraint failed: failure_streak >= 0") else
  if negb (author_ok l) then inl (CONSTRAINT_CHECK, "CHECK constraint failed: opensheet_links_author_one") else
  if negb (sheets_distinct (lk_Sheets l)) then inl (CONSTRAINT_CHECK, "CHECK constraint failed: opensheet_links_sheets_distinct") else
  match List.find (fun o => N.eqb (lk_ProjectID o) (lk_ProjectID l)) (rows (sd_links s)) with
  | Some old =>
    if N.eqb (lk_OrgID old) (lk_OrgID l)
    then inr (set_links (<[lk_ID old := relink l old]> (sd_links s)) s, 1%nat)
    else inr (s, 0%nat)
  | None =>
    match sd_links s !! lk_ID l with
    | Some _ => inl (CONSTRAINT_PRIMARYKEY, "UNIQUE constraint failed: opensheet_links.id")
    | None =>
      if bool_decide (lk_OrgID l ∈ db_orgs db) && bool_decide (lk_ProjectID l ∈ db_projects db) && key_ref_ok db l
      then inr (set_links (<[lk_ID l := l]> (sd_links s)) s, 1%nat)
      else inl (CONSTRAINT_FOREIGNKEY, "FOREIGN KEY constraint failed")
    end
  end.
(** [DELETE], the state rows by cascade. *)
Definition link_delete (orgID projectID : uuid) : SheetStmt nat := fun _ s =>
  match link_of s orgID projectID with
  | Some l =>
    inr (mkSheetDB (delete (lk_ID l) (sd_links s))
           (filter (fun kr => negb (in_project orgID projectID kr.2) = true) (sd_state s)), 1%nat)
  | None => inr (s, 0%nat)
  end.

Definition set_synced (at_ : Z) (l : Link) : Link :=
  mkLink (lk_ID l) (lk_OrgID l) (lk_ProjectID l) (lk_OSOrg l) (lk_OSProject l) (lk_APIKeySealed l)
    (lk_APIKeyHint l) (lk_Sheets l) (lk_Enabled l) (lk_VerifiedAt l) "" (Some at_) 0 (lk_AutoDisabledAt l)
    (lk_CreatedBy l) (lk_CreatedByKeyID l) (lk_CreatedAt l) (lk_UpdatedAt l).
Definition set_failed (err : string) (l : Link) : Link :=
  mkLink (lk_ID l) (lk_OrgID l) (lk_ProjectID l) (lk_OSOrg l) (lk_OSProject l) (lk_APIKeySealed l)
    (lk_APIKeyHint l) (lk_Sheets l) (lk_Enabled l) (lk_VerifiedAt l) err (lk_LastSyncedAt l) (lk_FailureStreak l + 1)
    (lk_AutoDisabledAt l) (lk_CreatedBy l) (lk_CreatedByKeyID l) (lk_CreatedAt l) (lk_UpdatedAt l).
Definition set_auto_disabled (at_ : Z) (l : Link) : Link :=
  mkLink (lk_ID l) (lk_OrgID l) (lk_ProjectID l) (lk_OSOrg l) (lk_OSProject l) (lk_APIKeySealed l)
    (lk_APIKeyHint l) (lk_Sheets l) false None (lk_LastError l) (lk_LastSyncedAt l) (lk_FailureStreak l)
    (Some at_) (lk_CreatedBy l) (lk_CreatedByKeyID l) (lk_CreatedAt l) (lk_UpdatedAt l).
(** [UPDATE ... WHERE linkWhere AND p ... RETURNING]. *)
Definition update_link (orgID projectID : uuid) (p : Link -> bool) (f : Link -> Link) : SheetStmt (option Link) := fun _ s =>
  match link_of s orgID projectID with
  | Some l =>
    if p l then inr (set_links (<[lk_ID l := f l]> (sd_links s)) s, Some (f l)) else inr (s, None)
  | None => inr (s, None)
  end.

(** ** Order and counts *)

(** [ORDER BY updated_at, entity, entity_id]. *)
Definition oldest_first (a b : SyncRow) : bool :=
  if sr_UpdatedAt a <? sr_UpdatedAt b then true else
  if sr_UpdatedAt b <? sr_UpdatedAt a then false else
  match String.compare (sr_Entity a) (sr_Entity b) with
  | Lt => true | Gt => false | Eq => N.leb (sr_EntityID a) (sr_EntityID b)
  end.
Definition link_first (a b : Link) : bool :=
  (lk_CreatedAt a <? lk_CreatedAt b) || ((lk_CreatedAt a =? lk_CreatedAt b) && N.leb (lk_ID a) (lk_ID b)).
Definition dirty_refs (orgID projectID : uuid) (cutoff at_ : Z) (limit : nat) (s : SheetDB) : list Ref :=
  map (fun r => st_Ref (toState r))
    (firstn limit (sort_by oldest_first
      (List.filter (fun r => in_project orgID projectID r && (sr_UpdatedAt r <? cutoff) && claimable at_ r) (state_rows s)))).
Definition backlog_of (orgID projectID : uuid) (s : SheetDB) : Backlog :=
  let dirty := List.filter (fun r => in_project orgID projectID r && row_dirty r) (state_rows s) in
  let count := fun p => Z.of_nat (List.length (List.filter p dirty)) in
  mkBacklog (count (fun r => sr_Attempts r <? MaxRowAttempts))
    (count (fun r => (0 <? sr_Attempts r) && (sr_Attempts r <? MaxRowAttempts)))
    (count (fun r => MaxRowAttempts <=? sr_Attempts r)).

(** ** Deadlines *)

(** When the contexts of the mirror's calls run out. *)
Class Deadlines := {
  call_cut : nat -> option bool;      (** a call ends with its context: [true] for [DeadlineExceeded], [false] for [Canceled] *)
  submit_headroom : nat -> bool;      (** [hasHeadroom] of a caller with a deadline *)
  row_headroom : nat -> bool          (** [rowBudget] *)
}.

(** ** The store *)
Section SheetStore.
Context `{Env, Deadlines}.

(** A call of the driver, which its context may cut. *)
Definition sheet_call : M unit :=
  driver_call ;;;
  let* n := tick in
  match call_cut n with Some deadline => st_err (EContext deadline) | None => st_ret tt end.

Definition exec_sheet {A} (stmt : SheetStmt A) : M A :=
  sheet_call ;;;
  let* db := get_db in
  let* s := get_sheet in
  match stmt db s with
  | inl (code, msg) => st_err (ESqlite code msg)
  | inr (s', a) => put_sheet s' ;;; st_ret a
  end.
Definition query_sheet {A} (q : SheetDB -> A) : M A := sheet_call ;;; let* s := get_sheet in st_ret (q s).

(** [txAcquire] and [endTx]. *)
Definition sheet_tx {A} (cx : Ctx) (body : M A) : M A :=
  if cx_tx cx then body
  else in_tx (fun e => e) "opensheetsync.sqlite: begin" "opensheetsync.sqlite: commit" body.

Definition store_SaveLink (cx : Ctx) (l : Link) : M unit :=
  sheet_tx cx (
    let* n := st_maperr (EWrap "opensheetsync.sqlite.SaveLink") (exec_sheet (link_upsert l)) in
    if Nat.eqb n 0 then st_err (ESheet (LinkNotFoundError (uuid_String (lk_ProjectID l)))) else st_ret tt).

Definition store_LinkByProject (cx : Ctx) (orgID projectID : uuid) : M Link :=
  sheet_tx cx (
    let* l := st_maperr (EWrap "opensheetsync.sqlite.LinkByProject") (query_sheet (fun s => link_of s orgID projectID)) in
    match l with
    | None => st_err (ESheet (LinkNotFoundError (uuid_String projectID)))
    | Some l => st_ret l
    end).

Definition store_LinkEnabled (cx : Ctx) (orgID projectID : uuid) : M bool :=
  sheet_tx cx (
    let* l := st_maperr (EWrap "opensheetsync.sqlite.LinkEnabled") (query_sheet (fun s => link_of s orgID projectID)) in
    st_ret (match l with Some l => lk_Enabled l | None => false end)).

Definition store_ListEnabledLinks (cx : Ctx) (orgID : uuid) : M (list Link) :=
  sheet_tx cx (st_maperr (EWrap "opensheetsync.sqlite.ListEnabledLinks") (query_sheet (fun s =>
    sort_by link_first (List.filter (fun l => N.eqb (lk_OrgID l) orgID && lk_Enabled l) (rows (sd_links s)))))).

Definition store_DeleteLink (cx : Ctx) (orgID projectID : uuid) : M unit :=
  sheet_tx cx (
    let* n := st_maperr (EWrap "opensheetsync.sqlite.DeleteLink") (exec_sheet (link_delete orgID projectID)) in
    if Nat.eqb n 0 then st_err (ESheet (LinkNotFoundError (uuid_String projectID))) else st_ret tt).

(** A link re-saved since the job loaded it is left alone. *)
Definition as_loaded (o : SyncOutcome) (l : Link) : bool := lk_UpdatedAt l =? oc_LinkUpdatedAt o.
Definition store_SaveOutcome (cx : Ctx) (orgID projectID : uuid) (o : SyncOutcome) : M bool :=
  sheet_tx cx (
    if String.eqb (oc_Err o) "" then
      st_maperr (EWrap "opensheetsync.sqlite.SaveOutcome")
        (exec_sheet (update_link orgID projectID (as_loaded o) (set_synced (oc_At o)))) ;;;
      st_ret false
    else
      let* row := st_maperr (EWrap "opensheetsync.sqlite.SaveOutcome")
        (exec_sheet (update_link orgID projectID (as_loaded o) (set_failed (oc_Err o)))) in
      match row with
      | None => st_ret false
      | Some l =>
        if lk_FailureStreak l <? DisableAfter then st_ret false else
        let* row := st_maperr (EWrap "opensheetsync.sqlite.SaveOutcome: disable")
          (exec_sheet (update_link orgID projectID (fun l => as_loaded o l && lk_Enabled l) (set_auto_disabled (oc_At o)))) in
        st_ret (match row with Some _ => true | None => false end)
      end).

Definition mark_loop (orgID projectID : uuid) (ts : Z) : list Ref -> M unit :=
  fix go refs :=
    match refs with
    | [] => st_ret tt
    | r :: rest =>
      st_maperr (EWrap "opensheetsync.sqlite.Mark") (exec_sheet (mark_one orgID projectID ts r)) ;;; go rest
    end.
Definition store_Mark (cx : Ctx) (orgID projectID : uuid) (refs : list Ref) (at_ : Z) : M unit :=
  sheet_tx cx (mark_loop orgID projectID at_ (LockOrder refs)).

Definition store_MarkReferencing (cx : Ctx) (orgID projectID : uuid) (ref : Ref) (at_ : Z) : M Z :=
  match names_ref ref with
  | None => st_ret 0
  | Some names =>
    sheet_tx cx (st_maperr (EWrap "opensheetsync.sqlite.MarkReferencing")
      (exec_sheet (markSelect orgID projectID EntityTransaction at_ (referencing orgID projectID names))))
  end.

Definition mark_sources : list Entity := [EntityTransaction; EntityCategory; EntityWallet].
Definition mark_all_loop (orgID projectID : uuid) (ts : Z) : list Entity -> Z -> M Z :=
  fix go sources total :=
    match sources with
    | [] => st_ret total
    | e :: rest =>
      let* n := st_maperr (EWrap "opensheetsync.sqlite.MarkAll")
        (exec_sheet (markSelect orgID projectID e ts (entity_ids orgID projectID e))) in
      let* gone := st_maperr (EWrap "opensheetsync.sqlite.MarkAll: gone")
        (exec_sheet (markGone orgID projectID e ts)) in
      go rest (total + (n + gone))
    end.
Definition store_MarkAll (cx : Ctx) (orgID projectID : uuid) (at_ : Z) : M Z :=
  sheet_tx cx (mark_all_loop orgID projectID at_ mark_sources 0).

Definition store_Claim (cx : Ctx) (orgID projectID : uuid) (ref : Ref) (token : uuid) (at_ ttl : Z) : M (option State) :=
  sheet_tx cx (
    let* row := st_maperr (EWrap "opensheetsync.sqlite.Claim")
      (exec_sheet (update_row orgID projectID ref (claimable at_) (set_claim token (at_ + ttl)))) in
    st_ret (option_map toState row)).

(** [settled], and whether a newer version waits. *)
Definition store_Settle (cx : Ctx) (orgID projectID : uuid) (ref : Ref) (version : Z) (token : uuid) : M (bool * bool) :=
  sheet_tx cx (
    let* row := st_maperr (EWrap "opensheetsync.sqlite.Settle")
      (exec_sheet (update_row orgID projectID ref (holds_lease token) (set_settled version))) in
    st_ret (match row with None => (false, false) | Some r => (true, version <? sr_Version r) end)).

Definition store_Release (cx : Ctx) (orgID projectID : uuid) (ref : Ref) (token : uuid) (f : Failure) : M unit :=
  sheet_tx cx (
    st_maperr (EWrap "opensheetsync.sqlite.Release")
      (exec_sheet (update_row orgID projectID ref (holds_lease token) (set_released f))) ;;;
    st_ret tt).

Definition store_ListDirty (cx : Ctx) (orgID projectID : uuid) (cutoff at_ : Z) (limit : nat) : M (list Ref) :=
  sheet_tx cx (st_maperr (EWrap "opensheetsync.sqlite.ListDirty")
    (query_sheet (dirty_refs orgID projectID cutoff at_ limit))).

Definition store_Backlog (cx : Ctx) (orgID projectID : uuid) : M Backlog :=
  sheet_tx cx (st_maperr (EWrap "opensheetsync.sqlite.Backlog") (query_sheet (backlog_of orgID projectID))).
End SheetStore.
