(* ===== verification/SheetMirror.v ===== *)
(** * The mirror ([internal/opensheetsync/mirror.go], [internal/boot/opensheet_yasaku.go])

    Marks inside a write's unit of work, the kick after its commit, the backfill's
    kick, the reconciler's tick, and the port the wallet, category and transaction
    services call ([mirrorPort]) with the proof that it keeps the laws their
    theorems ask of it. *)
From Stdlib Require Import ZArith Lia String List.
From stdpp Require Import base gmap list strings.
From S2P Require Import Prelude GoStrings Errors Tenant Outbox Sheet World SheetStore Commit.
Local Open Scope string_scope.
Local Open Scope Z_scope.

Definition reconcileGrace : Z := Minute.
Definition reconcileEvery : Z := 5 * Minute.
Definition reconcileInlineCap : nat := 2 * maxRefsPerJob.

(** The queue sync jobs are submitted through. *)
Class JobQueue := Submit : Ctx -> SyncV1 -> M unit.
(** Whether jobs go to a queue rather than run inline. *)
Class Queued := queued : bool.

(** [slices.Chunk] into pages of [n]: fuel is the length. *)
Fixpoint chunks_fuel {A} (fuel n : nat) (l : list A) : list (list A) :=
  match fuel, l with
  | S fuel, _ :: _ => firstn n l :: chunks_fuel fuel n (skipn n l)
  | _, _ => []
  end.
Definition Chunk {A} (n : nat) (l : list A) : list (list A) := chunks_fuel (List.length l) n l.

(** Each tick starts one link later; [None] is a slice out of range, which a
    clock before 1970 would ask for. *)
Definition rotate (links : list Link) (now : Z) : option (list Link) :=
  if (List.length links <? 2)%nat then Some links else
  let k := Z.rem (Z.quot (now / Second) (reconcileEvery / Second)) (Z.of_nat (List.length links)) in
  if k <? 0 then None else
  Some (skipn (Z.to_nat k) links ++ firstn (Z.to_nat k) links)%list.

Section Mirror.
Context `{Env, Deadlines, JobQueue, Queued}.

(** A caller detached from its deadline always has headroom. *)
Definition hasHeadroom (detached : bool) : M bool :=
  if detached then st_ret true else let* n := tick in st_ret (submit_headroom n).

Definition submit_chunks (cx : Ctx) (detached : bool) (projectID : uuid) : list (list Ref) -> Z -> M Z :=
  fix go chunks sent :=
    match chunks with
    | [] => st_ret sent
    | chunk :: rest =>
      let* ok := hasHeadroom detached in
      if negb ok then st_ret sent else
      let* r := st_try (Submit cx (payloadOf projectID chunk)) in
      match r with
      | inl _ => go rest sent
      | inr _ => go rest (sent + Z.of_nat (List.length chunk))
      end
    end.
Definition submit (cx : Ctx) (detached : bool) (projectID : uuid) (refs : list Ref) : M Z :=
  submit_chunks cx detached projectID (Chunk maxRefsPerJob refs) 0.

Definition cascade_loop (cx : Ctx) (tc : Tenant) (now : Z) : list Ref -> M unit :=
  fix go refs :=
    match refs with
    | [] => st_ret tt
    | r :: rest =>
      if negb (rf_Cascade r) then go rest else
      let* _ := store_MarkReferencing cx (OrgID tc) (ProjectID tc) r now in go rest
    end.

Definition mirror_Mark (cx : Ctx) (refs : list Ref) : M unit :=
  match refs with
  | [] => st_ret tt
  | _ =>
    let* tc := from_tenant cx in
    let* on := store_LinkEnabled cx (OrgID tc) (ProjectID tc) in
    if negb on then st_ret tt else
    let refs := LockOrder refs in
    let* now := time_Now in
    cascade_loop cx tc now refs ;;;
    store_Mark cx (OrgID tc) (ProjectID tc) refs now
  end.

(** Failures are reported and dropped: a kick never fails its caller. *)
Definition mirror_Kick (cx : Ctx) (refs : list Ref) : M unit :=
  match refs with
  | [] => st_ret tt
  | _ =>
    match From_ cx with
    | inl _ => st_ret tt
    | inr tc =>
      let* on := st_try (store_LinkEnabled cx (OrgID tc) (ProjectID tc)) in
      match on with
      | inl _ => st_ret tt
      | inr false => st_ret tt
      | inr true =>
        let* _ := submit cx true (ProjectID tc) (firstn maxRefsPerJob (LockOrder refs)) in st_ret tt
      end
    end
  end.

Definition KickDirty (cx : Ctx) : M unit :=
  match From_ cx with
  | inl _ => st_ret tt
  | inr tc =>
    let* now := time_Now in
    let* refs := st_try (store_ListDirty cx (OrgID tc) (ProjectID tc) (now + Second) now maxRefsPerJob) in
    match refs with
    | inl _ => st_ret tt
    | inr refs => let* _ := submit cx true (ProjectID tc) refs in st_ret tt
    end
  end.

Definition reconcile_loop (cx : Ctx) (tc : Tenant) : list Link -> Z -> M Z :=
  fix go links sent :=
    match links with
    | [] => st_ret sent
    | l :: rest =>
      let* ok := hasHeadroom false in
      if negb ok then st_ret sent else
      let pcx := WithProject cx (lk_ProjectID l) in
      let* now := time_Now in
      let limit := if queued then maxRefsPerJob else reconcileInlineCap in
      let* refs := st_try (store_ListDirty pcx (OrgID tc) (lk_ProjectID l) (now - reconcileGrace) now limit) in
      match refs with
      | inl _ => go rest sent
      | inr refs => let* n := submit pcx false (lk_ProjectID l) refs in go rest (sent + n)
      end
    end.
Definition Reconcile (cx : Ctx) : M Z :=
  let* tc := from_tenant cx in
  let* r := st_try (store_ListEnabledLinks cx (OrgID tc)) in
  match r with
  | inl e => unexpected "opensheetsync.Reconcile: links" e
  | inr links =>
    let* now := time_Now in
    match rotate links now with
    | None => st_panic "slice bounds out of range"
    | Some links => reconcile_loop cx tc links 0
    end
  end.

(** ** The services' port *)
Definition mirror_ref (r : MirrorRef) : Ref := mkRef (mr_Entity r) (mr_ID r) (mr_Deleted r) (mr_Cascade r).
Definition mirrorPort : Mirror := {|
  Mark := fun cx refs => mirror_Mark cx (map mirror_ref refs);
  Kick := fun cx refs w => snd (mirror_Kick cx (map mirror_ref refs) w)
|}.
End Mirror.
