(* ===== verification/SheetSync.v ===== *)
(** * The sync job ([internal/opensheetsync/sync.go], [classify.go], [consumer.go], [opensheet/*.go])

    A job leases each dirty row it names, pushes the row's current state to its
    sheet and settles the version it pushed; opensheet's answers are sorted into
    refusals of the link, refusals of the row and failures worth a retry. *)
From Stdlib Require Import ZArith Lia String Ascii List.
From stdpp Require Import base gmap list strings.
From S2P Require Import Prelude GoStrings Errors Sealer Civil Money Tenant Outbox Sheet World SheetStore SheetMirror.
Local Open Scope string_scope.
Local Open Scope Z_scope.

(** ** Sheet rows ([internal/opensheetsync/facts.go], [mapper.go], [source.go]

    A transaction, wallet or category as the sheet shows it, the columns it maps
    to, and the port the sync reads them through. *)
(** [uuid.Nil] marks an absent reference. *)
Record TransactionFacts := mkTransactionFacts {
  tf_ID : uuid;
  tf_Kind : string;
  tf_Amount : Amount;
  tf_OccurredAt : Z;
  tf_Location : option Location;
  tf_WalletID : uuid;
  tf_WalletName : string;
  tf_ToWalletID : uuid;
  tf_ToWalletName : string;
  tf_CategoryID : uuid;
  tf_CategoryName : string;
  tf_PeriodName : string;
  tf_Note : string;
  tf_RecurringID : uuid;
  tf_UpdatedAt : Z
}.
Record WalletFacts := mkWalletFacts {
  wf_ID : uuid;
  wf_Name : string;
  wf_Kind : string;
  wf_Provider : string;
  wf_Balance : Amount;
  wf_ExcludeFromTotal : bool;
  wf_Archived : bool;
  wf_UpdatedAt : Z
}.
Record CategoryFacts := mkCategoryFacts {
  cf_ID : uuid;
  cf_Name : string;
  cf_Kind : string;
  cf_Icon : string;
  cf_Color : string;
  cf_Archived : bool;
  cf_UpdatedAt : Z
}.

Definition idText (id : uuid) : string := if N.eqb id uuid_Nil then "" else uuid_String id.
Definition instantText (t : Z) : string := rfc3339 t UTC.
Definition FormatBool (b : bool) : string := if b then "true" else "false".

(** The columns of each row, in the source's order. *)
Definition tx_columns (f : TransactionFacts) : list (string * string) :=
  let loc := match tf_Location f with Some l => l | None => UTC end in
  [("id", uuid_String (tf_ID f));
   ("date", Date_String (DateOf (tf_OccurredAt f) loc));
   ("occurred_at", rfc3339 (tf_OccurredAt f) loc);
   ("kind", tf_Kind f);
   ("amount", Major (tf_Amount f));
   ("currency", AmountCurrency (tf_Amount f));
   ("wallet", tf_WalletName f);
   ("wallet_id", uuid_String (tf_WalletID f));
   ("to_wallet", tf_ToWalletName f);
   ("to_wallet_id", idText (tf_ToWalletID f));
   ("category", tf_CategoryName f);
   ("category_id", idText (tf_CategoryID f));
   ("note", tf_Note f);
   ("period", tf_PeriodName f);
   ("recurring_id", idText (tf_RecurringID f));
   ("updated_at", instantText (tf_UpdatedAt f))].
Definition wallet_columns (f : WalletFacts) : list (string * string) :=
  [("id", uuid_String (wf_ID f));
   ("name", wf_Name f);
   ("kind", wf_Kind f);
   ("provider", wf_Provider f);
   ("currency", AmountCurrency (wf_Balance f));
   ("balance", Major (wf_Balance f));
   ("exclude_from_total", FormatBool (wf_ExcludeFromTotal f));
   ("archived", FormatBool (wf_Archived f));
   ("updated_at", instantText (wf_UpdatedAt f))].
Definition category_columns (f : CategoryFacts) : list (string * string) :=
  [("id", uuid_String (cf_ID f));
   ("name", cf_Name f);
   ("kind", cf_Kind f);
   ("icon", cf_Icon f);
   ("color", cf_Color f);
   ("archived", FormatBool (cf_Archived f));
   ("updated_at", instantText (cf_UpdatedAt f))].
Definition TransactionRow (f : TransactionFacts) : Row := list_to_map (tx_columns f).
Definition WalletRow (f : WalletFacts) : Row := list_to_map (wallet_columns f).
Definition CategoryRow (f : CategoryFacts) : Row := list_to_map (category_columns f).

(** [Source]: a row's current state; [None] once the row is gone. *)
Class Source := {
  src_Transaction : Ctx -> uuid -> M (option TransactionFacts);
  src_Wallet : Ctx -> uuid -> M (option WalletFacts);
  src_Category : Ctx -> uuid -> M (option CategoryFacts)
}.

(** ** The opensheet client ([opensheet/errors.go], [client.go], [write.go]) *)

(** The opensheet server, as it answers after the calls sent so far. *)
Class SheetServer := serve : nat -> list Sent -> SheetCall -> HttpResult.

Definition fromResponse (status : Z) (code message : string) : OpensheetError :=
  if status =? 404 then OSNotFoundError code
  else if status =? 412 then PreconditionFailedError
  else if (status =? 409) && String.eqb code "SHT036" then StaleCursorError
  else if status =? 429 then RateLimitedError
  else if status =? 413 then PayloadTooLargeError
  else if (status =? 400) || (status =? 422) then ValidationError code message
  else APIError status code message.
Definition call_name (c : SheetCall) : string :=
  match c with PatchRow _ _ _ => "PATCH" | CreateRow _ _ _ => "POST" | DeleteRow _ _ => "DELETE" end.
(** The errors of [http.Client.Do] are [url.Error]s; a body that cannot be read or decoded is resty's own. *)
Definition transport_error (t : Transport) : Error :=
  match t with
  | PrivateAddress msg => EURL (EPrivateAddress msg)
  | ContextDone deadline => EURL (EContext deadline)
  | Unreachable msg => EURL (EText msg)
  | BadBody msg => EText msg
  end.
(** [Client.do]: statuses above 399 are errors. *)
Definition do_result (name : string) (r : HttpResult) : option Error :=
  match r with
  | NoAnswer t => Some (EWrap ("opensheet: " ++ name) (transport_error t))
  | Answer status code message => if 399 <? status then Some (EOpensheet (fromResponse status code message)) else None
  end.

(** Where opensheet is: what [url.Parse] and [netip.ParseAddr] say of the base URL. *)
Class Endpoint := {
  ep_url_ok : bool;               (** it has a scheme and a host *)
  ep_private_literal : bool;      (** its host is a literal private or local address *)
  ep_AllowPrivateHosts : bool
}.
(** [Endpoint.client], by [opensheet.New]. *)
Definition endpoint_client `{Endpoint} (osOrg osProject key : string) : option Error :=
  if negb ep_url_ok then Some (EText "opensheet: invalid BaseURL: it needs a scheme and a host") else
  if negb ep_AllowPrivateHosts && ep_private_literal
  then Some (EText "opensheet: BaseURL is a private host; set AllowPrivateHosts to allow it") else
  if String.eqb osOrg "" || String.eqb osProject "" then Some (EText "opensheet: Org and Project are required") else None.

Definition keyAAD (orgID projectID : uuid) : string :=
  "opensheetsync.api_key|" ++ uuid_String orgID ++ "|" ++ uuid_String projectID.
Definition openKey `{Sealer} (l : Link) : Error + string :=
  match Open (lk_APIKeySealed l) (keyAAD (lk_OrgID l) (lk_ProjectID l)) with
  | inl e => inl (EWrap "opensheetsync.openKey" e)
  | inr plain => inr plain
  end.

(** ** Classification ([classify.go]) *)

(** [errors.AsType]: the first hop of the chain that matches. *)
Fixpoint first_hop {A} (f : Error -> option A) (l : list Error) : option A :=
  match l with
  | [] => None
  | e :: rest => match f e with Some a => Some a | None => first_hop f rest end
  end.
Definition AsType {A} (f : Error -> option A) (e : Error) : option A := first_hop f (chain e).
Definition as_not_found : Error -> option string :=
  AsType (fun e => match e with EOpensheet (OSNotFoundError c) => Some c | _ => None end).
Definition as_api : Error -> option (Z * string * string) :=
  AsType (fun e => match e with EOpensheet (APIError s c m) => Some (s, c, m) | _ => None end).
Definition as_validation : Error -> option (string * string) :=
  AsType (fun e => match e with EOpensheet (ValidationError c m) => Some (c, m) | _ => None end).
Definition os_is (p : OpensheetError -> bool) : Error -> bool :=
  chain_is (fun e => match e with EOpensheet x => p x | _ => false end).
Definition IsValidation : Error -> bool := os_is (fun x => match x with ValidationError _ _ => true | _ => false end).
Definition IsPreconditionFailed : Error -> bool := os_is (fun x => match x with PreconditionFailedError => true | _ => false end).
Definition IsPayloadTooLarge : Error -> bool := os_is (fun x => match x with PayloadTooLargeError => true | _ => false end).
Definition IsRateLimited : Error -> bool := os_is (fun x => match x with RateLimitedError => true | _ => false end).
Definition IsPrivateAddress : Error -> bool := chain_is (fun e => match e with EPrivateAddress _ => true | _ => false end).
Definition IsURL : Error -> bool := chain_is (fun e => match e with EURL _ => true | _ => false end).

Definition RowMissing (code : string) : bool := String.eqb code "SHT013".
Definition rowMissing (e : Error) : bool := match as_not_found e with Some c => RowMissing c | None => false end.
Definition rowTaken (e : Error) : bool :=
  match as_api e with
  | Some (status, code, _) => (status =? 409) && String.eqb code "SHT012"
  | None => match as_validation e with Some (code, _) => String.eqb code "SHT018" | None => false end
  end.
Definition linkLevel (code : string) : bool :=
  existsb (String.eqb code) ["SHT010"; "SHT011"; "SHT014"; "SHT021"; "SHT023"; "SHT029"].
Definition codeOf (e : Error) : string :=
  match as_not_found e with
  | Some c => c
  | None =>
    match as_validation e with
    | Some (c, _) => c
    | None => match as_api e with Some (_, c, _) => c | None => "" end
    end
  end.
Definition transient (status : Z) (code : string) : bool :=
  (500 <=? status) || ((status =? 409) && String.eqb code "SHT017").
Definition refusal (sheet : string) (e : Error) : Error :=
  let retry := EWrap ("opensheetsync: sheet " ++ sheet) e in
  if IsPrivateAddress e then ESyncRefused "" "config" (EPrivateEndpoint e) else
  let code := codeOf e in
  if match as_not_found e with Some c => negb (RowMissing c) | None => false end then ESyncRefused sheet code e else
  if linkLevel code then ESyncRefused sheet code e else
  if IsValidation e || IsPreconditionFailed e || IsPayloadTooLarge e then ERowRefused sheet code e else
  match as_api e with
  | None => retry
  | Some (status, acode, _) =>
    if transient status acode then retry else
    if (status =? 401) || (status =? 403) || (status =? 424) then ESyncRefused sheet code e else
    if 400 <=? status then ERowRefused sheet code e else retry
  end.

(** *** The texts a link or a row keeps *)
Definition opensheetMessage (e : Error) : string :=
  match as_api e with
  | Some (_, _, m) => m
  | None => match as_validation e with Some (_, m) => m | None => "" end
  end.
Definition typedText (msg code : string) (cause : Error) : string :=
  let detail := opensheetMessage cause in
  if negb (String.eqb detail "") && negb (String.eqb detail code)
  then msg ++ ": " ++ TrimSpace (code ++ " " ++ detail)
  else if String.eqb code "" then msg else msg ++ " (" ++ code ++ ")".
Definition app_text (a : AppError) : string := app_message a ++ " (" ++ app_code a ++ ")".
Definition as_key_unreadable : Error -> option unit :=
  AsType (fun e => match e with EKeyUnreadable _ => Some tt | _ => None end).
Definition as_private_endpoint : Error -> option unit :=
  AsType (fun e => match e with EPrivateEndpoint _ => Some tt | _ => None end).
Definition as_sync_refused : Error -> option (string * string * Error) :=
  AsType (fun e => match e with ESyncRefused s c x => Some (s, c, x) | _ => None end).
Definition as_row_refused : Error -> option (string * string * Error) :=
  AsType (fun e => match e with ERowRefused s c x => Some (s, c, x) | _ => None end).
Definition refusalText (e : Error) : string :=
  match as_key_unreadable e with
  | Some _ => app_text key_unreadable_app
  | None =>
    match as_private_endpoint e with
    | Some _ => app_text private_endpoint_app
    | None =>
      match as_sync_refused e with
      | None => "opensheet refused the sync"
      | Some (sheet, code, cause) =>
        if String.eqb sheet "" then "opensheet refused the sync (" ++ code ++ ")"
        else typedText (app_message (sync_refused_app sheet)) code cause
      end
    end
  end.
Definition retried : string := "; the row is retried".
Definition failureText (e : Error) : string :=
  if IsSyncRefused e then refusalText e else
  match as_row_refused e with
  | Some (sheet, code, cause) => typedText (app_message (row_refused_app sheet)) code cause
  | None =>
    if IsContextDone e then
      "the sync ran out of time (" ++ (if IsDeadlineExceeded e then "context deadline exceeded" else "context canceled")
        ++ ")" ++ retried
    else if IsRateLimited e then "opensheet rate limited the sync" ++ retried
    else match as_api e with
         | Some (_, code, _) => "opensheet failed (" ++ code ++ ")" ++ retried
         | None => if IsURL e then "opensheet could not be reached" ++ retried else "the sync failed" ++ retried
         end
  end.

(** ** The syncer *)
Definition leaseTTL : Z := Minute.
Definition maxPasses : nat := 3.
Definition maxErrorLen : nat := 512.
Definition truncate (s : string) : string :=
  if (String.length s <=? maxErrorLen)%nat then s else String.substring 0 maxErrorLen s.

(** [Syncer.fail]: a context that ran out is returned for a retry, anything else is reported. *)
Definition fail_ (op : string) (e : Error) : Error := if IsContextDone e then e else EUnexpected op e.

Section Syncer.
Context `{Env, Deadlines, JobQueue, Queued, SheetServer, Endpoint, Sealer, Source}.

(** A call of the opensheet client. *)
Definition client_call (c : SheetCall) : M unit :=
  let* n := tick in
  let* h := get_sent in
  let r := serve n h c in
  send (Called c r) ;;;
  match do_result (call_name c) r with Some e => st_err e | None => st_ret tt end.

Definition upsert (sheet id : string) (version : Z) (row : Row) : M unit :=
  let patch := delete "id" row in
  let* r := st_try (client_call (PatchRow sheet id patch)) in
  match r with
  | inr _ => st_ret tt
  | inl e =>
    if negb (rowMissing e) then st_err (refusal sheet e) else
    let* r := st_try (client_call (CreateRow sheet row (id ++ ":" ++ FormatInt version))) in
    match r with
    | inr _ => st_ret tt
    | inl e =>
      if negb (rowTaken e) then st_err (refusal sheet e) else
      let* r := st_try (client_call (PatchRow sheet id patch)) in
      match r with
      | inr _ => st_ret tt
      | inl e => if rowMissing e then st_ret tt else st_err (refusal sheet e)
      end
    end
  end.
Definition remove (sheet id : string) : M unit :=
  let* r := st_try (client_call (DeleteRow sheet id)) in
  match r with
  | inr _ => st_ret tt
  | inl e => if rowMissing e then st_ret tt else st_err (refusal sheet e)
  end.

Definition rowOf (cx : Ctx) (ref : Ref) : M (option Row) :=
  let* r :=
    st_try (if String.eqb (rf_Entity ref) EntityTransaction
            then let* f := src_Transaction cx (rf_ID ref) in st_ret (option_map TransactionRow f)
            else if String.eqb (rf_Entity ref) EntityWallet
            then let* f := src_Wallet cx (rf_ID ref) in st_ret (option_map WalletRow f)
            else let* f := src_Category cx (rf_ID ref) in st_ret (option_map CategoryRow f)) in
  match r with
  | inl e => if is_app e then st_err e else st_err (fail_ "opensheetsync.Sync: source" e)
  | inr row => st_ret row
  end.

Definition push (cx : Ctx) (l : Link) (st : State) : M unit :=
  let ref := st_Ref st in
  let sheet := For (lk_Sheets l) (rf_Entity ref) in
  let id := uuid_String (rf_ID ref) in
  if rf_Deleted ref then remove sheet id else
  if negb (existsb (String.eqb (rf_Entity ref)) entities)
  then st_err (EText ("opensheetsync: sync: unknown entity " ++ quoted (rf_Entity ref))) else
  let* row := rowOf cx ref in
  match row with
  | None => remove sheet id
  | Some row => upsert sheet id (st_Version st) row
  end.

(** The failure [release] records: a refused row spends an attempt and backs off. *)
Definition failure_of (st : State) (cause : Error) (now : Z) : Failure :=
  let reason := truncate (failureText cause) in
  if IsRowRefused cause
  then mkFailure reason now true (Some (now + RowBackoff (st_Attempts st + 1))) (st_Version st)
  else mkFailure reason now false None (st_Version st).
Definition release (cx : Ctx) (l : Link) (st : State) (token : uuid) (cause : Error) : M unit :=
  let* now := time_Now in
  let* _ := st_try (E' := Error)
    (store_Release cx (lk_OrgID l) (lk_ProjectID l) (st_Ref st) token (failure_of st cause now)) in
  st_ret tt.

(** A mark during the push leaves the row dirty, so the holder pushes again, at
    most [maxPasses] times. The count of settled pushes comes with the error. *)
Fixpoint row_passes (passes : nat) (cx : Ctx) (l : Link) (ref : Ref) (pushed : Z) : M (Z * option Error) :=
  match passes with
  | O => st_ret (pushed, None)
  | S passes =>
    let* token := NewV7 in
    let* now := time_Now in
    let* c := st_try (store_Claim cx (lk_OrgID l) (lk_ProjectID l) ref token now leaseTTL) in
    match c with
    | inl e => st_ret (pushed, Some (fail_ "opensheetsync.Sync: claim" e))
    | inr None => st_ret (pushed, None)
    | inr (Some st) =>
      let* p := st_try (push cx l st) in
      match p with
      | inl e => release cx l st token e ;;; st_ret (pushed, Some e)
      | inr _ =>
        let* s := st_try (store_Settle cx (lk_OrgID l) (lk_ProjectID l) ref (st_Version st) token) in
        match s with
        | inl e => st_ret (pushed, Some (fail_ "opensheetsync.Sync: settle" e))
        | inr (settled, dirty) =>
          let pushed := if settled then pushed + 1 else pushed in
          if negb settled || negb dirty then st_ret (pushed, None) else row_passes passes cx l ref pushed
        end
      end
    end
  end.
Definition syncRow (cx : Ctx) (l : Link) (ref : Ref) : M (Z * option Error) := row_passes maxPasses cx l ref 0.

(** [outcome]: the link's result, whose own failure is only reported. *)
Definition save_outcome (cx : Ctx) (l : Link) (msg : string) : M unit :=
  let* now := time_Now in
  let* _ := st_try (E' := Error) (store_SaveOutcome cx (lk_OrgID l) (lk_ProjectID l)
    (mkSyncOutcome now (truncate msg) (lk_UpdatedAt l))) in
  st_ret tt.
Definition refuse (cx : Ctx) (l : Link) (e : Error) : M unit := save_outcome cx l (refusalText e) ;;; st_err e.

Definition followUp (cx : Ctx) (l : Link) : M unit :=
  let* now := time_Now in
  let* r := st_try (store_ListDirty cx (lk_OrgID l) (lk_ProjectID l) (now + Second) now maxRefsPerJob) in
  match r with
  | inl _ => st_ret tt
  | inr [] => st_ret tt
  | inr refs => let* _ := st_try (E' := Error) (Submit cx (payloadOf (lk_ProjectID l) refs)) in st_ret tt
  end.

(** The rows of one job: how many pushes settled, how many rows were tried, and
    the error that ended it. *)
Definition sync_loop (cx : Ctx) (l : Link) : list Ref -> Z -> nat -> M (Z * nat * option Error) :=
  fix go refs pushed tried :=
    match refs with
    | [] => st_ret (pushed, tried, None)
    | r :: rest =>
      let* n := tick in
      if negb (row_headroom n) then st_ret (pushed, tried, None) else
      let* out := syncRow cx l r in
      let pushed := pushed + fst out in
      match snd out with
      | None => go rest pushed (S tried)
      | Some e => if IsRowRefused e then go rest pushed (S tried) else st_ret (pushed, S tried, Some e)
      end
    end.

Definition sync_rows (cx : Ctx) (l : Link) (refs : list Ref) : M unit :=
  let refs := Dedupe refs in
  let* out := sync_loop cx l refs 0 0%nat in
  let ' (pushed, tried, stop) := out in
  match stop with
  | Some e => if IsSyncRefused e then refuse cx l e else st_err e
  | None =>
    (if 0 <? pushed then save_outcome cx l "" else st_ret tt) ;;;
    if queued && (maxRefsPerJob <=? List.length refs)%nat && (tried =? List.length refs)%nat && (0 <? pushed)
    then followUp cx l else st_ret tt
  end.

Definition Sync (cx : Ctx) (projectID : uuid) (refs : list Ref) : M unit :=
  match From_ cx with
  | inl _ => st_err (ESheet (ScopeMismatchError (uuid_String projectID) ""))
  | inr tc =>
    if negb (N.eqb (ProjectID tc) projectID)
    then st_err (ESheet (ScopeMismatchError (uuid_String projectID) (uuid_String (ProjectID tc)))) else
    let* r := st_try (store_LinkByProject cx (OrgID tc) (ProjectID tc)) in
    match r with
    | inl e => if IsLinkNotFound e then st_ret tt else st_err (fail_ "opensheetsync.Sync: link" e)
    | inr l =>
      if negb (lk_Enabled l) then st_ret tt else
      match openKey l with
      | inl e => refuse cx l (ESyncRefused "" "key" (EKeyUnreadable e))
      | inr key =>
        match endpoint_client (lk_OSOrg l) (lk_OSProject l) key with
        | Some e => refuse cx l (ESyncRefused "" "config" e)
        | None => sync_rows cx l refs
        end
      end
    end
  end.

(** ** The consumer ([consumer.go]): a permanent failure is dead-lettered, any other redelivered. *)
Inductive Verdict := Handled | Permanent (e : Error) | Retry (e : Error).
Definition handle (cx : Ctx) (p : SyncV1) : M Verdict :=
  match payload_refs p with
  | inl e => st_ret (Permanent e)
  | inr refs =>
    let* r := st_try (Sync cx (v1_ProjectID p) refs) in
    match r with
    | inr _ => st_ret Handled
    | inl e => if IsSyncRefused e || IsScopeMismatch e then st_ret (Permanent e) else st_ret (Retry e)
    end
  end.
End Syncer.
