(* ===== verification/WalletService.v ===== *)
(** * The wallets table, store, service and open workflow
    ([internal/wallet/sqlite.go], [service.go], [open.go]) *)
From Stdlib Require Import ZArith Lia String List.
From stdpp Require Import base gmap list strings.
From S2P Require Import Prelude GoStrings Errors Civil Money Tenant Ledger Period Wallet Category Transaction World Commit.
Local Open Scope string_scope.

(** ** The table *)
Definition wallet_check (w : Wallet) : option string :=
  if negb (WalletKind_Valid (w_Kind w)) then Some "CHECK constraint failed: kind" else
  if negb (RuneCountInString (w_Currency w) =? 3)%Z then Some "CHECK constraint failed: length(currency) = 3"
  else None.

(** The partial unique index on [(project_id, lower(name))] of the active wallets. *)
Definition wallet_name_conflict (db : DB) (w : Wallet) : bool :=
  negb (Wallet_IsArchived w) &&
  existsb (fun q => negb (N.eqb (w_ID q) (w_ID w)) && N.eqb (w_ProjectID q) (w_ProjectID w)
      && negb (Wallet_IsArchived q) && String.eqb (sqlite_lower (w_Name q)) (sqlite_lower (w_Name w)))
    (rows (db_wallets db)).

Definition UNIQUE_wallet : SqliteCode * string :=
  (CONSTRAINT_UNIQUE, "UNIQUE constraint failed: index 'wallets_project_name_active'").
Definition FK_wallet : SqliteCode * string := (CONSTRAINT_FOREIGNKEY, "FOREIGN KEY constraint failed").

(** The row an upsert leaves: the conflict clause keeps id, scope and creation time. *)
Definition updated_wallet (old w : Wallet) : Wallet :=
  mkWallet (w_ID old) (w_OrgID old) (w_ProjectID old) (w_Name w) (w_Kind w) (w_Provider w) (w_Currency w)
    (w_ExcludeFromTotal w) (w_ArchivedAt w) (w_CreatedAt old) (w_UpdatedAt w).

Definition wallet_upsert (tc : Tenant) (w : Wallet) : Statement := fun db =>
  match wallet_check w with
  | Some msg => inl (CONSTRAINT_CHECK, msg)
  | None =>
    match db_wallets db !! w_ID w with
    | Some old =>
      if N.eqb (w_OrgID old) (OrgID tc) && N.eqb (w_ProjectID old) (ProjectID tc) then
        let row := updated_wallet old w in
        if wallet_name_conflict db row then inl UNIQUE_wallet
        else inr (set_wallets (<[w_ID w := row]> (db_wallets db)) db, 1%nat)
      else inr (db, 0%nat)
    | None =>
      if wallet_name_conflict db w then inl UNIQUE_wallet else
      if bool_decide (w_OrgID w ∈ db_orgs db) && bool_decide (w_ProjectID w ∈ db_projects db)
      then inr (set_wallets (<[w_ID w := w]> (db_wallets db)) db, 1%nat)
      else inl FK_wallet
    end
  end.

(** A transaction names the wallet, as source or destination. *)
Definition wallet_referenced (db : DB) (id orgID : uuid) : bool :=
  existsb (fun t => N.eqb (t_OrgID t) orgID
      && (N.eqb (t_WalletID t) id || match t_ToWalletID t with Some to => N.eqb to id | None => false end))
    (rows (db_txs db)).

Definition wallet_delete (tc : Tenant) (id : uuid) : Statement := fun db =>
  match db_wallets db !! id with
  | Some w =>
    if N.eqb (w_OrgID w) (OrgID tc) && N.eqb (w_ProjectID w) (ProjectID tc) then
      if wallet_referenced db id (w_OrgID w) then inl (CONSTRAINT_TRIGGER, "FOREIGN KEY constraint failed")
      else inr (set_wallets (delete id (db_wallets db)) db, 1%nat)
    else inr (db, 0%nat)
  | None => inr (db, 0%nat)
  end.

(** [translateSQLiteSaveError] and [translateSQLiteDeleteError]. *)
Definition wallet_save_error (name : string) (e : Error) : option Error :=
  match e with
  | ESqlite CONSTRAINT_UNIQUE _ | ESqlite CONSTRAINT_PRIMARYKEY _ => Some (EWallet (WalletAlreadyExistsError name))
  | _ => None
  end.
Definition wallet_delete_error (id : string) (e : Error) : option Error :=
  match e with
  | ESqlite CONSTRAINT_FOREIGNKEY _ | ESqlite CONSTRAINT_TRIGGER _ => Some (EWallet (WalletInUseError id))
  | _ => None
  end.

Definition wallet_order (v w : Wallet) : bool :=
  match String.compare (w_Name v) (w_Name w) with
  | Lt => true | Gt => false | Eq => (w_ID v <=? w_ID w)%N
  end.

(** ** The store *)
Section Store.
Context `{Env}.

Definition wallet_Save (cx : Ctx) (w : Wallet) : M unit :=
  write_tx "wallet" cx (fun tc =>
    exec_save "wallet.sqlite.Save" (wallet_save_error (w_Name w))
      (EWallet (WalletNotFoundError (uuid_String (w_ID w)))) (wallet_upsert tc w)).

Definition wallet_store_ByID (cx : Ctx) (id : uuid) : M Wallet :=
  read_tx "wallet" cx (fun tc =>
    let* r := query "wallet.sqlite.ByID" (fun db =>
      match db_wallets db !! id with
      | Some w => if N.eqb (w_OrgID w) (OrgID tc) then Some w else None
      | None => None
      end) in
    match r with Some w => st_ret w | None => st_err (EWallet (WalletNotFoundError (uuid_String id))) end).

Definition wallet_store_List (cx : Ctx) (orgID projectID : uuid) (IncludeArchived : bool) : M (list Wallet) :=
  read_tx "wallet" cx (fun tc =>
    query "wallet.sqlite.List" (fun db =>
      sort_by wallet_order (List.filter
        (fun w => N.eqb (w_OrgID w) orgID && N.eqb (w_OrgID w) (OrgID tc) && N.eqb (w_ProjectID w) projectID
           && (IncludeArchived || negb (Wallet_IsArchived w))) (rows (db_wallets db))))).

Definition wallet_store_Delete (cx : Ctx) (id : uuid) : M unit :=
  write_tx "wallet" cx (fun tc =>
    exec_save "wallet.sqlite.Delete" (wallet_delete_error (uuid_String id))
      (EWallet (WalletNotFoundError (uuid_String id))) (wallet_delete tc id)).
End Store.

(** ** The service *)
Section Service.
Context `{Env, Unicode, Mirror, Uow}.

Definition saveRow (cx : Ctx) (w : Wallet) (op : string) : M unit :=
  let* r := st_try (wallet_Save cx w) in
  match r with
  | inr _ => st_ret tt
  | inl e => if IsWalletAlreadyExists e || IsWalletNotFound e then st_err e else unexpected (op ++ ": save") e
  end.

(** [create] neither marks nor opens a unit of work. *)
Definition wallet_create (cx : Ctx) (p : WalletParams) : M Wallet :=
  let* tc := from_tenant cx in
  match ParseCurrency (wp_Currency p) with
  | inl e => st_err (EMoney e)
  | inr cur =>
    let p := mkWalletParams (wp_Name p) (wp_Kind p) (wp_Provider p) cur (wp_ExcludeFromTotal p) in
    let* id := NewV7 in
    let* now := time_Now in
    match Wallet_New id now (OrgID tc) (ProjectID tc) p with
    | inl e => st_err e
    | inr w => saveRow cx w "wallet.Create" ;;; st_ret w
    end
  end.

Definition wallet_Create (cx : Ctx) (p : WalletParams) : M Wallet :=
  commit_kick cx "wallet.Create" (fun cx =>
    let* w := wallet_create cx p in st_ret (w, [mkMirrorRef MirrorWallet (w_ID w) false false])).

Definition wallet_ByID (cx : Ctx) (id : uuid) : M Wallet :=
  let* tc := from_tenant cx in
  let* r := st_try (wallet_store_ByID cx id) in
  match r with
  | inl e => if IsWalletNotFound e then st_err e else unexpected "wallet.ByID: byID" e
  | inr w =>
    if negb (N.eqb (w_OrgID w) (OrgID tc)) || negb (N.eqb (w_ProjectID w) (ProjectID tc))
    then st_err (EWallet (WalletNotFoundError (uuid_String id))) else st_ret w
  end.

(** [save]: [w] in a unit of work that marks it; [cascade] re-marks the rows that show its name. *)
Definition wallet_save (cx : Ctx) (w : Wallet) (op : string) (cascade : bool) : M unit :=
  commit_kick cx op (fun cx =>
    saveRow cx w op ;;; st_ret (tt, [mkMirrorRef MirrorWallet (w_ID w) false cascade])).

Definition wallet_Update (cx : Ctx) (id : uuid) (kind provider : string) (exclude : bool) : M Wallet :=
  let* w := wallet_ByID cx id in
  let* now := time_Now in
  match Wallet_Update w kind provider exclude now with
  | inl e => st_err (EWallet e)
  | inr w => wallet_save cx w "wallet.Update" false ;;; st_ret w
  end.

Definition wallet_Edit (cx : Ctx) (id : uuid) (name kind provider : string) (exclude : bool) : M Wallet :=
  let* w := wallet_ByID cx id in
  let before := w_Name w in
  let* now := time_Now in
  match Wallet_Edit w name kind provider exclude now with
  | inl e => st_err (EWallet e)
  | inr w => wallet_save cx w "wallet.Edit" (negb (String.eqb (w_Name w) before)) ;;; st_ret w
  end.

Definition wallet_Rename (cx : Ctx) (id : uuid) (name : string) : M Wallet :=
  let* w := wallet_ByID cx id in
  let before := w_Name w in
  let* now := time_Now in
  match Wallet_Rename w name now with
  | inl e => st_err (EWallet e)
  | inr w => wallet_save cx w "wallet.Rename" (negb (String.eqb (w_Name w) before)) ;;; st_ret w
  end.

Definition wallet_Archive (cx : Ctx) (id : uuid) : M Wallet :=
  let* w := wallet_ByID cx id in
  if Wallet_IsArchived w then st_ret w else
  let* now := time_Now in
  let w := Wallet_Archive w now in
  wallet_save cx w "wallet.Archive" false ;;; st_ret w.

Definition wallet_Unarchive (cx : Ctx) (id : uuid) : M Wallet :=
  let* w := wallet_ByID cx id in
  if negb (Wallet_IsArchived w) then st_ret w else
  let* now := time_Now in
  let w := Wallet_Unarchive w now in
  wallet_save cx w "wallet.Unarchive" false ;;; st_ret w.

Definition wallet_Delete (cx : Ctx) (id : uuid) : M unit :=
  wallet_ByID cx id ;;;
  commit_kick cx "wallet.Delete" (fun cx =>
    let* r := st_try (wallet_store_Delete cx id) in
    match r with
    | inl e => if IsWalletInUse e || IsWalletNotFound e then st_err e else unexpected "wallet.Delete: delete" e
    | inr _ => st_ret (tt, [mkMirrorRef MirrorWallet id true false])
    end).

Definition wallet_List (cx : Ctx) (IncludeArchived : bool) : M (list Wallet) :=
  let* tc := from_tenant cx in
  let* r := st_try (wallet_store_List cx (OrgID tc) (ProjectID tc) IncludeArchived) in
  match r with inl e => unexpected "wallet.List: list" e | inr out => st_ret out end.

(** The candidates of [ResolveByName]: the exact names, else those that contain the needle. *)
Definition wallet_candidates (needle : string) (active : list Wallet) : list Wallet :=
  match List.filter (fun w => String.eqb (ToLower (w_Name w)) needle) active with
  | [] => List.filter (fun w => Contains (ToLower (w_Name w)) needle) active
  | exact => exact
  end.

Definition wallet_ResolveByName (cx : Ctx) (q : string) : M Wallet :=
  let q := TrimSpace q in
  let needle := ToLower q in
  if String.eqb needle "" then st_err (EWallet (WalletNotFoundError q)) else
  let* active := wallet_List cx false in
  match wallet_candidates needle active with
  | [] => st_err (EWallet (WalletNotFoundError q))
  | [w] => st_ret w
  | candidates => st_err (EWallet (WalletAmbiguousNameError q
                    (sort_by (fun a b => match String.compare a b with Gt => false | _ => true end)
                       (map w_Name candidates))))
  end.
End Service.

(** ** The open workflow *)
Class OpeningRecorder := {
  RecordOpening_port : Ctx -> uuid -> Amount -> Z -> uuid -> M uuid
}.
Class OpeningDater := { OpeningDate_port : Ctx -> Z -> M OpeningDate }.

Section OpenWorkflow.
Context `{Env, Unicode, Mirror, Uow, OpeningRecorder, OpeningDater}.

Definition has_opening (opening : option Amount) : bool :=
  match opening with None => false | Some a => negb (Amount_IsZero a) end.

Definition open_date (cx : Ctx) (opening : option Amount) (at_ : Z) : M OpeningDate :=
  if has_opening opening then OpeningDate_port cx at_ else st_ret (mkOpeningDate at_ (mkDate 0 0 0) false).

Definition wallet_open (cx : Ctx) (p : WalletParams) (opening : option Amount) (at_ : Z) (by_ : uuid)
    : M (Wallet * OpeningDate * list MirrorRef) :=
  let* created := wallet_create cx p in
  let* dated := open_date cx opening at_ in
  let walletRef := mkMirrorRef MirrorWallet (w_ID created) false false in
  let* refs :=
    match opening with
    | Some a =>
      if Amount_IsZero a then st_ret [walletRef] else
      let* txID := RecordOpening_port cx (w_ID created) a (od_At dated) by_ in
      st_ret [walletRef; mkMirrorRef MirrorTransaction txID false false]
    | None => st_ret [walletRef]
    end in
  let* r := st_try (Mark cx [walletRef]) in
  match r with
  | inl e => unexpected "wallet.Open: mark" e
  | inr _ => st_ret (created, dated, refs)
  end.

(** [Run]. A unit of work always runs its function or fails, so [created] is set when it returns. *)
Definition OpenWorkflow_Run (cx : Ctx) (p : WalletParams) (opening : option Amount) (at_ : Z)
    : M (Wallet * OpeningDate) :=
  let* tc := from_tenant cx in
  let* r := st_try (run_uow (fun e => (e, false)) cx (fun cx =>
    st_maperr (fun e => (e, true)) (wallet_open cx p opening at_ (UserID tc)))) in
  match r with
  | inl (e, true) => st_err e
  | inl (e, false) => unexpected "wallet.Open: unit of work" e
  | inr (created, dated, refs) => kick cx refs ;;; st_ret (created, dated)
  end.

Definition OpenWorkflow_Preview (cx : Ctx) (opening : option Amount) (at_ : Z) : M OpeningDate :=
  from_tenant cx ;;; open_date cx opening at_.
End OpenWorkflow.
