(* ===== verification/CategoryService.v ===== *)
(** * The categories table, store and service
    ([internal/category/sqlite.go], [service.go]) *)
From Stdlib Require Import ZArith Lia String List.
From stdpp Require Import base gmap list strings.
From S2P Require Import Prelude GoStrings Errors Civil Money Tenant Ledger Period Wallet Category Transaction World Commit.
Local Open Scope string_scope.

(** ** The table *)
Definition category_check (c : Category) : option string :=
  if CategoryKind_ok (c_Kind c) then None else Some "CHECK constraint failed: kind IN ('expense','income')".

(** The partial unique index on [(project_id, kind, lower(name))] of the active categories. *)
Definition category_name_conflict (db : DB) (c : Category) : bool :=
  negb (Category_IsArchived c) &&
  existsb (fun q => negb (N.eqb (c_ID q) (c_ID c)) && N.eqb (c_ProjectID q) (c_ProjectID c)
      && String.eqb (c_Kind q) (c_Kind c) && negb (Category_IsArchived q)
      && String.eqb (sqlite_lower (c_Name q)) (sqlite_lower (c_Name c)))
    (rows (db_categories db)).

Definition UNIQUE_category : SqliteCode * string :=
  (CONSTRAINT_UNIQUE, "UNIQUE constraint failed: index 'categories_project_kind_name_active'").
Definition FK_category : SqliteCode * string := (CONSTRAINT_FOREIGNKEY, "FOREIGN KEY constraint failed").

(** The columns [Save] writes, the sort order clamped to 32 bits. *)
Definition category_row (c : Category) : Category :=
  mkCategory (c_ID c) (c_OrgID c) (c_ProjectID c) (c_Name c) (c_Kind c) (c_Icon c) (c_Color c)
    (SortOrder32 (c_SortOrder c)) (c_ArchivedAt c) (c_CreatedAt c) (c_UpdatedAt c).
Definition updated_category (old c : Category) : Category :=
  mkCategory (c_ID old) (c_OrgID old) (c_ProjectID old) (c_Name c) (c_Kind c) (c_Icon c) (c_Color c)
    (SortOrder32 (c_SortOrder c)) (c_ArchivedAt c) (c_CreatedAt old) (c_UpdatedAt c).

Definition category_upsert (tc : Tenant) (c : Category) : Statement := fun db =>
  match category_check c with
  | Some msg => inl (CONSTRAINT_CHECK, msg)
  | None =>
    match db_categories db !! c_ID c with
    | Some old =>
      if N.eqb (c_OrgID old) (OrgID tc) && N.eqb (c_ProjectID old) (ProjectID tc) then
        let row := updated_category old c in
        if category_name_conflict db row then inl UNIQUE_category
        else inr (set_categories (<[c_ID c := row]> (db_categories db)) db, 1%nat)
      else inr (db, 0%nat)
    | None =>
      if category_name_conflict db c then inl UNIQUE_category else
      if bool_decide (c_OrgID c ∈ db_orgs db) && bool_decide (c_ProjectID c ∈ db_projects db)
      then inr (set_categories (<[c_ID c := category_row c]> (db_categories db)) db, 1%nat)
      else inl FK_category
    end
  end.

Definition category_referenced (db : DB) (id orgID : uuid) : bool :=
  existsb (fun t => N.eqb (t_OrgID t) orgID
      && match t_CategoryID t with Some c => N.eqb c id | None => false end)
    (rows (db_txs db)).

Definition category_delete (tc : Tenant) (id : uuid) : Statement := fun db =>
  match db_categories db !! id with
  | Some c =>
    if N.eqb (c_OrgID c) (OrgID tc) && N.eqb (c_ProjectID c) (ProjectID tc) then
      if category_referenced db id (c_OrgID c) then inl (CONSTRAINT_TRIGGER, "FOREIGN KEY constraint failed")
      else inr (set_categories (delete id (db_categories db)) db, 1%nat)
    else inr (db, 0%nat)
  | None => inr (db, 0%nat)
  end.

(** [translateSQLiteError]: [c] is nil for a delete. *)
Definition category_translate (c : option Category) (id : string) (e : Error) : option Error :=
  match e with
  | ESqlite CONSTRAINT_UNIQUE _ | ESqlite CONSTRAINT_PRIMARYKEY _ =>
    Some (ECategory (match c with
                     | Some c => CategoryAlreadyExistsError (c_Name c) (c_Kind c)
                     | None => CategoryAlreadyExistsError "" ""
                     end))
  | ESqlite CONSTRAINT_FOREIGNKEY _ | ESqlite CONSTRAINT_TRIGGER _ => Some (ECategory (CategoryInUseError id))
  | _ => None
  end.

(** By sort order, then name, then id. *)
Definition category_order (b c : Category) : bool :=
  match Z.compare (c_SortOrder b) (c_SortOrder c) with
  | Lt => true | Gt => false
  | Eq => match String.compare (c_Name b) (c_Name c) with
          | Lt => true | Gt => false | Eq => (c_ID b <=? c_ID c)%N
          end
  end.

(** [category.ListOpts]; an empty kind is every kind. *)
Record CatListOpts := mkCatListOpts { cl_Kind : string; cl_IncludeArchived : bool }.

(** ** The store *)
Section Store.
Context `{Env}.

Definition category_Save (cx : Ctx) (c : Category) : M unit :=
  write_tx "category" cx (fun tc =>
    exec_save "category.sqlite.Save" (category_translate (Some c) (uuid_String (c_ID c)))
      (ECategory (CategoryNotFoundError (uuid_String (c_ID c)) "")) (category_upsert tc c)).

Definition category_store_ByID (cx : Ctx) (id : uuid) : M Category :=
  read_tx "category" cx (fun tc =>
    let* r := query "category.sqlite.ByID" (fun db =>
      match db_categories db !! id with
      | Some c => if N.eqb (c_OrgID c) (OrgID tc) then Some c else None
      | None => None
      end) in
    match r with
    | Some c => st_ret c
    | None => st_err (ECategory (CategoryNotFoundError (uuid_String id) ""))
    end).

Definition category_scope (orgID projectID ctxOrgID : uuid) (c : Category) : bool :=
  N.eqb (c_OrgID c) orgID && N.eqb (c_OrgID c) ctxOrgID && N.eqb (c_ProjectID c) projectID.

Definition category_ByIDs (cx : Ctx) (orgID projectID : uuid) (ids : list uuid) : M (gmap uuid Category) :=
  match ids with
  | [] => from_tenant cx ;;; st_ret ∅
  | _ =>
    read_tx "category" cx (fun tc =>
      query "category.sqlite.ByIDs" (fun db =>
        filter (fun ic => category_scope orgID projectID (OrgID tc) (snd ic)
                          && existsb (N.eqb (fst ic)) ids = true) (db_categories db)))
  end.

Definition category_store_List (cx : Ctx) (orgID projectID : uuid) (opts : CatListOpts) : M (list Category) :=
  read_tx "category" cx (fun tc =>
    query "category.sqlite.List" (fun db =>
      sort_by category_order (List.filter
        (fun c => category_scope orgID projectID (OrgID tc) c
           && (String.eqb (cl_Kind opts) "" || String.eqb (c_Kind c) (cl_Kind opts))
           && (cl_IncludeArchived opts || negb (Category_IsArchived c))) (rows (db_categories db))))).

Definition category_store_Delete (cx : Ctx) (id : uuid) : M unit :=
  write_tx "category" cx (fun tc =>
    exec_save "category.sqlite.Delete" (category_translate None (uuid_String id))
      (ECategory (CategoryNotFoundError (uuid_String id) "")) (category_delete tc id)).
End Store.

(** [category.Namer], which may be nil. *)
Class Namer := namer : option (Ctx -> string -> string).

(** ** The service *)
Section Service.
Context `{Env, Unicode, Mirror, Uow, Namer}.

(** The order after every category of the list. *)
Definition next_order (rows : list Category) : Z :=
  fold_left (fun next c => if (next <=? c_SortOrder c)%Z then (c_SortOrder c + 1)%Z else next) rows 0%Z.

Definition nextSortOrder (cx : Ctx) (tc : Tenant) (kind : string) : M Z :=
  let* r := st_try (category_store_List cx (OrgID tc) (ProjectID tc) (mkCatListOpts kind true)) in
  match r with
  | inl e => unexpected "category.Create: list" e
  | inr rows => st_ret (next_order rows)
  end.

Definition category_Create (cx : Ctx) (name kind icon color : string) : M Category :=
  let* tc := from_tenant cx in
  if negb (CategoryKind_ok kind) then st_err (ECategory (CategoryInvalidKindError kind)) else
  let* sortOrder := nextSortOrder cx tc kind in
  let* id := NewV7 in
  let* now := time_Now in
  match Category_New id now (OrgID tc) (ProjectID tc) name kind icon color sortOrder with
  | inl e => st_err (ECategory e)
  | inr c =>
    commit_kick cx "category.Create" (fun cx =>
      let* r := st_try (category_Save cx c) in
      match r with
      | inl e => if IsCategoryAlreadyExists e then st_err e else unexpected "category.Create: save" e
      | inr _ => st_ret (c, [mkMirrorRef MirrorCategory (c_ID c) false false])
      end)
  end.

Definition category_ByID (cx : Ctx) (id : uuid) : M Category :=
  let* tc := from_tenant cx in
  let* r := st_try (category_store_ByID cx id) in
  match r with
  | inl e => if IsCategoryNotFound e then st_err e else unexpected "category.ByID: byID" e
  | inr c =>
    if negb (N.eqb (c_OrgID c) (OrgID tc)) || negb (N.eqb (c_ProjectID c) (ProjectID tc))
    then st_err (ECategory (CategoryNotFoundError (uuid_String id) "")) else st_ret c
  end.

Definition category_save (cx : Ctx) (c : Category) (op : string) (cascade : bool) : M Category :=
  commit_kick cx op (fun cx =>
    let* r := st_try (category_Save cx c) in
    match r with
    | inl e => if IsCategoryAlreadyExists e || IsCategoryNotFound e then st_err e else unexpected (op ++ ": save") e
    | inr _ => st_ret (c, [mkMirrorRef MirrorCategory (c_ID c) false cascade])
    end).

Definition category_Rename (cx : Ctx) (id : uuid) (name : string) : M Category :=
  let* c := category_ByID cx id in
  let before := c_Name c in
  let* now := time_Now in
  match Category_Rename c name now with
  | inl e => st_err (ECategory e)
  | inr c => category_save cx c "category.Rename" (negb (String.eqb (c_Name c) before))
  end.

Definition category_Update (cx : Ctx) (id : uuid) (icon color : string) : M Category :=
  let* c := category_ByID cx id in
  let* now := time_Now in
  match Category_Update c icon color now with
  | inl e => st_err (ECategory e)
  | inr c => category_save cx c "category.Update" false
  end.

Definition category_Archive (cx : Ctx) (id : uuid) : M Category :=
  let* c := category_ByID cx id in
  let* now := time_Now in
  category_save cx (Category_Archive c now) "category.Archive" false.

Definition category_Unarchive (cx : Ctx) (id : uuid) : M Category :=
  let* c := category_ByID cx id in
  let* now := time_Now in
  category_save cx (Category_Unarchive c now) "category.Unarchive" false.

Definition category_Delete (cx : Ctx) (id : uuid) : M unit :=
  category_ByID cx id ;;;
  commit_kick cx "category.Delete" (fun cx =>
    let* r := st_try (category_store_Delete cx id) in
    match r with
    | inl e => if IsCategoryInUse e || IsCategoryNotFound e then st_err e
               else unexpected "category.Delete: delete" e
    | inr _ => st_ret (tt, [mkMirrorRef MirrorCategory id true false])
    end).

Definition category_List (cx : Ctx) (opts : CatListOpts) : M (list Category) :=
  let* tc := from_tenant cx in
  let* r := st_try (category_store_List cx (OrgID tc) (ProjectID tc) opts) in
  match r with inl e => unexpected "category.List: list" e | inr out => st_ret out end.

(** The scan of [ResolveByName]: the first exact name, or every partial match. *)
Fixpoint resolve_scan (needle : string) (rows partial : list Category) : Category + list Category :=
  match rows with
  | [] => inr (rev partial)
  | c :: rows' =>
    let folded := FoldName (c_Name c) in
    if String.eqb folded needle then inl c else
    resolve_scan needle rows' (if Contains folded needle then c :: partial else partial)
  end.

Definition category_ResolveByName (cx : Ctx) (kind q : string) : M Category :=
  if negb (CategoryKind_ok kind) then st_err (ECategory (CategoryInvalidKindError kind)) else
  let needle := FoldName q in
  if String.eqb needle "" then st_err (ECategory (CategoryInvalidNameError "empty")) else
  let* rows := category_List cx (mkCatListOpts kind false) in
  match resolve_scan needle rows [] with
  | inl c => st_ret c
  | inr [] => st_err (ECategory (CategoryNotFoundError "" (TrimSpace q)))
  | inr [c] => st_ret c
  | inr partial => st_err (ECategory (CategoryAmbiguousNameError (TrimSpace q) (List.length partial)))
  end.

(** ** Seeding the defaults *)
Definition defaultName (cx : Ctx) (d : Default) : string :=
  let name := match namer with Some f => TrimSpace (f cx (DefaultNameKey (d_Key d))) | None => "" end in
  if String.eqb name "" then titleCase (d_Key d) else name.

(** The folded names taken per kind, and the next sort order per kind. *)
Definition Taken : Type := list (string * string).
Definition is_taken (taken : Taken) (kind folded : string) : bool :=
  existsb (fun kn => String.eqb (fst kn) kind && String.eqb (snd kn) folded) taken.
Definition count_of (m : gmap string Z) (kind : string) : Z :=
  match m !! kind with Some n => n | None => 0%Z end.

Definition seed_index (existing : list Category) : Taken * gmap string Z :=
  fold_left (fun tn c =>
    ((c_Kind c, FoldName (c_Name c)) :: fst tn,
     if (count_of (snd tn) (c_Kind c) <=? c_SortOrder c)%Z
     then <[c_Kind c := (c_SortOrder c + 1)%Z]> (snd tn) else snd tn)) existing ([], ∅).

(** What the loop has when it stops: the number added, the error it stopped
    at, and the refs the deferred kick is given. *)
Definition SeedOutcome : Type := nat * option Error * list MirrorRef.

Fixpoint seed_loop (cx : Ctx) (tc : Tenant) (next : gmap string Z) (ds : list Default)
    (seen : gmap string Z) (taken : Taken) (added : nat) (refs : list MirrorRef) : M SeedOutcome :=
  match ds with
  | [] => st_ret (added, None, refs)
  | d :: ds' =>
    let sortOrder := (count_of next (d_Kind d) + count_of seen (d_Kind d))%Z in
    let seen := <[d_Kind d := (count_of seen (d_Kind d) + 1)%Z]> seen in
    let name := defaultName cx d in
    if is_taken taken (d_Kind d) (FoldName name) then seed_loop cx tc next ds' seen taken added refs else
    let* id := NewV7 in
    let* now := time_Now in
    match Category_New id now (OrgID tc) (ProjectID tc) name (d_Kind d) (d_Icon d) (d_Color d) sortOrder with
    | inl e => st_ret (added, Some (EUnexpected "category.SeedDefaults: build default" (ECategory e)), refs)
    | inr c =>
      let* r := st_try (commit cx "category.SeedDefaults" (fun cx =>
        let* r := st_try (category_Save cx c) in
        match r with
        | inl e => if IsCategoryAlreadyExists e then st_err e else unexpected "category.SeedDefaults: save" e
        | inr _ => st_ret (tt, [mkMirrorRef MirrorCategory (c_ID c) false false])
        end)) in
      match r with
      | inl e => if IsCategoryAlreadyExists e then seed_loop cx tc next ds' seen taken added refs
                 else st_ret (added, Some e, refs)
      | inr ar => seed_loop cx tc next ds' seen ((d_Kind d, FoldName name) :: taken) (S added) (refs ++ snd ar)
      end
    end
  end.

(** The number added, and the error when one stopped it. *)
Definition SeedDefaults (cx : Ctx) : M (nat * option Error) :=
  let* t := st_try (from_tenant cx) in
  match t with
  | inl e => st_ret (O, Some e)
  | inr tc =>
    let* r := st_try (category_store_List cx (OrgID tc) (ProjectID tc) (mkCatListOpts "" true)) in
    match r with
    | inl e => st_ret (O, Some (EUnexpected "category.SeedDefaults: list" e))
    | inr existing =>
      let idx := seed_index existing in
      let* ' (added, err, refs) := seed_loop cx tc (snd idx) CategoryDefaults ∅ (fst idx) O [] in
      kick cx refs ;;; st_ret (added, err)
    end
  end.
End Service.
