(* ===== verification/TxStore.v ===== *)
(** * The transactions table and its store ([internal/transaction/sqlite.go],
    [search.go])

    The statements with the constraints of [005_yasaku.sql] and
    [013_key_authorship.sql], the sums SQLite computes for balances, and LIKE.
    [created_by] and [created_by_key_id] read back as the nil uuid when NULL. *)
From Stdlib Require Import ZArith Lia String Ascii List.
From stdpp Require Import base gmap list strings.
From S2P Require Import Prelude GoStrings Errors Civil Money Tenant Ledger Period Wallet Category Transaction World Commit.
Local Open Scope string_scope.

(** ** The table *)
Definition tx_check (t : Transaction) : option string :=
  if negb (TxKind_valid (t_Kind t)) then Some "CHECK constraint failed: kind" else
  if negb (0 <? Minor (t_Amount t))%Z then Some "CHECK constraint failed: amount_minor > 0" else
  if negb (RuneCountInString (AmountCurrency (t_Amount t)) =? 3)%Z
  then Some "CHECK constraint failed: length(currency) = 3" else
  if String.eqb (t_Kind t) TxTransfer then
    match t_ToWalletID t, t_CategoryID t with
    | Some to, None => if N.eqb to (t_WalletID t) then Some "CHECK constraint failed: transfer" else None
    | _, _ => Some "CHECK constraint failed: transfer"
    end
  else match t_ToWalletID t with
       | Some _ => Some "CHECK constraint failed: kind = 'transfer' OR to_wallet_id IS NULL"
       | None =>
         match t_CategoryID t with
         | Some _ => if AllowsCategory (t_Kind t) then None
                     else Some "CHECK constraint failed: kind IN ('income','expense') OR category_id IS NULL"
         | None => None
         end
       end.

(** [sqliteAuthorArgs]: the user and key columns, [None] for NULL. *)
Definition sqliteAuthorArgs (user key : uuid) : option uuid * option uuid :=
  if negb (N.eqb key uuid_Nil) then (None, Some key) else (Some user, None).
Definition author_cols_one (cols : option uuid * option uuid) : bool :=
  match cols with (None, Some _) | (Some _, None) => true | _ => false end.
Definition column_uuid (o : option uuid) : uuid := match o with Some u => u | None => uuid_Nil end.

(** The composite foreign keys: a row of the same org. *)
Definition wallet_in (db : DB) (id org : uuid) : bool :=
  match db_wallets db !! id with Some w => N.eqb (w_OrgID w) org | None => false end.
Definition category_in (db : DB) (id org : uuid) : bool :=
  match db_categories db !! id with Some c => N.eqb (c_OrgID c) org | None => false end.
Definition period_in (db : DB) (id org : uuid) : bool :=
  match db_periods db !! id with Some p => N.eqb (pr_OrgID p) org | None => false end.
Definition when_some (f : uuid -> bool) (o : option uuid) : bool :=
  match o with Some u => f u | None => true end.

Definition tx_fks (db : DB) (t : Transaction) : bool :=
  wallet_in db (t_WalletID t) (t_OrgID t)
  && when_some (fun w => wallet_in db w (t_OrgID t)) (t_ToWalletID t)
  && when_some (fun c => category_in db c (t_OrgID t)) (t_CategoryID t)
  && when_some (fun p => period_in db p (t_OrgID t)) (t_PeriodID t)
  && bool_decide (t_OrgID t ∈ db_orgs db) && bool_decide (t_ProjectID t ∈ db_projects db)
  && (N.eqb (t_CreatedByKeyID t) uuid_Nil || bool_decide (t_CreatedByKeyID t ∈ db_keys db)).

(** The row an insert leaves: its author is the key's when there is one. *)
Definition inserted_tx (t : Transaction) : Transaction :=
  let cols := sqliteAuthorArgs (t_CreatedBy t) (t_CreatedByKeyID t) in
  mkTransaction (t_ID t) (t_OrgID t) (t_ProjectID t) (t_WalletID t) (t_ToWalletID t) (t_Kind t) (t_Amount t)
    (t_CategoryID t) (t_PeriodID t) (t_Note t) (t_OccurredAt t)
    (column_uuid (fst cols)) (column_uuid (snd cols)) (t_CreatedAt t) (t_UpdatedAt t).
(** The row an upsert leaves: the conflict clause keeps id, scope, author and creation time. *)
Definition updated_tx (old t : Transaction) : Transaction :=
  mkTransaction (t_ID old) (t_OrgID old) (t_ProjectID old) (t_WalletID t) (t_ToWalletID t) (t_Kind t) (t_Amount t)
    (t_CategoryID t) (t_PeriodID t) (t_Note t) (t_OccurredAt t)
    (t_CreatedBy old) (t_CreatedByKeyID old) (t_CreatedAt old) (t_UpdatedAt t).

Definition FK_tx : SqliteCode * string := (CONSTRAINT_FOREIGNKEY, "FOREIGN KEY constraint failed").

Definition tx_upsert (tc : Tenant) (t : Transaction) : Statement := fun db =>
  match tx_check t with
  | Some msg => inl (CONSTRAINT_CHECK, msg)
  | None =>
    if negb (author_cols_one (sqliteAuthorArgs (t_CreatedBy t) (t_CreatedByKeyID t)))
    then inl (CONSTRAINT_CHECK, "CHECK constraint failed: transactions_author_one") else
    match db_txs db !! t_ID t with
    | Some old =>
      if N.eqb (t_OrgID old) (OrgID tc) && N.eqb (t_ProjectID old) (ProjectID tc) then
        let row := updated_tx old t in
        if tx_fks db row then inr (set_txs (<[t_ID t := row]> (db_txs db)) db, 1%nat) else inl FK_tx
      else inr (db, 0%nat)
    | None =>
      let row := inserted_tx t in
      if tx_fks db row then inr (set_txs (<[t_ID t := row]> (db_txs db)) db, 1%nat) else inl FK_tx
    end
  end.

Definition tx_delete (tc : Tenant) (id : uuid) : Statement := fun db =>
  match db_txs db !! id with
  | Some t =>
    if N.eqb (t_OrgID t) (OrgID tc) && N.eqb (t_ProjectID t) (ProjectID tc)
    then inr (set_txs (delete id (db_txs db)) db, 1%nat) else inr (db, 0%nat)
  | None => inr (db, 0%nat)
  end.

(** [translateSQLiteConstraint]. *)
Definition tx_translate (e : Error) : option Error :=
  match e with
  | ESqlite CONSTRAINT_FOREIGNKEY _ => Some (ETx (TxNotFoundError ""))
  | ESqlite CONSTRAINT_CHECK msg => if Contains msg "author_one" then Some (ETx TxAuthorMissingError) else None
  | _ => None
  end.

(** Newest first: by occurrence, then creation, then id. *)
Definition tx_desc (t u : Transaction) : bool :=
  (t_OccurredAt u <? t_OccurredAt t)%Z
  || ((t_OccurredAt u =? t_OccurredAt t)%Z
      && ((t_CreatedAt u <? t_CreatedAt t)%Z
          || ((t_CreatedAt u =? t_CreatedAt t)%Z && (t_ID u <=? t_ID t)%N))).
(** Strictly after a page's cursor in that order. *)
Definition after_cursor (c : Cursor) (t : Transaction) : bool :=
  (t_OccurredAt t <? cu_OccurredAt c)%Z
  || ((t_OccurredAt t =? cu_OccurredAt c)%Z
      && ((t_CreatedAt t <? cu_CreatedAt c)%Z
          || ((t_CreatedAt t =? cu_CreatedAt c)%Z && (t_ID t <? cu_ID c)%N))).

(** ** LIKE with [ESCAPE '\'] *)

(** What [%] matches: [f] on some suffix. *)
Fixpoint any_suffix (f : string -> bool) (s : string) : bool :=
  f s || match s with EmptyString => false | String _ r => any_suffix f r end.

(** [_] matches one character, of one or more bytes. *)
Definition drop_rune (s : string) : option string :=
  match decode_rune s with Some (_, _, r) => Some r | None => None end.

Fixpoint like (p : string) (s : string) {struct p} : bool :=
  match p with
  | EmptyString => String.eqb s ""
  | String c p' =>
    if Ascii.eqb c "%" then any_suffix (like p') s else
    if Ascii.eqb c "_" then match drop_rune s with Some r => like p' r | None => false end else
    if Ascii.eqb c "\" then
      match p' with
      | String e p'' => match s with String d r => Ascii.eqb d e && like p'' r | EmptyString => false end
      | EmptyString => false
      end
    else match s with String d r => Ascii.eqb d c && like p' r | EmptyString => false end
  end.

(** The note filter of a listing. *)
Definition note_like (search note : string) : bool :=
  like (sqlite_lower (escapeLikePattern search)) (sqlite_lower note).

(** ** Sums *)

(** SQLite's integer SUM: an error as soon as a running total leaves int64. *)
Fixpoint sql_sum_from (acc : Z) (l : list Z) : option Z :=
  match l with
  | [] => Some acc
  | x :: l' => if in_int64b (acc + x) then sql_sum_from (acc + x) l' else None
  end.
Definition sql_sum (l : list Z) : option Z := sql_sum_from 0 l.

Definition Delta : Type := uuid * Currency * Z.
Definition d_key (d : Delta) : uuid * Currency := fst d.

Definition tx_scope (orgID projectID ctxOrgID : uuid) (t : Transaction) : bool :=
  N.eqb (t_OrgID t) orgID && N.eqb (t_OrgID t) ctxOrgID && N.eqb (t_ProjectID t) projectID.

(** What each row adds to its own wallet, and to the wallet a transfer goes to. *)
Definition own_delta (t : Transaction) : Delta :=
  (t_WalletID t, AmountCurrency (t_Amount t),
   if IsInflow (t_Kind t) then Minor (t_Amount t) else (- Minor (t_Amount t))%Z).
Definition incoming_delta (t : Transaction) : option Delta :=
  if String.eqb (t_Kind t) TxTransfer then
    match t_ToWalletID t with
    | Some to => Some (to, AmountCurrency (t_Amount t), Minor (t_Amount t))
    | None => None
    end
  else None.
Fixpoint filter_map {A B} (f : A -> option B) (l : list A) : list B :=
  match l with
  | [] => []
  | x :: l' => match f x with Some y => y :: filter_map f l' | None => filter_map f l' end
  end.

Definition key_eqb (a b : uuid * Currency) : bool := N.eqb (fst a) (fst b) && String.eqb (snd a) (snd b).
Definition key_le (a b : uuid * Currency) : bool :=
  match N.compare (fst a) (fst b) with
  | Lt => true | Gt => false
  | Eq => match String.compare (snd a) (snd b) with Gt => false | _ => true end
  end.
(** GROUP BY: one sum per key, in key order. *)
Definition group_keys (ds : list Delta) : list (uuid * Currency) :=
  sort_by key_le (fold_right (fun k ks => if existsb (key_eqb k) ks then ks else k :: ks) [] (map d_key ds)).
Definition group_sum (ds : list Delta) (k : uuid * Currency) : option Z :=
  sql_sum (map snd (List.filter (fun d => key_eqb (d_key d) k) ds)).
Fixpoint group_sums (ds : list Delta) (ks : list (uuid * Currency)) : option (list Delta) :=
  match ks with
  | [] => Some []
  | k :: ks' =>
    match group_sum ds k, group_sums ds ks' with
    | Some s, Some rest => Some ((k, s) :: rest)
    | _, _ => None
    end
  end.

(** [accumulate]; [Add] is reached only within one currency. *)
Definition accumulate (out : gmap uuid Amount) (d : Delta) : gmap uuid Amount :=
  let delta := New (snd d) (snd (fst d)) in
  match out !! fst (fst d) with
  | Some cur => match Add cur delta with
                | Some sum => <[fst (fst d) := sum]> out
                | None => <[fst (fst d) := delta]> out
                end
  | None => <[fst (fst d) := delta]> out
  end.

(** One wallet's deltas, its first currency, and its sum. *)
Definition wallet_deltas (walletID : uuid) (ts : list Transaction) : list Delta :=
  List.filter (fun d => N.eqb (fst (fst d)) walletID) (map own_delta ts ++ filter_map incoming_delta ts).
Definition min_currency (ds : list Delta) : option Currency :=
  head (sort_by (fun a b => match String.compare a b with Gt => false | _ => true end)
          (map (fun d => snd (fst d)) ds)).

Definition integer_overflow : Error := ESqlite OtherCode "integer overflow".

(** ** The store *)
Section Store.
Context `{Env, Unicode}.

Definition tx_Save (cx : Ctx) (t : Transaction) : M unit :=
  write_tx "transaction" cx (fun tc =>
    exec_save "transaction.sqlite.Save" tx_translate (ETx (TxNotFoundError (uuid_String (t_ID t))))
      (tx_upsert tc t)).

Definition tx_store_ByID (cx : Ctx) (id : uuid) : M Transaction :=
  read_tx "transaction" cx (fun tc =>
    let* r := query "transaction.sqlite.ByID" (fun db =>
      match db_txs db !! id with
      | Some t => if N.eqb (t_OrgID t) (OrgID tc) then Some t else None
      | None => None
      end) in
    match r with Some t => st_ret t | None => st_err (ETx (TxNotFoundError (uuid_String id))) end).

(** [sqliteListWhere]. *)
Definition list_where (orgID projectID scopeOrgID : uuid) (o : TxListOpts) (t : Transaction) : bool :=
  tx_scope orgID projectID scopeOrgID t
  && match tl_WalletID o with
     | Some w => N.eqb (t_WalletID t) w || match t_ToWalletID t with Some to => N.eqb to w | None => false end
     | None => true
     end
  && match tl_CategoryID o with
     | Some c => match t_CategoryID t with Some c' => N.eqb c' c | None => false end
     | None => true
     end
  && match tl_PeriodID o with
     | Some p => match t_PeriodID t with Some p' => N.eqb p' p | None => false end
     | None => true
     end
  && match tl_Kinds o with [] => true | ks => existsb (String.eqb (t_Kind t)) ks end
  && match tl_From o with Some f => (f <=? t_OccurredAt t)%Z | None => true end
  && match tl_To o with Some u => (t_OccurredAt t <=? u)%Z | None => true end
  && (String.eqb (tl_Search o) "" || note_like (tl_Search o) (t_Note t))
  && match tl_After o with Some c => after_cursor c t | None => true end.

Definition tx_store_List (cx : Ctx) (orgID projectID : uuid) (o : TxListOpts) : M (list Transaction) :=
  read_tx "transaction" cx (fun tc =>
    query "transaction.sqlite.List" (fun db =>
      firstn (Z.to_nat (NormalizedLimit o))
        (sort_by tx_desc (List.filter (list_where orgID projectID (OrgID tc) o) (rows (db_txs db)))))).

Definition tx_store_Delete (cx : Ctx) (id : uuid) : M unit :=
  write_tx "transaction" cx (fun tc =>
    exec_save "transaction.sqlite.Delete" (fun _ => None) (ETx (TxNotFoundError (uuid_String id)))
      (tx_delete tc id)).

(** The grouped sums of one of the two queries of [Balances]. *)
Definition sums_query (cx : Ctx) (f : Transaction -> option Delta) (where_ : Transaction -> bool) : M (list Delta) :=
  let* r := query "transaction.sqlite.Balances" (fun db =>
    let ds := filter_map f (List.filter where_ (rows (db_txs db))) in group_sums ds (group_keys ds)) in
  match r with
  | Some l => st_ret l
  | None => st_err (EWrap "transaction.sqlite.Balances" integer_overflow)
  end.

Definition tx_store_Balances (cx : Ctx) (orgID projectID : uuid) : M (gmap uuid Amount) :=
  read_tx "transaction" cx (fun tc =>
    let where_ := tx_scope orgID projectID (OrgID tc) in
    let* own := sums_query cx (fun t => Some (own_delta t)) where_ in
    let* incoming := sums_query cx incoming_delta where_ in
    st_ret (fold_left accumulate (own ++ incoming) ∅)).

(** The zero [money.Amount], with no currency, when no row names the wallet. *)
Definition tx_store_Balance (cx : Ctx) (orgID projectID walletID : uuid) : M Amount :=
  read_tx "transaction" cx (fun tc =>
    let* r := query "transaction.sqlite.Balance" (fun db =>
      let ds := wallet_deltas walletID (List.filter (tx_scope orgID projectID (OrgID tc)) (rows (db_txs db))) in
      match min_currency ds with
      | None => inr (New 0 "")
      | Some cur => match group_sum ds (walletID, cur) with
                    | Some s => inr (New s cur)
                    | None => inl integer_overflow
                    end
      end) in
    match r with inr a => st_ret a | inl e => st_err (EWrap "transaction.sqlite.Balance" e) end).

Definition LastCategoryForNote (cx : Ctx) (orgID projectID : uuid) (noteNorm : string) : M (option uuid) :=
  if String.eqb noteNorm "" then st_ret None else
  read_tx "transaction" cx (fun tc =>
    query "transaction.sqlite.LastCategoryForNote" (fun db =>
      match head (sort_by tx_desc (List.filter (fun t => tx_scope orgID projectID (OrgID tc) t
                    && String.eqb (NormalizeNote (t_Note t)) noteNorm
                    && match t_CategoryID t with Some _ => true | None => false end) (rows (db_txs db)))) with
      | Some t => t_CategoryID t
      | None => None
      end)).

Definition ErrNoUnitOfWork : Error := EText "transaction: no unit of work is open".
Definition LockWallet (cx : Ctx) (orgID projectID walletID : uuid) : M unit :=
  if negb (cx_tx cx) then st_err (EWrap "transaction.sqlite.LockWallet" ErrNoUnitOfWork)
  else from_tenant cx ;;; st_ret tt.
End Store.
