(* ===== verification/TxService.v ===== *)
(** * The transactions service ([internal/transaction/service.go], [mirror.go],
    [ports.go], [suggest.go]) *)
From Stdlib Require Import ZArith Lia String List.
From stdpp Require Import base gmap list strings.
From S2P Require Import Prelude GoStrings Errors Civil Money Tenant Ledger Period Wallet Category Transaction World.
From S2P Require Import Commit PeriodStore TxStore.
Local Open Scope string_scope.

(** ** The ports the service is given *)
Record WalletInfo := mkWalletInfo { wi_ID : uuid; wi_Currency : Currency; wi_Archived : bool }.
Record CategoryInfo := mkCategoryInfo { ci_ID : uuid; ci_Kind : string; ci_Archived : bool }.
Record PeriodInfo := mkPeriodInfo {
  pi_ID : uuid; pi_Locked : bool; pi_PrevID : option uuid; pi_NextID : option uuid
}.

Class WalletReader := { WalletReader_Wallet : Ctx -> uuid -> uuid -> uuid -> M WalletInfo }.
Class CategoryReader := { CategoryReader_Category : Ctx -> uuid -> uuid -> uuid -> M CategoryInfo }.
(** [Containing] answers [None] when no period covers the instant. *)
Class PeriodResolver := {
  PeriodResolver_Containing : Ctx -> uuid -> uuid -> Z -> M (option PeriodInfo);
  PeriodResolver_ByID : Ctx -> uuid -> uuid -> uuid -> M PeriodInfo
}.

Record RecordInput := mkRecordInput {
  in_WalletID : uuid;
  in_ToWalletID : option uuid;
  in_Kind : string;
  in_Amount : Amount;
  in_CategoryID : option uuid;
  in_PeriodID : option uuid;
  in_Note : string;
  in_OccurredAt : Z
}.
(** [None] leaves a field alone, [Some None] clears its column. *)
Record RevisePatch := mkRevisePatch {
  rp_WalletID : option uuid;
  rp_ToWalletID : option (option uuid);
  rp_Amount : option Amount;
  rp_CategoryID : option (option uuid);
  rp_PeriodID : option (option uuid);
  rp_Note : option string;
  rp_OccurredAt : option Z
}.
Record BatchResult := mkBatchResult { br_Index : nat; br_Result : Error + Transaction }.

Definition touched (t : Transaction) (deleted : bool) : list MirrorRef :=
  [mkMirrorRef MirrorTransaction (t_ID t) deleted false; mkMirrorRef MirrorWallet (t_WalletID t) false false]
  ++ match t_ToWalletID t with Some to => [mkMirrorRef MirrorWallet to false false] | None => [] end.

Definition adjacent (info : PeriodInfo) (id : uuid) : bool :=
  if N.eqb id (pi_ID info) then true else
  if match pi_PrevID info with Some p => N.eqb id p | None => false end then true else
  match pi_NextID info with Some n => N.eqb id n | None => false end.

Section Service.
Context `{Env, Unicode, Mirror, Uow, WalletReader, CategoryReader, PeriodResolver}.

(** A port's error: as it is when it carries an envelope, masked otherwise. *)
Definition port_error {A} (op : string) (e : Error) : M A :=
  if is_app e then st_err e else unexpected op e.
Definition periodErr {A} (op : string) (e : Error) : M A := port_error op e.

Definition tx_wallet (cx : Ctx) (tc : Tenant) (id : uuid) : M WalletInfo :=
  let* r := st_try (WalletReader_Wallet cx (OrgID tc) (ProjectID tc) id) in
  match r with inl e => port_error "transaction: wallet lookup" e | inr w => st_ret w end.

Definition checkWallets (cx : Ctx) (tc : Tenant) (walletID : uuid) (toWalletID : option uuid)
    (kind : string) (amount : Amount) : M Currency :=
  let* w := tx_wallet cx tc walletID in
  if wi_Archived w then st_err (ETx (WalletArchivedError (uuid_String walletID))) else
  if negb (String.eqb (AmountCurrency amount) (wi_Currency w))
  then st_err (ETx (CurrencyMismatchError (uuid_String walletID) (wi_Currency w) (AmountCurrency amount))) else
  if negb (String.eqb kind TxTransfer) then st_ret (wi_Currency w) else
  match toWalletID with
  | None => st_ret (wi_Currency w)
  | Some toID =>
    let* to := tx_wallet cx tc toID in
    if wi_Archived to then st_err (ETx (WalletArchivedError (uuid_String toID))) else
    if negb (String.eqb (wi_Currency to) (wi_Currency w))
    then st_err (ETx (CurrencyMismatchError (uuid_String toID) (wi_Currency to) (wi_Currency w)))
    else st_ret (wi_Currency w)
  end.

Definition checkCategory (cx : Ctx) (tc : Tenant) (categoryID : option uuid) (kind : string) : M unit :=
  match categoryID with
  | None => st_ret tt
  | Some id =>
    if negb (AllowsCategory kind)
    then st_err (ETx (TxInvalidKindError kind "only income and expense may name a category")) else
    let* r := st_try (CategoryReader_Category cx (OrgID tc) (ProjectID tc) id) in
    match r with
    | inl e => port_error "transaction: category lookup" e
    | inr c =>
      if negb (String.eqb (ci_Kind c) kind)
      then st_err (ETx (CategoryKindMismatchError (uuid_String id) (ci_Kind c) kind)) else st_ret tt
    end
  end.

(** The chosen period's lookup and lock check at the end of [resolvePeriod]. *)
Definition check_period (cx : Ctx) (tc : Tenant) (chosen : uuid) : M (option uuid) :=
  let* t := st_try (PeriodResolver_ByID cx (OrgID tc) (ProjectID tc) chosen) in
  match t with
  | inl e => periodErr "transaction: period lookup" e
  | inr target => if pi_Locked target then st_err (ETx (PeriodLockedError (uuid_String chosen)))
                  else st_ret (Some chosen)
  end.
Definition resolvePeriod (cx : Ctx) (tc : Tenant) (at_ : Z) (want : option uuid) : M (option uuid) :=
  let* r := st_try (PeriodResolver_Containing cx (OrgID tc) (ProjectID tc) at_) in
  match r with
  | inl e => periodErr "transaction: containing period" e
  | inr info =>
    match want with
    | None => match info with None => st_ret None | Some info => check_period cx tc (pi_ID info) end
    | Some w =>
      match info with
      | None => st_err (ETx (PeriodNotAdjacentError (uuid_String w)))
      | Some info => if negb (adjacent info w) then st_err (ETx (PeriodNotAdjacentError (uuid_String w)))
                     else check_period cx tc w
      end
    end
  end.

Definition refusePeriodLocked (cx : Ctx) (tc : Tenant) (periodID : option uuid) : M unit :=
  match periodID with
  | None => st_ret tt
  | Some id =>
    let* r := st_try (PeriodResolver_ByID cx (OrgID tc) (ProjectID tc) id) in
    match r with
    | inl e => periodErr "transaction: period lookup" e
    | inr info => if pi_Locked info then st_err (ETx (PeriodLockedError (uuid_String id))) else st_ret tt
    end
  end.

Definition tx_load (cx : Ctx) (tc : Tenant) (id : uuid) (op : string) : M Transaction :=
  let* r := st_try (tx_store_ByID cx id) in
  match r with
  | inl e => if IsTxNotFound e then st_err e else unexpected (op ++ ": byID") e
  | inr t =>
    if negb (N.eqb (t_OrgID t) (OrgID tc)) || negb (N.eqb (t_ProjectID t) (ProjectID tc))
    then st_err (ETx (TxNotFoundError (uuid_String id))) else st_ret t
  end.

(** The save of [record] and [revise], with their error handling. *)
Definition save_tx (cx : Ctx) (op : string) (t : Transaction) : M unit :=
  let* r := st_try (tx_Save cx t) in
  match r with
  | inl e => if IsTxNotFound e || IsTxAuthorMissing e then st_err e else unexpected (op ++ ": save") e
  | inr _ => st_ret tt
  end.

Definition record (cx : Ctx) (tc : Tenant) (i : RecordInput) (by_ : uuid) : M Transaction :=
  let* currency := checkWallets cx tc (in_WalletID i) (in_ToWalletID i) (in_Kind i) (in_Amount i) in
  checkCategory cx tc (in_CategoryID i) (in_Kind i) ;;;
  let* periodID := resolvePeriod cx tc (in_OccurredAt i) (in_PeriodID i) in
  match author cx by_ with
  | None => st_err (ETx TxAuthorMissingError)
  | Some (createdBy, createdByKey) =>
    let* now := time_Now in
    let* id := NewV7 in
    match Tx_New id now (OrgID tc) (ProjectID tc)
            (mkNewParams (in_WalletID i) (in_ToWalletID i) (in_Kind i) (New (Minor (in_Amount i)) currency)
               (in_CategoryID i) periodID (in_Note i) (in_OccurredAt i) createdBy createdByKey) with
    | inl e => st_err (ETx e)
    | inr t => save_tx cx "transaction.Record" t ;;; st_ret t
    end
  end.

Definition recordOne (cx : Ctx) (i : RecordInput) : M (Transaction * list MirrorRef) :=
  let* tc := from_tenant cx in
  commit cx "transaction.Record" (fun cx =>
    let* t := record cx tc i (UserID tc) in st_ret (t, touched t false)).

Definition Record_ (cx : Ctx) (i : RecordInput) : M Transaction :=
  let* ' (t, refs) := recordOne cx i in kick cx refs ;;; st_ret t.

(** [RecordBatch]: each input on its own; one kick for all that were recorded. *)
Fixpoint batch_loop (cx : Ctx) (ins : list RecordInput) (i : nat) (out : list BatchResult) (refs : list MirrorRef)
    : M (list BatchResult * list MirrorRef) :=
  match ins with
  | [] => st_ret (rev out, refs)
  | row :: ins' =>
    let* r := st_try (recordOne cx row) in
    match r with
    | inl e => batch_loop cx ins' (S i) (mkBatchResult i (inl e) :: out) refs
    | inr (t, rs) => batch_loop cx ins' (S i) (mkBatchResult i (inr t) :: out) (refs ++ rs)%list
    end
  end.
Definition RecordBatch (cx : Ctx) (ins : list RecordInput) : M (list BatchResult) :=
  let* ' (out, refs) := batch_loop cx ins 0 [] [] in kick cx refs ;;; st_ret out.

(** One optional setter of [revise]. *)
Definition set_opt {A} (o : option A) (f : Transaction -> A -> Z -> TxError + Transaction) (t : Transaction)
    : M Transaction :=
  match o with
  | None => st_ret t
  | Some a => let* now := time_Now in
              match f t a now with inl e => st_err (ETx e) | inr t' => st_ret t' end
  end.

(** The fields of the patch, in the order [revise] sets them. *)
Definition apply_patch (t : Transaction) (p : RevisePatch) : M Transaction :=
  let* t := set_opt (rp_OccurredAt p) (fun t a now => inr (SetOccurredAt t a now)) t in
  let* t := set_opt (rp_WalletID p) (fun t a now => inr (SetWallet t a now)) t in
  let* t := set_opt (rp_ToWalletID p) (fun t a now => inr (SetToWallet t a now)) t in
  let* t := set_opt (rp_Note p) SetNote t in
  let* t := set_opt (rp_Amount p) SetAmount t in
  set_opt (rp_CategoryID p) SetCategory t.

Definition revise_period (cx : Ctx) (tc : Tenant) (p : RevisePatch) (movedInTime : bool) (next : Transaction)
    : M Transaction :=
  let set (id : option uuid) : M Transaction := let* now := time_Now in st_ret (SetPeriod next id now) in
  match rp_PeriodID p with
  | Some None => set None
  | Some (Some w) => let* id := resolvePeriod cx tc (t_OccurredAt next) (Some w) in set id
  | None => if movedInTime then let* id := resolvePeriod cx tc (t_OccurredAt next) None in set id
            else st_ret next
  end.

Definition revise (cx : Ctx) (tc : Tenant) (id : uuid) (p : RevisePatch) : M (Transaction * list MirrorRef) :=
  let* t := tx_load cx tc id "transaction.Revise" in
  if negb (IsUserRecorded (t_Kind t)) then st_err (ETx (SystemRecordedError (t_Kind t))) else
  refusePeriodLocked cx tc (t_PeriodID t) ;;;
  let* next := apply_patch t p in
  let movedInTime := match rp_OccurredAt p with
                     | Some _ => negb (t_OccurredAt next =? t_OccurredAt t)%Z | None => false end in
  match validate next with
  | Some e => st_err (ETx e)
  | None =>
    let* currency := checkWallets cx tc (t_WalletID next) (t_ToWalletID next) (t_Kind next) (t_Amount next) in
    let next := with_currency next currency in
    checkCategory cx tc (t_CategoryID next) (t_Kind next) ;;;
    let* next := revise_period cx tc p movedInTime next in
    save_tx cx "transaction.Revise" next ;;;
    st_ret (next, (touched next false ++ tail (touched t false))%list)
  end.

Definition Revise (cx : Ctx) (id : uuid) (p : RevisePatch) : M Transaction :=
  let* tc := from_tenant cx in
  commit_kick cx "transaction.Revise" (fun cx => revise cx tc id p).

Definition tx_delete_body (cx : Ctx) (tc : Tenant) (id : uuid) : M (unit * list MirrorRef) :=
  let* t := tx_load cx tc id "transaction.Delete" in
  if negb (IsUserRecorded (t_Kind t)) then st_err (ETx (SystemRecordedError (t_Kind t))) else
  refusePeriodLocked cx tc (t_PeriodID t) ;;;
  let* r := st_try (tx_store_Delete cx id) in
  match r with
  | inl e => if IsTxNotFound e then st_err e else unexpected "transaction.Delete: delete" e
  | inr _ => st_ret (tt, touched t true)
  end.
Definition tx_Delete (cx : Ctx) (id : uuid) : M unit :=
  let* tc := from_tenant cx in
  commit_kick cx "transaction.Delete" (fun cx => tx_delete_body cx tc id).

Definition tx_ByID (cx : Ctx) (id : uuid) : M Transaction :=
  let* tc := from_tenant cx in tx_load cx tc id "transaction.ByID".

(** A page and, when it is full, the cursor of the next. *)
Definition tx_List (cx : Ctx) (o : TxListOpts) : M (list Transaction * option Cursor) :=
  let* tc := from_tenant cx in
  let limit := NormalizedLimit o in
  let o := mkTxListOpts (tl_WalletID o) (tl_CategoryID o) (tl_PeriodID o) (tl_Kinds o) (tl_From o) (tl_To o)
             (tl_Search o) limit (tl_After o) in
  let* r := st_try (tx_store_List cx (OrgID tc) (ProjectID tc) o) in
  match r with
  | inl e => unexpected "transaction.List: list" e
  | inr items =>
    if (Z.of_nat (List.length items) <? limit)%Z then st_ret (items, None) else
    match last items with
    | Some t => st_ret (items, Some (mkCursor (t_OccurredAt t) (t_CreatedAt t) (t_ID t)))
    | None => st_panic "runtime error: index out of range [-1]"
    end
  end.

Definition Balances (cx : Ctx) : M (gmap uuid Amount) :=
  let* tc := from_tenant cx in
  let* r := st_try (tx_store_Balances cx (OrgID tc) (ProjectID tc)) in
  match r with inl e => unexpected "transaction.Balances: balances" e | inr out => st_ret out end.

Definition Balance (cx : Ctx) (walletID : uuid) : M Amount :=
  let* tc := from_tenant cx in
  let* r := st_try (tx_store_Balance cx (OrgID tc) (ProjectID tc) walletID) in
  match r with
  | inl e => unexpected "transaction.Balance: balance" e
  | inr out =>
    if String.eqb (AmountCurrency out) "" then
      let* w := tx_wallet cx tc walletID in st_ret (Zero (wi_Currency w))
    else st_ret out
  end.

(** [lastUsedSuggester.Suggest]. *)
Definition Suggest (cx : Ctx) (orgID projectID : uuid) (note : string) : M (option uuid) :=
  let norm := NormalizeNote note in
  if String.eqb norm "" then st_ret None else LastCategoryForNote cx orgID projectID norm.
Definition SuggestCategory (cx : Ctx) (note : string) : M (option uuid) :=
  let* tc := from_tenant cx in
  let* r := st_try (Suggest cx (OrgID tc) (ProjectID tc) note) in
  match r with inl e => unexpected "transaction.SuggestCategory: suggest" e | inr id => st_ret id end.

(** In the caller's unit of work: it marks, the caller kicks. *)
Definition RecordOpening (cx : Ctx) (walletID : uuid) (amount : Amount) (at_ : Z) (by_ : uuid) : M uuid :=
  let* tc := from_tenant cx in
  let* t := record cx tc (mkRecordInput walletID None TxOpening amount None None "" at_) by_ in
  mark cx "transaction.RecordOpening" (touched t false) ;;; st_ret (t_ID t).

Definition adjust_body (cx : Ctx) (tc : Tenant) (w : WalletInfo) (walletID : uuid) (target : Amount) (at_ : Z)
    (by_ : uuid) : M (option Transaction * list MirrorRef) :=
  let* l := st_try (LockWallet cx (OrgID tc) (ProjectID tc) walletID) in
  match l with
  | inl e => unexpected "transaction.Adjust: lock wallet" e
  | inr _ =>
    let* b := st_try (tx_store_Balance cx (OrgID tc) (ProjectID tc) walletID) in
    match b with
    | inl e => unexpected "transaction.Adjust: balance" e
    | inr current =>
      if negb (String.eqb (AmountCurrency current) "") && negb (String.eqb (AmountCurrency current) (wi_Currency w))
      then st_err (ETx (CurrencyMismatchError (uuid_String walletID) (wi_Currency w) (AmountCurrency current))) else
      let delta := wrap64 (Minor target - Minor current) in
      if (delta =? 0)%Z then st_ret (None, []) else
      let kd := if (delta <? 0)%Z then (TxAdjustmentOut, wrap64 (- delta)) else (TxAdjustmentIn, delta) in
      let* t := record cx tc (mkRecordInput walletID None (fst kd) (New (snd kd) (wi_Currency w)) None None "" at_) by_ in
      mark cx "transaction.Adjust" (touched t false) ;;; st_ret (Some t, touched t false)
    end
  end.

(** The error of the unit of work is returned as it is. *)
Definition Adjust (cx : Ctx) (walletID : uuid) (target : Amount) (at_ : Z) (by_ : uuid) : M (option Transaction) :=
  let* tc := from_tenant cx in
  let* w := tx_wallet cx tc walletID in
  if wi_Archived w then st_err (ETx (WalletArchivedError (uuid_String walletID))) else
  if negb (String.eqb (AmountCurrency target) (wi_Currency w))
  then st_err (ETx (CurrencyMismatchError (uuid_String walletID) (wi_Currency w) (AmountCurrency target))) else
  let* ' (out, refs) := run_uow (fun e => e) cx (fun cx => adjust_body cx tc w walletID target at_ by_) in
  kick cx refs ;;; st_ret out.
End Service.

(** ** What the ports promise inside a unit of work *)

(** A current period was inserted, or nothing happened. *)
Definition opens (db db' : DB) : Prop :=
  db' = db \/ exists p n, pr_EndDate p = None /\ IsLocked p = false /\ period_insert_current p db = inr (db', n).

Lemma opens_cases db db' : opens db db' -> db' = db \/ exists p, db_periods db !! pr_ID p = None /\ IsLocked p = false
  /\ db' = set_periods (<[pr_ID p := p]> (db_periods db)) db.
Proof.
  intros [->|(p & n & He & Hl & E)]; [auto|]. unfold period_insert_current in E.
  destruct (period_check p); [discriminate|]. destruct (_ && _)%bool; [injection E as <- _; auto|].
  destruct (db_periods db !! pr_ID p) eqn:Hf; [discriminate|]. destruct (period_scope_fk db p); [|discriminate].
  injection E as <- _. right. exists p. auto.
Qed.

Definition read_wallet (db : DB) (o p id : uuid) (wi : WalletInfo) : Prop :=
  exists w, db_wallets db !! id = Some w /\ w_OrgID w = o /\ w_ProjectID w = p
    /\ wi_Currency wi = w_Currency w /\ wi_Archived wi = Wallet_IsArchived w.
Definition read_category (db : DB) (o p id : uuid) (ci : CategoryInfo) : Prop :=
  exists c, db_categories db !! id = Some c /\ c_OrgID c = o /\ c_ProjectID c = p /\ ci_Kind ci = c_Kind c.
Definition read_period (db : DB) (o p id : uuid) (pi : PeriodInfo) : Prop :=
  exists q, In q (rows (db_periods db)) /\ pr_ID q = id /\ pr_OrgID q = o /\ pr_ProjectID q = p
    /\ pi_Locked pi = IsLocked q.

Class WalletReaderLaws `{Env, WalletReader} := {
  WalletReader_reads cx o p id : calm cx ->
    reads (fun wi db => read_wallet db o p id wi) (WalletReader_Wallet cx o p id);
  WalletReader_read_only cx o p id (R : DB -> DB -> Prop) : PreOrder R ->
    (forall n db, R db (env_other n db)) -> preserves (on_db R) (WalletReader_Wallet cx o p id)
}.
Class CategoryReaderLaws `{Env, CategoryReader} := {
  CategoryReader_reads cx o p id : calm cx ->
    reads (fun ci db => read_category db o p id ci) (CategoryReader_Category cx o p id)
}.
Class PeriodResolverLaws `{Env, PeriodResolver} := {
  PeriodResolver_opens cx o p at_ : cx_tx cx = true ->
    runs (fun _ => opens) (PeriodResolver_Containing cx o p at_);
  PeriodResolver_reads cx o p id : cx_tx cx = true ->
    reads (fun pi db => read_period db o p id pi) (PeriodResolver_ByID cx o p id)
}.
