(* ===== verification/SheetService.v ===== *)
(** * The link's service ([internal/opensheetsync/service.go], [shape.go], [secret.go])

    The module page's operations: the Test of every tab against the contract, Save
    after a passing Test, the switch with its backfill, "Sync everything now" and
    removal. Only a manager of the org changes the link. *)
From Stdlib Require Import ZArith Lia String List.
From stdpp Require Import base gmap list strings.
From S2P Require Import Prelude GoStrings Errors Sealer Civil Money Tenant Ledger Period Wallet Category Transaction Outbox Sheet World LedgerService PeriodStore PeriodService Commit SheetStore.
From S2P Require Import SheetMirror SheetSync WalletService CategoryService TxStore TxService.
Local Open Scope string_scope.
Local Open Scope Z_scope.

(** ** The sync's source ([opensheetSource] of [internal/boot/opensheet_yasaku.go]

    A row's current state read through the domain services, each of which checks
    the tenant scope the job runs in. *)
Section Source.
Context `{Env, TZDatabase, Mirror, Uow, WalletReader, CategoryReader, PeriodResolver}.

Definition source_walletName (cx : Ctx) (id : uuid) : M string := let* w := wallet_ByID cx id in st_ret (w_Name w).

Definition source_facts (cx : Ctx) (t : Transaction) : M TransactionFacts :=
  let* loc := ledger_Location cx (t_OrgID t) (t_ProjectID t) in
  let* walletName := source_walletName cx (t_WalletID t) in
  let* to := match t_ToWalletID t with
             | None => st_ret (uuid_Nil, "")
             | Some id => let* name := source_walletName cx id in st_ret (id, name)
             end in
  let* cat := match t_CategoryID t with
              | None => st_ret (uuid_Nil, "")
              | Some id => let* c := category_ByID cx id in st_ret (c_ID c, c_Name c)
              end in
  let* period := match t_PeriodID t with
                 | None => st_ret ""
                 | Some id => let* p := period_ByID cx id in st_ret (pr_Name p)
                 end in
  st_ret (mkTransactionFacts (t_ID t) (t_Kind t) (t_Amount t) (t_OccurredAt t) (Some loc) (t_WalletID t) walletName
    (fst to) (snd to) (fst cat) (snd cat) period (t_Note t) uuid_Nil (t_UpdatedAt t)).

Definition source_Transaction (cx : Ctx) (id : uuid) : M (option TransactionFacts) :=
  let* r := st_try (tx_ByID cx id) in
  match r with
  | inl e => if IsTxNotFound e then st_ret None else st_err e
  | inr t => let* f := source_facts cx t in st_ret (Some f)
  end.

Definition source_Wallet (cx : Ctx) (id : uuid) : M (option WalletFacts) :=
  let* r := st_try (wallet_ByID cx id) in
  match r with
  | inl e => if IsWalletNotFound e then st_ret None else st_err e
  | inr w =>
    let* balance := Balance cx id in
    st_ret (Some (mkWalletFacts (w_ID w) (w_Name w) (w_Kind w) (w_Provider w) balance (w_ExcludeFromTotal w)
      (Wallet_IsArchived w) (w_UpdatedAt w)))
  end.

Definition source_Category (cx : Ctx) (id : uuid) : M (option CategoryFacts) :=
  let* r := st_try (category_ByID cx id) in
  match r with
  | inl e => if IsCategoryNotFound e then st_ret None else st_err e
  | inr c =>
    st_ret (Some (mkCategoryFacts (c_ID c) (c_Name c) (c_Kind c) (c_Icon c) (c_Color c) (Category_IsArchived c) (c_UpdatedAt c)))
  end.

Definition opensheetSource : Source := {|
  src_Transaction := source_Transaction;
  src_Wallet := source_Wallet;
  src_Category := source_Category
|}.
End Source.

(** ** The Test ([shape.go]) *)
Record SheetCapabilities := mkSheetCapabilities {
  cp_Columns : list string;
  cp_IDColumn : bool;
  cp_SoftDelete : bool;
  cp_Writable : bool;
  cp_SatisfiesContract : bool;
  cp_ContractReason : string;
  cp_ValidatedAt : option Z
}.
Definition no_capabilities : SheetCapabilities := mkSheetCapabilities [] false false false false "" None.

Record TabCheck := mkTabCheck {
  tc_Entity : Entity;
  tc_Sheet : string;
  tc_Reachable : bool;
  tc_IDColumn : bool;
  tc_Writable : bool;
  tc_ColumnsDeferred : bool;
  tc_Missing : list string;
  tc_ContractReason : string;
  tc_Err : option Error
}.
Definition TabCheck_OK (c : TabCheck) : bool := match tc_Err c with None => true | Some _ => false end.
Abbreviation Checklist := (list TabCheck).
(** An empty checklist never passes. *)
Definition Checklist_OK (l : Checklist) : bool := match l with [] => false | _ => forallb TabCheck_OK l end.
Fixpoint Checklist_Err (l : Checklist) : option Error :=
  match l with
  | [] => None
  | c :: rest => match tc_Err c with Some e => Some e | None => Checklist_Err rest end
  end.

(** [cmp.Or]. *)
Definition cmp_Or (a b : string) : string := if String.eqb a "" then b else a.
Definition fetchRefusal (sheet : string) (e : Error) : Error :=
  if IsPrivateAddress e then EPrivateEndpoint e else
  if match as_not_found e with Some _ => true | None => false end then ESheet (SheetUnreachableError sheet) else
  if match as_api e with Some (status, _, _) => (status =? 401) || (status =? 403) | None => false end
  then ESheet (SheetUnreachableError sheet) else
  match as_validation e with
  | Some (code, msg) => ESheet (ContractUnsatisfiedError sheet (cmp_Or msg code))
  | None => ESheetUnavailable sheet e
  end.
Definition columnsObservable (columns : list string) : bool :=
  existsb (fun c => negb (String.eqb c deletedAtColumn)) columns.
Definition missingColumns (tab : Tab) (caps : SheetCapabilities) (deferred : bool) : list string :=
  if deferred then (if cp_SoftDelete caps then [] else [deletedAtColumn])
  else List.filter (fun col => negb (existsb (String.eqb col) (cp_Columns caps))) (tab_Columns tab).

(** The first rule broken. *)
Definition tab_refusal (sheet : string) (missing : list string) (idColumn deferred writable : bool) (reason : string)
    : option SheetError :=
  match missing with
  | _ :: _ => Some (ShapeMismatchError sheet missing)
  | [] =>
    if negb idColumn && negb deferred then Some (NoIDColumnError sheet) else
    if negb writable then Some (SheetNotWritableError sheet) else
    if negb (String.eqb reason "") then Some (ContractUnsatisfiedError sheet reason) else None
  end.
Definition CheckTab (tab : Tab) (sheet : string) (caps : Error + SheetCapabilities) : TabCheck :=
  match caps with
  | inl e => mkTabCheck (tab_Entity tab) sheet false false false false [] "" (Some (fetchRefusal sheet e))
  | inr caps =>
    let deferred := negb (columnsObservable (cp_Columns caps)) in
    let verdict := cp_SatisfiesContract caps && match cp_ValidatedAt caps with Some _ => true | None => false end in
    let idColumn := cp_IDColumn caps || (deferred && verdict) in
    let missing := missingColumns tab caps deferred in
    let reason :=
      if negb (cp_SatisfiesContract caps)
      then cmp_Or (cp_ContractReason caps) "the sheet does not satisfy opensheet's table contract"
      else if deferred && negb verdict
      then "opensheet has not read and validated this tab yet; open its rows in opensheet once, then run Test again"
      else "" in
    mkTabCheck (tab_Entity tab) sheet true idColumn (cp_Writable caps) deferred missing reason
      (option_map ESheet (tab_refusal sheet missing idColumn deferred (cp_Writable caps) reason))
  end.

(** ** Ports *)

(** What opensheet answers to a capabilities request. *)
Class CapServer := capabilities : nat -> list Sent -> string -> HttpResult * SheetCapabilities.
(** [Members], the org's role gate. *)
Class Members := RequireManager : Ctx -> uuid -> uuid -> M unit.

Record Status := mkStatus { su_Link : option Link; su_Backlog : Backlog }.

Definition Microsecond : Z := 1000.
(** [stamp]: strictly after the link's last change, in whole microseconds. *)
Definition stamp_at (now : Z) (prior : option Link) : Z :=
  let at_ := now - now mod Microsecond in
  match prior with
  | Some l => if negb (lk_UpdatedAt l <? at_) then lk_UpdatedAt l + Microsecond else at_
  | None => at_
  end.

Section Service.
Context `{Env, Deadlines, JobQueue, Queued, Endpoint, Sealer, CapServer, Members, Uow}.

Definition passOrReport (op : string) (e : Error) : Error := if is_app e then e else EUnexpected op e.

Definition manager (cx : Ctx) : M Tenant :=
  let* tc := from_tenant cx in
  let* r := st_try (RequireManager cx (OrgID tc) (UserID tc)) in
  match r with
  | inl e => st_err (passOrReport "opensheetsync: role" e)
  | inr _ => st_ret tc
  end.
Definition the_link (cx : Ctx) (tc : Tenant) : M Link :=
  st_maperr (passOrReport "opensheetsync: link") (store_LinkByProject cx (OrgID tc) (ProjectID tc)).

Definition savedKey (l : Link) : Error + string :=
  match openKey l with
  | inr key => inr key
  | inl e => inl (if IsOpenFailed e then EKeyUnreadable e else passOrReport "opensheetsync: open key" e)
  end.

(** The trimmed and validated settings, with the saved key when none was entered. *)
Definition resolve (cx : Ctx) (tc : Tenant) (in_ : SheetSettings) : M (SheetSettings * option Link) :=
  let in_ := Normalized in_ in
  let* r := st_try (store_LinkByProject cx (OrgID tc) (ProjectID tc)) in
  let* existing :=
    match r with
    | inl e => if IsLinkNotFound e then st_ret None else unexpected "opensheetsync: link" e
    | inr l => st_ret (Some l)
    end in
  match settings_Validate in_ (match existing with None => true | Some _ => false end) with
  | Some e => st_err (ESheet e)
  | None =>
    if negb (String.eqb (set_APIKey in_) "") then st_ret (in_, existing) else
    match existing with
    | None => st_panic "invalid memory address or nil pointer dereference"
    | Some l =>
      match savedKey l with
      | inl e => st_err e
      | inr key => st_ret (mkSheetSettings (set_OSOrg in_) (set_OSProject in_) key (set_Sheets in_), existing)
      end
    end
  end.

Definition fetch_capabilities (slug : string) : M (Error + SheetCapabilities) :=
  fun w =>
    let ' (r, caps) := capabilities (W_step w) (W_sent w) slug in
    (Ok (match do_result "GET" r with Some e => inl e | None => inr caps end),
     Build_World (W_db w) (W_sheet w) (W_sent w) (S (W_step w))).
Definition check_tabs (in_ : SheetSettings) : list Tab -> M Checklist :=
  fix go tabs :=
    match tabs with
    | [] => st_ret []
    | tab :: rest =>
      let slug := For (set_Sheets in_) (tab_Entity tab) in
      let* caps := fetch_capabilities slug in
      let* out := go rest in
      st_ret (CheckTab tab slug caps :: out)
    end.
Definition check (in_ : SheetSettings) : M Checklist :=
  match endpoint_client (set_OSOrg in_) (set_OSProject in_) (set_APIKey in_) with
  | Some e => unexpected "opensheetsync.Test: client" e
  | None => check_tabs in_ Contract
  end.

(** The link, and the backfill's marks, in one unit of work. *)
Definition persist (cx : Ctx) (l : Link) (backfill : bool) (at_ : Z) : M unit :=
  run_uow (fun e => e) cx (fun cx =>
    store_SaveLink cx l ;;;
    if negb backfill then st_ret tt
    else let* _ := store_MarkAll cx (lk_OrgID l) (lk_ProjectID l) at_ in st_ret tt).

Definition stamp (prior : option Link) : M Z := let* now := time_Now in st_ret (stamp_at now prior).

Definition sheet_Status (cx : Ctx) : M Status :=
  let* tc := from_tenant cx in
  let* r := st_try (store_LinkByProject cx (OrgID tc) (ProjectID tc)) in
  match r with
  | inl e => if IsLinkNotFound e then st_ret (mkStatus None (mkBacklog 0 0 0)) else unexpected "opensheetsync.Status: link" e
  | inr l =>
    let* b := st_try (store_Backlog cx (OrgID tc) (ProjectID tc)) in
    match b with
    | inl e => unexpected "opensheetsync.Status: backlog" e
    | inr b => st_ret (mkStatus (Some l) b)
    end
  end.

(** [Service.Test]. *)
Definition sheet_Test (cx : Ctx) (in_ : SheetSettings) : M Checklist :=
  let* tc := manager cx in
  let* r := resolve cx tc in_ in
  check (fst r).

Definition seal_entered (tc : Tenant) (entered : bool) (key : string) : M (option string * string) :=
  if negb entered then st_ret (None, "") else
  let* n := tick in
  match Seal n key (keyAAD (OrgID tc) (ProjectID tc)) with
  | inl e => st_err (passOrReport "opensheetsync.Save: seal" (EWrap "opensheetsync.sealKey" e))
  | inr sealed => st_ret (Some sealed, KeyHint key)
  end.

(** [Service.Save]: the error of a failing tab comes with the checklist. *)
Definition sheet_Save (cx : Ctx) (in_ : SheetSettings) : M (Link * Checklist + Checklist * option Error) :=
  let* tc := manager cx in
  let entered := negb (String.eqb (set_APIKey (Normalized in_)) "") in
  let* r := resolve cx tc in_ in
  let ' (in_, existing) := r in
  let* cl := check in_ in
  if negb (Checklist_OK cl) then st_ret (inr (cl, Checklist_Err cl)) else
    let* sealed := seal_entered tc entered (set_APIKey in_) in
    let* at_ := stamp existing in
    let* l := match existing with
              | Some l => st_ret l
              | None => let* id := NewV7 in st_ret (NewLink id (OrgID tc) (ProjectID tc) (UserID tc) uuid_Nil at_)
              end in
    let backfill := lk_Enabled l && Retargets l in_ in
    let l := Configure l in_ (fst sealed) (snd sealed) at_ in
    st_maperr (passOrReport "opensheetsync.Save: save") (persist cx l backfill at_) ;;;
    (if backfill then KickDirty cx else st_ret tt) ;;;
    st_ret (inl (l, cl)).

Definition SetEnabled (cx : Ctx) (on : bool) : M Link :=
  let* tc := manager cx in
  let* l := the_link cx tc in
  if Bool.eqb (lk_Enabled l) on then st_ret l else
  let* at_ := stamp (Some l) in
  if negb on then
    let l := Disable l at_ in
    st_maperr (passOrReport "opensheetsync.SetEnabled: save") (store_SaveLink cx l) ;;;
    st_ret l
  else
    match Enable l at_ with
    | inl e => st_err (ESheet e)
    | inr l =>
      match savedKey l with
      | inl e => st_err e
      | inr _ =>
        st_maperr (passOrReport "opensheetsync.SetEnabled: save") (persist cx l true at_) ;;;
        KickDirty cx ;;;
        st_ret l
      end
    end.

Definition SyncNow (cx : Ctx) : M Z :=
  let* tc := manager cx in
  let* l := the_link cx tc in
  if negb (lk_Enabled l) then st_err (ESheet LinkDisabledError) else
  let* now := time_Now in
  let* r := st_try (store_MarkAll cx (OrgID tc) (ProjectID tc) now) in
  match r with
  | inl e => unexpected "opensheetsync.SyncNow: mark all" e
  | inr n => KickDirty cx ;;; st_ret n
  end.

(** [Service.Delete]: the sheet's rows are left alone. *)
Definition sheet_Delete (cx : Ctx) : M unit :=
  let* tc := manager cx in
  st_maperr (passOrReport "opensheetsync.Delete: delete") (store_DeleteLink cx (OrgID tc) (ProjectID tc)).
End Service.
