(* ===== verification/SheetTheory.v ===== *)
(** * Reasoning about the mirror

    A weakest-precondition calculus over the database, the mirror's tables and what
    was sent; the well-formedness of the mirror's tables, which every operation
    keeps whatever other sessions do; and the mirror as the port the services'
    theorems ask for. *)
From Stdlib Require Import ZArith Lia String List.
From stdpp Require Import base gmap list strings.
From S2P Require Import Prelude GoStrings Errors Tenant Outbox Sheet World Wp SheetStore PeriodService Commit SheetMirror.
Local Open Scope string_scope.
Local Open Scope Z_scope.

(** ** The calculus *)
Section Swp.
Context `{Env, Deadlines}.

Definition swp {E A} (m : ST World E A) (d : DB) (s : SheetDB) (h : list Sent)
    (Q : Outcome E A -> DB -> SheetDB -> list Sent -> Prop) : Prop :=
  forall w, W_db w = d -> W_sheet w = s -> W_sent w = h ->
    Q (fst (m w)) (W_db (snd (m w))) (W_sheet (snd (m w))) (W_sent (snd (m w))).

(** No other session writes the mirror's tables. *)
Definition sheet_quiet : Prop := forall n s, env_sheet n s = s.
(** No call of the mirror's store fails or runs out of time. *)
Definition undisturbed : Prop := faultless /\ forall n, call_cut n = None.

Lemma swp_conseq {E A} (m : ST World E A) d s h (Q Q' : Outcome E A -> DB -> SheetDB -> list Sent -> Prop) :
  swp m d s h Q -> (forall o d' s' h', Q o d' s' h' -> Q' o d' s' h') -> swp m d s h Q'.
Proof. intros Hm HQ w H1 H2 H3. apply HQ, Hm; assumption. Qed.
Lemma swp_ret {E A} (a : A) d s h (Q : Outcome E A -> DB -> SheetDB -> list Sent -> Prop) :
  Q (Ok a) d s h -> swp (st_ret a) d s h Q.
Proof. intros HQ w <- <- <-. exact HQ. Qed.
Lemma swp_err {E A} (e : E) d s h (Q : Outcome E A -> DB -> SheetDB -> list Sent -> Prop) :
  Q (Err e) d s h -> swp (st_err e) d s h Q.
Proof. intros HQ w <- <- <-. exact HQ. Qed.
Lemma swp_bind {E A B} (m : ST World E A) (k : A -> ST World E B) d s h
    (Q : Outcome E B -> DB -> SheetDB -> list Sent -> Prop) :
  swp m d s h (fun o d1 s1 h1 => match o with
                                 | Ok a => swp (k a) d1 s1 h1 Q
                                 | Err e => Q (Err e) d1 s1 h1
                                 | Panic p => Q (Panic p) d1 s1 h1
                                 end) ->
  swp (st_bind m k) d s h Q.
Proof.
  intros Hm w H1 H2 H3. unfold st_bind. specialize (Hm w H1 H2 H3).
  destruct (m w) as [[a|e|p] w1]; cbn in *; [apply Hm; reflexivity | exact Hm | exact Hm].
Qed.
Lemma swp_try {E E' A} (m : ST World E A) d s h (Q : Outcome E' (E + A) -> DB -> SheetDB -> list Sent -> Prop) :
  swp m d s h (fun o d' s' h' => match o with
                                 | Ok a => Q (Ok (inr a)) d' s' h'
                                 | Err e => Q (Ok (inl e)) d' s' h'
                                 | Panic p => Q (Panic p) d' s' h'
                                 end) ->
  swp (st_try m) d s h Q.
Proof.
  intros Hm w H1 H2 H3. unfold st_try. specialize (Hm w H1 H2 H3). destruct (m w) as [[a|e|p] w1]; exact Hm.
Qed.
Lemma swp_maperr {E E' A} (f : E -> E') (m : ST World E A) d s h (Q : Outcome E' A -> DB -> SheetDB -> list Sent -> Prop) :
  swp m d s h (fun o d' s' h' => match o with
                                 | Ok a => Q (Ok a) d' s' h'
                                 | Err e => Q (Err (f e)) d' s' h'
                                 | Panic p => Q (Panic p) d' s' h'
                                 end) ->
  swp (st_maperr f m) d s h Q.
Proof.
  intros Hm w H1 H2 H3. unfold st_maperr. specialize (Hm w H1 H2 H3). destruct (m w) as [[a|e|p] w1]; exact Hm.
Qed.
Lemma swp_tick {E} d s h (Q : Outcome E nat -> DB -> SheetDB -> list Sent -> Prop) :
  (forall n, Q (Ok n) d s h) -> swp tick d s h Q.
Proof. intros HQ w <- <- <-. apply HQ. Qed.
Lemma swp_time_Now {E} d s h (Q : Outcome E Z -> DB -> SheetDB -> list Sent -> Prop) :
  (forall n, Q (Ok (env_now n)) d s h) -> swp time_Now d s h Q.
Proof. intros HQ w <- <- <-. apply HQ. Qed.
Lemma swp_NewV7 {E} d s h (Q : Outcome E uuid -> DB -> SheetDB -> list Sent -> Prop) :
  (forall n, Q (Ok (env_uuid n d)) d s h) -> swp NewV7 d s h Q.
Proof. intros HQ w <- <- <-. apply HQ. Qed.
Lemma swp_from_tenant cx tc d s h (Q : Outcome Error Tenant -> DB -> SheetDB -> list Sent -> Prop) :
  From_ cx = inr tc -> Q (Ok tc) d s h -> swp (from_tenant cx) d s h Q.
Proof. intros F HQ. unfold from_tenant. rewrite F. apply swp_ret, HQ. Qed.
Lemma swp_driver_call d s h (Q : Outcome Error unit -> DB -> SheetDB -> list Sent -> Prop) :
  Q (Ok tt) d s h -> (~ faultless -> forall e, Q (Err e) d s h) -> swp driver_call d s h Q.
Proof.
  intros HQ HF w <- <- <-. unfold driver_call, st_bind; cbn. destruct (env_fault (W_step w)) as [msg|] eqn:E; cbn.
  - apply HF. intros Hf. rewrite Hf in E. discriminate.
  - exact HQ.
Qed.
Lemma swp_sheet_call d s h (Q : Outcome Error unit -> DB -> SheetDB -> list Sent -> Prop) :
  Q (Ok tt) d s h -> (~ undisturbed -> forall e, Q (Err e) d s h) -> swp sheet_call d s h Q.
Proof.
  intros HQ HF. unfold sheet_call. apply swp_bind, swp_driver_call.
  - apply swp_bind, swp_tick. intros n. destruct (call_cut n) as [b|] eqn:E; [|apply swp_ret, HQ].
    apply swp_err, HF. intros [_ Hc]. rewrite Hc in E. discriminate.
  - intros Hf e. apply HF. intros [Hff _]. exact (Hf Hff).
Qed.
(** A statement: its constraint's error, or its result on the tables it wrote. *)
Lemma swp_exec_sheet {A} (stmt : SheetStmt A) d s h (Q : Outcome Error A -> DB -> SheetDB -> list Sent -> Prop) :
  match stmt d s with
  | inl (code, msg) => Q (Err (ESqlite code msg)) d s h
  | inr (s', a) => Q (Ok a) d s' h
  end ->
  (~ undisturbed -> forall e, Q (Err e) d s h) -> swp (exec_sheet stmt) d s h Q.
Proof.
  intros HQ HF. unfold exec_sheet. apply swp_bind, swp_sheet_call; [|exact HF].
  intros w <- <- <-. unfold st_bind; cbn. destruct (stmt (W_db w) (W_sheet w)) as [[c m]|[s' a]]; exact HQ.
Qed.
Lemma swp_query_sheet {A} (q : SheetDB -> A) d s h (Q : Outcome Error A -> DB -> SheetDB -> list Sent -> Prop) :
  Q (Ok (q s)) d s h -> (~ undisturbed -> forall e, Q (Err e) d s h) -> swp (query_sheet q) d s h Q.
Proof.
  intros HQ HF. unfold query_sheet. apply swp_bind, swp_sheet_call; [|exact HF].
  intros w <- <- <-. exact HQ.
Qed.
Lemma swp_others {E} d s h (Q : Outcome E unit -> DB -> SheetDB -> list Sent -> Prop) :
  (forall n, Q (Ok tt) (env_other n d) (env_sheet n s) h) -> swp others d s h Q.
Proof. intros HQ w <- <- <-. apply HQ. Qed.
Lemma swp_others_quiet {E} d s h (Q : Outcome E unit -> DB -> SheetDB -> list Sent -> Prop) :
  quiet -> sheet_quiet -> Q (Ok tt) d s h -> swp others d s h Q.
Proof. intros Hq Hs HQ. apply swp_others. intros n. rewrite Hq, Hs. exact HQ. Qed.
Lemma swp_or_rollback {E A} (m : ST World E A) d s h (Q : Outcome E A -> DB -> SheetDB -> list Sent -> Prop) :
  swp m d s h (fun o d' s' h' => match o with Ok a => Q (Ok a) d' s' h' | o => Q o d s h' end) ->
  swp (or_rollback m) d s h Q.
Proof.
  intros Hm w H1 H2 H3. specialize (Hm w H1 H2 H3). unfold or_rollback.
  destruct (m w) as [[a|e|p] w1]; cbn in *; rewrite ?H1, ?H2; exact Hm.
Qed.
(** A transaction of its own: what others committed first, then all of the body or nothing. *)
Lemma swp_in_tx {E A} inj b c (body : ST World E A) d s h (Q : Outcome E A -> DB -> SheetDB -> list Sent -> Prop) :
  (forall n, swp body (env_other n d) (env_sheet n s) h
     (fun o d' s' h' => match o with
                        | Ok a => Q (Ok a) d' s' h' /\ (~ undisturbed -> forall e, Q (Err e) (env_other n d) (env_sheet n s) h')
                        | o => Q o (env_other n d) (env_sheet n s) h'
                        end)) ->
  (~ undisturbed -> forall n e, Q (Err e) (env_other n d) (env_sheet n s) h) ->
  swp (in_tx inj b c body) d s h Q.
Proof.
  intros Hb HF. unfold in_tx. apply swp_bind, swp_others. intros n.
  apply swp_bind, swp_maperr, swp_driver_call; [|intros Hf e; apply HF; intros [Hff _]; exact (Hf Hff)].
  apply swp_or_rollback, swp_bind. eapply swp_conseq; [apply Hb|]. intros [a|e|p] d' s' h' HQ; [|exact HQ ..].
  destruct HQ as [HQ HE]. apply swp_bind, swp_maperr, swp_driver_call; [apply swp_ret, HQ|].
  intros Hf e. apply HE. intros [Hff _]. exact (Hf Hff).
Qed.
(** A statement method of the store, when no other session interferes. *)
Lemma swp_sheet_tx {A} cx (body : M A) d s h (Q : Outcome Error A -> DB -> SheetDB -> list Sent -> Prop) :
  cx_tx cx = true \/ quiet /\ sheet_quiet ->
  swp body d s h
    (fun o d' s' h' => match o with
                       | Ok a => Q (Ok a) d' s' h'
                       | o => Q o d' s' h' /\ Q o d s h'
                       end) ->
  (~ undisturbed -> forall e h', Q (Err e) d s h') ->
  swp (sheet_tx cx body) d s h Q.
Proof.
  intros Hc Hb HF. unfold sheet_tx. destruct (cx_tx cx) eqn:Ex.
  - eapply swp_conseq; [exact Hb|]. intros [a|e|p]; tauto.
  - destruct Hc as [|[Hq Hs]]; [discriminate|].
    apply swp_in_tx; [|intros Hu n e; rewrite Hq, Hs; auto].
    intros n. rewrite Hq, Hs. eapply swp_conseq; [exact Hb|]. intros [a|e|p] d' s' h' HQ; [split; auto | apply HQ ..].
Qed.
End Swp.

(** ** The mirror writes none of the ledger's tables *)
Section LedgerUntouched.
Context `{Env, Deadlines}.

Lemma reads_sheet_call : reads (fun _ _ => True) sheet_call.
Proof.
  unfold sheet_call. apply reads_any_bind; [intros w; pose proof (driver_call_same w); split; [assumption|]; destruct (fst _); exact I|].
  intros _. apply reads_any_bind; [intros w; split; [reflexivity | exact I]|].
  intros n. destruct (call_cut n); [apply reads_err | apply reads_ret]; auto.
Qed.
Lemma reads_exec_sheet {A} (stmt : SheetStmt A) : reads (fun _ _ => True) (exec_sheet stmt).
Proof.
  unfold exec_sheet. apply reads_any_bind; [apply reads_sheet_call|]. intros _ w. unfold st_bind; cbn.
  destruct (stmt (W_db w) (W_sheet w)) as [[c m]|[s a]]; cbn; auto.
Qed.
Lemma reads_query_sheet {A} (q : SheetDB -> A) : reads (fun _ _ => True) (query_sheet q).
Proof. unfold query_sheet. apply reads_any_bind; [apply reads_sheet_call|]. intros _ w. cbn. auto. Qed.
Lemma reads_any_maperr {E' A} (f : Error -> E') (m : M A) :
  reads (fun _ _ => True) m -> reads (fun _ _ => True) (st_maperr f m).
Proof. intros Hm w. specialize (Hm w). unfold st_maperr. destruct (m w) as [[a|e|p] w1]; exact Hm. Qed.
Lemma reads_sheet_tx {A} cx (body : M A) :
  cx_tx cx = true -> reads (fun _ _ => True) body -> reads (fun _ _ => True) (sheet_tx cx body).
Proof. intros Hx Hb. unfold sheet_tx. rewrite Hx. exact Hb. Qed.

(** A program that leaves the database alone, save for what others commit when it
    opens a transaction. *)
Lemma pres_of_reads {A} (R : DB -> DB -> Prop) `{!PreOrder R} (m : M A) :
  reads (fun _ _ => True) m -> preserves (on_db R) m.
Proof. intros Hm w. unfold on_db. destruct (Hm w) as [-> _]. reflexivity. Qed.
Lemma read_only_sheet_tx {A} cx (body : M A) : reads (fun _ _ => True) body -> read_only (sheet_tx cx body).
Proof.
  intros Hb R HR rely. unfold sheet_tx. destruct (cx_tx cx); [|apply pres_in_tx; [exact _ | exact rely|]];
    apply pres_of_reads; first [exact _ | exact Hb].
Qed.

Ltac reads_sheet :=
  repeat first
    [ apply reads_ret; exact (fun _ => I) | apply reads_err; exact (fun _ => I)
    | apply reads_exec_sheet | apply reads_query_sheet | apply reads_any_maperr
    | apply reads_any_bind; [| intros ?]
    | match goal with |- reads _ (match ?x with _ => _ end) => destruct x end
    | match goal with |- reads _ (if ?x then _ else _) => destruct x end ].

(** The bodies of the statements a mark and a kick make. *)
Lemma reads_LinkEnabled_body o p : reads (fun _ _ => True)
  (let* l := st_maperr (E' := Error) (EWrap "opensheetsync.sqlite.LinkEnabled") (query_sheet (fun s => link_of s o p)) in
   st_ret (match l with Some l => lk_Enabled l | None => false end)).
Proof. reads_sheet. Qed.
Lemma reads_mark_loop o p ts refs : reads (fun _ _ => True) (mark_loop o p ts refs).
Proof. induction refs as [|r refs IH]; cbn; reads_sheet. exact IH. Qed.
Lemma reads_mark_all_loop o p ts es total : reads (fun _ _ => True) (mark_all_loop o p ts es total).
Proof. revert total. induction es as [|e es IH]; intros total; cbn; reads_sheet. apply IH. Qed.

Lemma read_only_LinkEnabled cx o p : read_only (store_LinkEnabled cx o p).
Proof. apply read_only_sheet_tx, reads_LinkEnabled_body. Qed.
Lemma read_only_ListDirty cx o p c a n : read_only (store_ListDirty cx o p c a n).
Proof. apply read_only_sheet_tx. reads_sheet. Qed.
Lemma read_only_Claim cx o p r t a ttl : read_only (store_Claim cx o p r t a ttl).
Proof. apply read_only_sheet_tx. reads_sheet. Qed.
Lemma read_only_Settle cx o p r v t : read_only (store_Settle cx o p r v t).
Proof. apply read_only_sheet_tx. reads_sheet. Qed.
Lemma read_only_Release cx o p r t f : read_only (store_Release cx o p r t f).
Proof. apply read_only_sheet_tx. reads_sheet. Qed.
Lemma read_only_LinkByProject cx o p : read_only (store_LinkByProject cx o p).
Proof. apply read_only_sheet_tx. reads_sheet. Qed.
Lemma read_only_SaveOutcome cx o p oc : read_only (store_SaveOutcome cx o p oc).
Proof. apply read_only_sheet_tx. reads_sheet. Qed.
Lemma read_only_MarkAll cx o p a : read_only (store_MarkAll cx o p a).
Proof. apply read_only_sheet_tx, reads_mark_all_loop. Qed.
End LedgerUntouched.

(** ** The mirror keeps the services' port's laws *)

(** The queue writes none of the ledger's tables itself. *)
Class JobQueueLaws `{Env} `{JobQueue} := Submit_read cx p : read_only (Submit cx p).

Section MirrorLaws.
Context `{Env, Deadlines, JobQueue, !JobQueueLaws}.

Lemma read_only_submit cx detached projectID refs : read_only (submit cx detached projectID refs).
Proof.
  intros R HR rely. unfold submit. generalize 0.
  induction (Chunk maxRefsPerJob refs) as [|c cs IH]; intros sent; cbn [submit_chunks]; [apply preserves_ret, _|].
  apply preserves_bind; [exact _ | |].
  - unfold hasHeadroom. destruct detached; [apply preserves_ret, _|].
    apply preserves_bind; [exact _ | apply pres_tick, _ | intros; apply preserves_ret, _].
  - intros []; cbn [negb]; [|apply preserves_ret, _].
    apply preserves_bind; [exact _ | apply preserves_try, Submit_read; assumption|]. intros [e|u]; apply IH.
Qed.

Lemma mirror_Mark_in_tx cx refs : cx_tx cx = true -> reads (fun _ _ => True) (mirror_Mark cx refs).
Proof.
  intros Hx. unfold mirror_Mark. destruct refs as [|r refs]; [apply reads_ret; auto|].
  apply reads_any_bind; [apply reads_any_tenant|]. intros tc.
  apply reads_any_bind; [apply reads_sheet_tx; [exact Hx | apply reads_LinkEnabled_body]|].
  intros []; cbn [negb]; [|apply reads_ret; auto].
  apply reads_any_bind; [apply reads_time_Now|]. intros now.
  apply reads_any_bind; [|intros _; apply reads_sheet_tx; [exact Hx | apply reads_mark_loop]].
  induction (LockOrder _) as [|x l IH]; cbn [cascade_loop]; [apply reads_ret; auto|].
  destruct (negb _); [exact IH|]. apply reads_any_bind; [|intros _; exact IH].
  unfold store_MarkReferencing. destruct (names_ref x); [|apply reads_ret; auto].
  apply reads_sheet_tx; [exact Hx|]. apply reads_any_maperr, reads_exec_sheet.
Qed.
Lemma mirror_Kick_read cx refs : read_only (mirror_Kick cx refs).
Proof.
  intros R HR rely. unfold mirror_Kick. destruct refs as [|r refs]; [apply preserves_ret, _|].
  destruct (From_ cx) as [e|tc]; [apply preserves_ret, _|].
  apply preserves_bind; [exact _ | apply preserves_try, read_only_LinkEnabled; assumption|].
  intros [e|[]]; [apply preserves_ret, _ | | apply preserves_ret, _].
  apply preserves_bind; [exact _ | apply read_only_submit; assumption | intros; apply preserves_ret, _].
Qed.
Lemma mirrorPort_laws : @MirrorLaws _ mirrorPort.
Proof.
  constructor.
  - intros cx refs Hx. apply mirror_Mark_in_tx, Hx.
  - intros cx refs R HR rely w. apply mirror_Kick_read; assumption.
Qed.
End MirrorLaws.
