(* ===== verification/SheetServer.v ===== *)
(** * What opensheet promises the mirror

    The documented behaviour of the opensheet server towards the calls the mirror
    makes, as an interface over what its sheets show; what a push then achieves; and
    a small server that keeps the promises, for the witnesses. *)
From Stdlib Require Import ZArith Lia String List.
From stdpp Require Import base gmap list strings.
From S2P Require Import Prelude GoStrings Errors Tenant Outbox Sheet World Wp SheetStore Commit SheetMirror SheetSync SheetTheory.
Local Open Scope string_scope.
Local Open Scope Z_scope.

(** The row a sheet holds under an id, after the calls sent so far; a deleted row
    may stay with its [deleted_at] set. *)
Class Shows := shows : list Sent -> string -> string -> option Row.

Definition accepted (r : HttpResult) : bool :=
  match r with Answer status _ _ => negb (399 <? status) | NoAnswer _ => false end.
Definition refused (r : HttpResult) : bool := match r with Answer status _ _ => 399 <? status | NoAnswer _ => false end.
(** 404 with the code of a missing row. *)
Definition says_missing (r : HttpResult) : bool :=
  match r with Answer status code _ => (status =? 404) && RowMissing code | NoAnswer _ => false end.
Definition gone (o : option Row) : Prop :=
  match o with None => True | Some row => exists v, row !! deletedAtColumn = Some v /\ v <> "" end.

(** The row a call is about. *)
Definition target (c : SheetCall) : option (string * string) :=
  match c with
  | PatchRow sheet id _ | DeleteRow sheet id => Some (sheet, id)
  | CreateRow sheet row _ => option_map (pair sheet) (row !! "id")
  end.

Class ServerLaws `{SheetServer, Shows} := {
  srv_patch n h sheet id row : let c := PatchRow sheet id row in let r := serve n h c in
    accepted r = true -> exists old, shows h sheet id = Some old /\ shows (Called c r :: h) sheet id = Some (row ∪ old);
  srv_create n h sheet id row key : let c := CreateRow sheet row key in let r := serve n h c in
    row !! "id" = Some id -> accepted r = true -> shows (Called c r :: h) sheet id = Some row;
  srv_delete n h sheet id : let c := DeleteRow sheet id in let r := serve n h c in
    accepted r = true -> gone (shows (Called c r :: h) sheet id);
  srv_missing n h c sheet id : let r := serve n h c in
    (c = DeleteRow sheet id \/ exists row, c = PatchRow sheet id row) ->
    says_missing r = true -> shows h sheet id = None;
  srv_refused n h c sheet id : let r := serve n h c in
    refused r = true -> shows (Called c r :: h) sheet id = shows h sheet id;
  srv_apart n h c sheet id : target c <> Some (sheet, id) -> shows (Called c (serve n h c) :: h) sheet id = shows h sheet id;
  srv_other x h sheet id : (forall c r, x <> Called c r) -> shows (x :: h) sheet id = shows h sheet id
}.
(** The other rows stay as they were. *)
Definition apart_from `{Shows} (sheet id : string) (h h' : list Sent) : Prop :=
  forall sheet' id', (sheet', id') <> (sheet, id) -> shows h' sheet' id' = shows h sheet' id'.

(** The sheet's row carries every column of [row] but the id, which addresses it. *)
Definition agrees (row shown : Row) : Prop := forall c v, c <> "id" -> row !! c = Some v -> shown !! c = Some v.

Section Push.
Context `{Env, Deadlines, SheetServer, Shows, !ServerLaws}.

Lemma swp_client_call c d s h (Q : Outcome Error unit -> DB -> SheetDB -> list Sent -> Prop) :
  (forall n, let r := serve n h c in
     match do_result (call_name c) r with
     | Some e => Q (Err e) d s (Called c r :: h)
     | None => Q (Ok tt) d s (Called c r :: h)
     end) -> swp (client_call c) d s h Q.
Proof.
  intros HQ w <- <- <-. unfold client_call, st_bind; cbn. specialize (HQ (W_step w)). cbv zeta in HQ.
  destruct (do_result _ _) as [e|]; exact HQ.
Qed.

Lemma transport_missing name t : rowMissing (EWrap name (transport_error t)) = false.
Proof. destruct t; reflexivity. Qed.
Lemma do_result_missing name r e : do_result name r = Some e -> rowMissing e = true -> says_missing r = true /\ refused r = true.
Proof.
  destruct r as [t|status code msg]; cbn [do_result]; [intros [= <-]; rewrite transport_missing; discriminate|].
  destruct (399 <? status) eqn:E; [|discriminate]. intros [= <-]. unfold says_missing, refused, fromResponse.
  destruct (status =? 404) eqn:E4; [cbn; auto|].
  repeat match goal with |- context [if ?b then _ else _] => destruct b end; discriminate.
Qed.
Lemma do_result_none name r : do_result name r = None -> accepted r = true.
Proof. destruct r as [t|status code msg]; cbn; [discriminate|]. destruct (399 <? status); [discriminate | reflexivity]. Qed.

Lemma agrees_patched row old : agrees row (delete "id" row ∪ old).
Proof.
  intros c v Hc Hv. apply lookup_union_Some_l. rewrite lookup_delete_ne; [exact Hv | congruence].
Qed.

(** A removal that succeeds leaves no live row. *)
Lemma swp_remove sheet id d s h (Q : Outcome Error unit -> DB -> SheetDB -> list Sent -> Prop) :
  (forall h', gone (shows h' sheet id) -> Q (Ok tt) d s h') -> (forall e h', Q (Err e) d s h') ->
  swp (remove sheet id) d s h Q.
Proof.
  intros HQ HE. unfold remove. apply swp_bind, swp_try, swp_client_call. intros n r.
  destruct (do_result _ r) as [e|] eqn:E; [|apply swp_ret, HQ, srv_delete, (do_result_none _ _ E)].
  destruct (rowMissing e) eqn:M; [|apply swp_err, HE]. apply swp_ret, HQ.
  destruct (do_result_missing _ _ _ E M) as [M1 M2]. unfold r in *.
  rewrite srv_refused by exact M2. rewrite (srv_missing n h (DeleteRow sheet id) sheet id); [exact I | auto | exact M1].
Qed.

(** An upsert that succeeds leaves the row on the sheet, unless opensheet said both
    that its id was taken and that there is no such row. *)
Lemma swp_upsert sheet id version row d s h (Q : Outcome Error unit -> DB -> SheetDB -> list Sent -> Prop) :
  row !! "id" = Some id ->
  (forall h' shown, shows h' sheet id = Some shown -> agrees row shown -> Q (Ok tt) d s h') ->
  (forall c r h', rowTaken c = true -> do_result "POST" r = Some c -> In (Called (CreateRow sheet row (id ++ ":" ++ FormatInt version)) r) h' ->
     shows h' sheet id = None -> Q (Ok tt) d s h') ->
  (forall e h', Q (Err e) d s h') ->
  swp (upsert sheet id version row) d s h Q.
Proof.
  intros Hid HQ HT HE. unfold upsert.
  assert (HP : forall n h, let c := PatchRow sheet id (delete "id" row) in let r := serve n h c in
            do_result "PATCH" r = None -> Q (Ok tt) d s (Called c r :: h)).
  { intros n h0 c r E. destruct (srv_patch n h0 sheet id (delete "id" row) (do_result_none _ _ E)) as (old & _ & Es).
    eapply HQ; [exact Es | apply agrees_patched]. }
  apply swp_bind, swp_try, swp_client_call. intros n r.
  destruct (do_result _ r) as [e|] eqn:E; [|apply swp_ret, (HP n h E)].
  destruct (rowMissing e) eqn:M; cbn [negb]; [|apply swp_err, HE].
  apply swp_bind, swp_try, swp_client_call. intros n2 r2. set (h2 := Called _ r2 :: _).
  destruct (do_result _ r2) as [e2|] eqn:E2.
  - destruct (rowTaken e2) eqn:T2; cbn [negb]; [|apply swp_err, HE].
    apply swp_bind, swp_try, swp_client_call. intros n3 r3.
    destruct (do_result _ r3) as [e3|] eqn:E3; [|apply swp_ret, (HP n3 h2 E3)].
    destruct (rowMissing e3) eqn:M3; [|apply swp_err, HE]. apply swp_ret.
    destruct (do_result_missing _ _ _ E3 M3) as [M1 M2].
    eapply HT; [exact T2 | exact E2 | right; left; reflexivity|]. unfold r3.
    rewrite srv_refused by exact M2. eapply srv_missing; [right; eauto | exact M1].
  - apply swp_ret. eapply HQ; [apply (srv_create n2 _ sheet id row _ Hid (do_result_none _ _ E2))|].
    intros c v _ Hv. exact Hv.
Qed.
End Push.

(** A server that answers at once: a row it has is patched or deleted, one it lacks
    is missing and can be created. *)
Class PromptServer `{SheetServer, Shows} := {
  pr_known n h c sheet id : (c = DeleteRow sheet id \/ exists row, c = PatchRow sheet id row) ->
    if shows h sheet id then accepted (serve n h c) = true else says_missing (serve n h c) = true;
  pr_create n h sheet id row key : row !! "id" = Some id -> shows h sheet id = None ->
    accepted (serve n h (CreateRow sheet row key)) = true
}.

Section Prompt.
Context `{Env, Deadlines, SheetServer, Shows, !ServerLaws, !PromptServer}.

Lemma accepted_result name r : accepted r = true -> do_result name r = None.
Proof. destruct r as [t|status code msg]; cbn; [discriminate|]. destruct (399 <? status); [discriminate | reflexivity]. Qed.
Lemma missing_result name r : says_missing r = true -> refused r = true
  /\ exists e, do_result name r = Some e /\ rowMissing e = true.
Proof.
  destruct r as [t|status code msg]; cbn; [discriminate|]. intros E. apply andb_prop in E as [E1 E2].
  apply Z.eqb_eq in E1. subst status. cbn. split; [reflexivity|]. eexists. split; [reflexivity|].
  unfold rowMissing, as_not_found, AsType. cbn. exact E2.
Qed.

Lemma apart_call n h c sheet id : target c = Some (sheet, id) -> apart_from sheet id h (Called c (serve n h c) :: h).
Proof. intros T s' i' N. apply srv_apart. rewrite T. congruence. Qed.
Lemma apart_trans sheet id h1 h2 h3 : apart_from sheet id h1 h2 -> apart_from sheet id h2 h3 -> apart_from sheet id h1 h3.
Proof. intros A1 A2 s' i' N. rewrite A2, A1; auto. Qed.

(** Against such a server an upsert leaves the row on the sheet. *)
Lemma swp_upsert_prompt sheet id version row d s h (Q : Outcome Error unit -> DB -> SheetDB -> list Sent -> Prop) :
  row !! "id" = Some id ->
  (forall h' shown, apart_from sheet id h h' -> shows h' sheet id = Some shown -> agrees row shown -> Q (Ok tt) d s h') ->
  swp (upsert sheet id version row) d s h Q.
Proof.
  intros Hid HQ. unfold upsert. apply swp_bind, swp_try, swp_client_call. intros n r.
  pose proof (pr_known n h (PatchRow sheet id (delete "id" row)) sheet id (or_intror (ex_intro _ _ eq_refl))) as K.
  fold r in K. destruct (shows h sheet id) as [old|] eqn:Eold.
  - rewrite (accepted_result _ _ K). apply swp_ret.
    destruct (srv_patch n h sheet id (delete "id" row) K) as (o & _ & Es).
    eapply HQ; [apply apart_call; reflexivity | exact Es | apply agrees_patched].
  - destruct (missing_result (call_name (PatchRow sheet id (delete "id" row))) _ K) as (R & e & -> & Me).
    rewrite Me. cbn [negb]. apply swp_bind, swp_try, swp_client_call. intros n2 r2.
    assert (A : accepted r2 = true) by (apply (pr_create n2 _ sheet id row _ Hid); unfold r; rewrite srv_refused by exact R; exact Eold).
    rewrite (accepted_result _ _ A). apply swp_ret.
    eapply HQ; [|apply (srv_create n2 _ sheet id row _ Hid A) | intros c v _ Hv; exact Hv].
    eapply apart_trans; apply apart_call; [reflexivity | cbn; rewrite Hid; reflexivity].
Qed.
Lemma swp_remove_prompt sheet id d s h (Q : Outcome Error unit -> DB -> SheetDB -> list Sent -> Prop) :
  (forall h', apart_from sheet id h h' -> gone (shows h' sheet id) -> Q (Ok tt) d s h') -> swp (remove sheet id) d s h Q.
Proof.
  intros HQ. unfold remove. apply swp_bind, swp_try, swp_client_call. intros n r.
  pose proof (pr_known n h (DeleteRow sheet id) sheet id (or_introl eq_refl)) as K. fold r in K.
  destruct (shows h sheet id) as [old|] eqn:Eold.
  - rewrite (accepted_result _ _ K). apply swp_ret, HQ; [apply apart_call; reflexivity | apply srv_delete, K].
  - destruct (missing_result (call_name (DeleteRow sheet id)) _ K) as (R & e & -> & Me). rewrite Me.
    apply swp_ret, HQ; [apply apart_call; reflexivity|]. unfold r. rewrite srv_refused by exact R. rewrite Eold. exact I.
Qed.
End Prompt.

(** ** A small server: its sheets are what the accepted calls made of them *)
Definition apply_call (c : SheetCall) (s : gmap (string * string) Row) : gmap (string * string) Row :=
  match c with
  | PatchRow sheet id row => match s !! (sheet, id) with Some old => <[(sheet, id) := row ∪ old]> s | None => s end
  | CreateRow sheet row _ => match row !! "id" with Some id => <[(sheet, id) := row]> s | None => s end
  | DeleteRow sheet id =>
    match s !! (sheet, id) with Some old => <[(sheet, id) := <[deletedAtColumn := "now"]> old]> s | None => s end
  end.
Fixpoint replay (h : list Sent) : gmap (string * string) Row :=
  match h with
  | [] => ∅
  | Called c r :: h => if accepted r then apply_call c (replay h) else replay h
  | SubmitJob _ :: h | Posted _ _ :: h | Mailed _ _ :: h => replay h
  end.
Definition missing_answer : HttpResult := Answer 404 "SHT013" "row not found".
Definition demo_server : SheetServer := fun _ h c =>
  match c with
  | PatchRow sheet id _ | DeleteRow sheet id =>
    match replay h !! (sheet, id) with Some _ => Answer 200 "" "" | None => missing_answer end
  | CreateRow sheet row _ =>
    match row !! "id" with
    | None => Answer 400 "SHT016" "id required"
    | Some id => match replay h !! (sheet, id) with None => Answer 201 "" "" | Some _ => Answer 409 "SHT012" "id taken" end
    end
  end.
Definition demo_shows : Shows := fun h sheet id => replay h !! (sheet, id).

Lemma demo_server_laws : @ServerLaws demo_server demo_shows.
Proof.
  constructor; unfold serve, shows, demo_shows, demo_server; cbv zeta.
  - intros _ h sheet id row. destruct (replay h !! (sheet, id)) as [old|] eqn:E; [|discriminate].
    intros _. exists old. split; [reflexivity|]. cbn. rewrite E. apply lookup_insert_eq.
  - intros _ h sheet id row key Hid. rewrite Hid. destruct (replay h !! (sheet, id)) eqn:E; [discriminate|].
    intros _. cbn. rewrite Hid. apply lookup_insert_eq.
  - intros _ h sheet id. destruct (replay h !! (sheet, id)) as [old|] eqn:E; [|discriminate].
    intros _. cbn. rewrite E, lookup_insert_eq. exists "now". split; [apply lookup_insert_eq | discriminate].
  - intros _ h c sheet id [->|[row ->]]; destruct (replay h !! (sheet, id)); cbn; intros; congruence.
  - intros _ h c sheet id Hr. cbn [replay]. destruct (accepted _) eqn:A; [|reflexivity].
    exfalso. revert Hr A. unfold refused, accepted. destruct (match c with PatchRow _ _ _ => _ | _ => _ end); [discriminate|].
    destruct (399 <? status); discriminate.
  - intros _ h c sheet id HT. cbn [replay]. destruct (accepted _) eqn:A; [|reflexivity]. clear A.
    destruct c as [s i row|s row key|s i]; cbn in *.
    + destruct (replay h !! (s, i)) as [old|]; [|reflexivity]. apply lookup_insert_ne. congruence.
    + destruct (row !! "id") as [i|]; [|reflexivity]. apply lookup_insert_ne. cbn in HT. congruence.
    + destruct (replay h !! (s, i)) as [old|]; [|reflexivity]. apply lookup_insert_ne. congruence.
  - intros [c r|p|p r|m f] h sheet id N; [destruct (N c r eq_refl) | reflexivity ..].
Qed.
Lemma demo_server_prompt : @PromptServer demo_server demo_shows.
Proof.
  constructor; unfold serve, shows, demo_shows, demo_server.
  - intros _ h c sheet id [->|[row ->]]; destruct (replay h !! (sheet, id)); reflexivity.
  - intros _ h sheet id row key -> ->. reflexivity.
Qed.
