(* ===== verification/SheetJobs.v ===== *)
(** * The job submitter ([internal/boot/submit_yasaku.go]) as the mirror's queue

    With the queue on, a sync job is published; with it off, its handler runs
    inline after the commit. Either way a kick writes none of the ledger's tables,
    so the services' theorems hold with the mirror that boot wires. *)
From Stdlib Require Import ZArith Lia String List.
From stdpp Require Import base gmap list strings.
From S2P Require Import Prelude GoStrings Errors Sealer Tenant Outbox Sheet World SheetStore PeriodService Commit SheetMirror SheetSync.
From S2P Require Import Civil Money Ledger Period Wallet Category Transaction LedgerService PeriodStore WalletService CategoryService TxStore TxService SheetService.
From S2P Require Import SheetSync SheetTheory.
Local Open Scope string_scope.

Definition SubmitInUnitOfWorkError : Error :=
  EText "boot: submit opensheet.sync.v1 inside a unit of work; submit after the commit".

(** [queue.Client.Submit]. *)
Definition published_jobs `{Env} : JobQueue := fun cx p =>
  if cx_tx cx then st_err SubmitInUnitOfWorkError else
  st_maperr (EWrap "queue: publish") driver_call ;;; send (SubmitJob p).

(** [consumerContext]: the tenant alone. *)
Definition consumerContext (cx : Ctx) : Ctx :=
  mkCtx (match From_ cx with inr tc => Some tc | inl _ => None end) None false.
(** The handler as boot binds it with the queue off: it never submits a follow-up. *)
Definition inline_handle `{Env, Deadlines, SheetServer, Endpoint, Sealer, Source} (cx : Ctx) (p : SyncV1) : M Verdict :=
  let jobs : JobQueue := fun _ _ => st_ret tt in
  let off : Queued := false in
  handle cx p.
(** [runInline] at the first depth: a failed or panicking handler of a job whose
    reports are suppressed is logged, and the submit succeeds. *)
Definition inline_jobs `{Env, Deadlines, SheetServer, Endpoint, Sealer, Source} : JobQueue := fun cx p =>
  if cx_tx cx then st_err SubmitInUnitOfWorkError else
  fun w => (Ok tt, snd (inline_handle (consumerContext cx) p w)).

(** ** Their laws *)
Section Laws.
Context `{Env}.

Lemma published_jobs_laws : @JobQueueLaws _ published_jobs.
Proof.
  intros cx p. unfold Submit, published_jobs. destruct (cx_tx cx); [apply read_only_err|].
  apply read_only_bind.
  - apply read_only_same. intros w. unfold st_maperr. pose proof (driver_call_same w) as D.
    destruct (driver_call w) as [[a|e|q] w1]; exact D.
  - intros _. apply read_only_same. reflexivity.
Qed.

End Laws.

(** A source only reads. *)
Class SourceLaws `{Env} `{Source} := {
  src_Transaction_read cx id : read_only (src_Transaction cx id);
  src_Wallet_read cx id : read_only (src_Wallet cx id);
  src_Category_read cx id : read_only (src_Category cx id)
}.

Section SyncReads.
Context `{Env, Deadlines, JobQueue, !JobQueueLaws, Queued, SheetServer, Endpoint, Sealer, Source, !SourceLaws}.

Lemma read_only_client c : read_only (client_call c).
Proof. apply read_only_same. intros w. unfold client_call, st_bind; cbn. destruct (do_result _ _); reflexivity. Qed.
Lemma read_only_now : read_only time_Now.
Proof. apply read_only_same. reflexivity. Qed.
Lemma read_only_uuid : read_only NewV7.
Proof. apply read_only_same. reflexivity. Qed.
Lemma read_only_remove sheet id : read_only (remove sheet id).
Proof. unfold remove. ro. apply read_only_client. Qed.
Lemma read_only_upsert sheet id v row : read_only (upsert sheet id v row).
Proof. unfold upsert. cbv zeta. ro; apply read_only_client. Qed.
Lemma read_only_push cx l st : read_only (push cx l st).
Proof.
  unfold push, rowOf. cbv zeta. ro;
    first [apply read_only_remove | apply read_only_upsert | apply src_Transaction_read | apply src_Wallet_read
          | apply src_Category_read].
Qed.
Lemma read_only_release cx l st t e : read_only (release cx l st t e).
Proof. unfold release. ro; [apply read_only_now | apply read_only_Release]. Qed.
Lemma read_only_row_passes n cx l r pushed : read_only (row_passes n cx l r pushed).
Proof.
  revert pushed. induction n as [|n IH]; intros pushed; cbn [row_passes]; [apply read_only_ret|]. ro;
    first [apply read_only_uuid | apply read_only_now | apply read_only_Claim | apply read_only_push
          | apply read_only_release | apply read_only_Settle | apply IH].
Qed.
Lemma read_only_outcome cx l msg : read_only (save_outcome cx l msg).
Proof. unfold save_outcome. ro; [apply read_only_now | apply read_only_SaveOutcome]. Qed.
Lemma read_only_sync_loop cx l refs pushed tried : read_only (sync_loop cx l refs pushed tried).
Proof.
  revert pushed tried. induction refs as [|r refs IH]; intros pushed tried; cbn [sync_loop]; [apply read_only_ret|].
  ro; [apply read_only_same; reflexivity | apply read_only_row_passes | apply IH | apply IH].
Qed.
Lemma read_only_followUp cx l : read_only (followUp cx l).
Proof. unfold followUp. ro; [apply read_only_now | apply read_only_ListDirty | apply Submit_read]. Qed.
Lemma read_only_Sync cx projectID refs : read_only (Sync cx projectID refs).
Proof.
  assert (Hr : forall l e, read_only (refuse cx l e))
    by (intros l e; unfold refuse; ro; apply read_only_outcome).
  unfold Sync, sync_rows. cbv zeta. ro;
    first [apply Hr | apply read_only_LinkByProject | apply read_only_outcome | apply read_only_sync_loop | apply read_only_followUp].
Qed.
Lemma read_only_handle cx p : read_only (handle cx p).
Proof. unfold handle. ro. apply read_only_Sync. Qed.
End SyncReads.

Section InlineLaws.
Context `{Env, Deadlines, SheetServer, Endpoint, Sealer, Source, !SourceLaws}.
Lemma inline_jobs_laws : @JobQueueLaws _ inline_jobs.
Proof.
  intros cx p. unfold Submit, inline_jobs. destruct (cx_tx cx); [apply read_only_err|].
  assert (L : @JobQueueLaws _ (fun _ _ => st_ret tt)) by (intros ? ?; apply read_only_ret).
  intros R HR rely w. exact (@read_only_handle _ _ _ L _ _ _ _ _ _ _ _ R HR rely w).
Qed.
End InlineLaws.

(** The domain services as the source. *)
Section SourceLaws.
Context `{Env, TZDatabase, Mirror, Uow, WalletReader, CategoryReader, PeriodResolver, !WalletReaderLaws}.

Lemma wallet_ByID_read_only cx id : read_only (wallet_ByID cx id).
Proof. intros R HR rely. unfold wallet_ByID, wallet_store_ByID. pres_go rely. Qed.
Lemma category_ByID_read_only cx id : read_only (category_ByID cx id).
Proof. intros R HR rely. unfold category_ByID, category_store_ByID. pres_go rely. Qed.
Lemma tx_ByID_read_only cx id : read_only (tx_ByID cx id).
Proof. intros R HR rely. unfold tx_ByID, tx_load, tx_store_ByID. pres_go rely. Qed.
Lemma period_ByID_read_only cx id : read_only (period_ByID cx id).
Proof. intros R HR rely. unfold period_ByID, scoped, scopedRow, period_store_ByID. pres_go rely. Qed.
Lemma Balance_read_only cx id : read_only (Balance cx id).
Proof. intros R HR rely. unfold Balance, tx_store_Balance, tx_wallet, port_error. pres_go rely. apply WalletReader_read_only; assumption. Qed.
Lemma ledger_Location_read_only cx o p : read_only (ledger_Location cx o p).
Proof. intros R HR rely. unfold ledger_Location, effective, ledger_ByProject. pres_go rely. Qed.

Lemma opensheetSource_laws : @SourceLaws _ opensheetSource.
Proof.
  constructor; intros cx id; cbn.
  - unfold source_Transaction, source_facts, source_walletName. ro;
      first [apply tx_ByID_read_only | apply wallet_ByID_read_only | apply category_ByID_read_only
            | apply period_ByID_read_only | apply ledger_Location_read_only].
  - unfold source_Wallet. ro; first [apply wallet_ByID_read_only | apply Balance_read_only].
  - unfold source_Category. ro. apply category_ByID_read_only.
Qed.
End SourceLaws.
