(* ===== verification/SheetProtocol.v ===== *)
(** * What marks and a backfill do to a state row

    Read off the statements of [SheetStore]: a batch of marks moves a row's version
    on, makes it due and leaves its lease alone; a backfill marks every entity the
    database holds. [SheetSteps] interleaves them with the jobs. *)
From Stdlib Require Import ZArith Lia String List.
From stdpp Require Import base gmap list strings.
From S2P Require Import Prelude GoStrings Errors Outbox Sheet World SheetStore.
Local Open Scope string_scope.
Local Open Scope Z_scope.

(** ** What a batch of marks does to a row *)

(** The row after at least one mark. *)
Definition marked_from (old : option SyncRow) (r : SyncRow) : Prop :=
  match old with
  | Some o =>
    sr_Version o < sr_Version r /\ sr_SyncedVersion r = sr_SyncedVersion o /\ sr_ProjectID r = sr_ProjectID o
    /\ sr_LeaseToken r = sr_LeaseToken o /\ sr_LeasedUntil r = sr_LeasedUntil o /\ row_key r = row_key o
    /\ sr_Attempts r = 0 /\ sr_RetryAfter r = None /\ (sr_Deleted o = true -> sr_Deleted r = true)
  | None => 0 < sr_Version r /\ sr_SyncedVersion r = 0 /\ sr_LeaseToken r = None /\ sr_LeasedUntil r = None
            /\ sr_Attempts r = 0 /\ sr_RetryAfter r = None
  end.
(** What a batch [rs] of rows to mark leaves of the row under [key]. *)
Definition marked_by (rs : list SyncRow) (key : SyncKey) (old : option SyncRow) (r : SyncRow) : Prop :=
  marked_from old r
  /\ (old = None -> row_key r = key /\ exists n, In n rs /\ row_key n = key /\ sr_ProjectID r = sr_ProjectID n)
  /\ (exists n, In n rs /\ row_key n = key /\ ParseEntity (sr_Entity n) <> None)
  /\ (sr_Deleted r = true -> (exists o, old = Some o /\ sr_Deleted o = true)
        \/ exists n, In n rs /\ row_key n = key /\ sr_Deleted n = true).
Definition marks (s : SheetDB) (rs : list SyncRow) (s' : SheetDB) : Prop :=
  sd_links s' = sd_links s /\
  forall key,
    (~ In key (map row_key rs) -> sd_state s' !! key = sd_state s !! key) /\
    (In key (map row_key rs) -> exists r, sd_state s' !! key = Some r /\ marked_by rs key (sd_state s !! key) r).

Definition fresh_mark (r : SyncRow) : Prop :=
  sr_Version r = 1 /\ sr_SyncedVersion r = 0 /\ sr_LeaseToken r = None /\ sr_LeasedUntil r = None
  /\ sr_Attempts r = 0 /\ sr_RetryAfter r = None.
Lemma fresh_new_mark o p e id d ts : fresh_mark (new_mark o p e id d ts).
Proof. repeat split. Qed.

Lemma markSets_from ts d o : marked_from (Some o) (markSets ts d o).
Proof. cbn. repeat split; try lia. intros ->. destruct d; reflexivity. Qed.
Lemma marked_from_trans o r r' : marked_from o r -> marked_from (Some r) r' -> marked_from o r'.
Proof.
  destruct o as [o|]; cbn.
  - intros (A1 & A2 & A3 & A4 & A5 & A6 & A7 & A8 & A9) (B1 & B2 & B3 & B4 & B5 & B6 & B7 & B8 & B9).
    repeat split; try congruence; try lia. auto.
  - intros (A1 & A2 & A3 & A4 & A5 & A6) (B1 & B2 & B3 & B4 & B5 & B6 & B7 & B8 & B9).
    repeat split; try congruence; lia.
Qed.

(** One marked row. *)
Lemma mark_row_inv db s r s' : fresh_mark r -> mark_row db s r = inr s' ->
  ParseEntity (sr_Entity r) <> None /\
  exists r', s' = set_state_rows (<[row_key r := r']> (sd_state s)) s /\ marked_from (sd_state s !! row_key r) r'
    /\ match sd_state s !! row_key r with
       | Some old => r' = markSets (sr_UpdatedAt r) (sr_Deleted r) old
       | None => r' = r
       end.
Proof.
  unfold mark_row. intros (F1 & F2 & F3 & F4 & F5 & F6). destruct (ParseEntity (sr_Entity r)) as [e|]; [|discriminate].
  destruct (sd_state s !! row_key r) as [old|] eqn:E.
  - intros [= <-]. split; [discriminate|]. eexists. split; [reflexivity|]. split; [apply markSets_from | reflexivity].
  - destruct (link_of _ _ _); [|discriminate]. destruct (bool_decide _); [|discriminate].
    intros [= <-]. split; [discriminate|]. exists r. split; [reflexivity|]. split; [|reflexivity].
    cbn. rewrite F1, F2, F3, F4, F5, F6. repeat split; lia.
Qed.
Lemma row_key_markSets ts d r : row_key (markSets ts d r) = row_key r.
Proof. reflexivity. Qed.

(** A row marked once, then by the rest of the batch. *)
Lemma marked_by_cons r rs old r1 r' :
  fresh_mark r -> ParseEntity (sr_Entity r) <> None -> marked_from old r1 ->
  match old with Some o => r1 = markSets (sr_UpdatedAt r) (sr_Deleted r) o | None => r1 = r end ->
  r' = r1 \/ marked_by rs (row_key r) (Some r1) r' -> marked_by (r :: rs) (row_key r) old r'.
Proof.
  intros Hf Hp M1 M2 Hr'.
  assert (D1 : sr_Deleted r1 = true -> (exists o, old = Some o /\ sr_Deleted o = true) \/ sr_Deleted r = true).
  { destruct old as [o|]; subst r1; cbn; [|auto]. destruct (sr_Deleted r) eqn:D; [auto|]. intros Ho. left. eauto. }
  assert (K1 : old = None -> row_key r1 = row_key r /\ sr_ProjectID r1 = sr_ProjectID r).
  { intros ->. subst r1. auto. }
  destruct Hr' as [->|(M' & _ & _ & D')].
  - split; [exact M1|]. split; [intros EN; destruct (K1 EN); split; [|exists r]; cbn; auto|].
    split; [exists r; cbn; auto|]. intros D. destruct (D1 D) as [?|?]; [auto | right; exists r; cbn; auto].
  - split; [eapply marked_from_trans; eassumption|]. destruct M' as (_ & _ & B3 & _ & _ & B6 & _).
    split; [intros EN; destruct (K1 EN); split; [|exists r]; cbn; intuition congruence|].
    split; [exists r; cbn; auto|]. intros D.
    destruct (D' D) as [(o & [= <-] & Do)|(n & I & K & Dn)]; [|right; exists n; cbn; auto].
    destruct (D1 Do) as [?|?]; [auto | right; exists r; cbn; auto].
Qed.
Lemma marked_by_weaken r rs key old r' : marked_by rs key old r' -> marked_by (r :: rs) key old r'.
Proof.
  intros (H1 & H2 & (n3 & H3) & H4). split; [exact H1|]. split; [|split; [exists n3; cbn; tauto|]].
  - intros EN. destruct (H2 EN) as (K & n & Hn). split; [exact K|]. exists n. cbn. tauto.
  - intros D. destruct (H4 D) as [?|(n & Hn)]; [auto|]. right. exists n. cbn. tauto.
Qed.

Lemma mark_rows_marks db rs s s' : Forall fresh_mark rs -> mark_rows db s rs = inr s' -> marks s rs s'.
Proof.
  revert s. induction rs as [|r rs IH]; intros s HF; cbn [mark_rows].
  - intros [= <-]. split; [reflexivity|]. intros key. split; [auto | intros []].
  - inversion HF as [|? ? Hr Hrs]; subst. destruct (mark_row db s r) as [e|s1] eqn:E; [discriminate|].
    intros E2. destruct (mark_row_inv db s r s1 Hr E) as (Hp & r1 & -> & M1 & M2).
    destruct (IH _ Hrs E2) as (HL & HK). cbn [sd_links set_state_rows] in HL. split; [exact HL|].
    intros key. specialize (HK key) as [Hout Hin]. cbn [sd_state set_state_rows] in Hout, Hin. cbn [map In].
    destruct (in_dec (fun a b : SyncKey => decide (a = b)) key (map row_key rs)) as [I|NI].
    + split; [intros Hn; exfalso; apply Hn; auto|]. intros _.
      destruct (Hin I) as (r' & E' & M'). exists r'. split; [exact E'|].
      destruct (decide (row_key r = key)) as [<-|Hne].
      * rewrite lookup_insert_eq in M'. eapply marked_by_cons; eauto.
      * rewrite lookup_insert_ne in M' by exact Hne. apply marked_by_weaken, M'.
    + specialize (Hout NI). split.
      * intros Hn. rewrite Hout. apply lookup_insert_ne. intros <-. apply Hn. auto.
      * intros [<-|I]; [|contradiction]. rewrite lookup_insert_eq in Hout. exists r1. split; [exact Hout|].
        eapply marked_by_cons; eauto.
Qed.

(** ** What a backfill does: [MarkAll] *)
Section Backfill.
Context (org project : uuid).

(** One source of [MarkAll]: its rows marked, then the rows whose entity is gone. *)
Definition mark_entity (db : DB) (ts : Z) (e : Entity) (s : SheetDB) : (SqliteCode * string) + (SheetDB * Z) :=
  match markSelect org project e ts (entity_ids org project e) db s with
  | inl err => inl err
  | inr (s1, n) =>
    match markGone org project e ts db s1 with
    | inl err => inl err
    | inr (s2, gone) => inr (s2, n + gone)
    end
  end.
Fixpoint mark_all_tables (db : DB) (ts : Z) (es : list Entity) (s : SheetDB) (total : Z)
    : (SqliteCode * string) + (SheetDB * Z) :=
  match es with
  | [] => inr (s, total)
  | e :: rest =>
    match mark_entity db ts e s with
    | inl err => inl err
    | inr (s', n) => mark_all_tables db ts rest s' (total + n)
    end
  end.

(** What it leaves of the row under [key], of which [e] and [id] are the entity. *)
Definition backfilled_row (db : DB) (e : Entity) (id : uuid) (old new : option SyncRow) : Prop :=
  (In id (entity_ids org project e db) ->
    exists r, new = Some r /\ marked_from old r /\ (old = None -> sr_ProjectID r = project /\ row_key r = (org, (e, id)))) /\
  (~ In id (entity_ids org project e db) ->
    match old with
    | Some o => if goneRow org project e db o then exists r, new = Some r /\ marked_from (Some o) r else new = Some o
    | None => new = None
    end) /\
  (forall r, new = Some r -> sr_Deleted r = true ->
    (exists o, old = Some o /\ sr_Deleted o = true) \/ entity_exists org e id db = false).

Lemma markSelect_marks e ts ids db s s' n : markSelect org project e ts ids db s = inr (s', n) ->
  marks s (map (fun id => new_mark org project e id false ts) (sort_by N.leb (ids db))) s'.
Proof.
  unfold markSelect. destruct (mark_rows _ _ _) as [err|s1] eqn:E; [discriminate|]. intros [= <- _].
  eapply mark_rows_marks, E. apply Forall_forall. intros r Hr. apply list_elem_of_In, in_map_iff in Hr as (id & <- & _).
  apply fresh_new_mark.
Qed.

Lemma in_mark_keys e id ts l :
  In (org, (e, id)) (map row_key (map (fun id => new_mark org project e id false ts) l)) <-> In id l.
Proof.
  rewrite map_map. cbn. rewrite in_map_iff. split; [intros (x & [= <-] & Hx); exact Hx | intros Hi; exists id; auto].
Qed.
Lemma other_mark_keys e e' id ts l : e <> e' ->
  ~ In (org, (e', id)) (map row_key (map (fun id => new_mark org project e id false ts) l)).
Proof. rewrite map_map. cbn. rewrite in_map_iff. intros He (x & [= Hx _] & _). exact (He Hx). Qed.

Lemma mark_entity_effect db ts e s s' n : mark_entity db ts e s = inr (s', n) ->
  sd_links s' = sd_links s
  /\ (forall id, (forall o, sd_state s !! (org, (e, id)) = Some o -> row_key o = (org, (e, id))) ->
        backfilled_row db e id (sd_state s !! (org, (e, id))) (sd_state s' !! (org, (e, id))))
  /\ (forall key, (forall o, sd_state s !! key = Some o -> row_key o = key) ->
       fst (snd key) <> e \/ fst key <> org -> sd_state s' !! key = sd_state s !! key).
Proof.
  unfold mark_entity. destruct (markSelect _ _ _ _ _ _ _) as [err|[s1 m]] eqn:E; [discriminate|].
  apply markSelect_marks in E. destruct E as [EL EK]. unfold markGone. intros [= <- _].
  cbn [sd_links update_state set_state_rows sd_state]. split; [exact EL|].
  set (ids := entity_ids org project e db) in *.
  assert (Hids : forall id, In id (sort_by N.leb ids) <-> In id ids) by (intros; apply In_sort_by).
  split.
  - intros id Hkey. rewrite lookup_fmap. destruct (EK (org, (e, id))) as [Hout Hin].
    rewrite in_mark_keys, Hids in Hout, Hin. unfold backfilled_row. fold ids.
    destruct (in_dec N.eq_dec id ids) as [I|NI].
    + destruct (Hin I) as (r & E1 & M & HN & (k & K1 & K2 & K3) & HD). rewrite E1. cbn [fmap option_fmap option_map].
      assert (Hn : forall x, In x (map (fun id => new_mark org project e id false ts) (sort_by N.leb ids)) ->
                sr_ProjectID x = project /\ sr_Deleted x = false).
      { intros x Hx. apply in_map_iff in Hx as (y & <- & _). auto. }
      split; [intros _|split; [contradiction|]].
      * destruct (goneRow org project e db r).
        -- eexists. split; [reflexivity|]. split; [eapply marked_from_trans; [exact M | apply markSets_from]|].
           intros EN. destruct (HN EN) as (A & y & B1 & B2 & B3). rewrite row_key_markSets. cbn. split; [|exact A].
           rewrite B3. apply Hn, B1.
        -- exists r. split; [reflexivity|]. split; [exact M|]. intros EN. destruct (HN EN) as (A & y & B1 & B2 & B3).
           split; [|exact A]. rewrite B3. apply Hn, B1.
      * intros r2. destruct (goneRow org project e db r) eqn:G.
        -- intros _ _. right. unfold goneRow in G. apply andb_prop in G as [_ G]. apply negb_true_iff in G.
           assert (Er : sr_EntityID r = id).
           { destruct (sd_state s !! (org, (e, id))) as [o|] eqn:Eo.
             - destruct M as (_ & _ & _ & _ & _ & M & _). rewrite (Hkey o eq_refl) in M. unfold row_key in M. congruence.
             - destruct (HN eq_refl) as (A & _). unfold row_key in A. congruence. }
           rewrite Er in G. exact G.
        -- intros [= <-] D. destruct (HD D) as [?|(x & X1 & X2 & X3)]; [auto|]. destruct (Hn x X1). congruence.
    + rewrite (Hout NI). split; [contradiction|]. split.
      * intros _. destruct (sd_state s !! (org, (e, id))) as [o|]; [|reflexivity]. cbn [fmap option_fmap option_map].
        destruct (goneRow org project e db o); [|reflexivity]. eexists. split; [reflexivity | apply markSets_from].
      * destruct (sd_state s !! (org, (e, id))) as [o|] eqn:Eo; cbn [fmap option_fmap option_map]; [|discriminate].
        destruct (goneRow org project e db o) eqn:G; intros r [= <-] D; [|left; eauto].
        right. unfold goneRow in G. apply andb_prop in G as [_ G]. apply negb_true_iff in G.
        specialize (Hkey o eq_refl). unfold row_key in Hkey. injection Hkey as _ _ K3. rewrite K3 in G. exact G.
  - intros key Hkey Hne. rewrite lookup_fmap. destruct (EK key) as [Hout _].
    rewrite Hout.
    + destruct (sd_state s !! key) as [o|]; [|reflexivity]. cbn [fmap option_fmap option_map].
      destruct (goneRow org project e db o) eqn:G; [|reflexivity]. exfalso. unfold goneRow, in_project in G.
      apply andb_prop in G as [G _]. apply andb_prop in G as [G G2]. apply andb_prop in G as [G _].
      apply N.eqb_eq in G. apply String.eqb_eq in G2. specialize (Hkey o eq_refl). unfold row_key in Hkey. subst key.
      cbn in Hne. destruct Hne; congruence.
    + destruct key as [o1 [e1 i1]]. cbn in Hne. rewrite map_map. cbn. rewrite in_map_iff.
      intros (x & [= X1 X2 X3] & _). destruct Hne; congruence.
Qed.

(** Each row is under its key. *)
Definition well_keyed (s : SheetDB) : Prop := forall key o, sd_state s !! key = Some o -> row_key o = key.

Lemma backfilled_keyed db e id old new :
  (forall o, old = Some o -> row_key o = (org, (e, id))) -> backfilled_row db e id old new ->
  forall r, new = Some r -> row_key r = (org, (e, id)).
Proof.
  intros Ho (H1 & H2 & _) r ->. destruct (in_dec N.eq_dec id (entity_ids org project e db)) as [I|NI].
  - destruct (H1 I) as (x & [= <-] & M & N). destruct old as [o|]; [|apply N; reflexivity].
    destruct M as (_ & _ & _ & _ & _ & M & _). rewrite M. apply Ho. reflexivity.
  - specialize (H2 NI). destruct old as [o|]; [|discriminate]. destruct (goneRow _ _ _ _ _).
    + destruct H2 as (x & [= <-] & (_ & _ & _ & _ & _ & M & _)). rewrite M. apply Ho. reflexivity.
    + injection H2 as ->. apply Ho. reflexivity.
Qed.

Lemma NoDup_sources : NoDup mark_sources.
Proof. apply (bool_decide_unpack _). vm_compute. exact I. Qed.

Lemma mark_all_effect db ts es s total s' n : NoDup es -> well_keyed s ->
  mark_all_tables db ts es s total = inr (s', n) ->
  sd_links s' = sd_links s /\ well_keyed s'
  /\ (forall e id, In e es -> backfilled_row db e id (sd_state s !! (org, (e, id))) (sd_state s' !! (org, (e, id))))
  /\ (forall key, ~ In (fst (snd key)) es \/ fst key <> org -> sd_state s' !! key = sd_state s !! key).
Proof.
  revert s total. induction es as [|e es IH]; intros s total HN HK; cbn [mark_all_tables].
  - intros [= <- _]. split; [reflexivity|]. split; [exact HK|]. split; [intros e id [] | reflexivity].
  - destruct (mark_entity db ts e s) as [err|[s1 m]] eqn:E; [discriminate|]. intros E2.
    destruct (mark_entity_effect _ _ _ _ _ _ E) as (L1 & B1 & O1). inversion HN as [|? ? He HN']; subst.
    assert (HK1 : well_keyed s1).
    { intros [o1 [e1 id]] r Hr. destruct (decide (e1 = e)) as [->|Hne].
      - destruct (decide (o1 = org)) as [->|Ho].
        + eapply backfilled_keyed; [apply HK | apply B1, HK | exact Hr].
        + rewrite O1 in Hr; [apply HK, Hr | apply HK | right; exact Ho].
      - rewrite O1 in Hr; [apply HK, Hr | apply HK | left; exact Hne]. }
    destruct (IH _ _ HN' HK1 E2) as (L2 & K2 & B2 & O2). rewrite L2. split; [exact L1|]. split; [exact K2|].
    split.
    + intros x id [<-|Hx].
      * rewrite (O2 (org, (e, id))); [apply B1, HK|]. left. cbn. intros Hi. apply He, list_elem_of_In, Hi.
      * rewrite <- (O1 (org, (x, id))); [apply B2, Hx | apply HK|]. left. cbn. intros ->. apply He, list_elem_of_In, Hx.
    + intros key Hk. cbn [In] in Hk. rewrite O2; [apply O1; [apply HK|] |]; intuition.
Qed.
End Backfill.
