(* ===== verification/SheetSteps.v ===== *)
(** * The mirror's steps

    One project's mirror as a transition system over its state rows: a write and its
    marks in one unit of work, a backfill, a claim, the read of the row's facts, the
    push to the sheet, settling, releasing, a job that dies, and time. Each table
    change is a statement of [SheetStore].

    Left out: removing the link and pointing it at other sheets, after which the
    rows of a job that loaded the old link no longer reach the sheet
    ([SheetLinkProps.retarget_strands_row]); and a request that lands after its lease,
    which the lease outliving the handler rules out. *)
From Stdlib Require Import ZArith Lia String List.
From stdpp Require Import base gmap list strings.
From S2P Require Import Prelude GoStrings Errors Sealer Tenant Outbox Sheet World Wp PeriodService Commit SheetStore SheetMirror SheetSync SheetTheory SheetServer SheetProtocol.
Local Open Scope string_scope.
Local Open Scope Z_scope.

(** A row of the project: its entity and id. *)
Abbreviation Key := (Entity * uuid)%type.
Definition ref_of (k : Key) : Ref := mkRef (fst k) (snd k) false false.

Inductive Stage := Claimed | Got (row : option Row) | Pushed (row : option Row).
(** A job on one row, by its lease token. *)
Record Job := mkJob { j_key : Key; j_version : Z; j_until : Z; j_deleted : bool; j_stage : Stage }.

Record Sys := mkSys {
  y_now : Z;
  y_db : DB;
  y_tables : SheetDB;
  y_shown : Key -> option Row;          (** what the sheet shows; [None] for no row or a tombstone *)
  y_jobs : gmap uuid Job;
  y_used : gset uuid                    (** every lease token ever drawn *)
}.
Definition with_tables (s : SheetDB) (y : Sys) : Sys := mkSys (y_now y) (y_db y) s (y_shown y) (y_jobs y) (y_used y).
Definition with_jobs (js : gmap uuid Job) (y : Sys) : Sys := mkSys (y_now y) (y_db y) (y_tables y) (y_shown y) js (y_used y).
Definition staged (t : uuid) (j : Job) (st : Stage) (y : Sys) : Sys :=
  with_jobs (<[t := mkJob (j_key j) (j_version j) (j_until j) (j_deleted j) st]> (y_jobs y)) y.
Definition show (k : Key) (row : option Row) (y : Sys) : Sys :=
  mkSys (y_now y) (y_db y) (y_tables y) (fun k' => if decide (k' = k) then row else y_shown y k') (y_jobs y) (y_used y).

(** What the sheet ought to show of a database: a row for every entity it has. *)
Class Facts := facts : DB -> Key -> option Row.

Section Steps.
Context (org project : uuid) `{Facts}.

Definition row_at (s : SheetDB) (k : Key) : option SyncRow := state_row s org project (ref_of k).
Definition enabled (s : SheetDB) : bool :=
  match link_of s org project with Some l => lk_Enabled l | None => false end.

(** An entity's id is one project's. *)
Definition placed (db : DB) (s : SheetDB) : Prop :=
  forall e id r, sd_state s !! (org, (e, id)) = Some r ->
    (In id (entity_ids org project e db) -> sr_ProjectID r = project)
    /\ (sr_ProjectID r = project -> entity_exists org e id db = true -> In id (entity_ids org project e db)).
(** The rows a write marks. *)
Definition own_mark (n : SyncRow) : Prop := sr_OrgID n = org /\ sr_ProjectID n = project /\ fresh_mark n.
Definition own_rows (s : SheetDB) (rs : list SyncRow) : Prop :=
  Forall own_mark rs /\
  forall n old, In n rs -> sd_state s !! row_key n = Some old -> sr_ProjectID old = project.
(** A write marks every row whose facts it changes. *)
Definition covers (db db' : DB) (rs : list SyncRow) : Prop :=
  forall k, facts db' k <> facts db k -> In (org, k) (map row_key rs).
(** Rows marked gone have no facts, and get none again: ids are not used twice. *)
Definition gone_rows (db : DB) (s : SheetDB) : Prop :=
  forall k r, row_at s k = Some r -> sr_Deleted r = true -> facts db k = None.

Inductive step : Sys -> Sys -> Prop :=
| step_tick y dt : 0 <= dt ->
    step y (mkSys (y_now y + dt) (y_db y) (y_tables y) (y_shown y) (y_jobs y) (y_used y))
| step_write y db' rs s' :
    enabled (y_tables y) = true -> own_rows (y_tables y) rs -> mark_rows db' (y_tables y) rs = inr s' ->
    covers (y_db y) db' rs -> gone_rows db' s' ->
    step y (mkSys (y_now y) db' s' (y_shown y) (y_jobs y) (y_used y))
| step_write_unlinked y db' :
    enabled (y_tables y) = false -> gone_rows db' (y_tables y) ->
    step y (mkSys (y_now y) db' (y_tables y) (y_shown y) (y_jobs y) (y_used y))
| step_links y links' :
    (enabled (mkSheetDB links' (sd_state (y_tables y))) = true -> enabled (y_tables y) = true) ->
    step y (with_tables (set_links links' (y_tables y)) y)
| step_backfill y links' ts s' n :
    placed (y_db y) (y_tables y) ->
    mark_all_tables org project (y_db y) ts mark_sources (set_links links' (y_tables y)) 0 = inr (s', n) ->
    step y (with_tables s' y)
| step_claim y k t s' r :
    t ∉ y_used y ->
    update_row org project (ref_of k) (claimable (y_now y)) (set_claim t (y_now y + leaseTTL)) (y_db y) (y_tables y)
      = inr (s', Some r) ->
    step y (mkSys (y_now y) (y_db y) s' (y_shown y)
             (<[t := mkJob k (sr_Version r) (y_now y + leaseTTL) (sr_Deleted r) Claimed]> (y_jobs y)) ({[t]} ∪ y_used y))
| step_read y t j :
    y_jobs y !! t = Some j -> j_stage j = Claimed ->
    step y (staged t j (Got (if j_deleted j then None else facts (y_db y) (j_key j))) y)
| step_push y t j row :
    y_jobs y !! t = Some j -> j_stage j = Got row \/ j_stage j = Pushed row -> y_now y <= j_until j ->
    step y (show (j_key j) row (staged t j (Pushed row) y))
| step_settle y t j row s' out :
    y_jobs y !! t = Some j -> j_stage j = Pushed row ->
    update_row org project (ref_of (j_key j)) (holds_lease t) (set_settled (j_version j)) (y_db y) (y_tables y) = inr (s', out) ->
    step y (with_jobs (delete t (y_jobs y)) (with_tables s' y))
| step_release y t j f s' out :
    y_jobs y !! t = Some j ->
    update_row org project (ref_of (j_key j)) (holds_lease t) (set_released f) (y_db y) (y_tables y) = inr (s', out) ->
    step y (with_jobs (delete t (y_jobs y)) (with_tables s' y))
| step_die y t :
    step y (with_jobs (delete t (y_jobs y)) y).

(** An empty mirror: a link, no state row, nothing shown. *)
Inductive reach : Sys -> Prop :=
| reach_init now db links shown :
    (forall k, shown k = None) -> (enabled (mkSheetDB links ∅) = true -> forall k, facts db k = None) ->
    reach (mkSys now db (mkSheetDB links ∅) shown ∅ ∅)
| reach_step y y' : reach y -> step y y' -> reach y'.

(** Nothing waits to be pushed. *)
Definition quiescent (y : Sys) : Prop := forall k r, row_at (y_tables y) k = Some r -> row_dirty r = false.

(** ** The invariant *)

(** [t] still holds the lease of the row [r] its job claimed. *)
Definition holds (s : SheetDB) (t : uuid) (j : Job) (r : SyncRow) : Prop :=
  row_at s (j_key j) = Some r /\ sr_LeaseToken r = Some t.

Record job_ok (y : Sys) (t : uuid) (j : Job) : Prop := mkJobOk {
  jo_used : t ∈ y_used y;
  jo_claim : forall r, holds (y_tables y) t j r ->
    sr_SyncedVersion r < j_version j <= sr_Version r /\ sr_LeasedUntil r = Some (j_until j)
    /\ (j_deleted j = true -> sr_Deleted r = true);
  jo_live : y_now y <= j_until j -> exists r, holds (y_tables y) t j r;
  jo_read : forall r row, enabled (y_tables y) = true -> holds (y_tables y) t j r -> sr_Version r = j_version j ->
    j_stage j = Got row \/ j_stage j = Pushed row -> row = facts (y_db y) (j_key j);
  jo_pushed : forall r row, holds (y_tables y) t j r -> j_stage j = Pushed row -> y_shown y (j_key j) = row
}.
Record row_ok (y : Sys) (k : Key) (r : SyncRow) : Prop := mkRowOk {
  ro_versions : 0 <= sr_SyncedVersion r <= sr_Version r;
  ro_entity : In (fst k) mark_sources;
  ro_token : forall t, sr_LeaseToken r = Some t -> t ∈ y_used y;
  ro_clean : enabled (y_tables y) = true -> row_dirty r = false -> y_shown y k = facts (y_db y) k
}.
Record Inv (y : Sys) : Prop := mkInv {
  iv_keyed : well_keyed (y_tables y);
  iv_rows : forall k r, row_at (y_tables y) k = Some r -> row_ok y k r;
  iv_jobs : forall t j, y_jobs y !! t = Some j -> job_ok y t j;
  iv_gone : gone_rows (y_db y) (y_tables y);
  iv_none : forall k, row_at (y_tables y) k = None -> y_shown y k = None;
  iv_have : enabled (y_tables y) = true -> forall k, facts (y_db y) k <> None -> row_at (y_tables y) k <> None
}.

(** ** Helpers *)

Lemma row_at_iff s k r : row_at s k = Some r <-> sd_state s !! (org, k) = Some r /\ sr_ProjectID r = project.
Proof.
  unfold row_at, state_row, key_of, refKey, ref_of; cbn. rewrite <- surjective_pairing.
  destruct (sd_state s !! (org, k)) as [r0|]; [|split; [discriminate | intros [? _]; discriminate]].
  destruct (N.eqb_spec (sr_ProjectID r0) project) as [E|E]; split;
    first [intros [= <-]; auto | intros [[= <-] ?]; congruence | discriminate].
Qed.

(** A statement on one row. *)
Lemma update_row_at k p f db s s' out : (forall r, sr_ProjectID (f r) = sr_ProjectID r) ->
  update_row org project (ref_of k) p f db s = inr (s', out) ->
  sd_links s' = sd_links s /\
  ((exists r, row_at s k = Some r /\ p r = true /\ out = Some (f r) /\ row_at s' k = Some (f r)
      /\ sd_state s' = <[(org, k) := f r]> (sd_state s) /\ forall k', k' <> k -> row_at s' k' = row_at s k')
   \/ (s' = s /\ out = None /\ forall r, row_at s k = Some r -> p r = false)).
Proof.
  intros Hf. unfold update_row. fold (row_at s k). destruct (row_at s k) as [r|] eqn:E.
  - destruct (p r) eqn:Ep; intros [= <- <-].
    + split; [reflexivity|]. left. exists r. split; [reflexivity|]. split; [exact Ep|]. split; [reflexivity|].
      assert (Ek : key_of org (ref_of k) = (org, k)) by (destruct k; reflexivity).
      apply row_at_iff in E as [E Pr]. split; [|split; [cbn; rewrite Ek; reflexivity|]].
      * apply row_at_iff. cbn. rewrite Ek, lookup_insert_eq. split; [reflexivity | rewrite Hf; exact Pr].
      * intros k' Hne. unfold row_at, state_row. cbn. rewrite Ek, lookup_insert_ne; [reflexivity|].
        intros [= E2]. apply Hne. rewrite E2. destruct k'; reflexivity.
    + split; [reflexivity|]. right. split; [reflexivity|]. split; [reflexivity|]. intros r0 [= <-]. exact Ep.
  - intros [= <- <-]. split; [reflexivity|]. right. split; [reflexivity|]. split; [reflexivity|]. intros r0. discriminate.
Qed.
Lemma enabled_links s s' : sd_links s' = sd_links s -> enabled s' = enabled s.
Proof. unfold enabled, link_of. intros ->. reflexivity. Qed.
Lemma row_keyed_insert s k f r : (forall x, row_key (f x) = row_key x) -> well_keyed s -> row_at s k = Some r ->
  forall s', sd_state s' = <[(org, k) := f r]> (sd_state s) -> well_keyed s'.
Proof.
  intros Hf HK E s' Es key o. rewrite Es. apply row_at_iff in E as [E _].
  destruct (decide ((org, k) = key)) as [<-|Hne].
  - rewrite lookup_insert_eq. intros [= <-]. rewrite Hf. apply HK, E.
  - rewrite lookup_insert_ne by exact Hne. apply HK.
Qed.
(** Two jobs hold one row only if they are one. *)
Lemma holds_same s t t' j j' r : holds s t j r -> holds s t' j' r -> t' = t.
Proof. intros [_ H1] [_ H2]. congruence. Qed.

(** The rows [M] marked, the others as they were. *)
Definition remarked (s s' : SheetDB) (M : Key -> Prop) : Prop :=
  forall k, (M k -> In (fst k) mark_sources /\ exists r, row_at s' k = Some r /\ marked_from (row_at s k) r) /\
            (~ M k -> row_at s' k = row_at s k).

Lemma remarked_row s s' M k r' : remarked s s' M -> M k \/ ~ M k -> row_at s' k = Some r' ->
  (M k /\ marked_from (row_at s k) r') \/ (~ M k /\ row_at s k = Some r').
Proof.
  intros HT [HM|HM] E; destruct (HT k) as [H1 H2].
  - left. destruct (H1 HM) as (_ & r & E' & Hm). split; [exact HM | congruence].
  - right. split; [exact HM | rewrite <- H2; assumption].
Qed.

(** A holder's row, before a batch of marks. *)
Lemma remarked_holds s s' M t j r' : remarked s s' M -> (forall k, M k \/ ~ M k) -> holds s' t j r' ->
  exists r, holds s t j r /\ sr_SyncedVersion r' = sr_SyncedVersion r /\ sr_LeasedUntil r' = sr_LeasedUntil r
    /\ (sr_Deleted r = true -> sr_Deleted r' = true)
    /\ ((M (j_key j) /\ sr_Version r < sr_Version r') \/ (~ M (j_key j) /\ r' = r)).
Proof.
  intros HT HM [E Tk]. destruct (remarked_row _ _ _ _ _ HT (HM (j_key j)) E) as [[Mk Hm]|[Nk E0]].
  - destruct (row_at s (j_key j)) as [r|] eqn:E0; cbn in Hm.
    + destruct Hm as (A1 & A2 & A3 & A4 & A5 & A6 & A7 & A8 & A9). exists r.
      split; [split; [exact E0 | congruence]|]. repeat split; auto.
    + destruct Hm as (A1 & A2 & A3 & A4). congruence.
  - exists r'. split; [split; assumption|]. repeat split; auto.
Qed.

(** Marks keep the invariant: a row left unmarked still shows its facts. *)
Lemma inv_remarked y db' s' M : Inv y -> well_keyed s' -> remarked (y_tables y) s' M -> (forall k, M k \/ ~ M k) ->
  gone_rows db' s' ->
  (enabled s' = true -> forall k r, ~ M k -> row_at (y_tables y) k = Some r ->
     enabled (y_tables y) = true /\ facts db' k = facts (y_db y) k) ->
  (enabled s' = true -> forall k, facts db' k <> None -> row_at s' k <> None) ->
  Inv (mkSys (y_now y) db' s' (y_shown y) (y_jobs y) (y_used y)).
Proof.
  intros [IK IR IJ IG IN IH] HK HT HM HG HC HH. constructor; cbn; auto.
  - intros k r' E. destruct (remarked_row _ _ _ _ _ HT (HM k) E) as [[Mk Hm]|[Nk E0]].
    + destruct (proj1 (HT k) Mk) as (He & _). unfold marked_from in Hm.
      destruct (row_at (y_tables y) k) as [o|] eqn:E0.
      * destruct (IR _ _ E0) as [RV RE RT RC]. destruct Hm as (A1 & A2 & A3 & A4 & A5 & A6 & A7 & A8 & A9).
        constructor; cbn; [lia | exact He | intros t Ht; apply RT; congruence|].
        intros _. unfold row_dirty. rewrite A2. intros D. apply Z.ltb_ge in D. lia.
      * destruct Hm as (A1 & A2 & A3 & A4 & A5 & A6).
        constructor; cbn; [lia | exact He | congruence|]. intros _. unfold row_dirty. intros D. apply Z.ltb_ge in D. lia.
    + destruct (IR _ _ E0) as [RV RE RT RC]. constructor; cbn; auto.
      intros En D. destruct (HC En k r' Nk E0) as [En0 ->]. apply RC; assumption.
  - intros t j Hj. destruct (IJ _ _ Hj) as [JU JC JL JR JP].
    constructor; cbn; [exact JU | | | |].
    + intros r' Hr'. destruct (remarked_holds _ _ _ _ _ _ HT HM Hr') as (r & Hr & A1 & A2 & A3 & A4).
      destruct (JC r Hr) as (C1 & C2 & C3). split; [destruct A4 as [[_ ?]|[_ ->]]; lia|].
      split; [congruence | auto].
    + intros Hl. destruct (JL Hl) as (r & E & Tk). destruct (HM (j_key j)) as [Mk|Nk].
      * destruct (proj1 (HT _) Mk) as (_ & r' & E' & Hm). rewrite E in Hm. destruct Hm as (_ & _ & _ & Hm & _).
        exists r'. split; [exact E' | congruence].
      * exists r. split; [rewrite (proj2 (HT _) Nk); exact E | exact Tk].
    + intros r' row En Hr' V St. destruct (remarked_holds _ _ _ _ _ _ HT HM Hr') as (r & Hr & _ & _ & _ & A4).
      destruct (JC r Hr) as (C1 & _). destruct A4 as [[_ ?]|[Nk ->]]; [lia|].
      destruct (HC En _ _ Nk (proj1 Hr)) as [En0 ->]. eapply JR; eauto.
    + intros r' row Hr' St. destruct (remarked_holds _ _ _ _ _ _ HT HM Hr') as (r & Hr & _). eapply JP; eauto.
  - intros k E. apply IN. destruct (HM k) as [Mk|Nk].
    + destruct (proj1 (HT k) Mk) as (_ & r & E' & _). congruence.
    + rewrite <- (proj2 (HT k) Nk). exact E.
Qed.

(** ** Each step keeps the invariant *)

(** What the mirror reads of the facts: a row exists for every entity it shows. *)
Hypothesis facts_exist : forall db e id, facts db (e, id) <> None ->
  In e mark_sources /\ In id (entity_ids org project e db) /\ entity_exists org e id db = true.

Lemma marked_keyed s rs s' : well_keyed s -> marks s rs s' -> well_keyed s'.
Proof.
  intros HK [_ HM] key r E. destruct (HM key) as [Hout Hin].
  destruct (in_dec (fun a b : SyncKey => decide (a = b)) key (map row_key rs)) as [I|NI].
  - destruct (Hin I) as (r' & E' & M & N & _). rewrite E in E'. injection E' as <-.
    destruct (sd_state s !! key) as [o|] eqn:Eo; [|apply N; reflexivity].
    destruct M as (_ & _ & _ & _ & _ & M & _). rewrite M. apply HK, Eo.
  - rewrite (Hout NI) in E. apply HK, E.
Qed.
Lemma source_entity e : ParseEntity e <> None -> In e mark_sources.
Proof.
  unfold ParseEntity. destruct (existsb _ _) eqn:E; [intros _ | congruence].
  apply existsb_exists in E as (x & Hx & Ex). apply String.eqb_eq in Ex. subst x. unfold entities in Hx.
  unfold mark_sources. cbn [In] in *. tauto.
Qed.
(** The rows a write marks are the project's. *)
Lemma own_touched s rs s' : own_rows s rs -> marks s rs s' ->
  remarked s s' (fun k => In (org, k) (map row_key rs)).
Proof.
  intros [HF HO] [_ HM] k. destruct (HM (org, k)) as [Hout Hin]. split.
  - intros I. destruct (Hin I) as (r & E & M & N & (n & I1 & K1 & P1) & _).
    assert (Hn : row_key n = (org, k)) by exact K1.
    split; [apply (f_equal snd), (f_equal fst) in K1; cbn in K1; rewrite <- K1; apply source_entity, P1|].
    exists r. destruct (sd_state s !! (org, k)) as [o|] eqn:Eo.
    + assert (Po : sr_ProjectID o = project) by (apply (HO n o I1); rewrite Hn; exact Eo).
      rewrite (proj2 (row_at_iff s k o) (conj Eo Po)). split; [|exact M].
      apply row_at_iff. split; [exact E|]. destruct M as (_ & _ & M & _). congruence.
    + assert (E0 : row_at s k = None).
      { destruct (row_at s k) as [x|] eqn:Ex; [|reflexivity]. apply row_at_iff in Ex. destruct Ex. congruence. }
      rewrite E0. split; [|exact M]. apply row_at_iff. split; [exact E|].
      destruct (N eq_refl) as (_ & x & X1 & X2 & X3). rewrite X3.
      apply List.Forall_forall with (x := x) in HF; [apply HF | exact X1].
  - intros NI. specialize (Hout NI). destruct k as [e id]. unfold row_at, state_row, key_of, refKey. cbn [ref_of rf_Entity rf_ID fst snd].
    rewrite Hout. reflexivity.
Qed.

Lemma inv_write y db' rs s' : Inv y -> enabled (y_tables y) = true -> own_rows (y_tables y) rs ->
  mark_rows db' (y_tables y) rs = inr s' -> covers (y_db y) db' rs -> gone_rows db' s' ->
  Inv (mkSys (y_now y) db' s' (y_shown y) (y_jobs y) (y_used y)).
Proof.
  intros HI En HO E HC HG.
  assert (HF : Forall fresh_mark rs) by (eapply Forall_impl; [apply HO | intros r Hr; apply Hr]).
  pose proof (mark_rows_marks _ _ _ _ HF E) as HM.
  pose proof (own_touched _ _ _ HO HM) as HT.
  assert (Hdec : forall k, In (org, k) (map row_key rs) \/ ~ In (org, k) (map row_key rs)).
  { intros k. destruct (in_dec (fun a b : SyncKey => decide (a = b)) (org, k) (map row_key rs)); auto. }
  assert (Hsame : forall k, ~ In (org, k) (map row_key rs) -> facts db' k = facts (y_db y) k).
  { intros k NI. destruct (decide (facts db' k = facts (y_db y) k)) as [Ef|Ef]; [exact Ef|]. destruct (NI (HC k Ef)). }
  eapply inv_remarked; [exact HI | eapply marked_keyed; [apply HI | exact HM] | exact HT | exact Hdec | exact HG | |].
  - intros _ k r NI _. split; [exact En | apply Hsame, NI].
  - intros _ k Hf. destruct (Hdec k) as [I|NI].
    + destruct (proj1 (HT k) I) as (_ & r & -> & _). discriminate.
    + rewrite (proj2 (HT k) NI). apply (iv_have _ HI En). rewrite <- (Hsame k NI). exact Hf.
Qed.

(** The row under [k], and whether it is the project's. *)
Lemma row_at_case s k : match sd_state s !! (org, k) with
                        | None => row_at s k = None
                        | Some o => (sr_ProjectID o = project /\ row_at s k = Some o)
                                    \/ (sr_ProjectID o <> project /\ row_at s k = None)
                        end.
Proof.
  destruct k as [e id]. unfold row_at, state_row, key_of, refKey. cbn [ref_of rf_Entity rf_ID fst snd].
  destruct (sd_state s !! (org, (e, id))) as [o|]; [|reflexivity]. destruct (N.eqb_spec (sr_ProjectID o) project); auto.
Qed.
Lemma marked_from_project o r : marked_from (Some o) r -> sr_ProjectID r = sr_ProjectID o.
Proof. intros (_ & _ & H3 & _). exact H3. Qed.
Lemma goneRow_spec db e id o : row_key o = (org, (e, id)) ->
  goneRow org project e db o = N.eqb (sr_ProjectID o) project && negb (entity_exists org e id db).
Proof.
  unfold goneRow, in_project, row_key. intros [= K1 K2 K3]. rewrite K1, K2, K3, N.eqb_refl, String.eqb_refl.
  cbn. rewrite andb_true_r. reflexivity.
Qed.

(** A backfill marks every row of the project. *)
Lemma backfilled_at s s' db e id : well_keyed s -> placed db s ->
  backfilled_row org project db e id (sd_state s !! (org, (e, id))) (sd_state s' !! (org, (e, id))) ->
  (In id (entity_ids org project e db) \/ row_at s (e, id) <> None ->
     exists r, row_at s' (e, id) = Some r /\ marked_from (row_at s (e, id)) r) /\
  (~ In id (entity_ids org project e db) -> row_at s (e, id) = None -> row_at s' (e, id) = None).
Proof.
  intros HK HP (H1 & H2 & _). pose proof (row_at_case s (e, id)) as C. pose proof (row_at_case s' (e, id)) as C'.
  specialize (HP e id). specialize (HK (org, (e, id))).
  destruct (in_dec N.eq_dec id (entity_ids org project e db)) as [I|NI].
  - split; [intros _ | contradiction]. destruct (H1 I) as (r & Er & M & N). rewrite Er in C'. exists r.
    assert (P : sr_ProjectID r = project /\ marked_from (row_at s (e, id)) r).
    { destruct (sd_state s !! (org, (e, id))) as [o|].
      - rewrite (marked_from_project _ _ M). destruct (HP o eq_refl) as [Po _].
        destruct C as [[_ ->]|[X _]]; [auto | destruct (X (Po I))].
      - rewrite C. split; [apply N; reflexivity | exact M]. }
    destruct C' as [[_ E']|[X _]]; [split; [exact E' | apply P] | destruct (X (proj1 P))].
  - specialize (H2 NI). split.
    + intros [?|Hr]; [contradiction|]. destruct (sd_state s !! (org, (e, id))) as [o|]; [|congruence].
      destruct C as [[Po E0]|[_ ?]]; [|congruence]. rewrite E0.
      rewrite (goneRow_spec db e id o (HK o eq_refl)), Po, N.eqb_refl in H2. cbn in H2.
      destruct (entity_exists org e id db) eqn:X; [destruct NI; apply (proj2 (HP o eq_refl)); [exact Po | reflexivity]|].
      destruct H2 as (r & Er & M). rewrite Er in C'. exists r. split; [|exact M].
      destruct C' as [[_ E']|[Y _]]; [exact E' | rewrite (marked_from_project _ _ M) in Y; congruence].
    + intros _ E0. destruct (sd_state s !! (org, (e, id))) as [o|]; [|rewrite H2 in C'; exact C'].
      destruct C as [[_ ?]|[Po _]]; [congruence|].
      rewrite (goneRow_spec db e id o (HK o eq_refl)) in H2.
      destruct (N.eqb_spec (sr_ProjectID o) project); [congruence|]. cbn in H2. rewrite H2 in C'.
      destruct C' as [[? _]|[_ ?]]; [congruence | assumption].
Qed.
(** A row marked gone was so before, or its entity is. *)
Lemma backfilled_deleted s s' db e id r : well_keyed s -> placed db s ->
  backfilled_row org project db e id (sd_state s !! (org, (e, id))) (sd_state s' !! (org, (e, id))) ->
  row_at s' (e, id) = Some r -> sr_Deleted r = true ->
  (exists o, row_at s (e, id) = Some o /\ sr_Deleted o = true) \/ entity_exists org e id db = false.
Proof.
  intros HK HP HB Er D. destruct (backfilled_at s s' db e id HK HP HB) as [_ HN]. destruct HB as (H1 & H2 & H3).
  apply row_at_iff in Er as [Er Pr]. destruct (H3 r Er D) as [(o & Eo & Do)|?]; [left | auto].
  pose proof (row_at_case s (e, id)) as C. rewrite Eo in C. destruct C as [[_ C]|[Po C]]; [eauto|].
  destruct (in_dec N.eq_dec id (entity_ids org project e db)) as [I|NI].
  - destruct (H1 I) as (r0 & Er0 & M & _). rewrite Er in Er0. injection Er0 as <-. rewrite Eo in M.
    rewrite (marked_from_project _ _ M) in Pr. congruence.
  - specialize (HN NI C). rewrite (proj2 (row_at_iff s' (e, id) r) (conj Er Pr)) in HN. discriminate.
Qed.

Lemma inv_backfill y links' ts s' n : Inv y -> placed (y_db y) (y_tables y) ->
  mark_all_tables org project (y_db y) ts mark_sources (set_links links' (y_tables y)) 0 = inr (s', n) ->
  Inv (with_tables s' y).
Proof.
  intros HI HP E. pose proof (iv_keyed _ HI) as HK.
  destruct (mark_all_effect org project (y_db y) ts mark_sources (set_links links' (y_tables y)) 0 s' n NoDup_sources HK E)
    as (_ & HK' & HB & HO).
  cbn [sd_state set_links] in HB, HO.
  assert (Hsame : forall k, ~ In (fst k) mark_sources -> row_at s' k = row_at (y_tables y) k).
  { intros [e id] Ne. unfold row_at, state_row, key_of, refKey. cbn [ref_of rf_Entity rf_ID fst snd].
    rewrite HO by (left; exact Ne). reflexivity. }
  set (M := fun k : Key => In (fst k) mark_sources
              /\ (In (snd k) (entity_ids org project (fst k) (y_db y)) \/ row_at (y_tables y) k <> None)).
  assert (HT : remarked (y_tables y) s' M).
  { intros [e id]. unfold M; cbn [fst snd]. split.
    - intros [He Hr]. split; [exact He | apply (backfilled_at _ _ _ _ _ HK HP (HB e id He)), Hr].
    - intros NM. destruct (in_dec string_dec e mark_sources) as [He|Ne]; [|apply (Hsame (e, id) Ne)].
      destruct (row_at (y_tables y) (e, id)) as [o|] eqn:Eo; [destruct NM; split; [exact He | right; congruence]|].
      apply (backfilled_at _ _ _ _ _ HK HP (HB e id He)); [tauto | exact Eo]. }
  assert (HM : forall k, M k \/ ~ M k).
  { intros k. unfold M. destruct (in_dec string_dec (fst k) mark_sources); [|tauto].
    destruct (in_dec N.eq_dec (snd k) (entity_ids org project (fst k) (y_db y))); [tauto|].
    destruct (row_at (y_tables y) k); [left; split; [assumption | right; discriminate] | right; intuition]. }
  apply (inv_remarked y (y_db y) s' M HI HK' HT HM).
  - intros [e id] r Er D. destruct (in_dec string_dec e mark_sources) as [He|Ne].
    + destruct (backfilled_deleted _ _ _ _ _ r HK HP (HB e id He) Er D) as [(o & Eo & Do)|X].
      * exact (iv_gone _ HI _ _ Eo Do).
      * destruct (facts (y_db y) (e, id)) eqn:F; [|reflexivity].
        destruct (facts_exist (y_db y) e id) as (_ & _ & X'); [congruence|]. congruence.
    + rewrite (Hsame (e, id) Ne) in Er. exact (iv_gone _ HI _ _ Er D).
  - intros _ [e id] r NM Er. destruct NM. split; [apply (ro_entity _ _ _ (iv_rows _ HI _ _ Er)) | right; congruence].
  - intros _ [e id] F. destruct (facts_exist _ _ _ F) as (He & Hi & _).
    destruct (proj1 (HT (e, id)) (conj He (or_introl Hi))) as (_ & r & -> & _). discriminate.
Qed.

(** ** Statements on one row *)

(** [s'] is [s] but for the project's row under [k], which [f] changed. *)
Record changed_row (s s' : SheetDB) (k : Key) (f : SyncRow -> SyncRow) (r0 : SyncRow) : Prop := mkChanged {
  cr_links : sd_links s' = sd_links s;
  cr_keyed : well_keyed s -> well_keyed s';
  cr_old : row_at s k = Some r0;
  cr_new : row_at s' k = Some (f r0);
  cr_rest : forall k', k' <> k -> row_at s' k' = row_at s k'
}.
Lemma update_changed k p f db s s' out :
  (forall r, sr_ProjectID (f r) = sr_ProjectID r) -> (forall r, row_key (f r) = row_key r) ->
  update_row org project (ref_of k) p f db s = inr (s', out) ->
  (exists r0, changed_row s s' k f r0 /\ p r0 = true /\ out = Some (f r0))
  \/ (s' = s /\ out = None /\ forall r, row_at s k = Some r -> p r = false).
Proof.
  intros Hf Hk E. destruct (update_row_at _ _ _ _ _ _ _ Hf E) as [HL [(r0 & E0 & Hp & Eo & E1 & Es & Er)|?]]; [left | auto].
  exists r0. repeat split; auto. intros HK. eapply row_keyed_insert; eauto.
Qed.

Section ChangedRow.
Context (y : Sys) (s' : SheetDB) (k : Key) (f : SyncRow -> SyncRow) (r0 : SyncRow).
Hypothesis HC : changed_row (y_tables y) s' k f r0.

Lemma changed_cases k' r' : row_at s' k' = Some r' ->
  (k' = k /\ r' = f r0) \/ (k' <> k /\ row_at (y_tables y) k' = Some r').
Proof.
  destruct HC as [_ _ _ E1 Eo]. destruct (decide (k' = k)) as [->|Hne]; [left; split; congruence|].
  rewrite (Eo k' Hne). auto.
Qed.
Lemma changed_enabled : enabled s' = enabled (y_tables y).
Proof. apply enabled_links, HC. Qed.

(** A job that does not hold the changed row is left alone. *)
Lemma job_frame js used' t j : job_ok y t j -> y_used y ⊆ used' ->
  (j_key j = k -> sr_LeaseToken (f r0) <> Some t) ->
  (j_key j = k -> sr_LeaseToken r0 = Some t -> j_until j < y_now y) ->
  job_ok (mkSys (y_now y) (y_db y) s' (y_shown y) js used') t j.
Proof.
  intros [JU JC JL JR JP] Hu Hn Hl.
  assert (Hh : forall r', holds s' t j r' -> holds (y_tables y) t j r').
  { intros r' [E' Tk]. destruct (changed_cases _ _ E') as [[Hk ->]|[Hk E2]]; [destruct (Hn Hk Tk) | split; assumption]. }
  constructor; cbn; try rewrite changed_enabled; eauto.
  - intros Hle. destruct (JL Hle) as (r & E & Tk). destruct (decide (j_key j = k)) as [Hk|Hk].
    + rewrite Hk, (cr_old _ _ _ _ _ HC) in E. injection E as <-. specialize (Hl Hk Tk). lia.
    + exists r. split; [rewrite (cr_rest _ _ _ _ _ HC); assumption | exact Tk].
Qed.

(** The changed row and the jobs: the rest of the invariant is framed. *)
Lemma inv_changed js used' : Inv y -> y_used y ⊆ used' -> (sr_Deleted (f r0) = true -> sr_Deleted r0 = true) ->
  row_ok (mkSys (y_now y) (y_db y) s' (y_shown y) js used') k (f r0) ->
  (forall t j, js !! t = Some j -> job_ok (mkSys (y_now y) (y_db y) s' (y_shown y) js used') t j) ->
  Inv (mkSys (y_now y) (y_db y) s' (y_shown y) js used').
Proof.
  intros HI Hu Hd HR HJ. constructor; cbn; [apply (cr_keyed _ _ _ _ _ HC), HI | | exact HJ | | |].
  - intros k' r' E'. destruct (changed_cases _ _ E') as [[-> ->]|[_ E2]]; [exact HR|].
    destruct (iv_rows _ HI _ _ E2) as [RV RE RT RC]. constructor; cbn; try rewrite changed_enabled; eauto.
  - intros k' r' E' D. destruct (changed_cases _ _ E') as [[-> ->]|[_ E2]]; [|exact (iv_gone _ HI _ _ E2 D)].
    exact (iv_gone _ HI _ _ (cr_old _ _ _ _ _ HC) (Hd D)).
  - intros k' E'. apply (iv_none _ HI). destruct (decide (k' = k)) as [->|Hne]; [rewrite (cr_new _ _ _ _ _ HC) in E'; discriminate|].
    rewrite <- (cr_rest _ _ _ _ _ HC k' Hne). exact E'.
  - rewrite changed_enabled. intros En k' F. destruct (decide (k' = k)) as [->|Hne]; [rewrite (cr_new _ _ _ _ _ HC); discriminate|].
    rewrite (cr_rest _ _ _ _ _ HC k' Hne). apply (iv_have _ HI En), F.
Qed.
End ChangedRow.

Lemma claimable_spec at_ r : claimable at_ r = true ->
  sr_SyncedVersion r < sr_Version r /\ sr_Attempts r < MaxRowAttempts
  /\ (forall u, sr_LeasedUntil r = Some u -> u < at_) /\ (forall u, sr_RetryAfter r = Some u -> u < at_).
Proof.
  unfold claimable, row_dirty, before_. rewrite !andb_true_iff, !Z.ltb_lt. intros [[[H1 H2] H3] H4].
  split; [exact H1|]. split; [exact H2|].
  split; intros u E; [rewrite E in H3; apply Z.ltb_lt, H3 | rewrite E in H4; apply Z.ltb_lt, H4].
Qed.

Lemma inv_claim y k t s' r : Inv y -> t ∉ y_used y ->
  update_row org project (ref_of k) (claimable (y_now y)) (set_claim t (y_now y + leaseTTL)) (y_db y) (y_tables y)
    = inr (s', Some r) ->
  Inv (mkSys (y_now y) (y_db y) s' (y_shown y)
         (<[t := mkJob k (sr_Version r) (y_now y + leaseTTL) (sr_Deleted r) Claimed]> (y_jobs y)) ({[t]} ∪ y_used y)).
Proof.
  intros HI Ht E. apply update_changed in E; [|reflexivity ..].
  destruct E as [(r0 & HC & Hc & [= ->])|(_ & ? & _)]; [|discriminate].
  destruct (claimable_spec _ _ Hc) as (Hd & _ & Hu & _). pose proof (iv_rows _ HI _ _ (cr_old _ _ _ _ _ HC)) as [RV RE RT RC].
  apply (inv_changed _ _ _ _ _ HC); [exact HI | apply union_subseteq_r | auto | |].
  - constructor; cbn; [exact RV | exact RE | intros t' [= <-]; apply elem_of_union_l, elem_of_singleton_2; reflexivity|].
    rewrite (changed_enabled _ _ _ _ _ HC). intros En D. apply RC; assumption.
  - intros t' j Hj. destruct (decide (t' = t)) as [->|Hne].
    + rewrite lookup_insert_eq in Hj. injection Hj as <-. constructor; cbn.
      * apply elem_of_union_l, elem_of_singleton_2. reflexivity.
      * intros r' [E' _]. cbn in E'. rewrite (cr_new _ _ _ _ _ HC) in E'. injection E' as <-. cbn.
        split; [lia|]. auto.
      * intros _. eexists. split; [apply HC | reflexivity].
      * intros r' row _ _ _ [?|?]; discriminate.
      * discriminate.
    + rewrite lookup_insert_ne in Hj by auto.
      apply (job_frame _ _ _ _ _ HC); [apply (iv_jobs _ HI _ _ Hj) | apply union_subseteq_r | cbn; congruence|].
      intros Hk Tk. destruct (jo_claim _ _ _ (iv_jobs _ HI _ _ Hj) r0) as (_ & Hu' & _); [|apply Hu, Hu'].
      split; [rewrite Hk; apply HC | exact Tk].
Qed.

(** The jobs left when the holder of a lease gives it up. *)
Lemma jobs_after y s' k f r0 t : Inv y -> changed_row (y_tables y) s' k f r0 -> holds_lease t r0 = true ->
  sr_LeaseToken (f r0) = None ->
  forall t' j', delete t (y_jobs y) !! t' = Some j' ->
  job_ok (mkSys (y_now y) (y_db y) s' (y_shown y) (delete t (y_jobs y)) (y_used y)) t' j'.
Proof.
  intros HI HC Hh Hn t' j' Hj. apply lookup_delete_Some in Hj as [Hne Hj].
  apply (job_frame _ _ _ _ _ HC); [apply (iv_jobs _ HI _ _ Hj) | reflexivity | congruence|].
  intros _ Tk. unfold holds_lease in Hh. rewrite Tk in Hh. apply N.eqb_eq in Hh. congruence.
Qed.
Lemma holds_lease_token t r : holds_lease t r = true -> sr_LeaseToken r = Some t.
Proof. unfold holds_lease. destruct (sr_LeaseToken r) as [x|]; [|discriminate]. intros Hx. apply N.eqb_eq in Hx. congruence. Qed.

Lemma inv_drop y t : Inv y -> Inv (with_jobs (delete t (y_jobs y)) y).
Proof.
  intros [IK IR IJ IG IN IH]. constructor; cbn; auto.
  - intros k r E. destruct (IR k r E). constructor; auto.
  - intros t' j Hj. apply lookup_delete_Some in Hj as [_ Hj]. destruct (IJ _ _ Hj). constructor; auto.
Qed.

Lemma inv_settle y t j row s' out : Inv y -> y_jobs y !! t = Some j -> j_stage j = Pushed row ->
  update_row org project (ref_of (j_key j)) (holds_lease t) (set_settled (j_version j)) (y_db y) (y_tables y) = inr (s', out) ->
  Inv (with_jobs (delete t (y_jobs y)) (with_tables s' y)).
Proof.
  intros HI Hj Hs E. apply update_changed in E; [|reflexivity ..].
  destruct E as [(r0 & HC & Hh & _)|(-> & _)]; [|apply (inv_drop (with_tables (y_tables y) y)); destruct y; exact HI].
  pose proof (iv_rows _ HI _ _ (cr_old _ _ _ _ _ HC)) as [RV RE RT RC].
  assert (Ht : holds (y_tables y) t j r0) by (split; [apply HC | apply holds_lease_token, Hh]).
  pose proof (iv_jobs _ HI _ _ Hj) as [JU JC JL JR JP]. destruct (JC r0 Ht) as (Hv & _ & _).
  apply (inv_changed _ _ _ _ _ HC); [exact HI | reflexivity | auto | |].
  - constructor; cbn; [lia | exact RE | discriminate|].
    rewrite (changed_enabled _ _ _ _ _ HC). intros En D. unfold row_dirty in D. cbn in D. apply Z.ltb_ge in D.
    rewrite (JP r0 row Ht Hs). apply (JR r0 row En Ht); [lia | auto].
  - apply (jobs_after _ _ _ _ _ t HI HC Hh); reflexivity.
Qed.
Lemma inv_release y t j f s' out : Inv y -> y_jobs y !! t = Some j ->
  update_row org project (ref_of (j_key j)) (holds_lease t) (set_released f) (y_db y) (y_tables y) = inr (s', out) ->
  Inv (with_jobs (delete t (y_jobs y)) (with_tables s' y)).
Proof.
  intros HI Hj E. apply update_changed in E; [|reflexivity ..].
  destruct E as [(r0 & HC & Hh & _)|(-> & _)]; [|apply (inv_drop (with_tables (y_tables y) y)); destruct y; exact HI].
  pose proof (iv_rows _ HI _ _ (cr_old _ _ _ _ _ HC)) as [RV RE RT RC].
  apply (inv_changed _ _ _ _ _ HC); [exact HI | reflexivity | auto | |].
  - constructor; cbn; [exact RV | exact RE | discriminate|].
    rewrite (changed_enabled _ _ _ _ _ HC). intros En D. apply RC; assumption.
  - apply (jobs_after _ _ _ _ _ t HI HC Hh); reflexivity.
Qed.

(** The rest of the invariant when the tables stay. *)
Lemma inv_staged y t j st : Inv y -> y_jobs y !! t = Some j ->
  (forall r row, enabled (y_tables y) = true -> holds (y_tables y) t j r -> sr_Version r = j_version j ->
     st = Got row \/ st = Pushed row -> row = facts (y_db y) (j_key j)) ->
  (forall r row, holds (y_tables y) t j r -> st = Pushed row -> y_shown y (j_key j) = row) ->
  Inv (staged t j st y).
Proof.
  intros [IK IR IJ IG IN IH] Hj HR HP. constructor; cbn; auto.
  - intros k r E. destruct (IR k r E). constructor; auto.
  - intros t' j' Hj'. destruct (decide (t = t')) as [<-|Hne].
    + rewrite lookup_insert_eq in Hj'. injection Hj' as <-. destruct (IJ _ _ Hj) as [JU JC JL JR JP].
      constructor; cbn; auto.
    + rewrite lookup_insert_ne in Hj' by exact Hne. destruct (IJ _ _ Hj'). constructor; auto.
Qed.
Lemma inv_read y t j : Inv y -> y_jobs y !! t = Some j ->
  Inv (staged t j (Got (if j_deleted j then None else facts (y_db y) (j_key j))) y).
Proof.
  intros HI Hj. apply inv_staged; [exact HI | exact Hj | | discriminate].
  intros r row _ Hh _ [E|E]; [|discriminate]. injection E as <-. destruct (j_deleted j) eqn:D; [|reflexivity].
  symmetry. apply (iv_gone _ HI _ r); [apply Hh|].
  apply (jo_claim _ _ _ (iv_jobs _ HI _ _ Hj) r Hh), D.
Qed.

(** Only the holder of an unexpired lease pushes, and its row is dirty. *)
Lemma inv_push y t j row : Inv y -> y_jobs y !! t = Some j -> j_stage j = Got row \/ j_stage j = Pushed row ->
  y_now y <= j_until j -> Inv (show (j_key j) row (staged t j (Pushed row) y)).
Proof.
  intros HI Hj Hs Hl. pose proof (iv_jobs _ HI _ _ Hj) as JO. destruct (jo_live _ _ _ JO Hl) as (r0 & Hh).
  destruct (jo_claim _ _ _ JO r0 Hh) as (Hv & _ & _).
  destruct HI as [IK IR IJ IG IN IH]. constructor; cbn; auto.
  - intros k r E. destruct (IR k r E) as [RV RE RT RC]. constructor; cbn; auto. intros En D.
    destruct (decide (k = j_key j)) as [->|]; [|apply RC; assumption].
    destruct Hh as [E0 _]. rewrite E in E0. injection E0 as <-. unfold row_dirty in D. apply Z.ltb_ge in D. lia.
  - intros t' j' Hj'. destruct (decide (t = t')) as [<-|Hne].
    + rewrite lookup_insert_eq in Hj'. injection Hj' as <-. destruct JO as [JU JC JL JR JP].
      constructor; cbn; auto.
      * intros r row' En Hr V [?|[= <-]]; [discriminate|]. exact (JR r row En Hr V Hs).
      * intros r row' _ [= <-]. destruct (decide (j_key j = j_key j)); congruence.
    + rewrite lookup_insert_ne in Hj' by exact Hne. destruct (IJ _ _ Hj') as [JU JC JL JR JP]. constructor; cbn; auto.
      intros r row' Hr Hs'. destruct (decide (j_key j' = j_key j)) as [Hk|]; [|eapply JP; eassumption].
      destruct Hr as [E Tk], Hh as [E0 T0]. rewrite Hk in E. congruence.
  - intros k E. destruct (decide (k = j_key j)) as [->|]; [|apply IN, E]. destruct Hh as [E0 _]. congruence.
Qed.

Lemma step_inv y y' : Inv y -> step y y' -> Inv y'.
Proof.
  intros HI HS. destruct HS.
  - destruct HI as [IK IR IJ IG IN IH]. constructor; cbn; auto.
    + intros k r E. destruct (IR k r E). constructor; auto.
    + intros t j Hj. destruct (IJ _ _ Hj) as [JU JC JL JR JP]. constructor; cbn; auto. intros Hle. apply JL. lia.
  - eapply inv_write; eassumption.
  - destruct HI as [IK IR IJ IG IN IH]. constructor; cbn; auto; [| |congruence].
    + intros k r E. destruct (IR k r E). constructor; cbn; auto. congruence.
    + intros t j Hj. destruct (IJ _ _ Hj). constructor; cbn; auto. congruence.
  - destruct HI as [IK IR IJ IG IN IH]. constructor; cbn; [exact IK | | | exact IG | exact IN |].
    + intros k r E. destruct (IR k r E). constructor; cbn; auto.
    + intros t j Hj. destruct (IJ _ _ Hj) as [JU JC JL JR JP]. constructor; cbn; auto.
      intros r row En. apply JR. auto.
    + intros En. apply IH. auto.
  - eapply inv_backfill; eassumption.
  - apply inv_claim; assumption.
  - apply inv_read; assumption.
  - apply inv_push with (t := t); assumption.
  - eapply inv_settle; eassumption.
  - eapply inv_release; eassumption.
  - apply inv_drop; assumption.
Qed.
Lemma reach_inv y : reach y -> Inv y.
Proof.
  induction 1 as [now db links shown Hs Hf | y y' _ IH HS]; [|eapply step_inv; eassumption].
  assert (HN : forall k, row_at (mkSheetDB links ∅) k = None).
  { intros k. unfold row_at, state_row. cbn. rewrite lookup_empty. reflexivity. }
  constructor; cbn; auto.
  - intros key o. cbn. rewrite lookup_empty. discriminate.
  - intros k r E. rewrite HN in E. discriminate.
  - intros t j. rewrite lookup_empty. discriminate.
  - intros k r E. rewrite HN in E. discriminate.
Qed.

(** ** Progress: a row that is not given up can always be synced *)

Lemma update_row_ok k p f db s r : row_at s k = Some r -> p r = true ->
  (forall r, sr_ProjectID (f r) = sr_ProjectID r) -> (forall r, row_key (f r) = row_key r) ->
  exists s', update_row org project (ref_of k) p f db s = inr (s', Some (f r)) /\ changed_row s s' k f r.
Proof.
  intros E Hp Hf Hk.
  assert (EU : exists s', update_row org project (ref_of k) p f db s = inr (s', Some (f r))).
  { unfold update_row. fold (row_at s k). rewrite E, Hp. eauto. }
  destruct EU as [s' EU]. exists s'. split; [exact EU|]. apply update_changed in EU; [|exact Hf | exact Hk].
  destruct EU as [(r0 & HC & _)|(_ & ? & _)]; [|discriminate]. pose proof (cr_old _ _ _ _ _ HC) as E0.
  rewrite E in E0. injection E0 as <-. exact HC.
Qed.

Definition rests_same (y y' : Sys) : Prop := y_db y' = y_db y /\ sd_links (y_tables y') = sd_links (y_tables y).
Lemma sync_one y k r : row_at (y_tables y) k = Some r -> row_dirty r = true -> sr_Attempts r < MaxRowAttempts ->
  exists y' r', rtc step y y' /\ rests_same y y' /\ row_at (y_tables y') k = Some r' /\ row_dirty r' = false
    /\ forall k', k' <> k -> row_at (y_tables y') k' = row_at (y_tables y) k'.
Proof.
  intros E D A.
  set (after := fun o : option Z => match o with Some u => Z.max 0 (u - y_now y + 1) | None => 0 end).
  set (dt := Z.max (after (sr_LeasedUntil r)) (after (sr_RetryAfter r))).
  set (t := fresh (y_used y)). assert (Ht : t ∉ y_used y) by apply is_fresh.
  set (now := y_now y + dt).
  assert (Hc : claimable now r = true).
  { unfold claimable, before_. rewrite D. rewrite !andb_true_iff. unfold now, dt, after.
    split; [split; [split; [reflexivity | apply Z.ltb_lt, A]|]|];
      destruct (sr_LeasedUntil r), (sr_RetryAfter r); try reflexivity; apply Z.ltb_lt; lia. }
  destruct (update_row_ok k (claimable now) (set_claim t (now + leaseTTL)) (y_db y) (y_tables y) r E Hc
    (fun _ => eq_refl) (fun _ => eq_refl)) as (s1 & U1 & C1).
  destruct (update_row_ok k (holds_lease t) (set_settled (sr_Version r)) (y_db y) s1 _ (cr_new _ _ _ _ _ C1)
    (N.eqb_refl t) (fun _ => eq_refl) (fun _ => eq_refl)) as (s2 & U2 & C2).
  set (j := mkJob k (sr_Version r) (now + leaseTTL) (sr_Deleted r) Claimed).
  set (row := if j_deleted j then None else facts (y_db y) k).
  set (y0 := mkSys now (y_db y) (y_tables y) (y_shown y) (y_jobs y) (y_used y)).
  set (y1 := mkSys now (y_db y) s1 (y_shown y) (<[t := j]> (y_jobs y)) ({[t]} ∪ y_used y)).
  set (y2 := staged t j (Got row) y1).
  set (j2 := mkJob k (sr_Version r) (now + leaseTTL) (sr_Deleted r) (Got row)).
  set (y3 := show k row (staged t j2 (Pushed row) y2)).
  exists (with_jobs (delete t (y_jobs y3)) (with_tables s2 y3)). eexists. split; [|split; [split; [reflexivity|]|split; [apply C2|split]]].
  - eapply rtc_l; [apply (step_tick y dt); unfold dt, after; destruct (sr_LeasedUntil r), (sr_RetryAfter r); lia|].
    eapply rtc_l; [exact (step_claim y0 k t s1 _ Ht U1)|].
    eapply rtc_l; [exact (step_read y1 t j (lookup_insert_eq _ _ _) eq_refl)|].
    eapply rtc_l; [refine (step_push y2 t j2 row (lookup_insert_eq _ _ _) (or_introl eq_refl) _); cbn; unfold leaseTTL, Minute, Second; lia|].
    apply rtc_once. eapply (step_settle y3 t (mkJob k (sr_Version r) (now + leaseTTL) (sr_Deleted r) (Pushed row)) row);
      [apply lookup_insert_eq | reflexivity | exact U2].
  - cbn. rewrite (cr_links _ _ _ _ _ C2). apply C1.
  - unfold row_dirty. cbn. apply Z.ltb_irrefl.
  - intros k' Hne. cbn. rewrite (cr_rest _ _ _ _ _ C2 k' Hne). apply C1, Hne.
Qed.

(** Rows opensheet refused too often wait for their next edit. *)
Definition none_given_up (y : Sys) : Prop :=
  forall k r, row_at (y_tables y) k = Some r -> row_dirty r = true -> sr_Attempts r < MaxRowAttempts.
Lemma sync_keys ks y : none_given_up y ->
  exists y', rtc step y y' /\ rests_same y y' /\ none_given_up y'
    /\ (forall k r, In k ks -> row_at (y_tables y') k = Some r -> row_dirty r = false)
    /\ (forall k, row_at (y_tables y) k = None -> row_at (y_tables y') k = None).
Proof.
  revert y. induction ks as [|k ks IH]; intros y HG.
  { exists y. split; [reflexivity|]. split; [split; reflexivity|]. split; [exact HG|]. split; [intros ? ? [] | auto]. }
  destruct (IH y HG) as (y1 & S1 & [D1 L1] & G1 & C1 & N1).
  destruct (row_at (y_tables y1) k) as [r|] eqn:E; [destruct (row_dirty r) eqn:D|].
  - destruct (sync_one y1 k r E D (G1 k r E D)) as (y2 & r2 & S2 & [D2 L2] & E2 & Q2 & R2).
    exists y2. split; [etransitivity; eassumption|]. split; [split; congruence|]. split; [|split].
    + intros k' r' E' D'. destruct (decide (k' = k)) as [->|Hne]; [congruence|]. rewrite (R2 k' Hne) in E'. eapply G1; eassumption.
    + intros k' r' I E'. destruct (decide (k' = k)) as [->|Hne]; [congruence|]. rewrite (R2 k' Hne) in E'.
      destruct I as [->|I]; [congruence | eapply C1; eassumption].
    + intros k' E'. apply N1 in E'. destruct (decide (k' = k)) as [->|Hne]; [congruence | rewrite (R2 k' Hne); exact E'].
  - exists y1. split; [exact S1|]. split; [split; assumption|]. split; [exact G1|]. split; [|exact N1].
    intros k' r' [<-|I] E'; [congruence | eapply C1; eassumption].
  - exists y1. split; [exact S1|]. split; [split; assumption|]. split; [exact G1|]. split; [|exact N1].
    intros k' r' [<-|I] E'; [congruence | eapply C1; eassumption].
Qed.
Lemma reach_rtc y y' : reach y -> rtc step y y' -> reach y'.
Proof. intros Hr Hs. induction Hs; [exact Hr | apply IHHs; eapply reach_step; eassumption]. Qed.
End Steps.

(** ** One pass over a row

    What [syncRow] does to the row it is given when no other session interferes:
    nothing when the row cannot be claimed; otherwise a push, and the row settled at
    the version pushed or released with the failure recorded. *)
(** [s'] is [s] but for the row under [key]. *)
Definition only_row (s s' : SheetDB) (key : SyncKey) (r : SyncRow) : Prop :=
  sd_links s' = sd_links s /\ sd_state s' = <[key := r]> (sd_state s).

Section Pass.
Context `{Env, Deadlines, JobQueue, Queued, SheetServer, Endpoint, Sealer, Source}.

(** A program that only reads, alone. *)
Definition still {A} (m : M A) : Prop :=
  forall w, W_db (snd (m w)) = W_db w /\ W_sheet (snd (m w)) = W_sheet w /\ W_sent (snd (m w)) = W_sent w.

Hypothesis Hq : quiet.
Hypothesis Hs : sheet_quiet.
Hypothesis Hu : undisturbed.

(** A statement of its own in a calm world. *)
Lemma swp_stmt {A} cx (body : M A) d s h (Q : Outcome Error A -> DB -> SheetDB -> list Sent -> Prop) :
  swp body d s h (fun o d' s' h' => match o with Ok a => Q (Ok a) d' s' h' | _ => False end) ->
  swp (sheet_tx cx body) d s h Q.
Proof.
  intros Hb. apply swp_sheet_tx; [auto | | contradiction].
  eapply swp_conseq; [exact Hb|]. intros [a|e|p] d' s' h'; [auto | contradiction ..].
Qed.

Section OneRow.
Context (cx : Ctx) (l : Link) (ref : Ref).
Abbreviation org := (lk_OrgID l).
Abbreviation project := (lk_ProjectID l).
Abbreviation key := (key_of org ref).

Lemma update_row_found p f d s r : state_row s org project ref = Some r -> p r = true ->
  update_row org project ref p f d s = inr (set_state_rows (<[key := f r]> (sd_state s)) s, Some (f r)).
Proof. intros E Hp. unfold update_row. rewrite E, Hp. reflexivity. Qed.
Lemma state_row_at s r' : sd_state s !! key = Some r' -> sr_ProjectID r' = project -> state_row s org project ref = Some r'.
Proof. intros E P. unfold state_row. rewrite E, P, N.eqb_refl. reflexivity. Qed.
Lemma state_row_inv s r : state_row s org project ref = Some r -> sd_state s !! key = Some r /\ sr_ProjectID r = project.
Proof.
  unfold state_row. destruct (sd_state s !! _) as [x|]; [|discriminate].
  destruct (N.eqb_spec (sr_ProjectID x) project); [intros [= <-]; auto | discriminate].
Qed.

Lemma swp_Claim t at_ ttl d s h (Q : Outcome Error (option State) -> DB -> SheetDB -> list Sent -> Prop) :
  match state_row s org project ref with
  | Some r => if claimable at_ r
              then forall s', only_row s s' key (set_claim t (at_ + ttl) r) -> Q (Ok (Some (toState r))) d s' h
              else Q (Ok None) d s h
  | None => Q (Ok None) d s h
  end -> swp (store_Claim cx org project ref t at_ ttl) d s h Q.
Proof.
  intros HQ. apply swp_stmt, swp_bind, swp_maperr, swp_exec_sheet; [|contradiction].
  unfold update_row. destruct (state_row s org project ref) as [r|]; [destruct (claimable at_ r)|];
    apply swp_ret; cbn; auto. apply HQ. split; reflexivity.
Qed.
Lemma swp_Settle t v d s h r (Q : Outcome Error (bool * bool) -> DB -> SheetDB -> list Sent -> Prop) :
  state_row s org project ref = Some r -> holds_lease t r = true ->
  (forall s', only_row s s' key (set_settled v r) -> Q (Ok (true, v <? sr_Version r)) d s' h) ->
  swp (store_Settle cx org project ref v t) d s h Q.
Proof.
  intros E Hh HQ. apply swp_stmt, swp_bind, swp_maperr, swp_exec_sheet; [|contradiction].
  rewrite (update_row_found _ _ _ _ _ E Hh). apply swp_ret, HQ. split; reflexivity.
Qed.
Lemma swp_Release t f d s h r (Q : Outcome Error unit -> DB -> SheetDB -> list Sent -> Prop) :
  state_row s org project ref = Some r -> holds_lease t r = true ->
  (forall s', only_row s s' key (set_released f r) -> Q (Ok tt) d s' h) ->
  swp (store_Release cx org project ref t f) d s h Q.
Proof.
  intros E Hh HQ. apply swp_stmt, swp_bind, swp_maperr, swp_exec_sheet; [|contradiction].
  rewrite (update_row_found _ _ _ _ _ E Hh). apply swp_ret, HQ. split; reflexivity.
Qed.

(** The row a lease was taken on, then changed by [f]. *)
Lemma only_row_again s s1 s2 t u r f : only_row s s1 key (set_claim t u r) ->
  only_row s1 s2 key (f (set_claim t u r)) -> only_row s s2 key (f (set_claim t u r)).
Proof. intros [L1 E1] [L2 E2]. split; [congruence|]. rewrite E2, E1. apply insert_insert_eq. Qed.

(** A row that cannot be claimed is left alone, and nothing is sent. *)
Lemma syncRow_skips d s h :
  (forall n r, state_row s org project ref = Some r -> claimable (env_now n) r = false) ->
  swp (syncRow cx l ref) d s h (fun o d' s' h' => o = Ok (0, None) /\ d' = d /\ s' = s /\ h' = h).
Proof.
  intros Hc. unfold syncRow, maxPasses. cbn [row_passes].
  apply swp_bind, swp_NewV7. intros n. apply swp_bind, swp_time_Now. intros n2.
  apply swp_bind, swp_try, swp_Claim. destruct (state_row s org project ref) as [r|]; [rewrite (Hc n2 r eq_refl)|];
    apply swp_ret; auto.
Qed.

(** A claimed row is settled after its push, or released after its failure. *)
Lemma syncRow_pass d s h r (POk : list Sent -> Prop) (PErr : Error -> list Sent -> Prop) :
  state_row s org project ref = Some r -> (forall n, claimable (env_now n) r = true) ->
  st_Ref (toState r) = mkRef (rf_Entity ref) (rf_ID ref) (sr_Deleted r) false ->
  (forall s1, swp (push cx l (toState r)) d s1 h (fun o d' s' h' => d' = d /\ s' = s1 /\
     match o with Ok _ => POk h' | Err e => PErr e h' | Panic _ => False end)) ->
  swp (syncRow cx l ref) d s h (fun o d' s' h' => d' = d /\ exists t u,
    (POk h' /\ o = Ok (1, None) /\ only_row s s' key (set_settled (sr_Version r) (set_claim t u r)))
    \/ (exists e now, PErr e h' /\ o = Ok (0, Some e)
        /\ only_row s s' key (set_released (failure_of (toState r) e now) (set_claim t u r)))).
Proof.
  intros E Hc Href Hp. unfold syncRow, maxPasses. cbn [row_passes].
  apply swp_bind, swp_NewV7. intros n. apply swp_bind, swp_time_Now. intros n2. set (t := env_uuid n d).
  apply swp_bind, swp_try, swp_Claim. rewrite E, Hc. intros s1 C1.
  assert (E1 : state_row s1 org project ref = Some (set_claim t (env_now n2 + leaseTTL) r)).
  { apply state_row_at; [rewrite (proj2 C1); apply lookup_insert_eq | apply (state_row_inv _ _ E)]. }
  apply swp_bind, swp_try. eapply swp_conseq; [apply Hp|]. intros [[]|e|p] d1 s2 h2 (-> & -> & HP); [| |contradiction].
  - apply swp_bind, swp_try. eapply swp_Settle; [exact E1 | cbn; apply N.eqb_refl|]. intros s2 C2.
    cbn [sr_Version set_claim st_Version toState]. rewrite Z.ltb_irrefl. cbn [negb orb]. apply swp_ret.
    split; [reflexivity|]. exists t, (env_now n2 + leaseTTL). left. split; [exact HP|]. split; [reflexivity|].
    exact (only_row_again _ _ _ _ _ _ (set_settled (sr_Version r)) C1 C2).
  - apply swp_bind. unfold release. apply swp_bind, swp_time_Now. intros n3. apply swp_bind, swp_try.
    rewrite Href. eapply swp_Release with (r := set_claim t (env_now n2 + leaseTTL) r).
    + exact E1.
    + cbn. apply N.eqb_refl.
    + intros s2 C2. apply swp_ret, swp_ret. split; [reflexivity|]. exists t, (env_now n2 + leaseTTL). right.
      exists e, (env_now n3). split; [exact HP|]. split; [reflexivity|].
      exact (only_row_again _ _ _ _ _ _ (set_released (failure_of (toState r) e (env_now n3))) C1 C2).
Qed.
End OneRow.
End Pass.
