(* ===== verification/Report.v ===== *)
(** * Reports ([internal/report]) and the period snapshot ([internal/boot/adapters.go])

    The read-only queries over the ledger's tables, the figures the service
    assembles from them, and the adapter that hands a period's summary to
    [period.Close] as its snapshot. The SQL text is read as the function of the
    tables it denotes; a SUM beyond 64 bits fails the query, as SQLite's does. *)
From Stdlib Require Import ZArith Lia String List.
From Stdlib Require Import Floats.SpecFloat.
From stdpp Require Import base gmap list strings.
From S2P Require Import Prelude GoStrings Errors Civil Money Tenant Ledger Period Wallet Category Transaction World.
From S2P Require Import LedgerService PeriodStore PeriodService Commit WalletService CategoryService TxStore.
Local Open Scope string_scope.
Local Open Scope Z_scope.

(** ** Report values ([report.go]) *)

Record PeriodRef := mkPeriodRef {
  ref_ID : uuid;
  ref_Name : string;
  ref_Start : Date;
  ref_End : option Date;
  ref_ClosedAt : option Z
}.

Definition ArchivedBefore (r : PeriodRef) (loc : Location) : option Z :=
  match ref_End r with
  | None => None
  | Some e =>
    let cut := In_ (AddDays e 1) loc in
    Some (match ref_ClosedAt r with Some c => if c <? cut then c else cut | None => cut end)
  end.

Record WalletLine := mkWalletLine {
  wl_WalletID : uuid;
  wl_Name : string;
  wl_Kind : string;
  wl_ExcludeFromTotal : bool;
  wl_Opening : Amount;
  wl_In : Amount;
  wl_Out : Amount;
  wl_Closing : Amount
}.
Record WalletTotals := mkWalletTotals { wt_Spendable : Amount; wt_Total : Amount; wt_Mixed : bool }.
Record PeriodSummary := mkPeriodSummary {
  ps_Period : PeriodRef;
  ps_Currency : Currency;
  ps_Income : Amount;
  ps_Expense : Amount;
  ps_Net : Amount;
  ps_TxCount : Z;
  ps_Wallets : list WalletLine;
  ps_SpendableTotal : Amount;
  ps_Total : Amount
}.
(** [Share] is an IEEE double. *)
Record CategorySlice := mkCategorySlice {
  cs_CategoryID : option uuid;
  cs_Name : string;
  cs_Icon : string;
  cs_Color : string;
  cs_Amount : Amount;
  cs_Share : spec_float;
  cs_Count : Z
}.
Record CashflowPoint := mkCashflowPoint {
  cp_Period : PeriodRef;
  cp_Income : Amount;
  cp_Expense : Amount;
  cp_Net : Amount
}.
Record Flow := mkFlow {
  fl_WalletID : uuid;
  fl_WalletName : string;
  fl_CategoryID : option uuid;
  fl_CategoryName : string;
  fl_Amount : Amount
}.

(** ** Assembling ([compute.go]) *)

Record walletMovement := mkMovement {
  wm_WalletID : uuid;
  wm_Name : string;
  wm_Kind : string;
  wm_ExcludeFromTotal : bool;
  wm_Opening : Z;
  wm_In : Z;
  wm_Out : Z
}.

Definition movement_line (m : walletMovement) (currency : Currency) : WalletLine :=
  mkWalletLine (wm_WalletID m) (wm_Name m) (wm_Kind m) (wm_ExcludeFromTotal m)
    (New (wm_Opening m) currency) (New (wm_In m) currency) (New (wm_Out m) currency)
    (New (wrap64 (wrap64 (wm_Opening m + wm_In m) - wm_Out m)) currency).

(** [Add] is reached only within one currency. *)
Definition add_line (total : Amount) (l : WalletLine) : Amount :=
  match Add total (wl_Closing l) with Some sum => sum | None => total end.

Definition TotalsOf (lines : list WalletLine) (currency : Currency) : WalletTotals :=
  fold_left (fun out l =>
    if negb (String.eqb (AmountCurrency (wl_Closing l)) currency)
    then mkWalletTotals (wt_Spendable out) (wt_Total out) true
    else mkWalletTotals (if wl_ExcludeFromTotal l then wt_Spendable out else add_line (wt_Spendable out) l)
           (add_line (wt_Total out) l) (wt_Mixed out))
    lines (mkWalletTotals (Zero currency) (Zero currency) false).

Definition assembleSummary (ref : PeriodRef) (currency : Currency) (income expense txCount : Z)
    (moves : list walletMovement) : PeriodSummary :=
  let lines := map (fun m => movement_line m currency) moves in
  let totals := TotalsOf lines currency in
  mkPeriodSummary ref currency (New income currency) (New expense currency)
    (New (wrap64 (income - expense)) currency) txCount lines (wt_Spendable totals) (wt_Total totals).

(** [float64(z)] of an int64, and a division of two doubles. *)
Definition float64 (z : Z) : spec_float := binary_normalize 53 1024 z 0 false.
Definition float_div (a b : spec_float) : spec_float := SFdiv 53 1024 a b.

Definition assignShares (slices : list CategorySlice) : list CategorySlice :=
  let total := fold_left (fun acc s => wrap64 (acc + Minor (cs_Amount s))) slices 0 in
  if total =? 0 then slices else
  map (fun s => mkCategorySlice (cs_CategoryID s) (cs_Name s) (cs_Icon s) (cs_Color s) (cs_Amount s)
                  (float_div (float64 (Minor (cs_Amount s))) (float64 total)) (cs_Count s)) slices.

Definition orderCashflow (periodIDs : list uuid) (found : gmap uuid CashflowPoint) : list CashflowPoint :=
  filter_map (fun id => found !! id) periodIDs.

(** ** The queries ([sql.go]) *)
Section Queries.
Variables (db : DB) (orgID scopeOrg projectID : uuid).

Definition report_txs : list Transaction :=
  List.filter (tx_scope orgID projectID scopeOrg) (rows (db_txs db)).
Definition of_period (periodID : uuid) (t : Transaction) : bool :=
  match t_PeriodID t with Some p => N.eqb p periodID | None => false end.
Definition in_currency (currency : Currency) (t : Transaction) : bool :=
  String.eqb (AmountCurrency (t_Amount t)) currency.
Definition kind_in (ks : list string) (t : Transaction) : bool := existsb (String.eqb (t_Kind t)) ks.
Definition income_of (t : Transaction) : Z :=
  if kind_in [TxIncome; TxAdjustmentIn] t then Minor (t_Amount t) else 0.
Definition expense_of (t : Transaction) : Z :=
  if kind_in [TxExpense; TxAdjustmentOut] t then Minor (t_Amount t) else 0.

(** [summaryTotalsSQL]: income, expense and the count of incomes and expenses. *)
Definition summaryTotals (periodID : uuid) (currency : Currency) : option (Z * Z * Z) :=
  let ts := List.filter (fun t => of_period periodID t && in_currency currency t) report_txs in
  match sql_sum (map income_of ts), sql_sum (map expense_of ts) with
  | Some i, Some e => Some (i, e, Z.of_nat (List.length (List.filter (kind_in [TxIncome; TxExpense]) ts)))
  | _, _ => None
  end.

Definition period_in_project (p : Period) : bool :=
  N.eqb (pr_OrgID p) orgID && N.eqb (pr_ProjectID p) projectID.
(** [priorPredicate]: the transaction counts towards the period's opening balances. *)
Definition prior (periodID : uuid) (startUTC : Z) (t : Transaction) : bool :=
  match t_PeriodID t with
  | None => t_OccurredAt t <? startUTC
  | Some pid =>
    match List.find (fun p => N.eqb (pr_ID p) periodID && period_in_project p) (rows (db_periods db)) with
    | None => false
    | Some this =>
      existsb (fun p => N.eqb (pr_ID p) pid && period_in_project p && Before (pr_StartDate p) (pr_StartDate this))
        (rows (db_periods db))
    end
  end.

(** The rows of the union: wallet, opening, in, out. *)
Definition Move : Type := uuid * (Z * Z * Z).
Definition own_move (periodID : uuid) (startUTC : Z) (t : Transaction) : Move :=
  let a := Minor (t_Amount t) in
  (t_WalletID t,
   (if prior periodID startUTC t then (if IsInflow (t_Kind t) then a else - a) else 0,
    if of_period periodID t && IsInflow (t_Kind t) then a else 0,
    if of_period periodID t && kind_in [TxExpense; TxTransfer; TxAdjustmentOut] t then a else 0)).
Definition incoming_move (periodID : uuid) (startUTC : Z) (t : Transaction) : option Move :=
  let a := Minor (t_Amount t) in
  if String.eqb (t_Kind t) TxTransfer then
    match t_ToWalletID t with
    | Some to => Some (to, (if prior periodID startUTC t then a else 0, if of_period periodID t then a else 0, 0))
    | None => None
    end
  else None.
Definition own_total (t : Transaction) : Move :=
  let a := Minor (t_Amount t) in
  (t_WalletID t, (0, if IsInflow (t_Kind t) then a else 0,
                  if kind_in [TxExpense; TxTransfer; TxAdjustmentOut] t then a else 0)).
Definition incoming_total (t : Transaction) : option Move :=
  if String.eqb (t_Kind t) TxTransfer then
    match t_ToWalletID t with Some to => Some (to, (0, Minor (t_Amount t), 0)) | None => None end
  else None.

(** The sums of a wallet's rows of the union. *)
Definition wallet_movement (moves : list Move) (w : Wallet) : option walletMovement :=
  let ms := map snd (List.filter (fun m => N.eqb (fst m) (w_ID w)) moves) in
  match sql_sum (map (fun m => fst (fst m)) ms), sql_sum (map (fun m => snd (fst m)) ms), sql_sum (map snd ms) with
  | Some o, Some i, Some out =>
    Some (mkMovement (w_ID w) (w_Name w) (w_Kind w) (w_ExcludeFromTotal w) o i out)
  | _, _, _ => None
  end.

(** [ORDER BY LOWER(w.name), w.id]. *)
Definition line_order (v w : Wallet) : bool :=
  match String.compare (sqlite_lower (w_Name v)) (sqlite_lower (w_Name w)) with
  | Lt => true | Gt => false | Eq => (w_ID v <=? w_ID w)%N
  end.
Definition report_wallets (keep : Wallet -> bool) : list Wallet :=
  sort_by line_order
    (List.filter (fun w => N.eqb (w_OrgID w) orgID && N.eqb (w_OrgID w) scopeOrg && N.eqb (w_ProjectID w) projectID
                           && keep w) (rows (db_wallets db))).
(** The archived wallets a report keeps: those archived at the cut or later. *)
Definition kept_wallet (cut : option Z) (w : Wallet) : bool :=
  match w_ArchivedAt w, cut with
  | None, _ => true
  | Some a, Some c => c <=? a
  | Some _, None => false
  end.

(** [walletLinesSQL]. *)
Definition walletLines (periodID : uuid) (currency : Currency) (startUTC : Z) (cut : option Z)
    : option (list walletMovement) :=
  let ts := List.filter (in_currency currency) report_txs in
  let moves := (map (own_move periodID startUTC) ts ++ filter_map (incoming_move periodID startUTC) ts)%list in
  mapM (wallet_movement moves)
    (report_wallets (fun w => String.eqb (w_Currency w) currency && kept_wallet cut w)).
(** [walletBalancesSQL]: each wallet with its own currency. *)
Definition walletBalances : option (list (walletMovement * Currency)) :=
  let moves := (map own_total report_txs ++ filter_map incoming_total report_txs)%list in
  mapM (fun w => match wallet_movement moves w with Some m => Some (m, w_Currency w) | None => None end)
    (report_wallets (fun w => kept_wallet None w)).

(** The category a transaction joins to, in its own org. *)
Definition joined_category (id : option uuid) : option Category :=
  match id with
  | None => None
  | Some cid => List.find (fun c => N.eqb (c_ID c) cid && N.eqb (c_OrgID c) orgID) (rows (db_categories db))
  end.
Definition joined_wallet (id : uuid) : option Wallet :=
  List.find (fun w => N.eqb (w_ID w) id && N.eqb (w_OrgID w) orgID) (rows (db_wallets db)).
Definition cat_name (id : option uuid) : string :=
  match joined_category id with Some c => c_Name c | None => "" end.
Definition wallet_name (id : uuid) : string :=
  match joined_wallet id with Some w => w_Name w | None => "" end.

(** The group keys of a query, each once. *)
Definition group_keys {K} `{EqDecision K} (ks : list K) : list K := nodup (fun a b => decide (a = b)) ks.

(** NULL ids sort last, then by id. *)
Definition id_order (a b : option uuid) : bool :=
  match a, b with
  | None, None => true
  | None, Some _ => false
  | Some _, None => true
  | Some x, Some y => (x <=? y)%N
  end.
Definition slice_order (a b : CategorySlice) : bool :=
  if Minor (cs_Amount b) <? Minor (cs_Amount a) then true else
  if Minor (cs_Amount a) <? Minor (cs_Amount b) then false else
  match String.compare (cs_Name a) (cs_Name b) with
  | Lt => true | Gt => false | Eq => id_order (cs_CategoryID a) (cs_CategoryID b)
  end.
Definition same_category (id : option uuid) (t : Transaction) : bool := bool_decide (t_CategoryID t = id).

(** [categorySlicesSQL], with no share yet. *)
Definition categorySlices_rows (periodID : uuid) (currency : Currency) (kind : string) : option (list CategorySlice) :=
  let ts := List.filter (fun t => of_period periodID t && in_currency currency t && String.eqb (t_Kind t) kind) report_txs in
  let slice := fun id =>
    let mine := List.filter (same_category id) ts in
    match sql_sum (map (fun t => Minor (t_Amount t)) mine) with
    | Some a =>
      Some (mkCategorySlice id (cat_name id)
              (match joined_category id with Some c => c_Icon c | None => "" end)
              (match joined_category id with Some c => c_Color c | None => "" end)
              (New a currency) (S754_zero false) (Z.of_nat (List.length mine)))
    | None => None
    end in
  match mapM slice (group_keys (map t_CategoryID ts)) with
  | Some ss => Some (sort_by slice_order ss)
  | None => None
  end.

(** [flowsSQL]. *)
Definition flow_order (a b : Flow) : bool :=
  if Minor (fl_Amount b) <? Minor (fl_Amount a) then true else
  if Minor (fl_Amount a) <? Minor (fl_Amount b) then false else
  match String.compare (fl_WalletName a) (fl_WalletName b) with
  | Lt => true | Gt => false
  | Eq => if (fl_WalletID a <? fl_WalletID b)%N then true else
          if (fl_WalletID b <? fl_WalletID a)%N then false else id_order (fl_CategoryID a) (fl_CategoryID b)
  end.
Definition flows_rows (periodID : uuid) (currency : Currency) : option (list Flow) :=
  let ts := List.filter (fun t => of_period periodID t && in_currency currency t && String.eqb (t_Kind t) TxExpense) report_txs in
  let flow := fun k =>
    match sql_sum (map (fun t => Minor (t_Amount t))
                     (List.filter (fun t => N.eqb (t_WalletID t) (fst k) && same_category (snd k) t) ts)) with
    | Some a => Some (mkFlow (fst k) (wallet_name (fst k)) (snd k) (cat_name (snd k)) (New a currency))
    | None => None
    end in
  match mapM flow (group_keys (map (fun t => (t_WalletID t, t_CategoryID t)) ts)) with
  | Some fs => Some (sort_by flow_order fs)
  | None => None
  end.

Definition cashflowPoint (ref : PeriodRef) (income expense : Z) (currency : Currency) : CashflowPoint :=
  mkCashflowPoint ref (New income currency) (New expense currency) (New (wrap64 (income - expense)) currency).
(** [periodRef]: a row's name and range; the trend carries no closing time. *)
Definition periodRef (p : Period) : PeriodRef :=
  mkPeriodRef (pr_ID p) (pr_Name p) (pr_StartDate p) (pr_EndDate p) None.

(** [cashflowSQL]: the asked periods of the project, with what joins to them. *)
Definition cashflow_rows (periodIDs : list uuid) (currency : Currency) : option (list CashflowPoint) :=
  mapM (fun p =>
      let ts := List.filter (fun t => of_period (pr_ID p) t && N.eqb (t_OrgID t) (pr_OrgID p)
                  && N.eqb (t_ProjectID t) (pr_ProjectID p) && in_currency currency t) (rows (db_txs db)) in
      match sql_sum (map income_of ts), sql_sum (map expense_of ts) with
      | Some i, Some e => Some (cashflowPoint (periodRef p) i e currency)
      | _, _ => None
      end)
    (List.filter (fun p => period_in_project p && N.eqb (pr_OrgID p) scopeOrg
                           && existsb (N.eqb (pr_ID p)) periodIDs) (rows (db_periods db))).
End Queries.

(** ** The reader ([sqlite.go]) *)

(** [report.SettingsReader]; a nil location is [None]. *)
Class ReportSettings := {
  rs_DefaultCurrency : Ctx -> uuid -> uuid -> M Currency;
  rs_Location : Ctx -> uuid -> uuid -> M (option Location)
}.

Definition maxCashflowPeriods : Z := 9999.
Definition errPeriodAbsent : Error := EText "report: period not found in scope".
Definition errTooManyPeriods : Error := EText "report: cashflow accepts at most 9999 periods".

Section Reader.
Context `{Env}.

(** A query whose SUMs may overflow. *)
Definition sum_query {A} (op : string) (q : DB -> option A) : M A :=
  let* r := query op q in
  match r with Some a => st_ret a | None => st_err (EWrap op integer_overflow) end.

(** [periodRef] with the closing time of a closed row. *)
Definition closed_ref (p : Period) : PeriodRef :=
  mkPeriodRef (pr_ID p) (pr_Name p) (pr_StartDate p) (pr_EndDate p)
    (if IsLocked p then pr_ClosedAt p else None).

Definition reader_Period (cx : Ctx) (orgID projectID periodID : uuid) : M PeriodRef :=
  read_tx "report" cx (fun tc =>
    let* r := query "report.sqlite.Period" (fun db =>
      List.find (fun p => N.eqb (pr_ID p) periodID && N.eqb (pr_OrgID p) orgID && N.eqb (pr_OrgID p) (OrgID tc)
                          && N.eqb (pr_ProjectID p) projectID) (rows (db_periods db))) in
    match r with
    | None => st_err (EWrap ("report.sqlite.Period: " ++ uuid_String periodID) errPeriodAbsent)
    | Some p => st_ret (closed_ref p)
    end).

Definition reader_Summary (cx : Ctx) (orgID projectID periodID : uuid) (currency : Currency)
    (startUTC : Z) (archivedBefore : option Z) : M PeriodSummary :=
  let* ref := reader_Period cx orgID projectID periodID in
  read_tx "report" cx (fun tc =>
    let* ' (income, expense, txCount) := sum_query "report.sqlite.Summary: totals"
      (fun db => summaryTotals db orgID (OrgID tc) projectID periodID currency) in
    let* moves := sum_query "report.sqlite.Summary: wallets"
      (fun db => walletLines db orgID (OrgID tc) projectID periodID currency startUTC archivedBefore) in
    st_ret (assembleSummary ref currency income expense txCount moves)).

Definition categorySlices (cx : Ctx) (orgID projectID periodID : uuid) (currency : Currency) (kind : string)
    : M (list CategorySlice) :=
  read_tx "report" cx (fun tc =>
    let* rows := sum_query "report.sqlite.categorySlices"
      (fun db => categorySlices_rows db orgID (OrgID tc) projectID periodID currency kind) in
    st_ret (assignShares rows)).
Definition reader_SpendByCategory (cx : Ctx) (orgID projectID periodID : uuid) (currency : Currency) :=
  categorySlices cx orgID projectID periodID currency "expense".
Definition reader_IncomeByCategory (cx : Ctx) (orgID projectID periodID : uuid) (currency : Currency) :=
  categorySlices cx orgID projectID periodID currency "income".

Definition reader_Flows (cx : Ctx) (orgID projectID periodID : uuid) (currency : Currency) : M (list Flow) :=
  read_tx "report" cx (fun tc =>
    sum_query "report.sqlite.Flows" (fun db => flows_rows db orgID (OrgID tc) projectID periodID currency)).

Definition reader_Cashflow (cx : Ctx) (orgID projectID : uuid) (periodIDs : list uuid) (currency : Currency)
    : M (list CashflowPoint) :=
  match periodIDs with
  | [] => st_ret []
  | _ =>
    if maxCashflowPeriods <? Z.of_nat (List.length periodIDs) then st_err errTooManyPeriods else
    read_tx "report" cx (fun tc =>
      let* points := sum_query "report.sqlite.Cashflow"
        (fun db => cashflow_rows db orgID (OrgID tc) projectID periodIDs currency) in
      let found := fold_left (fun m pt => <[ref_ID (cp_Period pt) := pt]> m) points ∅ in
      st_ret (orderCashflow periodIDs found))
  end.

Definition reader_WalletBalances (cx : Ctx) (orgID projectID : uuid) : M (list WalletLine) :=
  read_tx "report" cx (fun tc =>
    let* rows := sum_query "report.sqlite.WalletBalances"
      (fun db => walletBalances db orgID (OrgID tc) projectID) in
    st_ret (map (fun r => movement_line (fst r) (snd r)) rows)).
End Reader.

(** ** The service ([service.go]) *)
Section Service.
Context `{Env, ReportSettings}.

Definition report_currency (cx : Ctx) (orgID projectID : uuid) : M Currency :=
  let* r := st_try (rs_DefaultCurrency cx orgID projectID) in
  match r with inl e => unexpected "report: default currency" e | inr c => st_ret c end.
Definition report_location (cx : Ctx) (orgID projectID : uuid) : M Location :=
  let* r := st_try (rs_Location cx orgID projectID) in
  match r with
  | inl e => unexpected "report: location" e
  | inr None => st_ret UTC
  | inr (Some loc) => st_ret loc
  end.
Definition report_scope (cx : Ctx) : M (Tenant * Currency) :=
  let* tc := from_tenant cx in
  let* currency := report_currency cx (OrgID tc) (ProjectID tc) in
  st_ret (tc, currency).

Definition summaryAs (cx : Ctx) (orgID projectID periodID : uuid) (as_ : PeriodRef -> PeriodRef) : M PeriodSummary :=
  let* currency := report_currency cx orgID projectID in
  let* loc := report_location cx orgID projectID in
  let* r := st_try (reader_Period cx orgID projectID periodID) in
  match r with
  | inl e => unexpected "report.Summary: period" e
  | inr ref =>
    let ref := as_ ref in
    let* s := st_try (reader_Summary cx orgID projectID periodID currency (In_ (ref_Start ref) loc)
                        (ArchivedBefore ref loc)) in
    match s with
    | inl e => unexpected "report.Summary: read" e
    | inr out => st_ret out
    end
  end.
Definition summary (cx : Ctx) (orgID projectID periodID : uuid) : M PeriodSummary :=
  summaryAs cx orgID projectID periodID (fun ref => ref).

Definition report_Summary (cx : Ctx) (periodID : uuid) : M PeriodSummary :=
  let* tc := from_tenant cx in summary cx (OrgID tc) (ProjectID tc) periodID.

(** The period as it will stand once closed. *)
Definition ref_closing (end_ : Date) (at_ : Z) (ref : PeriodRef) : PeriodRef :=
  mkPeriodRef (ref_ID ref) (ref_Name ref) (ref_Start ref) (Some end_) (Some at_).
Definition SnapshotFor (cx : Ctx) (orgID projectID periodID : uuid) (end_ : Date) (at_ : Z) : M PeriodSummary :=
  summaryAs cx orgID projectID periodID (ref_closing end_ at_).

(** A read of the reader, its error masked. *)
Definition masked {A} (op : string) (m : M A) : M A :=
  let* r := st_try m in
  match r with inl e => unexpected op e | inr out => st_ret out end.

Definition SpendByCategory (cx : Ctx) (periodID : uuid) : M (list CategorySlice) :=
  let* ' (tc, currency) := report_scope cx in
  masked "report.SpendByCategory: read" (reader_SpendByCategory cx (OrgID tc) (ProjectID tc) periodID currency).
Definition IncomeByCategory (cx : Ctx) (periodID : uuid) : M (list CategorySlice) :=
  let* ' (tc, currency) := report_scope cx in
  masked "report.IncomeByCategory: read" (reader_IncomeByCategory cx (OrgID tc) (ProjectID tc) periodID currency).
Definition Cashflow (cx : Ctx) (periodIDs : list uuid) : M (list CashflowPoint) :=
  let* ' (tc, currency) := report_scope cx in
  masked "report.Cashflow: read" (reader_Cashflow cx (OrgID tc) (ProjectID tc) periodIDs currency).
Definition Flows (cx : Ctx) (periodID : uuid) : M (list Flow) :=
  let* ' (tc, currency) := report_scope cx in
  masked "report.Flows: read" (reader_Flows cx (OrgID tc) (ProjectID tc) periodID currency).
Definition WalletBalances (cx : Ctx) : M (list WalletLine) :=
  let* tc := from_tenant cx in
  masked "report.WalletBalances: read" (reader_WalletBalances cx (OrgID tc) (ProjectID tc)).
End Service.

(** ** The adapters ([internal/boot/adapters.go]) *)
Section Adapters.
Context `{Env}.

Definition closing_of (l : WalletLine) : WalletClosing :=
  mkWalletClosing (wl_WalletID l) (wl_Name l) (Minor (wl_Closing l)).
Definition snapshot_of (sum : PeriodSummary) (now : Z) : Snapshot :=
  mkSnapshot (ps_Currency sum) (Minor (ps_Income sum)) (Minor (ps_Expense sum)) (Minor (ps_Net sum))
    (ps_TxCount sum) (map closing_of (ps_Wallets sum)) now.

(** [snapshotterAdapter]. *)
Definition snapshotterAdapter `{ReportSettings} : Snapshotter := {|
  snap_Snapshot := fun cx orgID projectID periodID end_ at_ =>
    let* sum := SnapshotFor cx orgID projectID periodID end_ at_ in
    let* now := time_Now in
    st_ret (snapshot_of sum now)
|}.

(** The ledger service as the reports' settings. *)
Definition report_settings `{Unicode, TZDatabase} : ReportSettings := {|
  rs_DefaultCurrency := ledger_DefaultCurrency;
  rs_Location := fun cx o p => let* loc := ledger_Location cx o p in st_ret (Some loc)
|}.
End Adapters.
