(* ===== verification/Books.v ===== *)
(** * The books: an integrity invariant of the whole database

    What every stored transaction owes to the wallet, category and period it
    names, that ids are keys, and that active names are unique. The lemmas say
    how the statements of the stores keep it. *)
From Stdlib Require Import ZArith Lia String List.
From stdpp Require Import base gmap list strings.
From S2P Require Import Prelude GoStrings Errors Civil Money Tenant Ledger Period Wallet Category Transaction World.
From S2P Require Import Commit PeriodStore WalletService CategoryService TxStore.
Local Open Scope string_scope.

(** ** The invariant *)
Definition wallet_matches (db : DB) (t : Transaction) (id : uuid) : Prop :=
  exists w, db_wallets db !! id = Some w /\ w_OrgID w = t_OrgID t /\ w_ProjectID w = t_ProjectID t
    /\ w_Currency w = AmountCurrency (t_Amount t).
Definition category_matches (db : DB) (t : Transaction) (id : uuid) : Prop :=
  exists c, db_categories db !! id = Some c /\ c_OrgID c = t_OrgID t /\ c_ProjectID c = t_ProjectID t
    /\ c_Kind c = t_Kind t.
Definition period_matches (db : DB) (t : Transaction) (id : uuid) : Prop :=
  exists p, db_periods db !! id = Some p /\ pr_OrgID p = t_OrgID t /\ pr_ProjectID p = t_ProjectID t.

(** A transaction in order: well formed, one author, and every reference is to
    a row of its own project, with its currency, or its kind. *)
Record tx_booked (db : DB) (t : Transaction) : Prop := mkBooked {
  tb_ok : tx_ok t;
  tb_author : t_CreatedBy t = uuid_Nil <-> t_CreatedByKeyID t <> uuid_Nil;
  tb_wallet : wallet_matches db t (t_WalletID t);
  tb_to : forall id, t_ToWalletID t = Some id -> wallet_matches db t id;
  tb_category : forall id, t_CategoryID t = Some id -> category_matches db t id;
  tb_period : forall id, t_PeriodID t = Some id -> period_matches db t id
}.

Definition active_same_name (v w : Wallet) : Prop :=
  Wallet_IsArchived v = false /\ Wallet_IsArchived w = false /\ w_ProjectID v = w_ProjectID w
  /\ sqlite_lower (w_Name v) = sqlite_lower (w_Name w).
Definition active_same_category (b c : Category) : Prop :=
  Category_IsArchived b = false /\ Category_IsArchived c = false /\ c_ProjectID b = c_ProjectID c
  /\ c_Kind b = c_Kind c /\ sqlite_lower (c_Name b) = sqlite_lower (c_Name c).

Record Books (db : DB) : Prop := mkBooks {
  bk_wallet_key : forall i w, db_wallets db !! i = Some w -> w_ID w = i;
  bk_wallet_ok : forall i w, db_wallets db !! i = Some w -> wallet_ok w;
  bk_wallet_names : forall i j v w, db_wallets db !! i = Some v -> db_wallets db !! j = Some w ->
    active_same_name v w -> i = j;
  bk_category_key : forall i c, db_categories db !! i = Some c -> c_ID c = i;
  bk_category_ok : forall i c, db_categories db !! i = Some c -> category_ok c;
  bk_category_names : forall i j b c, db_categories db !! i = Some b -> db_categories db !! j = Some c ->
    active_same_category b c -> i = j;
  bk_period_key : forall i p, db_periods db !! i = Some p -> pr_ID p = i;
  bk_tx_key : forall i t, db_txs db !! i = Some t -> t_ID t = i;
  bk_tx : forall i t, db_txs db !! i = Some t -> tx_booked db t
}.

(** Databases whose referenced rows only got better: what [tx_booked] survives. *)
Record keeps_refs (db db' : DB) : Prop := mkKeeps {
  kr_wallet : forall i w, db_wallets db !! i = Some w -> exists w', db_wallets db' !! i = Some w'
    /\ w_OrgID w' = w_OrgID w /\ w_ProjectID w' = w_ProjectID w /\ w_Currency w' = w_Currency w;
  kr_category : forall i c, db_categories db !! i = Some c -> exists c', db_categories db' !! i = Some c'
    /\ c_OrgID c' = c_OrgID c /\ c_ProjectID c' = c_ProjectID c /\ c_Kind c' = c_Kind c;
  kr_period : forall i p, db_periods db !! i = Some p -> exists p', db_periods db' !! i = Some p'
    /\ pr_OrgID p' = pr_OrgID p /\ pr_ProjectID p' = pr_ProjectID p
}.

Lemma tx_booked_keeps db db' t : keeps_refs db db' -> tx_booked db t -> tx_booked db' t.
Proof.
  intros [KW KC KP] [O A W T C P].
  assert (HW : forall id, wallet_matches db t id -> wallet_matches db' t id).
  { intros id (w & Hw & E1 & E2 & E3). destruct (KW id w Hw) as (w' & Hw' & F1 & F2 & F3).
    exists w'. repeat split; congruence. }
  split; auto.
  - intros id Hid. destruct (C id Hid) as (c & Hc & E1 & E2 & E3).
    destruct (KC id c Hc) as (c' & Hc' & F1 & F2 & F3). exists c'. repeat split; congruence.
  - intros id Hid. destruct (P id Hid) as (p & Hp & E1 & E2).
    destruct (KP id p Hp) as (p' & Hp' & F1 & F2). exists p'. repeat split; congruence.
Qed.

Lemma keeps_refl db : keeps_refs db db.
Proof. split; eauto 10. Qed.
Lemma keeps_set_txs m db : keeps_refs db (set_txs m db).
Proof. split; cbn; eauto 10. Qed.

(** ** Transactions *)
Lemma Books_insert_tx db t : Books db -> tx_booked db t -> Books (set_txs (<[t_ID t := t]> (db_txs db)) db).
Proof.
  intros B Ht. split; try apply B; cbn [db_txs set_txs].
  - intros i u. destruct (decide (i = t_ID t)) as [->|Hne];
      [rewrite lookup_insert_eq; intros [= <-]; reflexivity | rewrite lookup_insert_ne by auto; apply B].
  - intros i u. destruct (decide (i = t_ID t)) as [->|Hne];
      [rewrite lookup_insert_eq; intros [= <-] | rewrite lookup_insert_ne by auto; intros Hu];
      (eapply tx_booked_keeps; [apply keeps_set_txs|]); [exact Ht | exact (bk_tx db B i u Hu)].
Qed.
Lemma Books_delete_tx db id : Books db -> Books (set_txs (delete id (db_txs db)) db).
Proof.
  intros B. split; try apply B; cbn [db_txs set_txs]; intros i u Hu; apply lookup_delete_Some in Hu as [_ Hu].
  - apply (bk_tx_key db B i u Hu).
  - eapply tx_booked_keeps; [apply keeps_set_txs | exact (bk_tx db B i u Hu)].
Qed.

(** ** Wallets *)
Lemma wallet_name_conflict_false db w : Books db -> wallet_name_conflict db w = false ->
  forall j v, db_wallets db !! j = Some v -> j <> w_ID w -> active_same_name v w -> False.
Proof.
  intros B Hc j v Hv Hj (Av & Aw & P & N). apply not_true_iff_false in Hc. apply Hc.
  unfold wallet_name_conflict. rewrite Aw. cbn [negb andb]. apply existsb_exists. exists v.
  split; [apply rows_In; eauto|]. rewrite (bk_wallet_key db B j v Hv), Av.
  rewrite (proj2 (N.eqb_neq j (w_ID w)) Hj), (proj2 (N.eqb_eq _ _) P), (proj2 (String.eqb_eq _ _) N). reflexivity.
Qed.

Lemma Books_put_wallet db w : Books db -> wallet_ok w -> wallet_name_conflict db w = false ->
  (forall old, db_wallets db !! w_ID w = Some old ->
     w_OrgID w = w_OrgID old /\ w_ProjectID w = w_ProjectID old /\ w_Currency w = w_Currency old) ->
  Books (set_wallets (<[w_ID w := w]> (db_wallets db)) db).
Proof.
  intros B Ow Hn Hold.
  assert (Look : forall i v, <[w_ID w := w]> (db_wallets db) !! i = Some v ->
      (i = w_ID w /\ v = w) \/ (i <> w_ID w /\ db_wallets db !! i = Some v)).
  { intros i v. destruct (decide (i = w_ID w)) as [->|Hne];
      [rewrite lookup_insert_eq; left; split; congruence | rewrite lookup_insert_ne by auto; auto]. }
  split; try apply B; cbn [db_wallets db_txs set_wallets].
  - intros i v Hv. destruct (Look i v Hv) as [[-> ->]|[_ Hv']]; [reflexivity | apply (bk_wallet_key db B i v Hv')].
  - intros i v Hv. destruct (Look i v Hv) as [[-> ->]|[_ Hv']]; [exact Ow | apply (bk_wallet_ok db B i v Hv')].
  - intros i j v u Hv Hu Hs. destruct (Look i v Hv) as [[-> ->]|[Ni Hv']], (Look j u Hu) as [[-> ->]|[Nj Hu']].
    + reflexivity.
    + destruct (wallet_name_conflict_false db w B Hn j u Hu' Nj).
      destruct Hs as (A1 & A2 & P & N). repeat split; auto.
    + destruct (wallet_name_conflict_false db w B Hn i v Hv' Ni). exact Hs.
    + exact (bk_wallet_names db B i j v u Hv' Hu' Hs).
  - intros i t Ht. apply (tx_booked_keeps db); [|exact (bk_tx db B i t Ht)].
    split; cbn [db_wallets db_categories db_periods set_wallets]; eauto 10.
    intros k v Hv. destruct (decide (k = w_ID w)) as [->|Hne].
    + exists w. rewrite lookup_insert_eq. destruct (Hold v Hv) as (? & ? & ?). auto.
    + exists v. rewrite lookup_insert_ne by auto. auto.
Qed.

Lemma wallet_referenced_spec db id org : Books db -> wallet_referenced db id org = false ->
  forall i t, db_txs db !! i = Some t -> t_OrgID t = org -> t_WalletID t <> id /\ t_ToWalletID t <> Some id.
Proof.
  intros B Hr i t Ht Ho. apply not_true_iff_false in Hr.
  split; intros E; apply Hr, existsb_exists; exists t; (split; [apply rows_In; eauto|]);
    rewrite Ho, N.eqb_refl; cbn [andb].
  - rewrite E, N.eqb_refl. reflexivity.
  - rewrite E, N.eqb_refl. apply orb_true_r.
Qed.

Lemma Books_delete_wallet db id w : Books db -> db_wallets db !! id = Some w ->
  wallet_referenced db id (w_OrgID w) = false -> Books (set_wallets (delete id (db_wallets db)) db).
Proof.
  intros B Hw Hr. split; try apply B; cbn [db_wallets db_txs set_wallets].
  - intros i v Hv. apply lookup_delete_Some in Hv as [_ Hv]. apply (bk_wallet_key db B i v Hv).
  - intros i v Hv. apply lookup_delete_Some in Hv as [_ Hv]. apply (bk_wallet_ok db B i v Hv).
  - intros i j v u Hv Hu. apply lookup_delete_Some in Hv as [_ Hv]. apply lookup_delete_Some in Hu as [_ Hu].
    apply (bk_wallet_names db B i j v u Hv Hu).
  - intros i t Ht. pose proof (bk_tx db B i t Ht) as [O A W T C P].
    assert (HW : forall k, (k = t_WalletID t \/ t_ToWalletID t = Some k) -> wallet_matches db t k ->
        wallet_matches (set_wallets (delete id (db_wallets db)) db) t k).
    { intros k Hk (v & Hv & E1 & E2 & E3). exists v. cbn [db_wallets set_wallets].
      rewrite lookup_delete_ne; [auto|]. intros ->. assert (v = w) as -> by congruence.
      destruct (wallet_referenced_spec db k (w_OrgID w) B Hr i t Ht (eq_sym E1)). destruct Hk; congruence. }
    split; auto.
Qed.

(** ** Categories *)
Lemma category_name_conflict_false db c : Books db -> category_name_conflict db c = false ->
  forall j b, db_categories db !! j = Some b -> j <> c_ID c -> active_same_category b c -> False.
Proof.
  intros B Hc j b Hb Hj (Ab & Ac & P & K & N). apply not_true_iff_false in Hc. apply Hc.
  unfold category_name_conflict. rewrite Ac. cbn [negb andb]. apply existsb_exists. exists b.
  split; [apply rows_In; eauto|]. rewrite (bk_category_key db B j b Hb), Ab.
  rewrite (proj2 (N.eqb_neq j (c_ID c)) Hj), (proj2 (N.eqb_eq _ _) P), (proj2 (String.eqb_eq _ _) K),
    (proj2 (String.eqb_eq _ _) N). reflexivity.
Qed.

Lemma Books_put_category db c : Books db -> category_ok c -> category_name_conflict db c = false ->
  (forall old, db_categories db !! c_ID c = Some old ->
     c_OrgID c = c_OrgID old /\ c_ProjectID c = c_ProjectID old /\ c_Kind c = c_Kind old) ->
  Books (set_categories (<[c_ID c := c]> (db_categories db)) db).
Proof.
  intros B Oc Hn Hold.
  assert (Look : forall i b, <[c_ID c := c]> (db_categories db) !! i = Some b ->
      (i = c_ID c /\ b = c) \/ (i <> c_ID c /\ db_categories db !! i = Some b)).
  { intros i b. destruct (decide (i = c_ID c)) as [->|Hne];
      [rewrite lookup_insert_eq; left; split; congruence | rewrite lookup_insert_ne by auto; auto]. }
  split; try apply B; cbn [db_categories db_txs set_categories].
  - intros i b Hb. destruct (Look i b Hb) as [[-> ->]|[_ Hb']]; [reflexivity | apply (bk_category_key db B i b Hb')].
  - intros i b Hb. destruct (Look i b Hb) as [[-> ->]|[_ Hb']]; [exact Oc | apply (bk_category_ok db B i b Hb')].
  - intros i j b d Hb Hd Hs. destruct (Look i b Hb) as [[-> ->]|[Ni Hb']], (Look j d Hd) as [[-> ->]|[Nj Hd']].
    + reflexivity.
    + destruct (category_name_conflict_false db c B Hn j d Hd' Nj).
      destruct Hs as (A1 & A2 & P & K & N). repeat split; auto.
    + destruct (category_name_conflict_false db c B Hn i b Hb' Ni). exact Hs.
    + exact (bk_category_names db B i j b d Hb' Hd' Hs).
  - intros i t Ht. apply (tx_booked_keeps db); [|exact (bk_tx db B i t Ht)].
    split; cbn [db_wallets db_categories db_periods set_categories]; eauto 10.
    intros k b Hb. destruct (decide (k = c_ID c)) as [->|Hne].
    + exists c. rewrite lookup_insert_eq. destruct (Hold b Hb) as (? & ? & ?). auto.
    + exists b. rewrite lookup_insert_ne by auto. auto.
Qed.

Lemma Books_delete_category db id c : Books db -> db_categories db !! id = Some c ->
  category_referenced db id (c_OrgID c) = false -> Books (set_categories (delete id (db_categories db)) db).
Proof.
  intros B Hc Hr. split; try apply B; cbn [db_categories db_txs set_categories].
  - intros i b Hb. apply lookup_delete_Some in Hb as [_ Hb]. apply (bk_category_key db B i b Hb).
  - intros i b Hb. apply lookup_delete_Some in Hb as [_ Hb]. apply (bk_category_ok db B i b Hb).
  - intros i j b d Hb Hd. apply lookup_delete_Some in Hb as [_ Hb]. apply lookup_delete_Some in Hd as [_ Hd].
    apply (bk_category_names db B i j b d Hb Hd).
  - intros i t Ht. pose proof (bk_tx db B i t Ht) as [O A W T C P]. split; auto.
    intros k Hk. destruct (C k Hk) as (b & Hb & E1 & E2 & E3). exists b. cbn [db_categories set_categories].
    rewrite lookup_delete_ne; [auto|]. intros ->. assert (b = c) as -> by congruence.
    apply not_true_iff_false in Hr. apply Hr, existsb_exists. exists t. split; [apply rows_In; eauto|].
    rewrite E1, Hk, !N.eqb_refl. reflexivity.
Qed.

(** ** Periods *)
Lemma Books_put_period db p : Books db ->
  (forall old, db_periods db !! pr_ID p = Some old -> pr_OrgID p = pr_OrgID old /\ pr_ProjectID p = pr_ProjectID old) ->
  Books (set_periods (<[pr_ID p := p]> (db_periods db)) db).
Proof.
  intros B Hold. split; try apply B; cbn [db_periods db_txs set_periods].
  - intros i q. destruct (decide (i = pr_ID p)) as [->|Hne];
      [rewrite lookup_insert_eq; intros [= <-]; reflexivity | rewrite lookup_insert_ne by auto; apply (bk_period_key db B)].
  - intros i t Ht. apply (tx_booked_keeps db); [|exact (bk_tx db B i t Ht)].
    split; cbn [db_wallets db_categories db_periods set_periods]; eauto 10.
    intros k q Hq. destruct (decide (k = pr_ID p)) as [->|Hne].
    + exists p. rewrite lookup_insert_eq. destruct (Hold q Hq). auto.
    + exists q. rewrite lookup_insert_ne by auto. auto.
Qed.

Lemma Books_empty : Books empty_db.
Proof. split; intros *; cbn; rewrite ?lookup_empty; discriminate. Qed.
