(* ===== verification/TxTheory.v ===== *)
(** * What the transactions service does to the books

    The effect of [record], [revise] and a delete inside their unit of work,
    proved against the ports' interfaces: the books stay in order, and the
    transactions of a closed period do not move. *)
From Stdlib Require Import ZArith Lia String List.
From stdpp Require Import base gmap list strings.
From S2P Require Import Prelude GoStrings Errors Civil Money Tenant Ledger Period Wallet Category Transaction World.
From S2P Require Import Commit PeriodStore PeriodService PeriodTheory WalletService CategoryService TxStore TxService Books.
Local Open Scope string_scope.

(** ** Closed periods are frozen *)
Definition frozen (db db' : DB) : Prop :=
  forall id p, db_periods db !! id = Some p -> IsLocked p = true ->
    db_periods db' !! id = Some p
    /\ forall i t, t_PeriodID t = Some id -> db_txs db !! i = Some t <-> db_txs db' !! i = Some t.

(** What a commit of the wallet, category and transaction services may do: keep
    the books in order and the closed periods frozen, and the chain of periods
    by the periods' own rules. *)
Definition ledger_step (db db' : DB) : Prop :=
  (Books db -> Books db' /\ frozen db db') /\ guar db db'.

Lemma frozen_refl db : frozen db db.
Proof. intros id p Hp Hl. split; [exact Hp | tauto]. Qed.
Lemma frozen_trans a b c : frozen a b -> frozen b c -> frozen a c.
Proof.
  intros F G id p Hp Hl. destruct (F id p Hp Hl) as [Hb HF]. destruct (G id p Hb Hl) as [Hc HG].
  split; [exact Hc|]. intros i t Ht. rewrite (HF i t Ht). apply HG, Ht.
Qed.
#[export] Instance ledger_step_pre : PreOrder ledger_step.
Proof.
  split.
  - intros db. split; [intros B; split; [exact B | apply frozen_refl] | reflexivity].
  - intros a b c [Hab Cab] [Hbc Cbc]. split; [|etransitivity; eassumption]. intros Ba.
    destruct (Hab Ba) as [Bb F]. destruct (Hbc Bb) as [Bc G]. split; [exact Bc | eapply frozen_trans; eauto].
Qed.

Lemma guar_same db db' : db_periods db' = db_periods db -> guar db db'.
Proof.
  intros E Hc. split; [destruct Hc; split; rewrite E; assumption|].
  intros i p Hp. exists p. rewrite E. auto.
Qed.
Lemma step_intro db db' : (Books db -> Books db' /\ frozen db db') -> db_periods db' = db_periods db -> ledger_step db db'.
Proof. intros HB E. split; [exact HB | apply guar_same, E]. Qed.

Lemma frozen_same_txs db db' : db_periods db' = db_periods db -> db_txs db' = db_txs db -> frozen db db'.
Proof. intros E1 E2 id p Hp Hl. rewrite E1, E2. split; [exact Hp | tauto]. Qed.

Lemma opens_step db db' : opens db db' -> ledger_step db db'.
Proof.
  intros Ho. split.
  - destruct (opens_cases db db' Ho) as [->|(p & Hn & Hl & ->)]; [intros B; split; [exact B | apply frozen_refl]|].
    intros B. split.
    + apply Books_put_period; [exact B|]. intros old Hold. congruence.
    + intros id q Hq HL. cbn [db_periods db_txs set_periods]. split; [|tauto].
      rewrite lookup_insert_ne; [exact Hq | congruence].
  - destruct Ho as [->|(p & n & He & Hl & E)]; [reflexivity | exact (insert_current_guar p db db' n He Hl E)].
Qed.
Lemma opens_refs db db' : opens db db' -> keeps_refs db db' /\ db_wallets db' = db_wallets db
  /\ db_categories db' = db_categories db /\ db_txs db' = db_txs db.
Proof.
  intros Ho. destruct (opens_cases db db' Ho) as [->|(p & Hn & Hl & ->)]; [split; [apply keeps_refl | auto]|]. split; [|auto].
  split; cbn; eauto 10. intros i q Hq. exists q. rewrite lookup_insert_ne; [auto | congruence].
Qed.
Lemma opens_period db db' id q : opens db db' -> db_periods db !! id = Some q -> db_periods db' !! id = Some q.
Proof.
  intros Ho Hq. destruct (opens_cases db db' Ho) as [->|(p & Hn & Hl & ->)]; [exact Hq|].
  cbn. rewrite lookup_insert_ne; [exact Hq | congruence].
Qed.

(** A period a write may go to: known, of the scope, and not closed. *)
Definition open_period (db : DB) (o p id : uuid) : Prop :=
  exists q, db_periods db !! id = Some q /\ pr_OrgID q = o /\ pr_ProjectID q = p /\ IsLocked q = false.

(** Putting or removing a transaction that no closed period holds, before or after. *)
Definition not_in_locked (db : DB) (t : Transaction) : Prop :=
  forall id, t_PeriodID t = Some id -> forall q, db_periods db !! id = Some q -> IsLocked q = false.

Lemma open_not_in_locked db o p t :
  (forall id, t_PeriodID t = Some id -> open_period db o p id) -> not_in_locked db t.
Proof. intros Ho id Hid q Hq. destruct (Ho id Hid) as (r & Hr & _ & _ & HL). congruence. Qed.

Lemma frozen_put db t : not_in_locked db t ->
  (forall old, db_txs db !! t_ID t = Some old -> not_in_locked db old) ->
  frozen db (set_txs (<[t_ID t := t]> (db_txs db)) db).
Proof.
  intros Hn Ho id p Hp Hl. cbn [db_periods db_txs set_txs]. split; [exact Hp|]. intros i u Hu.
  destruct (decide (i = t_ID t)) as [->|Hne]; [|rewrite lookup_insert_ne by auto; tauto].
  rewrite lookup_insert_eq. split.
  - intros Hold. pose proof (Ho u Hold id Hu p Hp). congruence.
  - intros [= <-]. pose proof (Hn id Hu p Hp). congruence.
Qed.
Lemma frozen_delete db i t : db_txs db !! i = Some t -> not_in_locked db t ->
  frozen db (set_txs (delete i (db_txs db)) db).
Proof.
  intros Ht Hn id p Hp Hl. cbn [db_periods db_txs set_txs]. split; [exact Hp|]. intros j u Hu.
  destruct (decide (j = i)) as [->|Hne]; [|rewrite lookup_delete_ne by auto; tauto].
  rewrite lookup_delete_eq. split; [|discriminate]. intros Hj. assert (u = t) as -> by congruence.
  pose proof (Hn id Hu p Hp). congruence.
Qed.

(** ** The checks of the service *)
Section Checks.
Context `{Env, WalletReader, CategoryReader, PeriodResolver, !WalletReaderLaws, !CategoryReaderLaws, !PeriodResolverLaws}.

Lemma reads_port_error {A} op e (P : A -> DB -> Prop) : reads P (port_error op e).
Proof. unfold port_error. destruct (is_app e); apply reads_err; auto. Qed.

Lemma reads_tx_wallet cx tc id : calm cx ->
  reads (fun wi db => read_wallet db (OrgID tc) (ProjectID tc) id wi) (tx_wallet cx tc id).
Proof.
  intros Hc. unfold tx_wallet. eapply reads_seq; [apply reads_try, WalletReader_reads, Hc|].
  intros [e|w] _; [apply reads_port_error | apply reads_ret; auto].
Qed.

(** The wallet of a write: in scope, active, of the amount's currency. *)
Definition usable_wallet (db : DB) (tc : Tenant) (id : uuid) (cur : Currency) : Prop :=
  exists w, db_wallets db !! id = Some w /\ w_OrgID w = OrgID tc /\ w_ProjectID w = ProjectID tc
    /\ w_Currency w = cur /\ Wallet_IsArchived w = false.

Lemma reads_checkWallets cx tc walletID to kind amount : calm cx ->
  reads (fun cur db => AmountCurrency amount = cur /\ usable_wallet db tc walletID cur
           /\ (kind = TxTransfer -> forall id, to = Some id -> usable_wallet db tc id cur))
    (checkWallets cx tc walletID to kind amount).
Proof.
  intros Hc. unfold checkWallets. eapply reads_seq; [apply reads_tx_wallet, Hc|]. intros w _.
  destruct (wi_Archived w) eqn:Ar; [apply reads_err; auto|].
  destruct (String.eqb_spec (AmountCurrency amount) (wi_Currency w)) as [Ec|]; [cbn [negb]|apply reads_err; auto].
  assert (Own : forall db, read_wallet db (OrgID tc) (ProjectID tc) walletID w ->
      usable_wallet db tc walletID (wi_Currency w)).
  { intros db (r & Hr & E1 & E2 & E3 & E4). exists r. repeat split; congruence. }
  destruct (String.eqb_spec kind TxTransfer) as [->|Hk]; cbn [negb];
    [|apply reads_ret; intros db Hr; split; [exact Ec | split; [auto | congruence]]].
  destruct to as [toID|]; [|apply reads_ret; intros db Hr; split; [exact Ec | split; [auto | discriminate]]].
  eapply reads_seq; [apply reads_tx_wallet, Hc|]. intros v _.
  destruct (wi_Archived v) eqn:Av; [apply reads_err; auto|].
  destruct (String.eqb_spec (wi_Currency v) (wi_Currency w)) as [Ev|]; [cbn [negb]|apply reads_err; auto].
  apply reads_ret. intros db (r & Hr & E1 & E2 & E3 & E4) Hw. split; [auto|]. split; [auto|].
  intros _ id [= <-]. exists r. repeat split; congruence.
Qed.

Definition usable_category (db : DB) (tc : Tenant) (id : uuid) (kind : string) : Prop :=
  exists c, db_categories db !! id = Some c /\ c_OrgID c = OrgID tc /\ c_ProjectID c = ProjectID tc /\ c_Kind c = kind.

Lemma reads_checkCategory cx tc cat kind : calm cx ->
  reads (fun _ db => forall id, cat = Some id -> usable_category db tc id kind) (checkCategory cx tc cat kind).
Proof.
  intros Hc. unfold checkCategory. destruct cat as [id|]; [|apply reads_ret; discriminate].
  destruct (AllowsCategory kind); [cbn [negb]|apply reads_err; auto].
  eapply reads_seq; [apply reads_try, CategoryReader_reads, Hc|].
  intros [e|c] _; [apply reads_port_error|].
  destruct (String.eqb_spec (ci_Kind c) kind) as [E|]; [cbn [negb]|apply reads_err; auto].
  apply reads_ret. intros db (r & Hr & E1 & E2 & E3) i [= <-]. exists r. repeat split; congruence.
Qed.

Lemma read_period_open db tc id pi : Books db -> read_period db (OrgID tc) (ProjectID tc) id pi ->
  pi_Locked pi = false -> open_period db (OrgID tc) (ProjectID tc) id.
Proof.
  intros B (q & Hin & I & O & P & L) Hl. apply rows_In in Hin as (j & Hj).
  pose proof (bk_period_key db B j q Hj) as Hk. exists q. rewrite <- I, Hk. repeat split; congruence.
Qed.

Lemma reads_period_unlocked cx tc id : cx_tx cx = true ->
  reads (fun _ db => Books db -> open_period db (OrgID tc) (ProjectID tc) id) (refusePeriodLocked cx tc (Some id)).
Proof.
  intros Hx. unfold refusePeriodLocked. eapply reads_seq; [apply reads_try, PeriodResolver_reads, Hx|].
  intros [e|pi] _; [apply reads_port_error|]. destruct (pi_Locked pi) eqn:L; [apply reads_err; auto|].
  apply reads_ret. intros db Hr B. eapply read_period_open; eauto.
Qed.
Lemma reads_refusePeriodLocked cx tc o : cx_tx cx = true ->
  reads (fun _ db => Books db -> forall id, o = Some id -> open_period db (OrgID tc) (ProjectID tc) id)
    (refusePeriodLocked cx tc o).
Proof.
  intros Hx. destruct o as [id|]; [|apply reads_ret; discriminate].
  eapply reads_conseq; [apply reads_period_unlocked, Hx|]. intros u db Ho B i [= <-]. auto.
Qed.

Lemma runs_resolvePeriod cx tc at_ want : cx_tx cx = true ->
  runs (fun r db db' => opens db db'
          /\ (Books db' -> forall id, r = Some id -> open_period db' (OrgID tc) (ProjectID tc) id)
          /\ (forall w, want = Some w -> r = Some w))
    (resolvePeriod cx tc at_ want).
Proof.
  intros Hx. unfold resolvePeriod.
  assert (Chk : forall c, reads (fun r db => r = Some c
      /\ (Books db -> open_period db (OrgID tc) (ProjectID tc) c)) (check_period cx tc c)).
  { intros c. unfold check_period. eapply reads_seq; [apply reads_try, PeriodResolver_reads, Hx|].
    intros [e|pi] _; [apply reads_port_error|]. destruct (pi_Locked pi) eqn:L; [apply reads_err; auto|].
    apply reads_ret. intros db Hr. split; [reflexivity|]. intros B. eapply read_period_open; eauto. }
  eapply (runs_bind _ _ (fun r db db' => match r with inr _ => opens db db' | inl _ => True end)).
  - intros w a. pose proof (PeriodResolver_opens cx (OrgID tc) (ProjectID tc) at_ Hx w) as Ho.
    unfold st_try. destruct (PeriodResolver_Containing _ _ _ _ w) as [[i|e|p] w1]; simpl in *;
      intros Ha; simplify_eq; [exact (Ho i eq_refl) | exact I].
  - intros r _. instantiate (1 := fun r out db db' => match r with
        | inr _ => db' = db /\ (Books db -> forall id, out = Some id -> open_period db (OrgID tc) (ProjectID tc) id)
                   /\ (forall w, want = Some w -> out = Some w)
        | inl _ => False end). simpl.
    assert (Fin : forall c : uuid, (forall w, want = Some w -> w = c) ->
        runs (fun out db db' => db' = db
          /\ (Books db -> forall id, out = Some id -> open_period db (OrgID tc) (ProjectID tc) id)
          /\ (forall w, want = Some w -> out = Some w)) (check_period cx tc c)).
    { intros c Hc. eapply runs_conseq; [apply reads_runs, Chk|]. simpl. intros out db db' [-> [-> Hb]].
      split; [reflexivity|]. split; [intros B id [= <-]; auto | intros w Hw; rewrite (Hc w Hw); reflexivity]. }
    destruct r as [e|info].
    + intros w a Ha. unfold periodErr, port_error in Ha. destruct (is_app e); discriminate Ha.
    + destruct want as [c|], info as [i|]; simpl.
      * destruct (adjacent i c); simpl; [|intros w a; discriminate]. apply Fin. congruence.
      * intros w a; discriminate.
      * apply Fin. discriminate.
      * intros w a. simpl. intros [= <-]. split; [reflexivity|]. split; discriminate.
  - intros [e|info] out db db1 db2; [intros _ [] |]. intros Ho (-> & Hb & Hw). auto.
Qed.
End Checks.

(** ** The writes *)
Lemma tx_upsert_fresh tc t db db' n : db_txs db !! t_ID t = None ->
  (t_CreatedBy t = uuid_Nil <-> t_CreatedByKeyID t <> uuid_Nil) -> tx_upsert tc t db = inr (db', n) ->
  db' = set_txs (<[t_ID t := t]> (db_txs db)) db.
Proof.
  intros Hf Ha. unfold tx_upsert. destruct (tx_check t); [discriminate|]. destruct (negb _); [discriminate|].
  rewrite Hf. destruct (tx_fks db _); [|discriminate]. intros [= <- _]. do 2 f_equal.
  unfold inserted_tx, sqliteAuthorArgs.
  destruct (N.eqb_spec (t_CreatedByKeyID t) uuid_Nil) as [E|E]; cbn [negb fst snd column_uuid].
  - destruct t; cbn in *. congruence.
  - apply Ha in E. destruct t; cbn in *. congruence.
Qed.
Lemma tx_upsert_existing tc t old db db' n : db_txs db !! t_ID t = Some old -> updated_tx old t = t ->
  tx_upsert tc t db = inr (db', S n) -> db' = set_txs (<[t_ID t := t]> (db_txs db)) db.
Proof.
  intros Hf Hu. unfold tx_upsert. destruct (tx_check t); [discriminate|]. destruct (negb _); [discriminate|].
  rewrite Hf, Hu. destruct (_ && _)%bool; [|discriminate]. destruct (tx_fks db _); [|discriminate].
  intros [= <- _]. reflexivity.
Qed.

Lemma tx_upsert_periods tc t db db' n : tx_upsert tc t db = inr (db', n) -> db_periods db' = db_periods db.
Proof.
  unfold tx_upsert. destruct (tx_check t); [discriminate|]. destruct (negb _); [discriminate|].
  destruct (db_txs db !! _); [destruct (_ && _)%bool|]; try destruct (tx_fks db _); intros [= <- <-]; reflexivity.
Qed.

Section Writes.
Context `{Env, WalletReader, CategoryReader, PeriodResolver, !WalletReaderLaws, !CategoryReaderLaws, !PeriodResolverLaws}.

Lemma runs_save_tx cx tc op t : calm cx -> From_ cx = inr tc ->
  runs (fun _ db db' => exists n, tx_upsert tc t db = inr (db', S n)) (save_tx cx op t).
Proof.
  intros Hc F. unfold save_tx.
  assert (HS : runs (fun _ db db' => exists n, tx_upsert tc t db = inr (db', S n)) (tx_Save cx t)).
  { unfold tx_Save. apply runs_write_tx; [exact Hc|]. intros tc' F'. rewrite F in F'. injection F' as <-.
    apply runs_exec_save. }
  intros w a. specialize (HS w). unfold st_bind, st_try. destruct (tx_Save cx t w) as [[[]|e|p] w1]; simpl in *.
  - intros _. exact (HS tt eq_refl).
  - destruct (_ || _)%bool; discriminate.
  - discriminate.
Qed.

(** What [record] did: the caller's input as one new, booked transaction, in an
    open period; a period may have been opened on the way. *)
Definition written (tc : Tenant) (i : RecordInput) (t : Transaction) (db1 db' : DB) : Prop :=
  db_txs db1 !! t_ID t = None /\ db' = set_txs (<[t_ID t := t]> (db_txs db1)) db1
  /\ (t_OrgID t = OrgID tc /\ t_ProjectID t = ProjectID tc /\ t_WalletID t = in_WalletID i
      /\ t_ToWalletID t = in_ToWalletID i /\ t_Kind t = in_Kind i /\ t_Amount t = in_Amount i
      /\ t_CategoryID t = in_CategoryID i /\ t_Note t = TrimSpace (in_Note i) /\ t_OccurredAt t = in_OccurredAt i)
  /\ (forall p, in_PeriodID i = Some p -> t_PeriodID t = Some p)
  /\ (Books db1 -> tx_booked db1 t
        /\ forall id, t_PeriodID t = Some id -> open_period db1 (OrgID tc) (ProjectID tc) id).
Definition recorded (tc : Tenant) (i : RecordInput) (t : Transaction) (db db' : DB) : Prop :=
  exists db1, opens db db1 /\ written tc i t db1 db'.

Lemma usable_matches db tc t id : usable_wallet db tc id (AmountCurrency (t_Amount t)) ->
  t_OrgID t = OrgID tc -> t_ProjectID t = ProjectID tc -> wallet_matches db t id.
Proof. intros (w & Hw & E1 & E2 & E3 & _) O P. exists w. repeat split; congruence. Qed.

(** The facts the checks of a write gather are those [tx_booked] asks for. *)
Lemma booked_of_checks db tc t : tx_ok t -> (t_CreatedBy t = uuid_Nil <-> t_CreatedByKeyID t <> uuid_Nil) ->
  t_OrgID t = OrgID tc -> t_ProjectID t = ProjectID tc ->
  usable_wallet db tc (t_WalletID t) (AmountCurrency (t_Amount t)) ->
  (t_Kind t = TxTransfer -> forall id, t_ToWalletID t = Some id -> usable_wallet db tc id (AmountCurrency (t_Amount t))) ->
  (forall id, t_CategoryID t = Some id -> usable_category db tc id (t_Kind t)) ->
  (forall id, t_PeriodID t = Some id -> exists q, db_periods db !! id = Some q /\ pr_OrgID q = OrgID tc
     /\ pr_ProjectID q = ProjectID tc) ->
  tx_booked db t.
Proof.
  intros Ok A O P W T C Pe. split; auto.
  - eapply usable_matches; eauto.
  - intros id Hid. eapply usable_matches; eauto. apply T; [|exact Hid].
    destruct Ok as (_ & _ & _ & _ & Hk & _). apply Hk. congruence.
  - intros id Hid. destruct (C id Hid) as (c & Hc & E1 & E2 & E3). exists c. repeat split; congruence.
  - intros id Hid. destruct (Pe id Hid) as (q & Hq & E1 & E2). exists q. repeat split; congruence.
Qed.

Lemma usable_same db db' tc id cur : db_wallets db' = db_wallets db ->
  usable_wallet db tc id cur -> usable_wallet db' tc id cur.
Proof. intros E (w & Hw & R). exists w. rewrite E. auto. Qed.
Lemma usable_category_same db db' tc id k : db_categories db' = db_categories db ->
  usable_category db tc id k -> usable_category db' tc id k.
Proof. intros E (w & Hw & R). exists w. rewrite E. auto. Qed.

Lemma runs_record cx tc i by_ : fresh_ids -> cx_tx cx = true -> From_ cx = inr tc ->
  runs (recorded tc i) (record cx tc i by_).
Proof.
  intros Hf Hx F. assert (Hc : calm cx) by (left; exact Hx). unfold record.
  eapply runs_read_bind; [apply reads_checkWallets, Hc|]. intros cur _.
  eapply runs_read_bind; [apply reads_checkCategory, Hc|]. intros u _.
  set (facts := fun db => (forall id, in_CategoryID i = Some id -> usable_category db tc id (in_Kind i)) /\
    AmountCurrency (in_Amount i) = cur /\ usable_wallet db tc (in_WalletID i) cur
    /\ (in_Kind i = TxTransfer -> forall id, in_ToWalletID i = Some id -> usable_wallet db tc id cur)).
  apply (runs_conseq (fun t db db' => facts db -> recorded tc i t db db')); [|unfold facts; tauto].
  eapply (runs_bind _ _ _ (fun pid t db1 db' =>
    facts db1 -> (Books db1 -> forall id, pid = Some id -> open_period db1 (OrgID tc) (ProjectID tc) id) ->
    (forall w, in_PeriodID i = Some w -> pid = Some w) -> written tc i t db1 db'));
    [apply runs_resolvePeriod, Hx | |].
  - intros pid _. destruct (author cx by_) as [[user key]|] eqn:A; [|intros w a; discriminate].
    eapply runs_read_bind; [apply reads_time_Now|]. intros now _.
    eapply runs_read_bind; [apply (reads_NewV7_fresh _ Hf)|]. intros id _.
    destruct (Tx_New _ _ _ _ _) as [e|t] eqn:EN; [intros w a; discriminate|].
    apply Tx_New_ok in EN as [Ok Et]. cbn in Et.
    eapply (runs_bind _ _ _ (fun _ r db db' => r = t /\ db' = db)); [apply (runs_save_tx cx tc "transaction.Record"); assumption
      | intros v _ w r; simpl; intros [= <-]; split; reflexivity |].
    intros v r db db1 db2 [n U] [-> ->] (_ & _ & _ & _ & _ & Hfr) _ (HC & Ecur & HW & HT) Hop Hwant. subst t.
    apply tx_upsert_fresh in U; [|exact Hfr | exact (Tenant.author_one cx by_ user key A)].
    assert (EA : New (Minor (in_Amount i)) cur = in_Amount i) by (subst cur; destruct (in_Amount i); reflexivity).
    split; [exact Hfr|]. split; [exact U|].
    split; [cbn; repeat split; exact EA|]. split; [exact Hwant|]. intros B. split; [|exact (Hop B)].
    apply (booked_of_checks db tc); cbn; auto.
    + exact (Tenant.author_one cx by_ user key A).
    + intros j Hj. destruct (Hop B j Hj) as (q & Hq & E1 & E2 & _). exists q. auto.
  - intros pid t db db1 db2 (Ho & Hop & Hw) Hr (HC & Ecur & HW & HT).
    destruct (opens_refs db db1 Ho) as (_ & EW & EC & _). exists db1. split; [exact Ho|].
    apply Hr; [|exact Hop | exact Hw].
    split; [intros j Hj; eapply usable_category_same; eauto|]. split; [exact Ecur|].
    split; [eapply usable_same; eauto|]. intros Hk j Hj. eapply usable_same; eauto.
Qed.

Lemma recorded_step tc i t db db' : recorded tc i t db db' -> ledger_step db db'.
Proof.
  intros (db1 & Ho & Hf & -> & _ & _ & Hb). etransitivity; [apply opens_step, Ho|].
  apply step_intro; [|reflexivity]. intros B. destruct (Hb B) as [Ht Hop]. split; [apply Books_insert_tx; assumption|].
  apply frozen_put; [eapply open_not_in_locked; exact Hop | intros old Hold; congruence].
Qed.

(** *** Revisions *)
Definition set_to {A} (o : option A) (old new : A) : Prop :=
  new = match o with Some a => a | None => old end.

(** The patch applied: every field the patch names is set, every other is kept. *)
Definition patched (p : RevisePatch) (t next : Transaction) : Prop :=
  (t_ID next = t_ID t /\ t_OrgID next = t_OrgID t /\ t_ProjectID next = t_ProjectID t /\ t_Kind next = t_Kind t
   /\ t_CreatedBy next = t_CreatedBy t /\ t_CreatedByKeyID next = t_CreatedByKeyID t
   /\ t_CreatedAt next = t_CreatedAt t)
  /\ set_to (rp_WalletID p) (t_WalletID t) (t_WalletID next)
  /\ set_to (rp_ToWalletID p) (t_ToWalletID t) (t_ToWalletID next)
  /\ set_to (rp_Amount p) (t_Amount t) (t_Amount next)
  /\ set_to (rp_CategoryID p) (t_CategoryID t) (t_CategoryID next)
  /\ t_Note next = match rp_Note p with Some n => TrimSpace n | None => t_Note t end
  /\ set_to (rp_OccurredAt p) (t_OccurredAt t) (t_OccurredAt next).

Lemma reads_set_opt {A} (o : option A) f t :
  reads (fun t' (_ : DB) => match o with None => t' = t | Some a => exists now, f t a now = inr t' end) (set_opt o f t).
Proof.
  unfold set_opt. destruct o as [a|]; [|apply reads_ret; auto].
  eapply reads_seq; [apply reads_time_Now|]. intros now _.
  destruct (f t a now) as [e|t'] eqn:E; [apply reads_err; auto | apply reads_ret; eauto].
Qed.

(** One setter: identity and period kept, and every field but the named one. *)
Inductive Field := FWallet | FTo | FAmount | FCategory | FNote | FOccurred.
Definition kept (f : Field) (t t' : Transaction) : Prop :=
  (t_ID t' = t_ID t /\ t_OrgID t' = t_OrgID t /\ t_ProjectID t' = t_ProjectID t /\ t_Kind t' = t_Kind t
   /\ t_CreatedBy t' = t_CreatedBy t /\ t_CreatedByKeyID t' = t_CreatedByKeyID t
   /\ t_CreatedAt t' = t_CreatedAt t /\ t_PeriodID t' = t_PeriodID t)
  /\ (f = FWallet \/ t_WalletID t' = t_WalletID t) /\ (f = FTo \/ t_ToWalletID t' = t_ToWalletID t)
  /\ (f = FAmount \/ t_Amount t' = t_Amount t) /\ (f = FCategory \/ t_CategoryID t' = t_CategoryID t)
  /\ (f = FNote \/ t_Note t' = t_Note t) /\ (f = FOccurred \/ t_OccurredAt t' = t_OccurredAt t).

Lemma kept_refl f t : kept f t t.
Proof. repeat split; auto. Qed.

Ltac kept_solve := unfold kept; cbn; repeat split; auto.

Lemma reads_set_field {A} (f : Field) (get : Transaction -> A) (o : option A) (g : A -> A) set t :
  (forall t a now t', set t a now = inr t' -> kept f t t' /\ get t' = g a) ->
  reads (fun t' (_ : DB) => kept f t t' /\ get t' = match o with Some a => g a | None => get t end)
    (set_opt o set t).
Proof.
  intros Hs. eapply reads_conseq; [apply reads_set_opt|]. intros t' db. destruct o as [a|].
  - intros [now E]. exact (Hs t a now t' E).
  - intros ->. split; [apply kept_refl | reflexivity].
Qed.

Lemma SetNote_kept t n now t' : SetNote t n now = inr t' -> kept FNote t t' /\ t_Note t' = TrimSpace n.
Proof. unfold SetNote. destruct (validNote _); [discriminate|]. intros [= <-]. kept_solve. Qed.
Lemma SetAmount_kept t a now t' : SetAmount t a now = inr t' -> kept FAmount t t' /\ t_Amount t' = a.
Proof. unfold SetAmount. destruct (validAmount _); [discriminate|]. intros [= <-]. kept_solve. Qed.
Lemma SetCategory_kept t c now t' : SetCategory t c now = inr t' -> kept FCategory t t' /\ t_CategoryID t' = c.
Proof.
  unfold SetCategory. destruct c; [destruct (negb _); [discriminate|]|]; intros [= <-]; kept_solve.
Qed.

Lemma reads_apply_patch t p :
  reads (fun next (_ : DB) => patched p t next /\ t_PeriodID next = t_PeriodID t) (apply_patch t p).
Proof.
  unfold apply_patch.
  eapply reads_seq; [apply (reads_set_field FOccurred t_OccurredAt _ (fun a => a)); intros * [= <-]; kept_solve|].
  intros t1 _.
  eapply reads_seq; [apply (reads_set_field FWallet t_WalletID _ (fun a => a)); intros * [= <-]; kept_solve|].
  intros t2 _.
  eapply reads_seq; [apply (reads_set_field FTo t_ToWalletID _ (fun a => a)); intros * [= <-]; kept_solve|].
  intros t3 _. eapply reads_seq; [apply (reads_set_field FNote t_Note _ TrimSpace), SetNote_kept|].
  intros t4 _. eapply reads_seq; [apply (reads_set_field FAmount t_Amount _ (fun a => a)), SetAmount_kept|].
  intros t5 _.
  eapply reads_conseq; [apply (reads_set_field FCategory t_CategoryID _ (fun a => a)), SetCategory_kept|].
  intros t6 db [K6 G6] [K5 G5] [K4 G4] [K3 G3] [K2 G2] [K1 G1]. unfold patched, set_to.
  destruct K1 as ((? & ? & ? & ? & ? & ? & ? & ?) & [?|?] & [?|?] & [?|?] & [?|?] & [?|?] & _); try discriminate.
  destruct K2 as ((? & ? & ? & ? & ? & ? & ? & ?) & _ & [?|?] & [?|?] & [?|?] & [?|?] & [?|?]); try discriminate.
  destruct K3 as ((? & ? & ? & ? & ? & ? & ? & ?) & [?|?] & _ & [?|?] & [?|?] & [?|?] & [?|?]); try discriminate.
  destruct K4 as ((? & ? & ? & ? & ? & ? & ? & ?) & [?|?] & [?|?] & [?|?] & [?|?] & _ & [?|?]); try discriminate.
  destruct K5 as ((? & ? & ? & ? & ? & ? & ? & ?) & [?|?] & [?|?] & _ & [?|?] & [?|?] & [?|?]); try discriminate.
  destruct K6 as ((? & ? & ? & ? & ? & ? & ? & ?) & [?|?] & [?|?] & [?|?] & _ & [?|?] & [?|?]); try discriminate.
  split; [|congruence]. split; [repeat split; congruence|].
  split; [destruct (rp_WalletID p); congruence|]. split; [destruct (rp_ToWalletID p); congruence|].
  split; [destruct (rp_Amount p); congruence|]. split; [destruct (rp_CategoryID p); congruence|].
  split; [destruct (rp_Note p); congruence|]. destruct (rp_OccurredAt p); congruence.
Qed.

(** The period a revision ends in: kept, cleared, or one resolved and open. *)
Definition repicked (tc : Tenant) (next r : Transaction) (db : DB) : Prop :=
  r = next \/ exists pid now, r = SetPeriod next pid now
    /\ (Books db -> forall id, pid = Some id -> open_period db (OrgID tc) (ProjectID tc) id).

Lemma runs_revise_period cx tc p moved next : cx_tx cx = true ->
  runs (fun r db db' => opens db db' /\ repicked tc next r db') (revise_period cx tc p moved next).
Proof.
  intros Hx. unfold revise_period.
  assert (Set_ : forall (pid : option uuid), runs (fun r db db' => db' = db /\ exists now, r = SetPeriod next pid now)
      (let* now := time_Now in st_ret (SetPeriod next pid now) : M Transaction)).
  { intros pid. eapply runs_read_bind; [apply reads_time_Now|]. intros now _ w r. simpl. intros [= <-]. eauto. }
  assert (Res : forall want, runs (fun r db db' => opens db db' /\ repicked tc next r db')
      (let* id := resolvePeriod cx tc (t_OccurredAt next) want in
       let* now := time_Now in st_ret (SetPeriod next id now))).
  { intros want. eapply (runs_bind _ _ _ (fun pid r db db' => db' = db /\ exists now, r = SetPeriod next pid now));
      [apply runs_resolvePeriod, Hx | intros pid _; apply Set_ |].
    intros pid r db db1 db2 (Ho & Hop & _) [-> [now ->]]. split; [exact Ho|]. right. exists pid, now. auto. }
  destruct (rp_PeriodID p) as [[w|]|]; [apply Res | |].
  - eapply runs_conseq; [apply Set_|]. intros r db db' [-> [now ->]]. split; [left; reflexivity|].
    right. exists None, now. split; [reflexivity | discriminate].
  - destruct moved; [apply Res|]. intros w r. simpl. intros [= <-]. split; left; reflexivity.
Qed.

Definition revised (tc : Tenant) (id : uuid) (p : RevisePatch) (r : Transaction) (db db' : DB) : Prop :=
  exists t next db1, db_txs db !! id = Some t /\ t_OrgID t = OrgID tc /\ t_ProjectID t = ProjectID tc
    /\ IsUserRecorded (t_Kind t) = true /\ patched p t next /\ opens db db1
    /\ (r = next \/ exists pid now, r = SetPeriod next pid now)
    /\ db_periods db' = db_periods db1
    /\ (Books db -> t_ID t = id /\ db' = set_txs (<[id := r]> (db_txs db1)) db1
          /\ tx_booked db1 r /\ not_in_locked db1 t /\ not_in_locked db1 r).

Lemma reads_tx_load cx tc id op : calm cx ->
  reads (fun t db => db_txs db !! id = Some t /\ t_OrgID t = OrgID tc /\ t_ProjectID t = ProjectID tc)
    (tx_load cx tc id op).
Proof.
  intros Hc. unfold tx_load.
  eapply (reads_seq _ _ (fun r db => match r with inr t => db_txs db !! id = Some t | _ => True end)).
  { eapply reads_e_conseq; [apply reads_try, (reads_read_tx "transaction" cx _
      (fun t db => db_txs db !! id = Some t) (fun _ _ => True)); [exact Hc | auto|] | | auto].
    - intros tc' _. eapply reads_seq; [apply (reads_of _ _ _ (reads_query _ _))|].
      intros [t|] _; [|apply reads_err; auto]. apply reads_ret. intros db E.
      destruct (db_txs db !! id) as [u|]; [|discriminate]. destruct (N.eqb _ _); congruence.
    - intros [e|t] db; auto. }
  intros [e|t] _; [destruct (IsTxNotFound e); apply reads_err; auto|].
  destruct (N.eqb_spec (t_OrgID t) (OrgID tc)); [|apply reads_err; auto].
  destruct (N.eqb_spec (t_ProjectID t) (ProjectID tc)); [|apply reads_err; auto].
  apply reads_ret. auto.
Qed.

Lemma with_currency_same t cur : AmountCurrency (t_Amount t) = cur -> with_currency t cur = t.
Proof. intros <-. destruct t as [? ? ? ? ? ? [m c] ? ? ? ? ? ? ? ?]. reflexivity. Qed.
Lemma tx_ok_SetPeriod t pid now : tx_ok t -> tx_ok (SetPeriod t pid now).
Proof. exact id. Qed.
Lemma updated_tx_same old t : t_ID t = t_ID old -> t_OrgID t = t_OrgID old -> t_ProjectID t = t_ProjectID old ->
  t_CreatedBy t = t_CreatedBy old -> t_CreatedByKeyID t = t_CreatedByKeyID old -> t_CreatedAt t = t_CreatedAt old ->
  updated_tx old t = t.
Proof. intros. destruct t; cbn in *. unfold updated_tx. cbn. congruence. Qed.

(** A revision of a booked transaction, with what its checks found, is booked. *)
Lemma booked_revision db tc t next r :
  tx_booked db t -> t_OrgID t = OrgID tc -> t_ProjectID t = ProjectID tc ->
  t_OrgID next = t_OrgID t -> t_ProjectID next = t_ProjectID t ->
  t_CreatedBy next = t_CreatedBy t -> t_CreatedByKeyID next = t_CreatedByKeyID t ->
  t_PeriodID next = t_PeriodID t -> tx_ok next ->
  usable_wallet db tc (t_WalletID next) (AmountCurrency (t_Amount next)) ->
  (t_Kind next = TxTransfer -> forall id, t_ToWalletID next = Some id ->
     usable_wallet db tc id (AmountCurrency (t_Amount next))) ->
  (forall id, t_CategoryID next = Some id -> usable_category db tc id (t_Kind next)) ->
  (r = next \/ exists pid now, r = SetPeriod next pid now
     /\ forall id, pid = Some id -> open_period db (OrgID tc) (ProjectID tc) id) ->
  tx_booked db r.
Proof.
  intros B O P O' P' U K Pe Ok W T C Hr.
  assert (Per : forall id, t_PeriodID r = Some id ->
      exists q, db_periods db !! id = Some q /\ pr_OrgID q = OrgID tc /\ pr_ProjectID q = ProjectID tc).
  { intros id Hid. destruct Hr as [->|(pid & now & -> & Hop)].
    - rewrite Pe in Hid. destruct (tb_period db t B id Hid) as (q & Hq & E1 & E2). exists q.
      repeat split; congruence.
    - cbn in Hid. destruct (Hop id Hid) as (q & Hq & E1 & E2 & _). exists q. auto. }
  pose proof (tb_author db t B) as A. rewrite <- U, <- K in A.
  destruct Hr as [->|(pid & now & -> & _)];
    (apply (booked_of_checks db tc); [exact Ok | exact A | cbn; congruence | cbn; congruence | auto ..]).
Qed.

Lemma runs_revise cx tc id p : cx_tx cx = true -> From_ cx = inr tc ->
  runs (fun rr db db' => revised tc id p (fst rr) db db') (revise cx tc id p).
Proof.
  intros Hx F. assert (Hc : calm cx) by (left; exact Hx). unfold revise.
  eapply runs_read_bind; [apply reads_tx_load, Hc|]. intros t _.
  destruct (IsUserRecorded (t_Kind t)) eqn:HU; [cbn [negb]|intros w a; discriminate].
  eapply runs_read_bind; [apply reads_refusePeriodLocked, Hx|]. intros u1 _.
  eapply runs_read_bind; [apply reads_apply_patch|]. intros next [db0 [HP HPe]].
  set (moved := match rp_OccurredAt p with Some _ => _ | None => _ end).
  destruct (validate next) as [e|] eqn:V; [intros w a; discriminate|]. apply validate_none in V.
  eapply runs_read_bind; [apply reads_checkWallets, Hc|]. intros cur [dbc [Ecur _]].
  rewrite (with_currency_same next cur Ecur). cbv zeta.
  eapply runs_read_bind; [apply reads_checkCategory, Hc|]. intros u2 _.
  eapply (runs_bind _ _ _ (fun r rr db db' => fst rr = r /\ exists n, tx_upsert tc r db = inr (db', S n)));
    [apply runs_revise_period, Hx | |].
  - intros r _. eapply (runs_bind _ _ _ (fun _ rr db db' => fst rr = r /\ db' = db));
      [exact (runs_save_tx cx tc "transaction.Revise" r Hc F) | intros u3 _ w rr; simpl; intros [= <-]; auto |].
    intros u3 rr db db1 db2 Hn [E ->]. auto.
  - intros r rr db db1 db2 [Ho Hr] [-> [n U]] HC (_ & HW & HT) _ Hun (Ht & HO & HPr).
    pose proof HP as ((I & O' & P' & K' & U' & Key' & Ca') & _).
    exists t, next, db1. split; [exact Ht|]. split; [exact HO|]. split; [exact HPr|]. split; [exact HU|]. split; [exact HP|]. split; [exact Ho|].
    split; [destruct Hr as [->|(pid & now & -> & _)]; eauto|]. split; [exact (tx_upsert_periods tc r db1 db2 _ U)|]. intros B.
    assert (B1 : Books db1) by (apply (proj1 (opens_step db db1 Ho) B)).
    destruct (opens_refs db db1 Ho) as (Kr & EW & EC & ET).
    pose proof (bk_tx_key db B id t Ht) as Hid. split; [exact Hid|].
    assert (Hr' : r = next \/ exists pid now, r = SetPeriod next pid now
       /\ forall id, pid = Some id -> open_period db1 (OrgID tc) (ProjectID tc) id)
      by (destruct Hr as [->|(pid & now & -> & Hop)]; [auto | right; exists pid, now; auto]).
    assert (Same : t_ID r = t_ID t /\ updated_tx t r = r).
    { destruct Hr as [->|(pid & now & -> & _)]; (split; [exact I|]); apply updated_tx_same; cbn; assumption. }
    destruct Same as [Er Eu].
    apply (tx_upsert_existing tc r t) in U; [|rewrite Er, Hid, ET; exact Ht | exact Eu].
    rewrite Er, Hid in U. split; [exact U|].
    assert (Bt : tx_booked db1 t) by (eapply tx_booked_keeps; [exact Kr | apply (bk_tx db B id t Ht)]).
    assert (Nt : not_in_locked db1 t).
    { apply (open_not_in_locked db1 (OrgID tc) (ProjectID tc)). intros j Hj.
      destruct (Hun B j Hj) as (q & Hq & E1 & E2 & L). exists q. split; [apply (opens_period db db1 j q Ho Hq) | auto]. }
    split; [|split; [exact Nt|]].
    + apply (booked_revision db1 tc t next r Bt HO HPr); auto.
      * rewrite Ecur. eapply usable_same; eauto.
      * intros Hk j Hj. rewrite Ecur. eapply usable_same; eauto.
      * intros j Hj. eapply usable_category_same; eauto.
    + destruct Hr' as [->|(pid & now & -> & Hop)]; intros j Hj q Hq.
      * rewrite HPe in Hj. exact (Nt j Hj q Hq).
      * destruct (Hop j Hj) as (q' & Hq' & _ & _ & L). congruence.
Qed.

Lemma revised_step tc id p r db db' : revised tc id p r db db' -> ledger_step db db'.
Proof.
  intros (t & next & db1 & Ht & _ & _ & _ & HP & Ho & Hr & EP & Hb). split.
  - intros B. destruct (Hb B) as (Hid & -> & Br & Nt & Nr). destruct (proj1 (opens_step db db1 Ho) B) as [B1 F1].
    destruct (opens_refs db db1 Ho) as (_ & _ & _ & ET).
    assert (Er : t_ID r = id).
    { destruct HP as ((I & _) & _). destruct Hr as [->|(pid & now & ->)]; cbn; rewrite I; exact Hid. }
    rewrite <- Er. split; [apply Books_insert_tx; assumption|]. eapply frozen_trans; [exact F1|].
    apply frozen_put; [exact Nr|]. intros old Hold. rewrite Er, ET in Hold. assert (old = t) as -> by congruence. exact Nt.
  - etransitivity; [apply (opens_step db db1 Ho) | apply guar_same, EP].
Qed.

(** *** Deletes *)
Definition deleted (tc : Tenant) (id : uuid) (db db' : DB) : Prop :=
  exists t, db_txs db !! id = Some t /\ t_OrgID t = OrgID tc /\ t_ProjectID t = ProjectID tc
    /\ IsUserRecorded (t_Kind t) = true /\ db' = set_txs (delete id (db_txs db)) db
    /\ (Books db -> not_in_locked db t).

Lemma runs_tx_delete_body cx tc id : cx_tx cx = true -> From_ cx = inr tc ->
  runs (fun _ db db' => deleted tc id db db') (tx_delete_body cx tc id).
Proof.
  intros Hx F. assert (Hc : calm cx) by (left; exact Hx). unfold tx_delete_body.
  eapply runs_read_bind; [apply reads_tx_load, Hc|]. intros t _.
  destruct (IsUserRecorded (t_Kind t)) eqn:HU; [cbn [negb]|intros w a; discriminate].
  eapply runs_read_bind; [apply reads_refusePeriodLocked, Hx|]. intros u1 _.
  assert (HD : runs (fun _ db db' => exists n, tx_delete tc id db = inr (db', S n)) (tx_store_Delete cx id)).
  { unfold tx_store_Delete. apply runs_write_tx; [exact Hc|]. intros tc' F'. rewrite F in F'. injection F' as <-.
    apply runs_exec_save. }
  intros w a. specialize (HD w). unfold st_bind, st_try. destruct (tx_store_Delete cx id w) as [[[]|e|q] w1]; simpl in *.
  - intros [= <-] Hun (Ht & O & P). destruct (HD tt eq_refl) as [n D]. unfold tx_delete in D. rewrite Ht in D.
    destruct (_ && _)%bool; [|discriminate]. injection D as <- _. exists t. do 4 (split; [assumption|]).
    split; [reflexivity|]. intros B. eapply open_not_in_locked. exact (Hun B).
  - destruct (IsTxNotFound e); discriminate.
  - discriminate.
Qed.
Lemma deleted_step tc id db db' : deleted tc id db db' -> ledger_step db db'.
Proof.
  intros (t & Ht & _ & _ & _ & -> & Hn). apply step_intro; [|reflexivity]. intros B. split; [apply Books_delete_tx, B|]. eapply frozen_delete; eauto.
Qed.
End Writes.
