(* ===== verification/BooksOps.v ===== *)
(** * What the wallets and categories services do to the books *)
From Stdlib Require Import ZArith Lia String List.
From stdpp Require Import base gmap list strings.
From S2P Require Import Prelude GoStrings Errors Civil Money Tenant Ledger Period Wallet Category Transaction World.
From S2P Require Import Commit PeriodStore WalletService CategoryService TxStore TxService Books TxTheory.
Local Open Scope string_scope.

(** ** The wallet statements *)
Lemma wallet_upsert_row tc w db db' n : Books db ->
  (forall old, db_wallets db !! w_ID w = Some old -> w_Currency w = w_Currency old) ->
  wallet_upsert tc w db = inr (db', n) ->
  (n = 0%nat /\ db' = db) \/
  exists row, w_ID row = w_ID w /\ wallet_name_conflict db row = false
    /\ db' = set_wallets (<[w_ID row := row]> (db_wallets db)) db
    /\ w_Name row = w_Name w /\ w_Kind row = w_Kind w /\ w_Currency row = w_Currency w
    /\ (forall old, db_wallets db !! w_ID row = Some old ->
          w_OrgID row = w_OrgID old /\ w_ProjectID row = w_ProjectID old /\ w_Currency row = w_Currency old)
    /\ (db_wallets db !! w_ID w = None -> row = w)
    /\ (forall old, db_wallets db !! w_ID w = Some old -> row = updated_wallet old w
          /\ w_OrgID old = OrgID tc /\ w_ProjectID old = ProjectID tc).
Proof.
  intros B Hcur. unfold wallet_upsert. destruct (wallet_check w); [discriminate|].
  destruct (db_wallets db !! w_ID w) as [old|] eqn:E.
  - destruct (N.eqb_spec (w_OrgID old) (OrgID tc)), (N.eqb_spec (w_ProjectID old) (ProjectID tc));
      cbn [andb]; try (intros [= <- <-]; left; auto).
    destruct (wallet_name_conflict db (updated_wallet old w)) eqn:Cf; [discriminate|]. intros [= <- _]. right.
    exists (updated_wallet old w). pose proof (bk_wallet_key db B _ _ E) as K. cbn. rewrite K.
    split; [reflexivity|]. split; [exact Cf|]. split; [reflexivity|]. do 3 (split; [reflexivity|]).
    split; [intros o; rewrite E; intros [= <-]; cbn; auto|].
    split; [discriminate|]. intros o [= <-]. auto.
  - destruct (wallet_name_conflict db w) eqn:Cf; [discriminate|]. destruct (_ && _)%bool; [|discriminate].
    intros [= <- _]. right. exists w. repeat (split; [auto; fail|]).
    split; [intros o; congruence|]. split; [auto|]. intros o [=].
Qed.

Lemma wallet_upsert_periods tc w db db' n : wallet_upsert tc w db = inr (db', n) -> db_periods db' = db_periods db.
Proof.
  unfold wallet_upsert. destruct (wallet_check w); [discriminate|].
  destruct (db_wallets db !! _); [destruct (_ && _)%bool|]; try destruct (wallet_name_conflict _ _);
    try destruct (_ && _)%bool; intros [= <- <-]; reflexivity.
Qed.
Lemma wallet_upsert_step tc w db db' n : wallet_ok w ->
  (Books db -> forall old, db_wallets db !! w_ID w = Some old -> w_Currency w = w_Currency old) ->
  wallet_upsert tc w db = inr (db', n) -> ledger_step db db'.
Proof.
  intros (N & K & C) Hcur U. apply step_intro; [|exact (wallet_upsert_periods tc w db db' n U)]. intros B.
  destruct (wallet_upsert_row tc w db db' n B (Hcur B) U) as [[_ ->]|(row & I & Cf & -> & En & Ek & Ec & Ho & _)];
    [split; [exact B | apply frozen_refl]|].
  split; [apply Books_put_wallet; auto; unfold wallet_ok; rewrite En, Ek, Ec; auto | apply frozen_same_txs; reflexivity].
Qed.

Lemma wallet_delete_step tc id db db' n : wallet_delete tc id db = inr (db', n) -> ledger_step db db'.
Proof.
  intros U. unfold wallet_delete in U. destruct (db_wallets db !! id) as [w|] eqn:E; [|injection U as <- _; reflexivity].
  destruct (_ && _)%bool; [|injection U as <- _; reflexivity].
  destruct (wallet_referenced db id (w_OrgID w)) eqn:R; [discriminate|]. injection U as <- _.
  apply step_intro; [|reflexivity]. intros B. split; [eapply Books_delete_wallet; eauto | apply frozen_same_txs; reflexivity].
Qed.

(** ** The category statements *)
Lemma category_upsert_periods tc c db db' n : category_upsert tc c db = inr (db', n) -> db_periods db' = db_periods db.
Proof.
  unfold category_upsert. destruct (category_check c); [discriminate|].
  destruct (db_categories db !! _); [destruct (_ && _)%bool|]; try destruct (category_name_conflict _ _);
    try destruct (_ && _)%bool; intros [= <- <-]; reflexivity.
Qed.
Lemma category_upsert_step tc c db db' n : category_ok c ->
  (Books db -> forall old, db_categories db !! c_ID c = Some old -> c_Kind c = c_Kind old) ->
  category_upsert tc c db = inr (db', n) -> ledger_step db db'.
Proof.
  intros (K & N & L & I & S) Hk U. apply step_intro; [|exact (category_upsert_periods tc c db db' n U)].
  intros B. specialize (Hk B). unfold category_upsert in U.
  destruct (category_check c); [discriminate|].
  assert (Ok : forall old, category_ok (updated_category old c)).
  { intros old. repeat split; cbn; auto; apply clampSortOrder_range. }
  destruct (db_categories db !! c_ID c) as [old|] eqn:E.
  - destruct (_ && _)%bool; [|injection U as <- _; split; [exact B | apply frozen_refl]].
    destruct (category_name_conflict db (updated_category old c)) eqn:Cf; [discriminate|]. injection U as <- _.
    pose proof (bk_category_key db B _ _ E) as Key.
    pose proof (Books_put_category db (updated_category old c) B (Ok old) Cf) as BP.
    cbn [updated_category c_ID] in BP. rewrite Key in BP.
    split; [apply BP | apply frozen_same_txs; reflexivity].
    intros o. rewrite E. intros [= <-]. cbn. auto.
  - destruct (category_name_conflict db c) eqn:Cf; [discriminate|]. destruct (_ && _)%bool; [|discriminate].
    injection U as <- _. split; [|apply frozen_same_txs; reflexivity].
    apply (Books_put_category db (category_row c) B).
    + repeat split; cbn; auto; apply clampSortOrder_range.
    + exact Cf.
    + cbn. intros o. congruence.
Qed.

Lemma category_delete_step tc id db db' n : category_delete tc id db = inr (db', n) -> ledger_step db db'.
Proof.
  intros U. unfold category_delete in U. destruct (db_categories db !! id) as [c|] eqn:E; [|injection U as <- _; reflexivity].
  destruct (_ && _)%bool; [|injection U as <- _; reflexivity].
  destruct (category_referenced db id (c_OrgID c)) eqn:R; [discriminate|]. injection U as <- _.
  apply step_intro; [|reflexivity]. intros B. split; [eapply Books_delete_category; eauto | apply frozen_same_txs; reflexivity].
Qed.

(** ** The mutators keep identity and well-formedness *)
Definition wallet_mutates (w0 w : Wallet) : Prop :=
  w_ID w = w_ID w0 /\ w_OrgID w = w_OrgID w0 /\ w_ProjectID w = w_ProjectID w0 /\ w_Currency w = w_Currency w0
  /\ w_CreatedAt w = w_CreatedAt w0 /\ (wallet_ok w0 -> wallet_ok w).

Lemma Wallet_Rename_mutates w name now w' : Wallet_Rename w name now = inr w' -> wallet_mutates w w'.
Proof.
  unfold Wallet_Rename. destruct (Wallet_cleanName name) as [|c] eqn:E; [discriminate|]. intros [= <-].
  apply Wallet_cleanName_ok in E. repeat (split; [reflexivity|]). intros (N & K & C). repeat split; auto.
Qed.
Lemma Wallet_Update_mutates w k p x now w' : Wallet_Update w k p x now = inr w' -> wallet_mutates w w'.
Proof.
  unfold Wallet_Update. destruct (Wallet_IsArchived w); [discriminate|].
  destruct (WalletKind_Valid k) eqn:E; [|discriminate]. intros [= <-].
  repeat (split; [reflexivity|]). intros (N & K & C). repeat split; auto.
Qed.
Lemma Wallet_Edit_mutates w n k p x now w' : Wallet_Edit w n k p x now = inr w' -> wallet_mutates w w'.
Proof.
  unfold Wallet_Edit. destruct (Wallet_IsArchived w); [discriminate|].
  destruct (Wallet_cleanName n) as [|c] eqn:E; [discriminate|].
  destruct (WalletKind_Valid k) eqn:Ek; [|discriminate]. intros [= <-]. apply Wallet_cleanName_ok in E.
  repeat (split; [reflexivity|]). intros (N & K & C). repeat split; auto.
Qed.
Lemma Wallet_Archive_mutates w now : wallet_mutates w (Wallet_Archive w now).
Proof. unfold Wallet_Archive. destruct (Wallet_IsArchived w); repeat (split; [reflexivity|]); auto. Qed.
Lemma Wallet_Unarchive_mutates w now : wallet_mutates w (Wallet_Unarchive w now).
Proof. unfold Wallet_Unarchive. destruct (Wallet_IsArchived w); repeat (split; [reflexivity|]); auto. Qed.

Definition category_mutates (c0 c : Category) : Prop :=
  c_ID c = c_ID c0 /\ c_OrgID c = c_OrgID c0 /\ c_ProjectID c = c_ProjectID c0 /\ c_Kind c = c_Kind c0
  /\ c_CreatedAt c = c_CreatedAt c0 /\ (category_ok c0 -> category_ok c).

Section CategoryMutators.
Context `{Unicode}.
Lemma Category_Rename_mutates c n now c' : Category_Rename c n now = inr c' -> category_mutates c c'.
Proof.
  unfold Category_Rename. destruct (normalizeName n) as [|x] eqn:E; [discriminate|]. intros [= <-].
  apply normalizeName_ok in E as (_ & E1 & E2). repeat (split; [reflexivity|]).
  intros (K & N & L & I & S). repeat split; auto; apply S.
Qed.
Lemma Category_Update_mutates c i col now c' : Category_Update c i col now = inr c' -> category_mutates c c'.
Proof.
  unfold Category_Update. destruct (normalizeIcon i) as [|x] eqn:E; [discriminate|].
  destruct (normalizeColor col); [discriminate|]. intros [= <-]. apply normalizeIcon_ok in E.
  repeat (split; [reflexivity|]). intros (K & N & L & I & S). repeat split; auto; apply S.
Qed.
End CategoryMutators.
Lemma Category_Archive_mutates c now : category_mutates c (Category_Archive c now).
Proof. unfold Category_Archive. destruct (Category_IsArchived c); repeat (split; [reflexivity|]); auto. Qed.
Lemma Category_Unarchive_mutates c now : category_mutates c (Category_Unarchive c now).
Proof. unfold Category_Unarchive. destruct (Category_IsArchived c); repeat (split; [reflexivity|]); auto. Qed.

(** ** The wallets service *)
Section Wallets.
Context `{Env, Unicode, Mirror, !MirrorLaws, Uow}.
Hypothesis uow_tx : uow = run_in_tx.

Lemma reads_wallet_ByID cx tc id : calm cx -> From_ cx = inr tc ->
  reads (fun w db => db_wallets db !! id = Some w /\ w_OrgID w = OrgID tc /\ w_ProjectID w = ProjectID tc)
    (wallet_ByID cx id).
Proof.
  intros Hc F. unfold wallet_ByID.
  eapply reads_seq; [apply (reads_of _ _ _ (reads_from_tenant cx))|]. intros tc' [db0 F'].
  rewrite F in F'. injection F' as <-.
  eapply (reads_seq _ _ (fun r db => match r with inr w => db_wallets db !! id = Some w | _ => True end)).
  { eapply reads_e_conseq; [apply reads_try, (reads_read_tx "wallet" cx _
      (fun w db => db_wallets db !! id = Some w) (fun _ _ => True)); [exact Hc | auto|] | | auto].
    - intros tc' _. eapply reads_seq; [apply (reads_of _ _ _ (reads_query _ _))|].
      intros [w|] _; [|apply reads_err; auto]. apply reads_ret. intros db E.
      destruct (db_wallets db !! id) as [v|]; [|discriminate]. destruct (N.eqb _ _); congruence.
    - intros [e|w] db; auto. }
  intros [e|w] _; [destruct (IsWalletNotFound e); apply reads_err; auto|].
  destruct (N.eqb_spec (w_OrgID w) (OrgID tc)); [|apply reads_err; auto].
  destruct (N.eqb_spec (w_ProjectID w) (ProjectID tc)); [|apply reads_err; auto].
  apply reads_ret. auto.
Qed.
Lemma pres_wallet_ByID (R : DB -> DB -> Prop) `{!PreOrder R} cx id :
  (forall n db, R db (env_other n db)) -> preserves (on_db R) (wallet_ByID cx id).
Proof. intros rely. unfold wallet_ByID, wallet_store_ByID. pres_go rely. Qed.

Lemma runs_saveRow cx tc w op : calm cx -> From_ cx = inr tc ->
  runs (fun _ db db' => exists n, wallet_upsert tc w db = inr (db', S n)) (saveRow cx w op).
Proof.
  intros Hc F. unfold saveRow.
  assert (HS : runs (fun _ db db' => exists n, wallet_upsert tc w db = inr (db', S n)) (wallet_Save cx w)).
  { unfold wallet_Save. apply runs_write_tx; [exact Hc|]. intros tc' F'. rewrite F in F'. injection F' as <-.
    apply runs_exec_save. }
  intros v a. specialize (HS v). unfold st_bind, st_try. destruct (wallet_Save cx w v) as [[[]|e|p] v1]; simpl in *.
  - intros _. exact (HS tt eq_refl).
  - destruct (_ || _)%bool; discriminate.
  - discriminate.
Qed.

(** A new wallet: a fresh row of the caller's project with the asked, normalised contents. *)
Definition wallet_created (tc : Tenant) (p : WalletParams) (w : Wallet) (db db' : DB) : Prop :=
  db_wallets db !! w_ID w = None /\ db' = set_wallets (<[w_ID w := w]> (db_wallets db)) db
  /\ wallet_ok w /\ w_OrgID w = OrgID tc /\ w_ProjectID w = ProjectID tc
  /\ ParseCurrency (wp_Currency p) = inr (w_Currency w) /\ w_ArchivedAt w = None
  /\ wallet_name_conflict db w = false.

Lemma runs_wallet_create cx tc p : fresh_ids -> calm cx -> From_ cx = inr tc ->
  runs (wallet_created tc p) (wallet_create cx p).
Proof.
  intros Hf Hc F. unfold wallet_create.
  eapply runs_read_bind; [apply (reads_of _ _ _ (reads_from_tenant cx))|]. intros tc' [db0 F'].
  rewrite F in F'. injection F' as <-.
  destruct (ParseCurrency (wp_Currency p)) as [e|cur] eqn:EP; [intros w a; discriminate|].
  eapply runs_read_bind; [apply (reads_NewV7_fresh _ Hf)|]. intros id _.
  eapply runs_read_bind; [apply reads_time_Now|]. intros now _.
  destruct (Wallet_New _ _ _ _ _) as [e|w] eqn:EN; [intros v a; discriminate|].
  apply Wallet_New_ok in EN as (Ok & I & O & P & C & A). cbn in C.
  eapply (runs_bind _ _ _ (fun _ r db db' => r = w /\ db' = db));
    [exact (runs_saveRow cx tc w "wallet.Create" Hc F) | intros u _ v r; simpl; intros [= <-]; auto |].
  intros u r db db1 db2 [n U] [-> ->] _ (_ & _ & _ & Hfr & _) _. rewrite <- I in Hfr.
  unfold wallet_upsert in U. destruct (wallet_check w); [discriminate|]. rewrite Hfr in U.
  destruct (wallet_name_conflict db w) eqn:Cf; [discriminate|]. destruct (_ && _)%bool; [|discriminate].
  injection U as <- _. repeat (split; [assumption || reflexivity|]). split; [congruence|]. auto.
Qed.
Lemma wallet_created_step tc p w db db' : wallet_created tc p w db db' -> ledger_step db db'.
Proof.
  intros (Hf & -> & Ok & _ & _ & _ & _ & Cf). apply step_intro; [|reflexivity]. intros B. split; [|apply frozen_same_txs; reflexivity].
  apply Books_put_wallet; auto. congruence.
Qed.

Lemma wallet_Create_step (R : DB -> DB -> Prop) `{!PreOrder R} cx p : fresh_ids ->
  (forall db db', ledger_step db db' -> R db db') -> (forall n db, R db (env_other n db)) ->
  preserves (on_db R) (wallet_Create cx p).
Proof.
  intros Hf sub rely. unfold wallet_Create. destruct (From_ cx) as [e|tc] eqn:F.
  - apply pres_commit_kick; [exact _ | exact rely | exact uow_tx|]. intros w a.
    unfold wallet_create, from_tenant. change (From_ (WithTx cx)) with (From_ cx). rewrite F. discriminate.
  - apply pres_commit_kick; [exact _ | exact rely | exact uow_tx|].
    eapply (runs_bind _ _ _ (fun _ _ db db' => db' = db));
      [apply (runs_wallet_create (WithTx cx) tc p Hf (calm_WithTx cx) F)
      | intros w _ v r; simpl; intros [= <-]; auto |].
    intros w r db db1 db2 Hw ->. eapply sub, wallet_created_step, Hw.
Qed.

Lemma wallet_Delete_step (R : DB -> DB -> Prop) `{!PreOrder R} cx id :
  (forall db db', ledger_step db db' -> R db db') -> (forall n db, R db (env_other n db)) ->
  preserves (on_db R) (wallet_Delete cx id).
Proof.
  intros sub rely. unfold wallet_Delete.
  apply preserves_bind; [exact _ | apply (pres_wallet_ByID R _ _ rely)|]. intros w0.
  apply pres_commit_kick; [exact _ | exact rely | exact uow_tx|].
  assert (HD : runs (fun _ => R) (wallet_store_Delete (WithTx cx) id)).
  { unfold wallet_store_Delete. apply runs_write_tx; [apply calm_WithTx|]. intros tc _.
    eapply runs_conseq; [apply runs_exec_save|]. intros u db db' [n D]. eapply sub, wallet_delete_step, D. }
  intros v a. specialize (HD v). unfold st_bind, st_try.
  destruct (wallet_store_Delete (WithTx cx) id v) as [[[]|e|p] v1]; simpl in *.
  - intros _. exact (HD tt eq_refl).
  - destruct (_ || _)%bool; discriminate.
  - discriminate.
Qed.

(** *** The updates, without interference *)

(** [f] of the caller's own wallet is stored in its place, and nothing else changes. *)
Definition wallet_changed (cx : Ctx) (id : uuid) (f : Wallet -> Wallet -> Prop) (w : Wallet) (db db' : DB) : Prop :=
  exists tc w0, From_ cx = inr tc /\ db_wallets db !! id = Some w0 /\ w_OrgID w0 = OrgID tc /\ w_ProjectID w0 = ProjectID tc
    /\ f w0 w /\ (Books db -> db' = set_wallets (<[id := w]> (db_wallets db)) db /\ Books db').

Lemma commits_wallet_save {A} cx id tc w0 w op cascade (a : A) (f : Wallet -> Wallet -> Prop) : quiet ->
  From_ cx = inr tc -> wallet_mutates w0 w -> f w0 w ->
  commits (fun r db db' => db_wallets db !! id = Some w0 /\ w_OrgID w0 = OrgID tc /\ w_ProjectID w0 = ProjectID tc ->
             r = a /\ wallet_changed cx id f w db db')
    (wallet_save cx w op cascade ;;; st_ret a).
Proof.
  intros Hq F (I & O & P & C & T & K) Hf. apply commits_map. unfold wallet_save. apply commits_commit_kick; [exact Hq | exact uow_tx|].
  eapply (runs_bind _ _ _ (fun _ _ db db' => db' = db));
    [exact (runs_saveRow (WithTx cx) tc w op (calm_WithTx cx) F) | intros u _ v r; simpl; intros [= <-]; auto |].
  intros u r db db1 db2 [n U] -> (Hw & E1 & E2). split; [reflexivity|]. exists tc, w0.
  repeat (split; [assumption|]). intros B. pose proof (bk_wallet_key db B id w0 Hw) as Key.
  assert (Step : ledger_step db db1).
  { eapply wallet_upsert_step; [apply K, (bk_wallet_ok db B id w0 Hw) | | exact U].
    intros _ old. rewrite I, Key, Hw. intros [= <-]. exact C. }
  unfold wallet_upsert in U. destruct (wallet_check w); [discriminate|]. rewrite I, Key, Hw in U.
  destruct (_ && _)%bool; [|discriminate]. destruct (wallet_name_conflict _ _); [discriminate|].
  assert (Eu : updated_wallet w0 w = w) by (unfold updated_wallet; destruct w; cbn in *; congruence).
  rewrite Eu in U. injection U as <- _. split; [reflexivity | apply Step, B].
Qed.

Lemma commits_wallet_update cx id op cascade (mut : Wallet -> Z -> WalletError + Wallet) (f : Wallet -> Wallet -> Prop) :
  quiet -> (forall w now w', mut w now = inr w' -> wallet_mutates w w' /\ f w w') ->
  commits (wallet_changed cx id f)
    (let* w := wallet_ByID cx id in
     let* now := time_Now in
     match mut w now with
     | inl e => st_err (EWallet e)
     | inr w' => wallet_save cx w' op (cascade w w') ;;; st_ret w'
     end).
Proof.
  intros Hq Hm. destruct (From_ cx) as [e|tc] eqn:F.
  { split; [intros w a | intros w _]; unfold wallet_ByID, from_tenant; rewrite F; [discriminate | reflexivity]. }
  eapply commits_read_bind; [apply (reads_wallet_ByID cx tc id (calm_quiet cx Hq) F)|]. intros w0 _.
  eapply commits_read_bind; [apply reads_time_Now|]. intros now _.
  destruct (mut w0 now) as [e|w] eqn:E; [apply commits_err|]. destruct (Hm _ _ _ E) as [M Fw].
  eapply commits_conseq; [apply (commits_wallet_save cx id tc w0 w op (cascade w0 w) w f Hq F M Fw)|].
  intros r db db' HP _ Hw. destruct (HP Hw) as [-> HC]. exact HC.
Qed.
End Wallets.
