(* ===== verification/CategoryTheory.v ===== *)
(** * What the categories service does to the books *)
From Stdlib Require Import ZArith Lia String List.
From stdpp Require Import base gmap list strings.
From S2P Require Import Prelude GoStrings Errors Civil Money Tenant Ledger Period Wallet Category Transaction World.
From S2P Require Import Commit PeriodStore WalletService CategoryService TxStore TxService Books TxTheory BooksOps.
Local Open Scope string_scope.

Section Categories.
Context `{Env, Unicode, Mirror, !MirrorLaws, Uow, Namer}.
Hypothesis uow_tx : uow = run_in_tx.

Lemma reads_category_ByID cx tc id : calm cx -> From_ cx = inr tc ->
  reads (fun c db => db_categories db !! id = Some c /\ c_OrgID c = OrgID tc /\ c_ProjectID c = ProjectID tc)
    (category_ByID cx id).
Proof.
  intros Hc F. unfold category_ByID.
  eapply reads_seq; [apply (reads_of _ _ _ (reads_from_tenant cx))|]. intros tc' [db0 F'].
  rewrite F in F'. injection F' as <-.
  eapply (reads_seq _ _ (fun r db => match r with inr c => db_categories db !! id = Some c | _ => True end)).
  { eapply reads_e_conseq; [apply reads_try, (reads_read_tx "category" cx _
      (fun c db => db_categories db !! id = Some c) (fun _ _ => True)); [exact Hc | auto|] | | auto].
    - intros tc' _. eapply reads_seq; [apply (reads_of _ _ _ (reads_query _ _))|].
      intros [c|] _; [|apply reads_err; auto]. apply reads_ret. intros db E.
      destruct (db_categories db !! id) as [b|]; [|discriminate]. destruct (N.eqb _ _); congruence.
    - intros [e|c] db; auto. }
  intros [e|c] _; [destruct (IsCategoryNotFound e); apply reads_err; auto|].
  destruct (N.eqb_spec (c_OrgID c) (OrgID tc)); [|apply reads_err; auto].
  destruct (N.eqb_spec (c_ProjectID c) (ProjectID tc)); [|apply reads_err; auto].
  apply reads_ret. auto.
Qed.
Lemma pres_category_ByID (R : DB -> DB -> Prop) `{!PreOrder R} cx id :
  (forall n db, R db (env_other n db)) -> preserves (on_db R) (category_ByID cx id).
Proof. intros rely. unfold category_ByID, category_store_ByID. pres_go rely. Qed.
Lemma pres_category_store_List (R : DB -> DB -> Prop) `{!PreOrder R} cx o p opts :
  (forall n db, R db (env_other n db)) -> preserves (on_db R) (category_store_List cx o p opts).
Proof. intros rely. unfold category_store_List. pres_go rely. Qed.

Lemma runs_category_Save cx tc c : calm cx -> From_ cx = inr tc ->
  runs (fun _ db db' => exists n, category_upsert tc c db = inr (db', S n)) (category_Save cx c).
Proof.
  intros Hc F. unfold category_Save. apply runs_write_tx; [exact Hc|].
  intros tc' F'. rewrite F in F'. injection F' as <-. apply runs_exec_save.
Qed.

(** The body every category write runs in its unit of work: the save, its
    errors sorted, then the refs. *)
Definition save_body {A} (c : Category) (known : Error -> bool) (op : string) (out : A * list MirrorRef) (cx : Ctx)
    : M (A * list MirrorRef) :=
  let* r := st_try (category_Save cx c) in
  match r with inl e => if known e then st_err e else unexpected op e | inr _ => st_ret out end.

Lemma runs_save_body {A} cx tc c known op (out : A * list MirrorRef) : calm cx -> From_ cx = inr tc ->
  runs (fun r db db' => r = out /\ exists n, category_upsert tc c db = inr (db', S n)) (save_body c known op out cx).
Proof.
  intros Hc F v a. pose proof (runs_category_Save cx tc c Hc F v) as HS. unfold save_body, st_bind, st_try.
  destruct (category_Save cx c v) as [[[]|e|p] v1]; simpl in *.
  - intros [= <-]. split; [reflexivity | exact (HS tt eq_refl)].
  - destruct (known e); discriminate.
  - discriminate.
Qed.

Lemma category_Delete_step (R : DB -> DB -> Prop) `{!PreOrder R} cx id :
  (forall db db', ledger_step db db' -> R db db') -> (forall n db, R db (env_other n db)) ->
  preserves (on_db R) (category_Delete cx id).
Proof.
  intros sub rely. unfold category_Delete.
  apply preserves_bind; [exact _ | apply (pres_category_ByID R _ _ rely)|]. intros c0.
  apply pres_commit_kick; [exact _ | exact rely | exact uow_tx|].
  assert (HD : runs (fun _ => R) (category_store_Delete (WithTx cx) id)).
  { unfold category_store_Delete. apply runs_write_tx; [apply calm_WithTx|]. intros tc _.
    eapply runs_conseq; [apply runs_exec_save|]. intros u db db' [n D]. eapply sub, category_delete_step, D. }
  intros v a. specialize (HD v). unfold st_bind, st_try.
  destruct (category_store_Delete (WithTx cx) id v) as [[[]|e|p] v1]; simpl in *.
  - intros _. exact (HD tt eq_refl).
  - destruct (_ || _)%bool; discriminate.
  - discriminate.
Qed.

(** *** Without interference *)
Definition category_changed (cx : Ctx) (id : uuid) (f : Category -> Category -> Prop) (c : Category) (db db' : DB) : Prop :=
  exists tc c0, From_ cx = inr tc /\ db_categories db !! id = Some c0 /\ c_OrgID c0 = OrgID tc
    /\ c_ProjectID c0 = ProjectID tc /\ f c0 c
    /\ (Books db -> db' = set_categories (<[id := c]> (db_categories db)) db /\ Books db').

Lemma SortOrder32_ok v : (0 <= v <= MaxSortOrder)%Z -> SortOrder32 v = v.
Proof. unfold SortOrder32, clampSortOrder. lia. Qed.

Lemma commits_category_save cx id tc c0 c op cascade (f : Category -> Category -> Prop) : quiet ->
  From_ cx = inr tc -> category_mutates c0 c -> f c0 c ->
  commits (fun r db db' => db_categories db !! id = Some c0 /\ c_OrgID c0 = OrgID tc /\ c_ProjectID c0 = ProjectID tc ->
             category_changed cx id f r db db')
    (category_save cx c op cascade).
Proof.
  intros Hq F (I & O & P & C & T & K) Hf. unfold category_save. apply commits_commit_kick; [exact Hq | exact uow_tx|].
  eapply runs_conseq; [apply (runs_save_body (WithTx cx) tc c _ _ (c, [mkMirrorRef MirrorCategory (c_ID c) false cascade])
    (calm_WithTx cx) F)|].
  intros r db db1 [-> [n U]] (Hc & E1 & E2). exists tc, c0. repeat (split; [assumption|]). intros B.
  pose proof (bk_category_key db B id c0 Hc) as Key. pose proof (K (bk_category_ok db B id c0 Hc)) as Ok.
  assert (Step : ledger_step db db1).
  { eapply category_upsert_step; [exact Ok | | exact U]. intros _ old. rewrite I, Key, Hc. intros [= <-]. exact C. }
  unfold category_upsert in U. destruct (category_check c); [discriminate|]. rewrite I, Key, Hc in U.
  destruct (_ && _)%bool; [|discriminate]. destruct (category_name_conflict _ _); [discriminate|].
  assert (Eu : updated_category c0 c = c).
  { unfold updated_category. rewrite SortOrder32_ok by apply Ok. destruct c; cbn in *; congruence. }
  rewrite Eu in U. injection U as <- _. split; [reflexivity | apply Step, B].
Qed.

Lemma commits_category_update cx id op cascade (mut : Category -> Z -> CategoryError + Category)
    (f : Category -> Category -> Prop) :
  quiet -> (forall c now c', mut c now = inr c' -> category_mutates c c' /\ f c c') ->
  commits (category_changed cx id f)
    (let* c := category_ByID cx id in
     let* now := time_Now in
     match mut c now with
     | inl e => st_err (ECategory e)
     | inr c' => category_save cx c' op (cascade c c')
     end).
Proof.
  intros Hq Hm. destruct (From_ cx) as [e|tc] eqn:F.
  { split; [intros w a | intros w _]; unfold category_ByID, from_tenant; rewrite F; [discriminate | reflexivity]. }
  eapply commits_read_bind; [apply (reads_category_ByID cx tc id (calm_quiet cx Hq) F)|]. intros c0 _.
  eapply commits_read_bind; [apply reads_time_Now|]. intros now _.
  destruct (mut c0 now) as [e|c] eqn:E; [apply commits_err|]. destruct (Hm _ _ _ E) as [M Fc].
  eapply commits_conseq; [apply (commits_category_save cx id tc c0 c op (cascade c0 c) f Hq F M Fc)|].
  intros r db db' HP _ Hc. exact (HP Hc).
Qed.

(** A category under an id no row has is added, and nothing else changes. *)
Definition category_added (tc : Tenant) (c : Category) (db db' : DB) : Prop :=
  db_categories db !! c_ID c = None ->
  db' = set_categories (<[c_ID c := category_row c]> (db_categories db)) db /\ category_name_conflict db c = false.

Lemma runs_add_category {A} cx tc c known op (out : A * list MirrorRef) : calm cx -> From_ cx = inr tc ->
  category_ok c ->
  runs (fun r db db' => r = out /\ category_added tc c db db' /\ (db_categories db !! c_ID c = None -> ledger_step db db'))
    (save_body c known op out cx).
Proof.
  intros Hc F Ok. eapply runs_conseq; [apply (runs_save_body cx tc c known op out Hc F)|].
  intros r db db' [-> [n U]]. split; [reflexivity|]. split.
  - intros Hn. unfold category_upsert in U. destruct (category_check c); [discriminate|]. rewrite Hn in U.
    destruct (category_name_conflict db c); [discriminate|]. destruct (_ && _)%bool; [|discriminate].
    injection U as <- _. auto.
  - intros Hn. eapply category_upsert_step; [exact Ok | | exact U]. intros _ old. congruence.
Qed.

(** [next_order] is past every order of the list. *)
Lemma next_order_from rows z : let r := fold_left (fun next c => if (next <=? c_SortOrder c)%Z then (c_SortOrder c + 1)%Z else next) rows z in
  (z <= r)%Z /\ forall c, In c rows -> (c_SortOrder c < r)%Z.
Proof.
  revert z. induction rows as [|c rows IH]; intros z; cbn; [split; [lia | intros ? []]|].
  set (z' := if (z <=? c_SortOrder c)%Z then (c_SortOrder c + 1)%Z else z).
  assert (Hz : (z <= z')%Z /\ (c_SortOrder c < z')%Z) by (unfold z'; destruct (Z.leb_spec z (c_SortOrder c)); lia).
  destruct (IH z') as [L1 L2]. split; [lia|]. intros d [<-|Hd]; [lia | auto].
Qed.

Definition past_orders (tc : Tenant) (kind : string) (order : Z) (db : DB) : Prop :=
  forall q, In q (rows (db_categories db)) -> c_OrgID q = OrgID tc -> c_ProjectID q = ProjectID tc ->
    c_Kind q = kind -> (c_SortOrder q < order)%Z.

Lemma reads_nextSortOrder cx tc kind : calm cx -> From_ cx = inr tc ->
  reads (fun order db => past_orders tc kind order db) (nextSortOrder cx tc kind).
Proof.
  intros Hc F. unfold nextSortOrder.
  eapply (reads_seq _ _ (fun r db => match r with
      | inr l => forall q, In q (rows (db_categories db)) -> c_OrgID q = OrgID tc -> c_ProjectID q = ProjectID tc ->
                   c_Kind q = kind -> In q l
      | inl _ => True end)).
  { eapply reads_e_conseq; [apply reads_try, (reads_read_tx "category" cx _
      (fun l db => forall q, In q (rows (db_categories db)) -> c_OrgID q = OrgID tc -> c_ProjectID q = ProjectID tc ->
         c_Kind q = kind -> In q l) (fun _ _ => True)); [exact Hc | auto|] | | auto].
    - intros tc' F'. rewrite F in F'. injection F' as <-.
      eapply reads_e_conseq; [apply reads_query | | auto]. intros l db -> q Hq O P K.
      apply In_sort_by, filter_In. split; [exact Hq|]. unfold category_scope. rewrite O, P, K, !N.eqb_refl.
      cbn [cl_Kind cl_IncludeArchived]. rewrite String.eqb_refl, orb_true_r. reflexivity.
    - intros [e|l] db; auto. }
  intros [e|l] _; [apply reads_unexpected; auto|]. apply reads_ret. intros db Hl q Hq O P K.
  apply next_order_from, Hl; assumption.
Qed.

Lemma commits_category_Create cx name kind icon color : quiet -> fresh_ids ->
  commits (fun c db db' => exists tc order, From_ cx = inr tc /\ c_OrgID c = OrgID tc /\ c_ProjectID c = ProjectID tc
      /\ c_Name c = TrimSpace name /\ c_Kind c = kind /\ c_SortOrder c = clampSortOrder order
      /\ past_orders tc kind order db /\ category_ok c /\ db_categories db !! c_ID c = None
      /\ db' = set_categories (<[c_ID c := c]> (db_categories db)) db /\ ledger_step db db')
    (category_Create cx name kind icon color).
Proof.
  intros Hq Hf. assert (Hc : calm cx) by (right; exact Hq). unfold category_Create.
  eapply commits_read_bind; [apply (reads_of _ _ _ (reads_from_tenant cx))|]. intros tc [db0 F].
  destruct (CategoryKind_ok kind); [cbn [negb]|apply commits_err].
  eapply commits_read_bind; [apply (reads_nextSortOrder cx tc kind Hc F)|]. intros order _.
  eapply commits_read_bind; [apply (reads_NewV7_fresh _ Hf)|]. intros id _.
  eapply commits_read_bind; [apply reads_time_Now|]. intros now _.
  destruct (Category_New _ _ _ _ _ _ _ _ _) as [e|c] eqn:EN; [apply commits_err|].
  apply Category_New_ok in EN as (Ok & I & O & P & K & A & N & S).
  eapply commits_conseq; [apply commits_commit_kick; [exact Hq | exact uow_tx|]|].
  - eapply runs_conseq; [apply (runs_add_category (WithTx cx) tc c IsCategoryAlreadyExists "category.Create: save"
      (c, [mkMirrorRef MirrorCategory (c_ID c) false false]) (calm_WithTx cx) F Ok)|].
    intros r db db' HR. instantiate (1 := fun r db db' => r = c /\ category_added tc c db db' /\
      (db_categories db !! c_ID c = None -> ledger_step db db')). destruct HR as (-> & HA & HL). auto.
  - intros r db db' (-> & HA & HL) _ (_ & _ & _ & _ & Hfr & _) Hord _. rewrite <- I in Hfr.
    destruct (HA Hfr) as [-> _]. exists tc, order. repeat (split; [assumption|]).
    split; [|apply HL, Hfr]. do 2 f_equal. unfold category_row. rewrite SortOrder32_ok by apply Ok.
    destruct c; reflexivity.
Qed.

(** *** Seeding *)

(** Each default is a commit of its own, so the books stay in order wherever the loop stops. *)
Lemma seed_loop_step cx tc next ds : quiet -> fresh_ids -> From_ cx = inr tc ->
  forall seen taken added refs,
    rg ledger_step (fun _ => True) (seed_loop cx tc next ds seen taken added refs) (fun _ _ => True).
Proof.
  intros Hq Hf F. induction ds as [|d ds IH]; intros seen taken added refs; cbn [seed_loop].
  - apply rg_ret; [exact _ | auto].
  - destruct (is_taken _ _ _); [apply IH|].
    eapply rg_read_bind; [exact _ | apply (reads_NewV7_fresh _ Hf)|]. intros id.
    eapply rg_read_bind; [exact _ | apply reads_time_Now|]. intros now.
    destruct (Category_New _ _ _ _ _ _ _ _ _) as [e|c] eqn:EN; [apply rg_ret; [exact _ | auto]|].
    apply Category_New_ok in EN as (Ok & I & _).
    eapply (rg_bind _ _ _ _ (fun _ _ => True)).
    + assert (HC : rg ledger_step (fun db => db_categories db !! c_ID c = None)
          (commit cx "category.SeedDefaults" (save_body c IsCategoryAlreadyExists "category.SeedDefaults: save"
             (tt, [mkMirrorRef MirrorCategory (c_ID c) false false]))) (fun _ _ => True)).
      { eapply rg_of_commits; [exact _ | apply commits_commit; [exact Hq | exact uow_tx|] |].
        - eapply runs_conseq; [apply (runs_add_category (WithTx cx) tc c _ _ _ (calm_WithTx cx) F Ok)|].
          intros r db db' HR. instantiate (1 := fun _ db db' => db_categories db !! c_ID c = None -> ledger_step db db').
          destruct HR as (_ & _ & HL). exact HL.
        - simpl. auto. }
      intros w Hw. destruct Hw as [[_ (_ & _ & _ & _ & Hfr & _)] _]. rewrite <- I in Hfr.
      destruct (HC w Hfr) as [G _]. unfold st_try. unfold save_body in *.
      destruct (commit cx _ _ w) as [[a|e|p] w1]; (split; [exact G | auto]).
    + intros [e|ar]; [destruct (IsCategoryAlreadyExists e); [apply IH | apply rg_ret; [exact _ | auto]] | apply IH].
Qed.
Lemma SeedDefaults_step cx : quiet -> fresh_ids -> preserves (on_db ledger_step) (SeedDefaults cx).
Proof.
  intros Hq Hf. apply (preserves_rg _ _ (fun _ _ => True)). unfold SeedDefaults.
  eapply rg_read_bind; [exact _ | apply reads_try, reads_from_tenant|]. intros [e|tc]; [apply rg_ret; [exact _ | auto]|].
  intros w [_ F]. simpl in F.
  match goal with |- ?G1 /\ _ => refine ((fun HG : rg ledger_step (fun _ => True) _ (fun _ _ => True) => HG w I) _) end.
  eapply (rg_bind _ _ _ _ (fun _ _ => True)).
  - apply rg_unit, preserves_try, pres_category_store_List; [exact _ | intros n db; rewrite Hq; reflexivity].
  - intros [e|l]; [apply rg_ret; [exact _ | auto]|].
    eapply (rg_bind _ _ _ _ (fun _ _ => True)); [apply (seed_loop_step cx tc _ _ Hq Hf F)|].
    intros [[added err] refs]. apply rg_unit. apply preserves_bind; [exact _ | apply pres_kick; [exact _ | intros n db; rewrite Hq; reflexivity] | intros; apply preserves_ret, _].
Qed.
End Categories.
