(* ===== verification/LedgerTheory.v ===== *)
(** * The ledger's operations against the books

    Every operation of the transactions service and of the wallet open workflow,
    proved against the interfaces of its ports: under interference it moves the
    database only by [ledger_step]s, and its exact effect when it commits. *)
From Stdlib Require Import ZArith Lia String List.
From stdpp Require Import base gmap list strings.
From S2P Require Import Prelude GoStrings Errors Civil Money Tenant Ledger Period Wallet Category Transaction World.
From S2P Require Import Commit PeriodStore WalletService CategoryService TxStore TxService Books TxTheory BooksOps.
Local Open Scope string_scope.

(** ** The ports of the open workflow *)
Definition opening_input (walletID : uuid) (a : Amount) (at_ : Z) : RecordInput :=
  mkRecordInput walletID None TxOpening a None None "" at_.

Class OpeningRecorderLaws `{Env, OpeningRecorder} := {
  RecordOpening_records cx tc walletID a at_ by_ : cx_tx cx = true -> From_ cx = inr tc ->
    runs (fun id db db' => exists t, t_ID t = id /\ recorded tc (opening_input walletID a at_) t db db')
      (RecordOpening_port cx walletID a at_ by_)
}.
Class OpeningDaterLaws `{Env, OpeningDater} := {
  OpeningDate_reads cx at_ : cx_tx cx = true -> reads (fun _ _ => True) (OpeningDate_port cx at_)
}.

(** ** The transactions service *)
Section Transactions.
Context `{Env, Unicode, Mirror, !MirrorLaws, Uow, WalletReader, CategoryReader, PeriodResolver,
  !WalletReaderLaws, !CategoryReaderLaws, !PeriodResolverLaws}.
Hypothesis uow_tx : uow = run_in_tx.
Hypothesis fresh : fresh_ids.

Lemma runs_record_body cx tc i by_ : From_ cx = inr tc ->
  runs (fun ar db db' => recorded tc i (fst ar) db db')
    (let* t := record (WithTx cx) tc i by_ in st_ret (t, touched t false)).
Proof.
  intros F. eapply (runs_bind _ _ _ (fun t ar db db' => fst ar = t /\ db' = db));
    [apply (runs_record (WithTx cx) tc i by_ fresh eq_refl F) | intros t _ w r; simpl; intros [= <-]; auto |].
  intros t r db db1 db2 Hr [-> ->]. exact Hr.
Qed.

(** Under any rules [R] that allow a [ledger_step] and that the other sessions keep. *)
Section Interference.
Context (R : DB -> DB -> Prop) `{!PreOrder R}.
Hypothesis sub : forall db db', ledger_step db db' -> R db db'.
Hypothesis rely : forall n db, R db (env_other n db).

Lemma recordOne_step cx i : preserves (on_db R) (recordOne cx i).
Proof.
  unfold recordOne. apply pres_with_tenant; [exact _|]. intros tc F.
  apply pres_commit; [exact _ | exact rely | exact uow_tx|].
  eapply runs_conseq; [apply (runs_record_body cx tc i (UserID tc) F)|].
  intros ar db db' Hr. eapply sub, recorded_step, Hr.
Qed.
Lemma Record_step cx i : preserves (on_db R) (Record_ cx i).
Proof.
  unfold Record_. apply preserves_bind; [exact _ | apply recordOne_step|]. intros [t refs].
  apply preserves_bind; [exact _ | apply pres_kick; [exact _ | exact rely] | intros; apply preserves_ret, _].
Qed.
Lemma batch_step cx ins : forall i out refs, preserves (on_db R) (batch_loop cx ins i out refs).
Proof.
  induction ins as [|row ins IH]; intros i out refs; cbn [batch_loop]; [apply preserves_ret, _|].
  apply preserves_bind; [exact _ | apply preserves_try, recordOne_step|]. intros [e|[t rs]]; apply IH.
Qed.
Lemma RecordBatch_step cx ins : preserves (on_db R) (RecordBatch cx ins).
Proof.
  unfold RecordBatch. apply preserves_bind; [exact _ | apply batch_step|]. intros [out refs].
  apply preserves_bind; [exact _ | apply pres_kick; [exact _ | exact rely] | intros; apply preserves_ret, _].
Qed.
Lemma Revise_step cx id p : preserves (on_db R) (Revise cx id p).
Proof.
  unfold Revise. apply pres_with_tenant; [exact _|]. intros tc F.
  apply pres_commit_kick; [exact _ | exact rely | exact uow_tx|].
  eapply runs_conseq; [apply (runs_revise (WithTx cx) tc id p eq_refl F)|].
  intros rr db db' Hr. eapply sub, revised_step, Hr.
Qed.
Lemma tx_Delete_step cx id : preserves (on_db R) (tx_Delete cx id).
Proof.
  unfold tx_Delete. apply pres_with_tenant; [exact _|]. intros tc F.
  apply pres_commit_kick; [exact _ | exact rely | exact uow_tx|].
  eapply runs_conseq; [apply (runs_tx_delete_body (WithTx cx) tc id eq_refl F)|].
  intros rr db db' Hr. eapply sub, deleted_step, Hr.
Qed.
Lemma pres_tx_wallet cx tc id : preserves (on_db R) (tx_wallet cx tc id).
Proof.
  unfold tx_wallet. apply preserves_bind; [exact _ | apply preserves_try, WalletReader_read_only; [exact _ | exact rely]|].
  intros [e|w]; [|apply preserves_ret, _]. unfold port_error. destruct (is_app e); [apply preserves_err, _ | apply pres_unexpected, _].
Qed.
End Interference.

(** *** Adjust *)
Definition adjust_input (w : WalletInfo) (walletID : uuid) (delta at_ : Z) : RecordInput :=
  mkRecordInput walletID None (if (delta <? 0)%Z then TxAdjustmentOut else TxAdjustmentIn)
    (New (if (delta <? 0)%Z then wrap64 (- delta) else delta) (wi_Currency w)) None None "" at_.

(** The balance the store reads, when it reads one. *)
Definition stored_balance (db : DB) (tc : Tenant) (walletID : uuid) : Error + Amount :=
  let ds := wallet_deltas walletID
    (List.filter (tx_scope (OrgID tc) (ProjectID tc) (OrgID tc)) (rows (db_txs db))) in
  match min_currency ds with
  | None => inr (New 0 "")
  | Some cur => match group_sum ds (walletID, cur) with Some s => inr (New s cur) | None => inl integer_overflow end
  end.

Lemma reads_store_Balance cx tc walletID : calm cx -> From_ cx = inr tc ->
  reads (fun a db => stored_balance db tc walletID = inr a) (tx_store_Balance cx (OrgID tc) (ProjectID tc) walletID).
Proof.
  intros Hc F. unfold tx_store_Balance. apply reads_read_tx; [exact Hc | auto|].
  intros tc' F'. rewrite F in F'. injection F' as <-.
  eapply reads_seq; [apply (reads_of _ _ _ (reads_query _ _))|]. intros [e|a] _; [apply reads_err; auto|].
  apply reads_ret. intros db E. symmetry. exact E.
Qed.

Definition adjusted (tc : Tenant) (w : WalletInfo) (walletID : uuid) (target : Amount) (at_ : Z)
    (out : option Transaction) (db db' : DB) : Prop :=
  exists current, stored_balance db tc walletID = inr current
    /\ (AmountCurrency current = "" \/ AmountCurrency current = wi_Currency w)
    /\ let delta := wrap64 (Minor target - Minor current) in
       if (delta =? 0)%Z then out = None /\ db' = db
       else exists t, out = Some t /\ recorded tc (adjust_input w walletID delta at_) t db db'.

Lemma runs_adjust_body cx tc w walletID target at_ by_ : cx_tx cx = true -> From_ cx = inr tc ->
  runs (fun r db db' => adjusted tc w walletID target at_ (fst r) db db')
    (adjust_body cx tc w walletID target at_ by_).
Proof.
  intros Hx F. assert (Hc : calm cx) by (left; exact Hx). unfold adjust_body.
  eapply (runs_read_bind _ _ (fun _ _ => True)).
  { eapply reads_conseq; [apply reads_try|auto]. unfold LockWallet. rewrite Hx. cbn [negb].
    eapply reads_bind; [apply (reads_of _ _ _ (reads_from_tenant cx))|]. intros tc' _.
    apply reads_ret. intros db _. instantiate (1 := fun _ _ => True). exact I. }
  intros [e|u] _; [intros v a; discriminate|].
  eapply runs_read_bind; [apply reads_try, (reads_store_Balance cx tc walletID Hc F)|].
  intros [e|current] _; [intros v a; discriminate|].
  destruct (negb (String.eqb (AmountCurrency current) "") && negb (String.eqb (AmountCurrency current) (wi_Currency w)))%bool
    eqn:Ec; [intros v a; discriminate|].
  assert (Cur : AmountCurrency current = "" \/ AmountCurrency current = wi_Currency w).
  { destruct (String.eqb_spec (AmountCurrency current) ""); [auto|].
    destruct (String.eqb_spec (AmountCurrency current) (wi_Currency w)); [auto | discriminate]. }
  cbv zeta. unfold adjusted. destruct (wrap64 (Minor target - Minor current) =? 0)%Z eqn:Ed.
  - intros v a. simpl. intros [= <-] Hb _. exists current. rewrite Ed. auto.
  - set (delta := wrap64 (Minor target - Minor current)) in *.
    eapply (runs_bind _ _ _ (fun t r db db' => fst r = Some t /\ db' = db)).
    + assert (Ei : mkRecordInput walletID None (fst (if (delta <? 0)%Z then (TxAdjustmentOut, wrap64 (- delta)) else (TxAdjustmentIn, delta)))
          (New (snd (if (delta <? 0)%Z then (TxAdjustmentOut, wrap64 (- delta)) else (TxAdjustmentIn, delta))) (wi_Currency w))
          None None "" at_ = adjust_input w walletID delta at_)
        by (unfold adjust_input; destruct (delta <? 0)%Z; reflexivity).
      rewrite Ei. apply (runs_record cx tc (adjust_input w walletID delta at_) by_ fresh Hx F).
    + intros t _. eapply runs_read_bind; [apply reads_mark, Hx|]. intros v _ v' r. simpl. intros [= <-]. auto.
    + intros t r db db1 db2 Hr [-> ->] Hb _. exists current. split; [exact Hb|]. split; [exact Cur|].
      cbv zeta. fold delta. rewrite Ed. eauto.
Qed.
Lemma adjusted_step tc w walletID target at_ out db db' :
  adjusted tc w walletID target at_ out db db' -> ledger_step db db'.
Proof.
  intros (c & _ & _ & H'). cbv zeta in H'. destruct (_ =? 0)%Z; [destruct H' as [_ ->]; reflexivity|].
  destruct H' as (t & _ & Hr). eapply recorded_step, Hr.
Qed.

Lemma Adjust_step (R : DB -> DB -> Prop) `{!PreOrder R} cx walletID target at_ by_ :
  (forall db db', ledger_step db db' -> R db db') -> (forall n db, R db (env_other n db)) ->
  preserves (on_db R) (Adjust cx walletID target at_ by_).
Proof.
  intros sub rely. unfold Adjust. apply pres_with_tenant; [exact _|]. intros tc F.
  apply preserves_bind; [exact _ | apply pres_tx_wallet; [exact _ | exact rely]|]. intros w.
  destruct (wi_Archived w); [apply preserves_err, _|]. destruct (negb _); [apply preserves_err, _|].
  apply preserves_bind; [exact _ | |].
  - unfold run_uow. rewrite uow_tx. apply pres_RunInTx_runs; [exact _ | exact rely|].
    eapply runs_conseq; [apply (runs_adjust_body (WithTx cx) tc w walletID target at_ by_ eq_refl F)|].
    intros r db db' Ha. eapply sub, adjusted_step, Ha.
  - intros [out refs]. apply preserves_bind; [exact _ | apply pres_kick; [exact _ | exact rely] | intros; apply preserves_ret, _].
Qed.
End Transactions.

(** ** The open workflow *)
Section Open.
Context `{Env, Unicode, Mirror, !MirrorLaws, Uow, OpeningRecorder, OpeningDater, !OpeningRecorderLaws, !OpeningDaterLaws}.
Hypothesis uow_tx : uow = run_in_tx.
Hypothesis fresh : fresh_ids.

(** A new wallet and, when an opening was asked for, its opening transaction of exactly that amount. *)
Definition opened (tc : Tenant) (p : WalletParams) (opening : option Amount) (w : Wallet) (dated : OpeningDate)
    (db db' : DB) : Prop :=
  exists db1, wallet_created tc p w db db1 /\
    if has_opening opening
    then exists a t, opening = Some a /\ recorded tc (opening_input (w_ID w) a (od_At dated)) t db1 db'
    else db' = db1.

Lemma opened_step tc p opening w dated db db' : opened tc p opening w dated db db' -> ledger_step db db'.
Proof.
  intros (db1 & Hw & Hr). etransitivity; [eapply wallet_created_step, Hw|].
  destruct (has_opening opening); [|subst; reflexivity]. destruct Hr as (a & t & _ & Hr). eapply recorded_step, Hr.
Qed.

Lemma reads_open_date cx opening at_ : cx_tx cx = true -> reads (fun _ _ => True) (open_date cx opening at_).
Proof.
  intros Hx. unfold open_date. destruct (has_opening opening); [apply OpeningDate_reads, Hx | apply reads_ret; auto].
Qed.

Lemma runs_wallet_open cx tc p opening at_ by_ : cx_tx cx = true -> From_ cx = inr tc ->
  runs (fun r db db' => opened tc p opening (fst (fst r)) (snd (fst r)) db db') (wallet_open cx p opening at_ by_).
Proof.
  intros Hx F. unfold wallet_open.
  eapply (runs_bind _ _ _ (fun w r db1 db' => fst (fst r) = w /\ if has_opening opening
      then exists a t, opening = Some a /\ recorded tc (opening_input (w_ID w) a (od_At (snd (fst r)))) t db1 db'
      else db' = db1));
    [apply (runs_wallet_create cx tc p fresh (or_introl Hx) F) | |].
  - intros w _. eapply runs_read_bind; [apply reads_open_date, Hx|]. intros dated _.
    eapply (runs_bind _ _ (fun refs db1 db' => if has_opening opening
      then exists a t, opening = Some a /\ recorded tc (opening_input (w_ID w) a (od_At dated)) t db1 db'
      else db' = db1) (fun _ r db db' => fst r = (w, dated) /\ db' = db)).
    + destruct opening as [a|]; cbn [has_opening]; [destruct (Amount_IsZero a) eqn:Z0; cbn [negb]|].
      * intros v r. simpl. intros [= <-]. reflexivity.
      * eapply (runs_bind _ _ _ (fun id (refs : list MirrorRef) db db' => db' = db));
          [apply (RecordOpening_records cx tc (w_ID w) a (od_At dated) by_ Hx F)
          | intros id _ v r; simpl; intros [= <-]; reflexivity |].
        intros id refs db db1 db2 (t & _ & Hr) ->. eauto.
      * intros v r. simpl. intros [= <-]. reflexivity.
    + intros refs _. eapply runs_read_bind; [eapply reads_conseq; [apply reads_try, Mark_in_tx, Hx|]|].
      { intros r db _. exact I. }
      intros [e|u] _ v r; simpl; [discriminate|]. intros [= <-]. auto.
    + intros refs [[w' d] refs'] db db1 db2 Hr [[= -> ->] ->] _. simpl. auto.
  - intros w [[w' d] refs] db db1 db2 Hw [Ew Hr]. simpl in *. subst w'. exists db1. auto.
Qed.

Lemma OpenWorkflow_step (R : DB -> DB -> Prop) `{!PreOrder R} cx p opening at_ :
  (forall db db', ledger_step db db' -> R db db') -> (forall n db, R db (env_other n db)) ->
  preserves (on_db R) (OpenWorkflow_Run cx p opening at_).
Proof.
  intros sub rely. unfold OpenWorkflow_Run. apply pres_with_tenant; [exact _|]. intros tc F.
  apply preserves_bind; [exact _ | |].
  - apply preserves_try. unfold run_uow. rewrite uow_tx. apply pres_RunInTx_runs; [exact _ | exact rely|].
    apply runs_maperr. eapply runs_conseq; [apply (runs_wallet_open (WithTx cx) tc p opening at_ (UserID tc) eq_refl F)|].
    intros r db db' Ho. eapply sub, opened_step, Ho.
  - intros [[e []]|[[w d] refs]]; [apply preserves_err, _ | apply pres_unexpected, _ |].
    apply preserves_bind; [exact _ | apply pres_kick; [exact _ | exact rely] | intros; apply preserves_ret, _].
Qed.

Lemma commits_OpenWorkflow cx p opening at_ : quiet ->
  commits (fun r db db' => exists tc, From_ cx = inr tc /\ opened tc p opening (fst r) (snd r) db db')
    (OpenWorkflow_Run cx p opening at_).
Proof.
  intros Hq. unfold OpenWorkflow_Run.
  eapply commits_read_bind; [apply (reads_of _ _ _ (reads_from_tenant cx))|]. intros tc [db0 F].
  set (body := st_try _).
  assert (HB : commits (fun (r : Wallet * OpeningDate * list MirrorRef) db db' =>
        opened tc p opening (fst (fst r)) (snd (fst r)) db db')
      (run_uow (fun e => (e, false)) cx (fun cx => st_maperr (fun e => (e, true)) (wallet_open cx p opening at_ (UserID tc))))).
  { unfold run_uow. rewrite uow_tx. apply commits_RunInTx; [exact Hq|]. intros _.
    apply runs_maperr, (runs_wallet_open (WithTx cx) tc p opening at_ (UserID tc) eq_refl F). }
  destruct HB as [HA HB]. unfold st_bind. subst body. unfold st_try. split.
  - intros w [w' d]. specialize (HA w). destruct (run_uow _ _ _ w) as [[[[w0 d0] refs]|[e []]|q] w1]; simpl in *; try discriminate.
    intros [= <- <-]. rewrite Kick_db by exact Hq. intros _. exists tc. split; [exact F | apply (HA _ eq_refl)].
  - intros w Hf. specialize (HB w). destruct (run_uow _ _ _ w) as [[[[w0 d0] refs]|[e []]|q] w1]; simpl in *;
      [destruct (Hf _ eq_refl) | apply HB; discriminate ..].
Qed.
End Open.
