(* ===== verification/Adapters.v ===== *)
(** * The adapters of the composition root ([internal/boot/adapters.go])

    The wallets, categories and periods services seen through the ports of the
    transactions service, the periods and transactions services through those
    of the wallet open workflow, and the proofs that they keep the ports' laws. *)
From Stdlib Require Import ZArith Lia String List.
From stdpp Require Import base gmap list strings.
From S2P Require Import Prelude GoStrings Errors Civil Money Tenant Ledger Period Wallet Category Transaction World.
From S2P Require Import LedgerService PeriodStore PeriodService PeriodTheory Commit WalletService CategoryService TxStore TxService.
From S2P Require Import Books TxTheory BooksOps CategoryTheory LedgerTheory.
Local Open Scope string_scope.

(** ** The adapters *)
Section Adapters.
Context `{Env, Unicode, Mirror, Uow, SettingsReader}.

(** [walletReaderFor]. *)
#[export] Instance walletReaderFor : WalletReader := {|
  WalletReader_Wallet := fun cx orgID projectID id =>
    let* w := wallet_ByID cx id in
    if negb (N.eqb (w_OrgID w) orgID) || negb (N.eqb (w_ProjectID w) projectID)
    then st_err (EWallet (WalletNotFoundError (uuid_String id)))
    else st_ret (mkWalletInfo (w_ID w) (w_Currency w) (Wallet_IsArchived w))
|}.

(** [categoryReaderFor]. *)
#[export] Instance categoryReaderFor : CategoryReader := {|
  CategoryReader_Category := fun cx orgID projectID id =>
    let* c := category_ByID cx id in
    if negb (N.eqb (c_OrgID c) orgID) || negb (N.eqb (c_ProjectID c) projectID)
    then st_err (ECategory (CategoryNotFoundError (uuid_String id) ""))
    else st_ret (mkCategoryInfo (c_ID c) (c_Kind c) (Category_IsArchived c))
|}.

(** [periodResolverAdapter.info]. *)
Definition period_info (cx : Ctx) (p : Period) : M PeriodInfo :=
  let* ' (prev, next) := Neighbors cx (pr_ID p) in
  st_ret (mkPeriodInfo (pr_ID p) (IsLocked p) (option_map pr_ID prev) (option_map pr_ID next)).

(** [periodResolverAdapter]. *)
#[export] Instance periodResolverAdapter : PeriodResolver := {|
  PeriodResolver_Containing := fun cx orgID projectID at_ =>
    let* r := st_try (Containing cx at_) in
    match r with
    | inl e => if IsPeriodNotFound e then st_ret None else st_err e
    | inr p =>
      if negb (N.eqb (pr_OrgID p) orgID) || negb (N.eqb (pr_ProjectID p) projectID)
      then st_err (EPeriod (PeriodNotFoundError (uuid_String (pr_ID p))))
      else let* info := period_info cx p in st_ret (Some info)
    end;
  PeriodResolver_ByID := fun cx orgID projectID id =>
    let* p := period_ByID cx id in
    if negb (N.eqb (pr_OrgID p) orgID) || negb (N.eqb (pr_ProjectID p) projectID)
    then st_err (EPeriod (PeriodNotFoundError (uuid_String id)))
    else period_info cx p
|}.

(** [openingDaterFor]. *)
#[export] Instance openingDaterFor : OpeningDater := {| OpeningDate_port := period_OpeningDate |}.

(** The transactions service as the workflow's [OpeningRecorder]. *)
#[export] Instance transactions_opening : OpeningRecorder := {| RecordOpening_port := RecordOpening |}.
End Adapters.

(** ** Their laws *)
Section WalletCategoryLaws.
Context `{Env}.

#[export] Instance walletReaderFor_laws : WalletReaderLaws.
Proof.
  constructor.
  - intros cx o p id Hc. simpl. destruct (From_ cx) as [e|tc] eqn:F.
    + intros w. unfold wallet_ByID, from_tenant. rewrite F. split; [reflexivity | exact I].
    + eapply reads_seq; [apply (reads_wallet_ByID cx tc id Hc F)|]. intros w _.
      destruct (N.eqb_spec (w_OrgID w) o); [|apply reads_err; auto].
      destruct (N.eqb_spec (w_ProjectID w) p); [|apply reads_err; auto].
      apply reads_ret. intros db (Hw & _ & _). exists w. auto.
  - intros cx o p id R HR rely. simpl. apply preserves_bind; [exact _ | apply pres_wallet_ByID; assumption|].
    intros w. destruct (_ || _)%bool; [apply preserves_err, _ | apply preserves_ret, _].
Qed.

#[export] Instance categoryReaderFor_laws : CategoryReaderLaws.
Proof.
  constructor. intros cx o p id Hc. simpl. destruct (From_ cx) as [e|tc] eqn:F.
  - intros w. unfold category_ByID, from_tenant. rewrite F. split; [reflexivity | exact I].
  - eapply reads_seq; [apply (reads_category_ByID cx tc id Hc F)|]. intros c _.
    destruct (N.eqb_spec (c_OrgID c) o); [|apply reads_err; auto].
    destruct (N.eqb_spec (c_ProjectID c) p); [|apply reads_err; auto].
    apply reads_ret. intros db (Hc' & _ & _). exists c. auto.
Qed.
End WalletCategoryLaws.

(** *** Periods: whatever its outcome, [Containing] opens at most a period *)
Section PeriodLaws.
Context `{Env, SettingsReader, !SettingsReaderLaws}.

Definition may_open {A} (m : M A) : Prop := forall w, opens (W_db w) (W_db (snd (m w))).

Lemma opens_refl db : opens db db.
Proof. left. reflexivity. Qed.
Lemma reads_may_open {A} (m : M A) : reads (fun _ _ => True) m -> may_open m.
Proof. intros Hm w. rewrite (proj1 (Hm w)). apply opens_refl. Qed.
Lemma may_open_after_read {A B} (m : M A) (k : A -> M B) :
  reads (fun _ _ => True) m -> (forall a, may_open (k a)) -> may_open (st_bind m k).
Proof.
  intros Hm Hk w. unfold st_bind. destruct (Hm w) as [E1 _].
  destruct (m w) as [[a|e|q] w1]; simpl in *; [rewrite <- E1; apply Hk | rewrite E1; apply opens_refl ..].
Qed.
Lemma may_open_then_read {A B} (m : M A) (k : A -> M B) :
  may_open m -> (forall a, reads (fun _ _ => True) (k a)) -> may_open (st_bind m k).
Proof.
  intros Hm Hk w. unfold st_bind. specialize (Hm w).
  destruct (m w) as [[a|e|q] w1]; simpl in *; [rewrite (proj1 (Hk a w1)); exact Hm | exact Hm ..].
Qed.
Lemma may_open_try {A} (m : M A) : may_open m -> may_open (st_try (E':=Error) m).
Proof. intros Hm w. specialize (Hm w). unfold st_try. destruct (m w) as [[a|e|q] w1]; exact Hm. Qed.

Lemma insert_current_opens p db db' n : pr_EndDate p = None -> IsLocked p = false ->
  period_insert_current p db = inr (db', n) -> opens db db'.
Proof. intros He Hl E. right. exists p, n. auto. Qed.

Lemma CreateCurrent_may_open cx p : cx_tx cx = true -> pr_EndDate p = None -> IsLocked p = false ->
  may_open (period_CreateCurrent cx p).
Proof.
  intros Hx He Hl. unfold period_CreateCurrent, write_tx. rewrite Hx.
  apply may_open_after_read; [apply reads_any_tenant|]. intros tc.
  destruct (negb _); [apply reads_may_open, reads_err; auto|].
  apply may_open_then_read; [|intros; apply reads_ret; auto].
  intros w. unfold st_maperr, exec_stmt, st_bind. pose proof (driver_call_same w) as Hd.
  destruct (driver_call w) as [[[]|e|q] w1]; simpl in *; [|rewrite Hd; apply opens_refl ..].
  destruct (period_insert_current p (W_db w1)) as [[c m]|[db' n]] eqn:E; simpl; [rewrite Hd; apply opens_refl|].
  rewrite <- Hd. eapply insert_current_opens; eauto.
Qed.

Lemma reads_any_location cx tc : calm cx -> reads (fun _ _ => True) (location cx tc).
Proof. apply reads_location. Qed.
Lemma reads_any_scoped cx tc id : calm cx -> reads (fun _ _ => True) (scoped cx tc id).
Proof. intros Hc. eapply reads_conseq; [apply (reads_scoped cx tc id Hc) | auto]. Qed.
Lemma reads_any_store_Current cx o p : calm cx -> reads (fun _ _ => True) (period_store_Current cx o p).
Proof. intros Hc. unfold period_store_Current, period_queryOne. reads_go Hc. Qed.

Lemma EnsureCurrent_may_open cx : cx_tx cx = true -> may_open (EnsureCurrent cx).
Proof.
  intros Hx. assert (Hc : calm cx) by (left; exact Hx). unfold EnsureCurrent.
  apply may_open_after_read; [apply reads_any_tenant|]. intros tc.
  apply may_open_after_read; [apply reads_any_try, reads_any_store_Current, Hc|].
  intros [e|cur]; [|apply reads_may_open, reads_ret; auto].
  destruct (negb _); [apply reads_may_open, reads_unexpected; auto|].
  apply may_open_after_read.
  { unfold cycle. apply reads_any_bind; [apply reads_any_location, Hc|]. intros loc.
    apply reads_any_bind; [apply reads_any_try, (sr_StartDay_in_tx _ _ cx Hx)|].
    intros [x|day]; [apply reads_unexpected | apply reads_ret]; auto. }
  intros [loc day]. apply may_open_after_read; [apply reads_time_Now|]. intros now.
  apply may_open_after_read; [apply reads_NewV7|]. intros id.
  apply may_open_after_read; [apply reads_time_Now|]. intros stamp.
  destruct (Period_New _ _ _ _ _ _) as [x|first] eqn:EN; [apply reads_may_open, reads_err; auto|].
  apply Period_New_inv in EN as (_ & _ & _ & _ & He & Hs).
  apply may_open_then_read; [apply may_open_try, CreateCurrent_may_open; auto using open_not_locked|].
  intros [x|created]; [apply reads_unexpected; auto|]. destruct (negb created); [|apply reads_ret; auto].
  unfold currentAfterRace. apply reads_any_bind; [apply reads_any_try, reads_any_store_Current, Hc|].
  intros [x|cur]; [destruct (IsPeriodNotFound x)|]; first [apply reads_err; auto | apply reads_unexpected; auto | apply reads_ret; auto].
Qed.
Lemma Containing_may_open cx at_ : cx_tx cx = true -> may_open (Containing cx at_).
Proof.
  intros Hx. assert (Hc : calm cx) by (left; exact Hx). unfold Containing.
  apply may_open_after_read; [apply reads_any_tenant|]. intros tc.
  apply may_open_then_read; [apply EnsureCurrent_may_open, Hx|]. intros _.
  apply reads_any_bind; [apply reads_any_location, Hc|]. intros loc.
  unfold period_store_Containing, period_queryOne. reads_go Hc.
Qed.

Lemma reads_any_info cx p : calm cx -> reads (fun _ _ => True) (period_info cx p).
Proof.
  intros Hc. unfold period_info, Neighbors. apply reads_any_bind; [|intros [prev next]; apply reads_ret; auto].
  apply reads_any_bind; [apply reads_any_tenant|]. intros tc.
  apply reads_any_bind; [apply reads_any_scoped, Hc|]. intros q.
  unfold period_store_Neighbors, period_queryOne, period_queryEdge. reads_go Hc.
Qed.

#[export] Instance periodResolverAdapter_laws : PeriodResolverLaws.
Proof.
  constructor.
  - intros cx o p at_ Hx w a _. revert w. apply (may_open_then_read (st_try (Containing cx at_))).
    + apply may_open_try, Containing_may_open, Hx.
    + intros [e|q]; [destruct (IsPeriodNotFound e); [apply reads_ret | apply reads_err]; auto|].
      destruct (_ || _)%bool; [apply reads_err; auto|].
      apply reads_any_bind; [apply reads_any_info; left; exact Hx | intros; apply reads_ret; auto].
  - intros cx o p id Hx. assert (Hc : calm cx) by (left; exact Hx). simpl. unfold period_ByID.
    eapply (reads_seq _ _ (fun q db => In q (rows (db_periods db)) /\ pr_ID q = id)).
    { eapply reads_seq; [apply reads_any_tenant|]. intros tc _.
      eapply reads_conseq; [apply (reads_scoped cx tc id Hc)|]. intros q db [Hin (I & _)] _. auto. }
    intros q _. destruct (N.eqb_spec (pr_OrgID q) o); [|apply reads_err; auto].
    destruct (N.eqb_spec (pr_ProjectID q) p); [|apply reads_err; auto]. unfold period_info.
    eapply (reads_seq _ _ (fun _ _ => True)).
    { eapply reads_conseq; [|auto]. instantiate (1 := fun _ _ => True).
      pose proof (reads_any_info cx q Hc) as Hi. intros w. specialize (Hi w). unfold period_info, st_bind in Hi.
      destruct (Neighbors cx (pr_ID q) w) as [[[a b]|e1|q1] w1]; simpl in *; (split; [apply Hi | exact I]). }
    intros [prev next] _. apply reads_ret. intros db _ [Hin I]. exists q. auto.
Qed.

#[export] Instance openingDaterFor_laws : OpeningDaterLaws.
Proof.
  constructor. intros cx at_ Hx. assert (Hc : calm cx) by (left; exact Hx). simpl. unfold period_OpeningDate.
  apply reads_any_bind; [apply reads_any_tenant|]. intros tc.
  apply reads_any_bind; [apply reads_any_location, Hc|]. intros loc.
  unfold period_store_Containing, period_queryOne, period_store_List. reads_go Hc.
Qed.
End PeriodLaws.

Section OpeningLaws.
Context `{Env, Mirror, !MirrorLaws, SettingsReader, !SettingsReaderLaws}.
Hypothesis fresh : fresh_ids.

Lemma transactions_opening_laws : OpeningRecorderLaws.
Proof.
  constructor. intros cx tc walletID a at_ by_ Hx F. simpl. unfold RecordOpening.
  eapply runs_read_bind; [apply (reads_of _ _ _ (reads_from_tenant cx))|]. intros tc' [db0 F'].
  rewrite F in F'. injection F' as <-.
  eapply (runs_bind _ _ _ (fun t id db db' => id = t_ID t /\ db' = db));
    [apply (runs_record cx tc (opening_input walletID a at_) by_ fresh Hx F) | |].
  - intros t _. eapply runs_read_bind; [apply reads_mark, Hx|]. intros u _ w r. simpl. intros [= <-]. auto.
  - intros t id db db1 db2 Hr [-> ->] _. eauto.
Qed.
End OpeningLaws.
