(* ===== verification/Balance.v ===== *)
(** * Balances: the store's sums against the definition of a balance

    A wallet's balance is the sum of the effects of its project's transactions;
    the SQL sums compute it, or fail on an int64 overflow. *)
From Stdlib Require Import ZArith Lia String List.
From stdpp Require Import base gmap list strings.
From S2P Require Import Prelude GoStrings Errors Civil Money Tenant Ledger Period Wallet Category Transaction World.
From S2P Require Import Commit PeriodStore WalletService CategoryService TxStore TxService Books TxTheory BooksOps LedgerTheory.
Local Open Scope string_scope.
Local Open Scope Z_scope.

Definition project_txs (db : DB) (tc : Tenant) : list Transaction :=
  List.filter (tx_scope (OrgID tc) (ProjectID tc) (OrgID tc)) (rows (db_txs db)).
(** The balance by definition. *)
Definition balance_of (db : DB) (tc : Tenant) (walletID : uuid) : Z :=
  sumZ (map (fun t => Minor (Effect t walletID)) (project_txs db tc)).
(** Amounts are Go int64s. *)
Definition int64_amounts (db : DB) : Prop := forall i t, db_txs db !! i = Some t -> in_int64 (Minor (t_Amount t)).

Lemma sql_sum_from_sum l : forall acc s, sql_sum_from acc l = Some s -> s = acc + sumZ l /\ (l = [] \/ in_int64 s).
Proof.
  induction l as [|x l IH]; intros acc s; cbn [sql_sum_from]; [intros [= <-]; cbn; split; [lia | auto]|].
  change (sumZ (x :: l)) with (x + sumZ l). destruct (in_int64b (acc + x)) eqn:E; [|discriminate]. intros Hs.
  destruct (IH _ _ Hs) as [-> Hr]. split; [lia|]. right. destruct Hr as [->|Hr]; [|exact Hr].
  cbn [sumZ fold_right]. rewrite Z.add_0_r. apply in_int64b_spec, E.
Qed.
Lemma sql_sum_sum l s : sql_sum l = Some s -> s = sumZ l /\ in_int64 s.
Proof.
  intros Hs. destruct (sql_sum_from_sum l 0 s Hs) as [-> [->|Hr]]; [|auto].
  split; [reflexivity|]. unfold in_int64, min_int64, max_int64. cbn. lia.
Qed.

(** ** Deltas are effects *)
Lemma sum_filter_map {A} (f : A -> option Delta) w ts :
  sumZ (map snd (List.filter (fun d => N.eqb (fst (fst d)) w) (filter_map f ts)))
  = sumZ (map (fun t => match f t with Some d => if N.eqb (fst (fst d)) w then snd d else 0 | None => 0 end) ts).
Proof.
  unfold sumZ in *. induction ts as [|t ts IH]; cbn; [reflexivity|]. destruct (f t) as [d|]; cbn; [|exact IH].
  destruct (N.eqb (fst (fst d)) w); cbn; lia.
Qed.
Lemma filter_map_Some {A B} (f : A -> B) l : filter_map (fun x => Some (f x)) l = map f l.
Proof. induction l; cbn; congruence. Qed.

Lemma wrap64_opp z : in_int64 z -> 0 < z -> wrap64 (- z) = - z.
Proof. intros Hz Hp. apply wrap64_id. unfold in_int64, min_int64, max_int64 in *. lia. Qed.

(** What one well-formed transaction adds in the two queries is its effect. *)
Lemma delta_effect t w : tx_ok t -> in_int64 (Minor (t_Amount t)) ->
  (if N.eqb (t_WalletID t) w then snd (own_delta t) else 0)
  + match incoming_delta t with Some d => if N.eqb (fst (fst d)) w then snd d else 0 | None => 0 end
  = Minor (Effect t w).
Proof.
  intros (Hk & _ & Hp & _ & Ht & Hne & _) Hi. unfold Effect, own_delta, incoming_delta. cbn [snd fst].
  pose proof (wrap64_opp _ Hi Hp) as Hw.
  destruct (String.eqb_spec (t_Kind t) TxTransfer) as [E|E].
  - destruct (t_ToWalletID t) as [to|] eqn:Eto; [|destruct (proj1 Ht E); reflexivity].
    rewrite E. change (IsInflow TxTransfer) with false. cbn iota.
    rewrite (N.eqb_sym w (t_WalletID t)), (N.eqb_sym w to). cbn [fst snd].
    destruct (N.eqb_spec (t_WalletID t) w) as [Ew|Hn].
    + destruct (N.eqb_spec to w); [congruence|]. cbn [Neg Minor]. rewrite Hw. lia.
    + destruct (N.eqb to w); cbn [Minor Zero]; lia.
  - rewrite (N.eqb_sym w). destruct (N.eqb (t_WalletID t) w); cbn [negb]; [|cbn; lia].
    destruct (IsInflow (t_Kind t)); cbn [Neg Minor]; lia.
Qed.

Lemma wallet_deltas_sum w ts : (forall t, In t ts -> tx_ok t /\ in_int64 (Minor (t_Amount t))) ->
  sumZ (map snd (wallet_deltas w ts)) = sumZ (map (fun t => Minor (Effect t w)) ts).
Proof.
  intros Hall. unfold wallet_deltas. rewrite List.filter_app, map_app, sumZ_app.
  rewrite <- (filter_map_Some own_delta), !sum_filter_map. clear -Hall.
  induction ts as [|t ts IH]; cbn [map sumZ fold_right]; [reflexivity|].
  destruct (Hall t (or_introl eq_refl)) as [Ok Hi]. pose proof (delta_effect t w Ok Hi) as Hd.
  specialize (IH (fun u Hu => Hall u (or_intror Hu))). unfold sumZ in *. cbn [fst snd own_delta] in *. lia.
Qed.

(** ** The deltas of one wallet share its currency *)
Lemma in_wallet_deltas w ts d : In d (wallet_deltas w ts) ->
  fst (fst d) = w /\ exists t, In t ts /\ snd (fst d) = AmountCurrency (t_Amount t)
    /\ (t_WalletID t = w \/ t_ToWalletID t = Some w).
Proof.
  unfold wallet_deltas. intros Hd. apply filter_In in Hd as [Hin Hw]. apply N.eqb_eq in Hw. split; [exact Hw|].
  apply in_app_or in Hin as [Hin|Hin].
  - apply in_map_iff in Hin as (t & <- & Ht). exists t. cbn in *. auto.
  - induction ts as [|t ts IH]; cbn in Hin; [destruct Hin|].
    destruct (incoming_delta t) as [x|] eqn:E.
    + destruct Hin as [->|Hin]; [|destruct (IH Hin) as (u & Hu & R); exists u; split; [right; exact Hu | exact R]].
      exists t. unfold incoming_delta in E. destruct (String.eqb _ _); [|discriminate].
      destruct (t_ToWalletID t) as [to|]; [|discriminate]. injection E as <-. cbn in *. subst. split; [left; reflexivity | auto].
    + destruct (IH Hin) as (u & Hu & R). exists u. split; [right; exact Hu | exact R].
Qed.

Lemma project_txs_In db tc t : In t (project_txs db tc) <->
  In t (rows (db_txs db)) /\ t_OrgID t = OrgID tc /\ t_ProjectID t = ProjectID tc.
Proof. unfold project_txs, tx_scope. rewrite filter_In, !andb_true_iff, !N.eqb_eq. tauto. Qed.

Lemma deltas_currency db tc w wal d : Books db -> db_wallets db !! w = Some wal ->
  In d (wallet_deltas w (project_txs db tc)) -> d_key d = (w, w_Currency wal).
Proof.
  intros B Hw Hd. apply in_wallet_deltas in Hd as (E & t & Ht & Ec & Hor).
  apply project_txs_In in Ht as [Hin _]. apply rows_In in Hin as (i & Hi). pose proof (bk_tx db B i t Hi) as Bt.
  assert (M : wallet_matches db t w) by (destruct Hor as [<-|Hto]; [apply Bt | apply (tb_to db t Bt), Hto]).
  destruct M as (v & Hv & _ & _ & Ev). destruct d as [[a c] z]. cbn in *. congruence.
Qed.

Lemma filter_all {A} (f : A -> bool) l : (forall x, In x l -> f x = true) -> List.filter f l = l.
Proof.
  induction l as [|x l IH]; cbn; intros Hf; [reflexivity|]. rewrite (Hf x (or_introl eq_refl)).
  f_equal. apply IH. auto.
Qed.

(** [stored_balance] is the balance, in the wallet's currency, with no currency when nothing touches the wallet. *)
Lemma stored_balance_spec db tc w a : Books db -> int64_amounts db -> stored_balance db tc w = inr a ->
  Minor a = balance_of db tc w /\ in_int64 (Minor a)
  /\ ((a = New 0 "" /\ forall t, In t (project_txs db tc) -> t_WalletID t <> w /\ t_ToWalletID t <> Some w)
      \/ exists wal, db_wallets db !! w = Some wal /\ AmountCurrency a = w_Currency wal).
Proof.
  intros B Hi. unfold stored_balance. change (List.filter _ (rows (db_txs db))) with (project_txs db tc).
  set (ds := wallet_deltas w (project_txs db tc)).
  assert (Hsum : sumZ (map snd ds) = balance_of db tc w).
  { apply wallet_deltas_sum. intros t Ht. apply project_txs_In in Ht as [Hin _]. apply rows_In in Hin as (i & Ht).
    split; [apply (tb_ok db), (bk_tx db B i t Ht) | apply (Hi i t Ht)]. }
  destruct (min_currency ds) as [cur|] eqn:Em.
  - assert (Hc : exists d, In d ds /\ snd (fst d) = cur).
    { unfold min_currency in Em. apply head_Some in Em as [l El].
      assert (Hin : In cur (sort_by (fun a b => match String.compare a b with Gt => false | _ => true end)
          (map (fun d => snd (fst d)) ds))) by (rewrite El; left; reflexivity).
      apply In_sort_by, in_map_iff in Hin as (d & E & Hd). eauto. }
    destruct Hc as (d & Hd & Ec). pose proof Hd as Hd'. apply in_wallet_deltas in Hd' as (_ & t & Ht & _ & Hor).
    apply project_txs_In in Ht as [Hin _]. apply rows_In in Hin as (i & Ht). pose proof (bk_tx db B i t Ht) as Bt.
    assert (M : wallet_matches db t w) by (destruct Hor as [<-|Hto]; [apply Bt | apply (tb_to db t Bt), Hto]).
    destruct M as (wal & Hw & _). pose proof (deltas_currency db tc w wal d B Hw Hd) as Ek.
    assert (cur = w_Currency wal) as -> by (destruct d as [[x c] z]; cbn in *; congruence).
    unfold group_sum. rewrite filter_all.
    + destruct (sql_sum (map snd ds)) as [s|] eqn:Es; [|discriminate]. intros [= <-].
      apply sql_sum_sum in Es as [-> Hr]. cbn. split; [exact Hsum|]. split; [exact Hr|]. right. eauto.
    + intros x Hx. rewrite (deltas_currency db tc w wal x B Hw Hx). unfold key_eqb. cbn.
      rewrite N.eqb_refl, String.eqb_refl. reflexivity.
  - intros [= <-]. unfold min_currency in Em. apply head_None in Em.
    assert (En : ds = []).
    { destruct ds as [|d l]; [reflexivity|]. exfalso.
      assert (Hin : In (snd (fst d)) (sort_by (fun a b => match String.compare a b with Gt => false | _ => true end)
          (map (fun d => snd (fst d)) (d :: l)))) by (apply In_sort_by; left; reflexivity).
      rewrite Em in Hin. destruct Hin. }
    rewrite En in Hsum. cbn. split; [exact Hsum|]. split; [unfold in_int64, min_int64, max_int64; lia|]. left.
    split; [reflexivity|]. intros t Ht. split; intros E.
    + assert (Hin : In (own_delta t) ds) by (apply filter_In; split; [apply in_or_app; left; apply in_map, Ht | apply N.eqb_eq, E]).
      rewrite En in Hin. destruct Hin.
    + apply project_txs_In in Ht as Ht'. destruct Ht' as [Hin _]. apply rows_In in Hin as (i & Hti).
      destruct (tb_ok db t (bk_tx db B i t Hti)) as (_ & _ & _ & _ & Hk & _).
      assert (Ek : t_Kind t = TxTransfer) by (apply Hk; congruence).
      assert (Hx : In (w, AmountCurrency (t_Amount t), Minor (t_Amount t)) ds).
      { apply filter_In. split; [|apply N.eqb_refl]. apply in_or_app. right.
        clear -Ht E Ek. induction (project_txs db tc) as [|u us IH]; [destruct Ht|]. cbn.
        destruct Ht as [->|Ht]; [|destruct (incoming_delta u); [right|]; auto].
        unfold incoming_delta at 1. rewrite Ek, E. left. reflexivity. }
      rewrite En in Hx. destruct Hx.
Qed.

(** ** Balances after a write *)
Lemma balance_insert db tc w t : db_txs db !! t_ID t = None -> t_OrgID t = OrgID tc -> t_ProjectID t = ProjectID tc ->
  balance_of (set_txs (<[t_ID t := t]> (db_txs db)) db) tc w = Minor (Effect t w) + balance_of db tc w.
Proof.
  intros Hf O P. unfold balance_of, project_txs. cbn [db_txs set_txs].
  rewrite (sumZ_perm _ _ (Permutation_map _ (filter_perm _ _ _ (rows_insert _ _ _ Hf)))).
  cbn. unfold tx_scope at 1. rewrite O, P, !N.eqb_refl. reflexivity.
Qed.
Lemma balance_opens db db' tc w : opens db db' -> balance_of db' tc w = balance_of db tc w.
Proof. intros Ho. destruct (opens_cases db db' Ho) as [->|(p & _ & _ & ->)]; reflexivity. Qed.

(** A recorded transaction moves every balance of its project by its effect. *)
Lemma balance_recorded tc i t db db' w : recorded tc i t db db' ->
  balance_of db' tc w = Minor (Effect t w) + balance_of db tc w.
Proof.
  intros (db1 & Ho & Hf & -> & (O & P & _) & _). rewrite (balance_insert db1 tc w t Hf O P).
  f_equal. apply balance_opens, Ho.
Qed.
