(* ===== verification/SheetFacts.v ===== *)
(** * What the sheet ought to show

    The row of every wallet, category and transaction as a function of the
    database, and the proof that the sync's source returns exactly that row. *)
From Stdlib Require Import ZArith Lia String List.
From stdpp Require Import base gmap list strings.
From S2P Require Import Prelude GoStrings Errors Civil Money Tenant Ledger Period Wallet Category Transaction Outbox Sheet World Wp.
From S2P Require Import LedgerService PeriodStore PeriodService Commit SheetStore SheetMirror SheetSync WalletService CategoryService.
From S2P Require Import TxStore TxService SheetService SheetTheory SheetServer SheetProtocol SheetSteps Books TxTheory LedgerTheory Balance Adapters.
Local Open Scope string_scope.
Local Open Scope Z_scope.

(** ** Facts *)
Section Facts.
Context `{TZDatabase} (tc : Tenant).

Definition find_tx (db : DB) (id : uuid) : option Transaction :=
  match db_txs db !! id with
  | Some t => if N.eqb (t_ID t) id && tx_of (OrgID tc) (ProjectID tc) t then Some t else None
  | None => None
  end.
Definition find_wallet (db : DB) (id : uuid) : option Wallet :=
  match db_wallets db !! id with
  | Some w => if N.eqb (w_ID w) id && wallet_of (OrgID tc) (ProjectID tc) w then Some w else None
  | None => None
  end.
Definition find_category (db : DB) (id : uuid) : option Category :=
  match db_categories db !! id with
  | Some c => if N.eqb (c_ID c) id && category_of (OrgID tc) (ProjectID tc) c then Some c else None
  | None => None
  end.
Definition find_period (db : DB) (id : uuid) : option Period :=
  match db_periods db !! id with
  | Some p => if N.eqb (pr_ID p) id && (N.eqb (pr_OrgID p) (OrgID tc) && N.eqb (pr_ProjectID p) (ProjectID tc))
              then Some p else None
  | None => None
  end.
Definition name_of {A} (f : A -> string) (o : option A) : string := match o with Some a => f a | None => "" end.

(** The project's zone, when the time zone database knows it. *)
Definition zone_of (db : DB) : option Location :=
  match Settings_Location (settings_of db (OrgID tc) (ProjectID tc)) with inr loc => Some loc | inl _ => None end.

Definition tx_facts (db : DB) (t : Transaction) : TransactionFacts :=
  let wallet := fun id => name_of w_Name (find_wallet db id) in
  mkTransactionFacts (t_ID t) (t_Kind t) (t_Amount t) (t_OccurredAt t) (zone_of db) (t_WalletID t) (wallet (t_WalletID t))
    (match t_ToWalletID t with Some id => id | None => uuid_Nil end)
    (match t_ToWalletID t with Some id => wallet id | None => "" end)
    (match t_CategoryID t with Some id => id | None => uuid_Nil end)
    (match t_CategoryID t with Some id => name_of c_Name (find_category db id) | None => "" end)
    (match t_PeriodID t with Some id => name_of pr_Name (find_period db id) | None => "" end)
    (t_Note t) uuid_Nil (t_UpdatedAt t).
(** A wallet with its balance, the sum of its transactions' effects. *)
Definition wallet_facts (db : DB) (w : Wallet) : WalletFacts :=
  mkWalletFacts (w_ID w) (w_Name w) (w_Kind w) (w_Provider w) (New (balance_of db tc (w_ID w)) (w_Currency w))
    (w_ExcludeFromTotal w) (Wallet_IsArchived w) (w_UpdatedAt w).
Definition category_facts (c : Category) : CategoryFacts :=
  mkCategoryFacts (c_ID c) (c_Name c) (c_Kind c) (c_Icon c) (c_Color c) (Category_IsArchived c) (c_UpdatedAt c).

#[export] Instance row_facts : Facts := fun db k =>
  let ' (e, id) := k in
  if String.eqb e EntityTransaction then option_map (fun t => TransactionRow (tx_facts db t)) (find_tx db id)
  else if String.eqb e EntityWallet then option_map (fun w => WalletRow (wallet_facts db w)) (find_wallet db id)
  else if String.eqb e EntityCategory then option_map (fun c => CategoryRow (category_facts c)) (find_category db id)
  else None.

(** Facts are of entities the project has. *)
Lemma row_facts_exist db e id : facts db (e, id) <> None ->
  In e mark_sources /\ In id (entity_ids (OrgID tc) (ProjectID tc) e db) /\ entity_exists (OrgID tc) e id db = true.
Proof.
  unfold facts, row_facts, entity_ids, entity_exists, mark_sources, find_tx, find_wallet, find_category.
  destruct (String.eqb_spec e EntityTransaction) as [->|N1]; [|destruct (String.eqb_spec e EntityWallet) as [->|N2];
    [|destruct (String.eqb_spec e EntityCategory) as [->|N3]; [|intros []; reflexivity]]]; cbn.
  - destruct (db_txs db !! id) as [t|] eqn:E; [|intros []; reflexivity]. destruct (N.eqb_spec (t_ID t) id) as [<-|]; [|intros []; reflexivity].
    destruct (tx_of _ _ t) eqn:T; [|intros []; reflexivity]. intros _. split; [auto|]. split.
    + apply in_map, filter_In. split; [apply rows_In; eauto | exact T].
    + unfold tx_of in T. apply andb_prop in T. apply T.
  - destruct (db_wallets db !! id) as [t|] eqn:E; [|intros []; reflexivity]. destruct (N.eqb_spec (w_ID t) id) as [<-|]; [|intros []; reflexivity].
    destruct (wallet_of _ _ t) eqn:T; [|intros []; reflexivity]. intros _. split; [auto|]. split.
    + apply in_map, filter_In. split; [apply rows_In; eauto | exact T].
    + unfold wallet_of in T. apply andb_prop in T. apply T.
  - destruct (db_categories db !! id) as [t|] eqn:E; [|intros []; reflexivity]. destruct (N.eqb_spec (c_ID t) id) as [<-|]; [|intros []; reflexivity].
    destruct (category_of _ _ t) eqn:T; [|intros []; reflexivity]. intros _. split; [auto|]. split.
    + apply in_map, filter_In. split; [apply rows_In; eauto | exact T].
    + unfold category_of in T. apply andb_prop in T. apply T.
Qed.

End Facts.

(** ** The source returns the facts *)

(** A read of the driver that nothing fails. *)
Section Reads.
Context `{Env, Deadlines}.
Hypothesis Hq : quiet.
Hypothesis Hs : sheet_quiet.
Hypothesis Hf : faultless.

Lemma swp_query {A} op (q : DB -> A) d s h (Q : Outcome Error A -> DB -> SheetDB -> list Sent -> Prop) :
  Q (Ok (q d)) d s h -> swp (query op q) d s h Q.
Proof.
  intros HQ. unfold query. apply swp_bind, swp_maperr, swp_driver_call; [|contradiction].
  intros w <- <- <-. exact HQ.
Qed.
Lemma swp_read_tx {A} pkg cx tc (body : Tenant -> M A) d s h (Q : Outcome Error A -> DB -> SheetDB -> list Sent -> Prop) :
  From_ cx = inr tc -> swp (body tc) d s h Q -> swp (read_tx pkg cx body) d s h Q.
Proof.
  intros F HQ. unfold read_tx. apply swp_bind, (swp_from_tenant _ tc _ _ _ _ F). destruct (cx_tx cx); [exact HQ|].
  apply swp_bind, swp_others_quiet; [exact Hq | exact Hs|]. apply swp_bind, swp_maperr, swp_driver_call; [exact HQ | contradiction].
Qed.
End Reads.

Section Source.
Context `{Env, Deadlines, TZDatabase, Unicode, Mirror, Uow, CategoryReader, PeriodResolver, SettingsReader}.
Hypothesis Hq : quiet.
Hypothesis Hs : sheet_quiet.
Hypothesis Hf : faultless.
Context (cx : Ctx) (tc : Tenant) (F : From_ cx = inr tc) (db : DB) (B : Books db).

(** What a lookup of [o] does: its value, or the error [nf] of a missing row. *)
Definition looks_up {A} (m : M A) (o : option A) (nf : Error -> bool) : Prop :=
  forall s h (Q : Outcome Error A -> DB -> SheetDB -> list Sent -> Prop),
    match o with Some a => Q (Ok a) db s h | None => forall e, nf e = true -> Q (Err e) db s h end -> swp m db s h Q.

Lemma wallet_ByID_looks_up id : looks_up (wallet_ByID cx id) (find_wallet tc db id) IsWalletNotFound.
Proof.
  intros s h Q HQ. unfold wallet_ByID. apply swp_bind, (swp_from_tenant _ tc _ _ _ _ F), swp_bind, swp_try.
  apply (swp_read_tx Hq Hs Hf _ _ tc); [exact F|]. apply swp_bind, (swp_query Hf). unfold find_wallet in HQ.
  destruct (db_wallets db !! id) as [w|] eqn:E; [|apply swp_err, swp_err, HQ; reflexivity].
  rewrite (bk_wallet_key db B _ _ E), N.eqb_refl in HQ. unfold wallet_of in HQ. cbn [andb] in HQ.
  destruct (N.eqb (w_OrgID w) (OrgID tc)) eqn:E1; [|apply swp_err, swp_err, HQ; reflexivity].
  apply swp_ret. rewrite E1. destruct (N.eqb (w_ProjectID w) (ProjectID tc)); cbn in *;
    [apply swp_ret, HQ | apply swp_err, HQ; reflexivity].
Qed.
Lemma category_ByID_looks_up id : looks_up (category_ByID cx id) (find_category tc db id) IsCategoryNotFound.
Proof.
  intros s h Q HQ. unfold category_ByID. apply swp_bind, (swp_from_tenant _ tc _ _ _ _ F), swp_bind, swp_try.
  apply (swp_read_tx Hq Hs Hf _ _ tc); [exact F|]. apply swp_bind, (swp_query Hf). unfold find_category in HQ.
  destruct (db_categories db !! id) as [w|] eqn:E; [|apply swp_err, swp_err, HQ; reflexivity].
  rewrite (bk_category_key db B _ _ E), N.eqb_refl in HQ. unfold category_of in HQ. cbn [andb] in HQ.
  destruct (N.eqb (c_OrgID w) (OrgID tc)) eqn:E1; [|apply swp_err, swp_err, HQ; reflexivity].
  apply swp_ret. rewrite E1. destruct (N.eqb (c_ProjectID w) (ProjectID tc)); cbn in *;
    [apply swp_ret, HQ | apply swp_err, HQ; reflexivity].
Qed.
Lemma tx_ByID_looks_up id : looks_up (tx_ByID cx id) (find_tx tc db id) IsTxNotFound.
Proof.
  intros s h Q HQ. unfold tx_ByID, tx_load. apply swp_bind, (swp_from_tenant _ tc _ _ _ _ F), swp_bind, swp_try.
  apply (swp_read_tx Hq Hs Hf _ _ tc); [exact F|]. apply swp_bind, (swp_query Hf). unfold find_tx in HQ.
  destruct (db_txs db !! id) as [w|] eqn:E; [|apply swp_err, swp_err, HQ; reflexivity].
  rewrite (bk_tx_key db B _ _ E), N.eqb_refl in HQ. unfold tx_of in HQ. cbn [andb] in HQ.
  destruct (N.eqb (t_OrgID w) (OrgID tc)) eqn:E1; [|apply swp_err, swp_err, HQ; reflexivity].
  apply swp_ret. rewrite E1. destruct (N.eqb (t_ProjectID w) (ProjectID tc)); cbn in *;
    [apply swp_ret, HQ | apply swp_err, HQ; reflexivity].
Qed.
Lemma find_period_row id : List.find (fun p => N.eqb (pr_ID p) id && N.eqb (pr_OrgID p) (OrgID tc)) (rows (db_periods db))
  = match db_periods db !! id with Some p => if N.eqb (pr_OrgID p) (OrgID tc) then Some p else None | None => None end.
Proof.
  destruct (List.find _ _) as [p|] eqn:E.
  - apply List.find_some in E as [I E]. apply andb_prop in E as [E1 E2]. apply N.eqb_eq in E1. apply rows_In in I as (i & Ei).
    rewrite (bk_period_key db B _ _ Ei) in E1. subst i. rewrite Ei, E2. reflexivity.
  - destruct (db_periods db !! id) as [p|] eqn:Ei; [|reflexivity].
    assert (I : In p (rows (db_periods db))) by (apply rows_In; eauto). pose proof (List.find_none _ _ E p I) as X. cbn in X.
    rewrite (bk_period_key db B _ _ Ei), N.eqb_refl in X. cbn in X. rewrite X. reflexivity.
Qed.
Lemma period_ByID_looks_up id : looks_up (period_ByID cx id) (find_period tc db id) IsPeriodNotFound.
Proof.
  intros s h Q HQ. unfold period_ByID, scoped, scopedRow. apply swp_bind, (swp_from_tenant _ tc _ _ _ _ F), swp_bind, swp_try.
  apply (swp_read_tx Hq Hs Hf _ _ tc); [exact F|]. apply swp_bind, (swp_query Hf). rewrite find_period_row. unfold find_period in HQ.
  destruct (db_periods db !! id) as [w|] eqn:E; [|apply swp_err, swp_err, HQ; reflexivity].
  rewrite (bk_period_key db B _ _ E), N.eqb_refl in HQ. cbn [andb] in HQ.
  destruct (N.eqb (pr_OrgID w) (OrgID tc)) eqn:E1; [|apply swp_err, swp_err, HQ; reflexivity].
  apply swp_ret. rewrite E1. destruct (N.eqb (pr_ProjectID w) (ProjectID tc)); cbn in *;
    [apply swp_ret, HQ | apply swp_err, HQ; reflexivity].
Qed.

(** [m] gives [a], and changes nothing. *)
Definition yields {A} (m : M A) (a : A) : Prop :=
  forall s h (Q : Outcome Error A -> DB -> SheetDB -> list Sent -> Prop), Q (Ok a) db s h -> swp m db s h Q.
Lemma swp_bind_yields {A C} (m : M A) a (k : A -> M C) s h (Q : Outcome Error C -> DB -> SheetDB -> list Sent -> Prop) :
  yields m a -> swp (k a) db s h Q -> swp (st_bind m k) db s h Q.
Proof. intros Hm Hk. apply swp_bind, Hm, Hk. Qed.

Lemma ledger_Location_looks_up s h loc (Q : Outcome Error Location -> DB -> SheetDB -> list Sent -> Prop) :
  zone_of tc db = Some loc -> Q (Ok loc) db s h -> swp (ledger_Location cx (OrgID tc) (ProjectID tc)) db s h Q.
Proof.
  unfold zone_of. destruct (Settings_Location _) as [e|l] eqn:E; [discriminate|]. intros [= ->] HQ.
  unfold ledger_Location, effective, ledger_ByProject. apply swp_bind, swp_bind, swp_try.
  apply (swp_read_tx Hq Hs Hf _ _ tc); [exact F|]. apply swp_bind, (swp_query Hf).
  assert (HD : swp (match Settings_Location (settings_of db (OrgID tc) (ProjectID tc)) with
                    | inl e => st_err (ELedger e) | inr loc => st_ret loc end) db s h Q)
    by (rewrite E; apply swp_ret, HQ).
  unfold settings_of in HD. destruct (db_ledger db !! ProjectID tc) as [st|].
  - destruct (N.eqb (s_OrgID st) (OrgID tc)) eqn:E1; cbn [andb].
    + apply swp_ret, swp_ret, HD.
    + apply swp_err. cbn [IsLedgerNotFound]. apply swp_ret, HD.
  - apply swp_err, swp_ret, HD.
Qed.

Lemma find_wallet_in id w : db_wallets db !! id = Some w -> w_OrgID w = OrgID tc -> w_ProjectID w = ProjectID tc ->
  find_wallet tc db id = Some w.
Proof.
  intros E E1 E2. unfold find_wallet, wallet_of. rewrite E, (bk_wallet_key db B _ _ E), E1, E2, !N.eqb_refl. reflexivity.
Qed.
Lemma find_category_in id c : db_categories db !! id = Some c -> c_OrgID c = OrgID tc -> c_ProjectID c = ProjectID tc ->
  find_category tc db id = Some c.
Proof.
  intros E E1 E2. unfold find_category, category_of. rewrite E, (bk_category_key db B _ _ E), E1, E2, !N.eqb_refl. reflexivity.
Qed.
Lemma find_period_in id p : db_periods db !! id = Some p -> pr_OrgID p = OrgID tc -> pr_ProjectID p = ProjectID tc ->
  find_period tc db id = Some p.
Proof.
  intros E E1 E2. unfold find_period. rewrite E, (bk_period_key db B _ _ E), E1, E2, !N.eqb_refl. reflexivity.
Qed.
Lemma find_tx_inv id t : find_tx tc db id = Some t ->
  db_txs db !! id = Some t /\ t_ID t = id /\ t_OrgID t = OrgID tc /\ t_ProjectID t = ProjectID tc.
Proof.
  unfold find_tx, tx_of. destruct (db_txs db !! id) as [x|]; [|discriminate].
  destruct (N.eqb_spec (t_ID x) id), (N.eqb_spec (t_OrgID x) (OrgID tc)), (N.eqb_spec (t_ProjectID x) (ProjectID tc));
    try discriminate. intros [= <-]. auto.
Qed.
Lemma find_wallet_inv id w : find_wallet tc db id = Some w ->
  db_wallets db !! id = Some w /\ w_ID w = id /\ w_OrgID w = OrgID tc /\ w_ProjectID w = ProjectID tc.
Proof.
  unfold find_wallet, wallet_of. destruct (db_wallets db !! id) as [x|]; [|discriminate].
  destruct (N.eqb_spec (w_ID x) id), (N.eqb_spec (w_OrgID x) (OrgID tc)), (N.eqb_spec (w_ProjectID x) (ProjectID tc));
    try discriminate. intros [= <-]. auto.
Qed.

(** A transaction's row, every reference resolved. *)
Lemma source_Transaction_facts id s h (Q : Outcome Error (option TransactionFacts) -> DB -> SheetDB -> list Sent -> Prop) :
  zone_of tc db <> None -> Q (Ok (option_map (tx_facts tc db) (find_tx tc db id))) db s h ->
  swp (source_Transaction cx id) db s h Q.
Proof.
  intros HZ HQ. unfold source_Transaction. apply swp_bind, swp_try, tx_ByID_looks_up.
  destruct (find_tx tc db id) as [t|] eqn:E; [|intros e ->; apply swp_ret, HQ].
  destruct (find_tx_inv _ _ E) as (Et & _ & Eo & Ep). pose proof (bk_tx db B _ _ Et) as [_ _ TW TT TC TP].
  assert (HW : forall id, wallet_matches db t id -> exists w, find_wallet tc db id = Some w).
  { intros i (w & Hw & W1 & W2 & _). exists w. apply find_wallet_in; congruence. }
  assert (HN : forall id, wallet_matches db t id -> yields (source_walletName cx id) (name_of w_Name (find_wallet tc db id))).
  { intros i Hi s' h' Q' HQ'. destruct (HW i Hi) as [w Ew]. rewrite Ew in HQ'.
    apply swp_bind, wallet_ByID_looks_up. rewrite Ew. apply swp_ret, HQ'. }
  apply swp_bind. unfold source_facts. rewrite Eo, Ep. destruct (zone_of tc db) as [loc|] eqn:EZ; [|contradiction].
  apply swp_bind, (ledger_Location_looks_up _ _ loc _ EZ). apply swp_bind, HN; [exact TW|].
  apply (swp_bind_yields _ (match t_ToWalletID t with
    | Some id => (id, name_of w_Name (find_wallet tc db id)) | None => (uuid_Nil, "") end)).
  { intros s' h' Q' HQ'. destruct (t_ToWalletID t) as [i|]; [|apply swp_ret, HQ'].
    apply swp_bind, HN; [apply TT; reflexivity | apply swp_ret, HQ']. }
  apply (swp_bind_yields _ (match t_CategoryID t with
    | Some id => (id, name_of c_Name (find_category tc db id)) | None => (uuid_Nil, "") end)).
  { intros s' h' Q' HQ'. destruct (t_CategoryID t) as [i|]; [|apply swp_ret, HQ'].
    destruct (TC i eq_refl) as (c & Hc & C1 & C2 & _). rewrite (find_category_in i c) in HQ' by congruence.
    apply swp_bind, category_ByID_looks_up. rewrite (find_category_in i c) by congruence.
    apply swp_ret. rewrite (bk_category_key db B _ _ Hc). exact HQ'. }
  apply (swp_bind_yields _ (match t_PeriodID t with
    | Some id => name_of pr_Name (find_period tc db id) | None => "" end)).
  { intros s' h' Q' HQ'. destruct (t_PeriodID t) as [i|]; [|apply swp_ret, HQ'].
    destruct (TP i eq_refl) as (p & Hp & P1 & P2). rewrite (find_period_in i p) in HQ' by congruence.
    apply swp_bind, period_ByID_looks_up. rewrite (find_period_in i p) by congruence. apply swp_ret, HQ'. }
  apply swp_ret, swp_ret. cbn [option_map] in HQ. unfold tx_facts in HQ. rewrite EZ in HQ.
  destruct (t_ToWalletID t), (t_CategoryID t); exact HQ.
Qed.

(** A category's row. *)
Lemma source_Category_facts id : yields (source_Category cx id) (option_map category_facts (find_category tc db id)).
Proof.
  intros s h Q HQ. unfold source_Category. apply swp_bind, swp_try, category_ByID_looks_up.
  destruct (find_category tc db id) as [c|]; [apply swp_ret, HQ | intros e ->; apply swp_ret, HQ].
Qed.
End Source.

Section WalletSource.
Context `{Env, Deadlines}.
Hypothesis Hq : quiet.
Hypothesis Hs : sheet_quiet.
Hypothesis Hf : faultless.
Context (cx : Ctx) (tc : Tenant) (F : From_ cx = inr tc) (db : DB) (B : Books db).

(** The stored sum answers unless it overflows; then the row's read fails. *)
Definition sum_fits (id : uuid) : Prop := exists a, stored_balance db tc id = inr a.

(** A wallet's row. *)
Lemma source_Wallet_facts id s h (Q : Outcome Error (option WalletFacts) -> DB -> SheetDB -> list Sent -> Prop) :
  int64_amounts db -> sum_fits id -> Q (Ok (option_map (wallet_facts tc db) (find_wallet tc db id))) db s h ->
  swp (source_Wallet cx id) db s h Q.
Proof.
  intros Hi [a Ea] HQ. unfold source_Wallet. apply swp_bind, swp_try, (wallet_ByID_looks_up Hq Hs Hf _ _ F _ B).
  destruct (find_wallet tc db id) as [w|] eqn:E; [|intros e ->; apply swp_ret, HQ].
  destruct (find_wallet_inv _ _ _ _ E) as (Ew & <- & Eo & Ep).
  destruct (stored_balance_spec db tc (w_ID w) a B Hi Ea) as (Em & _ & Hc).
  apply (swp_bind_yields db _ (New (balance_of db tc (w_ID w)) (w_Currency w))); [|apply swp_ret, HQ].
  intros s' h' Q' HQ'. unfold Balance, tx_store_Balance. apply swp_bind, (swp_from_tenant _ tc _ _ _ _ F), swp_bind, swp_try.
  apply (swp_read_tx Hq Hs Hf _ _ tc); [exact F|]. apply swp_bind, (swp_query Hf).
  fold (stored_balance db tc (w_ID w)). rewrite Ea. apply swp_ret. rewrite <- Em in HQ'.
  destruct Hc as [[-> _]|(x & Ex & Ec)].
  - cbn [AmountCurrency New]. cbn [String.eqb]. apply swp_bind. unfold tx_wallet. apply swp_bind, swp_try.
    cbn [WalletReader_Wallet walletReaderFor]. apply swp_bind, (wallet_ByID_looks_up Hq Hs Hf _ _ F _ B). rewrite E, Eo, Ep, !N.eqb_refl.
    apply swp_ret, swp_ret, swp_ret. exact HQ'.
  - rewrite Ew in Ex. injection Ex as <-. pose proof (bk_wallet_ok db B _ _ Ew) as (_ & _ & V).
    destruct (String.eqb_spec (AmountCurrency a) "") as [Z|_]; [rewrite <- Ec, Z in V; discriminate V|].
    apply swp_ret. rewrite <- Ec in HQ'. destruct a; exact HQ'.
Qed.
End WalletSource.
