(* ===== verification/ReportTheory.v ===== *)
(** * What the reports compute

    The reads of the report module leave the database alone; the sums of the
    wallet queries are sums of transaction effects. *)
From Stdlib Require Import ZArith Lia String List.
From stdpp Require Import base gmap list strings.
From S2P Require Import Prelude GoStrings Errors Civil Money Tenant Ledger Period Wallet Category Transaction World.
From S2P Require Import LedgerService PeriodStore PeriodService Commit WalletService CategoryService TxStore TxService Report.
From S2P Require Import PeriodService PeriodTheory Books TxTheory BooksOps LedgerTheory Balance.
Local Open Scope string_scope.
Local Open Scope Z_scope.

(** ** The settings port *)
Class ReportSettingsLaws `{Env} `{ReportSettings} := {
  rs_DefaultCurrency_read cx o p : read_only (rs_DefaultCurrency cx o p);
  rs_Location_read cx o p : read_only (rs_Location cx o p);
  rs_DefaultCurrency_in_tx o p : reads_in_tx (fun cx => rs_DefaultCurrency cx o p);
  rs_Location_in_tx o p : reads_in_tx (fun cx => rs_Location cx o p)
}.

Section LedgerAsSettings.
Context `{Env, Unicode, TZDatabase}.
#[export] Instance report_settings_laws : @ReportSettingsLaws _ report_settings.
Proof.
  constructor.
  - intros cx o p R HR rely. cbn. unfold ledger_DefaultCurrency.
    apply preserves_bind; [exact _ | apply effective_read_only; assumption | intros; apply preserves_ret, _].
  - intros cx o p. exact (Location_read_only cx o p).
  - intros o p cx Hx. cbn. unfold ledger_DefaultCurrency.
    apply reads_any_bind; [apply effective_reads; left; exact Hx | intros st; apply reads_ret; auto].
  - intros o p. exact (Location_in_tx o p).
Qed.
End LedgerAsSettings.

(** ** The reads *)
Section Reads.
Context `{Env, ReportSettings, !ReportSettingsLaws}.

Section Rely.
Context (R : DB -> DB -> Prop) `{!PreOrder R}.
Hypothesis rely : forall n db, R db (env_other n db).

Lemma pres_sum_query {A} op (q : DB -> option A) : preserves (on_db R) (sum_query op q).
Proof. unfold sum_query. pres_go rely. Qed.
Lemma pres_reader_Period cx o p id : preserves (on_db R) (reader_Period cx o p id).
Proof. unfold reader_Period. pres_go rely. Qed.
Lemma pres_reader_Summary cx o p id cur s a : preserves (on_db R) (reader_Summary cx o p id cur s a).
Proof.
  unfold reader_Summary. apply preserves_bind; [exact _ | apply pres_reader_Period|]. intros ref.
  apply pres_read_tx; [exact _ | exact rely|]. intros tc.
  apply preserves_bind; [exact _ | apply pres_sum_query|]. intros [[i e] n].
  apply preserves_bind; [exact _ | apply pres_sum_query | intros; apply preserves_ret, _].
Qed.
Lemma pres_report_currency cx o p : preserves (on_db R) (report_currency cx o p).
Proof.
  unfold report_currency. apply preserves_bind; [exact _ | apply preserves_try, rs_DefaultCurrency_read; [exact _ | exact rely]|].
  intros [e|c]; first [apply preserves_err, _ | apply preserves_ret, _].
Qed.
Lemma pres_report_location cx o p : preserves (on_db R) (report_location cx o p).
Proof.
  unfold report_location. apply preserves_bind; [exact _ | apply preserves_try, rs_Location_read; [exact _ | exact rely]|].
  intros [e|[l|]]; first [apply preserves_err, _ | apply preserves_ret, _].
Qed.
Lemma pres_summaryAs cx o p id as_ : preserves (on_db R) (summaryAs cx o p id as_).
Proof.
  unfold summaryAs. apply preserves_bind; [exact _ | apply pres_report_currency|]. intros cur.
  apply preserves_bind; [exact _ | apply pres_report_location|]. intros loc.
  apply preserves_bind; [exact _ | apply preserves_try, pres_reader_Period|].
  intros [e|ref]; [apply preserves_err, _|].
  apply preserves_bind; [exact _ | apply preserves_try, pres_reader_Summary|].
  intros [e|out]; first [apply preserves_err, _ | apply preserves_ret, _].
Qed.
End Rely.

(** *** Without interference *)
Lemma reads_sum_query {A} op (q : DB -> option A) : reads (fun a db => q db = Some a) (sum_query op q).
Proof.
  unfold sum_query. eapply reads_seq; [apply (reads_of _ _ _ (reads_query _ _))|].
  intros [a|] _; [apply reads_ret | apply reads_err]; auto.
Qed.
Lemma reads_report_currency cx o p : calm cx -> reads (fun _ _ => True) (report_currency cx o p).
Proof.
  intros Hc. unfold report_currency.
  eapply reads_seq; [apply reads_try, (reads_port (fun cx => rs_DefaultCurrency cx o p)); [exact Hc | apply rs_DefaultCurrency_read | apply rs_DefaultCurrency_in_tx]|].
  intros [e|c] _; [apply reads_unexpected | apply reads_ret]; auto.
Qed.
Lemma reads_report_location cx o p : calm cx -> reads (fun _ _ => True) (report_location cx o p).
Proof.
  intros Hc. unfold report_location.
  eapply reads_seq; [apply reads_try, (reads_port (fun cx => rs_Location cx o p)); [exact Hc | apply rs_Location_read | apply rs_Location_in_tx]|].
  intros [e|[l|]] _; [apply reads_unexpected | apply reads_ret ..]; auto.
Qed.

(** The period a report names. *)
Definition report_period (tc : Tenant) (o p id : uuid) (q : Period) (db : DB) : Prop :=
  In q (rows (db_periods db)) /\ pr_ID q = id /\ pr_OrgID q = o /\ o = OrgID tc /\ pr_ProjectID q = p.
Lemma reads_reader_Period cx tc o p id : calm cx -> From_ cx = inr tc ->
  reads (fun ref db => exists q, report_period tc o p id q db /\ ref = closed_ref q) (reader_Period cx o p id).
Proof.
  intros Hc F. unfold reader_Period. apply reads_read_tx; [exact Hc | auto|].
  intros tc' F'. rewrite F in F'. injection F' as <-.
  eapply reads_seq; [apply (reads_of _ _ _ (reads_query _ _))|].
  intros [q|] _; [|apply reads_err; auto]. apply reads_ret. intros db Hf. symmetry in Hf.
  apply find_some in Hf as [Hin Hq]. rewrite !andb_true_iff, !N.eqb_eq in Hq.
  destruct Hq as [[[E1 E2] E3] E4]. exists q. split; [|reflexivity]. repeat split; congruence.
Qed.

(** A summary as the queries give it. *)
Definition summary_is (db : DB) (tc : Tenant) (p id : uuid) (currency : Currency) (startUTC : Z) (cut : option Z)
    (s : PeriodSummary) : Prop :=
  exists q income expense n moves,
    report_period tc (OrgID tc) p id q db
    /\ summaryTotals db (OrgID tc) (OrgID tc) p id currency = Some (income, expense, n)
    /\ walletLines db (OrgID tc) (OrgID tc) p id currency startUTC cut = Some moves
    /\ s = assembleSummary (closed_ref q) currency income expense n moves.

Lemma reads_reader_Summary cx tc p id cur startUTC cut : calm cx -> From_ cx = inr tc ->
  reads (fun s db => summary_is db tc p id cur startUTC cut s) (reader_Summary cx (OrgID tc) p id cur startUTC cut).
Proof.
  intros Hc F. unfold reader_Summary. eapply reads_seq; [apply (reads_reader_Period cx tc); assumption|].
  intros ref _. apply reads_read_tx; [exact Hc | auto|]. intros tc' F'. rewrite F in F'. injection F' as <-.
  eapply reads_seq; [apply reads_sum_query|]. intros [[i e] n] _.
  eapply reads_seq; [apply reads_sum_query|]. intros moves _. apply reads_ret.
  intros db Hm Ht (q & Hq & ->). exists q, i, e, n, moves. auto.
Qed.
(** A summary of the period as it is, or as [as_] makes it. *)
Lemma reads_summaryAs cx tc p id as_ : calm cx -> From_ cx = inr tc ->
  reads (fun s db => exists q cur loc, report_period tc (OrgID tc) p id q db /\
           let ref := as_ (closed_ref q) in
           summary_is db tc p id cur (In_ (ref_Start ref) loc) (ArchivedBefore ref loc) s)
    (summaryAs cx (OrgID tc) p id as_).
Proof.
  intros Hc F. unfold summaryAs. eapply reads_seq; [apply reads_report_currency, Hc|]. intros cur _.
  eapply reads_seq; [apply reads_report_location, Hc|]. intros loc _.
  eapply reads_seq; [apply reads_try, (reads_reader_Period cx tc); assumption|].
  intros [e|ref] _; [apply reads_unexpected; auto|].
  eapply reads_seq; [apply reads_try, (reads_reader_Summary cx tc); assumption|].
  intros [e|s] _; [apply reads_unexpected; auto|]. apply reads_ret.
  intros db Hs (q & Hq & ->) _ _. exists q, cur, loc. auto.
Qed.

(** ** The snapshot port is implemented *)
#[export] Instance snapshotterAdapter_laws : @SnapshotterLaws _ snapshotterAdapter.
Proof.
  constructor.
  - intros cx o p id e a R HR rely. cbn. unfold SnapshotFor.
    apply preserves_bind; [exact _ | apply pres_summaryAs; [exact _ | exact rely]|]. intros s.
    apply preserves_bind; [exact _ | apply pres_time_Now, _ | intros; apply preserves_ret, _].
  - intros o p id e a cx Hx. cbn. unfold SnapshotFor, summaryAs.
    assert (Hc : calm cx) by (left; exact Hx).
    apply reads_any_bind; [|intros s; apply reads_any_bind; [apply reads_time_Now | intros; apply reads_ret; auto]].
    apply reads_any_bind; [apply reads_report_currency, Hc|]. intros cur.
    apply reads_any_bind; [apply reads_report_location, Hc|]. intros loc.
    apply reads_any_bind; [apply reads_any_try; unfold reader_Period; reads_go Hc|].
    intros [x|ref]; [apply reads_unexpected; auto|].
    apply reads_any_bind; [apply reads_any_try|intros [x|out]; [apply reads_unexpected | apply reads_ret]; auto].
    unfold reader_Summary, reader_Period, sum_query. reads_go Hc.
Qed.
End Reads.

(** ** Sums of the union are sums of effects *)

Definition effects (ts : list Transaction) (w : uuid) : Z := sumZ (map (fun t => Minor (Effect t w)) ts).

(** One component of the union's rows of one wallet. *)
Definition union_sum (f : Transaction -> Move) (g : Transaction -> option Move) (comp : Z * Z * Z -> Z)
    (w : uuid) (ts : list Transaction) : Z :=
  sumZ (map comp (map snd (List.filter (fun m => N.eqb (fst m) w) (map f ts ++ filter_map g ts)%list))).
Definition move_part (comp : Z * Z * Z -> Z) (w : uuid) (m : Move) : Z := if N.eqb (fst m) w then comp (snd m) else 0.

Lemma union_sum_pointwise f g comp w ts :
  union_sum f g comp w ts
  = sumZ (map (fun t => move_part comp w (f t) + match g t with Some m => move_part comp w m | None => 0 end) ts).
Proof.
  unfold union_sum, move_part. rewrite List.filter_app, !map_app, sumZ_app. unfold sumZ.
  induction ts as [|t ts IH]; cbn; [reflexivity|].
  destruct (N.eqb (fst (f t)) w); cbn; destruct (g t) as [m|]; cbn; try destruct (N.eqb (fst m) w); cbn; lia.
Qed.
Lemma sumZ_ext {A} (f g : A -> Z) l : (forall x, In x l -> f x = g x) -> sumZ (map f l) = sumZ (map g l).
Proof. intros Hfg. f_equal. apply map_ext_in, Hfg. Qed.
Lemma sumZ_plus {A} (f g : A -> Z) l : sumZ (map (fun x => f x + g x) l) = sumZ (map f l) + sumZ (map g l).
Proof. unfold sumZ. induction l as [|x l IH]; cbn; lia. Qed.
Lemma sumZ_minus {A} (f g : A -> Z) l : sumZ (map (fun x => f x - g x) l) = sumZ (map f l) - sumZ (map g l).
Proof. unfold sumZ. induction l as [|x l IH]; cbn; lia. Qed.
Lemma sumZ_filter {A} (p : A -> bool) (f : A -> Z) l :
  sumZ (map f (List.filter p l)) = sumZ (map (fun x => if p x then f x else 0) l).
Proof. unfold sumZ. induction l as [|x l IH]; cbn; [reflexivity|]. destruct (p x); cbn; lia. Qed.

Lemma sumZ_nonneg l : (forall x, In x l -> 0 <= x) -> 0 <= sumZ l.
Proof.
  unfold sumZ. induction l as [|x l IH]; cbn; [lia|]. intros Hx.
  specialize (IH (fun y Hy => Hx y (or_intror Hy))). specialize (Hx x (or_introl eq_refl)). lia.
Qed.
Lemma union_sum_nonneg f g comp w ts :
  (forall t, In t ts -> 0 <= comp (snd (f t)) /\ forall m, g t = Some m -> 0 <= comp (snd m)) ->
  0 <= union_sum f g comp w ts.
Proof.
  intros Hn. rewrite union_sum_pointwise. apply sumZ_nonneg. intros x Hx. apply in_map_iff in Hx as (t & <- & Ht).
  destruct (Hn t Ht) as [H1 H2]. unfold move_part. destruct (N.eqb _ _); destruct (g t) as [m|];
    try (specialize (H2 m eq_refl)); try destruct (N.eqb (fst m) w); lia.
Qed.

(** Well-formed transactions of a currency. *)
Definition sound_tx (t : Transaction) : Prop := tx_ok t /\ in_int64 (Minor (t_Amount t)).

(** What one transaction adds to a wallet's union rows. *)
Lemma part_opening db o p id s t w : sound_tx t ->
  move_part (fun m => fst (fst m)) w (own_move db o p id s t)
    + match incoming_move db o p id s t with Some m => move_part (fun m => fst (fst m)) w m | None => 0 end
  = if prior db o p id s t then Minor (Effect t w) else 0.
Proof.
  intros [Ok Hi]. pose proof (delta_effect t w Ok Hi) as Hd. destruct Ok as (_ & _ & Hp & _).
  unfold move_part, own_move, incoming_move, own_delta, incoming_delta in *. cbn [fst snd Neg Minor] in *.
  destruct (prior db o p id s t); destruct (N.eqb (t_WalletID t) w), (IsInflow (t_Kind t));
    destruct (String.eqb (t_Kind t) TxTransfer); try destruct (t_ToWalletID t) as [to|];
    cbn [fst snd] in *; try destruct (N.eqb to w); cbn [fst snd] in *; lia.
Qed.

Lemma outflow_kinds t : tx_ok t ->
  kind_in [TxExpense; TxTransfer; TxAdjustmentOut] t = negb (IsInflow (t_Kind t)).
Proof.
  intros (Hk & _). unfold kind_in, IsInflow. cbn in Hk.
  repeat (destruct Hk as [<-|Hk]; [reflexivity|]). destruct Hk.
Qed.
(** In less out is the effect, over the rows a condition picks. *)
Lemma part_net (P : bool) (f : Transaction -> Move) (g : Transaction -> option Move) t w : sound_tx t ->
  f t = (t_WalletID t, (fst (fst (snd (f t))), if P && IsInflow (t_Kind t) then Minor (t_Amount t) else 0,
          if P && kind_in [TxExpense; TxTransfer; TxAdjustmentOut] t then Minor (t_Amount t) else 0)) ->
  g t = (if String.eqb (t_Kind t) TxTransfer then
           match t_ToWalletID t with
           | Some to => Some (to, (match g t with Some m => fst (fst (snd m)) | None => 0 end, if P then Minor (t_Amount t) else 0, 0))
           | None => None end else None) ->
  (move_part (fun m => snd (fst m)) w (f t) + match g t with Some m => move_part (fun m => snd (fst m)) w m | None => 0 end)
  - (move_part snd w (f t) + match g t with Some m => move_part snd w m | None => 0 end)
  = if P then Minor (Effect t w) else 0.
Proof.
  intros [Ok Hi] -> ->. pose proof (delta_effect t w Ok Hi) as Hd. rewrite (outflow_kinds t Ok).
  destruct Ok as (_ & _ & Hp & _).
  unfold move_part, own_delta, incoming_delta in *. cbn [fst snd Neg Minor] in *.
  destruct P, (N.eqb (t_WalletID t) w), (IsInflow (t_Kind t)); destruct (String.eqb (t_Kind t) TxTransfer);
    try destruct (t_ToWalletID t) as [to|]; cbn [fst snd andb negb] in *; try destruct (N.eqb to w);
    cbn [fst snd] in *; lia.
Qed.

(** The sums of one wallet's rows. *)
Lemma wallet_movement_inv moves w m : wallet_movement moves w = Some m ->
  let rows := map snd (List.filter (fun x => N.eqb (fst x) (w_ID w)) moves) in
  m = mkMovement (w_ID w) (w_Name w) (w_Kind w) (w_ExcludeFromTotal w)
        (sumZ (map (fun x => fst (fst x)) rows)) (sumZ (map (fun x => snd (fst x)) rows)) (sumZ (map snd rows))
  /\ in_int64 (wm_Opening m) /\ in_int64 (wm_In m) /\ in_int64 (wm_Out m).
Proof.
  unfold wallet_movement. intros Hm. cbn zeta in Hm |- *.
  destruct (sql_sum (map (fun x => fst (fst x)) _)) as [so|] eqn:Eo; [|discriminate].
  destruct (sql_sum (map (fun x => snd (fst x)) _)) as [si|] eqn:Ei; [|discriminate].
  destruct (sql_sum (map snd _)) as [su|] eqn:Eu; [|discriminate]. injection Hm as <-.
  apply sql_sum_sum in Eo as [-> Ho]. apply sql_sum_sum in Ei as [-> Hi]. apply sql_sum_sum in Eu as [-> Hu].
  auto.
Qed.

(** A period's movement of a wallet: the effects before it, and within it. *)
Lemma period_movement db o p id s w ts m :
  (forall t, In t ts -> sound_tx t) ->
  wallet_movement (map (own_move db o p id s) ts ++ filter_map (incoming_move db o p id s) ts)%list w = Some m ->
  wm_Opening m = effects (List.filter (prior db o p id s) ts) (w_ID w)
  /\ wm_In m - wm_Out m = effects (List.filter (of_period id) ts) (w_ID w)
  /\ in_int64 (wm_Opening m) /\ in_int64 (wm_In m) /\ in_int64 (wm_Out m).
Proof.
  intros Hok Hm. apply wallet_movement_inv in Hm as (E & Ro & Ri & Ru). rewrite E in Ro, Ri, Ru |- *. cbn in *.
  change (sumZ (map (fun x => fst (fst x)) (map snd (List.filter (fun m => N.eqb (fst m) (w_ID w)) _))))
    with (union_sum (own_move db o p id s) (incoming_move db o p id s) (fun x => fst (fst x)) (w_ID w) ts) in *.
  change (sumZ (map (fun x => snd (fst x)) (map snd (List.filter (fun m => N.eqb (fst m) (w_ID w)) _))))
    with (union_sum (own_move db o p id s) (incoming_move db o p id s) (fun x => snd (fst x)) (w_ID w) ts) in *.
  change (sumZ (map snd (map snd (List.filter (fun m => N.eqb (fst m) (w_ID w)) _))))
    with (union_sum (own_move db o p id s) (incoming_move db o p id s) snd (w_ID w) ts) in *.
  split; [|split; [|auto]].
  - rewrite union_sum_pointwise. unfold effects. rewrite sumZ_filter. apply sumZ_ext.
    intros t Ht. apply part_opening, Hok, Ht.
  - rewrite !union_sum_pointwise, <- sumZ_minus. unfold effects. rewrite sumZ_filter. apply sumZ_ext.
    intros t Ht. apply (part_net (of_period id t) (own_move db o p id s) (incoming_move db o p id s) t (w_ID w) (Hok t Ht)).
    + reflexivity.
    + unfold incoming_move. destruct (String.eqb _ _); [|reflexivity]. destruct (t_ToWalletID t); reflexivity.
Qed.
(** A wallet's movement over all time. *)
Lemma total_movement w ts m :
  (forall t, In t ts -> sound_tx t) ->
  wallet_movement (map own_total ts ++ filter_map incoming_total ts)%list w = Some m ->
  wm_Opening m = 0 /\ wm_In m - wm_Out m = effects ts (w_ID w)
  /\ in_int64 (wm_In m - wm_Out m) /\ in_int64 (wm_In m).
Proof.
  intros Hok Hm. apply wallet_movement_inv in Hm as (E & _ & Ri & Ru). rewrite E in Ri, Ru |- *. cbn in *.
  change (sumZ (map (fun x => fst (fst x)) (map snd (List.filter (fun m => N.eqb (fst m) (w_ID w)) _))))
    with (union_sum own_total incoming_total (fun x => fst (fst x)) (w_ID w) ts) in *.
  change (sumZ (map (fun x => snd (fst x)) (map snd (List.filter (fun m => N.eqb (fst m) (w_ID w)) _))))
    with (union_sum own_total incoming_total (fun x => snd (fst x)) (w_ID w) ts) in *.
  change (sumZ (map snd (map snd (List.filter (fun m => N.eqb (fst m) (w_ID w)) _))))
    with (union_sum own_total incoming_total snd (w_ID w) ts) in *.
  assert (Hpos : forall comp, In comp [(fun x => snd (fst x)); snd] ->
    0 <= union_sum own_total incoming_total comp (w_ID w) ts).
  { intros comp Hc. apply union_sum_nonneg. intros t Ht. destruct (Hok t Ht) as [(_ & _ & Hp & _) _].
    unfold own_total, incoming_total. cbn in Hc.
    destruct Hc as [<-|[<-|[]]]; cbn [fst snd]; (split; [destruct (IsInflow (t_Kind t)), (kind_in [TxExpense; TxTransfer; TxAdjustmentOut] t); lia|]);
      intros mv; destruct (String.eqb _ _); try discriminate; destruct (t_ToWalletID t); try discriminate;
      intros [= <-]; cbn [fst snd]; lia. }
  split; [|split; [|split; [|exact Ri]]].
  3: { pose proof (Hpos _ (or_introl eq_refl)). pose proof (Hpos _ (or_intror (or_introl eq_refl))).
       unfold in_int64, min_int64, max_int64 in *. lia. }
  - rewrite union_sum_pointwise. transitivity (sumZ (map (fun _ : Transaction => 0) ts)).
    + apply sumZ_ext. intros t _. unfold move_part, own_total, incoming_total. cbn [fst snd].
      destruct (N.eqb _ _); destruct (String.eqb _ _); try destruct (t_ToWalletID t); cbn [fst snd];
        try destruct (N.eqb _ _); reflexivity.
    + clear. unfold sumZ. induction ts as [|t ts IH]; cbn; [reflexivity | exact IH].
  - rewrite !union_sum_pointwise, <- sumZ_minus. unfold effects. apply sumZ_ext.
    intros t Ht. apply (part_net true own_total incoming_total t (w_ID w) (Hok t Ht)).
    + reflexivity.
    + unfold incoming_total. destruct (String.eqb _ _); [|reflexivity]. destruct (t_ToWalletID t); reflexivity.
Qed.
