(* ===== verification/Edits.v ===== *)
(** * The edits of wallets and categories, run alone

    Each edit reads one row, applies one domain operation to it and stores the
    result over it: what a success stores, and that a failure stores nothing. *)
From Stdlib Require Import ZArith Lia String List.
From stdpp Require Import base gmap list strings.
From S2P Require Import Prelude GoStrings Errors Civil Money Tenant Ledger Period Wallet Category Transaction World.
From S2P Require Import Commit PeriodStore WalletService CategoryService TxStore TxService Books TxTheory BooksOps CategoryTheory.
Local Open Scope string_scope.

Lemma set_wallets_same db id w : db_wallets db !! id = Some w -> set_wallets (<[id := w]> (db_wallets db)) db = db.
Proof. intros Hw. rewrite insert_id by exact Hw. destruct db; reflexivity. Qed.

(** ** Wallets *)
Inductive WalletEdit :=
| WUpdate (kind provider : string) (exclude : bool)
| WEdit (name kind provider : string) (exclude : bool)
| WRename (name : string)
| WArchive
| WUnarchive.

(** The domain operation of an edit. *)
Definition wallet_edited (e : WalletEdit) (w : Wallet) (now : Z) : WalletError + Wallet :=
  match e with
  | WUpdate k p x => Wallet_Update w k p x now
  | WEdit n k p x => Wallet_Edit w n k p x now
  | WRename n => Wallet_Rename w n now
  | WArchive => inr (Wallet_Archive w now)
  | WUnarchive => inr (Wallet_Unarchive w now)
  end.

Lemma wallet_edited_mutates e w now w' : wallet_edited e w now = inr w' -> wallet_mutates w w'.
Proof.
  destruct e; simpl.
  - apply Wallet_Update_mutates.
  - apply Wallet_Edit_mutates.
  - apply Wallet_Rename_mutates.
  - intros [= <-]. apply Wallet_Archive_mutates.
  - intros [= <-]. apply Wallet_Unarchive_mutates.
Qed.

Section WalletEdits.
Context `{Env, Mirror, !MirrorLaws, Uow}.
Hypothesis uow_tx : uow = run_in_tx.

Definition run_wallet_edit (cx : Ctx) (id : uuid) (e : WalletEdit) : M Wallet :=
  match e with
  | WUpdate k p x => wallet_Update cx id k p x
  | WEdit n k p x => wallet_Edit cx id n k p x
  | WRename n => wallet_Rename cx id n
  | WArchive => wallet_Archive cx id
  | WUnarchive => wallet_Unarchive cx id
  end.

(** The edit [e] of the caller's wallet [id], stored over it. *)
Definition wallet_edit_effect (cx : Ctx) (id : uuid) (e : WalletEdit) : Wallet -> DB -> DB -> Prop :=
  wallet_changed cx id (fun w0 w => wallet_mutates w0 w /\ exists now, wallet_edited e w0 now = inr w).

Lemma commits_unless_done cx id op (done : Wallet -> bool) (act : Wallet -> Z -> Wallet) (e : WalletEdit) : quiet ->
  (forall w now, wallet_edited e w now = inr (act w now)) -> (forall w now, done w = true -> act w now = w) ->
  commits (wallet_edit_effect cx id e)
    (let* w := wallet_ByID cx id in
     if done w then st_ret w else
     let* now := time_Now in
     let w := act w now in
     wallet_save cx w op false ;;; st_ret w).
Proof.
  intros Hq He Hd. assert (Hc : calm cx) by (right; exact Hq). destruct (From_ cx) as [x|tc] eqn:F.
  { split; [intros w a | intros w _]; unfold wallet_ByID, from_tenant; rewrite F; [discriminate | reflexivity]. }
  eapply commits_read_bind; [apply (reads_wallet_ByID cx tc id Hc F)|]. intros w0 _.
  destruct (done w0) eqn:D.
  - split; [|reflexivity]. intros v w. simpl. intros [= <-] (Hw & O & P). exists tc, w0.
    split; [exact F|]. do 3 (split; [assumption|]). split.
    + split; [repeat (split; [reflexivity|]); exact (fun Ok => Ok)|]. exists 0%Z. rewrite He, Hd by exact D. reflexivity.
    + rewrite (set_wallets_same _ id w0 Hw). auto.
  - eapply commits_read_bind; [apply reads_time_Now|]. intros now _.
    eapply commits_conseq; [apply (commits_wallet_save uow_tx cx id tc w0 (act w0 now) op false (act w0 now)
      (fun w0 w => wallet_mutates w0 w /\ exists now, wallet_edited e w0 now = inr w) Hq F
      (wallet_edited_mutates e w0 now _ (He w0 now)))|].
    + split; [exact (wallet_edited_mutates e w0 now _ (He w0 now)) | exists now; apply He].
    + intros r db db' HP _ Hw. destruct (HP Hw) as [-> HC]. exact HC.
Qed.

Lemma commits_wallet_edit cx id e : quiet -> commits (wallet_edit_effect cx id e) (run_wallet_edit cx id e).
Proof.
  intros Hq.
  assert (Hm : forall w now w', wallet_edited e w now = inr w' ->
      wallet_mutates w w' /\ (wallet_mutates w w' /\ exists now, wallet_edited e w now = inr w')).
  { intros w now w' E. pose proof (wallet_edited_mutates e w now w' E). eauto. }
  destruct e as [k p x|n k p x|n| |]; simpl run_wallet_edit.
  - exact (commits_wallet_update uow_tx cx id "wallet.Update" (fun _ _ => false) _ _ Hq Hm).
  - exact (commits_wallet_update uow_tx cx id "wallet.Edit" (fun w w' => negb (String.eqb (w_Name w') (w_Name w))) _ _ Hq Hm).
  - exact (commits_wallet_update uow_tx cx id "wallet.Rename" (fun w w' => negb (String.eqb (w_Name w') (w_Name w))) _ _ Hq Hm).
  - apply (commits_unless_done cx id "wallet.Archive" Wallet_IsArchived Wallet_Archive); [exact Hq | reflexivity|].
    intros w now D. unfold Wallet_Archive. rewrite D. reflexivity.
  - apply (commits_unless_done cx id "wallet.Unarchive" (fun w => negb (Wallet_IsArchived w)) Wallet_Unarchive);
      [exact Hq | reflexivity|].
    intros w now D. unfold Wallet_Unarchive. rewrite D. reflexivity.
Qed.
End WalletEdits.

(** ** Categories *)
Inductive CategoryEdit :=
| CRename (name : string)
| CUpdate (icon color : string)
| CArchive
| CUnarchive.

Section CategoryEdits.
Context `{Env, Unicode, Mirror, !MirrorLaws, Uow, Namer}.
Hypothesis uow_tx : uow = run_in_tx.

Definition category_edited (e : CategoryEdit) (c : Category) (now : Z) : CategoryError + Category :=
  match e with
  | CRename n => Category_Rename c n now
  | CUpdate i k => Category_Update c i k now
  | CArchive => inr (Category_Archive c now)
  | CUnarchive => inr (Category_Unarchive c now)
  end.

Lemma category_edited_mutates e c now c' : category_edited e c now = inr c' -> category_mutates c c'.
Proof.
  destruct e; simpl.
  - apply Category_Rename_mutates.
  - apply Category_Update_mutates.
  - intros [= <-]. apply Category_Archive_mutates.
  - intros [= <-]. apply Category_Unarchive_mutates.
Qed.

Definition run_category_edit (cx : Ctx) (id : uuid) (e : CategoryEdit) : M Category :=
  match e with
  | CRename n => category_Rename cx id n
  | CUpdate i k => category_Update cx id i k
  | CArchive => category_Archive cx id
  | CUnarchive => category_Unarchive cx id
  end.

Definition category_edit_effect (cx : Ctx) (id : uuid) (e : CategoryEdit) : Category -> DB -> DB -> Prop :=
  category_changed cx id (fun c0 c => category_mutates c0 c /\ exists now, category_edited e c0 now = inr c).

Lemma commits_category_edit cx id e : quiet -> commits (category_edit_effect cx id e) (run_category_edit cx id e).
Proof.
  intros Hq.
  assert (Hm : forall c now c', category_edited e c now = inr c' ->
      category_mutates c c' /\ (category_mutates c c' /\ exists now, category_edited e c now = inr c')).
  { intros c now c' E. pose proof (category_edited_mutates e c now c' E). eauto. }
  destruct e as [n|i k| |]; simpl run_category_edit.
  - exact (commits_category_update uow_tx cx id "category.Rename" (fun c c' => negb (String.eqb (c_Name c') (c_Name c))) _ _ Hq Hm).
  - exact (commits_category_update uow_tx cx id "category.Update" (fun _ _ => false) _ _ Hq Hm).
  - exact (commits_category_update uow_tx cx id "category.Archive" (fun _ _ => false) _ _ Hq Hm).
  - exact (commits_category_update uow_tx cx id "category.Unarchive" (fun _ _ => false) _ _ Hq Hm).
Qed.
End CategoryEdits.
