(* ===== verification/System.v ===== *)
(** * The whole ledger: every operation of its services, in any order

    The services of the periods, wallets, categories and transactions over one
    database, wired as the composition root wires them. What every operation
    keeps when other sessions run the same operations, and what the stale
    updates of wallets and categories keep when they run alone. *)
From Stdlib Require Import ZArith Lia String List.
From stdpp Require Import base gmap list strings.
From S2P Require Import Prelude GoStrings Errors Civil Money Tenant Ledger Period Wallet Category Transaction World.
From S2P Require Import LedgerService PeriodStore PeriodService PeriodTheory PeriodProps Commit WalletService CategoryService.
From S2P Require Import TxStore TxService Books TxTheory BooksOps CategoryTheory LedgerTheory Edits Adapters.
Local Open Scope string_scope.

(** ** The periods and settings statements keep the books *)
Definition keeps_books (db db' : DB) : Prop := Books db -> Books db'.
#[export] Instance keeps_books_pre : PreOrder keeps_books.
Proof. split; [intros db; exact id | intros a b c F G B; apply G, F, B]. Qed.

Lemma Books_same db db' : Books db -> db_wallets db' = db_wallets db -> db_categories db' = db_categories db ->
  db_periods db' = db_periods db -> db_txs db' = db_txs db -> Books db'.
Proof.
  intros B EW EC EP ET. split; rewrite ?EW, ?EC, ?EP, ?ET; try apply B.
  intros i t Ht. eapply tx_booked_keeps; [|exact (bk_tx db B i t Ht)]. split; rewrite ?EW, ?EC, ?EP; eauto 10.
Qed.

Lemma period_upsert_books tc p db db' n : period_upsert tc p db = inr (db', n) -> keeps_books db db'.
Proof.
  unfold period_upsert. intros U B. destruct (period_check p); [discriminate|].
  destruct (db_periods db !! pr_ID p) as [old|] eqn:E.
  - destruct (_ && _)%bool; [|injection U as <- _; exact B].
    destruct (current_conflict db _); [discriminate|]. injection U as <- _.
    pose proof (bk_period_key db B _ _ E) as K. rewrite <- K at 1.
    apply (Books_put_period db (updated_period old p) B). cbn [updated_period pr_ID pr_OrgID pr_ProjectID].
    rewrite K. intros o Ho. rewrite E in Ho. injection Ho as <-. auto.
  - destruct (current_conflict db p); [discriminate|]. destruct (period_scope_fk db p); [|discriminate].
    injection U as <- _. apply Books_put_period; [exact B | congruence].
Qed.
Lemma insert_current_books p db db' n : period_insert_current p db = inr (db', n) -> keeps_books db db'.
Proof.
  unfold period_insert_current. intros U B. destruct (period_check p); [discriminate|].
  destruct (_ && _)%bool; [injection U as <- _; exact B|].
  destruct (db_periods db !! pr_ID p) eqn:E; [discriminate|]. destruct (period_scope_fk db p); [|discriminate].
  injection U as <- _. apply Books_put_period; [exact B | congruence].
Qed.
Lemma closing_insert_books c db db' n : closing_insert c db = inr (db', n) -> keeps_books db db'.
Proof.
  unfold closing_insert. intros U B. destruct (negb _); [discriminate|]. destruct (db_closings db !! _); [discriminate|].
  destruct (_ && _)%bool; [|discriminate]. injection U as <- _. eapply Books_same; [exact B | reflexivity ..].
Qed.
Lemma ledger_upsert_same tc st db db' n : ledger_upsert tc st db = inr (db', n) -> exists m, db' = set_ledger m db.
Proof.
  unfold ledger_upsert. destruct (negb _); [discriminate|]. destruct (negb _); [discriminate|].
  destruct (db_ledger db !! _); [destruct (N.eqb _ _)|destruct (_ && _)%bool]; try discriminate;
    intros [= <- _]; eauto. exists (db_ledger db). destruct db; reflexivity.
Qed.

(** ** The periods operations keep the books, whatever the others do *)
Section PeriodsKeepBooks.
Context `{Env, SettingsReader, Snapshotter, !SettingsReaderLaws, !SnapshotterLaws}.
Hypothesis rely : forall n db, keeps_books db (env_other n db).

Lemma Save_books cx p : preserves (on_db keeps_books) (period_Save cx p).
Proof.
  unfold period_Save. apply pres_write_tx; [exact _ | exact rely|]. intros tc _.
  apply pres_exec_save; [exact _|]. intros db db' n. apply period_upsert_books.
Qed.
Lemma CreateCurrent_books cx p : preserves (on_db keeps_books) (period_CreateCurrent cx p).
Proof.
  unfold period_CreateCurrent. apply pres_write_tx; [exact _ | exact rely|]. intros tc _.
  destruct (negb _); [apply preserves_err, _|].
  apply preserves_bind; [exact _ | apply preserves_maperr, pres_exec_stmt; [exact _|] | intros; apply preserves_ret, _].
  intros db db' n. apply insert_current_books.
Qed.
Lemma SaveClosing_books cx c : preserves (on_db keeps_books) (period_SaveClosing cx c).
Proof.
  unfold period_SaveClosing. apply pres_write_tx; [exact _ | exact rely|]. intros tc _.
  destruct (negb _); [apply preserves_err, _|].
  apply preserves_bind; [exact _ | apply preserves_try, pres_exec_stmt; [exact _|] |].
  - intros db db' n. apply closing_insert_books.
  - intros r. pres_go rely.
Qed.
Lemma Location_books cx o p : preserves (on_db keeps_books) (sr_Location cx o p).
Proof. apply sr_Location_read; [exact _ | exact rely]. Qed.
Lemma StartDay_books cx o p : preserves (on_db keeps_books) (sr_StartDay cx o p).
Proof. apply sr_StartDay_read; [exact _ | exact rely]. Qed.
Lemma Snapshot_books cx o p id e a : preserves (on_db keeps_books) (snap_Snapshot cx o p id e a).
Proof. apply snap_read; [exact _ | exact rely]. Qed.

Ltac books_go :=
  repeat first [ apply Save_books | apply CreateCurrent_books | apply SaveClosing_books
    | apply Location_books | apply StartDay_books | apply Snapshot_books | pres_step rely ].

Lemma EnsureCurrent_books cx : preserves (on_db keeps_books) (EnsureCurrent cx).
Proof.
  unfold EnsureCurrent, period_store_Current, period_queryOne, cycle, location, currentAfterRace,
    period_store_Current, period_queryOne. books_go.
Qed.
Lemma Rename_books cx id name : preserves (on_db keeps_books) (Rename cx id name).
Proof. unfold Rename, scoped, scopedRow, period_store_ByID, period_queryOne. books_go. Qed.
Lemma Reopen_books cx id : preserves (on_db keeps_books) (Reopen cx id).
Proof. unfold Reopen, scoped, scopedRow, period_store_ByID, period_queryOne, period_store_List. books_go. Qed.
Lemma Close_books cx id end_ by_ : preserves (on_db keeps_books) (Close cx id end_ by_).
Proof.
  unfold Close, closable, scoped, scopedRow, period_store_ByID, period_queryOne, checkClosable, location.
  apply preserves_bind; [exact _ | books_go|]. intros tc. apply preserves_bind; [exact _ | books_go|]. intros _.
  apply preserves_bind; [exact _ | books_go|]. intros now. apply preserves_bind; [exact _ | | intros [[e []]|c]; books_go].
  apply preserves_try, pres_RunInTx; [exact _ | exact rely|].
  unfold close_body, closableLocked, scopedLocked, scopedRow, period_store_ByIDLocked, period_store_ByID,
    period_queryOne, checkClosable, location. books_go.
Qed.
Lemma period_op_books cx op : preserves (on_db keeps_books) (run_period_op cx op).
Proof.
  destruct op; simpl; [apply EnsureCurrent_books | apply Rename_books | apply Close_books | apply Reopen_books].
Qed.
End PeriodsKeepBooks.

(** ** Operations, sessions and what a commit may do *)

(** The operations whose every commit is decided inside a unit of work, and the periods'. *)
Inductive LedgerOp :=
| OpPeriod (op : PeriodOp)
| OpSettings (p : Patch)
| OpRecord (i : RecordInput)
| OpRecordBatch (ins : list RecordInput)
| OpRevise (id : uuid) (p : RevisePatch)
| OpDeleteTx (id : uuid)
| OpAdjust (walletID : uuid) (target : Amount) (at_ : Z) (by_ : uuid)
| OpOpenWallet (p : WalletParams) (opening : option Amount) (at_ : Z)
| OpCreateWallet (p : WalletParams)
| OpDeleteWallet (id : uuid)
| OpDeleteCategory (id : uuid).

(** The operations that do not touch periods or settings. *)
Definition entry_op (op : LedgerOp) : bool := match op with OpPeriod _ | OpSettings _ => false | _ => true end.

(** The operations that write back a row they read, or a list they read, outside their unit of work. *)
Inductive EditOp :=
| OpWalletEdit (id : uuid) (e : WalletEdit)
| OpCategoryEdit (id : uuid) (e : CategoryEdit)
| OpCreateCategory (name kind icon color : string)
| OpSeedDefaults.

(** What any commit may do when other sessions are about. *)
Definition sys_step (db db' : DB) : Prop := keeps_books db db' /\ guar db db'.
#[export] Instance sys_step_pre : PreOrder sys_step.
Proof. split; [split; reflexivity | intros a b c [K1 G1] [K2 G2]; split; etransitivity; eauto]. Qed.
Lemma ledger_sys db db' : ledger_step db db' -> sys_step db db'.
Proof. intros [B G]. split; [intros Bd; apply B, Bd | exact G]. Qed.

Section Sessions.
Context `{Env, Unicode, TZDatabase, Mirror, !MirrorLaws, Uow, Snapshotter, !SnapshotterLaws, Namer}.

Definition run_ledger_op (cx : Ctx) (op : LedgerOp) (w : World) : World :=
  match op with
  | OpPeriod op => snd (run_period_op cx op w)
  | OpSettings p => snd (ledger_Update cx p w)
  | OpRecord i => snd (Record_ cx i w)
  | OpRecordBatch ins => snd (RecordBatch cx ins w)
  | OpRevise id p => snd (Revise cx id p w)
  | OpDeleteTx id => snd (tx_Delete cx id w)
  | OpAdjust walletID target at_ by_ => snd (Adjust cx walletID target at_ by_ w)
  | OpOpenWallet p opening at_ => snd (OpenWorkflow_Run cx p opening at_ w)
  | OpCreateWallet p => snd (wallet_Create cx p w)
  | OpDeleteWallet id => snd (wallet_Delete cx id w)
  | OpDeleteCategory id => snd (category_Delete cx id w)
  end.
Definition run_edit_op (cx : Ctx) (op : EditOp) (w : World) : World :=
  match op with
  | OpWalletEdit id e => snd (run_wallet_edit cx id e w)
  | OpCategoryEdit id e => snd (run_category_edit cx id e w)
  | OpCreateCategory name kind icon color => snd (category_Create cx name kind icon color w)
  | OpSeedDefaults => snd (SeedDefaults cx w)
  end.

(** Operations one after the other, each in its own request, their outcomes dropped. *)
Fixpoint session {Op : Type} (run : Ctx -> Op -> World -> World) (ops : list (Ctx * Op)) (w : World) : World :=
  match ops with
  | [] => w
  | (cx, op) :: rest => session run rest (run cx op w)
  end.
Definition ledger_session : list (Ctx * LedgerOp) -> World -> World := session run_ledger_op.
Definition run_any (cx : Ctx) (op : LedgerOp + EditOp) : World -> World :=
  match op with inl op => run_ledger_op cx op | inr op => run_edit_op cx op end.
Definition any_session : list (Ctx * (LedgerOp + EditOp)) -> World -> World := session run_any.

Hypothesis uow_tx : uow = run_in_tx.
Hypothesis fresh : fresh_ids.

(** Every entry operation, under any rules that allow a [ledger_step]. *)
Lemma entry_op_step (R : DB -> DB -> Prop) `{!PreOrder R} cx op w :
  (forall db db', ledger_step db db' -> R db db') -> (forall n db, R db (env_other n db)) ->
  entry_op op = true -> R (W_db w) (W_db (run_ledger_op cx op w)).
Proof.
  intros sub rely He. destruct op; try discriminate He; simpl.
  - apply (Record_step uow_tx fresh R sub rely).
  - apply (RecordBatch_step uow_tx fresh R sub rely).
  - apply (Revise_step uow_tx R sub rely).
  - apply (tx_Delete_step uow_tx R sub rely).
  - apply (Adjust_step uow_tx fresh R _ _ _ _ _ sub rely).
  - pose proof (transactions_opening_laws fresh). apply (OpenWorkflow_step uow_tx fresh R _ _ _ _ sub rely).
  - apply (wallet_Create_step uow_tx R _ _ fresh sub rely).
  - apply (wallet_Delete_step uow_tx R _ _ sub rely).
  - apply (category_Delete_step uow_tx R _ _ sub rely).
Qed.

Lemma settings_step (R : DB -> DB -> Prop) `{!PreOrder R} cx p :
  (forall m db, R db (set_ledger m db)) -> (forall n db, R db (env_other n db)) ->
  preserves (on_db R) (ledger_Update cx p).
Proof.
  intros Hs rely. unfold ledger_Update.
  assert (Sv : forall st, preserves (on_db R) (ledger_Save cx st)).
  { intros st. unfold ledger_Save. apply pres_write_tx; [exact _ | exact rely|]. intros tc _.
    apply pres_exec_save; [exact _|]. intros db db' n U. apply ledger_upsert_same in U as [m ->]. apply Hs. }
  repeat first [apply Sv | apply effective_read_only; [exact _ | exact rely] | pres_step rely].
Qed.

Lemma ledger_op_step cx op w : (forall n db, sys_step db (env_other n db)) ->
  Chain (W_db w) -> sys_step (W_db w) (W_db (run_ledger_op cx op w)).
Proof.
  intros rely Hc.
  assert (RB : forall n db, keeps_books db (env_other n db)) by (intros; apply rely).
  assert (RG : forall n db, guar db (env_other n db)) by (intros; apply rely).
  destruct (entry_op op) eqn:E; [apply (entry_op_step sys_step); [exact ledger_sys | exact rely | exact E]|].
  destruct op; try discriminate E; simpl.
  - split; [apply (period_op_books RB) | apply (run_period_op_guar RG fresh), Hc].
  - split; [apply (settings_step keeps_books) | apply (settings_step guar)]; auto.
    + intros m db B. eapply Books_same; [exact B | reflexivity ..].
    + intros m db. apply guar_same. reflexivity.
Qed.

Lemma ledger_session_step ops : forall w, (forall n db, sys_step db (env_other n db)) ->
  Chain (W_db w) -> sys_step (W_db w) (W_db (ledger_session ops w)).
Proof.
  induction ops as [|[cx op] ops IH]; intros w rely Hc; [reflexivity|]. cbn [ledger_session session].
  pose proof (ledger_op_step cx op w rely Hc) as G. etransitivity; [exact G | apply IH; [exact rely | apply G, Hc]].
Qed.

(** *** Alone *)
Definition sound (db : DB) : Prop := Books db /\ Chain db.

Lemma commits_sound {E A} (m : ST World E A) Q w : commits Q m ->
  (forall a db db', Q a db db' -> sound db -> sound db') -> sound (W_db w) -> sound (W_db (snd (m w))).
Proof.
  intros [HA HB] Hq Hs. specialize (HA w). specialize (HB w). destruct (m w) as [[a|e|p] w1]; simpl in *.
  - eapply Hq; eauto.
  - rewrite HB; [exact Hs | discriminate].
  - rewrite HB; [exact Hs | discriminate].
Qed.
Lemma step_sound db db' : sys_step db db' -> sound db -> sound db'.
Proof. intros [K G] [B C]. split; [apply K, B | apply G, C]. Qed.

Lemma edit_op_sound cx op w : quiet -> sound (W_db w) -> sound (W_db (run_edit_op cx op w)).
Proof.
  intros Hq. destruct op as [id e|id e|name kind icon color|]; simpl.
  - apply (commits_sound _ _ _ (commits_wallet_edit uow_tx cx id e Hq)).
    intros w' db db' (tc & w0 & _ & _ & _ & _ & _ & He) [B C]. destruct (He B) as [-> B']. split; [exact B'|].
    apply (guar_same db); [reflexivity | exact C].
  - apply (commits_sound _ _ _ (commits_category_edit uow_tx cx id e Hq)).
    intros c' db db' (tc & c0 & _ & _ & _ & _ & _ & He) [B C]. destruct (He B) as [-> B']. split; [exact B'|].
    apply (guar_same db); [reflexivity | exact C].
  - apply (commits_sound _ _ _ (commits_category_Create uow_tx cx name kind icon color Hq fresh)).
    intros c db db' (tc & order & _ & _ & _ & _ & _ & _ & _ & _ & _ & _ & Hs). apply step_sound, ledger_sys, Hs.
  - apply step_sound, ledger_sys, (SeedDefaults_step uow_tx cx Hq fresh).
Qed.
Lemma any_session_sound ops : quiet -> forall w, sound (W_db w) -> sound (W_db (any_session ops w)).
Proof.
  intros Hq. induction ops as [|[cx op] ops IH]; intros w Hs; [exact Hs|]. apply IH.
  destruct op as [op|op]; cbn [run_any]; [|apply edit_op_sound; assumption].
  eapply step_sound; [apply ledger_op_step; [intros n db; rewrite Hq; reflexivity | apply Hs] | exact Hs].
Qed.

Lemma entry_session_frozen ops : (forall n db, ledger_step db (env_other n db)) -> forall w,
  forallb (fun co => entry_op (snd co)) ops = true -> ledger_step (W_db w) (W_db (ledger_session ops w)).
Proof.
  intros rely. induction ops as [|[cx op] ops IH]; intros w He; [reflexivity|].
  cbn [forallb snd] in He. apply andb_true_iff in He as [Ha Hb]. cbn [ledger_session session].
  etransitivity; [apply (entry_op_step ledger_step cx op w (fun _ _ S => S) rely Ha) | apply IH, Hb].
Qed.
End Sessions.
