(* ===== verification/LedgerProps.v ===== *)
(** * The properties of the ledger

    Sessions of the whole ledger, alone and beside others, keep its books and its
    closed periods; the demo system the witnesses run. *)
From Stdlib Require Import ZArith Lia String List.
From stdpp Require Import base gmap list strings.
From S2P Require Import Prelude GoStrings Errors Civil Money Tenant Ledger Period Wallet Category Transaction World.
From S2P Require Import LedgerService PeriodStore PeriodService PeriodTheory PeriodProps Commit WalletService CategoryService.
From S2P Require Import TxStore TxService Books TxTheory BooksOps CategoryTheory LedgerTheory Edits Adapters Balance System.
Local Open Scope string_scope.
Local Open Scope Z_scope.

(** ** The demo system: the wired services over the demo environment *)
Definition demo_uow : Uow := run_in_tx.
Definition demo_namer : Namer := None.
Definition cash : WalletParams := mkWalletParams " Cash " "cash" "" "idr" false.
Definition demo_input (wallet : uuid) (kind : string) (minor : Z) : RecordInput :=
  mkRecordInput wallet None kind (New minor IDR) None None " lunch " (1709942400 * 1000000000)%Z.

Section Demo.
Context (E : Env).
Definition demo_ledger_session (ops : list (Ctx * LedgerOp)) (w : World) : World :=
  @ledger_session E demo_unicode demo_tz nopMirror demo_uow (@demo_snapshotter E) ops w.
Definition demo_any_session (ops : list (Ctx * (LedgerOp + EditOp))) (w : World) : World :=
  @any_session E demo_unicode demo_tz nopMirror demo_uow (@demo_snapshotter E) demo_namer ops w.
Definition demo_settings : SettingsReader := @ledger_settings E demo_tz.
Definition demo_settings_laws : @SettingsReaderLaws E demo_settings := @ledger_settings_laws E demo_tz.
Definition demo_record (i : RecordInput) : @M Transaction :=
  @Record_ E nopMirror demo_uow (@walletReaderFor E) (@categoryReaderFor E)
    (@periodResolverAdapter E demo_settings) demo_cx i.
End Demo.

Definition demo_ledger_ops : list (Ctx * LedgerOp) :=
  [ (demo_cx, OpOpenWallet cash (Some (New 500 IDR)) (1709942400 * 1000000000)) ].
Definition opened_world : World := demo_ledger_session demo_env demo_ledger_ops demo_world.

(** Another session records into the demo wallet whenever a transaction is about to begin. *)
Definition busy_env : Env := {|
  env_uuid := fun _ db => demo_fresh db;
  env_now := fun _ => (1709942400 * 1000000000)%Z;
  env_fault := fun _ => None;
  env_other := fun n db => W_db (snd (demo_record demo_env (demo_input 100 "expense" 7) (mkWorld db n)));
  env_sheet := fun _ s => s
|}.

Lemma busy_step n db : ledger_step db (@env_other busy_env n db).
Proof.
  exact (@Record_step demo_env nopMirror nopMirror_laws demo_uow _ _ _
    walletReaderFor_laws categoryReaderFor_laws (@periodResolverAdapter_laws demo_env (demo_settings demo_env) (demo_settings_laws demo_env))
    eq_refl demo_fresh_ids ledger_step ledger_step_pre (fun _ _ S => S)
    (fun _ db => ledger_step_pre.(PreOrder_Reflexive) db) demo_cx (demo_input 100 "expense" 7) (mkWorld db n)).
Qed.
Lemma busy_fresh : @fresh_ids busy_env.
Proof. exact demo_fresh_ids. Qed.
Lemma empty_sound : sound empty_db.
Proof. split; [apply Books_empty | apply empty_chain]. Qed.
Lemma opened_sound : sound (W_db opened_world).
Proof.
  apply (step_sound empty_db); [|exact empty_sound].
  exact (@ledger_session_step demo_env demo_unicode demo_tz nopMirror nopMirror_laws demo_uow (@demo_snapshotter demo_env)
    (@demo_snapshotter_laws demo_env) eq_refl demo_fresh_ids demo_ledger_ops demo_world
    (fun n db => sys_step_pre.(PreOrder_Reflexive) db) empty_chain).
Qed.

(** ** Sessions *)
Section Sessions.
Context `{Env, Unicode, TZDatabase, Mirror, !MirrorLaws, Uow, Snapshotter, !SnapshotterLaws}.

(** C1: Under interference, any session of ledger operations keeps the books in
    order and the periods a chain, and loses no period: every transaction stays
    well formed, with one author, and names a wallet, a category and a period of
    its own project, the wallet in its own currency and the category of its own
    kind, and no two active wallets or categories share a name. *)
Theorem ledger_session_sound ops w : uow = run_in_tx -> fresh_ids ->
  (forall n db, sys_step db (env_other n db)) -> sound (W_db w) ->
  sound (W_db (ledger_session ops w)) /\ grows (W_db w) (W_db (ledger_session ops w)).
Proof.
  intros Hu Hf Hr Hs. pose proof (ledger_session_step Hu Hf ops w Hr (proj2 Hs)) as St.
  split; [eapply step_sound; eauto | apply St, Hs].
Qed.

(** C2: No session of wallet, category or transaction operations, under
    interference from any such operations, changes a closed period: its row, and
    which transactions it holds and what they say, stay as they are. *)
Theorem closed_periods_frozen ops w : uow = run_in_tx -> fresh_ids ->
  (forall n db, ledger_step db (env_other n db)) -> Books (W_db w) ->
  forallb (fun co => entry_op (snd co)) ops = true ->
  forall id p, db_periods (W_db w) !! id = Some p -> IsLocked p = true ->
    db_periods (W_db (ledger_session ops w)) !! id = Some p
    /\ forall i t, t_PeriodID t = Some id ->
         db_txs (W_db w) !! i = Some t <-> db_txs (W_db (ledger_session ops w)) !! i = Some t.
Proof.
  intros Hu Hf Hr B He id p Hp HL.
  destruct (entry_session_frozen Hu Hf ops Hr w He) as [HB _]. destruct (HB B) as [_ F]. exact (F id p Hp HL).
Qed.

(** C36: A session of any operations of the five services, run alone, the
    stale-row edits, category creation and seeding among them, keeps the books
    in order and the periods a chain. *)
Theorem any_session_keeps_books `{Namer} ops w : uow = run_in_tx -> fresh_ids -> quiet -> sound (W_db w) ->
  sound (W_db (any_session ops w)).
Proof. intros Hu Hf Hq Hs. exact (any_session_sound Hu Hf ops Hq w Hs). Qed.
End Sessions.

(** A racing session: the other records into the wallet while this one closes the period and adds a wallet. *)
Definition busy_ops : list (Ctx * LedgerOp) :=
  [ (demo_cx, OpRecord (demo_input 100 "income" 900));
    (demo_cx, OpPeriod (OpClose 200 (mkDate 2024 3 8) 3));
    (demo_cx, OpCreateWallet (mkWalletParams "Bank" "bank" "BCA" "IDR" false));
    (demo_cx, OpDeleteWallet 100) ].
Definition busy_world : World := demo_ledger_session busy_env busy_ops opened_world.

Lemma ledger_session_sound_witness :
  sound (W_db busy_world) /\ grows (W_db opened_world) (W_db busy_world)
  /\ (5 <= size (db_txs (W_db busy_world)))%nat /\ size (db_wallets (W_db busy_world)) = 2%nat.
Proof.
  destruct (@ledger_session_sound busy_env demo_unicode demo_tz nopMirror nopMirror_laws demo_uow (@demo_snapshotter busy_env)
    (@demo_snapshotter_laws busy_env) busy_ops opened_world eq_refl busy_fresh
    (fun n db => ledger_sys _ _ (busy_step n db)) opened_sound) as [Hs Hg].
  split; [exact Hs|]. split; [exact Hg|]. split; vm_compute; [lia | reflexivity].
Defined.

(** The demo world with its first period closed and reopened never. *)
Definition closed_world : World := demo_ledger_session demo_env [(demo_cx, OpPeriod (OpClose 200 (mkDate 2024 3 8) 3))] opened_world.
Definition backdated (kind : string) (minor : Z) : RecordInput :=
  mkRecordInput 100 None kind (New minor IDR) None None "late" (1709600000 * 1000000000)%Z.
Definition frozen_ops : list (Ctx * LedgerOp) :=
  [ (demo_cx, OpRecord (backdated "expense" 3)); (demo_cx, OpRecord (demo_input 100 "income" 900));
    (demo_cx, OpAdjust 100 (New 5000 IDR) (1709942400 * 1000000000) 3); (demo_cx, OpDeleteTx 300) ].

Lemma closed_sound : sound (W_db closed_world).
Proof.
  apply (step_sound (W_db opened_world)); [|exact opened_sound].
  exact (@ledger_session_step demo_env demo_unicode demo_tz nopMirror nopMirror_laws demo_uow (@demo_snapshotter demo_env)
    (@demo_snapshotter_laws demo_env) eq_refl demo_fresh_ids _ opened_world
    (fun n db => sys_step_pre.(PreOrder_Reflexive) db) (proj2 opened_sound)).
Qed.
Lemma closed_periods_frozen_witness :
  let db' := W_db (demo_ledger_session busy_env frozen_ops closed_world) in
  exists p, db_periods (W_db closed_world) !! 200%N = Some p /\ IsLocked p = true
    /\ db_periods db' !! 200%N = Some p /\ (5 <= size (db_txs db'))%nat.
Proof.
  intros db'.
  assert (E : exists p, db_periods (W_db closed_world) !! 200%N = Some p /\ IsLocked p = true)
    by (eexists; split; [vm_compute; reflexivity | vm_compute; reflexivity]).
  destruct E as (p & Hp & HL). exists p. split; [exact Hp|]. split; [exact HL|].
  split; [|vm_compute; lia].
  exact (proj1 (@closed_periods_frozen busy_env demo_unicode demo_tz nopMirror nopMirror_laws demo_uow
    (@demo_snapshotter busy_env) frozen_ops closed_world eq_refl busy_fresh busy_step
    (proj1 closed_sound) eq_refl 200%N p Hp HL)).
Defined.

Definition any_ops : list (Ctx * (LedgerOp + EditOp)) :=
  [ (demo_cx, inr OpSeedDefaults); (demo_cx, inl (OpOpenWallet cash (Some (New 500 IDR)) (1709942400 * 1000000000)));
    (demo_cx, inr (OpCreateCategory "Coffee" "expense" "utensils" "#16a34a")); (demo_cx, inl (OpSettings (mkPatch None (Some "usd") None)));
    (demo_cx, inr (OpCategoryEdit 100 CArchive)); (demo_cx, inr (OpWalletEdit 2100 (WRename "Purse"))) ].
Lemma any_session_keeps_books_witness :
  let db := W_db (demo_any_session demo_env any_ops demo_world) in
  sound db /\ (10 <= size (db_categories db))%nat /\ (size (db_wallets db) = 1)%nat.
Proof.
  intros db. split; [|split; vm_compute; [lia | reflexivity]].
  exact (@any_session_keeps_books demo_env demo_unicode demo_tz nopMirror nopMirror_laws demo_uow (@demo_snapshotter demo_env)
    (@demo_snapshotter_laws demo_env) demo_namer any_ops demo_world eq_refl demo_fresh_ids demo_quiet empty_sound).
Defined.
