(* ===== verification/TxProps.v ===== *)
(** * The properties of the transactions service and the open workflow, run alone

    The exact effect of each write when it commits, that a failure changes
    nothing, and what the writes do to balances. *)
From Stdlib Require Import ZArith Lia String List.
From stdpp Require Import base gmap list strings.
From S2P Require Import Prelude GoStrings Errors Civil Money Tenant Ledger Period Wallet Category Transaction World.
From S2P Require Import LedgerService PeriodStore PeriodService PeriodTheory PeriodProps Commit WalletService CategoryService.
From S2P Require Import TxStore TxService Books TxTheory BooksOps CategoryTheory LedgerTheory Edits Adapters Balance System LedgerProps.
Local Open Scope string_scope.
Local Open Scope Z_scope.

Lemma from_err_commits {A} `{Env} cx (k : Tenant -> M A) (Q : A -> DB -> DB -> Prop) :
  (forall tc, From_ cx = inr tc -> commits Q (k tc)) -> commits Q (let* tc := from_tenant cx in k tc).
Proof.
  intros Hk. unfold from_tenant. destruct (From_ cx) as [e|tc] eqn:F.
  - split; [intros w a; discriminate | reflexivity].
  - exact (Hk tc eq_refl).
Qed.

(** ** Balances *)

(** What a transaction other than a transfer does to a wallet. *)
Lemma effect_single t w : t_Kind t <> TxTransfer ->
  Minor (Effect t w) = if N.eqb w (t_WalletID t)
    then if IsInflow (t_Kind t) then Minor (t_Amount t) else wrap64 (- Minor (t_Amount t)) else 0.
Proof.
  intros Hk. unfold Effect. destruct (String.eqb_spec (t_Kind t) TxTransfer); [contradiction|].
  destruct (N.eqb w (t_WalletID t)); [|reflexivity]. cbn [negb]. destruct (IsInflow (t_Kind t)); reflexivity.
Qed.
(** A transfer takes from one wallet what it gives to the other. *)
Lemma effect_transfer t : tx_ok t -> in_int64 (Minor (t_Amount t)) -> t_Kind t = TxTransfer ->
  exists to, t_ToWalletID t = Some to /\ to <> t_WalletID t
    /\ Minor (Effect t (t_WalletID t)) = - Minor (t_Amount t) /\ Minor (Effect t to) = Minor (t_Amount t)
    /\ forall w, w <> t_WalletID t -> w <> to -> Minor (Effect t w) = 0.
Proof.
  intros (_ & _ & Hp & _ & Ht & Hne & _) Hi Hk. destruct (t_ToWalletID t) as [to|] eqn:E; [|destruct (proj1 Ht Hk); reflexivity].
  exists to. split; [reflexivity|]. split; [congruence|]. unfold Effect. rewrite Hk, E. change (String.eqb TxTransfer TxTransfer) with true.
  cbn iota. rewrite N.eqb_refl. split; [apply wrap64_opp; assumption|]. split.
  - destruct (N.eqb_spec to (t_WalletID t)); [congruence|]. rewrite N.eqb_refl. reflexivity.
  - intros w H1 H2. destruct (N.eqb_spec w (t_WalletID t)); [congruence|]. destruct (N.eqb_spec w to); [congruence | reflexivity].
Qed.

(** No transaction names a wallet that does not exist. *)
Lemma balance_unknown db tc w : Books db -> db_wallets db !! w = None -> balance_of db tc w = 0.
Proof.
  intros B Hn. unfold balance_of. assert (Z0 : forall t, In t (project_txs db tc) -> Minor (Effect t w) = 0).
  { intros t Ht. apply project_txs_In in Ht as [Hin _]. apply rows_In in Hin as (i & Hi).
    pose proof (bk_tx db B i t Hi) as Bt. unfold Effect.
    destruct (N.eqb_spec w (t_WalletID t)) as [->|].
    { destruct (tb_wallet db t Bt) as (v & Hv & _). congruence. }
    cbn [negb]. destruct (String.eqb _ _); [|reflexivity]. destruct (t_ToWalletID t) as [to|] eqn:E; [|reflexivity].
    destruct (N.eqb_spec w to) as [->|]; [|reflexivity]. destruct (tb_to db t Bt to E) as (v & Hv & _). congruence. }
  induction (project_txs db tc) as [|t ts IH]; cbn; [reflexivity|].
  rewrite Z0 by (left; reflexivity). apply IH. intros u Hu. apply Z0. right. exact Hu.
Qed.
Lemma balance_wallets db m tc w : balance_of (set_wallets m db) tc w = balance_of db tc w.
Proof. reflexivity. Qed.

(** ** The writes *)
Section Writes.
Context `{Env, Mirror, !MirrorLaws, Uow, WalletReader, CategoryReader, PeriodResolver,
  !WalletReaderLaws, !CategoryReaderLaws, !PeriodResolverLaws}.

Lemma commits_kick_pair {A} cx (m : M (A * list MirrorRef)) (Q : A -> DB -> DB -> Prop) :
  quiet -> commits (fun ar => Q (fst ar)) m -> commits Q (let* ' (a, refs) := m in kick cx refs ;;; st_ret a).
Proof.
  intros Hq [HA HB]. unfold st_bind. split.
  - intros w b. specialize (HA w). destruct (m w) as [[[a refs]|e|p] w1]; simpl in *; try discriminate.
    intros [= <-]. rewrite Kick_db by exact Hq. apply (HA (a, refs)). reflexivity.
  - intros w Hf. specialize (HB w). destruct (m w) as [[[a refs]|e|p] w1]; simpl in *;
      [destruct (Hf a eq_refl) | apply HB; discriminate ..].
Qed.

Lemma commits_recordOne cx i : uow = run_in_tx -> fresh_ids -> quiet ->
  commits (fun ar db db' => exists tc, From_ cx = inr tc /\ recorded tc i (fst ar) db db') (recordOne cx i).
Proof.
  intros Hu Hf Hq. unfold recordOne. apply from_err_commits. intros tc F.
  apply (commits_commit cx "transaction.Record" _ (fun t db db' => exists tc, From_ cx = inr tc /\ recorded tc i t db db'));
    [exact Hq | exact Hu|].
  eapply runs_conseq; [apply (runs_record_body Hf cx tc i (UserID tc) F)|]. intros ar db db' Hr. exists tc. auto.
Qed.

Lemma recorded_books tc i t db db' : recorded tc i t db db' -> Books db ->
  Books db' /\ tx_booked db' t /\ db_txs db' !! t_ID t = Some t.
Proof.
  intros Hr B. pose proof (recorded_step tc i t db db' Hr) as [St _]. destruct (St B) as [B' _].
  assert (L : db_txs db' !! t_ID t = Some t).
  { destruct Hr as (db1 & _ & _ & -> & _). cbn. apply lookup_insert_eq. }
  split; [exact B'|]. split; [exact (bk_tx db' B' _ t L) | exact L].
Qed.



(** [Delete] removes exactly the named transaction, a user-recorded one of
    the caller's project that no closed period holds, or changes nothing. *)
Theorem Delete_atomic cx id : uow = run_in_tx -> quiet ->
  commits (fun _ db db' => exists tc, From_ cx = inr tc /\ deleted tc id db db' /\ (Books db -> Books db'))
    (tx_Delete cx id).
Proof.
  intros Hu Hq. unfold tx_Delete. apply from_err_commits. intros tc F.
  apply commits_commit_kick; [exact Hq | exact Hu|].
  eapply runs_conseq; [apply (runs_tx_delete_body (WithTx cx) tc id eq_refl F)|].
  intros u db db' Hr. exists tc. split; [exact F|]. split; [exact Hr|]. intros B. apply (deleted_step _ _ _ _ Hr), B.
Qed.



End Writes.

(** ** Transfers, batches and balances *)
Section Reads.
Context `{Env, Mirror, !MirrorLaws, Uow, WalletReader, CategoryReader, PeriodResolver,
  !WalletReaderLaws, !CategoryReaderLaws, !PeriodResolverLaws}.

(** A recorded transfer takes its amount from the wallet it names, gives it
    to another wallet of the same currency, and moves no other balance. *)
Theorem Record_transfer_conserves cx i : uow = run_in_tx -> fresh_ids -> quiet ->
  in_Kind i = TxTransfer -> in_int64 (Minor (in_Amount i)) ->
  commits (fun t db db' => Books db -> exists tc to, From_ cx = inr tc /\ in_ToWalletID i = Some to
      /\ to <> in_WalletID i
      /\ balance_of db' tc (in_WalletID i) = balance_of db tc (in_WalletID i) - Minor (in_Amount i)
      /\ balance_of db' tc to = balance_of db tc to + Minor (in_Amount i)
      /\ forall w, w <> in_WalletID i -> w <> to -> balance_of db' tc w = balance_of db tc w)
    (Record_ cx i).
Proof.
  intros Hu Hf Hq Hk Hi. unfold Record_.
  eapply commits_conseq; [apply (commits_kick_pair cx _ (fun t db db' => exists tc, From_ cx = inr tc /\ recorded tc i t db db') Hq),
    (commits_recordOne cx i Hu Hf Hq)|].
  intros t db db' (tc & F & Hr) B. destruct (recorded_books _ _ _ _ _ Hr B) as (_ & Bt & _).
  pose proof (fun w => balance_recorded tc i t db db' w Hr) as Bal.
  destruct Hr as (db1 & _ & _ & _ & (_ & _ & W & T & K & A & _) & _).
  destruct (effect_transfer t (tb_ok _ _ Bt)) as (to & ET & Hne & E1 & E2 & E3); [congruence | congruence|].
  exists tc, to. split; [exact F|]. split; [congruence|]. split; [congruence|]. rewrite <- W, <- A.
  split; [rewrite Bal, E1; lia|]. split; [rewrite Bal, E2; lia|]. intros w Ha Hb. rewrite Bal, E3; auto.
Qed.

(** What a batch did, row by row: a failed row did nothing, a recorded one is one more [recorded]. *)
Inductive batched (cx : Ctx) : nat -> list RecordInput -> list BatchResult -> DB -> DB -> Prop :=
| batched_nil i db : batched cx i [] [] db db
| batched_failed i row rest e out db db' : batched cx (S i) rest out db db' ->
    batched cx i (row :: rest) (mkBatchResult i (inl e) :: out) db db'
| batched_recorded i row rest tc t out db db1 db' : From_ cx = inr tc -> recorded tc row t db db1 ->
    batched cx (S i) rest out db1 db' -> batched cx i (row :: rest) (mkBatchResult i (inr t) :: out) db db'.

Lemma runs_batch cx ins : uow = run_in_tx -> fresh_ids -> quiet -> forall i out refs,
  runs (fun r db db' => exists more, fst r = (rev out ++ more)%list /\ batched cx i ins more db db')
    (batch_loop cx ins i out refs).
Proof.
  intros Hu Hf Hq. induction ins as [|row ins IH]; intros i out refs; cbn [batch_loop].
  - intros w r. simpl. intros [= <-]. exists []. rewrite app_nil_r. split; [reflexivity | constructor].
  - destruct (commits_recordOne cx row Hu Hf Hq) as [HA HB]. intros w r. unfold st_bind, st_try.
    specialize (HA w). specialize (HB w). destruct (recordOne cx row w) as [[[t rs]|e|p] w1]; simpl in *.
    + intros Hr. destruct (IH _ _ _ w1 r Hr) as (more & E & Hm). destruct (HA _ eq_refl) as (tc & F & Hrec).
      exists (mkBatchResult i (inr t) :: more). simpl in E. rewrite <- app_assoc in E.
      split; [exact E | eapply batched_recorded; eauto].
    + intros Hr. destruct (IH _ _ _ w1 r Hr) as (more & E & Hm).
      exists (mkBatchResult i (inl e) :: more). simpl in E. rewrite <- app_assoc in E.
      split; [exact E | constructor]. rewrite <- HB by discriminate. exact Hm.
    + discriminate.
Qed.

Lemma batched_index cx i ins out db db' : batched cx i ins out db db' ->
  map br_Index out = seq i (List.length ins).
Proof. induction 1; cbn; congruence. Qed.

(** [RecordBatch] gives every input its own result, in order and with its
    index, and records each on its own: a row that fails changes nothing and
    stops no other row. *)
Theorem RecordBatch_rows cx ins w out w' : uow = run_in_tx -> fresh_ids -> quiet ->
  RecordBatch cx ins w = (Ok out, w') ->
  map br_Index out = seq 0 (List.length ins) /\ batched cx 0 ins out (W_db w) (W_db w').
Proof.
  intros Hu Hf Hq. unfold RecordBatch, st_bind. pose proof (runs_batch cx ins Hu Hf Hq 0%nat [] [] w) as HB.
  destruct (batch_loop cx ins 0 [] [] w) as [[[o refs]|e|p] w1]; [|discriminate..].
  destruct (HB _ eq_refl) as (more & E & Hm). simpl in E. subst o. cbn. intros [= <- <-]. rewrite Kick_db by exact Hq.
  split; [eapply batched_index, Hm | exact Hm].
Qed.

(** C7: [Balance] of a wallet of the project is the sum of the effects of the
    project's transactions, in the wallet's currency; it fits an int64, and
    reading it changes nothing. *)
Theorem Balance_exact cx walletID : quiet ->
  commits (fun a db db' => db' = db /\ (Books db -> int64_amounts db -> exists tc, From_ cx = inr tc
      /\ Minor a = balance_of db tc walletID /\ in_int64 (Minor a)
      /\ exists w, db_wallets db !! walletID = Some w /\ AmountCurrency a = w_Currency w))
    (Balance cx walletID).
Proof.
  intros Hq. assert (Hc : calm cx) by (right; exact Hq). unfold Balance. apply from_err_commits. intros tc F.
  apply reads_commits.
  eapply reads_seq; [apply reads_try, (reads_store_Balance cx tc walletID Hc F)|].
  intros [e|a] _; [apply reads_unexpected; auto|].
  destruct (String.eqb_spec (AmountCurrency a) "") as [Ea|Ea].
  - eapply reads_seq; [apply (reads_tx_wallet cx tc walletID Hc)|]. intros wi _. apply reads_ret.
    intros db (w & Hw & _ & _ & Ec & _) Hb B Hi.
    destruct (stored_balance_spec db tc walletID a B Hi Hb) as (Em & Hr & [[-> Hno]|(wal & Hwal & Ecur)]).
    + exists tc. split; [exact F|]. split; [exact Em|]. split; [exact Hr|]. exists w. split; [exact Hw | exact Ec].
    + exfalso. pose proof (bk_wallet_ok db B _ _ Hwal) as (_ & _ & V). rewrite <- Ecur, Ea in V. discriminate V.
  - apply reads_ret. intros db Hb B Hi.
    destruct (stored_balance_spec db tc walletID a B Hi Hb) as (Em & Hr & [[-> Hno]|(wal & Hwal & Ecur)]);
      [destruct (Ea eq_refl)|].
    exists tc. split; [exact F|]. split; [exact Em|]. split; [exact Hr|]. eauto.
Qed.
End Reads.

(** ** The open workflow *)
Section OpenWallet.
Context `{Env, Unicode, Mirror, !MirrorLaws, Uow, OpeningRecorder, OpeningDater, !OpeningRecorderLaws, !OpeningDaterLaws}.

(** Opening a wallet is one unit of work: a success added one wallet and,
    for a non-zero opening amount, its opening transaction of exactly that
    amount, so the wallet's balance is the opening amount; a failure added
    neither. *)
Theorem OpenWorkflow_atomic cx p opening at_ : uow = run_in_tx -> fresh_ids -> quiet ->
  commits (fun r db db' => exists tc, From_ cx = inr tc /\ opened tc p opening (fst r) (snd r) db db'
      /\ (Books db -> Books db' /\ db_wallets db' !! w_ID (fst r) = Some (fst r)
            /\ balance_of db' tc (w_ID (fst r)) = match opening with Some a => Minor a | None => 0 end))
    (OpenWorkflow_Run cx p opening at_).
Proof.
  intros Hu Hf Hq. eapply commits_conseq; [apply (commits_OpenWorkflow Hu Hf cx p opening at_ Hq)|].
  intros [w d] db db' (tc & F & Ho). cbn [fst snd] in *. exists tc. split; [exact F|]. split; [exact Ho|]. intros B.
  pose proof (opened_step _ _ _ _ _ _ _ Ho) as [St _]. split; [apply St, B|].
  destruct Ho as (db1 & Hw & Hr). pose proof (proj1 (wallet_created_step _ _ _ _ _ Hw) B) as [B1 _].
  destruct Hw as (Hn & -> & _).
  assert (Z0 : balance_of (set_wallets (<[w_ID w := w]> (db_wallets db)) db) tc (w_ID w) = 0)
    by (rewrite balance_wallets; apply balance_unknown; assumption).
  destruct opening as [a|]; cbn [has_opening] in Hr; [destruct (Z.eqb_spec (Minor a) 0) as [Ea|Ea]|].
  - unfold Amount_IsZero in Hr. rewrite Ea in Hr. cbn in Hr. subst db'. cbn [db_wallets set_wallets].
    rewrite lookup_insert_eq, Z0. auto.
  - unfold Amount_IsZero in Hr. rewrite (proj2 (Z.eqb_neq _ _) Ea) in Hr. cbn [negb] in Hr.
    destruct Hr as (a' & t & [= <-] & Hr). rewrite (balance_recorded _ _ _ _ _ (w_ID w) Hr), Z0.
    destruct Hr as (db2 & Hop & _ & -> & (_ & _ & W & _ & K & A & _) & _).
    destruct (opens_refs _ _ Hop) as (_ & EW & _). cbn [db_wallets set_txs]. rewrite EW. cbn [db_wallets set_wallets].
    rewrite lookup_insert_eq. split; [reflexivity|].
    rewrite effect_single by (rewrite K; discriminate). rewrite W, K, A. cbn. rewrite N.eqb_refl. lia.
  - subst db'. cbn [db_wallets set_wallets]. rewrite lookup_insert_eq, Z0. auto.
Qed.
End OpenWallet.

(** ** Concrete runs *)
#[local] Existing Instances demo_env demo_unicode demo_tz nopMirror nopMirror_laws demo_uow.

Lemma commits_ok {E A} (Q : A -> DB -> DB -> Prop) (m : ST World E A) w a :
  commits Q m -> fst (m w) = Ok a -> Q a (W_db w) (W_db (snd (m w))).
Proof. intros [HA _]. apply HA. Qed.
Lemma demo_uow_tx : @uow demo_uow = run_in_tx.
Proof. reflexivity. Qed.
Lemma books_of w : sound (W_db w) -> Books (W_db w).
Proof. intros [B _]. exact B. Qed.
Lemma int64_opened : int64_amounts (W_db opened_world).
Proof.
  intros i t Ht. apply (elem_of_map_to_list (db_txs (W_db opened_world))) in Ht.
  assert (E : map_to_list (db_txs (W_db opened_world)) = map_to_list (db_txs (W_db opened_world))) by reflexivity.
  vm_compute in Ht. apply elem_of_cons in Ht as [[= -> ->]|Ht]; [|apply elem_of_nil in Ht; destruct Ht].
  unfold in_int64, min_int64, max_int64. vm_compute. split; discriminate.
Qed.


(** The opened world with an expense on record. *)
Definition spent_world : World := snd (Record_ demo_cx (demo_input 100 "expense" 120) opened_world).


Lemma Delete_atomic_witness :
  let r := tx_Delete demo_cx 400 spent_world in
  exists tc, fst r = Ok tt /\ deleted tc 400 (W_db spent_world) (W_db (snd r)) /\ size (db_txs (W_db (snd r))) = 1%nat.
Proof.
  intros r. assert (E : fst r = Ok tt) by (vm_compute; reflexivity).
  subst r. destruct (commits_ok _ _ spent_world tt (Delete_atomic demo_cx 400%N demo_uow_tx demo_quiet) E) as (tc & F & Hr & _).
  exists tc. split; [exact E|]. split; [exact Hr|]. vm_compute. reflexivity.
Defined.


(** The opened world with a second wallet. *)
Definition two_wallets : World := snd (wallet_Create demo_cx (mkWalletParams "Bank" "bank" "BCA" "IDR" false) opened_world).
Lemma two_wallets_books : Books (W_db two_wallets).
Proof.
  apply (proj1 (wallet_Create_step demo_uow_tx ledger_step demo_cx (mkWalletParams "Bank" "bank" "BCA" "IDR" false)
    demo_fresh_ids (fun _ _ S => S) (fun _ db => ledger_step_pre.(PreOrder_Reflexive) db) opened_world)), books_of, opened_sound.
Qed.
Definition demo_transfer : RecordInput :=
  mkRecordInput 100 (Some 400%N) "transfer" (New 200 IDR) None None "" (1709942400 * 1000000000).

Lemma Record_transfer_conserves_witness :
  let r := Record_ demo_cx demo_transfer two_wallets in
  balance_of (W_db (snd r)) demo_tenant 100 = balance_of (W_db two_wallets) demo_tenant 100 - 200
  /\ balance_of (W_db (snd r)) demo_tenant 400 = balance_of (W_db two_wallets) demo_tenant 400 + 200.
Proof.
  intros r. assert (E : exists t, fst r = Ok t) by (eexists; vm_compute; reflexivity). destruct E as [t E].
  subst r. destruct (commits_ok _ _ two_wallets t (Record_transfer_conserves demo_cx demo_transfer demo_uow_tx demo_fresh_ids
    demo_quiet eq_refl ltac:(vm_compute; split; discriminate)) E two_wallets_books)
    as (tc & to & F & Et & _ & E1 & E2 & _).
  injection F as <-. injection Et as <-. split; assumption.
Defined.

Definition demo_batch : list RecordInput :=
  [demo_input 100 "expense" 10; demo_input 77 "expense" 20; demo_input 100 "income" 30].
Lemma RecordBatch_rows_witness :
  exists out w', RecordBatch demo_cx demo_batch opened_world = (Ok out, w')
    /\ map br_Index out = [0; 1; 2]%nat /\ batched demo_cx 0 demo_batch out (W_db opened_world) (W_db w')
    /\ size (db_txs (W_db w')) = 3%nat.
Proof.
  assert (E : exists out, fst (RecordBatch demo_cx demo_batch opened_world) = Ok out) by (eexists; vm_compute; reflexivity).
  assert (N : size (db_txs (W_db (snd (RecordBatch demo_cx demo_batch opened_world)))) = 3%nat) by (vm_compute; reflexivity).
  destruct E as [out E]. destruct (RecordBatch demo_cx demo_batch opened_world) as [o w'] eqn:R. cbn [fst snd] in *. subst o.
  destruct (RecordBatch_rows demo_cx demo_batch opened_world out w' demo_uow_tx demo_fresh_ids demo_quiet R) as [Hi Hb].
  exists out, w'. split; [reflexivity|]. split; [exact Hi|]. split; [exact Hb | exact N].
Defined.

Lemma Balance_exact_witness :
  exists a, fst (Balance demo_cx 100 opened_world) = Ok a /\ Minor a = balance_of (W_db opened_world) demo_tenant 100
    /\ Minor a = 500.
Proof.
  assert (E : exists a, fst (Balance demo_cx 100 opened_world) = Ok a /\ Minor a = 500) by (eexists; split; vm_compute; reflexivity).
  destruct E as (a & E & Ea). exists a. split; [exact E|]. split; [|exact Ea].
  destruct (commits_ok _ _ opened_world a (Balance_exact demo_cx 100%N demo_quiet) E) as [_ Hb].
  destruct (Hb (books_of _ opened_sound) int64_opened) as (tc & F & Em & _). injection F as <-. exact Em.
Defined.

Lemma OpenWorkflow_atomic_witness :
  let r := OpenWorkflow_Run demo_cx cash (Some (New 500 IDR)) (1709942400 * 1000000000) demo_world in
  exists w d tc, fst r = Ok (w, d) /\ opened tc cash (Some (New 500 IDR)) w d (W_db demo_world) (W_db (snd r))
    /\ balance_of (W_db (snd r)) demo_tenant (w_ID w) = 500.
Proof.
  intros r. pose proof (transactions_opening_laws demo_fresh_ids) as L.
  assert (E : exists x, fst r = Ok x) by (eexists; vm_compute; reflexivity). destruct E as [[w d] E].
  subst r. destruct (commits_ok _ _ demo_world (w, d) (OpenWorkflow_atomic demo_cx cash (Some (New 500 IDR)) (1709942400 * 1000000000) demo_uow_tx
    demo_fresh_ids demo_quiet) E) as (tc & F & Ho & Hb).
  exists w, d, tc. split; [exact E|]. split; [exact Ho|]. injection F as <-. apply (Hb Books_empty).
Defined.
