(* ===== verification/EditProps.v ===== *)
(** * The properties of wallet and category maintenance

    The exact effect of every edit, creation and delete run alone, and what a
    stale edit does when another session deletes its row first. *)
From Stdlib Require Import ZArith Lia String List.
From stdpp Require Import base gmap list strings.
From S2P Require Import Prelude GoStrings Errors Civil Money Tenant Ledger Period Wallet Category Transaction World.
From S2P Require Import LedgerService PeriodStore PeriodService PeriodTheory PeriodProps Commit WalletService CategoryService.
From S2P Require Import TxStore TxService Books TxTheory BooksOps CategoryTheory LedgerTheory Edits Adapters Balance System LedgerProps TxProps.
Local Open Scope string_scope.

(** ** Edits *)
Section Edits.
Context `{Env, Unicode, Mirror, !MirrorLaws, Uow, Namer}.

(** Every wallet edit is all or nothing: a success applied the edit's
    domain operation to the caller's own wallet and stored exactly the result
    over it, with its id, scope, currency and creation time unchanged, and no
    active name taken twice; a failure changed nothing. *)
Theorem wallet_edit_atomic cx id e : uow = run_in_tx -> quiet ->
  commits (fun w db db' => exists tc w0 now, From_ cx = inr tc /\ db_wallets db !! id = Some w0
      /\ w_OrgID w0 = OrgID tc /\ w_ProjectID w0 = ProjectID tc /\ wallet_edited e w0 now = inr w
      /\ (w_ID w = w_ID w0 /\ w_OrgID w = w_OrgID w0 /\ w_ProjectID w = w_ProjectID w0
          /\ w_Currency w = w_Currency w0 /\ w_CreatedAt w = w_CreatedAt w0)
      /\ (Books db -> db' = set_wallets (<[id := w]> (db_wallets db)) db /\ Books db'))
    (run_wallet_edit cx id e).
Proof.
  intros Hu Hq. eapply commits_conseq; [apply (commits_wallet_edit Hu cx id e Hq)|].
  intros w db db' (tc & w0 & F & Hw & O & P & [(I & EO & EP & EC & ET & _) [now Ed]] & Hb).
  exists tc, w0, now. do 5 (split; [assumption|]). split; [repeat (split; [assumption|]); assumption | exact Hb].
Qed.

(** Every category edit is all or nothing, likewise; the kind of a category never changes. *)
Theorem category_edit_atomic cx id e : uow = run_in_tx -> quiet ->
  commits (fun c db db' => exists tc c0 now, From_ cx = inr tc /\ db_categories db !! id = Some c0
      /\ c_OrgID c0 = OrgID tc /\ c_ProjectID c0 = ProjectID tc /\ category_edited e c0 now = inr c
      /\ (c_ID c = c_ID c0 /\ c_OrgID c = c_OrgID c0 /\ c_ProjectID c = c_ProjectID c0
          /\ c_Kind c = c_Kind c0 /\ c_CreatedAt c = c_CreatedAt c0)
      /\ (Books db -> db' = set_categories (<[id := c]> (db_categories db)) db /\ Books db'))
    (run_category_edit cx id e).
Proof.
  intros Hu Hq. eapply commits_conseq; [apply (commits_category_edit Hu cx id e Hq)|].
  intros c db db' (tc & c0 & F & Hc & O & P & [(I & EO & EP & EC & ET & _) [now Ed]] & Hb).
  exists tc, c0, now. do 5 (split; [assumption|]). split; [repeat (split; [assumption|]); assumption | exact Hb].
Qed.

(** A category is created at the end of its kind's list: its order is past
    that of every category of the project and kind (to the clamp), its name and
    kind are the asked ones, and one row was added; a failure added none. *)
Theorem category_Create_last cx name kind icon color : uow = run_in_tx -> quiet -> fresh_ids ->
  commits (fun c db db' => exists tc order, From_ cx = inr tc /\ c_OrgID c = OrgID tc /\ c_ProjectID c = ProjectID tc
      /\ c_Name c = TrimSpace name /\ c_Kind c = kind /\ c_SortOrder c = clampSortOrder order
      /\ past_orders tc kind order db /\ category_ok c /\ db_categories db !! c_ID c = None
      /\ db' = set_categories (<[c_ID c := c]> (db_categories db)) db /\ (Books db -> Books db'))
    (category_Create cx name kind icon color).
Proof.
  intros Hu Hq Hf. eapply commits_conseq; [apply (commits_category_Create Hu cx name kind icon color Hq Hf)|].
  intros c db db' (tc & order & F & O & P & N & K & S & Po & Ok & Hn & E & St). exists tc, order.
  repeat (split; [assumption|]). intros B. apply St, B.
Qed.

(** ** Deletes *)
Lemma runs_wallet_store_Delete cx tc id : calm cx -> From_ cx = inr tc ->
  runs (fun _ db db' => exists n, wallet_delete tc id db = inr (db', S n)) (wallet_store_Delete cx id).
Proof.
  intros Hc F. unfold wallet_store_Delete. apply runs_write_tx; [exact Hc|]. intros tc' F'.
  rewrite F in F'. injection F' as <-. apply runs_exec_save.
Qed.
Lemma runs_category_store_Delete cx tc id : calm cx -> From_ cx = inr tc ->
  runs (fun _ db db' => exists n, category_delete tc id db = inr (db', S n)) (category_store_Delete cx id).
Proof.
  intros Hc F. unfold category_store_Delete. apply runs_write_tx; [exact Hc|]. intros tc' F'.
  rewrite F in F'. injection F' as <-. apply runs_exec_save.
Qed.

(** The body of a delete: its errors sorted, then the ref of the deleted row. *)
Lemma runs_sorted_delete (m : M unit) (known : Error -> bool) op refs Q : runs (fun _ => Q) m ->
  runs (fun _ => Q) (let* r := st_try m in
    match r with
    | inl e => if known e then st_err e else unexpected op e
    | inr _ => st_ret (tt, refs)
    end : M (unit * list MirrorRef)).
Proof.
  intros Hm w a. specialize (Hm w). unfold st_bind, st_try. destruct (m w) as [[[]|e|p] w1]; simpl in *.
  - intros _. exact (Hm tt eq_refl).
  - destruct (known e); discriminate.
  - discriminate.
Qed.

(** A wallet is deleted only when it is the caller's and no transaction
    names it, on either side; then exactly its row is gone. Otherwise nothing changes. *)
Theorem wallet_Delete_unreferenced cx id : uow = run_in_tx -> quiet ->
  commits (fun _ db db' => Books db -> exists tc w, From_ cx = inr tc /\ db_wallets db !! id = Some w
      /\ w_OrgID w = OrgID tc /\ w_ProjectID w = ProjectID tc
      /\ (forall i t, db_txs db !! i = Some t -> t_WalletID t <> id /\ t_ToWalletID t <> Some id)
      /\ db' = set_wallets (delete id (db_wallets db)) db /\ Books db')
    (wallet_Delete cx id).
Proof.
  intros Hu Hq. assert (Hc : calm cx) by (right; exact Hq). unfold wallet_Delete.
  destruct (From_ cx) as [e|tc] eqn:F.
  { split; [intros w a | intros w _]; unfold wallet_ByID, from_tenant; rewrite F; [discriminate | reflexivity]. }
  eapply commits_read_bind; [apply (reads_wallet_ByID cx tc id Hc F)|]. intros w _.
  eapply commits_conseq; [apply (commits_commit_kick cx _ _ (fun _ db db' => exists n, wallet_delete tc id db = inr (db', S n))
    Hq Hu), runs_sorted_delete, (runs_wallet_store_Delete (WithTx cx) tc id (calm_WithTx cx) F)|].
  intros u db db' [n D] (Hw & O & P) B. pose proof (wallet_delete_step _ _ _ _ _ D) as [St _].
  unfold wallet_delete in D. rewrite Hw in D. destruct (_ && _)%bool; [|discriminate].
  destruct (wallet_referenced db id (w_OrgID w)) eqn:R; [discriminate|]. injection D as <- _.
  exists tc, w. split; [reflexivity|]. do 3 (split; [assumption|]). split; [|split; [reflexivity | apply St, B]].
  intros i t Ht. destruct (decide (t_OrgID t = w_OrgID w)) as [E|E];
    [exact (wallet_referenced_spec db id _ B R i t Ht E)|].
  split; intros X; apply E.
  - destruct (tb_wallet _ _ (bk_tx db B i t Ht)) as (v & Hv & EO & _). rewrite X, Hw in Hv. congruence.
  - destruct (tb_to _ _ (bk_tx db B i t Ht) id X) as (v & Hv & EO & _). rewrite Hw in Hv. congruence.
Qed.

(** A category is deleted only when it is the caller's and no transaction
    names it; then exactly its row is gone. Otherwise nothing changes. *)
Theorem category_Delete_unreferenced cx id : uow = run_in_tx -> quiet ->
  commits (fun _ db db' => Books db -> exists tc c, From_ cx = inr tc /\ db_categories db !! id = Some c
      /\ c_OrgID c = OrgID tc /\ c_ProjectID c = ProjectID tc
      /\ (forall i t, db_txs db !! i = Some t -> t_CategoryID t <> Some id)
      /\ db' = set_categories (delete id (db_categories db)) db /\ Books db')
    (category_Delete cx id).
Proof.
  intros Hu Hq. assert (Hc : calm cx) by (right; exact Hq). unfold category_Delete.
  destruct (From_ cx) as [e|tc] eqn:F.
  { split; [intros w a | intros w _]; unfold category_ByID, from_tenant; rewrite F; [discriminate | reflexivity]. }
  eapply commits_read_bind; [apply (reads_category_ByID cx tc id Hc F)|]. intros c _.
  eapply commits_conseq; [apply (commits_commit_kick cx _ _ (fun _ db db' => exists n, category_delete tc id db = inr (db', S n))
    Hq Hu), runs_sorted_delete, (runs_category_store_Delete (WithTx cx) tc id (calm_WithTx cx) F)|].
  intros u db db' [n D] (Hw & O & P) B. pose proof (category_delete_step _ _ _ _ _ D) as [St _].
  unfold category_delete in D. rewrite Hw in D. destruct (_ && _)%bool; [|discriminate].
  destruct (category_referenced db id (c_OrgID c)) eqn:R; [discriminate|]. injection D as <- _.
  exists tc, c. split; [reflexivity|]. do 3 (split; [assumption|]). split; [|split; [reflexivity | apply St, B]].
  intros i t Ht X. destruct (tb_category _ _ (bk_tx db B i t Ht) id X) as (d & Hd & EO & _).
  rewrite Hw in Hd. injection Hd as <-. apply not_true_iff_false in R. apply R, existsb_exists. exists t.
  split; [apply rows_In; eauto|]. rewrite EO, X, !N.eqb_refl. reflexivity.
Qed.
End Edits.

(** ** Concrete runs *)
#[local] Existing Instances demo_env demo_unicode demo_tz nopMirror nopMirror_laws demo_uow demo_namer.

Lemma wallet_edit_atomic_witness :
  let r := run_wallet_edit demo_cx 400 (WEdit " BCA " "bank" "x" true) two_wallets in
  exists w, fst r = Ok w /\ w_Name w = "BCA" /\ W_db (snd r) = set_wallets (<[400%N := w]> (db_wallets (W_db two_wallets))) (W_db two_wallets).
Proof.
  intros r. assert (E : exists w, fst r = Ok w /\ w_Name w = "BCA") by (eexists; split; vm_compute; reflexivity).
  destruct E as (w & E & N). exists w. split; [exact E|]. split; [exact N|]. subst r.
  destruct (commits_ok _ _ two_wallets w (wallet_edit_atomic demo_cx 400%N (WEdit " BCA " "bank" "x" true) demo_uow_tx
    demo_quiet) E) as (tc & w0 & now & _ & _ & _ & _ & _ & _ & Hb).
  apply (Hb two_wallets_books).
Defined.

(** The demo world with the default categories and an expense under one of them. *)
Definition seeded_world : World := snd (SeedDefaults demo_cx opened_world).
Lemma seeded_books : Books (W_db seeded_world).
Proof.
  exact (proj1 (proj1 (SeedDefaults_step demo_uow_tx demo_cx demo_quiet demo_fresh_ids opened_world)
    (books_of _ opened_sound))).
Qed.

Lemma category_edit_atomic_witness :
  let r := run_category_edit demo_cx 400 (CRename "Eats") seeded_world in
  exists c, fst r = Ok c /\ c_Name c = "Eats"
    /\ W_db (snd r) = set_categories (<[400%N := c]> (db_categories (W_db seeded_world))) (W_db seeded_world).
Proof.
  intros r. assert (E : exists c, fst r = Ok c /\ c_Name c = "Eats") by (eexists; split; vm_compute; reflexivity).
  destruct E as (c & E & N). exists c. split; [exact E|]. split; [exact N|]. subst r.
  destruct (commits_ok _ _ seeded_world c (category_edit_atomic demo_cx 400%N (CRename "Eats") demo_uow_tx
    demo_quiet) E) as (tc & c0 & now & _ & _ & _ & _ & _ & _ & Hb).
  apply (Hb seeded_books).
Defined.

Lemma category_Create_last_witness :
  let r := category_Create demo_cx " Coffee" "expense" "utensils" "" seeded_world in
  exists c, fst r = Ok c /\ c_Name c = "Coffee" /\ c_SortOrder c = 13%Z
    /\ W_db (snd r) = set_categories (<[c_ID c := c]> (db_categories (W_db seeded_world))) (W_db seeded_world).
Proof.
  intros r. assert (E : exists c, fst r = Ok c /\ c_SortOrder c = 13%Z) by (eexists; split; vm_compute; reflexivity).
  destruct E as (c & E & N). exists c. split; [exact E|]. subst r.
  destruct (commits_ok _ _ seeded_world c (category_Create_last demo_cx " Coffee" "expense" "utensils" "" demo_uow_tx
    demo_quiet demo_fresh_ids) E) as (tc & order & _ & _ & _ & En & _ & _ & _ & _ & _ & Ed & _).
  split; [rewrite En; vm_compute; reflexivity|]. split; [exact N | exact Ed].
Defined.

Lemma wallet_Delete_unreferenced_witness :
  let r := wallet_Delete demo_cx 400 two_wallets in
  fst r = Ok tt /\ W_db (snd r) = set_wallets (delete 400%N (db_wallets (W_db two_wallets))) (W_db two_wallets)
  /\ fst (wallet_Delete demo_cx 100 two_wallets) <> Ok tt.
Proof.
  intros r. assert (E : fst r = Ok tt) by (vm_compute; reflexivity). split; [exact E|]. subst r.
  split; [|vm_compute; discriminate].
  destruct (commits_ok _ _ two_wallets tt (wallet_Delete_unreferenced demo_cx 400%N demo_uow_tx demo_quiet) E
    two_wallets_books) as (tc & w & _ & _ & _ & _ & _ & Ed & _). exact Ed.
Defined.

Lemma category_Delete_unreferenced_witness :
  let r := category_Delete demo_cx 400 seeded_world in
  fst r = Ok tt /\ W_db (snd r) = set_categories (delete 400%N (db_categories (W_db seeded_world))) (W_db seeded_world).
Proof.
  intros r. assert (E : fst r = Ok tt) by (vm_compute; reflexivity). split; [exact E|]. subst r.
  destruct (commits_ok _ _ seeded_world tt (category_Delete_unreferenced demo_cx 400%N demo_uow_tx demo_quiet) E
    seeded_books) as (tc & c & _ & _ & _ & _ & _ & Ed & _). exact Ed.
Defined.

(** ** A deleted wallet that a rename brings back *)

(** Just before [Rename] saves, another session creates one wallet and deletes the one being renamed. *)
Definition replace_wallet (db : DB) : World :=
  snd (wallet_Delete demo_cx 400 (snd (wallet_Create demo_cx (mkWalletParams "Spare" "bank" "BCA" "IDR" false)
    (mkWorld db 0)))).
Definition deleting_env : Env := {|
  env_uuid := fun _ db => demo_fresh db;
  env_now := fun _ => (1709942400 * 1000000000)%Z;
  env_fault := fun _ => None;
  env_other := fun n db => if Nat.eqb n 4 then W_db (replace_wallet db) else db;
  env_sheet := fun _ s => s
|}.

(** [Rename] writes back the whole row it read, and its upsert inserts when
    the row is gone: a wallet that another session deletes in between comes back,
    although its deletion had succeeded. *)
Theorem Rename_revives_deleted_wallet :
  let w := mkWorld (W_db two_wallets) 0 in
  let r := @wallet_Rename deleting_env nopMirror demo_uow demo_cx 400 "Savings" w in
  fst (wallet_Delete demo_cx 400 w) = Ok tt
  /\ db_wallets (W_db (replace_wallet (W_db w))) !! 400%N = None
  /\ (exists row, fst r = Ok row /\ db_wallets (W_db (snd r)) !! 400%N = Some row /\ w_Name row = "Savings")
  /\ size (db_wallets (W_db (snd r))) = 3%nat.
Proof.
  intros w r. split; [vm_compute; reflexivity|]. split; [vm_compute; reflexivity|].
  split; [|vm_compute; reflexivity]. eexists. split; [vm_compute; reflexivity|]. split; vm_compute; reflexivity.
Qed.
