(* ===== verification/Listing.v ===== *)
(** * Listing transactions: the note filter and the pages

    SQLite's LIKE on an escaped pattern is a substring test, and the pages a
    cursor walks are one listing cut into pieces. *)
From Stdlib Require Import ZArith Lia String Ascii List.
From stdpp Require Import base gmap list strings sorting.
From S2P Require Import Prelude GoStrings Errors Civil Money Tenant Ledger Period Wallet Category Transaction World Wp.
From S2P Require Import LedgerService PeriodStore PeriodService PeriodTheory PeriodProps Commit WalletService CategoryService.
From S2P Require Import TxStore TxService Books TxTheory BooksOps CategoryTheory LedgerTheory Edits Adapters Balance System LedgerProps TxProps.
Local Open Scope string_scope.
Local Open Scope Z_scope.

(** ** The note filter *)
Definition lower_byte (c : ascii) : ascii := if in_range 65 90 c then ascii_of_N (byte_of c + 32) else c.
Definition special (c : ascii) : bool := existsb (Ascii.eqb c) ["\"%char; "%"%char; "_"%char].

Lemma special_lower c : special (lower_byte c) = special c.
Proof. destruct c as [[] [] [] [] [] [] [] []]; reflexivity. Qed.
Lemma lower_special c : special c = true -> lower_byte c = c.
Proof. destruct c as [[] [] [] [] [] [] [] []]; (reflexivity || discriminate). Qed.

Lemma sqlite_lower_app s t : sqlite_lower (s ++ t) = sqlite_lower s ++ sqlite_lower t.
Proof. induction s as [|c s IH]; cbn; [reflexivity|]. rewrite IH. reflexivity. Qed.
Lemma sqlite_lower_escape s : sqlite_lower (like_escape s) = like_escape (sqlite_lower s).
Proof.
  induction s as [|c s IH]; [reflexivity|]. cbn [like_escape sqlite_lower].
  change (if in_range 65 90 c then ascii_of_N (byte_of c + 32) else c) with (lower_byte c).
  change (existsb (Ascii.eqb c) ["\"%char; "%"%char; "_"%char]) with (special c).
  change (existsb (Ascii.eqb (lower_byte c)) ["\"%char; "%"%char; "_"%char]) with (special (lower_byte c)).
  rewrite special_lower. destruct (special c); cbn [sqlite_lower]; rewrite <- IH; reflexivity.
Qed.

Lemma any_suffix_true f s : f "" = true -> any_suffix f s = true.
Proof. intros Hf. induction s as [|c s IH]; cbn; rewrite ?Hf, ?IH, ?orb_true_r; reflexivity. Qed.

Lemma like_literal c p s : special c = false ->
  like (String c p) s = match s with String d r => Ascii.eqb d c && like p r | EmptyString => false end.
Proof.
  unfold special. cbn [existsb]. rewrite !orb_false_iff. intros (H1 & H2 & H3 & _). cbn [like].
  rewrite H1, H2, H3. reflexivity.
Qed.

(** An escaped pattern followed by [%] matches by prefix. *)
Lemma like_escape_prefix s : forall n, like (like_escape s ++ "%") n = String.prefix s n.
Proof.
  induction s as [|c s IH]; intros n.
  - cbn [like_escape String.append]. cbn [like]. change (Ascii.eqb "%" "%") with true. cbn iota.
    rewrite any_suffix_true by reflexivity. destruct n; reflexivity.
  - cbn [like_escape]. change (existsb (Ascii.eqb c) ["\"%char; "%"%char; "_"%char]) with (special c).
    destruct (special c) eqn:S; cbn [String.append].
    + cbn [like]. change (Ascii.eqb "\" "%") with false. change (Ascii.eqb "\" "_") with false.
      change (Ascii.eqb "\" "\") with true. cbn iota. destruct n as [|d n]; [reflexivity|]. rewrite IH. cbn [String.prefix].
      destruct (Ascii.eqb_spec d c), (ascii_dec c d); cbn [andb]; congruence || reflexivity.
    + rewrite like_literal by exact S. destruct n as [|d n]; [reflexivity|]. rewrite IH. cbn [String.prefix].
      destruct (Ascii.eqb_spec d c), (ascii_dec c d); cbn [andb]; congruence || reflexivity.
Qed.
Lemma any_suffix_contains f sub s : (forall n, f n = String.prefix sub n) -> any_suffix f s = Contains s sub.
Proof. intros Hf. induction s as [|c s IH]; cbn; rewrite Hf; [reflexivity|]. rewrite IH. reflexivity. Qed.

(** A listing's search keeps exactly the notes that contain the searched
    text, ignoring ASCII case, whatever wildcards or escapes the text holds. *)
Theorem note_like_Contains search note :
  note_like search note = Contains (sqlite_lower note) (sqlite_lower search).
Proof.
  unfold note_like, escapeLikePattern. rewrite !sqlite_lower_app, sqlite_lower_escape.
  change (sqlite_lower "%") with "%". cbn [String.append like]. change (Ascii.eqb "%" "%") with true. cbn iota.
  apply any_suffix_contains. intros n. apply like_escape_prefix.
Qed.

(** ** Pages *)
Definition after_of (t : Transaction) : Cursor := mkCursor (t_OccurredAt t) (t_CreatedAt t) (t_ID t).
Definition with_after (o : TxListOpts) (c : option Cursor) : TxListOpts :=
  mkTxListOpts (tl_WalletID o) (tl_CategoryID o) (tl_PeriodID o) (tl_Kinds o) (tl_From o) (tl_To o) (tl_Search o)
    (tl_Limit o) c.

(** The whole listing: every matching transaction of the project, newest first. *)
Definition listing (db : DB) (tc : Tenant) (o : TxListOpts) : list Transaction :=
  sort_by tx_desc (List.filter (list_where (OrgID tc) (ProjectID tc) (OrgID tc) o) (rows (db_txs db))).
Definition page (db : DB) (tc : Tenant) (o : TxListOpts) : list Transaction * option Cursor :=
  let items := firstn (Z.to_nat (NormalizedLimit o)) (listing db tc o) in
  (items, if Z.of_nat (List.length items) <? NormalizedLimit o then None else option_map after_of (last items)).

Lemma NormalizedLimit_pos o : 1 <= NormalizedLimit o.
Proof.
  unfold NormalizedLimit, DefaultListLimit, MaxListLimit.
  destruct (Z.leb_spec (tl_Limit o) 0); [lia|]. destruct (Z.ltb_spec 200 (tl_Limit o)); lia.
Qed.

Lemma tx_desc_spec t u : tx_desc t u = true <->
  t_OccurredAt u < t_OccurredAt t \/ (t_OccurredAt u = t_OccurredAt t
    /\ (t_CreatedAt u < t_CreatedAt t \/ (t_CreatedAt u = t_CreatedAt t /\ (t_ID u <= t_ID t)%N))).
Proof. unfold tx_desc. rewrite !orb_true_iff, !andb_true_iff, !orb_true_iff, !andb_true_iff, !Z.ltb_lt, !Z.eqb_eq, N.leb_le. tauto. Qed.
Lemma after_cursor_spec c t : after_cursor c t = true <->
  t_OccurredAt t < cu_OccurredAt c \/ (t_OccurredAt t = cu_OccurredAt c
    /\ (t_CreatedAt t < cu_CreatedAt c \/ (t_CreatedAt t = cu_CreatedAt c /\ (t_ID t < cu_ID c)%N))).
Proof. unfold after_cursor. rewrite !orb_true_iff, !andb_true_iff, !orb_true_iff, !andb_true_iff, !Z.ltb_lt, !Z.eqb_eq, N.ltb_lt. tauto. Qed.

Lemma tx_desc_total t u : tx_desc t u = true \/ tx_desc u t = true.
Proof. rewrite !tx_desc_spec. lia. Qed.
Lemma tx_desc_trans t u v : tx_desc t u = true -> tx_desc u v = true -> tx_desc t v = true.
Proof. rewrite !tx_desc_spec. lia. Qed.
Lemma tx_desc_antisym t u : tx_desc t u = true -> tx_desc u t = true -> t_ID t = t_ID u.
Proof. rewrite !tx_desc_spec. lia. Qed.
Lemma after_of_desc t u : t_ID u <> t_ID t -> after_cursor (after_of t) u = tx_desc t u.
Proof.
  intros Hn. apply eq_true_iff_eq. rewrite after_cursor_spec, tx_desc_spec. unfold after_of.
  cbn [cu_OccurredAt cu_CreatedAt cu_ID]. lia.
Qed.
Lemma after_of_self t : after_cursor (after_of t) t = false.
Proof. apply not_true_iff_false. rewrite after_cursor_spec. unfold after_of. cbn [cu_OccurredAt cu_CreatedAt cu_ID]. lia. Qed.
Lemma after_trans c x t : after_cursor c x = true -> after_cursor (after_of x) t = true -> after_cursor c t = true.
Proof. rewrite !after_cursor_spec. unfold after_of. cbn [cu_OccurredAt cu_CreatedAt cu_ID]. lia. Qed.

Definition desc (t u : Transaction) : Prop := tx_desc t u = true.
Definition distinct (l : list Transaction) : Prop := NoDup (map t_ID l).

Lemma distinct_perm l l' : l ≡ₚ l' -> distinct l -> distinct l'.
Proof. intros P. unfold distinct. rewrite (Permutation_map t_ID P). auto. Qed.
Lemma distinct_filter f l : distinct l -> distinct (List.filter f l).
Proof.
  unfold distinct. induction l as [|t l IH]; cbn; [auto|]. intros Hd. apply NoDup_cons in Hd as [Hn Hd].
  destruct (f t); [|auto]. cbn. apply NoDup_cons. split; [|auto]. intros Hin. apply Hn.
  apply list_elem_of_In, in_map_iff in Hin as (u & E & Hu). apply filter_In in Hu as [Hu _].
  apply list_elem_of_In, in_map_iff. eauto.
Qed.
Lemma distinct_rows (m : gmap uuid Transaction) : (forall i t, m !! i = Some t -> t_ID t = i) -> distinct (rows m).
Proof.
  intros Hk. unfold distinct, rows. rewrite map_map.
  rewrite (map_ext_in _ fst); [apply NoDup_fst_map_to_list|]. intros [i t] Hin.
  apply list_elem_of_In, elem_of_map_to_list in Hin. exact (Hk i t Hin).
Qed.
Lemma distinct_eq l t u : distinct l -> In t l -> In u l -> t_ID t = t_ID u -> t = u.
Proof.
  unfold distinct. induction l as [|x l IH]; cbn; [intros _ []|]. intros Hd Ht Hu E. apply NoDup_cons in Hd as [Hn Hd].
  assert (Away : forall y, In y l -> t_ID y <> t_ID x).
  { intros y Hy Ey. apply Hn, list_elem_of_In, in_map_iff. eauto. }
  destruct Ht as [->|Ht], Hu as [->|Hu]; auto; exfalso; eapply Away; eauto.
Qed.

Lemma sorted_filter f l : StronglySorted desc l -> StronglySorted desc (List.filter f l).
Proof.
  induction 1 as [|t l Hs IH Hf]; cbn; [constructor|]. destruct (f t); [|exact IH]. constructor; [exact IH|].
  apply List.Forall_forall. intros u Hu. apply filter_In in Hu as [Hu _].
  exact (proj1 (List.Forall_forall _ _) Hf u Hu).
Qed.
(** Filtering commutes with the sort, ids being distinct. *)
Lemma sort_filter f l : distinct l -> sort_by tx_desc (List.filter f l) = List.filter f (sort_by tx_desc l).
Proof.
  intros Hd. apply (StronglySorted_unique_strong desc).
  - intros t u Ht Hu A B. apply list_elem_of_In, In_sort_by in Ht. apply list_elem_of_In, filter_In in Hu as [Hu _].
    apply In_sort_by in Hu. apply filter_In in Ht as [Ht _].
    exact (distinct_eq l t u Hd Ht Hu (tx_desc_antisym t u A B)).
  - apply sort_by_sorted; [exact tx_desc_total | exact tx_desc_trans].
  - apply sorted_filter, sort_by_sorted; [exact tx_desc_total | exact tx_desc_trans].
  - rewrite sort_by_perm. apply filter_perm. symmetry. apply sort_by_perm.
Qed.

(** The rows strictly after one row of a sorted listing are the rest of it. *)
Lemma filter_after l1 x l2 : StronglySorted desc (l1 ++ x :: l2)%list -> distinct (l1 ++ x :: l2)%list ->
  List.filter (after_cursor (after_of x)) (l1 ++ x :: l2)%list = l2.
Proof.
  intros Hs Hd. induction l1 as [|y l1 IH]; cbn [app List.filter] in *.
  - rewrite after_of_self. inversion Hs as [|? ? _ Hf]; subst. apply filter_all. intros u Hu.
    rewrite after_of_desc; [exact (proj1 (List.Forall_forall _ _) Hf u Hu)|]. intros E.
    unfold distinct in Hd. cbn in Hd. apply NoDup_cons in Hd as [Hn _].
    apply Hn, list_elem_of_In, in_map_iff. eauto.
  - inversion Hs as [|? ? Hs' Hf]; subst. unfold distinct in Hd. cbn in Hd. apply NoDup_cons in Hd as [Hn Hd].
    assert (Hx : In x (l1 ++ x :: l2)%list) by (apply in_or_app; right; left; reflexivity).
    assert (Hyx : t_ID y <> t_ID x) by (intros E; apply Hn, list_elem_of_In, in_map_iff; eauto).
    replace (after_cursor (after_of x) y) with false; [apply IH; assumption|].
    symmetry. rewrite after_of_desc by exact Hyx. apply not_true_iff_false. intros B.
    apply Hyx, (tx_desc_antisym y x); [exact (proj1 (List.Forall_forall _ _) Hf x Hx) | exact B].
Qed.

Lemma list_where_after org p s o c t : list_where org p s (with_after o (Some c)) t
  = (list_where org p s (with_after o None) t && after_cursor c t)%bool.
Proof. unfold list_where, with_after. cbn [tl_WalletID tl_CategoryID tl_PeriodID tl_Kinds tl_From tl_To tl_Search tl_After]. rewrite andb_true_r. reflexivity. Qed.
Lemma with_after_same o : with_after o (tl_After o) = o.
Proof. destruct o; reflexivity. Qed.

Lemma filter_ext_in {A} (f g : A -> bool) l : (forall x, In x l -> f x = g x) -> List.filter f l = List.filter g l.
Proof. apply List.filter_ext_in. Qed.
Lemma filter_filter {A} (f g : A -> bool) l : List.filter f (List.filter g l) = List.filter (fun x => g x && f x)%bool l.
Proof. induction l as [|x l IH]; cbn; [reflexivity|]. destruct (g x); cbn; [destruct (f x)|]; rewrite IH; reflexivity. Qed.

Section Pages.
Context (db : DB) (tc : Tenant).
Hypothesis books : Books db.

Lemma listing_sorted o : StronglySorted desc (listing db tc o).
Proof. apply sort_by_sorted; [exact tx_desc_total | exact tx_desc_trans]. Qed.
Lemma listing_distinct o : distinct (listing db tc o).
Proof.
  unfold listing. eapply distinct_perm; [symmetry; apply sort_by_perm|].
  apply distinct_filter, distinct_rows, (bk_tx_key db books).
Qed.
Lemma listing_In o t : In t (listing db tc o) <->
  In t (rows (db_txs db)) /\ list_where (OrgID tc) (ProjectID tc) (OrgID tc) o t = true.
Proof. unfold listing. rewrite In_sort_by. apply filter_In. Qed.

(** After a row of the listing comes the rest of the listing. *)
Lemma listing_after o l1 x l2 : listing db tc o = (l1 ++ x :: l2)%list -> listing db tc (with_after o (Some (after_of x))) = l2.
Proof.
  intros E. assert (Hx : In x (listing db tc o)) by (rewrite E; apply in_or_app; right; left; reflexivity).
  apply listing_In in Hx as [_ Hw]. rewrite <- (filter_after l1 x l2);
    [|rewrite <- E; apply listing_sorted | rewrite <- E; apply listing_distinct].
  rewrite <- E. unfold listing. rewrite <- sort_filter by (apply distinct_filter, distinct_rows, (bk_tx_key db books)).
  f_equal. rewrite filter_filter. apply filter_ext_in. intros t Ht. rewrite list_where_after.
  rewrite <- (with_after_same o) at 2. rewrite <- (with_after_same o) in Hw.
  destruct (tl_After o) as [c|]; [|reflexivity]. rewrite list_where_after in *.
  apply andb_true_iff in Hw as [_ Hc]. destruct (list_where _ _ _ _ t); [cbn [andb]|reflexivity].
  destruct (after_cursor (after_of x) t) eqn:A; [|rewrite andb_false_r; reflexivity].
  rewrite (after_trans c x t Hc A). reflexivity.
Qed.

(** A page with a cursor is followed by the rest of the listing; one without is its end. *)
Lemma page_next o items c : page db tc o = (items, Some c) ->
  items <> [] /\ listing db tc o = (items ++ listing db tc (with_after o (Some c)))%list.
Proof.
  unfold page. cbv zeta. set (n := Z.to_nat (NormalizedLimit o)). pose proof (NormalizedLimit_pos o) as Hp.
  destruct (Z.ltb_spec (Z.of_nat (List.length (firstn n (listing db tc o)))) (NormalizedLimit o)) as [Hl|Hl]; [discriminate|].
  destruct (last (firstn n (listing db tc o))) as [x|] eqn:L; [|discriminate]. intros [= <- <-].
  apply last_Some in L as [l1 E]. split; [rewrite E; destruct l1; discriminate|].
  assert (Full : listing db tc o = (l1 ++ x :: skipn n (listing db tc o))%list).
  { rewrite <- (firstn_skipn n (listing db tc o)) at 1. rewrite E, <- app_assoc. reflexivity. }
  rewrite (listing_after o l1 x _ Full), firstn_skipn. reflexivity.
Qed.
Lemma page_last o items : page db tc o = (items, None) -> items = listing db tc o.
Proof.
  unfold page. cbv zeta. set (n := Z.to_nat (NormalizedLimit o)). pose proof (NormalizedLimit_pos o) as Hp.
  destruct (Z.ltb_spec (Z.of_nat (List.length (firstn n (listing db tc o)))) (NormalizedLimit o)) as [Hl|Hl].
  - intros [= <-]. apply firstn_all2. rewrite length_firstn in Hl. unfold n in *. lia.
  - destruct (last (firstn n (listing db tc o))) as [x|] eqn:L; [discriminate|]. intros _. exfalso.
    apply last_None in L. rewrite L in Hl. cbn in Hl. lia.
Qed.
End Pages.

(** *** The service's pages *)
Section Service.
Context `{Env}.

Lemma reads_tx_List cx tc o : calm cx -> From_ cx = inr tc ->
  reads (fun r db => r = page db tc o) (tx_List cx o).
Proof.
  intros Hc F. unfold tx_List. eapply reads_seq; [apply (reads_of _ _ _ (reads_from_tenant cx))|]. intros tc' [db0 F'].
  rewrite F in F'. injection F' as <-. set (o' := mkTxListOpts _ _ _ _ _ _ _ _ _).
  assert (Eo : NormalizedLimit o' = NormalizedLimit o).
  { unfold o', NormalizedLimit at 1. cbn [tl_Limit]. pose proof (NormalizedLimit_pos o) as Hp.
    unfold NormalizedLimit, DefaultListLimit, MaxListLimit in *. destruct (Z.leb_spec (tl_Limit o) 0); [reflexivity|].
    destruct (Z.ltb_spec 200 (tl_Limit o)); [reflexivity|]. destruct (Z.leb_spec (tl_Limit o) 0); [lia|].
    destruct (Z.ltb_spec 200 (tl_Limit o)); [lia | reflexivity]. }
  eapply (reads_seq _ _ (fun r db => match r with inr l => l = firstn (Z.to_nat (NormalizedLimit o)) (listing db tc o) | inl _ => True end)).
  { eapply reads_e_conseq; [apply reads_try, (reads_read_tx "transaction" cx _
      (fun l db => l = firstn (Z.to_nat (NormalizedLimit o)) (listing db tc o)) (fun _ _ => True)); [exact Hc | auto|] | | auto].
    - intros tc' F'. rewrite F in F'. injection F' as <-. rewrite Eo.
      eapply reads_e_conseq; [apply reads_query | intros l db ->; reflexivity | auto].
    - intros [e|l] db; auto. }
  intros [e|items] _; [apply reads_unexpected; auto|]. unfold page. cbv zeta.
  destruct (Z.of_nat (List.length items) <? NormalizedLimit o) eqn:L.
  - apply reads_ret. intros db ->. rewrite L. reflexivity.
  - destruct (last items) as [t|] eqn:Lt.
    + apply reads_ret. intros db ->. rewrite L, Lt. reflexivity.
    + intros w. split; [reflexivity | exact I].
Qed.

(** A reader that follows the cursors to the end. *)
Fixpoint follow (fuel : nat) (cx : Ctx) (o : TxListOpts) : M (list Transaction) :=
  match fuel with
  | O => st_ret []
  | S f =>
    let* ' (items, next) := tx_List cx o in
    match next with
    | None => st_ret items
    | Some c => let* rest := follow f cx (with_after o (Some c)) in st_ret (items ++ rest)%list
    end
  end.

Lemma reads_follow cx tc : calm cx -> From_ cx = inr tc -> forall fuel o,
  reads (fun l db => Books db -> (List.length (listing db tc o) < fuel)%nat -> l = listing db tc o) (follow fuel cx o).
Proof.
  intros Hc F. induction fuel as [|fuel IH]; intros o; cbn [follow]; [apply reads_ret; lia|].
  eapply reads_seq; [apply (reads_tx_List cx tc o Hc F)|]. intros [items [c|]] _.
  - eapply reads_seq; [apply IH|]. intros rest _. apply reads_ret. intros db Hr Hp B Hl.
    destruct (page_next db tc B o items c (eq_sym Hp)) as [Hne E]. rewrite E in *. f_equal. apply Hr; [exact B|].
    rewrite length_app in Hl. destruct items; [congruence|]. cbn in Hl. lia.
  - apply reads_ret. intros db Hp B _. apply (page_last db tc o items). symmetry. exact Hp.
Qed.

(** With no fault a page is given, and the reader ends. *)
Lemma wp_tx_List cx tc o db : calm cx -> From_ cx = inr tc ->
  wp (tx_List cx o) db (fun r db' => db' = db /\ (faultless -> exists p, r = Ok p)).
Proof.
  intros Hc F. unfold tx_List. apply wp_bind, (wp_from_tenant _ tc); [exact F|]. set (o' := mkTxListOpts _ _ _ _ _ _ _ _ _).
  pose proof (NormalizedLimit_pos o) as Hp.
  apply wp_bind, wp_try, (wp_read_tx _ _ tc); [exact Hc | exact F | |].
  - apply wp_query; [|intros Hf msg; apply wp_err; split; [reflexivity | intros; contradiction]].
    set (items := firstn _ _). destruct (Z.ltb_spec (Z.of_nat (List.length items)) (NormalizedLimit o)) as [L|L];
      [apply wp_ret; eauto|].
    destruct (last items) as [t|] eqn:E; [apply wp_ret; eauto|]. apply last_None in E. rewrite E in L. cbn in L. lia.
  - intros Hf msg. apply wp_err. split; [reflexivity | intros; contradiction].
Qed.
Lemma wp_follow cx tc db : calm cx -> From_ cx = inr tc -> forall fuel o,
  wp (follow fuel cx o) db (fun r db' => db' = db /\ (faultless -> exists l, r = Ok l)).
Proof.
  intros Hc F. induction fuel as [|fuel IH]; intros o; cbn [follow]; [apply wp_ret; eauto|].
  apply wp_bind. eapply wp_conseq; [apply (wp_tx_List cx tc); assumption|].
  intros [[items [c|]]|e|p] db' [-> Hf]; [|apply wp_ret; eauto | |].
  2,3: split; [reflexivity|]; intros Hn; destruct (Hf Hn); discriminate.
  apply wp_bind. eapply wp_conseq; [apply IH|]. intros [l|e|p] db' [-> Hl]; [apply wp_ret; eauto | |].
  all: split; [reflexivity|]; intros Hn; destruct (Hl Hn); discriminate.
Qed.

(** C37: Following the cursors of [List] from any start to the end terminates: with
    no fault and no interference the reader returns, whatever the page size, and
    with more fuel than there are transactions what it returns is every matching
    transaction of the project exactly once, newest first. *)
Theorem pages_complete cx tc o fuel w : quiet -> From_ cx = inr tc -> Books (W_db w) ->
  (List.length (listing (W_db w) tc o) < fuel)%nat ->
  W_db (snd (follow fuel cx o w)) = W_db w
  /\ (faultless -> exists l, fst (follow fuel cx o w) = Ok l)
  /\ forall l, fst (follow fuel cx o w) = Ok l ->
      NoDup (map t_ID l) /\ StronglySorted desc l
      /\ forall t, In t l <-> In t (rows (db_txs (W_db w))) /\ list_where (OrgID tc) (ProjectID tc) (OrgID tc) o t = true.
Proof.
  intros Hq F B Hf. pose proof (calm_quiet cx Hq) as Hc.
  destruct (wp_follow cx tc _ Hc F fuel o w eq_refl) as [Ed Hn]. split; [exact Ed|]. split; [exact Hn|]. intros l E.
  destruct (reads_follow cx tc Hc F fuel o w) as [_ HP].
  rewrite E in HP. assert (l = listing (W_db w) tc o) as -> by (apply HP; assumption).
  split; [apply (listing_distinct _ tc B)|]. split; [apply listing_sorted | apply listing_In].
Qed.
End Service.

#[local] Existing Instances demo_env.
Definition all_pages : TxListOpts := mkTxListOpts None None None [] None None "" 2 None.
(** The demo batch's world: three transactions, read two at a time. *)
Definition listed_world : World := snd (@RecordBatch demo_env nopMirror demo_uow (@walletReaderFor demo_env)
  (@categoryReaderFor demo_env) (@periodResolverAdapter demo_env (demo_settings demo_env)) demo_cx demo_batch opened_world).
Lemma listed_books : Books (W_db listed_world).
Proof.
  exact (proj1 (proj1 (@RecordBatch_step demo_env nopMirror nopMirror_laws demo_uow _ _ _
    walletReaderFor_laws categoryReaderFor_laws (@periodResolverAdapter_laws demo_env (demo_settings demo_env) (demo_settings_laws demo_env))
    demo_uow_tx demo_fresh_ids ledger_step ledger_step_pre (fun _ _ S => S)
    (fun _ db => ledger_step_pre.(PreOrder_Reflexive) db) demo_cx demo_batch opened_world) (books_of _ opened_sound))).
Qed.
Lemma pages_complete_witness :
  exists l, fst (follow 4 demo_cx all_pages listed_world) = Ok l /\ List.length l = 3%nat
    /\ NoDup (map t_ID l) /\ StronglySorted desc l /\ map t_ID l = [500; 400; 300]%N.
Proof.
  assert (E : exists l, fst (follow 4 demo_cx all_pages listed_world) = Ok l /\ List.length l = 3%nat /\ map t_ID l = [500; 400; 300]%N)
    by (eexists; split; [vm_compute; reflexivity | split; vm_compute; reflexivity]).
  destruct E as (l & E & N & Ids). exists l. split; [exact E|]. split; [exact N|].
  destruct (pages_complete demo_cx demo_tenant all_pages 4 listed_world demo_quiet eq_refl listed_books
    ltac:(vm_compute; lia)) as (_ & _ & Hl).
  destruct (Hl l E) as (Hd & Hs & _).
  split; [exact Hd|]. split; [exact Hs | exact Ids].
Defined.
