(* ===== verification/ReportProps.v ===== *)
(** * Properties of the reports

    The balances the reports print are the balances of the transactions service;
    a period's summary adds up the transactions before it and in it; the
    snapshot a close stores is that summary; closing balances carry over. *)
From Stdlib Require Import ZArith Lia String List.
From stdpp Require Import base gmap list strings.
From S2P Require Import Prelude GoStrings Errors Civil Money Tenant Ledger Period Wallet Category Transaction World.
From S2P Require Import LedgerService PeriodStore PeriodService Commit WalletService CategoryService TxStore TxService Report.
From S2P Require Import PeriodService PeriodTheory PeriodProps Books TxTheory BooksOps LedgerTheory Balance ReportTheory.
From S2P Require Import Adapters System LedgerProps TxProps.
Local Open Scope string_scope.
Local Open Scope Z_scope.

(** ** The wallets a report lists *)

Lemma reads_ok {E A} (P : A -> DB -> Prop) (m : ST World E A) w a : reads P m -> fst (m w) = Ok a -> P a (W_db w).
Proof. intros Hm E1. destruct (Hm w) as [_ Hw]. rewrite E1 in Hw. exact Hw. Qed.

Lemma report_wallets_In db o s p keep w :
  In w (report_wallets db o s p keep) <->
  In w (rows (db_wallets db)) /\ w_OrgID w = o /\ w_OrgID w = s /\ w_ProjectID w = p /\ keep w = true.
Proof.
  unfold report_wallets. rewrite In_sort_by, List.filter_In, !andb_true_iff, !N.eqb_eq. tauto.
Qed.
Lemma report_txs_sound db tc t : Books db -> int64_amounts db ->
  In t (report_txs db (OrgID tc) (OrgID tc) (ProjectID tc)) -> sound_tx t.
Proof.
  intros B Hi Ht. apply project_txs_In in Ht as [Hin _]. apply rows_In in Hin as (i & Ht).
  split; [apply (tb_ok db), (bk_tx db B i t Ht) | apply (Hi i t Ht)].
Qed.
Lemma zero_effect db t w v : Books db -> In t (rows (db_txs db)) -> In w (rows (db_wallets db)) ->
  v = w_Currency w -> AmountCurrency (t_Amount t) <> v -> Minor (Effect t (w_ID w)) = 0.
Proof.
  intros B Ht Hw -> Hc. apply rows_In in Ht as (i & Ht). apply rows_In in Hw as (j & Hw).
  pose proof (bk_tx db B i t Ht) as Bt. pose proof (bk_wallet_key db B j w Hw) as <-.
  assert (Hno : forall x, wallet_matches db t x -> x <> w_ID w).
  { intros x (u & Hu & _ & _ & E) ->. rewrite Hw in Hu. injection Hu as <-. congruence. }
  unfold Effect. destruct (N.eqb_spec (w_ID w) (t_WalletID t)) as [E|_];
    [destruct (Hno _ (tb_wallet db t Bt)); congruence|].
  destruct (String.eqb _ _); [|reflexivity]. destruct (t_ToWalletID t) as [to|] eqn:Et; [|reflexivity].
  destruct (N.eqb_spec (w_ID w) to) as [E|_]; [|reflexivity].
  destruct (Hno to (tb_to db t Bt to Et)). congruence.
Qed.
(** The currency filter of the summary drops nothing a wallet of that currency holds. *)
Lemma effects_in_currency db tc w cur (P : Transaction -> bool) : Books db -> In w (rows (db_wallets db)) ->
  w_Currency w = cur ->
  effects (List.filter P (List.filter (in_currency cur) (project_txs db tc))) (w_ID w)
  = effects (List.filter P (project_txs db tc)) (w_ID w).
Proof.
  intros B Hw Ec. unfold effects. rewrite !sumZ_filter. apply sumZ_ext. intros t Ht.
  apply project_txs_In in Ht as [Hin _]. unfold in_currency.
  destruct (String.eqb_spec (AmountCurrency (t_Amount t)) cur) as [E|E]; [reflexivity|].
  rewrite (zero_effect db t w cur B Hin Hw (eq_sym Ec) E). destruct (P t); reflexivity.
Qed.

(** A masked read of a query of the caller's project. *)
Lemma reads_masked_query `{Env} {A B} cx tc op op' (q : Tenant -> DB -> option A) (f : A -> B) :
  calm cx -> From_ cx = inr tc ->
  reads (fun out db => exists a, q tc db = Some a /\ out = f a)
    (masked op (read_tx "report" cx (fun tc => let* rows := sum_query op' (q tc) in st_ret (f rows)))).
Proof.
  intros Hc F. unfold masked.
  eapply (reads_seq _ _ (fun r db => match r with inr out => exists a, q tc db = Some a /\ out = f a | inl _ => True end)).
  { apply reads_try, reads_read_tx; [exact Hc | auto|]. intros tc' F'. rewrite F in F'. injection F' as <-.
    eapply reads_seq; [apply reads_sum_query|]. intros rs _. apply reads_ret. eauto. }
  intros [e|out] _; [apply reads_unexpected; auto|]. apply reads_ret. eauto.
Qed.

(** ** Live balances *)

(** What a line of [WalletBalances] says of its wallet. *)
Definition live_line (db : DB) (tc : Tenant) (w : Wallet) (l : WalletLine) : Prop :=
  wl_WalletID l = w_ID w /\ wl_Name l = w_Name w /\ wl_Kind l = w_Kind w
  /\ wl_ExcludeFromTotal l = w_ExcludeFromTotal w
  /\ wl_Closing l = New (balance_of db tc (w_ID w)) (w_Currency w).

Lemma wrap_net o i u : in_int64 o -> in_int64 i -> in_int64 u ->
  wrap64 (wrap64 (o + i) - u) = wrap64 (o + (i - u)).
Proof.
  intros _ _ _. apply wrap64_cong. rewrite Zminus_mod, wrap64_eqm, <- Zminus_mod. f_equal. lia.
Qed.
Lemma live_balances db tc rs : Books db -> int64_amounts db ->
  walletBalances db (OrgID tc) (OrgID tc) (ProjectID tc) = Some rs ->
  Forall2 (live_line db tc) (report_wallets db (OrgID tc) (OrgID tc) (ProjectID tc) (kept_wallet None))
    (map (fun r => movement_line (fst r) (snd r)) rs).
Proof.
  intros B Hi Hr. unfold walletBalances in Hr. apply mapM_Some in Hr. apply Forall2_fmap_r.
  eapply Forall2_impl; [exact Hr|]. intros w [m c]. cbn.
  destruct (wallet_movement _ w) as [m'|] eqn:Em; [|discriminate]. intros [= -> <-].
  destruct (total_movement w _ m (fun t => report_txs_sound db tc t B Hi) Em) as (Ho & Hn & Rn & Ri).
  apply wallet_movement_inv in Em as (E & _). rewrite E. unfold live_line, movement_line. cbn.
  repeat (split; [reflexivity|]). f_equal.
  rewrite E in Ho, Hn, Rn, Ri. cbn in Ho, Hn, Rn, Ri. rewrite Ho, Z.add_0_l, (wrap64_id _ Ri), (wrap64_id _ Rn).
  exact Hn.
Qed.

(** C10: [WalletBalances] lists exactly the active wallets of the caller's project,
    in order, each in its own currency with the balance the transactions service
    computes for it: the sum of the effects of the project's transactions. *)
Theorem WalletBalances_exact `{Env} cx :
  quiet ->
  reads (fun lines db => Books db -> int64_amounts db -> exists tc, From_ cx = inr tc
      /\ Forall2 (live_line db tc)
           (report_wallets db (OrgID tc) (OrgID tc) (ProjectID tc) (kept_wallet None)) lines
      /\ forall w, In w (report_wallets db (OrgID tc) (OrgID tc) (ProjectID tc) (kept_wallet None)) <->
           In w (rows (db_wallets db)) /\ w_OrgID w = OrgID tc /\ w_ProjectID w = ProjectID tc
           /\ Wallet_IsArchived w = false)
    (WalletBalances cx).
Proof.
  intros Hq. unfold WalletBalances, reader_WalletBalances.
  eapply reads_seq; [apply (reads_of _ _ _ (reads_from_tenant cx))|]. intros tc [db0 F].
  eapply reads_conseq; [apply (reads_masked_query cx tc _ _
    (fun tc' db => walletBalances db (OrgID tc) (OrgID tc') (ProjectID tc)) _ (calm_quiet cx Hq) F)|].
  intros lines db (rs & Hr & ->) _ B Hi.
  exists tc. split; [exact F|]. split; [apply live_balances; assumption|]. intros w. rewrite report_wallets_In.
  unfold kept_wallet, Wallet_IsArchived. destruct (w_ArchivedAt w); intuition congruence.
Qed.

(** ** A period's summary *)

(** What a wallet holds before the period [id], and what moves in it. *)
Definition opening_of (db : DB) (tc : Tenant) (id : uuid) (startUTC : Z) (w : uuid) : Z :=
  effects (List.filter (prior db (OrgID tc) (ProjectID tc) id startUTC) (project_txs db tc)) w.
Definition moved_in (db : DB) (tc : Tenant) (id : uuid) (w : uuid) : Z :=
  effects (List.filter (of_period id) (project_txs db tc)) w.

(** A line of a summary, against the transactions. *)
Definition summary_line (db : DB) (tc : Tenant) (id : uuid) (cur : Currency) (startUTC : Z) (w : Wallet)
    (l : WalletLine) : Prop :=
  wl_WalletID l = w_ID w /\ wl_Name l = w_Name w /\ in_int64 (opening_of db tc id startUTC (w_ID w))
  /\ wl_Opening l = New (opening_of db tc id startUTC (w_ID w)) cur
  /\ wl_Closing l = New (wrap64 (opening_of db tc id startUTC (w_ID w) + moved_in db tc id (w_ID w))) cur.

Lemma summary_lines db tc id cur startUTC cut moves : Books db -> int64_amounts db ->
  walletLines db (OrgID tc) (OrgID tc) (ProjectID tc) id cur startUTC cut = Some moves ->
  Forall2 (summary_line db tc id cur startUTC)
    (report_wallets db (OrgID tc) (OrgID tc) (ProjectID tc)
       (fun w => String.eqb (w_Currency w) cur && kept_wallet cut w))
    (map (fun m => movement_line m cur) moves).
Proof.
  intros B Hi Hr. unfold walletLines in Hr. apply mapM_Some in Hr. apply Forall2_fmap_r.
  set (ws := report_wallets _ _ _ _ _) in *.
  assert (Hws : Forall (fun w => In w (rows (db_wallets db)) /\ w_Currency w = cur) ws).
  { apply List.Forall_forall. intros w Hw. apply report_wallets_In in Hw as (Hin & _ & _ & _ & Hk).
    apply andb_prop in Hk as [Hk _]. apply String.eqb_eq in Hk. auto. }
  revert Hws. induction Hr as [|w m ws' ms Hm Hr IH]; intros Hws; [constructor|].
  inversion Hws as [|? ? [Hin Ec] Hws']; subst. constructor; [|apply IH, Hws'].
  destruct (period_movement db _ _ id startUTC w _ m
    (fun t Ht => report_txs_sound db tc t B Hi (proj1 (proj1 (List.filter_In _ _ _) Ht))) Hm) as (Ho & Hn & Ro & Ri & Ru).
  apply wallet_movement_inv in Hm as (E & _).
  assert (Ho' : wm_Opening m = opening_of db tc id startUTC (w_ID w))
    by (rewrite Ho; apply (effects_in_currency db tc w _ _ B Hin eq_refl)).
  assert (Hn' : wm_In m - wm_Out m = moved_in db tc id (w_ID w))
    by (rewrite Hn; apply (effects_in_currency db tc w _ _ B Hin eq_refl)).
  unfold summary_line, movement_line, compose. cbn [wl_WalletID wl_Name wl_Opening wl_Closing].
  rewrite (wrap_net _ _ _ Ro Ri Ru). rewrite Ho' in *. rewrite Hn'. rewrite E. cbn. auto.
Qed.

(** What a summary says. *)
Definition summary_exact (db : DB) (tc : Tenant) (id : uuid) (cur : Currency) (startUTC : Z) (cut : option Z)
    (s : PeriodSummary) : Prop :=
  let ts := List.filter (fun t => of_period id t && in_currency cur t) (project_txs db tc) in
  ps_Currency s = cur
  /\ ps_Income s = New (sumZ (map income_of ts)) cur /\ ps_Expense s = New (sumZ (map expense_of ts)) cur
  /\ ps_Net s = New (sumZ (map income_of ts) - sumZ (map expense_of ts)) cur
  /\ ps_TxCount s = Z.of_nat (List.length (List.filter (kind_in [TxIncome; TxExpense]) ts))
  /\ Forall2 (summary_line db tc id cur startUTC)
       (report_wallets db (OrgID tc) (OrgID tc) (ProjectID tc)
          (fun w => String.eqb (w_Currency w) cur && kept_wallet cut w)) (ps_Wallets s).

Lemma totals_nonneg db tc (f : Transaction -> Z) ts : Books db ->
  (forall t, In t ts -> In t (project_txs db tc)) ->
  (forall t, f t = 0 \/ f t = Minor (t_Amount t)) -> 0 <= sumZ (map f ts).
Proof.
  intros B Hts Hf. apply sumZ_nonneg. intros x Hx. apply in_map_iff in Hx as (t & <- & Ht).
  apply Hts, project_txs_In in Ht as [Hin _]. apply rows_In in Hin as (i & Hti).
  destruct (tb_ok db t (bk_tx db B i t Hti)) as (_ & _ & Hp & _). destruct (Hf t) as [->| ->]; lia.
Qed.

Lemma summary_is_exact db tc id cur startUTC cut s : Books db -> int64_amounts db ->
  summary_is db tc (ProjectID tc) id cur startUTC cut s -> summary_exact db tc id cur startUTC cut s.
Proof.
  intros B Hi (q & income & expense & n & moves & Hq & Ht & Hl & ->). unfold summaryTotals in Ht.
  change (report_txs db (OrgID tc) (OrgID tc) (ProjectID tc)) with (project_txs db tc) in Ht.
  unfold summary_exact. cbn zeta. set (ts := List.filter _ (project_txs db tc)) in *.
  destruct (sql_sum (map income_of ts)) as [i|] eqn:Ei; [|discriminate].
  destruct (sql_sum (map expense_of ts)) as [e|] eqn:Ee; [|discriminate]. injection Ht as <- <- <-.
  apply sql_sum_sum in Ei as [-> Ri]. apply sql_sum_sum in Ee as [-> Re].
  assert (Hts : forall t, In t ts -> In t (project_txs db tc)) by (intros t Hin; apply List.filter_In in Hin; tauto).
  assert (Pi : 0 <= sumZ (map income_of ts))
    by (apply (totals_nonneg db tc income_of ts B Hts); intros t; unfold income_of; destruct (kind_in _ _); auto).
  assert (Pe : 0 <= sumZ (map expense_of ts))
    by (apply (totals_nonneg db tc expense_of ts B Hts); intros t; unfold expense_of; destruct (kind_in _ _); auto).
  unfold assembleSummary. cbn [ps_Currency ps_Income ps_Expense ps_Net ps_TxCount ps_Wallets].
  rewrite wrap64_id by (unfold in_int64, min_int64, max_int64 in *; lia).
  repeat (split; [reflexivity|]). apply summary_lines; assumption.
Qed.

Lemma reads_Summary `{Env, ReportSettings, !ReportSettingsLaws} cx id :
  quiet ->
  reads (fun s db => Books db -> int64_amounts db -> exists tc p cur loc, From_ cx = inr tc
      /\ db_periods db !! id = Some p /\ in_scope tc id p
      /\ summary_exact db tc id cur (In_ (pr_StartDate p) loc) (ArchivedBefore (closed_ref p) loc) s)
    (report_Summary cx id).
Proof.
  intros Hq. unfold report_Summary, summary.
  eapply reads_seq; [apply (reads_of _ _ _ (reads_from_tenant cx))|]. intros tc [db0 F].
  eapply reads_conseq; [apply (reads_summaryAs cx tc); [apply calm_quiet, Hq | exact F]|].
  intros s db (p & cur & loc & (Hin & I & O & _ & P) & Hs) _ B Hi. exists tc, p, cur, loc.
  split; [exact F|]. split; [|split; [repeat split; assumption | apply summary_is_exact; assumption]].
  apply rows_In in Hin as (i & Hin). pose proof (bk_period_key db B i p Hin). congruence.
Qed.


(** ** Balances carry over *)

(** In a chain of periods, what counts before the next one is what counts before
    this one and in it. *)
Lemma prior_next db tc idp idq p q e t : Chain db -> Books db ->
  db_periods db !! idp = Some p -> db_periods db !! idq = Some q ->
  in_scope tc idp p -> in_scope tc idq q -> pr_EndDate p = Some e -> days (pr_StartDate q) = days e + 1 ->
  In t (project_txs db tc) -> forall sp sq,
  (t_PeriodID t = None -> t_OccurredAt t < sp /\ t_OccurredAt t < sq) ->
  prior db (OrgID tc) (ProjectID tc) idq sq t
  = prior db (OrgID tc) (ProjectID tc) idp sp t || of_period idp t.
Proof.
  intros Hc B Hp Hq (Ip & Op & Pp) (Iq & Oq & Pq) He Hs Ht sp sq Hu. unfold prior, of_period.
  destruct (t_PeriodID t) as [r|] eqn:Er.
  2: { destruct (Hu eq_refl) as [Hp' Hq']. rewrite orb_false_r, (proj2 (Z.ltb_lt _ _) Hp'), (proj2 (Z.ltb_lt _ _) Hq'). reflexivity. }
  apply project_txs_In in Ht as (Hin & Ot & Pt). apply rows_In in Hin as (i & Hti).
  destruct (tb_period db t (bk_tx db B i t Hti) r Er) as (pr & Hpr & Opr & Ppr).
  assert (Hf : forall id x, db_periods db !! id = Some x -> in_scope tc id x ->
    List.find (fun y => N.eqb (pr_ID y) id && period_in_project (OrgID tc) (ProjectID tc) y) (rows (db_periods db)) = Some x).
  { intros id x Hx (Ix & Ox & Px). destruct (List.find _ _) as [y|] eqn:Ef.
    - apply find_some in Ef as [Hy Ey]. apply andb_prop in Ey as [Ey _]. apply N.eqb_eq in Ey.
      apply rows_In in Hy as (j & Hy). pose proof (ch_key db Hc j y Hy). congruence.
    - pose proof (List.find_none _ _ Ef x) as Hn. cbn in Hn. rewrite Ix, N.eqb_refl in Hn.
      unfold period_in_project in Hn. rewrite Ox, Px, !N.eqb_refl in Hn. cbn in Hn.
      discriminate Hn. apply rows_In. eauto. }
  rewrite (Hf idp p Hp), (Hf idq q Hq) by (repeat split; assumption).
  assert (Hex : forall x, existsb (fun y => N.eqb (pr_ID y) r && period_in_project (OrgID tc) (ProjectID tc) y
      && Before (pr_StartDate y) (pr_StartDate x)) (rows (db_periods db)) = Before (pr_StartDate pr) (pr_StartDate x)).
  { intros x. apply eq_true_iff_eq. rewrite existsb_exists. split.
    - intros (y & Hy & Ey). rewrite !andb_true_iff, N.eqb_eq in Ey. destruct Ey as [[Ey _] Eb].
      apply rows_In in Hy as (j & Hy). pose proof (ch_key db Hc j y Hy). assert (y = pr) by congruence. subst y. exact Eb.
    - intros Hb. exists pr. split; [apply rows_In; eauto|]. rewrite (ch_key db Hc r pr Hpr), N.eqb_refl, Hb.
      unfold period_in_project. rewrite Opr, Ppr, Ot, Pt, !N.eqb_refl. reflexivity. }
  rewrite !Hex. apply eq_true_iff_eq. rewrite orb_true_iff, N.eqb_eq, !Before_spec.
  pose proof (ch_end db Hc idp p e Hp He) as Hpe. split.
  - intros Hlt. destruct (decide (r = idp)) as [->|Hne]; [auto|]. left.
    assert (HP : pr_ProjectID pr = pr_ProjectID p) by congruence.
    destruct (ch_disjoint db Hc r idp pr p Hpr Hp Hne HP) as [(e' & He' & Hb)|(e' & He' & Hb)].
    + pose proof (ch_end db Hc r pr e' Hpr He'). lia.
    + rewrite He in He'. injection He' as <-. lia.
  - intros [Hlt|<-]; [lia|]. rewrite Hp in Hpr. injection Hpr as <-. lia.
Qed.

Lemma filter_or_sum {A} (P Q : A -> bool) (f : A -> Z) l :
  (forall x, In x l -> P x = true -> Q x = true -> False) ->
  sumZ (map f (List.filter (fun x => P x || Q x) l)) = sumZ (map f (List.filter P l)) + sumZ (map f (List.filter Q l)).
Proof.
  intros Hd. rewrite !sumZ_filter, <- sumZ_plus. apply sumZ_ext. intros x Hx. specialize (Hd x Hx).
  destruct (P x), (Q x); cbn; lia.
Qed.
Lemma prior_not_in db o p id s t : Chain db -> prior db o p id s t = true -> of_period id t = true -> False.
Proof.
  intros Hc. unfold prior, of_period. destruct (t_PeriodID t) as [r|]; [|discriminate]. intros Hp ->%N.eqb_eq. revert Hp.
  destruct (List.find _ _) as [x|] eqn:Ef; [|discriminate]. rewrite existsb_exists. intros (y & Hy & Ey).
  apply find_some in Ef as [Hx Ex]. cbn beta in Ex, Ey.
  apply andb_prop in Ex as [Ex%N.eqb_eq _]. apply andb_prop in Ey as [[Ey%N.eqb_eq _]%andb_prop Eb].
  apply rows_In in Hx as (i & Hx). apply rows_In in Hy as (j & Hy).
  pose proof (ch_key db Hc i x Hx). pose proof (ch_key db Hc j y Hy). assert (y = x) by congruence. subst y.
  apply Before_spec in Eb. lia.
Qed.
Lemma opening_next db tc idp idq p q e sp sq w : Chain db -> Books db ->
  db_periods db !! idp = Some p -> db_periods db !! idq = Some q ->
  in_scope tc idp p -> in_scope tc idq q -> pr_EndDate p = Some e -> days (pr_StartDate q) = days e + 1 ->
  (forall t, In t (project_txs db tc) -> t_PeriodID t = None -> t_OccurredAt t < sp /\ t_OccurredAt t < sq) ->
  opening_of db tc idq sq w = opening_of db tc idp sp w + moved_in db tc idp w.
Proof.
  intros Hc B Hp Hq Sp Sq He Hs Hu. unfold opening_of, moved_in, effects.
  rewrite <- filter_or_sum by (intros t _; apply prior_not_in, Hc).
  rewrite !(sumZ_filter _ (fun t => Minor (Effect t w))). apply sumZ_ext. intros t Ht.
  rewrite (prior_next db tc idp idq p q e t Hc B Hp Hq Sp Sq He Hs Ht sp sq (Hu t Ht)). reflexivity.
Qed.
Lemma Forall2_In_r {A B} (P : A -> B -> Prop) l k y : Forall2 P l k -> In y k -> exists x, In x l /\ P x y.
Proof.
  induction 1 as [|x z l k Hxz _ IH]; cbn; [tauto|]. intros [->|Hin]; [eauto|].
  destruct (IH Hin) as (x' & Hx' & Hp). eauto.
Qed.

(** Two exact summaries of consecutive periods carry the balances over. *)
Lemma summaries_carry db tc idp idq p q e cur sp sq cutp cutq a b :
  Books db -> Chain db ->
  db_periods db !! idp = Some p -> db_periods db !! idq = Some q -> in_scope tc idp p -> in_scope tc idq q ->
  pr_EndDate p = Some e -> days (pr_StartDate q) = days e + 1 ->
  summary_exact db tc idp cur sp cutp a -> summary_exact db tc idq cur sq cutq b ->
  (forall t, In t (project_txs db tc) -> t_PeriodID t = None -> t_OccurredAt t < sp /\ t_OccurredAt t < sq) ->
  forall la lb, In la (ps_Wallets a) -> In lb (ps_Wallets b) -> wl_WalletID la = wl_WalletID lb ->
    wl_Opening lb = wl_Closing la.
Proof.
  intros B Hc Hp Hq Sp Sq He Hs (_ & _ & _ & _ & _ & Ha) (_ & _ & _ & _ & _ & Hb) Hu la lb Hla Hlb Hw.
  destruct (Forall2_In_r _ _ _ _ Ha Hla) as (v & _ & Ev & _ & _ & _ & Cv).
  destruct (Forall2_In_r _ _ _ _ Hb Hlb) as (w & _ & Ew & _ & Rw & Ow & _).
  rewrite Cv, Ow. f_equal. assert (E : w_ID v = w_ID w) by congruence. rewrite E.
  rewrite <- (wrap64_id _ Rw). f_equal. exact (opening_next db tc idp idq p q e sp sq (w_ID w) Hc B Hp Hq Sp Sq He Hs Hu).
Qed.

(** Closing balances carry over: when one period ends the day before another
    starts, the summaries of the two are taken over the same database and in the
    same currency, and what is assigned to no period happened before both start,
    each wallet opens the second period with the balance it closed the first. *)
Theorem closing_balances_carry `{Env, ReportSettings, !ReportSettingsLaws} cx db w w' idp idq p q e a b :
  quiet -> W_db w = db -> W_db w' = db -> Books db -> Chain db -> int64_amounts db ->
  db_periods db !! idp = Some p -> db_periods db !! idq = Some q ->
  pr_EndDate p = Some e -> days (pr_StartDate q) = days e + 1 ->
  fst (report_Summary cx idp w) = Ok a -> fst (report_Summary cx idq w') = Ok b -> ps_Currency a = ps_Currency b ->
  exists tc lp lq, From_ cx = inr tc
    /\ summary_exact db tc idp (ps_Currency a) (In_ (pr_StartDate p) lp) (ArchivedBefore (closed_ref p) lp) a
    /\ summary_exact db tc idq (ps_Currency a) (In_ (pr_StartDate q) lq) (ArchivedBefore (closed_ref q) lq) b
    /\ ((forall t, In t (project_txs db tc) -> t_PeriodID t = None ->
           t_OccurredAt t < In_ (pr_StartDate p) lp /\ t_OccurredAt t < In_ (pr_StartDate q) lq) ->
         forall la lb, In la (ps_Wallets a) -> In lb (ps_Wallets b) -> wl_WalletID la = wl_WalletID lb ->
           wl_Opening lb = wl_Closing la).
Proof.
  intros Hn Edb Ew B Hc Hi Hp Hq He Hs Ea Eb Ecur. rewrite <- Edb in *.
  destruct (reads_ok _ _ _ _ (reads_Summary cx idp Hn) Ea B Hi) as (tc & p' & cp & lp & F & Hp' & Sp & Ha).
  pose proof (reads_ok _ _ _ _ (reads_Summary cx idq Hn) Eb) as Hb. cbn beta in Hb. rewrite Ew in Hb.
  destruct (Hb B Hi) as (tc' & q' & cq & lq & F' & Hq' & Sq & Hb'). rewrite F in F'. injection F' as <-.
  assert (p' = p) as -> by congruence. assert (q' = q) as -> by congruence.
  assert (cp = ps_Currency a) as -> by (destruct Ha as (<- & _); reflexivity).
  assert (cq = ps_Currency a) as -> by (destruct Hb' as (E1 & _); congruence).
  exists tc, lp, lq. split; [exact F|]. split; [exact Ha|]. split; [exact Hb'|].
  intros Hu. exact (summaries_carry _ tc idp idq p q e _ _ _ _ _ a b B Hc Hp Hq Sp Sq He Hs Ha Hb' Hu).
Qed.

(** ** The snapshot of a close *)





(** ** The breakdowns of a period *)

(** A key of [ks] picks [v] once. *)
Lemma sumZ_pick {K} `{EqDecision K} (ks : list K) k v : List.NoDup ks -> In k ks ->
  sumZ (map (fun x => if bool_decide (k = x) then v else 0) ks) = v.
Proof.
  assert (Hno : forall l, ~ In k l -> sumZ (map (fun x => if bool_decide (k = x) then v else 0) l) = 0).
  { unfold sumZ. induction l as [|y l IH]; cbn; [reflexivity|]. intros Hl. case_bool_decide as Hk; [subst; tauto|]. rewrite IH; tauto. }
  induction 1 as [|x l Hx Hn IH]; [contradiction|]. change (x :: l) with ([x] ++ l)%list.
  rewrite map_app, sumZ_app. cbn. intros [->|Hin].
  - rewrite bool_decide_eq_true_2, Hno by auto. lia.
  - rewrite bool_decide_eq_false_2 by (intros ->; contradiction). rewrite (IH Hin). lia.
Qed.
(** Sums by group add up to the sum. *)
Lemma sum_groups {A K} `{EqDecision K} (key : A -> K) (f : A -> Z) ks l : List.NoDup ks -> (forall a, In a l -> In (key a) ks) ->
  sumZ (map (fun k => sumZ (map f (List.filter (fun a => bool_decide (key a = k)) l))) ks) = sumZ (map f l).
Proof.
  intros Hn. induction l as [|a l IH]; intros Hks; [unfold sumZ; cbn; clear; induction ks; cbn; auto|].
  cbn [map]. change (sumZ (f a :: map f l)) with (f a + sumZ (map f l)).
  rewrite <- IH, <- (sumZ_pick ks (key a) (f a)) by (auto with datatypes). rewrite <- sumZ_plus.
  apply sumZ_ext. intros k _. cbn. destruct (bool_decide (key a = k)); reflexivity.
Qed.
Lemma group_keys_spec {K} `{EqDecision K} (ks : list K) : List.NoDup (group_keys ks) /\ forall k, In k ks -> In k (group_keys ks).
Proof. split; [apply NoDup_nodup | intros k; apply nodup_In]. Qed.
Lemma Forall2_map_eq {A B C} (f : A -> C) (g : B -> C) l k : Forall2 (fun a b => g b = f a) l k -> map g k = map f l.
Proof. induction 1; cbn; congruence. Qed.
Lemma length_sum {A} (l : list A) : Z.of_nat (List.length l) = sumZ (map (fun _ => 1) l).
Proof. unfold sumZ. induction l as [|x l IH]; cbn [List.length map fold_right]; lia. Qed.

(** A period's transactions of one kind in one currency. *)
Definition kind_txs (db : DB) (tc : Tenant) (id : uuid) (cur : Currency) (kind : string) : list Transaction :=
  List.filter (fun t => of_period id t && in_currency cur t && String.eqb (t_Kind t) kind) (project_txs db tc).
Definition minor_sum (ts : list Transaction) : Z := sumZ (map (fun t => Minor (t_Amount t)) ts).

(** The slices of a breakdown: one per category, adding up to the whole, each with its share of it. *)
Definition slices_of (db : DB) (tc : Tenant) (id : uuid) (cur : Currency) (kind : string) (ss : list CategorySlice) : Prop :=
  let ts := kind_txs db tc id cur kind in
  List.NoDup (map cs_CategoryID ss)
  /\ (forall s, In s ss -> cs_Amount s = New (minor_sum (List.filter (same_category (cs_CategoryID s)) ts)) cur)
  /\ sumZ (map (fun s => Minor (cs_Amount s)) ss) = minor_sum ts
  /\ sumZ (map cs_Count ss) = Z.of_nat (List.length ts)
  /\ (in_int64 (minor_sum ts) -> minor_sum ts <> 0 -> forall s, In s ss ->
        cs_Share s = float_div (float64 (Minor (cs_Amount s))) (float64 (minor_sum ts))).

Definition raw_slice (db : DB) (tc : Tenant) (ts : list Transaction) (cur : Currency) (id : option uuid) (s : CategorySlice) : Prop :=
  cs_CategoryID s = id /\ cs_Amount s = New (minor_sum (List.filter (same_category id) ts)) cur
  /\ cs_Count s = Z.of_nat (List.length (List.filter (same_category id) ts)).
Lemma raw_slices db tc id cur kind ss :
  categorySlices_rows db (OrgID tc) (OrgID tc) (ProjectID tc) id cur kind = Some ss ->
  let ts := kind_txs db tc id cur kind in
  exists ss', ss ≡ₚ ss' /\ Forall2 (raw_slice db tc ts cur) (group_keys (map t_CategoryID ts)) ss'.
Proof.
  unfold categorySlices_rows. cbn zeta. fold (project_txs db tc). fold (kind_txs db tc id cur kind).
  destruct (mapM _ _) as [rs|] eqn:Em; [|discriminate]. intros [= <-]. exists rs. split; [apply sort_by_perm|].
  apply mapM_Some in Em. eapply Forall2_impl; [exact Em|]. cbn beta. intros k s Hs.
  destruct (sql_sum _) as [a|] eqn:Ea; [|discriminate]. injection Hs as <-. apply sql_sum_sum in Ea as [-> _].
  repeat split.
Qed.
Lemma assignShares_fields ss :
  map cs_CategoryID (assignShares ss) = map cs_CategoryID ss
  /\ map cs_Amount (assignShares ss) = map cs_Amount ss /\ map cs_Count (assignShares ss) = map cs_Count ss.
Proof. unfold assignShares. destruct (_ =? 0); [auto|]. rewrite !map_map. auto. Qed.
Lemma fold_wrap {A} (f : A -> Z) l : forall acc, in_int64 acc ->
  fold_left (fun acc x => wrap64 (acc + f x)) l acc = wrap64 (acc + sumZ (map f l)).
Proof.
  unfold sumZ. induction l as [|x l IH]; intros acc Ha; cbn; [rewrite Z.add_0_r, wrap64_id by exact Ha; reflexivity|].
  rewrite IH by apply wrap64_range. apply wrap64_cong. rewrite Zplus_mod, wrap64_eqm, <- Zplus_mod. f_equal. lia.
Qed.
Lemma same_amount_sum (ss : list CategorySlice) :
  sumZ (map (fun s => Minor (cs_Amount s)) ss) = sumZ (map Minor (map cs_Amount ss)).
Proof. rewrite map_map. reflexivity. Qed.

Lemma slices_partition db tc id cur kind ss :
  categorySlices_rows db (OrgID tc) (OrgID tc) (ProjectID tc) id cur kind = Some ss ->
  slices_of db tc id cur kind (assignShares ss).
Proof.
  intros Hs. destruct (raw_slices _ _ _ _ _ _ Hs) as (rs & Hp & Hr). unfold slices_of. cbn zeta.
  set (ts := kind_txs db tc id cur kind) in *. set (ks := group_keys (map t_CategoryID ts)) in *.
  destruct (group_keys_spec (map t_CategoryID ts)) as [Hnd Hk]. fold ks in Hnd, Hk.
  assert (Hkeys : forall t, In t ts -> In (t_CategoryID t) ks) by (intros t Ht; apply Hk, in_map, Ht).
  assert (Eid : map cs_CategoryID rs = map (fun k => k) ks)
    by (apply (Forall2_map_eq (fun k => k)), (Forall2_impl _ _ _ _ Hr); intros k s (E1 & _); exact E1).
  rewrite map_id in Eid.
  assert (Esum : sumZ (map (fun s => Minor (cs_Amount s)) ss) = minor_sum ts).
  { rewrite (sumZ_perm _ _ (Permutation_map _ Hp)).
    rewrite (Forall2_map_eq (fun k => minor_sum (List.filter (same_category k) ts)) _ _ _
      (Forall2_impl _ _ _ _ Hr (fun k s Hk => f_equal Minor (proj1 (proj2 Hk))))).
    exact (sum_groups t_CategoryID (fun t => Minor (t_Amount t)) ks ts Hnd Hkeys). }
  assert (Ecnt : sumZ (map cs_Count ss) = Z.of_nat (List.length ts)).
  { rewrite (sumZ_perm _ _ (Permutation_map _ Hp)), length_sum.
    rewrite (Forall2_map_eq (fun k => sumZ (map (fun _ => 1) (List.filter (same_category k) ts))) _ _ _
      (Forall2_impl _ _ _ _ Hr (fun k s Hk => eq_trans (proj2 (proj2 Hk)) (length_sum _)))).
    exact (sum_groups t_CategoryID (fun _ => 1) ks ts Hnd Hkeys). }
  destruct (assignShares_fields ss) as (Fi & Fa & Fc).
  split; [|split; [|split; [|split]]].
  - rewrite Fi. eapply Permutation_NoDup; [symmetry; apply Permutation_map, Hp|]. rewrite Eid. exact Hnd.
  - intros s Hin. assert (Hq : exists s', In s' ss /\ cs_CategoryID s = cs_CategoryID s' /\ cs_Amount s = cs_Amount s').
    { unfold assignShares in Hin. destruct (_ =? 0); [eauto|]. apply in_map_iff in Hin as (s' & <- & Hin). eauto. }
    destruct Hq as (s' & Hin' & -> & ->). eapply Permutation_in in Hin'; [|exact Hp].
    destruct (Forall2_In_r _ _ _ _ Hr Hin') as (k & _ & -> & -> & _). reflexivity.
  - rewrite same_amount_sum, Fa, <- same_amount_sum. exact Esum.
  - rewrite Fc. exact Ecnt.
  - intros Hi Hne s Hin. unfold assignShares in Hin.
    rewrite (fold_wrap (fun s => Minor (cs_Amount s)) ss 0), Esum, Z.add_0_l, (wrap64_id _ Hi) in Hin
      by (unfold in_int64, min_int64, max_int64; lia).
    destruct (Z.eqb_spec (minor_sum ts) 0); [contradiction|]. apply in_map_iff in Hin as (s' & <- & _). reflexivity.
Qed.

(** The flows: one per wallet and category, adding up to the expenses. *)
Definition flows_of (db : DB) (tc : Tenant) (id : uuid) (cur : Currency) (fs : list Flow) : Prop :=
  let ts := kind_txs db tc id cur TxExpense in
  List.NoDup (map (fun f => (fl_WalletID f, fl_CategoryID f)) fs)
  /\ (forall f, In f fs -> fl_Amount f
        = New (minor_sum (List.filter (fun t => N.eqb (t_WalletID t) (fl_WalletID f) && same_category (fl_CategoryID f) t) ts)) cur)
  /\ sumZ (map (fun f => Minor (fl_Amount f)) fs) = minor_sum ts.

Definition raw_flow (ts : list Transaction) (cur : Currency) (k : uuid * option uuid) (f : Flow) : Prop :=
  (fl_WalletID f, fl_CategoryID f) = k
  /\ fl_Amount f = New (minor_sum (List.filter (fun t => bool_decide ((t_WalletID t, t_CategoryID t) = k)) ts)) cur.
Lemma flow_key_filter ts w (c : option uuid) :
  List.filter (fun t => bool_decide ((t_WalletID t, t_CategoryID t) = (w, c))) ts
  = List.filter (fun t => N.eqb (t_WalletID t) w && same_category c t) ts.
Proof.
  apply List.filter_ext. intros t. unfold same_category. destruct (N.eqb_spec (t_WalletID t) w) as [->|Hne]; cbn.
  - apply bool_decide_ext. split; [intros [= ->] | intros ->]; reflexivity.
  - apply bool_decide_eq_false. intros [=]. contradiction.
Qed.
Lemma flows_partition db tc id cur fs :
  flows_rows db (OrgID tc) (OrgID tc) (ProjectID tc) id cur = Some fs -> flows_of db tc id cur fs.
Proof.
  unfold flows_rows, flows_of. cbn zeta. fold (project_txs db tc). fold (kind_txs db tc id cur TxExpense).
  set (ts := kind_txs db tc id cur TxExpense). set (key := fun t => (t_WalletID t, t_CategoryID t)).
  destruct (mapM _ _) as [rs|] eqn:Em; [|discriminate]. intros [= <-]. apply mapM_Some in Em.
  destruct (group_keys_spec (map key ts)) as [Hnd Hk].
  assert (Hr : Forall2 (raw_flow ts cur) (group_keys (map key ts)) rs).
  { eapply Forall2_impl; [exact Em|]. cbn beta. intros [w c] f Hf. cbn [fst snd] in Hf.
    destruct (sql_sum _) as [a|] eqn:Ea; [|discriminate]. injection Hf as <-. apply sql_sum_sum in Ea as [-> _].
    split; [reflexivity|]. cbn [fl_Amount]. rewrite flow_key_filter. reflexivity. }
  pose proof (sort_by_perm flow_order rs) as Hp. split; [|split].
  - eapply Permutation_NoDup; [symmetry; apply Permutation_map, Hp|].
    rewrite (Forall2_map_eq (fun k => k) _ _ _ (Forall2_impl _ _ _ _ Hr (fun k f Hf => proj1 Hf))), map_id. exact Hnd.
  - intros f Hin. eapply Permutation_in in Hin; [|exact Hp].
    destruct (Forall2_In_r _ _ _ _ Hr Hin) as ([w c] & _ & [= <- <-] & ->). rewrite flow_key_filter. reflexivity.
  - rewrite (sumZ_perm _ _ (Permutation_map _ Hp)).
    rewrite (Forall2_map_eq (fun k => minor_sum (List.filter (fun t => bool_decide (key t = k)) ts)) _ _ _
      (Forall2_impl _ _ _ _ Hr (fun k f Hf => f_equal Minor (proj2 Hf)))).
    apply (sum_groups key (fun t => Minor (t_Amount t)) _ ts Hnd). intros t Ht. apply Hk, in_map, Ht.
Qed.

Lemma reads_report_scope `{Env, ReportSettings, !ReportSettingsLaws} cx : calm cx ->
  reads (fun r _ => From_ cx = inr (fst r)) (report_scope cx).
Proof.
  intros Hc. unfold report_scope. eapply reads_seq; [apply (reads_of _ _ _ (reads_from_tenant cx))|]. intros tc [db0 F].
  eapply reads_seq; [apply reads_report_currency, Hc|]. intros cur _. apply reads_ret. auto.
Qed.

(** C11: the breakdowns of a period partition its transactions: the spending and
    income slices hold each category once and add up to the expenses and incomes
    in the project's currency, and so do their counts; shares are each slice's
    amount over the total; the flows hold each wallet and category once and add
    up to the same expenses. *)
Theorem breakdowns_partition `{Env, ReportSettings, !ReportSettingsLaws} cx id :
  quiet ->
  reads (fun ss db => exists tc cur, From_ cx = inr tc /\ slices_of db tc id cur TxExpense ss) (SpendByCategory cx id)
  /\ reads (fun ss db => exists tc cur, From_ cx = inr tc /\ slices_of db tc id cur TxIncome ss) (IncomeByCategory cx id)
  /\ reads (fun fs db => exists tc cur, From_ cx = inr tc /\ flows_of db tc id cur fs) (Flows cx id).
Proof.
  intros Hq. pose proof (calm_quiet cx Hq) as Hc.
  split; [|split]; (eapply reads_seq; [apply reads_report_scope, Hc|]); intros [tc cur] [db0 F]; cbn [fst] in F.
  - eapply reads_conseq; [apply (reads_masked_query cx tc _ _
      (fun tc' db => categorySlices_rows db (OrgID tc) (OrgID tc') (ProjectID tc) id cur "expense") assignShares Hc F)|].
    intros ss db (rs & Hs & ->) _. exists tc, cur. split; [exact F | exact (slices_partition _ _ _ _ _ _ Hs)].
  - eapply reads_conseq; [apply (reads_masked_query cx tc _ _
      (fun tc' db => categorySlices_rows db (OrgID tc) (OrgID tc') (ProjectID tc) id cur "income") assignShares Hc F)|].
    intros ss db (rs & Hs & ->) _. exists tc, cur. split; [exact F | exact (slices_partition _ _ _ _ _ _ Hs)].
  - unfold masked, reader_Flows.
    eapply (reads_seq _ _ (fun r db => match r with
      | inr fs => flows_rows db (OrgID tc) (OrgID tc) (ProjectID tc) id cur = Some fs | inl _ => True end)).
    { apply reads_try, reads_read_tx; [exact Hc | auto|]. intros tc' F'. rewrite F in F'. injection F' as <-.
      apply reads_sum_query. }
    intros [e|fs] _; [apply reads_unexpected; auto|]. apply reads_ret. intros db Hf _. exists tc, cur.
    split; [exact F | apply flows_partition, Hf].
Qed.

(** ** Concrete runs *)
#[local] Existing Instances demo_env demo_unicode demo_tz nopMirror nopMirror_laws demo_uow report_settings report_settings_laws.

Lemma int64_check db : forallb (fun t => in_int64b (Minor (t_Amount t))) (rows (db_txs db)) = true -> int64_amounts db.
Proof.
  intros Hc i t Ht. rewrite forallb_forall in Hc. apply in_int64b_spec, Hc, rows_In. eauto.
Qed.

Lemma WalletBalances_exact_witness :
  exists lines, fst (WalletBalances demo_cx opened_world) = Ok lines
    /\ Forall2 (live_line (W_db opened_world) demo_tenant)
         (report_wallets (W_db opened_world) 1 1 2 (kept_wallet None)) lines
    /\ map (fun l => Minor (wl_Closing l)) lines = [500].
Proof.
  assert (E : exists lines, fst (WalletBalances demo_cx opened_world) = Ok lines
    /\ map (fun l => Minor (wl_Closing l)) lines = [500]) by (eexists; split; vm_compute; reflexivity).
  destruct E as (lines & E & El). exists lines. split; [exact E|]. split; [|exact El].
  destruct (reads_ok _ _ _ _ (WalletBalances_exact demo_cx demo_quiet) E (books_of _ opened_sound) int64_opened)
    as (tc & F & Hl & _). injection F as <-. exact Hl.
Defined.



(** The opening balance lands in the first period, an expense in the second. *)
Definition carried_world : World := snd (Record_ demo_cx (demo_input 100 "expense" 120) closed_world).
Lemma carried_sound : sound (W_db carried_world).
Proof.
  apply (step_sound (W_db closed_world)); [|exact closed_sound].
  exact (@ledger_session_step demo_env demo_unicode demo_tz nopMirror nopMirror_laws demo_uow (@demo_snapshotter demo_env)
    (@demo_snapshotter_laws demo_env) eq_refl demo_fresh_ids [(demo_cx, OpRecord (demo_input 100 "expense" 120))] closed_world
    (fun n db => sys_step_pre.(PreOrder_Reflexive) db) (proj2 closed_sound)).
Qed.
Lemma int64_carried : int64_amounts (W_db carried_world).
Proof. apply int64_check. vm_compute. reflexivity. Qed.
Lemma carried_assigned t : In t (project_txs (W_db carried_world) demo_tenant) -> t_PeriodID t <> None.
Proof.
  assert (Hall : forallb (fun t => match t_PeriodID t with None => false | Some _ => true end)
                   (project_txs (W_db carried_world) demo_tenant) = true) by (vm_compute; reflexivity).
  intros Ht Hn. pose proof (proj1 (forallb_forall _ _) Hall t Ht) as Hb. cbn beta in Hb. rewrite Hn in Hb. discriminate Hb.
Qed.
Lemma carried_periods : exists p q e,
  db_periods (W_db carried_world) !! 200%N = Some p /\ db_periods (W_db carried_world) !! 500%N = Some q
  /\ pr_EndDate p = Some e /\ days (pr_StartDate q) = days e + 1.
Proof.
  assert (Hd : match db_periods (W_db carried_world) !! 200%N, db_periods (W_db carried_world) !! 500%N with
    | Some p, Some q => match pr_EndDate p with Some e => days (pr_StartDate q) = days e + 1 | None => False end
    | _, _ => False end) by (vm_compute; reflexivity).
  destruct (_ !! 200%N) as [p|]; [|destruct Hd]. destruct (_ !! 500%N) as [q|]; [|destruct Hd].
  destruct (pr_EndDate p) as [e|] eqn:Ee; [|destruct Hd]. exists p, q, e. auto.
Qed.
Lemma closing_balances_carry_witness :
  exists a b la lb, fst (report_Summary demo_cx 200 carried_world) = Ok a /\ ps_Wallets a = [la]
    /\ fst (report_Summary demo_cx 500 carried_world) = Ok b /\ ps_Wallets b = [lb]
    /\ wl_Opening lb = wl_Closing la /\ Minor (wl_Opening lb) = 500.
Proof.
  assert (E : exists a b la lb, fst (report_Summary demo_cx 200 carried_world) = Ok a /\ ps_Wallets a = [la]
    /\ fst (report_Summary demo_cx 500 carried_world) = Ok b /\ ps_Wallets b = [lb]
    /\ wl_WalletID la = wl_WalletID lb /\ ps_Currency a = ps_Currency b /\ Minor (wl_Opening lb) = 500)
    by (eexists _, _, _, _; split; [|split; [|split; [|split; [|split; [|split]]]]]; vm_compute; reflexivity).
  destruct E as (a & b & la & lb & Ea & Wa & Eb & Wb & Ew & Ecur & Em).
  exists a, b, la, lb. repeat (split; [assumption|]). split; [|exact Em].
  destruct carried_periods as (p & q & e & Hp & Hq & Ee & Es).
  destruct (closing_balances_carry demo_cx (W_db carried_world) carried_world carried_world 200%N 500%N p q e a b
    demo_quiet eq_refl eq_refl
    (books_of _ carried_sound) (proj2 carried_sound) int64_carried Hp Hq Ee Es Ea Eb Ecur) as (tc & lp & lq & F & _ & _ & Hcarry).
  injection F as <-. apply Hcarry; [|rewrite Wa; left; reflexivity | rewrite Wb; left; reflexivity | exact Ew].
  intros t Ht Hn. destruct (carried_assigned t Ht Hn).
Defined.

Lemma breakdowns_partition_witness :
  exists ss fs, fst (SpendByCategory demo_cx 500 carried_world) = Ok ss /\ fst (Flows demo_cx 500 carried_world) = Ok fs
    /\ (exists cur, slices_of (W_db carried_world) demo_tenant 500 cur TxExpense ss)
    /\ (exists cur, flows_of (W_db carried_world) demo_tenant 500 cur fs)
    /\ map (fun s => Minor (cs_Amount s)) ss = [120] /\ map (fun f => Minor (fl_Amount f)) fs = [120].
Proof.
  destruct (breakdowns_partition demo_cx 500%N demo_quiet) as (Hs & _ & Hf).
  assert (E : exists ss fs, fst (SpendByCategory demo_cx 500 carried_world) = Ok ss
    /\ fst (Flows demo_cx 500 carried_world) = Ok fs
    /\ map (fun s => Minor (cs_Amount s)) ss = [120] /\ map (fun f => Minor (fl_Amount f)) fs = [120])
    by (eexists _, _; split; [|split; [|split]]; vm_compute; reflexivity).
  destruct E as (ss & fs & Es & Ef & As & Af). exists ss, fs. split; [exact Es|]. split; [exact Ef|].
  destruct (reads_ok _ _ _ _ Hs Es) as (tc & cur & F & Hx). destruct (reads_ok _ _ _ _ Hf Ef) as (tc' & cur' & F' & Hy).
  injection F as <-. injection F' as <-. split; [eauto|]. split; [eauto|]. auto.
Defined.
