(* ===== verification/SheetRun.v ===== *)
(** * A job's run

    What a sync job does when no other session interferes and opensheet answers
    promptly: every row it names that is due is pushed as the database has it and
    settled; nothing else changes, on the sheets or in the mirror's tables. *)
From Stdlib Require Import ZArith NArith Lia String Ascii List.
From stdpp Require Import base gmap list strings.
From S2P Require Import Prelude GoStrings Errors Sealer Tenant Ledger Period Wallet Category Transaction Outbox Sheet World Wp SheetStore Commit SheetMirror SheetSync.
From S2P Require Import SheetService SheetTheory SheetServer SheetProtocol SheetSteps Books Balance Adapters SheetFacts.
Local Open Scope string_scope.
Local Open Scope Z_scope.

(** ** Ids print differently *)

Lemma append_inj_len a b a' b' : String.length a = String.length a' -> a ++ b = a' ++ b' -> a = a' /\ b = b'.
Proof.
  revert a'. induction a as [|c a IH]; intros [|c' a']; cbn; try discriminate; [auto|].
  intros [= L] [= -> E]. destruct (IH a' L E) as [-> ->]. auto.
Qed.
Definition unhex (c : ascii) : N := let n := N_of_ascii c in if (n <? 58)%N then (n - 48)%N else (n - 87)%N.
Lemma unhex_hex d : (d < 16)%N -> unhex (hex_chr d) = d.
Proof.
  intros Hd. assert (I : In d (map N.of_nat (seq 0 16))).
  { apply in_map_iff. exists (N.to_nat d). rewrite N2Nat.id, in_seq. split; [reflexivity | lia]. }
  revert d Hd I. assert (A : forallb (fun d => N.eqb (unhex (hex_chr d)) d) (map N.of_nat (seq 0 16)) = true) by reflexivity.
  intros d _ I. rewrite forallb_forall in A. apply N.eqb_eq, A, I.
Qed.
Lemma hex_n_length n z : String.length (hex_n n z) = n.
Proof. revert z. induction n as [|n IH]; intros z; [reflexivity|]. cbn. rewrite append_length, IH. cbn. lia. Qed.
Lemma hex_n_inj n z z' : hex_n n z = hex_n n z' -> (z mod 16 ^ N.of_nat n = z' mod 16 ^ N.of_nat n)%N.
Proof.
  revert z z'. induction n as [|n IH]; intros z z' E; [rewrite !N.mod_1_r; reflexivity|].
  cbn [hex_n] in E. apply append_inj_len in E as [E1 E2]; [|rewrite !hex_n_length; reflexivity].
  injection E2 as E2. apply IH in E1. apply (f_equal unhex) in E2.
  rewrite !unhex_hex in E2 by (apply N.mod_lt; lia).
  rewrite Nat2N.inj_succ, N.pow_succ_r', !N.Div0.mod_mul_r, E1, E2. reflexivity.
Qed.
Lemma shiftr_split u a k : N.shiftr u a = (N.shiftr u (a + k) * 2 ^ k + N.shiftr u a mod 2 ^ k)%N.
Proof.
  rewrite !N.shiftr_div_pow2, N.pow_add_r, <- N.Div0.div_div. rewrite N.mul_comm. apply N.div_mod, N.pow_nonzero. lia.
Qed.
Lemma uuid_String_inj u v : (u < 2 ^ 128)%N -> (v < 2 ^ 128)%N -> uuid_String u = uuid_String v -> u = v.
Proof.
  intros Hu Hv E. unfold uuid_String in E.
  assert (S : forall n a r r', hex_n n (N.shiftr u a) ++ r = hex_n n (N.shiftr v a) ++ r' ->
    (N.shiftr u a mod 2 ^ (4 * N.of_nat n) = N.shiftr v a mod 2 ^ (4 * N.of_nat n))%N /\ r = r').
  { intros n a r r' X. apply append_inj_len in X as [X ->]; [|rewrite !hex_n_length; reflexivity].
    split; [|reflexivity]. rewrite N.pow_mul_r. apply hex_n_inj, X. }
  apply S in E as [E1 E]. apply (append_inj_len "-" _ "-") in E as [_ E]; [|reflexivity]. apply S in E as [E2 E]. apply (append_inj_len "-" _ "-") in E as [_ E]; [|reflexivity].
  apply S in E as [E3 E]. apply (append_inj_len "-" _ "-") in E as [_ E]; [|reflexivity]. apply S in E as [E4 E]. apply (append_inj_len "-" _ "-") in E as [_ E]; [|reflexivity].
  rewrite <- (append_nil_r (hex_n 12 (N.shiftr u 0))), <- (append_nil_r (hex_n 12 (N.shiftr v 0))) in E.
  apply S in E as [E5 _]. change (4 * N.of_nat 8)%N with 32%N in E1. change (4 * N.of_nat 4)%N with 16%N in *.
  change (4 * N.of_nat 12)%N with 48%N in E5.
  assert (T : forall x, (x < 2 ^ 128 -> N.shiftr x 96 mod 2 ^ 32 = N.shiftr x 96)%N).
  { intros x Hx. apply N.mod_small. rewrite N.shiftr_div_pow2. apply N.Div0.div_lt_upper_bound. exact Hx. }
  rewrite !T in E1 by assumption.
  rewrite <- (N.shiftr_0_r u), <- (N.shiftr_0_r v), (shiftr_split u 0 48), (shiftr_split v 0 48).
  rewrite E5. do 2 f_equal. change (0 + 48)%N with 48%N. rewrite (shiftr_split u 48 16), (shiftr_split v 48 16), E4. do 2 f_equal. change (48 + 16)%N with 64%N.
  rewrite (shiftr_split u 64 16), (shiftr_split v 64 16), E3. do 2 f_equal. change (64 + 16)%N with 80%N.
  rewrite (shiftr_split u 80 16), (shiftr_split v 80 16), E2. do 2 f_equal. exact E1.
Qed.

(** ** One row *)
Section Row.
Context `{Env, Deadlines, TZDatabase, SheetServer, Shows, !ServerLaws, !PromptServer}.
Hypothesis Hq : quiet.
Hypothesis Hs : sheet_quiet.
Hypothesis Hu : undisturbed.
Context (cx : Ctx) (tc : Tenant) (F : From_ cx = inr tc) (db : DB) (B : Books db) (Hi : int64_amounts db).
Context (l : Link).
#[local] Existing Instance opensheetSource.
#[local] Existing Instance row_facts.

(** Where the row of an entity is on the sheets. *)
Definition sheet_of (k : Key) : string := For (lk_Sheets l) (fst k).
(** The sheets show [row] under [k]: its columns, or nothing live. *)
Definition shown_as (h : list Sent) (k : Key) (row : option Row) : Prop :=
  match row with
  | Some row => exists there, shows h (sheet_of k) (uuid_String (snd k)) = Some there /\ agrees row there
  | None => gone (shows h (sheet_of k) (uuid_String (snd k)))
  end.
(** The source can read the row: the project's zone is known, the balance fits. *)
Definition readable (k : Key) : Prop :=
  In (fst k) entities /\ (fst k = EntityTransaction -> zone_of tc db <> None)
  /\ (fst k = EntityWallet -> sum_fits tc db (snd k)).

Lemma row_facts_id k row : facts (Facts := row_facts tc) db k = Some row -> row !! "id" = Some (uuid_String (snd k)).
Proof.
  destruct k as [e id]. unfold facts, row_facts, find_tx, find_wallet, find_category. cbn [snd].
  destruct (String.eqb e _); [|destruct (String.eqb e _); [|destruct (String.eqb e _); [|discriminate]]].
  - destruct (db_txs db !! id) as [t|]; [|discriminate]. destruct (N.eqb_spec (t_ID t) id) as [<-|]; [|discriminate].
    destruct (tx_of _ _ t); [|discriminate]. cbn [andb option_map]. intros X. apply (inj Some) in X. rewrite <- X. clear X.
    unfold TransactionRow, tx_columns. cbv zeta. rewrite list_to_map_cons. apply lookup_insert_eq.
  - destruct (db_wallets db !! id) as [t|]; [|discriminate]. destruct (N.eqb_spec (w_ID t) id) as [<-|]; [|discriminate].
    destruct (wallet_of _ _ t); [|discriminate]. cbn [andb option_map]. intros X. apply (inj Some) in X. rewrite <- X. clear X.
    unfold WalletRow, wallet_columns. cbv zeta. rewrite list_to_map_cons. apply lookup_insert_eq.
  - destruct (db_categories db !! id) as [t|]; [|discriminate]. destruct (N.eqb_spec (c_ID t) id) as [<-|]; [|discriminate].
    destruct (category_of _ _ t); [|discriminate]. cbn [andb option_map]. intros X. apply (inj Some) in X. rewrite <- X. clear X.
    unfold CategoryRow, category_columns. cbv zeta. rewrite list_to_map_cons. apply lookup_insert_eq.
Qed.

(** The source gives exactly the facts. *)
Lemma rowOf_facts ref : readable (refKey ref) -> yields db (rowOf cx ref) (facts (Facts := row_facts tc) db (refKey ref)).
Proof.
  destruct Hu as [Hf _]. intros (He & HZ & HW) s h Q HQ. unfold rowOf. apply swp_bind, swp_try.
  unfold facts, row_facts, refKey in HQ. cbn [fst snd refKey] in *.
  destruct (String.eqb_spec (rf_Entity ref) EntityTransaction) as [E|N1]; [|destruct (String.eqb_spec (rf_Entity ref) EntityWallet) as [E|N2]].
  - apply swp_bind, (source_Transaction_facts Hq Hs Hf _ _ F _ B); [apply HZ, E|].
    apply swp_ret, swp_ret. destruct (find_tx tc db (rf_ID ref)); exact HQ.
  - apply swp_bind, (source_Wallet_facts Hq Hs Hf _ _ F _ B); [exact Hi | apply HW, E|].
    apply swp_ret, swp_ret. destruct (find_wallet tc db (rf_ID ref)); exact HQ.
  - assert (E : rf_Entity ref = EntityCategory) by (destruct He as [?|[?|[?|[]]]]; congruence).
    rewrite E in HQ. apply swp_bind, (source_Category_facts Hq Hs Hf _ _ F _ B).
    apply swp_ret, swp_ret. destruct (find_category tc db (rf_ID ref)); exact HQ.
Qed.

(** What a push of the row puts on its sheet. *)
Definition wanted (r : SyncRow) : option Row :=
  if sr_Deleted r then None else facts (Facts := row_facts tc) db (sr_Entity r, sr_EntityID r).

Lemma push_mirrors r s h : readable (sr_Entity r, sr_EntityID r) ->
  swp (push cx l (toState r)) db s h (fun o d' s' h' => d' = db /\ s' = s /\ o = Ok tt
    /\ apart_from (sheet_of (sr_Entity r, sr_EntityID r)) (uuid_String (sr_EntityID r)) h h'
    /\ shown_as h' (sr_Entity r, sr_EntityID r) (wanted r)).
Proof.
  intros HR. set (k := (sr_Entity r, sr_EntityID r)) in *. unfold push, wanted. cbn [st_Ref toState rf_Entity rf_ID rf_Deleted].
  destruct (sr_Deleted r); [apply swp_remove_prompt; auto 6|].
  assert (X : existsb (String.eqb (sr_Entity r)) entities = true).
  { apply existsb_exists. exists (sr_Entity r). split; [apply HR | apply String.eqb_refl]. }
  rewrite X. cbn [negb]. apply swp_bind, (rowOf_facts (mkRef (sr_Entity r) (sr_EntityID r) false false)); [exact HR|].
  fold k. change (refKey _) with k. destruct (facts db k) as [row|] eqn:E; [|apply swp_remove_prompt; auto 6].
  apply swp_upsert_prompt; [apply (row_facts_id k), E|].
  intros h' there A E1 E2. split; [reflexivity|]. split; [reflexivity|]. split; [reflexivity|]. split; [exact A|].
  exists there. auto.
Qed.

(** A row every clock reading lets a job claim, or none does. *)
Definition due (r : SyncRow) : Prop := forall n, claimable (env_now n) r = true.
Definition idle (r : SyncRow) : Prop := forall n, claimable (env_now n) r = false.
Abbreviation at_ref s ref := (state_row s (lk_OrgID l) (lk_ProjectID l) ref).
Definition ready (s : SheetDB) (ref : Ref) : Prop :=
  forall r, at_ref s ref = Some r -> idle r \/ due r /\ readable (refKey ref).

(** What was done for one row of [s]: when due, it is clean and shown. *)
Definition mirrored (s s' : SheetDB) (h' : list Sent) (ref : Ref) : Prop :=
  forall r, at_ref s ref = Some r -> due r ->
    exists r', at_ref s' ref = Some r' /\ row_dirty r' = false /\ shown_as h' (refKey ref) (wanted r).
(** Nothing else changed. *)
Record confined (s s' : SheetDB) (h h' : list Sent) (refs : list Ref) : Prop := mkConfined {
  cf_links : sd_links s' = sd_links s;
  cf_keyed : well_keyed s';
  cf_rows : forall key, ~ In key (map (key_of (lk_OrgID l)) refs) -> sd_state s' !! key = sd_state s !! key;
  cf_shown : forall sheet id, (forall ref, In ref refs -> (sheet, id) <> (sheet_of (refKey ref), uuid_String (rf_ID ref))) ->
    shows h' sheet id = shows h sheet id
}.
Lemma confined_refl s h : well_keyed s -> confined s s h h [].
Proof. intros K. constructor; auto. Qed.
Lemma confined_more s s' h h' refs refs' : confined s s' h h' refs -> (forall r, In r refs -> In r refs') -> confined s s' h h' refs'.
Proof.
  intros [L K R S] I. constructor; [exact L | exact K | |].
  - intros key N. apply R. intros X. apply N. apply in_map_iff in X as (r & <- & Hr). apply in_map, I, Hr.
  - intros sheet id N. apply S. auto.
Qed.
Lemma confined_trans s1 s2 s3 h1 h2 h3 refs : confined s1 s2 h1 h2 refs -> confined s2 s3 h2 h3 refs -> confined s1 s3 h1 h3 refs.
Proof.
  intros [L1 K1 R1 S1] [L2 K2 R2 S2]. constructor; [congruence | exact K2 | |].
  - intros key N. rewrite R2, R1; auto.
  - intros sheet id N. rewrite S2, S1; auto.
Qed.

Lemma syncRow_mirrors ref s h : well_keyed s -> ready s ref ->
  swp (syncRow cx l ref) db s h (fun o d' s' h' => d' = db /\ exists n, o = Ok (n, None)
    /\ confined s s' h h' [ref] /\ mirrored s s' h' ref).
Proof.
  intros K HR. destruct (at_ref s ref) as [r|] eqn:E; [destruct (HR r E) as [HI|[HD Hr]]|].
  - eapply swp_conseq; [apply (syncRow_skips Hq Hs Hu)|].
    + intros n r0. rewrite E. intros [= <-]. apply HI.
    + intros o d' s' h' (-> & -> & -> & ->). split; [reflexivity|]. exists 0. split; [reflexivity|]. split.
      * apply confined_more with (refs := []); [apply confined_refl, K | intros ? []].
      * intros r0 E0 HD. rewrite E in E0. injection E0 as <-. specialize (HI 0%nat). rewrite (HD 0%nat) in HI. discriminate.
  - destruct (state_row_inv _ _ _ _ E) as [E0 EP]. pose proof (K _ _ E0) as Kr. unfold row_key, key_of, refKey in Kr.
    injection Kr as K1 K2 K3.
    assert (Ek : (sr_Entity r, sr_EntityID r) = refKey ref) by (unfold refKey; congruence).
    eapply swp_conseq; [apply (syncRow_pass Hq Hs Hu cx l ref db s h r
      (fun h' => apart_from (sheet_of (refKey ref)) (uuid_String (rf_ID ref)) h h' /\ shown_as h' (refKey ref) (wanted r))
      (fun _ _ => False) E HD)|].
    + unfold toState. cbn. congruence.
    + intros s1. eapply swp_conseq; [apply push_mirrors; rewrite Ek; exact Hr|].
      intros o d' s' h' (-> & -> & -> & A & W). rewrite Ek in A, W. rewrite K3 in A. auto.
    + intros o d' s' h' (-> & t & u & [((A & W) & -> & O)|(e & now & [] & _)]). split; [reflexivity|].
      exists 1. split; [reflexivity|]. destruct O as [OL OS]. split; [constructor; [exact OL | | |]|].
      * intros key x. rewrite OS. destruct (decide (key = key_of (lk_OrgID l) ref)) as [->|N].
        -- rewrite lookup_insert_eq. intros [= <-]. apply (K _ _ E0).
        -- rewrite lookup_insert_ne by auto. apply K.
      * intros key N. rewrite OS. apply lookup_insert_ne. intros <-. apply N. left. reflexivity.
      * intros sheet id N. apply A. apply N. left. reflexivity.
      * intros r0 E1 _. rewrite E in E1. injection E1 as <-. exists (set_settled (sr_Version r) (set_claim t u r)).
        split; [|split; [unfold row_dirty; cbn; apply Z.ltb_irrefl | exact W]].
        apply state_row_at; [rewrite OS; apply lookup_insert_eq | exact EP].
  - eapply swp_conseq; [apply (syncRow_skips Hq Hs Hu)|].
    + intros n r0. rewrite E. discriminate.
    + intros o d' s' h' (-> & -> & -> & ->). split; [reflexivity|]. exists 0. split; [reflexivity|]. split.
      * apply confined_more with (refs := []); [apply confined_refl, K | intros ? []].
      * intros r0 E0. congruence.
Qed.

(** ** A job *)

(** A reference the sheets can hold: a known entity and a 128-bit id. *)
Definition ref_ok (ref : Ref) : Prop := In (rf_Entity ref) entities /\ (rf_ID ref < 2 ^ 128)%N.
Hypothesis Hd : sheets_distinct (lk_Sheets l) = true.

(** Two rows are in two places. *)
Lemma places_differ a b : ref_ok a -> ref_ok b -> refKey a <> refKey b ->
  (sheet_of (refKey a), uuid_String (rf_ID a)) <> (sheet_of (refKey b), uuid_String (rf_ID b)).
Proof.
  intros [Ea Ia] [Eb Ib] N E. apply pair_equal_spec in E as [E1 E2]. apply N. apply uuid_String_inj in E2; [|assumption ..].
  unfold refKey. rewrite E2. f_equal. unfold sheets_distinct in Hd. rewrite !andb_true_iff, !negb_true_iff, !String.eqb_neq in Hd.
  destruct Hd as [[D1 D2] D3]. unfold sheet_of, For, refKey in E1. cbn [fst] in E1.
  destruct Ea as [X|[X|[X|[]]]], Eb as [Y|[Y|[Y|[]]]]; rewrite <- X, <- Y in *; cbn in E1; congruence.
Qed.

Lemma mirrored_later s s1 s2 h1 h2 ref refs : ref_ok ref -> Forall ref_ok refs -> ~ In (refKey ref) (map refKey refs) ->
  confined s1 s2 h1 h2 refs -> mirrored s s1 h1 ref -> mirrored s s2 h2 ref.
Proof.
  intros Hr Hrs N [L K R S] HM r E D. destruct (HM r E D) as (r1 & E1 & C & W). exists r1.
  destruct (state_row_inv _ _ _ _ E1) as [E2 EP]. split; [|split; [exact C|]].
  - apply state_row_at; [|exact EP]. rewrite R; [exact E2|]. intros X. apply N. apply in_map_iff in X as (x & X & Hx).
    apply in_map_iff. exists x. unfold key_of in X. split; [congruence | exact Hx].
  - rewrite Forall_forall in Hrs.
    assert (X : shows h2 (sheet_of (refKey ref)) (uuid_String (snd (refKey ref))) = shows h1 (sheet_of (refKey ref)) (uuid_String (snd (refKey ref)))).
    { apply S. intros x Hx. apply places_differ; [exact Hr | apply Hrs, list_elem_of_In, Hx|]. intros Y. apply N. rewrite Y. apply in_map, Hx. }
    unfold shown_as in *. rewrite X. exact W.
Qed.
Lemma mirrored_again s1 s s2 h2 ref : at_ref s ref = at_ref s1 ref -> mirrored s1 s2 h2 ref -> mirrored s s2 h2 ref.
Proof. intros E HM r. rewrite E. apply HM. Qed.

Lemma sync_loop_mirrors refs s h pushed tried : (forall n, row_headroom n = true) ->
  well_keyed s -> NoDup (map refKey refs) -> Forall ref_ok refs -> (forall ref, In ref refs -> ready s ref) ->
  swp (sync_loop cx l refs pushed tried) db s h (fun o d' s' h' => d' = db
    /\ (exists n m, o = Ok (n, m, None)) /\ confined s s' h h' refs /\ forall ref, In ref refs -> mirrored s s' h' ref).
Proof.
  intros HB. revert s h pushed tried. induction refs as [|ref refs IH]; intros s h pushed tried K ND HO' HR; cbn [sync_loop].
  { apply swp_ret. split; [reflexivity|]. split; [eauto|]. split; [apply confined_refl, K | intros ? []]. }
  apply swp_bind, swp_tick. intros n. rewrite HB. cbn [negb]. inversion ND as [|? ? N1 N2]; subst.
  inversion HO' as [|? ? O1 O2]; subst. rewrite list_elem_of_In in N1.
  apply swp_bind. eapply swp_conseq; [apply (syncRow_mirrors ref s h K); apply HR; left; reflexivity|].
  intros o d1 s1 h1 (-> & k & -> & C & HM). cbn [fst snd].
  assert (Same : forall x, In x refs -> at_ref s x = at_ref s1 x).
  { intros x Hx. unfold state_row. rewrite (cf_rows _ _ _ _ _ C); [reflexivity|]. intros [X|[]]. apply N1.
    unfold key_of in X. apply in_map_iff. exists x. split; [congruence | exact Hx]. }
  eapply swp_conseq; [apply IH; [apply C | exact N2 | exact O2|]|].
  - intros x Hx r E. rewrite <- (Same x Hx) in E. apply (HR x (or_intror Hx) r E).
  - intros o d2 s2 h2 (-> & HO2 & C2 & HM2). split; [reflexivity|]. split; [exact HO2|]. split.
    + eapply confined_trans; eapply confined_more; [exact C | intros x [<-|[]]; left; reflexivity | exact C2 | intros x Hx; right; exact Hx].
    + intros x [<-|Hx]; [eapply mirrored_later; eassumption | eapply mirrored_again; [apply Same, Hx | apply HM2, Hx]].
Qed.

(** The link's outcome changes the link only. *)
Lemma swp_save_outcome msg d s h (Q : Outcome Error unit -> DB -> SheetDB -> list Sent -> Prop) :
  (forall s', sd_state s' = sd_state s -> Q (Ok tt) d s' h) -> swp (save_outcome cx l msg) d s h Q.
Proof.
  intros HQ. unfold save_outcome. apply swp_bind, swp_time_Now. intros n. apply swp_bind, swp_try.
  unfold store_SaveOutcome. apply (swp_stmt Hq Hs Hu).
  assert (U : forall p f s0, exists s1 o, update_link (lk_OrgID l) (lk_ProjectID l) p f d s0 = inr (s1, o) /\ sd_state s1 = sd_state s0).
  { intros p f s0. unfold update_link. destruct (link_of _ _ _) as [x|]; [destruct (p x)|]; eauto 6. }
  destruct (String.eqb _ _).
  - apply swp_bind, swp_maperr, swp_exec_sheet; [|contradiction]. edestruct U as (s1 & o & -> & E1).
    apply swp_ret, swp_ret, HQ, E1.
  - apply swp_bind, swp_maperr, swp_exec_sheet; [|contradiction]. edestruct U as (s1 & o & -> & E1).
    destruct o as [x|]; [|apply swp_ret, swp_ret, HQ, E1].
    destruct (_ <? _); [apply swp_ret, swp_ret, HQ, E1|].
    apply swp_bind, swp_maperr, swp_exec_sheet; [|contradiction]. edestruct (U (fun l0 => as_loaded (mkSyncOutcome (env_now n) (truncate msg) (lk_UpdatedAt l)) l0 && lk_Enabled l0)) as (s2 & o2 & -> & E2).
    apply swp_ret, swp_ret, HQ. congruence.
Qed.

Context `{JobQueue, Queued, Endpoint, Sealer}.
(** The queue takes a follow-up job, or fails; it writes nothing here. *)
Definition submits : Prop := queued = true -> forall cx p s h,
  swp (Submit cx p) db s h (fun o d' s' h' => d' = db /\ s' = s /\ (h' = h \/ h' = SubmitJob p :: h)
    /\ match o with Panic _ => False | _ => True end).

Lemma swp_followUp s h (Q : Outcome Error unit -> DB -> SheetDB -> list Sent -> Prop) :
  submits -> queued = true -> (forall h', (forall sheet id, shows h' sheet id = shows h sheet id) -> Q (Ok tt) db s h') ->
  swp (followUp cx l) db s h Q.
Proof.
  intros HS HQd HQ. unfold followUp. apply swp_bind, swp_time_Now. intros n. apply swp_bind, swp_try.
  apply (swp_stmt Hq Hs Hu), swp_maperr, swp_query_sheet; [|contradiction].
  destruct (dirty_refs _ _ _ _ _ _) as [|r rs]; [apply swp_ret, HQ; reflexivity|].
  apply swp_bind, swp_try. eapply swp_conseq; [apply (HS HQd)|].
  intros o d' s' h' (-> & -> & Hh & Ho). assert (X : forall sheet id, shows h' sheet id = shows h sheet id).
  { destruct Hh as [->| ->]; [reflexivity | intros; apply srv_other; discriminate]. }
  destruct o as [a|e|p]; [apply swp_ret, HQ, X | apply swp_ret, HQ, X | contradiction].
Qed.

(** The tables of the rows [refs] name, and the places the sheets keep them. *)
Definition only_rows (s s' : SheetDB) (h h' : list Sent) (refs : list Ref) : Prop :=
  (forall key, ~ In key (map (key_of (lk_OrgID l)) refs) -> sd_state s' !! key = sd_state s !! key) /\
  (forall sheet id, (forall ref, In ref refs -> (sheet, id) <> (sheet_of (refKey ref), uuid_String (rf_ID ref))) ->
    shows h' sheet id = shows h sheet id).

Lemma sync_rows_mirrors refs s h : (forall n, row_headroom n = true) -> submits ->
  well_keyed s -> Forall ref_ok (Dedupe refs) -> (forall ref, In ref (Dedupe refs) -> ready s ref) ->
  swp (sync_rows cx l refs) db s h (fun o d' s' h' => d' = db /\ o = Ok tt /\ only_rows s s' h h' (Dedupe refs)
    /\ forall ref, In ref (Dedupe refs) -> mirrored s s' h' ref).
Proof.
  intros HB HS K HO' HR. unfold sync_rows. apply swp_bind.
  eapply swp_conseq; [apply (sync_loop_mirrors (Dedupe refs) s h 0 0%nat HB K (Dedupe_NoDup refs) HO' HR)|].
  intros o d1 s1 h1 (-> & (n & m & ->) & C & HM).
  assert (Done : forall s2 h2, sd_state s2 = sd_state s1 -> (forall sheet id, shows h2 sheet id = shows h1 sheet id) ->
    only_rows s s2 h h2 (Dedupe refs) /\ forall ref, In ref (Dedupe refs) -> mirrored s s2 h2 ref).
  { intros s2 h2 E1 E2. split; [split|].
    - intros key N. rewrite E1. apply (cf_rows _ _ _ _ _ C), N.
    - intros sheet id N. rewrite E2. apply (cf_shown _ _ _ _ _ C), N.
    - intros ref Hr r E D. destruct (HM ref Hr r E D) as (r' & X1 & X2 & X3). exists r'.
      split; [unfold state_row; rewrite E1; exact X1|]. split; [exact X2|].
      unfold shown_as in *. rewrite E2. exact X3. }
  apply swp_bind.
  assert (Tail : forall s2, sd_state s2 = sd_state s1 -> swp
    (if queued && (maxRefsPerJob <=? List.length (Dedupe refs))%nat && (m =? List.length (Dedupe refs))%nat && (0 <? n)
     then followUp cx l else st_ret tt) db s2 h1 (fun o d' s' h' => d' = db /\ o = Ok tt
       /\ only_rows s s' h h' (Dedupe refs) /\ forall ref, In ref (Dedupe refs) -> mirrored s s' h' ref)).
  { intros s2 E2. destruct (_ && _)%bool eqn:Eb.
    - rewrite !andb_true_iff in Eb. apply swp_followUp; [exact HS | tauto|]. intros h2 Eh.
      split; [reflexivity|]. split; [reflexivity|]. apply Done; assumption.
    - apply swp_ret. split; [reflexivity|]. split; [reflexivity|]. apply Done; [exact E2 | reflexivity]. }
  destruct (0 <? n); [apply swp_save_outcome; intros s2 E2; apply Tail, E2 | apply swp_ret, Tail; reflexivity].
Qed.

(** The whole job, on an enabled link whose key opens and whose endpoint is accepted. *)
Lemma Sync_mirrors refs s h key : (forall n, row_headroom n = true) -> submits ->
  well_keyed s -> Forall ref_ok (Dedupe refs) -> (forall ref, In ref (Dedupe refs) -> ready s ref) ->
  link_of s (OrgID tc) (ProjectID tc) = Some l -> lk_Enabled l = true -> openKey l = inr key ->
  endpoint_client (lk_OSOrg l) (lk_OSProject l) key = None ->
  swp (Sync cx (ProjectID tc) refs) db s h (fun o d' s' h' => d' = db /\ o = Ok tt /\ only_rows s s' h h' (Dedupe refs)
    /\ forall ref, In ref (Dedupe refs) -> mirrored s s' h' ref).
Proof.
  intros HB HS K HO' HR EL EE EK EC. unfold Sync. rewrite F, N.eqb_refl. cbn [negb]. apply swp_bind, swp_try.
  unfold store_LinkByProject. apply (swp_stmt Hq Hs Hu), swp_bind, swp_maperr, swp_query_sheet; [|contradiction].
  rewrite EL. apply swp_ret. rewrite EE. cbn [negb]. rewrite EK, EC. apply sync_rows_mirrors; assumption.
Qed.
End Row.
