(* ===== verification/SheetProps.v ===== *)
(** * Properties of the sheet mirror

    Over any interleaving of writes, backfills and jobs, a row no mark has passed
    is shown as the database has it, and every row can be brought there; claims
    are exclusive; a job run alone mirrors every due row it names. *)
From Stdlib Require Import ZArith Lia String List.
From stdpp Require Import base gmap list strings relations.
From S2P Require Import Prelude GoStrings Errors Sealer Civil Money Tenant Ledger Period Wallet Category Transaction Outbox Sheet World Wp.
From S2P Require Import SheetStore Commit SheetMirror SheetSync SheetService SheetTheory SheetServer SheetJobs SheetProtocol SheetSteps.
From S2P Require Import PeriodProps Books LedgerTheory Balance Adapters System LedgerProps TxProps SheetFacts SheetRun.
Local Open Scope string_scope.
Local Open Scope Z_scope.

Section Protocol.
Context `{TZDatabase} (tc : Tenant).
Abbreviation org := (OrgID tc).
Abbreviation project := (ProjectID tc).



(** C20: Two jobs whose leases have not run out never hold the same row, and a job
    whose lease runs holds its row's token. *)
Theorem claim_exclusive y t t' j j' : reach (H := row_facts tc) org project y ->
  y_jobs y !! t = Some j -> y_jobs y !! t' = Some j' -> y_now y <= j_until j -> y_now y <= j_until j' ->
  j_key j = j_key j' -> t = t' /\ exists r, row_at org project (y_tables y) (j_key j) = Some r /\ sr_LeaseToken r = Some t.
Proof.
  intros HR Hj Hj' L L' K. pose proof (reach_inv org project (row_facts_exist tc) y HR) as HI.
  destruct (jo_live _ _ _ _ _ (iv_jobs _ _ _ HI _ _ Hj) L) as (r & E1 & T1).
  destruct (jo_live _ _ _ _ _ (iv_jobs _ _ _ HI _ _ Hj') L') as (r' & E2 & T2).
  rewrite K in E1. rewrite E1 in E2. injection E2 as <-. split; [congruence|]. exists r. rewrite K. auto.
Qed.
End Protocol.

(** ** A mirror of two wallets *)
Definition demo_link : Link :=
  mkLink 900 1 2 "acme" "ledger" "sealed" "" (mkSheetSlugs "tx" "wallets" "categories") true (Some 1) "" None 0 None
    3 uuid_Nil 1 1.
Definition wallets_db : DB := W_db two_wallets.
Definition demo_backfill : SheetDB * Z :=
  match mark_all_tables 1 2 wallets_db 5 mark_sources (mkSheetDB {[900%N := demo_link]} ∅) 0 with
  | inr sn => sn | inl _ => (empty_sheets, 0) end.
Definition demo_marked : SheetDB := fst demo_backfill.
Abbreviation demo_facts := (@row_facts demo_tz demo_tenant).
Abbreviation demo_step := (@step 1%N 2%N demo_facts).
Abbreviation demo_reach := (@reach 1%N 2%N demo_facts).
Definition unlinked_sys : Sys := mkSys 10 wallets_db (mkSheetDB ∅ ∅) (fun _ => None) ∅ ∅.
Definition marked_sys : Sys := with_tables demo_marked unlinked_sys.

Lemma no_rows key r : sd_state (mkSheetDB ∅ ∅) !! key <> Some r.
Proof. cbn. rewrite lookup_empty. discriminate. Qed.
Lemma reach_marked : demo_reach marked_sys.
Proof.
  eapply reach_step; [eapply (reach_step _ _ (mkSys 10 empty_db (mkSheetDB ∅ ∅) (fun _ => None) ∅ ∅) unlinked_sys)|].
  - apply reach_init; [reflexivity | discriminate].
  - apply step_write_unlinked; [reflexivity|]. intros k r E. apply row_at_iff in E as [E _]. destruct (no_rows _ _ E).
  - apply (step_backfill _ _ unlinked_sys {[900%N := demo_link]} 5 demo_marked (snd demo_backfill)).
    + intros e id r E. destruct (no_rows _ _ E).
    + vm_compute. reflexivity.
Qed.

(** What the first wallet's row shows. *)
Definition cells (row : Row) : option string * option string := (row !! "name", row !! "balance").
Lemma wallet_row_shown : option_map cells (demo_facts wallets_db (EntityWallet, 100%N)) = Some (Some "Cash", Some "5").
Proof. vm_compute. reflexivity. Qed.


(** Two jobs hold the two wallets. *)
Definition claim_of (k : Key) (t : uuid) (s : SheetDB) : SheetDB * option SyncRow :=
  match update_row 1 2 (ref_of k) (claimable 10) (set_claim t (10 + leaseTTL)) wallets_db s with
  | inr p => p | inl _ => (s, None) end.
Definition held_one : SheetDB := fst (claim_of (EntityWallet, 100%N) 1 demo_marked).
Definition held_two : SheetDB := fst (claim_of (EntityWallet, 400%N) 2 held_one).
Definition wallet_job (id : uuid) : Job := mkJob (EntityWallet, id) 1 (10 + leaseTTL) false Claimed.
Definition held_sys1 : Sys :=
  mkSys 10 wallets_db held_one (fun _ => None) (<[1%N := wallet_job 100]> ∅) ({[1%N]} ∪ ∅).
Definition held_sys : Sys :=
  mkSys 10 wallets_db held_two (fun _ => None) (<[2%N := wallet_job 400]> (<[1%N := wallet_job 100]> ∅)) ({[2%N]} ∪ ({[1%N]} ∪ ∅)).
Lemma claims_first y id t s' : y_now y = 10 -> y_db y = wallets_db -> t ∉ y_used y ->
  (exists r, update_row 1 2 (ref_of (EntityWallet, id)) (claimable 10) (set_claim t (10 + leaseTTL)) wallets_db (y_tables y)
     = inr (s', Some r) /\ sr_Version r = 1 /\ sr_Deleted r = false) ->
  demo_step y (mkSys 10 wallets_db s' (y_shown y) (<[t := wallet_job id]> (y_jobs y)) ({[t]} ∪ y_used y)).
Proof.
  intros En Ed Ht (r & E & V & D). rewrite <- Ed in E. rewrite <- En in E. unfold wallet_job. rewrite <- V, <- D, <- En, <- Ed.
  rewrite Ed. rewrite <- Ed. apply (step_claim 1 2 y (EntityWallet, id) t s' r Ht E).
Qed.
Lemma reach_held : demo_reach held_sys.
Proof.
  eapply reach_step; [eapply (reach_step _ _ marked_sys held_sys1); [apply reach_marked|]|].
  - apply (claims_first marked_sys 100 1 held_one); [reflexivity | reflexivity | apply not_elem_of_empty|].
    eexists. split; [vm_compute; reflexivity | split; vm_compute; reflexivity].
  - apply (claims_first held_sys1 400 2 held_two); [reflexivity | reflexivity | |].
    + cbn. intros X. apply elem_of_union in X as [X|X]; [apply elem_of_singleton in X; discriminate | exact (not_elem_of_empty _ X)].
    + eexists. split; [vm_compute; reflexivity | split; vm_compute; reflexivity].
Qed.
Lemma claim_exclusive_witness :
  exists r, row_at 1 2 held_two (EntityWallet, 400%N) = Some r /\ sr_LeaseToken r = Some 2%N.
Proof.
  apply (@claim_exclusive demo_tz demo_tenant held_sys 2 2 (wallet_job 400) (wallet_job 400) reach_held);
    first [vm_compute; congruence | reflexivity].
Defined.

(** ** A job run alone *)

Definition plain (r : Ref) : Ref := mkRef (rf_Entity r) (rf_ID r) false false.
Lemma ParseEntity_known e : In e entities -> ParseEntity e = Some e.
Proof.
  intros I. unfold ParseEntity. replace (existsb (String.eqb e) entities) with true; [reflexivity|].
  symmetry. apply existsb_exists. exists e. split; [exact I | apply String.eqb_refl].
Qed.
Lemma payload_refs_of p refs : Forall (fun r => In (rf_Entity r) entities) refs -> payload_refs (payloadOf p refs) = inr (map plain refs).
Proof.
  unfold payload_refs, payloadOf. cbn [v1_Refs]. induction 1 as [|r refs I _ IH]; [reflexivity|].
  cbn [map payload_refs_from]. rewrite (ParseEntity_known _ I), IH. reflexivity.
Qed.
(** A job's rows are those its payload names. *)
Lemma Dedupe_plain refs x : In x (Dedupe (map plain refs)) -> exists y, In y refs /\ refKey x = refKey y.
Proof.
  intros Hx. apply (in_map refKey) in Hx. rewrite Dedupe_keys, map_map in Hx. apply in_map_iff in Hx as (y & Ey & Hy). eauto.
Qed.
Lemma plain_Dedupe refs y : In y refs -> exists x, In x (Dedupe (map plain refs)) /\ refKey x = refKey y.
Proof.
  intros Hy. assert (X : In (refKey y) (map refKey (Dedupe (map plain refs)))).
  { rewrite Dedupe_keys, map_map. apply in_map_iff. exists y. auto. }
  apply in_map_iff in X as (x & Ex & Hx). eauto.
Qed.

Section Job.
Context `{Env, Deadlines, TZDatabase, SheetServer, Shows, !ServerLaws, !PromptServer, JobQueue, Queued, Endpoint, Sealer}.
#[local] Existing Instance opensheetSource.

(** C18: A job handled alone, against a server that answers: whatever rows its
    payload names, each one due ends clean with the sheet showing the row as the
    database has it (its columns, or nothing when it is gone); the job succeeds,
    and no other row, on the sheets or in the mirror's tables, changes. *)
Theorem job_mirrors cx tc refs w l key : quiet -> sheet_quiet -> undisturbed -> (forall n, row_headroom n = true) ->
  (forall db, submits db) ->
  From_ cx = inr tc -> Books (W_db w) -> int64_amounts (W_db w) -> well_keyed (W_sheet w) ->
  link_of (W_sheet w) (OrgID tc) (ProjectID tc) = Some l -> lk_Enabled l = true -> sheets_distinct (lk_Sheets l) = true ->
  openKey l = inr key -> endpoint_client (lk_OSOrg l) (lk_OSProject l) key = None ->
  Forall ref_ok refs -> (forall ref, In ref refs -> ready tc (W_db w) l (W_sheet w) ref) ->
  let r := handle cx (payloadOf (ProjectID tc) refs) w in
  fst r = Ok Handled /\ W_db (snd r) = W_db w
  /\ only_rows l (W_sheet w) (W_sheet (snd r)) (W_sent w) (W_sent (snd r)) refs
  /\ forall ref, In ref refs -> mirrored tc (W_db w) l (W_sheet w) (W_sheet (snd r)) (W_sent (snd r)) ref.
Proof.
  intros Hq Hs Hu HB HS F B Hi K EL EE Hd EK EC HO HR r.
  assert (HP : Forall (fun r => In (rf_Entity r) entities) refs) by (eapply Forall_impl; [exact HO | intros x [X _]; exact X]).
  pose proof (Dedupe_plain refs) as Kk.
  assert (S : swp (handle cx (payloadOf (ProjectID tc) refs)) (W_db w) (W_sheet w) (W_sent w)
    (fun o d' s' h' => o = Ok Handled /\ d' = W_db w /\ only_rows l (W_sheet w) s' (W_sent w) h' (Dedupe (map plain refs))
       /\ forall x, In x (Dedupe (map plain refs)) -> mirrored tc (W_db w) l (W_sheet w) s' h' x)).
  { unfold handle. rewrite payload_refs_of by exact HP. cbn [v1_ProjectID payloadOf]. apply swp_bind, swp_try.
    eapply swp_conseq; [apply (Sync_mirrors Hq Hs Hu cx tc F (W_db w) B Hi l Hd _ _ _ key HB (HS _) K)|].
    - rewrite Forall_forall in HO |- *. intros x Hx. apply list_elem_of_In, Kk in Hx as (y & Hy & Ey).
      apply list_elem_of_In in Hy. destruct (HO y Hy). injection Ey as E1 E2. split; congruence.
    - intros x Hx z E. destruct (Kk x Hx) as (y & Hy & Ey). unfold state_row, key_of in E. rewrite Ey in *. apply (HR y Hy z), E.
    - exact EL.
    - exact EE.
    - exact EK.
    - exact EC.
    - intros o d' s' h' (-> & -> & HOn & HM). apply swp_ret. auto. }
  specialize (S w eq_refl eq_refl eq_refl). fold r in S. destruct S as (S1 & S2 & [S3 S4] & S5).
  split; [exact S1|]. split; [exact S2|]. split; [split|].
  - intros k N. apply S3. intros X. apply N. apply in_map_iff in X as (x & <- & Hx). destruct (Kk x Hx) as (y & Hy & Ey).
    unfold key_of. rewrite Ey. apply (in_map (key_of (lk_OrgID l))), Hy.
  - intros sheet id N. apply S4. intros x Hx. destruct (Kk x Hx) as (y & Hy & Ey). specialize (N y Hy).
    injection Ey as E1 E2. unfold refKey. rewrite E1, E2. exact N.
  - intros y Hy. destruct (plain_Dedupe refs y Hy) as (x & Hx & Ex). specialize (S5 x Hx). unfold mirrored in *.
    unfold state_row, key_of in *. rewrite Ex in S5. exact S5.
Qed.
End Job.

(** *** On the two wallets, with the queue on *)
Lemma demo_no_faults : @faultless demo_env.
Proof. intros n. reflexivity. Qed.
Lemma int64_two : int64_amounts wallets_db.
Proof.
  intros i t. assert (A : forallb (fun t => in_int64b (Minor (t_Amount t))) (rows (db_txs wallets_db)) = true) by (vm_compute; reflexivity).
  intros E. apply in_int64b_spec. rewrite forallb_forall in A. apply A.
  apply (proj2 (rows_In (db_txs wallets_db) t)). exists i. exact E.
Qed.
Lemma published_submits `{Env} db : faultless -> @submits db published_jobs true.
Proof.
  intros Hf _ cx p s h. unfold Submit, published_jobs. destruct (cx_tx cx); [apply swp_err; auto|].
  apply swp_bind, swp_maperr, swp_driver_call; [|contradiction]. intros w <- <- <-. cbn. auto.
Qed.
Definition calm_deadlines : Deadlines := {| call_cut := fun _ => None; submit_headroom := fun _ => true; row_headroom := fun _ => true |}.
Definition demo_endpoint : Endpoint := {| ep_url_ok := true; ep_private_literal := false; ep_AllowPrivateHosts := false |}.
Definition demo_sealer : Sealer := {| Seal := fun _ k _ => inr k; Open := fun k _ => inr k |}.
Lemma demo_undisturbed : @undisturbed demo_env calm_deadlines.
Proof. split; intros n; reflexivity. Qed.
Lemma demo_sheet_quiet : @sheet_quiet demo_env.
Proof. intros n s. reflexivity. Qed.

Definition marked_world : World := Build_World wallets_db demo_marked [] 0.
Definition demo_source : Source := @opensheetSource demo_env demo_tz (@walletReaderFor demo_env).
Definition demo_handle (refs : list Ref) (w : World) : Outcome Error Verdict * World :=
  @handle demo_env calm_deadlines (@published_jobs demo_env) true demo_server demo_endpoint demo_sealer demo_source
    demo_cx (payloadOf 2 refs) w.
Definition demo_refs : list Ref :=
  [mkRef EntityWallet 100 false false; mkRef EntityTransaction 300 false false; mkRef EntityWallet 400 false true].

Lemma demo_ready ref : @readable demo_tz demo_tenant wallets_db (refKey ref) ->
  match state_row demo_marked 1 2 ref with Some r => claimable (@env_now demo_env 0) r | None => true end = true ->
  @ready demo_env demo_tz demo_tenant wallets_db demo_link demo_marked ref.
Proof.
  intros HR HC r E. right. split; [|exact HR]. intros n. change (state_row demo_marked 1 2 ref = Some r) in E.
  rewrite E in HC. exact HC.
Qed.
Lemma readable_wallet `{TZDatabase} tc db id d c : sum_fits tc db id -> readable tc db (refKey (mkRef EntityWallet id d c)).
Proof. intros HF. split; [cbn; auto|]. split; [intros X; discriminate X | intros _; exact HF]. Qed.
Lemma readable_tx `{TZDatabase} tc db id d c : zone_of tc db <> None -> readable tc db (refKey (mkRef EntityTransaction id d c)).
Proof. intros HZ. split; [cbn; auto|]. split; [intros _; exact HZ | intros X; discriminate X]. Qed.

Lemma job_mirrors_witness :
  let r := demo_handle demo_refs marked_world in
  fst r = Ok Handled /\
  (exists row, state_row (W_sheet (snd r)) 1 2 (mkRef EntityWallet 100 false false) = Some row /\ row_dirty row = false) /\
  exists there, demo_shows (W_sent (snd r)) "wallets" (uuid_String 100) = Some there /\ there !! "name" = Some "Cash".
Proof.
  assert (HK : well_keyed demo_marked) by apply (reach_inv (H := demo_facts) 1 2 (@row_facts_exist demo_tz demo_tenant) _ reach_marked).
  destruct (@job_mirrors demo_env calm_deadlines demo_tz demo_server demo_shows demo_server_laws demo_server_prompt
    (@published_jobs demo_env) true demo_endpoint demo_sealer demo_cx demo_tenant demo_refs marked_world demo_link "sealed"
    demo_quiet demo_sheet_quiet demo_undisturbed (fun _ => eq_refl) (fun db => published_submits db demo_no_faults)
    eq_refl two_wallets_books int64_two HK eq_refl eq_refl eq_refl eq_refl eq_refl) as (R1 & _ & _ & R2).
  - repeat constructor; cbn; tauto.
  - intros ref [<-|[<-|[<-|[]]]]; apply demo_ready; [|vm_compute; reflexivity| |vm_compute; reflexivity| |vm_compute; reflexivity];
      [apply readable_wallet | apply readable_tx; vm_compute; discriminate | apply readable_wallet]; eexists; vm_compute; reflexivity.
  - cbv zeta. split; [exact R1|].
    assert (E : exists r, state_row demo_marked 1 2 (mkRef EntityWallet 100 false false) = Some r
      /\ (forall n, claimable (@env_now demo_env n) r = true) /\ (sr_Deleted r, (sr_Entity r, sr_EntityID r)) = (false, (EntityWallet, 100%N))).
    { eexists. split; [vm_compute; reflexivity|]. split; [intros n; vm_compute; reflexivity | vm_compute; reflexivity]. }
    destruct E as (r & E & D & Hr). injection Hr as Hd He Hid. pose proof wallet_row_shown as W.
    destruct (R2 _ (or_introl eq_refl) r E D) as (r' & E' & C & Sh). split; [exists r'; split; [exact E' | exact C]|].
    unfold shown_as, wanted in Sh. rewrite Hd, He, Hid in Sh. change (facts (W_db marked_world)) with (demo_facts wallets_db) in Sh.
    destruct (demo_facts wallets_db (EntityWallet, 100%N)) as [row|]; [|discriminate W]. destruct Sh as (there & Ht & A).
    exists there. split; [exact Ht|]. injection W as W1 _. apply A; [discriminate | exact W1].
Defined.
