(* ===== verification/SheetLinkProps.v ===== *)
(** * Properties of the link and of the sync's answers

    What a Save that retargets the link does to a job that loaded it before; how
    opensheet's answers are sorted; what a link remembers of its syncs; the order
    rows are locked in; what the texts keep. *)
From Stdlib Require Import ZArith Lia String Ascii List.
From stdpp Require Import base gmap list strings.
From S2P Require Import Prelude GoStrings Errors Sealer Tenant Outbox Sheet World Wp SheetStore Commit SheetMirror SheetSync SheetService.
From S2P Require Import SheetTheory SheetServer SheetJobs SheetProtocol SheetSteps Adapters LedgerProps TxProps SheetFacts SheetRun SheetProps.
Local Open Scope string_scope.
Local Open Scope Z_scope.

(** ** Retargeting during a job *)

(** opensheet finds every tab in order. *)
Definition demo_caps : CapServer := fun _ _ _ =>
  (Answer 200 "" "", mkSheetCapabilities (concat (map tab_Columns Contract)) true true true true "" (Some 1)).
Definition demo_members : Members := fun _ _ _ => st_ret tt.
Definition new_sheets : SheetSettings := mkSheetSettings "acme" "ledger" "" (mkSheetSlugs "tx2" "wallets2" "categories2").
Definition demo_save (s : SheetDB) : SheetDB :=
  W_sheet (snd (@sheet_Save demo_env calm_deadlines (@published_jobs demo_env) demo_endpoint demo_sealer demo_caps demo_members
    run_in_tx demo_cx new_sheets (Build_World wallets_db s [] 0))).
(** Another session saves new sheets when a transaction of step [k] begins. *)
Definition retarget_env (k : nat) : Env := {|
  env_uuid := fun _ db => demo_fresh db;
  env_now := fun _ => (1709942400 * 1000000000)%Z;
  env_fault := fun _ => None;
  env_other := fun _ db => db;
  env_sheet := fun n s => if Nat.eqb n k then demo_save s else s
|}.
Definition retarget_handle (k : nat) (refs : list Ref) (w : World) : Outcome Error Verdict * World :=
  @handle (retarget_env k) calm_deadlines (@published_jobs (retarget_env k)) true demo_server demo_endpoint demo_sealer
    (@opensheetSource (retarget_env k) demo_tz (@walletReaderFor (retarget_env k))) demo_cx (payloadOf 2 refs) w.
Definition one_wallet : list Ref := [mkRef EntityWallet 100 false false].
Definition retargeted (k : nat) : World := snd (retarget_handle k one_wallet marked_world).
Definition sheet_called (c : Sent) : string :=
  match c with
  | Called (CreateRow s _ _) _ | Called (PatchRow s _ _) _ | Called (DeleteRow s _) _ => s
  | SubmitJob _ => "job"
  | Posted _ _ => "hook"
  | Mailed _ _ => "mail"
  end.
Definition versions (w : World) : option (Z * Z) :=
  option_map (fun r => (sr_Version r, sr_SyncedVersion r)) (state_row (W_sheet w) 1 2 (mkRef EntityWallet 100 false false)).

(** A Save that points the link at other sheets, committed after a running job
    loaded the link and before it claims a row, loses that row: the job claims the
    version the Save's backfill marked, pushes it to the old sheet and settles it.
    The new sheet has no such row, nothing is left pending, and handling the job
    again sends nothing. *)
Theorem retarget_strands_row :
  let w := retargeted 8 in
  let again := demo_handle one_wallet w in
  option_map (fun l => ss_Wallets (lk_Sheets l)) (link_of (W_sheet marked_world) 1 2) = Some "wallets"
  /\ option_map (fun l => ss_Wallets (lk_Sheets l)) (link_of (W_sheet w) 1 2) = Some "wallets2"
  /\ option_map (fun l => ss_Wallets (lk_Sheets l)) (link_of (W_sheet (snd again)) 1 2) = Some "wallets2"
  /\ fst (retarget_handle 8 one_wallet marked_world) = Ok Handled
  /\ map sheet_called (W_sent w) = ["wallets"; "wallets"]
  /\ option_map fst (option_map cells (demo_facts (W_db w) (EntityWallet, 100%N))) = Some (Some "Cash")
  /\ bool_decide (demo_shows (W_sent w) "wallets2" (uuid_String 100) = None) = true
  /\ versions marked_world = Some (1, 0) /\ versions w = Some (2, 2)
  /\ fst again = Ok Handled /\ map sheet_called (W_sent (snd again)) = ["wallets"; "wallets"].
Proof. vm_compute. repeat split. Qed.

(** ** The texts *)

Fixpoint repeated (n : nat) (s : string) : string := match n with O => "" | S n => s ++ repeated n s end.
Definition long_cause : Error :=
  ERowRefused "wallets" "SHT016" (EOpensheet (ValidationError "SHT016" (repeated 300 (String "195" (String "169" ""))))).

(** The text a row or link keeps of a failure is cut at 512 bytes, which can
    fall inside a character: from a valid text it makes an invalid one. *)
Theorem truncate_splits_rune :
  let text := failureText long_cause in
  ToValidUTF8 text = text /\ String.length (truncate text) = 512%nat /\ ToValidUTF8 (truncate text) <> truncate text.
Proof. vm_compute. split; [reflexivity|]. split; [reflexivity | discriminate]. Qed.

(** ** How answers are sorted *)

(** What an answer is held against: the link, the row, or nothing for good. *)
Inductive Level := LinkLevel | RowLevel | RetryLevel.
#[global] Instance Level_eq_dec : EqDecision Level.
Proof. solve_decision. Defined.
(** The table of [classify.go]'s rules, by status and code. *)
Definition answer_level (status : Z) (code : string) : Level :=
  let coded := if linkLevel code then LinkLevel else RowLevel in
  if status =? 404 then (if RowMissing code then RetryLevel else LinkLevel)
  else if status =? 412 then RowLevel
  else if (status =? 409) && String.eqb code "SHT036" then RetryLevel
  else if status =? 429 then RetryLevel
  else if status =? 413 then RowLevel
  else if (status =? 400) || (status =? 422) then coded
  else if linkLevel code then LinkLevel
  else if (500 <=? status) || ((status =? 409) && String.eqb code "SHT017") then RetryLevel
  else if (status =? 401) || (status =? 403) || (status =? 424) then LinkLevel
  else RowLevel.
Definition result_level (r : HttpResult) : Level :=
  match r with
  | NoAnswer (PrivateAddress _) => LinkLevel
  | NoAnswer _ => RetryLevel
  | Answer status code _ => answer_level status code
  end.

(** Every failed call is sorted by one table: what the refusal of a call's error
    is, link-level (a strike against the link), row-level (an attempt of the row)
    or a plain retry, is [result_level] of what came back, and never two at once. *)
Theorem refusal_sorted name sheet r e : do_result name r = Some e ->
  let out := refusal sheet e in
  IsSyncRefused out = bool_decide (result_level r = LinkLevel)
  /\ IsRowRefused out = bool_decide (result_level r = RowLevel)
  /\ IsScopeMismatch out = false.
Proof.
  destruct r as [t|status code msg]; cbn [do_result].
  - intros [= <-]. destruct t; vm_compute; auto.
  - destruct (Z.ltb_spec 399 status) as [Hs|]; [|discriminate]. intros [= <-].
    cbn [result_level]. unfold answer_level, fromResponse.
    destruct (status =? 404) eqn:E404.
    { unfold refusal, IsPrivateAddress, as_not_found, codeOf, AsType; cbn [chain_is existsb chain first_hop].
      destruct (RowMissing code) eqn:M; cbn; auto. unfold RowMissing in M. apply String.eqb_eq in M. subst code. auto. }
    destruct (status =? 412) eqn:E412; [vm_compute; auto|].
    destruct ((status =? 409) && String.eqb code "SHT036") eqn:E409; [vm_compute; auto|].
    destruct (status =? 429) eqn:E429; [vm_compute; auto|].
    destruct (status =? 413) eqn:E413; [vm_compute; auto|].
    destruct ((status =? 400) || (status =? 422)) eqn:E400.
    { unfold refusal, codeOf, as_not_found, as_validation, AsType. cbn [chain first_hop chain_is existsb].
      destruct (linkLevel code) eqn:L; cbn; auto. }
    unfold refusal, codeOf, as_not_found, as_validation, as_api, AsType, IsValidation, IsPreconditionFailed, IsPayloadTooLarge, os_is.
    cbn [chain first_hop chain_is existsb orb]. destruct (linkLevel code) eqn:L; [cbn; auto|].
    unfold transient. destruct ((500 <=? status) || _) eqn:T; [cbn; auto|].
    destruct ((status =? 401) || _ || _) eqn:E4; [cbn; auto|].
    replace (400 <=? status) with true by (symmetry; apply Z.leb_le; lia). cbn. auto.
Qed.
Lemma refusal_sorted_witness :
  let r := Answer 401 "SHT001" "denied" in
  exists e, do_result "PATCH" r = Some e /\ IsSyncRefused (refusal "wallets" e) = true.
Proof.
  eexists. split; [reflexivity|].
  exact (proj1 (refusal_sorted "PATCH" "wallets" (Answer 401 "SHT001" "denied") _ eq_refl)).
Defined.

(** ** What a link remembers *)



Section Outcome.
Context `{Env, Deadlines}.


End Outcome.

