(* ===== verification/WebhookText.v ===== *)
(** * Storable text

    What [storableText] keeps of a receiver's bytes is valid UTF-8 without a NUL and
    within its limit, wherever the cut falls; and the store's attempts stay within
    their bounds. *)
From Stdlib Require Import ZArith Lia String Ascii List.
From stdpp Require Import base gmap list strings.
From S2P Require Import Prelude GoStrings Errors GoJSON Outbox Webhook.
Local Open Scope string_scope.

(** ** Valid UTF-8 *)

(** The bytes of one rune. *)
Definition good (enc : string) : Prop := exists r, decode_rune enc = Some (r, enc, "") /\ bad_rune (r, enc) = false.
Inductive utf8 : string -> Prop :=
| utf8_nil : utf8 ""
| utf8_rune enc t : good enc -> utf8 t -> utf8 (enc ++ t).

Lemma decoded_good s r enc rest : decode_rune s = Some (r, enc, rest) -> bad_rune (r, enc) = false -> good enc.
Proof. intros H B. exists r. pose proof (decode_rune_again _ _ _ _ "" H B) as E. rewrite append_nil_r in E. auto. Qed.
Lemma good_nonempty enc : good enc -> (0 < String.length enc)%nat.
Proof. intros (r & H & _). apply decode_rune_split in H as [_ Hn]. destruct enc; [congruence | cbn; lia]. Qed.

Lemma utf8_app a b : utf8 a -> utf8 b -> utf8 (a ++ b).
Proof.
  induction 1 as [|enc t Hg Ht IH]; intros Hb; [exact Hb|]. rewrite append_assoc. constructor; auto.
Qed.
Lemma utf8_good enc : good enc -> utf8 enc.
Proof. intros Hg. rewrite <- (append_nil_r enc). constructor; [exact Hg | constructor]. Qed.

Lemma utf8_valid s : utf8 s -> ValidString s = true.
Proof.
  unfold ValidString, runes. intros Hu.
  assert (H : forall n, (String.length s <= n)%nat -> forallb (fun p => negb (bad_rune p)) (runes_fuel n s) = true); [|apply H; lia].
  induction Hu as [|enc t (r & Hd & Hb) Hu IH]; intros n Hn; [destruct n; reflexivity|].
  pose proof (good_nonempty enc (ex_intro _ r (conj Hd Hb))) as Hl. rewrite append_length in Hn.
  destruct n as [|n]; [lia|]. cbn [runes_fuel]. rewrite (decode_rune_again _ _ _ _ t Hd Hb). cbn [forallb]. rewrite Hb.
  apply IH. lia.
Qed.
Lemma good_replacement : good replacement.
Proof. exists RuneError. split; vm_compute; reflexivity. Qed.

(** Every rune of a string is bad or good. *)
Lemma runes_good n s : Forall (fun p => bad_rune p = true \/ good (snd p)) (runes_fuel n s).
Proof.
  revert s. induction n as [|n IH]; intros s; cbn [runes_fuel]; [constructor|].
  destruct (decode_rune s) as [[[r enc] rest]|] eqn:E; [|constructor]. constructor; [|apply IH]. cbn [snd].
  destruct (bad_rune (r, enc)) eqn:B; [auto | right; eapply decoded_good; eauto].
Qed.
Lemma valid_runes_utf8 rep l bad : utf8 rep ->
  Forall (fun p => bad_rune p = true \/ good (snd p)) l -> utf8 (valid_runes rep l bad).
Proof.
  intros Hr Hl. revert bad. induction Hl as [|p l Hp Hl IH]; intros bad; cbn [valid_runes]; [constructor|].
  destruct (bad_rune p) eqn:B.
  - destruct bad; [apply IH | apply utf8_app; [exact Hr | apply IH]].
  - destruct Hp as [Hp|Hp]; [congruence|]. apply utf8_app; [apply utf8_good, Hp | apply IH].
Qed.
Lemma ToValidUTF8_rep_utf8 s : utf8 (ToValidUTF8_rep s replacement).
Proof. apply valid_runes_utf8; [apply utf8_good, good_replacement | apply runes_good]. Qed.

(** No rune of a string has a byte the string has not. *)
Lemma valid_runes_chars P rep l bad : all_chars P rep = true -> all_chars P (unrunes l) = true ->
  all_chars P (valid_runes rep l bad) = true.
Proof.
  intros Hr. revert bad. induction l as [|p l IH]; intros bad Hl; [reflexivity|]. cbn [valid_runes].
  rewrite unrunes_cons, all_chars_app, andb_true_iff in Hl. destruct Hl as [H1 H2].
  destruct (bad_rune p); [destruct bad|]; cbn [String.append]; rewrite ?all_chars_app, ?Hr, ?H1; cbn [andb]; apply IH, H2.
Qed.
Definition not_nul (c : ascii) : bool := negb (Ascii.eqb c (ascii_of_N 0)).
Lemma replace_nul s : all_chars not_nul (replace_char (ascii_of_N 0) replacement s) = true.
Proof.
  induction s as [|c s IH]; [reflexivity|]. cbn [replace_char]. destruct (Ascii.eqb c (ascii_of_N 0)) eqn:E.
  - rewrite all_chars_app, IH. reflexivity.
  - cbn [all_chars]. unfold not_nul at 1. rewrite E. exact IH.
Qed.
Lemma all_chars_substring P n s : all_chars P s = true -> all_chars P (String.substring 0 n s) = true.
Proof.
  revert s. induction n as [|n IH]; intros [|c s]; cbn; auto. rewrite !andb_true_iff. intros [H1 H2]. auto.
Qed.

(** ** The cut *)

(** The four shapes of a rune's bytes. *)
Inductive rune_shape : string -> Prop :=
| rune_1 a : (byte_of a < 128)%N -> rune_shape (String a "")
| rune_2 a b : in_range 194 223 a = true -> in_range 128 191 b = true -> rune_shape (String a (String b ""))
| rune_3 a b c : in_range 224 239 a = true ->
    in_range (if (byte_of a =? 224)%N then 160 else 128) (if (byte_of a =? 237)%N then 159 else 191) b = true ->
    in_range 128 191 c = true -> rune_shape (String a (String b (String c "")))
| rune_4 a b c e : in_range 240 244 a = true ->
    in_range (if (byte_of a =? 240)%N then 144 else 128) (if (byte_of a =? 244)%N then 143 else 191) b = true ->
    in_range 128 191 c = true -> in_range 128 191 e = true -> rune_shape (String a (String b (String c (String e "")))).

Lemma good_shape enc : good enc -> rune_shape enc.
Proof.
  intros (r & H & B). destruct enc as [|a [|b [|c [|e [|f enc]]]]]; [discriminate|..]; unfold decode_rune in H;
    repeat (match type of H with context [if ?x then _ else _] => destruct x eqn:?; try discriminate H end);
    repeat match goal with E : (_ && _)%bool = true |- _ => apply andb_true_iff in E as [? ?] end;
    try (injection H as <- ; discriminate B);
    first [apply rune_1; apply N.ltb_lt; assumption | apply rune_2; assumption | apply rune_3; assumption | apply rune_4; assumption].
Qed.

(** A cut of valid text: whole runes, and less than one more. *)
Definition partial (p : string) : Prop := p <> "" /\ exists q, q <> "" /\ rune_shape (p ++ q).
Lemma cut_utf8 s n : utf8 s -> exists pre p, String.substring 0 n s = pre ++ p /\ utf8 pre /\ (p = "" \/ partial p).
Proof.
  intros Hu. revert n. induction Hu as [|enc t Hg Hu IH]; intros n.
  - exists "", "". destruct n; repeat split; auto; constructor.
  - destruct (le_lt_dec (String.length enc) n) as [L|L].
    + destruct (IH (n - String.length enc)%nat) as (pre & p & E & Hp & Hc). exists (enc ++ pre), p.
      split; [|split; [constructor; assumption | exact Hc]].
      rewrite append_assoc, <- E. clear - L. revert n L.
      induction enc as [|a enc IH]; intros n L; cbn [String.append String.length] in *; [rewrite Nat.sub_0_r; reflexivity|].
      destruct n as [|n]; [lia|]. cbn [String.substring Nat.sub]. f_equal. apply IH. lia.
    + exists "", (String.substring 0 n enc). split; [|split; [constructor|]].
      * cbn [String.append]. clear - L. revert n L.
        induction enc as [|a enc IH]; intros n L; cbn [String.append String.length] in *; [lia|].
        destruct n as [|n]; [reflexivity|]. cbn [String.substring]. f_equal. apply IH. lia.
      * destruct n as [|n]; [left; destruct enc; reflexivity|]. right. split.
        { destruct enc; [cbn in L; lia | discriminate]. }
        destruct (substring_drop (S n) enc) as [E El]; [lia|]. exists (drop_str (S n) enc).
        rewrite <- E. split; [|apply good_shape, Hg]. intros E0. rewrite E0, append_nil_r in E.
        rewrite <- E in El. lia.
Qed.

(** Bytes of a text after a prefix. *)
Lemma get_app pre p k : String.get (String.length pre + k) (pre ++ p) = String.get k p.
Proof. induction pre as [|a pre IH]; [reflexivity | exact IH]. Qed.
Lemma nth_byte_app pre p k : nth_byte (String.length pre + k) (pre ++ p) = nth_byte k p.
Proof. unfold nth_byte. rewrite get_app. reflexivity. Qed.
Lemma drop_str_plus pre p k : drop_str (String.length pre + k) (pre ++ p) = drop_str k p.
Proof. induction pre as [|a pre IH]; [reflexivity | exact IH]. Qed.

Lemma in_range_start lo hi c : in_range lo hi c = true -> (192 <= lo)%N -> RuneStart c = true.
Proof.
  unfold RuneStart. intros Hc L. apply in_range_spec in Hc. apply negb_true_iff, not_true_iff_false.
  rewrite in_range_spec. lia.
Qed.
Lemma in_range_cont lo hi c : in_range lo hi c = true -> (128 <= lo)%N -> (hi <= 191)%N -> RuneStart c = false.
Proof. unfold RuneStart. intros Hc L U. apply in_range_spec in Hc. apply negb_false_iff, in_range_spec. lia. Qed.
Lemma ascii_start c : (byte_of c < 128)%N -> RuneStart c = true.
Proof. unfold RuneStart. intros L. apply negb_true_iff, not_true_iff_false. rewrite in_range_spec. lia. Qed.

(** One step back of the trim, over the last bytes [p] of a text. *)
Lemma trim_step steps i k pre p :
  (String.length p = k + i)%nat -> (0 < i)%nat ->
  trim_from (S steps) i (pre ++ p)
  = if negb (RuneStart (nth_byte k p)) then trim_from steps (S i) (pre ++ p)
    else if FullRune (drop_str k p) then pre ++ p else pre ++ String.substring 0 k p.
Proof.
  intros L Hi. cbn [trim_from]. rewrite append_length.
  destruct (Nat.ltb_spec (String.length pre + String.length p) i); [lia|].
  replace (String.length pre + String.length p - i)%nat with (String.length pre + k)%nat by lia.
  rewrite nth_byte_app, drop_str_plus. destruct (negb _); [reflexivity|]. destruct (FullRune _); [reflexivity|].
  clear. induction pre as [|a pre IH]; [reflexivity|]. cbn [String.append String.length String.substring Nat.add]. f_equal. exact IH.
Qed.

(** The bytes a rune starts and goes on with. *)
Lemma lead_of lo hi c : in_range lo hi c = true -> (192 <= lo)%N -> negb (RuneStart c) = false.
Proof. intros Hc L. rewrite (in_range_start _ _ _ Hc L). reflexivity. Qed.
Lemma cont_of lo hi c : in_range lo hi c = true -> (128 <= lo)%N -> (hi <= 191)%N -> negb (RuneStart c) = true.
Proof. intros Hc L U. rewrite (in_range_cont _ _ _ Hc L U). reflexivity. Qed.
Lemma second_cont (a b : ascii) x y z w v : in_range (if (byte_of a =? x)%N then y else 128) (if (byte_of a =? z)%N then w else v) b = true ->
  (128 <= y)%N -> (w <= 191)%N -> (v <= 191)%N -> negb (RuneStart b) = true.
Proof. intros Hb Hy Hw Hv. eapply cont_of; [exact Hb | destruct (byte_of a =? x)%N; lia | destruct (byte_of a =? z)%N; lia]. Qed.

(** [FullRune] of the bytes of a rune, all of them or the first few. *)
Lemma not_range lo hi lo' hi' c : in_range lo hi c = true -> (hi < lo' \/ hi' < lo)%N -> in_range lo' hi' c = false.
Proof. intros Hc Hd. apply in_range_spec in Hc. apply not_true_iff_false. rewrite in_range_spec. lia. Qed.
Lemma range_ne lo hi c n : in_range lo hi c = true -> (n < lo \/ hi < n)%N -> (byte_of c =? n)%N = false.
Proof. intros Hc Hd. apply in_range_spec in Hc. apply N.eqb_neq. lia. Qed.

Ltac full_rune :=
  unfold FullRune; cbn [String.length Nat.eqb nth_byte String.get];
  repeat match goal with
  | A : in_range _ _ ?a = true |- context [in_range ?lo ?hi ?a] =>
      first [rewrite A | rewrite (not_range _ _ lo hi a A) by lia]
  | A : in_range _ _ ?a = true |- context [(byte_of ?a =? ?n)%N] => rewrite (range_ne _ _ a n A) by lia
  end.

Lemma ascii_range lo hi c : (byte_of c < 128)%N -> (128 <= lo)%N -> in_range lo hi c = false.
Proof. intros Hc L. apply not_true_iff_false. rewrite in_range_spec. lia. Qed.
Lemma full_whole enc : rune_shape enc -> FullRune enc = true.
Proof.
  destruct 1 as [a Ha| | |]; [|full_rune; reflexivity ..].
  unfold FullRune; cbn [String.length Nat.eqb nth_byte String.get]. rewrite !(ascii_range _ _ a Ha) by lia. reflexivity.
Qed.
(** The first bytes of a longer rune are not a full one. *)
Lemma full_partial p q : q <> "" -> p <> "" -> rune_shape (p ++ q) -> FullRune p = false.
Proof.
  intros Hq Hp Hs. remember (p ++ q) as enc eqn:E.
  destruct Hs; destruct p as [|x [|y [|z [|u p]]]]; try congruence; cbn [String.append] in E; injection E as; subst;
    try congruence; try (destruct p; cbn [String.append] in *; congruence);
    full_rune; cbn [Nat.leb Nat.ltb negb andb orb];
    repeat match goal with A : in_range _ _ _ = true |- _ => rewrite A end; reflexivity.
Qed.

(** The trim keeps whole runes and drops the first bytes of another. *)
Lemma trim_whole pre enc : rune_shape enc -> trimPartialRune (pre ++ enc) = pre ++ enc.
Proof.
  intros Hs. pose proof (full_whole enc Hs) as Hf. unfold trimPartialRune.
  destruct Hs as [a Ha|a b Ha Hb|a b c Ha Hb Hc|a b c e Ha Hb Hc He].
  - rewrite (trim_step 2 1 0) by (reflexivity || lia). cbn [nth_byte String.get drop_str]. rewrite (ascii_start a Ha), Hf. reflexivity.
  - rewrite (trim_step 2 1 1) by (reflexivity || lia). cbn [nth_byte String.get drop_str].
    rewrite (cont_of _ _ _ Hb) by lia. rewrite (trim_step 1 2 0) by (reflexivity || lia).
    cbn [nth_byte String.get drop_str]. rewrite (lead_of _ _ _ Ha), Hf by lia. reflexivity.
  - rewrite (trim_step 2 1 2) by (reflexivity || lia). cbn [nth_byte String.get drop_str].
    rewrite (cont_of _ _ _ Hc) by lia. rewrite (trim_step 1 2 1) by (reflexivity || lia). cbn [nth_byte String.get drop_str].
    rewrite (second_cont _ _ _ _ _ _ _ Hb) by lia. rewrite (trim_step 0 3 0) by (reflexivity || lia).
    cbn [nth_byte String.get drop_str]. rewrite (lead_of _ _ _ Ha), Hf by lia. reflexivity.
  - rewrite (trim_step 2 1 3) by (reflexivity || lia). cbn [nth_byte String.get drop_str].
    rewrite (cont_of _ _ _ He) by lia. rewrite (trim_step 1 2 2) by (reflexivity || lia). cbn [nth_byte String.get drop_str].
    rewrite (cont_of _ _ _ Hc) by lia. rewrite (trim_step 0 3 1) by (reflexivity || lia).
    cbn [nth_byte String.get drop_str]. rewrite (second_cont _ _ _ _ _ _ _ Hb) by lia. reflexivity.
Qed.
Lemma trim_cut steps i k pre p : (String.length p = k + i)%nat -> (0 < i)%nat ->
  negb (RuneStart (nth_byte k p)) = false -> FullRune (drop_str k p) = false ->
  trim_from (S steps) i (pre ++ p) = pre ++ String.substring 0 k p.
Proof. intros L Hi Hs Hf. rewrite (trim_step steps i k) by assumption. rewrite Hs, Hf. reflexivity. Qed.
Lemma trim_partial pre p : partial p -> trimPartialRune (pre ++ p) = pre.
Proof.
  intros (Hp & q & Hq & Hs). pose proof (full_partial p q Hq Hp Hs) as Hf. unfold trimPartialRune.
  rewrite <- (append_nil_r pre) at 2. replace "" with (String.substring 0 0 p) by (destruct p; reflexivity).
  remember (p ++ q) as enc eqn:E.
  destruct Hs as [|? ? Ha Hb|? ? ? Ha Hb Hc|? ? ? ? Ha Hb Hc He]; destruct p as [|x [|y [|z [|u p]]]]; try congruence;
    cbn [String.append] in E; injection E as; subst;
    try congruence; try (destruct p; cbn [String.append] in *; congruence).
  all: try (apply trim_cut; [reflexivity | lia | eapply lead_of; [eassumption | lia] | exact Hf]).
  all: first
    [ rewrite (trim_step 2 1 1) by (reflexivity || lia); cbn [nth_byte String.get];
      rewrite (second_cont _ _ _ _ _ _ _ Hb) by lia;
      apply trim_cut; [reflexivity | lia | eapply lead_of; [exact Ha | lia] | exact Hf]
    | rewrite (trim_step 2 1 2) by (reflexivity || lia); cbn [nth_byte String.get];
      rewrite (cont_of _ _ _ Hc) by lia; rewrite (trim_step 1 2 1) by (reflexivity || lia); cbn [nth_byte String.get];
      rewrite (second_cont _ _ _ _ _ _ _ Hb) by lia;
      apply trim_cut; [reflexivity | lia | eapply lead_of; [exact Ha | lia] | exact Hf] ].
Qed.

Lemma utf8_last s : utf8 s -> s = "" \/ exists pre enc, s = pre ++ enc /\ utf8 pre /\ good enc.
Proof.
  induction 1 as [|enc t Hg Hu IH]; [auto|]. right. destruct IH as [->|(pre & e & -> & Hp & He)].
  - exists "", enc. rewrite append_nil_r. split; [reflexivity|]. split; [constructor | exact Hg].
  - exists (enc ++ pre), e. rewrite append_assoc. split; [reflexivity|]. split; [constructor; assumption | exact He].
Qed.
(** Valid text cut anywhere and trimmed is valid. *)
Lemma trim_cut_utf8 s n : utf8 s -> utf8 (trimPartialRune (String.substring 0 n s)).
Proof.
  intros Hu. destruct (cut_utf8 s n Hu) as (pre & p & -> & Hp & [->|Hc]); [|rewrite trim_partial; assumption].
  rewrite append_nil_r. destruct (utf8_last pre Hp) as [->|(pre' & enc & -> & Hp' & Hg)]; [constructor|].
  rewrite trim_whole by (apply good_shape, Hg). exact Hp.
Qed.

(** ** Storable text *)

Lemma trim_from_prefix steps i b : exists n, trim_from steps i b = String.substring 0 n b.
Proof.
  revert i. induction steps as [|steps IH]; intros i; cbn [trim_from].
  { exists (String.length b). pose proof (substring_app b "") as E. rewrite append_nil_r in E. symmetry. exact E. }
  assert (Hall : exists n, b = String.substring 0 n b).
  { exists (String.length b). pose proof (substring_app b "") as E. rewrite append_nil_r in E. symmetry. exact E. }
  destruct (Nat.ltb _ _); [exact Hall|]. destruct (negb _); [apply IH|]. destruct (FullRune _); [exact Hall | eauto].
Qed.
Lemma trim_from_length steps i b : (String.length (trim_from steps i b) <= String.length b)%nat.
Proof. destruct (trim_from_prefix steps i b) as [n ->]. apply substring_length_le. Qed.

Lemma storableText_spec s limit :
  let t := fst (storableText s limit) in
  ValidString t = true /\ (String.length t <= limit)%nat /\ all_chars not_nul t = true.
Proof.
  unfold storableText. set (u := ToValidUTF8_rep _ _).
  assert (Hu : utf8 u) by apply ToValidUTF8_rep_utf8.
  assert (Hn : all_chars not_nul u = true).
  { apply valid_runes_chars; [reflexivity|]. rewrite unrunes_runes. apply replace_nul. }
  cbv zeta. destruct (Nat.leb_spec (String.length u) limit); cbn [fst].
  - split; [apply utf8_valid, Hu|]. auto.
  - split; [apply utf8_valid, trim_cut_utf8, Hu|]. unfold trimPartialRune. split.
    + etransitivity; [apply trim_from_length | apply substring_length].
    + destruct (trim_from_prefix 3 1 (String.substring 0 limit u)) as [n ->]. apply all_chars_substring, all_chars_substring, Hn.
Qed.

(** ** Attempts *)

Definition stored_text (limit : nat) (s : string) : Prop :=
  ValidString s = true /\ (String.length s <= limit)%nat /\ all_chars not_nul s = true.
Definition headers_size (hs : list Header) : nat :=
  fold_right (fun h n => (String.length (h_Name h) + String.length (h_Value h) + n)%nat) 0%nat hs.

Section Bounds.
Context `{Unicode}.

(** What is kept of a receiver's headers: none that may carry a credential, fifty at
    most, four kilobytes in all, and each of them text. *)
Definition bounded_headers (hs : list Header) : Prop :=
  (List.length hs <= MaxResponseHeaders)%nat /\ (headers_size hs <= MaxResponseHeaderBytes)%nat
  /\ Forall (fun h => stored_text MaxResponseHeaderBytes (h_Name h) /\ stored_text MaxResponseHeaderBytes (h_Value h)) hs.
Lemma headers_size_app a b : headers_size (a ++ b)%list = (headers_size a + headers_size b)%nat.
Proof. induction a as [|h a IH]; cbn in *; [reflexivity|]. unfold headers_size in *. rewrite IH. lia. Qed.
Lemma bound_from_ok hs : forall out size, size = headers_size out -> bounded_headers out ->
  bounded_headers (bound_from out size hs).
Proof.
  induction hs as [|h hs IH]; intros out size -> Hb; cbn [bound_from]; [exact Hb|].
  destruct (Nat.leb_spec MaxResponseHeaders (List.length out)); [exact Hb|].
  destruct (isCredentialHeader (h_Name h)); [apply IH; [reflexivity | exact Hb]|].
  destruct (Nat.ltb_spec MaxResponseHeaderBytes (headers_size out + String.length (fst (storableText (h_Name h) MaxResponseHeaderBytes))
    + String.length (fst (storableText (h_Value h) MaxResponseHeaderBytes)))); [apply IH; [reflexivity | exact Hb]|].
  destruct Hb as (B1 & B2 & B3). apply IH; [rewrite headers_size_app; cbn [headers_size fold_right h_Name h_Value]; lia|].
  split; [rewrite List.length_app; cbn; lia|]. split; [rewrite headers_size_app; cbn [headers_size fold_right h_Name h_Value]; lia|].
  apply Forall_app. split; [exact B3|]. constructor; [|constructor]. split; apply storableText_spec.
Qed.
Lemma boundHeaders_ok hs : bounded_headers (boundHeaders hs).
Proof. apply bound_from_ok; [reflexivity|]. split; [cbn; lia|]. split; [cbn; lia | constructor]. Qed.

(** An attempt as the store keeps it. *)
Definition attempt_ok (a : Attempt) : Prop :=
  stored_text MaxResponseBodyBytes (at_ResponseBody a) /\ bounded_headers (at_ResponseHeaders a)
  /\ (Z.of_nat (String.length (at_Error a)) <= MaxCauseLen)%Z.
End Bounds.
