(* ===== verification/WebhookStore.v ===== *)
(** * The webhooks' store ([internal/webhook/sqlite.go], [adapter.go])

    The tables [webhook_endpoints] and [webhook_deliveries]: each method runs in the
    caller's unit of work or in a transaction of its own, behind the tenant's
    organisation. *)
From Stdlib Require Import ZArith Lia String List.
From stdpp Require Import base gmap list strings.
From S2P Require Import Prelude GoStrings Errors GoJSON Tenant Outbox Webhook World.
Local Open Scope string_scope.
Local Open Scope Z_scope.

(** ** Columns kept as JSON ([adapter.go]) *)

Definition marshalEventTypes (types : list EventType) : string := json_print (JArr (map JStr types)).
Fixpoint json_strings (l : list json) : option (list string) :=
  match l with
  | [] => Some []
  | j :: l =>
    match match j with JStr s => Some s | JNull => Some "" | _ => None end, json_strings l with
    | Some s, Some ss => Some (s :: ss)
    | _, _ => None
    end
  end.
(** A null leaves the slice nil. *)
Definition unmarshalEventTypes (raw : string) : option (list EventType) :=
  match json_read raw with
  | Some (JArr l) => json_strings l
  | Some JNull => Some []
  | _ => None
  end.
Definition marshalHeaders (hs : list Header) : string :=
  json_print (JArr (map (fun h => JObj [("name", JStr (h_Name h)); ("value", JStr (h_Value h))]) hs)).
(** A stored header, from a member list or a null. *)
Definition json_header (j : json) : option Header :=
  match j with
  | JObj ms => match string_field "name" ms "", string_field "value" ms "" with
               | Some n, Some v => Some (mkHeader n v)
               | _, _ => None
               end
  | JNull => Some (mkHeader "" "")
  | _ => None
  end.
Fixpoint json_headers (l : list json) : option (list Header) :=
  match l with
  | [] => Some []
  | j :: l => match json_header j, json_headers l with Some h, Some hs => Some (h :: hs) | _, _ => None end
  end.
Definition unmarshalHeaders (raw : string) : option (list Header) :=
  match json_read raw with
  | Some (JArr l) => json_headers l
  | Some JNull => Some []
  | _ => None
  end.

(** ** Statements *)

(** [sqliteSecondary]: no bytes are stored as NULL. *)
Definition sqliteSecondary (b : option string) : option string :=
  match b with Some "" => None | b => b end.

(** The upsert of [Save]: the secrets are written only on insert; a conflicting row
    of another organisation is left alone and counts no row. *)
Definition endpoint_upsert (tc : Tenant) (e : Endpoint) : Statement := fun db =>
  match db_endpoints db !! ep_ID e with
  | Some old =>
    if N.eqb (ep_OrgID old) (OrgID tc)
    then inr (set_endpoints (<[ep_ID e :=
                mkEndpoint (ep_ID old) (ep_OrgID old) (ep_ProjectID old) (ep_URL e) (ep_Description e) (ep_EventTypes e)
                  (ep_Secrets old) (ep_Active e) (ep_CreatedAt old) (ep_UpdatedAt e)]> (db_endpoints db)) db, 1%nat)
    else inr (db, 0%nat)
  | None =>
    if bool_decide (ep_OrgID e ∈ db_orgs db) && bool_decide (ep_ProjectID e ∈ db_projects db)
    then inr (set_endpoints (<[ep_ID e :=
                mkEndpoint (ep_ID e) (ep_OrgID e) (ep_ProjectID e) (ep_URL e) (ep_Description e) (ep_EventTypes e)
                  (mkSecrets (sx_Primary (ep_Secrets e)) (sqliteSecondary (sx_Secondary (ep_Secrets e))))
                  (ep_Active e) (ep_CreatedAt e) (ep_UpdatedAt e)]> (db_endpoints db)) db, 1%nat)
    else inl (CONSTRAINT_FOREIGNKEY, "FOREIGN KEY constraint failed")
  end.
(** The row under [id], when the tenant's organisation owns it. *)
Definition endpoint_of (db : DB) (tc : Tenant) (id : uuid) : option Endpoint :=
  match db_endpoints db !! id with
  | Some e => if N.eqb (ep_OrgID e) (OrgID tc) then Some e else None
  | None => None
  end.
Definition same_secrets (a b : SealedSecrets) : bool :=
  String.eqb (sx_Primary a) (sx_Primary b) && bool_decide (sx_Secondary a = sqliteSecondary (sx_Secondary b)).
Definition secrets_update (tc : Tenant) (id : uuid) (expected next : SealedSecrets) (now : Z) : Statement := fun db =>
  match endpoint_of db tc id with
  | Some e =>
    if same_secrets (ep_Secrets e) expected
    then inr (set_endpoints (<[id := set_secrets now (mkSecrets (sx_Primary next) (sqliteSecondary (sx_Secondary next))) e]>
                (db_endpoints db)) db, 1%nat)
    else inr (db, 0%nat)
  | None => inr (db, 0%nat)
  end.
(** The attempts of a deleted endpoint go with it. *)
Definition endpoint_delete (tc : Tenant) (id : uuid) : Statement := fun db =>
  match endpoint_of db tc id with
  | Some _ =>
    inr (set_attempts (filter (fun a => at_EndpointID (snd a) <> id) (db_attempts db))
           (set_endpoints (delete id (db_endpoints db)) db), 1%nat)
  | None => inr (db, 0%nat)
  end.
Definition attempt_insert (a : Attempt) : Statement := fun db =>
  match db_attempts db !! at_ID a with
  | Some _ => inl (CONSTRAINT_PRIMARYKEY, "UNIQUE constraint failed: webhook_deliveries.id")
  | None =>
    if bool_decide (at_OrgID a ∈ db_orgs db) && bool_decide (at_ProjectID a ∈ db_projects db)
       && match db_endpoints db !! at_EndpointID a with Some _ => true | None => false end
    then inr (set_attempts (<[at_ID a := a]> (db_attempts db)) db, 1%nat)
    else inl (CONSTRAINT_FOREIGNKEY, "FOREIGN KEY constraint failed")
  end.
(** Durations are stored in whole milliseconds. *)
Definition stored_attempt (a : Attempt) : Attempt :=
  mkAttempt (at_ID a) (at_OrgID a) (at_ProjectID a) (at_EndpointID a) (at_DeliveryID a) (at_EventID a) (at_EventType a)
    (at_Attempt a) (at_StatusCode a) (at_Error a) (at_ResponseBody a) (at_ResponseTruncated a) (at_ResponseHeaders a)
    (Z.quot (at_Duration a) 1000000 * 1000000) (at_CreatedAt a).

(** Newest first: [created_at DESC, id DESC]. *)
Definition endpoint_newest (a b : Endpoint) : bool :=
  (ep_CreatedAt b <? ep_CreatedAt a) || ((ep_CreatedAt b =? ep_CreatedAt a) && N.leb (ep_ID b) (ep_ID a)).
Definition attempt_newest (a b : Attempt) : bool :=
  (at_CreatedAt b <? at_CreatedAt a) || ((at_CreatedAt b =? at_CreatedAt a) && N.leb (at_ID b) (at_ID a)).
Definition endpoints_of (db : DB) (tc : Tenant) (orgID projectID : uuid) : list Endpoint :=
  sort_by endpoint_newest
    (List.filter (fun e => N.eqb (ep_OrgID e) orgID && N.eqb (ep_OrgID e) (OrgID tc) && N.eqb (ep_ProjectID e) projectID)
       (rows (db_endpoints db))).

(** ** The store *)
Section Store.
Context `{Env, Unicode}.

Definition webhook_Save (cx : Ctx) (e : Endpoint) : M unit :=
  write_tx "webhook" cx (fun tc =>
    if negb (N.eqb (ep_OrgID e) (OrgID tc)) then st_err (EWebhook (EndpointNotFoundError (uuid_String (ep_ID e)))) else
    let* n := st_maperr (EWrap "webhook.sqlite.Save") (exec_stmt (endpoint_upsert tc e)) in
    if Nat.eqb n 0 then st_err (EWebhook (EndpointNotFoundError (uuid_String (ep_ID e)))) else st_ret tt).

Definition webhook_SaveSecrets (cx : Ctx) (id : uuid) (expected next : SealedSecrets) : M unit :=
  write_tx "webhook" cx (fun tc =>
    let* now := time_Now in
    let* n := st_maperr (EWrap "webhook.sqlite.SaveSecrets") (exec_stmt (secrets_update tc id expected next now)) in
    if Nat.ltb 0 n then st_ret tt else
    let* found := query "webhook.sqlite.SaveSecrets: probe" (fun db => endpoint_of db tc id) in
    match found with
    | None => st_err (EWebhook (EndpointNotFoundError (uuid_String id)))
    | Some _ => st_err (EWebhook (SecretConflictError (uuid_String id)))
    end).

Definition webhook_store_ByID (cx : Ctx) (id : uuid) : M Endpoint :=
  read_tx "webhook" cx (fun tc =>
    let* r := query "webhook.sqlite.ByID" (fun db => endpoint_of db tc id) in
    match r with
    | None => st_err (EWebhook (EndpointNotFoundError (uuid_String id)))
    | Some e => st_ret e
    end).

Definition webhook_store_List (cx : Ctx) (orgID projectID : uuid) : M (list Endpoint) :=
  read_tx "webhook" cx (fun tc => query "webhook.sqlite.List" (fun db => endpoints_of db tc orgID projectID)).

Definition webhook_store_Delete (cx : Ctx) (id : uuid) : M unit :=
  write_tx "webhook" cx (fun tc =>
    let* n := st_maperr (EWrap "webhook.sqlite.Delete") (exec_stmt (endpoint_delete tc id)) in
    if Nat.eqb n 0 then st_err (EWebhook (EndpointNotFoundError (uuid_String id))) else st_ret tt).

(** [prepareAttempt]. *)
Definition prepareAttempt (tc : Tenant) (a : Attempt) : M Attempt :=
  if negb (N.eqb (at_OrgID a) (OrgID tc))
  then st_err (EWebhook (InvalidAttemptError "OrgID" "does not match the tenant scope on ctx")) else
  if negb (N.eqb (at_ProjectID a) (ProjectID tc))
  then st_err (EWebhook (InvalidAttemptError "ProjectID" "does not match the tenant scope on ctx")) else
  let* id := if N.eqb (at_ID a) uuid_Nil then NewV7 else st_ret (at_ID a) in
  let* created := if at_CreatedAt a =? zero_Time then time_Now else st_ret (at_CreatedAt a) in
  st_ret (BoundResponse
    (mkAttempt id (at_OrgID a) (at_ProjectID a) (at_EndpointID a) (at_DeliveryID a) (at_EventID a) (at_EventType a)
       (at_Attempt a) (at_StatusCode a) (TruncateCause (at_Error a) MaxCauseLen) (at_ResponseBody a)
       (at_ResponseTruncated a) (at_ResponseHeaders a) (at_Duration a) created)).
Definition webhook_SaveAttempt (cx : Ctx) (a : Attempt) : M unit :=
  write_tx "webhook" cx (fun tc =>
    let* a := prepareAttempt tc a in
    let* r := st_try (exec_stmt (attempt_insert (stored_attempt a))) in
    match r with
    | inl (ESqlite CONSTRAINT_FOREIGNKEY _) => st_err (EWebhook (EndpointNotFoundError (uuid_String (at_EndpointID a))))
    | inl e => st_err (EWrap "webhook.sqlite.SaveAttempt" e)
    | inr _ => st_ret tt
    end).

Definition webhook_ListAttempts (cx : Ctx) (endpointID deliveryID : uuid) : M (list Attempt) :=
  read_tx "webhook" cx (fun tc => query "webhook.sqlite.ListAttempts" (fun db =>
    sort_by attempt_newest
      (List.filter (fun a => N.eqb (at_OrgID a) (OrgID tc) && N.eqb (at_EndpointID a) endpointID
                             && N.eqb (at_DeliveryID a) deliveryID) (rows (db_attempts db))))).
End Store.
