(* ===== verification/WebhookService.v ===== *)
(** * The webhooks' service and deliverer ([internal/webhook/service.go], [deliverer.go])

    The service keeps the endpoints of a project and queues an outbox entry per
    subscribed endpoint of an event; the deliverer is the outbox's: it signs the
    entry's body, posts it and records the attempt. *)
From Stdlib Require Import ZArith Lia String Ascii List.
From stdpp Require Import base gmap list strings.
From S2P Require Import Prelude GoStrings Errors Encoding GoJSON Sealer Tenant Outbox Webhook World OutboxStore WebhookStore.
Local Open Scope string_scope.
Local Open Scope Z_scope.

(** ** Events as they travel

    The envelope of an event and the columns the store keeps as JSON, printed and
    read back. *)
(** ** Envelopes *)

(** The data of a catalog's event; its version is a Go [int64]. *)
Definition payload_ok (d : EventData) : Prop :=
  match d with
  | PostPublishedV1 s | PostUnpublishedV1 s => in_int64 (ps_Version s)
  | PostDeletedV1 _ _ _ | WebhookPingV1 _ => True
  | OtherData _ => False
  end.

(** A document of strings and whole numbers, three levels deep. *)
Definition flat (n : N) (j : json) : Prop := numbers_ok j /\ (nesting j <= n)%N.

Lemma json_time_flat t j : json_time t = Some j -> flat 0 j.
Proof. unfold json_time. destruct (_ && _); [|discriminate]. intros [= <-]. split; [exact I | reflexivity]. Qed.
Lemma FormatInt_number z : in_int64 z -> number_text (FormatInt z).
Proof. unfold in_int64, min_int64, max_int64. intros Hz. exists z. split; [reflexivity | lia]. Qed.

Lemma deepest_le l n : Forall (fun x => (x <= n)%N) l -> (deepest l <= n)%N.
Proof. unfold deepest. induction 1; cbn; lia. Qed.
Lemma all_of_map {A} (P : A -> Prop) l : Forall P l -> all_of (map P l).
Proof. induction 1; cbn; auto. Qed.
Lemma flat_arr n l : Forall (flat n) l -> flat (1 + n) (JArr l).
Proof.
  intros Hl. split; cbn [numbers_ok nesting].
  - apply all_of_map. eapply Forall_impl; [exact Hl | intros j Hj; apply Hj].
  - assert (deepest (map nesting l) <= n)%N; [|lia]. apply deepest_le, Forall_map.
    eapply Forall_impl; [exact Hl | intros j Hj; apply Hj].
Qed.
Lemma flat_obj n ms : Forall (fun m => flat n (snd m)) ms -> flat (1 + n) (JObj ms).
Proof.
  intros Hl. split; cbn [numbers_ok nesting].
  - apply (all_of_map (fun m : string * json => numbers_ok (snd m))). eapply Forall_impl; [exact Hl | intros j Hj; apply Hj].
  - assert (deepest (map (fun m : string * json => nesting (snd m)) ms) <= n)%N; [|lia]. apply deepest_le, Forall_map.
    eapply Forall_impl; [exact Hl | intros j Hj; apply Hj].
Qed.
Lemma flat_more n m j : flat n j -> (n <= m)%N -> flat m j.
Proof. intros [H1 H2] Hn. split; [exact H1 | lia]. Qed.
Lemma flat_str n s : flat n (JStr s).
Proof. split; [exact I | cbn; lia]. Qed.
Lemma flat_null n : flat n JNull.
Proof. split; [exact I | cbn; lia]. Qed.
Lemma flat_bool n b : flat n (JBool b).
Proof. split; [exact I | cbn; lia]. Qed.
Lemma flat_int n z : in_int64 z -> flat n (JNum (FormatInt z)).
Proof. intros Hz. split; [apply FormatInt_number, Hz | cbn; lia]. Qed.
#[local] Hint Resolve flat_str flat_null flat_bool flat_int : core.
Ltac flat_members := apply flat_obj; repeat first [apply List.Forall_nil | apply List.Forall_cons]; cbn [snd]; auto.

Lemma json_time_any n t j : json_time t = Some j -> flat n j.
Proof. intros Hj. eapply flat_more; [apply (json_time_flat t), Hj | lia]. Qed.
#[local] Hint Resolve json_time_any : core.
Lemma json_post_flat s j : in_int64 (ps_Version s) -> json_post s = Some j -> flat 2 j.
Proof.
  intros Hv. unfold json_post. destruct (json_time (ps_UpdatedAt s)) as [u|] eqn:Eu; [|discriminate].
  destruct (match ps_FirstPublishedAt s with None => Some JNull | Some t => json_time t end) as [f|] eqn:Ef; [|discriminate].
  intros [= <-]. assert (Hf : flat 1 f) by (destruct (ps_FirstPublishedAt s); [eauto | simplify_eq; auto]).
  assert (Ht : flat 1 (match ps_TagIDs s with None => JNull | Some l => JArr (map json_uuid l) end)).
  { destruct (ps_TagIDs s); [|auto]. apply (flat_arr 0), Forall_map, Forall_forall. intros x _. apply flat_str. }
  apply (flat_obj 1). repeat first [apply List.Forall_nil | apply List.Forall_cons]; cbn [snd]; eauto; apply flat_str.
Qed.
Lemma json_data_flat d j : payload_ok d -> json_data d = Some j -> flat 2 j.
Proof.
  destruct d; cbn [payload_ok json_data]; [apply json_post_flat | apply json_post_flat | | | tauto]; intros _ [= <-];
    apply (flat_obj 1); repeat first [apply List.Forall_nil | apply List.Forall_cons]; cbn [snd]; auto; apply flat_str.
Qed.

(** The members of an envelope. *)
Definition tenant_members (e : Envelope) : list (string * json) :=
  [("org_id", json_uuid (ev_OrgID e)); ("project_id", json_uuid (ev_ProjectID e)); ("project_slug", JStr (ev_ProjectSlug e))].
Lemma json_envelope_members e j : json_envelope e = Some j -> exists created data,
  json_time (ev_CreatedAt e) = Some created /\ json_data (ev_Data e) = Some data
  /\ j = JObj [("id", JStr (ev_ID e)); ("type", JStr (ev_Type e)); ("api_version", JStr (ev_APIVersion e));
               ("created_at", created); ("tenant", JObj (tenant_members e)); ("data", data)].
Proof.
  unfold json_envelope. destruct (json_time (ev_CreatedAt e)) as [c|]; [|discriminate].
  destruct (json_data (ev_Data e)) as [d|]; [|discriminate]. intros [= <-]. eauto.
Qed.
(** An envelope reads back as it was built, its strings cleaned of invalid UTF-8. *)
Lemma marshal_read e body : payload_ok (ev_Data e) -> marshal_envelope e = Some body ->
  exists j, json_envelope e = Some j /\ body = json_print j /\ json_read body = Some (scrub_json j).
Proof.
  intros Hd. unfold marshal_envelope. destruct (json_envelope e) as [j|] eqn:Ej; [|discriminate]. intros [= <-].
  exists j. split; [reflexivity|]. split; [reflexivity|].
  destruct (json_envelope_members _ _ Ej) as (c & d & Hc & Hdd & ->).
  assert (Hf : flat 3 (JObj [("id", JStr (ev_ID e)); ("type", JStr (ev_Type e)); ("api_version", JStr (ev_APIVersion e));
               ("created_at", c); ("tenant", JObj (tenant_members e)); ("data", d)])).
  { apply (flat_obj 2). repeat first [apply List.Forall_nil | apply List.Forall_cons]; cbn [snd]; eauto.
    - apply (flat_obj 1). repeat first [apply List.Forall_nil | apply List.Forall_cons]; cbn [snd]; apply flat_str.
    - apply (json_data_flat _ _ Hd Hdd). }
  destruct Hf as [Hn Hs]. apply json_read_print; [exact Hn|]. unfold maxNestingDepth. lia.
Qed.

Lemma envelope_type_read `{JSONErrors} e body :
  payload_ok (ev_Data e) -> ValidString (ev_Type e) = true -> ev_Type e <> "" ->
  marshal_envelope e = Some body -> envelopeType body = inr (ev_Type e).
Proof.
  intros Hd Hv Hne Hm. destruct (marshal_read e body Hd Hm) as (j & Ej & _ & Hr). unfold envelopeType. rewrite Hr.
  destruct (json_envelope_members _ _ Ej) as (c & d & _ & _ & ->).
  cbn [scrub_json map fst snd string_field].
  repeat match goal with |- context [fold_ascii ?x] =>
    let y := eval vm_compute in (fold_ascii x) in change (fold_ascii x) with y end.
  cbn [String.eqb Ascii.eqb Bool.eqb]. rewrite scrub_valid by exact Hv.
  apply String.eqb_neq in Hne. rewrite Hne. reflexivity.
Qed.

(** ** Columns *)

Lemma flat_read n j : flat n j -> (n <= maxNestingDepth)%N -> json_read (json_print j) = Some (scrub_json j).
Proof. intros [H1' H2'] Hn. apply json_read_print; [exact H1' | lia]. Qed.
Lemma json_strings_valid ts : Forall (fun t => ValidString t = true) ts -> json_strings (map scrub_json (map JStr ts)) = Some ts.
Proof.
  induction 1 as [|t ts Ht Hts IH]; [reflexivity|]. cbn [map scrub_json json_strings]. rewrite IH, scrub_valid by exact Ht. reflexivity.
Qed.
Lemma event_types_read ts : Forall (fun t => ValidString t = true) ts -> unmarshalEventTypes (marshalEventTypes ts) = Some ts.
Proof.
  intros Hts. unfold unmarshalEventTypes, marshalEventTypes.
  rewrite (flat_read 1); [cbn [scrub_json]; apply json_strings_valid, Hts | | unfold maxNestingDepth; lia].
  apply (flat_arr 0), Forall_map, Forall_forall. intros t _. apply flat_str.
Qed.
Lemma headers_read hs : Forall (fun h => ValidString (h_Name h) = true /\ ValidString (h_Value h) = true) hs ->
  unmarshalHeaders (marshalHeaders hs) = Some hs.
Proof.
  intros Hhs. unfold unmarshalHeaders, marshalHeaders.
  rewrite (flat_read 2); [| |unfold maxNestingDepth; lia].
  2: { apply (flat_arr 1), Forall_map, Forall_forall. intros h _.
       apply (flat_obj 0). repeat first [apply List.Forall_nil | apply List.Forall_cons]; cbn [snd]; apply flat_str. }
  cbn [scrub_json]. induction Hhs as [|h hs [Hn Hv] Hhs IH]; [reflexivity|].
  cbn [map json_headers]. rewrite IH. cbn [json_header scrub_json map fst snd string_field].
  change (scrub "name") with "name". change (scrub "value") with "value".
  repeat match goal with |- context [fold_ascii ?x] =>
    let y := eval vm_compute in (fold_ascii x) in change (fold_ascii x) with y end.
  cbn [String.eqb Ascii.eqb Bool.eqb]. rewrite !scrub_valid by assumption. destruct h. reflexivity.
Qed.

(** ** Ports *)

(** The receivers, as they answer after what was sent so far. *)
Class Receivers := receive : nat -> list Sent -> HttpPost -> PostResult.
(** The project's slug ([ProjectSlugs]). *)
Class ProjectSlugs := SlugOf : Ctx -> uuid -> M string.
(** [uuid.Parse], with its error's words. *)
Class UUIDParser := uuid_Parse : string -> string + uuid.
Class UUIDParserLaws `{UUIDParser} := uuid_Parse_String u : (u < 2 ^ 128)%N -> uuid_Parse (uuid_String u) = inr u.
(** [err.Error()]: words that are stored and shown, and decide nothing. *)
Class ErrorTexts := error_text : Error -> string.

(** ** The service *)
Section Service.
Context `{Env, Unicode, URLs, Sealer, SecretBytes, ProjectSlugs, JSONErrors}.

Definition webhook_load (cx : Ctx) (method : string) (id : uuid) : M Endpoint :=
  let* tc := from_tenant cx in
  let* r := st_try (webhook_store_ByID cx id) in
  match r with
  | inl e => if IsEndpointNotFound e then st_err e else unexpected (method ++ ": byID") e
  | inr e =>
    if negb (N.eqb (ep_OrgID e) (OrgID tc)) || negb (N.eqb (ep_ProjectID e) (ProjectID tc))
    then st_err (EWebhook (EndpointNotFoundError (uuid_String id))) else st_ret e
  end.
Definition webhook_save (cx : Ctx) (method : string) (e : Endpoint) : M unit :=
  let* r := st_try (webhook_Save cx e) in
  match r with
  | inl err => if IsEndpointNotFound err then st_err err else unexpected (method ++ ": save") err
  | inr _ => st_ret tt
  end.
(** The endpoint the caller holds gets the new secrets once they are stored. *)
Definition saveSecrets (cx : Ctx) (method : string) (e : Endpoint) (next : SealedSecrets) : M Endpoint :=
  let* r := st_try (webhook_SaveSecrets cx (ep_ID e) (ep_Secrets e) next) in
  match r with
  | inr _ => let* now := time_Now in st_ret (set_secrets now next e)
  | inl err =>
    if IsEndpointNotFound err || IsSecretConflict err then st_err err else unexpected (method ++ ": save secrets") err
  end.
Definition sealFailure {A} (msg : string) (e : Error) : M A := if IsUnavailable e then st_err e else unexpected msg e.
Definition seal_secret (msg : string) (id : uuid) (slot secret : string) : M string :=
  let* n := tick in
  match sealSecret n id slot secret with inl e => sealFailure msg e | inr sealed => st_ret sealed end.
Definition newSecret (method : string) : M string :=
  let* n := tick in
  match rand_bytes n with
  | inl e => unexpected (method ++ ": new secret") (EWrap "webhook.newSecret" e)
  | inr b => st_ret (secret_of b)
  end.

Definition webhook_Create (cx : Ctx) (rawURL description : string) (types : list EventType) : M (Endpoint * string) :=
  let* tc := from_tenant cx in
  let* _ := st_sum (match webhook_validate rawURL description types with inl e => inl (EWebhook e) | inr v => inr v end) in
  let* now := time_Now in
  let* id := NewV7 in
  let* e := st_sum (match Endpoint_New id now (OrgID tc) (ProjectID tc) rawURL description types with
                    | inl e => inl (EWebhook e) | inr e => inr e end) in
  let* r := st_try (webhook_store_List cx (OrgID tc) (ProjectID tc)) in
  match r with
  | inl err => unexpected "webhook.Create: list" err
  | inr existing =>
    if Nat.leb MaxEndpointsPerProject (List.length existing)
    then st_err (EWebhook (EndpointLimitError (Z.of_nat MaxEndpointsPerProject))) else
    let* secret := newSecret "webhook.Create" in
    let* sealed := seal_secret "webhook.Create: seal" (ep_ID e) slotPrimary secret in
    let e := mkEndpoint (ep_ID e) (ep_OrgID e) (ep_ProjectID e) (ep_URL e) (ep_Description e) (ep_EventTypes e)
               (mkSecrets sealed (sx_Secondary (ep_Secrets e))) (ep_Active e) (ep_CreatedAt e) (ep_UpdatedAt e) in
    webhook_save cx "webhook.Create" e ;;;
    st_ret (e, secret)
  end.

Definition webhook_Update (cx : Ctx) (id : uuid) (rawURL description : string) (types : list EventType) (active : bool)
    : M Endpoint :=
  let* e := webhook_load cx "webhook.Update" id in
  let* now := time_Now in
  match Endpoint_Update now e rawURL description types active with
  | inl err => st_err (EWebhook err)
  | inr e => webhook_save cx "webhook.Update" e ;;; st_ret e
  end.

Definition webhook_Delete (cx : Ctx) (id : uuid) : M unit :=
  let* _ := webhook_load cx "webhook.Delete" id in
  let* r := st_try (webhook_store_Delete cx id) in
  match r with
  | inl e => if IsEndpointNotFound e then st_err e else unexpected "webhook.Delete: delete" e
  | inr _ => st_ret tt
  end.

Definition webhook_ByID (cx : Ctx) (id : uuid) : M Endpoint := webhook_load cx "webhook.ByID" id.

Definition webhook_List (cx : Ctx) : M (list Endpoint) :=
  let* tc := from_tenant cx in
  let* r := st_try (webhook_store_List cx (OrgID tc) (ProjectID tc)) in
  match r with inl e => unexpected "webhook.List: list" e | inr l => st_ret l end.

Definition Rotate (cx : Ctx) (id : uuid) : M string :=
  let* e := webhook_load cx "webhook.Rotate" id in
  let* secret := newSecret "webhook.Rotate" in
  let* primary := seal_secret "webhook.Rotate: seal primary" (ep_ID e) slotPrimary secret in
  let* secondary :=
    match openSecret (ep_ID e) slotPrimary (sx_Primary (ep_Secrets e)) with
    | inl _ => st_ret None
    | inr old => let* s := seal_secret "webhook.Rotate: seal secondary" (ep_ID e) slotSecondary old in st_ret (Some s)
    end in
  let* _ := saveSecrets cx "webhook.Rotate" e (mkSecrets primary secondary) in
  st_ret secret.

Definition RetireSecondary (cx : Ctx) (id : uuid) : M unit :=
  let* e := webhook_load cx "webhook.RetireSecondary" id in
  match sx_Secondary (ep_Secrets e) with
  | None => st_ret tt
  | Some _ =>
    let* _ := saveSecrets cx "webhook.RetireSecondary" e (mkSecrets (sx_Primary (ep_Secrets e)) None) in st_ret tt
  end.

(** *** Queueing an event *)

Fixpoint enqueue_all (cx : Ctx) (orgID projectID eventID : uuid) (body : string) (targets : list Endpoint) : M unit :=
  match targets with
  | [] => st_ret tt
  | e :: targets =>
    let* entryID := NewV7 in
    st_maperr (EWrap ("outbox enqueue: endpoint_id=" ++ uuid_String (ep_ID e)))
      (outbox_Enqueue cx (mkEntry entryID eventID orgID projectID (uuid_String (ep_ID e)) body 0 zero_Time "" "" zero_Time)) ;;;
    enqueue_all cx orgID projectID eventID body targets
  end.
Definition fanOut (cx : Ctx) (orgID projectID : uuid) (spec : Spec) (data : EventData) (targets : list Endpoint) : M unit :=
  let* slug := st_maperr (EWrap "project slug") (SlugOf cx projectID) in
  let* eventID := NewV7 in
  let* now := time_Now in
  match marshal_envelope (mkEnvelope (eventIDPrefix ++ uuid_String eventID) (sp_Type spec) (APIVersion spec)
                            (now - now mod Second) orgID projectID slug data) with
  | None => st_err (EWrap "marshal envelope" (EText "year outside of range [0,9999]"))
  | Some body => enqueue_all cx orgID projectID eventID body targets
  end.

(** The endpoints an event goes to. *)
Definition event_targets (t : EventType) (endpoints : list Endpoint) : list Endpoint :=
  List.filter (fun e => ep_Active e && Subscribes e t) endpoints.
Definition webhook_Enqueue (cx : Ctx) (t : EventType) (data : EventData) : M unit :=
  if negb (cx_tx cx) then st_err (EWebhook NoUnitOfWorkError) else
  match Lookup t with
  | None => st_err (EEvents (UnknownTypeError t))
  | Some spec =>
    match CheckPayload t data with
    | Some err => st_err (EEvents err)
    | None =>
      let* tc := from_tenant cx in
      let* endpoints := st_maperr (EWrap "webhook.Enqueue") (webhook_store_List cx (OrgID tc) (ProjectID tc)) in
      match event_targets t endpoints with
      | [] => st_ret tt
      | targets => st_maperr (EWrap "webhook.Enqueue") (fanOut cx (OrgID tc) (ProjectID tc) spec data targets)
      end
    end
  end.
Definition SendTest (cx : Ctx) (id : uuid) : M unit :=
  let* e := webhook_load cx "webhook.SendTest" id in
  if negb (ep_Active e) then st_err (EWebhook (EndpointInactiveError (uuid_String id))) else
  match Lookup WebhookPing with
  | None => unexpected "webhook.SendTest: lookup" (EEvents (UnknownTypeError WebhookPing))
  | Some spec =>
    let* r := st_try (fanOut cx (ep_OrgID e) (ep_ProjectID e) spec (WebhookPingV1 (ep_ID e)) [e]) in
    match r with inl err => unexpected "webhook.SendTest: enqueue" err | inr _ => st_ret tt end
  end.

(** *** Deliveries *)

Definition MaxDeliveriesListed : Z := 50.
Record Delivery := mkDelivery { dl_Entry : Entry; dl_EventType : EventType }.
Definition toDelivery (e : Entry) : Delivery :=
  mkDelivery e (match envelopeType (ob_Payload e) with inl _ => "" | inr t => t end).

Definition Deliveries (cx : Ctx) (id : uuid) (limit : Z) : M (list Delivery) :=
  let* _ := webhook_load cx "webhook.Deliveries" id in
  let* r := st_try (outbox_ListByTarget cx (uuid_String id) (Z.min limit MaxDeliveriesListed)) in
  match r with inl e => unexpected "webhook.Deliveries: list" e | inr es => st_ret (map toDelivery es) end.
Definition webhook_Delivery (cx : Ctx) (id deliveryID : uuid) : M Delivery :=
  let* _ := webhook_load cx "webhook.Delivery" id in
  let* r := st_try (outbox_ByID cx deliveryID (uuid_String id)) in
  match r with
  | inl e => if IsOutboxNotFound e then st_err (EWebhook (DeliveryNotFoundError (uuid_String deliveryID)))
             else unexpected "webhook.Delivery: byID" e
  | inr e => st_ret (toDelivery e)
  end.
Definition Attempts (cx : Ctx) (id deliveryID : uuid) : M (list Attempt) :=
  let* _ := webhook_load cx "webhook.Attempts" id in
  let* r := st_try (webhook_ListAttempts cx id deliveryID) in
  match r with inl e => unexpected "webhook.Attempts: list" e | inr l => st_ret l end.
Definition Retry (cx : Ctx) (id deliveryID : uuid) : M unit :=
  let* _ := webhook_load cx "webhook.Retry" id in
  let* r := st_try (outbox_Requeue cx deliveryID (uuid_String id)) in
  match r with
  | inr _ => st_ret tt
  | inl e =>
    if IsNotFailed e then st_err (EWebhook (DeliveryNotRetryableError (uuid_String deliveryID))) else
    if IsOutboxNotFound e then st_err (EWebhook (DeliveryNotFoundError (uuid_String deliveryID)))
    else unexpected "webhook.Retry: requeue" e
  end.
Definition RetryFailed (cx : Ctx) (id : uuid) : M nat :=
  let* _ := webhook_load cx "webhook.RetryFailed" id in
  let* r := st_try (outbox_RequeueFailed cx (uuid_String id)) in
  match r with inl e => unexpected "webhook.RetryFailed: requeue" e | inr n => st_ret n end.
End Service.

(** ** The deliverer *)
Section Delivering.
Context `{Env, Unicode, URLs, Sealer, JSONErrors, Receivers, UUIDParser, ErrorTexts}.

(** The receipt comes with the error, as in Go. *)
Definition post (url : string) (e : Entry) (eventType : EventType) (secrets : list string) : M (Receipt * option Error) :=
  match url_Parse url with
  | inl msg => st_ret (no_receipt, Some (EWrap "webhook.Deliver: build request" (EText msg)))
  | inr _ =>
    let* now := time_Now in
    let p := delivery_post url e eventType secrets now in
    let* n := tick in
    let* sent := get_sent in
    let r := receive n sent p in
    send (Posted p r) ;;;
    match r with
    | PostFailed msg => st_ret (no_receipt, Some (EWrap "webhook.Deliver: post" (EURL (EText msg))))
    | PostAnswered status body headers =>
      let rc := readReceipt status body headers in
      if (status <? 200) || (299 <? status) then st_ret (rc, Some (EWebhook (DeliveryFailedError status)))
      else st_ret (rc, None)
    end
  end.
(** A failure to record the attempt is logged. *)
Definition saveAttempt (cx : Ctx) (a : Attempt) : M unit :=
  let* _ := st_try (E' := Error) (webhook_SaveAttempt cx a) in st_ret tt.

Definition deliver (cx : Ctx) (e : Entry) : M unit :=
  match uuid_Parse (ob_Target e) with
  | inl msg => st_err (EWrap "webhook.Deliver: target" (EText msg))
  | inr endpointID =>
    let* r := st_try (webhook_store_ByID cx endpointID) in
    match r with
    | inl err => if IsEndpointNotFound err then st_ret tt else st_err (EWrap "webhook.Deliver: load endpoint" err)
    | inr ep =>
      if negb (N.eqb (ep_OrgID ep) (ob_OrgID e)) || negb (N.eqb (ep_ProjectID ep) (ob_ProjectID e)) then st_ret tt else
      let cx := WithProject cx (ob_ProjectID e) in
      if negb (ep_Active ep) then st_err (EWebhook (EndpointInactiveError (uuid_String (ep_ID ep)))) else
      match openSecrets ep with
      | inl err => st_err err
      | inr secrets =>
        match envelopeType (ob_Payload e) with
        | inl err => st_err (EWrap "webhook.Deliver" err)
        | inr eventType =>
          let* start := time_Now in
          let* '(rc, sendErr) := post (ep_URL ep) e eventType secrets in
          let* stop := time_Now in
          saveAttempt cx
            (mkAttempt uuid_Nil (ob_OrgID e) (ob_ProjectID e) (ep_ID ep) (ob_ID e) (ob_EventID e) eventType (ob_Attempt e)
               (rc_status rc) (match sendErr with None => "" | Some err => error_text err end) (rc_body rc)
               (rc_truncated rc) (rc_headers rc) (stop - start) zero_Time) ;;;
          match sendErr with None => st_ret tt | Some err => st_err err end
        end
      end
    end
  end.

(** The webhooks as the outbox's deliverer. *)
Definition webhookDeliverer : Deliverer := {| Deliver := fun cx e => st_maperr error_text (deliver cx e) |}.
End Delivering.
