(* ===== verification/WebhookSafety.v ===== *)
(** * Endpoints and attempts over any session

    The well-formedness of the two tables of the webhooks, and what a session may
    touch of them: only the endpoints of the projects it works in. *)
From Stdlib Require Import ZArith Lia String List.
From stdpp Require Import base gmap list strings.
From S2P Require Import Prelude GoStrings Errors Encoding Sealer Tenant Outbox Webhook World OutboxStore PeriodService WebhookText WebhookStore WebhookService.
Local Open Scope string_scope.
Local Open Scope Z_scope.

(** ** Well-formed rows *)

Section Rows.
Context `{URLs, Unicode}.

Definition url_ok (u : string) : Prop :=
  u <> "" /\ Z.of_nat (String.length u) <= MaxURLLen /\ ValidString u = true
  /\ exists parts, url_Parse u = inr parts /\ u_Scheme parts = "https" /\ u_HasUser parts = false /\ u_Hostname parts <> "".
Definition types_ok (ts : list EventType) : Prop :=
  ts <> [] /\ List.NoDup ts /\ Forall (fun t => exists s, Lookup t = Some s /\ sp_Subscribable s = true) ts.
Definition endpoint_ok (e : Endpoint) : Prop :=
  url_ok (ep_URL e) /\ types_ok (ep_EventTypes e)
  /\ ValidString (ep_Description e) = true /\ RuneCountInString (ep_Description e) <= MaxDescriptionRunes.

Lemma validateURL_ok raw u : validateURL raw = inr u -> url_ok u.
Proof.
  unfold validateURL. destruct (String.eqb_spec (TrimSpace raw) ""); [discriminate|].
  destruct (Z.ltb_spec MaxURLLen (Z.of_nat (String.length (TrimSpace raw)))); [discriminate|].
  destruct (ValidString (TrimSpace raw)) eqn:V; [|discriminate]. cbn [negb].
  destruct (url_Parse (TrimSpace raw)) as [m|parts] eqn:P; [discriminate|].
  destruct (String.eqb_spec (u_Scheme parts) "https"); [|discriminate]. cbn [negb].
  destruct (u_HasUser parts) eqn:U; [discriminate|].
  destruct (String.eqb_spec (u_Hostname parts) ""); [discriminate|]. intros [= <-].
  split; [assumption|]. split; [assumption|]. split; [assumption|]. exists parts. auto.
Qed.
Lemma existsb_In (t : EventType) l : existsb (String.eqb t) l = true <-> In t l.
Proof.
  rewrite existsb_exists. split; [intros (x & Hx & E); apply String.eqb_eq in E; subst; exact Hx|].
  intros Hx. exists t. split; [exact Hx | apply String.eqb_refl].
Qed.
Lemma check_types_ok ts : forall seen, check_types seen ts = None ->
  List.NoDup ts /\ (forall t, In t ts -> ~ In t seen)
  /\ Forall (fun t => exists s, Lookup t = Some s /\ sp_Subscribable s = true) ts.
Proof.
  induction ts as [|t ts IH]; intros seen; cbn [check_types].
  { intros _. split; [constructor|]. split; [intros t []|constructor]. }
  destruct (Lookup t) as [s|] eqn:L; [|discriminate]. destruct (sp_Subscribable s) eqn:S; [|discriminate]. cbn [negb].
  destruct (existsb (String.eqb t) seen) eqn:E; [discriminate|]. intros Hc. destruct (IH _ Hc) as (Hn & Hs & Hf).
  assert (Hni : ~ In t seen) by (rewrite <- existsb_In, E; discriminate).
  split; [constructor; [|exact Hn]; intros Hin; apply (Hs t Hin), in_app_iff; right; left; reflexivity|].
  split; [|constructor; eauto]. intros x [<-|Hx]; [exact Hni|]. intros Hin. apply (Hs x Hx), in_app_iff. auto.
Qed.
Lemma webhook_validate_ok raw desc ts u d ts' : webhook_validate raw desc ts = inr (u, d, ts') ->
  url_ok u /\ types_ok ts' /\ ValidString d = true /\ RuneCountInString d <= MaxDescriptionRunes.
Proof.
  unfold webhook_validate. destruct (validateURL raw) as [e|u0] eqn:Eu; [discriminate|].
  unfold validateDescription. destruct (ValidString (TrimSpace desc)) eqn:V; [|discriminate]. cbn [negb].
  destruct (Z.ltb_spec MaxDescriptionRunes (RuneCountInString (TrimSpace desc))); [discriminate|].
  unfold validateTypes. destruct ts as [|t ts]; [discriminate|].
  destruct (check_types [] (t :: ts)) eqn:C; [discriminate|]. intros [= <- <- <-].
  destruct (check_types_ok _ _ C) as (K1 & _ & K2). split; [eapply validateURL_ok, Eu|].
  split; [split; [discriminate|]; auto | auto].
Qed.
Lemma Endpoint_New_ok id now o p raw desc ts e : Endpoint_New id now o p raw desc ts = inr e ->
  endpoint_ok e /\ ep_ID e = id /\ ep_OrgID e = o /\ ep_ProjectID e = p.
Proof.
  unfold Endpoint_New. destruct (webhook_validate raw desc ts) as [er|[[u d] ts']] eqn:V; [discriminate|].
  intros [= <-]. pose proof (webhook_validate_ok _ _ _ _ _ _ V) as (? & ? & ? & ?). unfold endpoint_ok; cbn. auto.
Qed.
Lemma Endpoint_Update_ok now e raw desc ts active e' : Endpoint_Update now e raw desc ts active = inr e' ->
  endpoint_ok e' /\ ep_ID e' = ep_ID e /\ ep_OrgID e' = ep_OrgID e /\ ep_ProjectID e' = ep_ProjectID e.
Proof.
  unfold Endpoint_Update. destruct (webhook_validate raw desc ts) as [er|[[u d] ts']] eqn:V; [discriminate|].
  intros [= <-]. pose proof (webhook_validate_ok _ _ _ _ _ _ V) as (? & ? & ? & ?). unfold endpoint_ok; cbn. auto.
Qed.

(** ** What a step keeps *)

(** The endpoints lie under their ids and are well formed; the attempts too, each
    with its endpoint. *)
Definition webhooks_wf (db : DB) : Prop :=
  (forall id e, db_endpoints db !! id = Some e -> ep_ID e = id /\ endpoint_ok e /\ sx_Secondary (ep_Secrets e) <> Some "")
  /\ (forall id a, db_attempts db !! id = Some a ->
        at_ID a = id /\ attempt_ok a /\ exists e, db_endpoints db !! at_EndpointID a = Some e).

Variable foreign : uuid -> uuid -> Prop.   (** the scopes out of reach *)
Definition off (e : Endpoint) : Prop := foreign (ep_OrgID e) (ep_ProjectID e).
(** The tables stay well formed; the endpoints out of reach, and their attempts,
    stay what they were. *)
Definition webhook_step (db db' : DB) : Prop := webhooks_wf db ->
  webhooks_wf db'
  /\ (forall id e, off e -> (db_endpoints db !! id = Some e <-> db_endpoints db' !! id = Some e))
  /\ (forall aid a e, db_endpoints db !! at_EndpointID a = Some e -> off e ->
        (db_attempts db !! aid = Some a <-> db_attempts db' !! aid = Some a)).
#[export] Instance webhook_step_pre : PreOrder webhook_step.
Proof.
  split.
  - intros db Hw. split; [exact Hw|]. split; reflexivity.
  - intros a b c Hab Hbc Hw. destruct (Hab Hw) as (Hb & E1 & T1). destruct (Hbc Hb) as (Hc & E2 & T2).
    split; [exact Hc|]. split; [intros id e He; rewrite E1 by exact He; apply E2, He|].
    intros aid x e Hx He. rewrite T1 by eauto. apply (T2 _ _ e); [apply E1; assumption | exact He].
Qed.
Lemma webhook_step_same db db' :
  db_endpoints db' = db_endpoints db -> db_attempts db' = db_attempts db -> webhook_step db db'.
Proof.
  intros E T Hw. unfold webhooks_wf. rewrite E, T. split; [exact Hw|]. split; reflexivity.
Qed.

(** No endpoint out of reach lies under [id]. *)
Definition in_reach (id : uuid) (db : DB) : Prop := webhooks_wf db /\ forall e, db_endpoints db !! id = Some e -> ~ off e.
Lemma in_reach_stable id : stable webhook_step (in_reach id).
Proof.
  intros db db' Hs [Hw Hr]. destruct (Hs Hw) as (Hw' & E & _). split; [exact Hw'|].
  intros e He Ho. apply (Hr e); [apply E|]; assumption.
Qed.

(** *** The statements *)

(** A write of one endpoint in reach, that leaves the attempts alone. *)
Lemma put_endpoint_step id e db :
  in_reach id db -> ~ off e -> ep_ID e = id -> endpoint_ok e -> sx_Secondary (ep_Secrets e) <> Some "" ->
  webhook_step db (set_endpoints (<[id := e]> (db_endpoints db)) db).
Proof.
  intros [[W1 W2] Hr] Ho Hi Hok Hx _. split; [split|split].
  - intros i x. cbn. rewrite lookup_insert_Some. intros [[<- <-]|[_ Hx']]; eauto.
  - intros i a Ha. cbn in Ha |- *. destruct (W2 _ _ Ha) as (? & ? & e0 & He0). split; [assumption|]. split; [assumption|].
    destruct (decide (at_EndpointID a = id)) as [->|Hne]; [rewrite lookup_insert_eq | rewrite lookup_insert_ne by congruence]; eauto.
  - intros i x Hx'. cbn. destruct (decide (i = id)) as [->|Hne]; [|rewrite lookup_insert_ne by congruence; reflexivity].
    rewrite lookup_insert_eq. split; [intros Hl; destruct (Hr x Hl Hx') | intros Hl; injection Hl as <-; destruct (Ho Hx')].
  - reflexivity.
Qed.
Lemma sqliteSecondary_some b : sqliteSecondary b <> Some "".
Proof. destruct b as [[|c s]|]; discriminate. Qed.

Lemma endpoint_upsert_step tc e db db' n :
  in_reach (ep_ID e) db -> ~ off e -> endpoint_ok e -> endpoint_upsert tc e db = inr (db', n) -> webhook_step db db'.
Proof.
  intros Hr Ho Hok. unfold endpoint_upsert. destruct (db_endpoints db !! ep_ID e) as [old|] eqn:E.
  - destruct (N.eqb _ _); intros [= <- _]; [|reflexivity]. destruct Hr as [Hw Hr].
    destruct (proj1 Hw _ _ E) as (Hi & Hook & Hx).
    apply put_endpoint_step; [split; assumption | exact (Hr _ E) | exact Hi | exact Hok | exact Hx].
  - destruct (_ && _); [|discriminate]. intros [= <- _].
    apply put_endpoint_step; [exact Hr | exact Ho | reflexivity | exact Hok | apply sqliteSecondary_some].
Qed.
Lemma endpoint_of_some db tc id e : endpoint_of db tc id = Some e -> db_endpoints db !! id = Some e /\ ep_OrgID e = OrgID tc.
Proof.
  unfold endpoint_of. destruct (db_endpoints db !! id) as [x|]; [|discriminate].
  destruct (N.eqb_spec (ep_OrgID x) (OrgID tc)); [|discriminate]. intros [= <-]. auto.
Qed.
Lemma secrets_update_step tc id expected next now db db' n :
  in_reach id db -> secrets_update tc id expected next now db = inr (db', n) -> webhook_step db db'.
Proof.
  intros Hr. unfold secrets_update. destruct (endpoint_of db tc id) as [e|] eqn:E; [|intros [= <- _]; reflexivity].
  destruct (same_secrets _ _); intros [= <- _]; [|reflexivity]. apply endpoint_of_some in E as [E _].
  destruct Hr as [Hw Hr]. destruct (proj1 Hw _ _ E) as (Hi & Hok & Hx).
  apply put_endpoint_step; [split; assumption | exact (Hr _ E) | exact Hi | exact Hok | apply sqliteSecondary_some].
Qed.
Lemma endpoint_delete_step tc id db db' n :
  in_reach id db -> endpoint_delete tc id db = inr (db', n) -> webhook_step db db'.
Proof.
  intros [Hw Hr]. unfold endpoint_delete. destruct (endpoint_of db tc id) as [e|] eqn:E; [|intros [= <- _]; reflexivity].
  apply endpoint_of_some in E as [E _]. intros [= <- _] [W1 W2]. split; [split|split].
  - intros i x. cbn. rewrite lookup_delete_Some. intros [_ Hx]. eauto.
  - intros i a. cbn. rewrite map_lookup_filter_Some. cbn. intros [Ha Hne]. destruct (W2 _ _ Ha) as (? & ? & x & Hx).
    split; [assumption|]. split; [assumption|]. exists x. rewrite lookup_delete_ne by congruence. exact Hx.
  - intros i x Hx. cbn. rewrite lookup_delete_Some. split; [|tauto]. intros Hl. split; [|exact Hl]. intros ->. exact (Hr x Hl Hx).
  - intros aid a x Hl Hx. cbn. rewrite map_lookup_filter_Some. cbn. split; [|tauto]. intros Ha. split; [exact Ha|].
    intros Hi. rewrite Hi in Hl. exact (Hr x Hl Hx).
Qed.
Lemma attempt_insert_step a db db' n :
  in_reach (at_EndpointID a) db -> attempt_ok a -> attempt_insert a db = inr (db', n) -> webhook_step db db'.
Proof.
  intros [_ Hr] Hok. unfold attempt_insert. destruct (db_attempts db !! at_ID a) eqn:E; [discriminate|].
  destruct (_ && _) eqn:C; [|discriminate]. apply andb_true_iff in C as [_ C]. intros [= <- _] [W1 W2]. split; [split|split].
  - exact W1.
  - intros i x. cbn. rewrite lookup_insert_Some. intros [[<- <-]|[_ Hx]]; [|eauto]. split; [reflexivity|].
    split; [exact Hok|]. destruct (db_endpoints db !! at_EndpointID a) as [e|]; [eauto | discriminate].
  - reflexivity.
  - intros aid x e Hl He. cbn. destruct (decide (at_ID a = aid)) as [<-|Hne]; [|rewrite lookup_insert_ne by exact Hne; reflexivity].
    rewrite E, lookup_insert_eq. split; [discriminate|]. intros [= <-]. destruct (Hr e Hl He).
Qed.
End Rows.

(** ** The outbox keeps to any relation its table is no part of *)
Section OutboxFree.
Context `{Env} (R : DB -> DB -> Prop) `{!PreOrder R}.
Hypothesis rely : forall n db, R db (env_other n db).
Hypothesis outbox_free : forall m db, R db (set_outbox m db).

Lemma free_conn {A} cx (m : M A) : preserves (on_db R) m -> preserves (on_db R) (on_conn cx m).
Proof.
  intros Hm. unfold on_conn. destruct (cx_tx cx); [exact Hm|].
  apply preserves_bind; [exact _ | apply pres_others, rely | auto].
Qed.
Lemma free_query {A} cx op (q : DB -> A) : preserves (on_db R) (on_conn cx (query op q)).
Proof. apply free_conn, pres_query. exact _. Qed.
Lemma free_update cx op p f : preserves (on_db R) (on_conn cx (st_maperr (EWrap op) (exec_stmt (update_where p f)))).
Proof. apply free_conn, preserves_maperr, pres_exec_stmt; [exact _|]. intros db db' n [= <- _]. apply outbox_free. Qed.
Lemma free_insert cx op row : preserves (on_db R) (on_conn cx (st_maperr (EWrap op) (exec_stmt (outbox_insert row)))).
Proof.
  apply free_conn, preserves_maperr, pres_exec_stmt; [exact _|]. intros db db' n. unfold outbox_insert.
  destruct (existsb _ _); [intros [= <- _]; reflexivity|]. destruct (db_outbox db !! _); [discriminate|].
  destruct (_ && _); [|discriminate]. intros [= <- _]. apply outbox_free.
Qed.
Ltac free_go := pres_go rely; first [apply free_query | apply free_update | apply free_insert].
Lemma free_Enqueue cx e : preserves (on_db R) (outbox_Enqueue cx e).
Proof. unfold outbox_Enqueue. free_go. Qed.
Lemma free_Requeue cx id target : preserves (on_db R) (outbox_Requeue cx id target).
Proof. unfold outbox_Requeue, refuseRequeue. free_go. Qed.
Lemma free_RequeueFailed cx target : preserves (on_db R) (outbox_RequeueFailed cx target).
Proof. unfold outbox_RequeueFailed. free_go. Qed.
Lemma free_ByID cx id target : preserves (on_db R) (outbox_ByID cx id target).
Proof. unfold outbox_ByID. free_go. Qed.
Lemma free_ListByTarget cx target limit : preserves (on_db R) (outbox_ListByTarget cx target limit).
Proof. unfold outbox_ListByTarget. free_go. Qed.
End OutboxFree.

(** ** The service's and the deliverer's operations *)

(** A slug is read. *)
Class ProjectSlugsLaws `{Env, !ProjectSlugs} := {
  SlugOf_read cx id : read_only (SlugOf cx id);
  SlugOf_in_tx id : reads_in_tx (fun cx => SlugOf cx id)
}.

Section Operations.
Context `{Env, Unicode, URLs, Sealer, SecretBytes, !ProjectSlugs, !ProjectSlugsLaws, JSONErrors}.
Context (foreign : uuid -> uuid -> Prop).
Notation R := (webhook_step foreign).
Hypothesis rely : forall n db, R db (env_other n db).
(** [NewV7] draws no id an endpoint has. *)
Definition fresh_endpoints : Prop := forall n db, db_endpoints db !! env_uuid n db = None.
Hypothesis fresh : fresh_endpoints.

Definition within (cx : Ctx) : Prop := forall tc, From_ cx = inr tc -> ~ foreign (OrgID tc) (ProjectID tc).

Lemma wf_stable : stable R webhooks_wf.
Proof. intros db db' Hs Hw. apply (Hs Hw). Qed.
Lemma rg_wf {E A} (m : ST World E A) Q : rg R webhooks_wf m Q -> preserves (on_db R) m.
Proof. intros Hm w Hw. exact (proj1 (Hm w Hw) Hw). Qed.

Lemma rg_free {E A} (P : DB -> Prop) (m : ST World E A) : preserves (on_db R) m -> rg R P m (fun _ _ => True).
Proof. intros Hm w _. split; [apply Hm | auto]. Qed.
Lemma rg_sum {A B} (P : DB -> Prop) (a : A) (k : A -> M B) Q : rg R P (k a) Q -> rg R P (st_bind (st_sum (inr a)) k) Q.
Proof. intros Hk. exact Hk. Qed.
Lemma rg_NewV7 : rg R webhooks_wf (NewV7 (E := Error)) (fun id db => in_reach foreign id db).
Proof.
  intros w Hw. split; [reflexivity|]. intros id [= <-]. split; [exact Hw|]. intros e He.
  change (db_endpoints (W_db w) !! env_uuid (W_step w) (W_db w) = Some e) in He.
  rewrite fresh in He. discriminate.
Qed.

Lemma rg_Save cx e : ~ off foreign e -> endpoint_ok e ->
  rg R (in_reach foreign (ep_ID e)) (webhook_Save cx e) (fun _ _ => True).
Proof.
  intros Ho Hok. unfold webhook_Save. apply rg_write_tx; [exact _ | exact rely | apply in_reach_stable|]. intros tc _.
  destruct (negb _); [apply rg_err; exact _|].
  eapply rg_bind; [exact _ | eapply (rg_maperr R), (rg_exec_stmt R) |].
  - intros db db' n Hr. apply endpoint_upsert_step; assumption.
  - intros n. destruct (Nat.eqb n 0); [apply rg_err; exact _ | apply rg_ret; auto; exact _].
Qed.
Lemma rg_SaveSecrets cx id expected next :
  rg R (in_reach foreign id) (webhook_SaveSecrets cx id expected next) (fun _ _ => True).
Proof.
  unfold webhook_SaveSecrets. apply rg_write_tx; [exact _ | exact rely | apply in_reach_stable|]. intros tc _.
  eapply rg_bind; [exact _ | apply (rg_same _ _ (in_reach foreign id)); reflexivity|]. intros now.
  eapply rg_bind; [exact _ | eapply (rg_maperr R), (rg_exec_stmt R) |].
  - intros db db' n Hr. apply secrets_update_step, Hr.
  - intros n. apply rg_free. pres_go rely.
Qed.
Lemma rg_store_Delete cx id : rg R (in_reach foreign id) (webhook_store_Delete cx id) (fun _ _ => True).
Proof.
  unfold webhook_store_Delete. apply rg_write_tx; [exact _ | exact rely | apply in_reach_stable|]. intros tc _.
  eapply rg_bind; [exact _ | eapply (rg_maperr R), (rg_exec_stmt R) |].
  - intros db db' n Hr. apply endpoint_delete_step, Hr.
  - intros n. destruct (Nat.eqb n 0); [apply rg_err; exact _ | apply rg_ret; auto; exact _].
Qed.
Lemma rg_ByID cx tc id : From_ cx = inr tc ->
  rg R webhooks_wf (webhook_store_ByID cx id)
    (fun e db => webhooks_wf db /\ db_endpoints db !! id = Some e /\ ep_OrgID e = OrgID tc).
Proof.
  intros F. unfold webhook_store_ByID. apply rg_read_tx; [exact _ | exact rely | exact wf_stable|]. intros tc' F'.
  rewrite F in F'. injection F' as <-.
  eapply rg_bind; [exact _ | apply (rg_query _ _ _ _ (fun r db => webhooks_wf db /\ r = endpoint_of db tc id)); auto|].
  intros [e|]; [|apply rg_err; exact _]. apply rg_ret; [exact _|]. intros db [Hw He]. split; [exact Hw|].
  apply endpoint_of_some. congruence.
Qed.
Lemma List_step cx o p : preserves (on_db R) (webhook_store_List cx o p).
Proof. unfold webhook_store_List. pres_go rely. Qed.

(** What a loaded endpoint is: in reach, and stays so. *)
Lemma rg_load cx method id : within cx ->
  rg R webhooks_wf (webhook_load cx method id) (fun e db => in_reach foreign id db /\ ep_ID e = id /\ ~ off foreign e).
Proof.
  intros Hin. unfold webhook_load, from_tenant. destruct (From_ cx) as [er|tc] eqn:F; [apply rg_err; exact _|].
  change (rg R webhooks_wf (let* r := st_try (webhook_store_ByID cx id) in
    match r with
    | inl e => if IsEndpointNotFound e then st_err e else unexpected (method ++ ": byID") e
    | inr e => if negb (N.eqb (ep_OrgID e) (OrgID tc)) || negb (N.eqb (ep_ProjectID e) (ProjectID tc))
               then st_err (EWebhook (EndpointNotFoundError (uuid_String id))) else st_ret e
    end) (fun e db => in_reach foreign id db /\ ep_ID e = id /\ ~ off foreign e)).
  eapply rg_bind; [exact _ | apply rg_try; [exact wf_stable | apply (rg_ByID _ tc), F] |].
  intros [er|e]; [destruct (IsEndpointNotFound er); apply rg_err; exact _|].
  destruct (N.eqb_spec (ep_OrgID e) (OrgID tc)) as [Eo|]; [|apply rg_err; exact _].
  destruct (N.eqb_spec (ep_ProjectID e) (ProjectID tc)) as [Ep|]; [|apply rg_err; exact _].
  cbn [negb orb]. apply rg_ret; [exact _|]. intros db (Hw & He & _).
  assert (Hoff : ~ off foreign e) by (unfold off; rewrite Eo, Ep; apply Hin, F).
  split; [|split; [apply (proj1 Hw _ _ He) | exact Hoff]]. split; [exact Hw|]. congruence.
Qed.

Lemma saveSecrets_step cx method e next id : within cx ->
  ep_ID e = id -> rg R (in_reach foreign id) (saveSecrets cx method e next) (fun _ _ => True).
Proof.
  intros _ <-. unfold saveSecrets.
  eapply rg_bind; [exact _ | apply rg_try; [apply in_reach_stable | apply rg_SaveSecrets] |].
  intros [er|u]; apply rg_free; pres_go rely.
Qed.
Lemma save_step cx method e : ~ off foreign e -> endpoint_ok e ->
  rg R (in_reach foreign (ep_ID e)) (webhook_save cx method e) (fun _ _ => True).
Proof.
  intros Ho Hok. unfold webhook_save.
  eapply rg_bind; [exact _ | apply rg_try; [apply in_reach_stable | apply rg_Save; assumption] |].
  intros [er|u]; apply rg_free; pres_go rely.
Qed.

Lemma webhook_step_outbox m db : R db (set_outbox m db).
Proof. apply webhook_step_same; reflexivity. Qed.
(** After the load, a program that leaves the two tables alone. *)
Lemma rg_after_load {A} cx method id (k : Endpoint -> M A) : within cx ->
  (forall e, ep_ID e = id -> ~ off foreign e -> rg R (in_reach foreign id) (k e) (fun _ _ => True)) ->
  preserves (on_db R) (let* e := webhook_load cx method id in k e).
Proof.
  intros Hin Hk. eapply rg_wf, rg_bind; [exact _ | apply rg_load, Hin|].
  intros e w (Hr & Hi & Ho). exact (Hk e Hi Ho w Hr).
Qed.
Lemma pres_after_load {A} cx method id (k : Endpoint -> M A) : within cx ->
  (forall e, preserves (on_db R) (k e)) -> preserves (on_db R) (let* e := webhook_load cx method id in k e).
Proof.
  intros Hin Hk. apply rg_after_load; [exact Hin|]. intros e _ _. apply rg_free, Hk.
Qed.

Lemma rg_stays {E A} (m : ST World E A) id : preserves (on_db R) m -> rg R (in_reach foreign id) m (fun _ => in_reach foreign id).
Proof. apply rg_preserves, in_reach_stable. Qed.
Lemma newSecret_step method : preserves (on_db R) (newSecret method).
Proof. unfold newSecret. apply preserves_bind; [exact _ | apply pres_tick; exact _ | intros n]. pres_go rely. Qed.
Lemma seal_step msg id slot secret : preserves (on_db R) (seal_secret msg id slot secret).
Proof.
  unfold seal_secret, sealFailure. apply preserves_bind; [exact _ | apply pres_tick; exact _ | intros n]. pres_go rely.
Qed.

Lemma Create_step cx url desc types : within cx -> preserves (on_db R) (webhook_Create cx url desc types).
Proof.
  intros Hin. unfold webhook_Create. apply pres_with_tenant; [exact _|]. intros tc F.
  destruct (webhook_validate url desc types) as [er|v]; [apply preserves_err; exact _|].
  apply preserves_bind; [exact _ | apply preserves_ret; exact _|]. intros _.
  apply preserves_bind; [exact _ | apply pres_time_Now; exact _|]. intros now.
  apply (rg_wf _ (fun _ _ => True)). eapply rg_bind; [exact _ | apply rg_NewV7|]. intros id.
  destruct (Endpoint_New id now (OrgID tc) (ProjectID tc) url desc types) as [er|e] eqn:E; [apply rg_err; exact _|].
  apply Endpoint_New_ok in E as (Hok & Hi & Ho & Hp). apply rg_sum.
  eapply rg_bind; [exact _ | apply rg_stays, preserves_try, List_step|]. intros [er|l]; [apply rg_err; exact _|].
  destruct (Nat.leb _ _); [apply rg_err; exact _|].
  eapply rg_bind; [exact _ | apply rg_stays, newSecret_step|]. intros secret.
  eapply rg_bind; [exact _ | apply rg_stays, seal_step|]. intros sealed. rewrite <- Hi.
  eapply rg_bind; [exact _ | | intros u; apply rg_ret; [exact _ | intros; exact I]].
  apply (save_step cx "webhook.Create" (mkEndpoint (ep_ID e) (ep_OrgID e) (ep_ProjectID e) (ep_URL e) (ep_Description e)
    (ep_EventTypes e) _ _ _ _)); [unfold off; cbn; rewrite Ho, Hp; apply Hin, F | exact Hok].
Qed.
Lemma Update_step cx id url desc types active : within cx -> preserves (on_db R) (webhook_Update cx id url desc types active).
Proof.
  intros Hin. unfold webhook_Update. apply rg_after_load; [exact Hin|]. intros e Hi Ho.
  eapply rg_bind; [exact _ | apply rg_stays, pres_time_Now; exact _|]. intros now.
  destruct (Endpoint_Update now e url desc types active) as [er|e'] eqn:E; [apply rg_err; exact _|].
  apply Endpoint_Update_ok in E as (Hok & Hi' & Ho' & Hp'). rewrite <- Hi, <- Hi'.
  eapply rg_bind; [exact _ | apply save_step; [unfold off; rewrite Ho', Hp'; exact Ho | exact Hok] |].
  intros u. apply rg_ret; [exact _ | auto].
Qed.
Lemma Delete_step cx id : within cx -> preserves (on_db R) (webhook_Delete cx id).
Proof.
  intros Hin. unfold webhook_Delete. apply rg_after_load; [exact Hin|]. intros e _ _.
  eapply rg_bind; [exact _ | apply rg_try; [apply in_reach_stable | apply rg_store_Delete] |].
  intros [er|u]; apply rg_free; pres_go rely.
Qed.
Lemma Rotate_step cx id : within cx -> preserves (on_db R) (Rotate cx id).
Proof.
  intros Hin. unfold Rotate. apply rg_after_load; [exact Hin|]. intros e Hi Ho.
  eapply rg_bind; [exact _ | apply rg_stays, newSecret_step|]. intros secret.
  eapply rg_bind; [exact _ | apply rg_stays, seal_step|]. intros primary.
  eapply rg_bind; [exact _ | apply rg_stays|].
  { destruct (openSecret _ _ _); [apply preserves_ret; exact _|].
    apply preserves_bind; [exact _ | apply seal_step | intros; apply preserves_ret; exact _]. }
  intros secondary. eapply rg_bind; [exact _ | apply saveSecrets_step; [exact Hin | exact Hi] |].
  intros u. apply rg_ret; [exact _ | auto].
Qed.
Lemma Retire_step cx id : within cx -> preserves (on_db R) (RetireSecondary cx id).
Proof.
  intros Hin. unfold RetireSecondary. apply rg_after_load; [exact Hin|]. intros e Hi Ho.
  destruct (sx_Secondary (ep_Secrets e)); [|apply rg_ret; [exact _ | auto]].
  eapply rg_bind; [exact _ | apply saveSecrets_step; [exact Hin | exact Hi] |].
  intros u. apply rg_ret; [exact _ | auto].
Qed.

Lemma enqueue_all_step cx o p ev body targets : preserves (on_db R) (enqueue_all cx o p ev body targets).
Proof.
  induction targets as [|e targets IH]; cbn [enqueue_all]; [apply preserves_ret; exact _|].
  apply preserves_bind; [exact _ | apply pres_NewV7; exact _|]. intros entryID.
  apply preserves_bind; [exact _ | apply preserves_maperr, free_Enqueue; [exact _ | exact rely | apply webhook_step_outbox] | intros _; exact IH].
Qed.
Lemma fanOut_step cx o p spec data targets : preserves (on_db R) (fanOut cx o p spec data targets).
Proof.
  unfold fanOut. apply preserves_bind; [exact _ | apply preserves_maperr, SlugOf_read; [exact _ | exact rely] |]. intros slug.
  pres_go rely. apply enqueue_all_step.
Qed.
#[local] Opaque fanOut outbox_Requeue outbox_RequeueFailed outbox_ByID outbox_ListByTarget.
Lemma webhook_Enqueue_step cx t data : preserves (on_db R) (webhook_Enqueue cx t data).
Proof.
  unfold webhook_Enqueue. pres_go rely; first [apply List_step | apply fanOut_step].
Qed.
Lemma SendTest_step cx id : within cx -> preserves (on_db R) (SendTest cx id).
Proof.
  intros Hin. unfold SendTest. apply pres_after_load; [exact Hin|]. intros e. pres_go rely. apply fanOut_step.
Qed.
Lemma Retry_step cx id d : within cx -> preserves (on_db R) (Retry cx id d).
Proof.
  intros Hin. unfold Retry. apply pres_after_load; [exact Hin|]. intros e. pres_go rely.
  apply free_Requeue; [exact _ | exact rely | apply webhook_step_outbox].
Qed.
Lemma RetryFailed_step cx id : within cx -> preserves (on_db R) (RetryFailed cx id).
Proof.
  intros Hin. unfold RetryFailed. apply pres_after_load; [exact Hin|]. intros e. pres_go rely.
  apply free_RequeueFailed; [exact _ | exact rely | apply webhook_step_outbox].
Qed.
Lemma webhook_ByID_step cx id : within cx -> preserves (on_db R) (webhook_ByID cx id).
Proof. intros Hin. eapply rg_wf, rg_load, Hin. Qed.
Lemma webhook_List_step cx : preserves (on_db R) (webhook_List cx).
Proof. unfold webhook_List. pres_go rely. Qed.
Lemma Deliveries_step cx id limit : within cx -> preserves (on_db R) (Deliveries cx id limit).
Proof.
  intros Hin. unfold Deliveries. apply pres_after_load; [exact Hin|]. intros e. pres_go rely.
  apply free_ListByTarget; [exact _ | exact rely].
Qed.
Lemma Delivery_step cx id d : within cx -> preserves (on_db R) (webhook_Delivery cx id d).
Proof.
  intros Hin. unfold webhook_Delivery. apply pres_after_load; [exact Hin|]. intros e. pres_go rely.
  apply free_ByID; [exact _ | exact rely].
Qed.
Lemma Attempts_step cx id d : within cx -> preserves (on_db R) (Attempts cx id d).
Proof. intros Hin. unfold Attempts. apply pres_after_load; [exact Hin|]. intros e. pres_go rely. Qed.

(** *** A delivery *)
Context `{Receivers, UUIDParser, ErrorTexts}.

Lemma TruncateCause_length cause : Z.of_nat (String.length (TruncateCause cause MaxCauseLen)) <= MaxCauseLen.
Proof. apply (truncateCause_length cause). Qed.
Lemma rg_prepareAttempt tc a (P : DB -> Prop) : stable R P ->
  rg R P (prepareAttempt tc a) (fun a' db => P db /\ attempt_ok (stored_attempt a') /\ at_EndpointID a' = at_EndpointID a).
Proof.
  intros Hs. unfold prepareAttempt. do 2 (destruct (negb _); [apply rg_err; exact _|]).
  eapply rg_bind; [exact _ | apply rg_preserves; [exact Hs|]; destruct (N.eqb _ _); [apply pres_NewV7 | apply preserves_ret]; exact _|].
  intros id. eapply rg_bind; [exact _ | apply rg_preserves; [exact Hs|]; destruct (Z.eqb _ _); [apply pres_time_Now | apply preserves_ret]; exact _|].
  intros created. apply rg_ret; [exact _|]. intros db Hdb. split; [exact Hdb|]. split; [|reflexivity].
  split; [apply storableText_spec|]. split; [apply boundHeaders_ok | apply TruncateCause_length].
Qed.
Lemma rg_SaveAttempt cx a :
  rg R (in_reach foreign (at_EndpointID a)) (webhook_SaveAttempt cx a) (fun _ _ => True).
Proof.
  unfold webhook_SaveAttempt. apply rg_write_tx; [exact _ | exact rely | apply in_reach_stable|]. intros tc _.
  eapply rg_bind; [exact _ | apply rg_prepareAttempt, in_reach_stable|]. intros a'.
  intros w (Hr & Hok & He). revert w Hr. fold (rg R (in_reach foreign (at_EndpointID a))
    (let* r := st_try (exec_stmt (attempt_insert (stored_attempt a'))) in
    match r with
    | inl (ESqlite CONSTRAINT_FOREIGNKEY _) => st_err (EWebhook (EndpointNotFoundError (uuid_String (at_EndpointID a'))))
    | inl e => st_err (EWrap "webhook.sqlite.SaveAttempt" e)
    | inr _ => st_ret tt
    end) (fun _ _ => True)).
  rewrite <- He. eapply rg_bind; [exact _ | apply rg_try; [apply in_reach_stable | eapply (rg_exec_stmt R)] |].
  - intros db db' n Hr. apply attempt_insert_step; assumption.
  - intros r. apply rg_free. pres_go rely.
Qed.

(** The deliverer reaches the project of its entry. *)
Definition delivers_within (e : Entry) : Prop := ~ foreign (ob_OrgID e) (ob_ProjectID e).
Lemma deliver_step cx e : delivers_within e -> preserves (on_db R) (deliver cx e).
Proof.
  intros Hin. unfold deliver. destruct (uuid_Parse (ob_Target e)) as [msg|id]; [apply preserves_err; exact _|].
  apply (rg_wf _ (fun _ _ => True)). destruct (From_ cx) as [er|tc] eqn:F.
  { apply rg_free. unfold webhook_store_ByID, read_tx, from_tenant. rewrite F.
    intros w. unfold on_db. cbn. reflexivity. }
  eapply rg_bind; [exact _ | apply rg_try; [exact wf_stable | apply (rg_ByID _ tc), F] |].
  intros [er|ep]; [destruct (IsEndpointNotFound er); [apply rg_ret; [exact _ | auto] | apply rg_err; exact _] |].
  destruct (N.eqb_spec (ep_OrgID ep) (ob_OrgID e)) as [Eo|]; [|apply rg_ret; [exact _ | auto]].
  destruct (N.eqb_spec (ep_ProjectID ep) (ob_ProjectID e)) as [Ep|]; [|apply rg_ret; [exact _ | auto]].
  cbn [negb orb]. cbv zeta. destruct (ep_Active ep); [|apply rg_err; exact _].
  destruct (openSecrets ep) as [er|secrets]; [apply rg_err; exact _|].
  destruct (envelopeType (ob_Payload e)) as [er|t]; [apply rg_err; exact _|]. cbn [negb].
  eapply (rg_conseq R (in_reach foreign (ep_ID ep)) _ _ (fun _ _ => True)).
  2: { intros db (Hw & He & _). assert (Ei : ep_ID ep = id) by apply (proj1 Hw _ _ He). rewrite Ei.
       split; [exact Hw|]. intros x Hx. assert (x = ep) by congruence. subst x. unfold off. rewrite Eo, Ep. exact Hin. }
  2: auto.
  eapply rg_bind; [exact _ | apply rg_stays, pres_time_Now; exact _|]. intros start.
  eapply rg_bind; [exact _ | apply rg_stays|].
  { intros w. unfold on_db. enough (E : W_db (snd (post (ep_URL ep) e t secrets w)) = W_db w) by (rewrite E; reflexivity).
    unfold post. destruct (url_Parse (ep_URL ep)); [reflexivity|]. unfold st_bind; cbn. destruct (receive _ _ _); [reflexivity|].
    destruct (_ || _); reflexivity. }
  intros [rc sendErr]. eapply rg_bind; [exact _ | apply rg_stays, pres_time_Now; exact _|]. intros stop.
  eapply rg_bind; [exact _ | |].
  - unfold saveAttempt. match goal with |- context [webhook_SaveAttempt ?c ?a] => pose proof (rg_SaveAttempt c a) as Ha end.
    eapply rg_bind; [exact _ | apply rg_try; [apply in_reach_stable | exact Ha] |].
    intros r. apply rg_free, preserves_ret. exact _.
  - intros u. destruct sendErr; [apply rg_err; exact _ | apply rg_ret; [exact _ | exact (fun _ _ => I)]].
Qed.
End Operations.
