(* ===== verification/WebhookTheory.v ===== *)
(** * What a delivery does

    A delivery as a plan made of the database and an exchange with the receiver, and
    that the deliverer carries out that plan: what is sent, what is recorded and
    what is answered to the worker. *)
From Stdlib Require Import ZArith Lia String List.
From stdpp Require Import base gmap list strings.
From S2P Require Import Prelude GoStrings Errors Encoding Sealer Tenant Outbox Webhook Sheet World Wp SheetTheory WebhookStore WebhookService WebhookSafety.
Local Open Scope string_scope.
Local Open Scope Z_scope.

(** ** The calculus, with no fault and no other session *)
Section Undisturbed.
Context `{Env}.
Hypothesis quiet_env : quiet.
Hypothesis quiet_sheet : sheet_quiet.
Hypothesis no_faults : faultless.

Lemma swp_driver d s h (Q : Outcome Error unit -> DB -> SheetDB -> list Sent -> Prop) :
  Q (Ok tt) d s h -> swp driver_call d s h Q.
Proof. intros HQ. apply swp_driver_call; [exact HQ | intros Hf; destruct (Hf no_faults)]. Qed.
Lemma swp_exec (stmt : Statement) d s h (Q : Outcome Error nat -> DB -> SheetDB -> list Sent -> Prop) :
  match stmt d with
  | inl (code, msg) => Q (Err (ESqlite code msg)) d s h
  | inr (d', n) => Q (Ok n) d' s h
  end -> swp (exec_stmt stmt) d s h Q.
Proof.
  intros HQ. unfold exec_stmt. apply swp_bind, swp_driver. intros w <- <- <-. unfold st_bind; cbn.
  destruct (stmt (W_db w)) as [[c m]|[d' n]]; exact HQ.
Qed.
Lemma swp_hook_query {A} op (q : DB -> A) d s h (Q : Outcome Error A -> DB -> SheetDB -> list Sent -> Prop) :
  Q (Ok (q d)) d s h -> swp (query op q) d s h Q.
Proof. intros HQ. unfold query. apply swp_bind, swp_maperr, swp_driver. intros w <- <- <-. exact HQ. Qed.
Lemma swp_hook_read {A} pkg cx tc (body : Tenant -> M A) d s h Q :
  From_ cx = inr tc -> swp (body tc) d s h Q -> swp (read_tx pkg cx body) d s h Q.
Proof.
  intros F Hb. unfold read_tx. apply swp_bind, (swp_from_tenant _ tc); [exact F|].
  destruct (cx_tx cx); [exact Hb|]. apply swp_bind, swp_others_quiet; [exact quiet_env | exact quiet_sheet|].
  apply swp_bind, swp_maperr, swp_driver. exact Hb.
Qed.
Lemma swp_write_tx {A} pkg cx tc (body : Tenant -> M A) d s h (Q : Outcome Error A -> DB -> SheetDB -> list Sent -> Prop) :
  From_ cx = inr tc ->
  swp (body tc) d s h (fun o d' s' h' => match o with Ok a => Q (Ok a) d' s' h' | o => Q o d s h' /\ Q o d' s' h' end) ->
  swp (write_tx pkg cx body) d s h Q.
Proof.
  intros F Hb. unfold write_tx. apply swp_bind, (swp_from_tenant _ tc); [exact F|].
  destruct (cx_tx cx).
  - eapply swp_conseq; [exact Hb|]. intros [a|e|p]; tauto.
  - unfold in_tx. apply swp_bind, swp_others_quiet; [exact quiet_env | exact quiet_sheet|].
    apply swp_bind, swp_maperr, swp_driver, swp_or_rollback, swp_bind.
    eapply swp_conseq; [exact Hb|]. intros [a|e|p] d' s' h' HQ; [|exact (proj1 HQ) ..].
    apply swp_bind, swp_maperr, swp_driver, swp_ret, HQ.
Qed.
End Undisturbed.

(** ** The plan of a delivery *)

Inductive Plan :=
| Skip                       (** the endpoint is gone, or another project's *)
| Refuse (e : Error)
| PostTo (ep : Endpoint) (t : EventType) (secrets : list string).

Section Plans.
Context `{Unicode, Sealer, JSONErrors, UUIDParser, URLs, ErrorTexts}.

Definition delivery_plan (d : DB) (tc : Tenant) (e : Entry) : Plan :=
  match uuid_Parse (ob_Target e) with
  | inl msg => Refuse (EWrap "webhook.Deliver: target" (EText msg))
  | inr id =>
    match endpoint_of d tc id with
    | None => Skip
    | Some ep =>
      if N.eqb (ep_OrgID ep) (ob_OrgID e) && N.eqb (ep_ProjectID ep) (ob_ProjectID e)
      then if ep_Active ep
           then match openSecrets ep, envelopeType (ob_Payload e) with
                | inl err, _ => Refuse err
                | inr _, inl err => Refuse (EWrap "webhook.Deliver" err)
                | inr secrets, inr t => PostTo ep t secrets
                end
           else Refuse (EWebhook (EndpointInactiveError (uuid_String (ep_ID ep))))
      else Skip
    end
  end.

(** What an exchange leaves: the receipt, and why it failed; a URL Go cannot parse
    is sent nothing. *)
Definition exchanged (url : string) (r : PostResult) : Receipt * option Error :=
  match url_Parse url, r with
  | inl msg, _ => (no_receipt, Some (EWrap "webhook.Deliver: build request" (EText msg)))
  | inr _, PostFailed msg => (no_receipt, Some (EWrap "webhook.Deliver: post" (EURL (EText msg))))
  | inr _, PostAnswered status body headers =>
    (readReceipt status body headers,
     if (200 <=? status) && (status <=? 299) then None else Some (EWebhook (DeliveryFailedError status)))
  end.
Definition sent_to (url : string) (p : HttpPost) (r : PostResult) (h : list Sent) : list Sent :=
  match url_Parse url with inl _ => h | inr _ => Posted p r :: h end.
(** The attempt a delivery records, before the store bounds it. *)
Definition attempt_of (ep : Endpoint) (e : Entry) (t : EventType) (x : Receipt * option Error) (took : Z)
    (id : uuid) (created : Z) : Attempt :=
  mkAttempt id (ob_OrgID e) (ob_ProjectID e) (ep_ID ep) (ob_ID e) (ob_EventID e) t (ob_Attempt e)
    (rc_status (fst x)) (match snd x with None => "" | Some err => error_text err end) (rc_body (fst x))
    (rc_truncated (fst x)) (rc_headers (fst x)) took created.
(** What the store makes of an attempt: its texts bounded, its duration in whole milliseconds. *)
Definition kept (a : Attempt) : Attempt :=
  stored_attempt (BoundResponse
    (mkAttempt (at_ID a) (at_OrgID a) (at_ProjectID a) (at_EndpointID a) (at_DeliveryID a) (at_EventID a) (at_EventType a)
       (at_Attempt a) (at_StatusCode a) (TruncateCause (at_Error a) MaxCauseLen) (at_ResponseBody a)
       (at_ResponseTruncated a) (at_ResponseHeaders a) (at_Duration a) (at_CreatedAt a))).
Definition recorded (a : Attempt) (d : DB) : DB :=
  match attempt_insert (kept a) d with inr (d', _) => d' | inl _ => d end.
End Plans.

(** ** The deliverer carries out the plan *)
Section Deliver.
Context `{Env, Unicode, URLs, Sealer, JSONErrors, Receivers, UUIDParser, ErrorTexts}.
Hypothesis quiet_env : quiet.
Hypothesis quiet_sheet : sheet_quiet.
Hypothesis no_faults : faultless.

Lemma From_WithProject cx tc p : From_ cx = inr tc -> From_ (WithProject cx p) = inr (mkTenant (OrgID tc) p (UserID tc)).
Proof.
  unfold From_, WithProject, tenant_or_zero. destruct (cx_tenant cx) as [t|]; [|discriminate].
  cbn [Into cx_tenant OrgID]. destruct (N.eqb (OrgID t) uuid_Nil); congruence.
Qed.

Lemma swp_ByID cx tc id d s h (Q : Outcome Error Endpoint -> DB -> SheetDB -> list Sent -> Prop) :
  From_ cx = inr tc ->
  Q (match endpoint_of d tc id with
     | Some e => Ok e
     | None => Err (EWebhook (EndpointNotFoundError (uuid_String id)))
     end) d s h ->
  swp (webhook_store_ByID cx id) d s h Q.
Proof.
  intros F HQ. apply (swp_hook_read quiet_env quiet_sheet no_faults _ _ tc); [exact F|].
  apply swp_bind, swp_hook_query; [exact no_faults|]. destruct (endpoint_of d tc id); [apply swp_ret | apply swp_err]; exact HQ.
Qed.

(** An attempt of the caller's project is recorded, or refused by the table. *)
Lemma swp_saveAttempt cx tc a d s h (Q : Outcome Error unit -> DB -> SheetDB -> list Sent -> Prop) :
  From_ cx = inr tc -> at_OrgID a = OrgID tc -> at_ProjectID a = ProjectID tc ->
  at_ID a = uuid_Nil -> at_CreatedAt a = zero_Time ->
  (forall n m, Q (Ok tt)
     (recorded (mkAttempt (env_uuid n d) (at_OrgID a) (at_ProjectID a) (at_EndpointID a) (at_DeliveryID a) (at_EventID a)
        (at_EventType a) (at_Attempt a) (at_StatusCode a) (at_Error a) (at_ResponseBody a) (at_ResponseTruncated a)
        (at_ResponseHeaders a) (at_Duration a) (env_now m)) d) s h) ->
  swp (saveAttempt cx a) d s h Q.
Proof.
  intros F Ho Hp Hi Hc HQ. unfold saveAttempt. apply swp_bind, swp_try.
  apply (swp_write_tx quiet_env quiet_sheet no_faults _ _ tc); [exact F|].
  unfold prepareAttempt. rewrite Ho, Hp, Hi, Hc, !N.eqb_refl, Z.eqb_refl. cbn [negb].
  apply swp_bind, swp_bind, swp_NewV7. intros n. apply swp_bind, swp_time_Now. intros m. apply swp_ret.
  specialize (HQ n m). rewrite Ho, Hp in HQ. revert HQ. unfold recorded, kept.
  cbn [at_ID at_OrgID at_ProjectID at_EndpointID at_DeliveryID at_EventID at_EventType at_Attempt at_StatusCode
    at_Error at_ResponseBody at_ResponseTruncated at_ResponseHeaders at_Duration at_CreatedAt].
  match goal with |- context [stored_attempt ?x] => generalize (stored_attempt x) end. intros row HQ.
  apply swp_bind, swp_try, (swp_exec no_faults). destruct (attempt_insert row d) as [[c msg]|[d' k]].
  - destruct c; apply swp_err; (split; [apply swp_ret, HQ | apply swp_ret, HQ]).
  - apply swp_ret, swp_ret, HQ.
Qed.

Lemma swp_get_sent {E} d s h (Q : Outcome E (list Sent) -> DB -> SheetDB -> list Sent -> Prop) :
  Q (Ok h) d s h -> swp get_sent d s h Q.
Proof. intros HQ w <- <- <-. exact HQ. Qed.
Lemma swp_send {E} c d s h (Q : Outcome E unit -> DB -> SheetDB -> list Sent -> Prop) :
  Q (Ok tt) d s (c :: h) -> swp (send c) d s h Q.
Proof. intros HQ w <- <- <-. exact HQ. Qed.

Lemma swp_post url e t secrets d s h (Q : Outcome Error (Receipt * option Error) -> DB -> SheetDB -> list Sent -> Prop) :
  (forall n m, let p := delivery_post url e t secrets (env_now n) in
     let r := receive m h p in Q (Ok (exchanged url r)) d s (sent_to url p r h)) ->
  swp (post url e t secrets) d s h Q.
Proof.
  unfold post, exchanged, sent_to. destruct (url_Parse url) as [msg|u].
  - intros HQ. apply swp_ret. exact (HQ O O).
  - intros HQ. apply swp_bind, swp_time_Now. intros n. apply swp_bind, swp_tick. intros m.
    apply swp_bind, swp_get_sent, swp_bind, swp_send. specialize (HQ n m). cbv zeta in HQ.
    destruct (receive m h _) as [msg|status body headers]; [apply swp_ret, HQ|].
    rewrite !Z.ltb_antisym. rewrite <- negb_andb. destruct (_ && _); apply swp_ret, HQ.
Qed.

Lemma IsEndpointNotFound_own id : IsEndpointNotFound (EWebhook (EndpointNotFoundError id)) = true.
Proof. reflexivity. Qed.
Lemma endpoint_of_org d tc id ep : endpoint_of d tc id = Some ep -> db_endpoints d !! id = Some ep /\ ep_OrgID ep = OrgID tc.
Proof.
  unfold endpoint_of. destruct (db_endpoints d !! id) as [e|]; [|discriminate].
  destruct (N.eqb_spec (ep_OrgID e) (OrgID tc)); [|discriminate]. intros [= <-]. auto.
Qed.

(** The delivery of an entry, from any state. *)
Definition delivered (cx : Ctx) (tc : Tenant) (e : Entry) (d : DB) (s : SheetDB) (h : list Sent)
    (o : Outcome Error unit) (d' : DB) (s' : SheetDB) (h' : list Sent) : Prop :=
  s' = s /\
  match delivery_plan d tc e with
  | Skip => o = Ok tt /\ d' = d /\ h' = h
  | Refuse err => o = Err err /\ d' = d /\ h' = h
  | PostTo ep t secrets =>
    exists n m took id created,
      let p := delivery_post (ep_URL ep) e t secrets (env_now n) in
      let r := receive m h p in
      let x := exchanged (ep_URL ep) r in
      o = match snd x with None => Ok tt | Some err => Err err end
      /\ h' = sent_to (ep_URL ep) p r h
      /\ d' = recorded (attempt_of ep e t x took (env_uuid id d) (env_now created)) d
  end.
Lemma swp_deliver cx tc e d s h : From_ cx = inr tc -> swp (deliver cx e) d s h (delivered cx tc e d s h).
Proof.
  intros F. unfold deliver, delivered, delivery_plan. destruct (uuid_Parse (ob_Target e)) as [msg|id]; [apply swp_err; auto|].
  apply swp_bind, swp_try, (swp_ByID _ tc); [exact F|].
  destruct (endpoint_of d tc id) as [ep|] eqn:Eep; [|rewrite IsEndpointNotFound_own; apply swp_ret; auto].
  apply endpoint_of_org in Eep as [_ Ho].
  destruct (N.eqb_spec (ep_OrgID ep) (ob_OrgID e)) as [Eo|]; cbn [negb orb andb]; [|apply swp_ret; auto].
  destruct (N.eqb_spec (ep_ProjectID ep) (ob_ProjectID e)) as [Ep|]; cbn [negb orb andb]; [|apply swp_ret; auto].
  cbv zeta. destruct (ep_Active ep); cbn [negb]; [|apply swp_err; auto].
  destruct (openSecrets ep) as [err|secrets]; [apply swp_err; auto|].
  destruct (envelopeType (ob_Payload e)) as [err|t]; [apply swp_err; auto|].
  apply swp_bind, swp_time_Now. intros n0. apply swp_bind, swp_post. intros n m. cbv zeta.
  destruct (exchanged (ep_URL ep) _) as [rc sendErr] eqn:Ex.
  apply swp_bind, swp_time_Now. intros n1. apply swp_bind.
  apply (swp_saveAttempt _ (mkTenant (OrgID tc) (ob_ProjectID e) (UserID tc))); cbn [at_OrgID at_ProjectID at_ID at_CreatedAt OrgID ProjectID];
    [apply From_WithProject, F | congruence | reflexivity | reflexivity | reflexivity |].
  intros k c. destruct sendErr as [err|]; [apply swp_err | apply swp_ret]; (split; [reflexivity|]);
    exists n, m, (env_now n1 - env_now n0), k, c; rewrite Ex; auto.
Qed.
End Deliver.

(** ** Rotating a secret

    A rotation writes only over the secrets it read, whatever other sessions do; a
    delivery signs with the new secret and the one it replaces until the old one is
    retired. *)
(** ** The calculus under interference, with no fault *)
Section Interfered.
Context `{Env}.
Hypothesis no_faults : faultless.

Lemma wp_driver db (Q : Outcome Error unit -> DB -> Prop) : Q (Ok tt) db -> wp driver_call db Q.
Proof. intros HQ. apply wp_driver_call; [exact HQ | intros Hf; destruct (Hf no_faults)]. Qed.
Lemma wp_read_rely {A} pkg cx tc (body : Tenant -> M A) db Q :
  cx_tx cx = false -> From_ cx = inr tc -> (forall n, wp (body tc) (env_other n db) Q) -> wp (read_tx pkg cx body) db Q.
Proof.
  intros Hx F Hb. unfold read_tx. apply wp_bind, (wp_from_tenant _ tc); [exact F|]. rewrite Hx.
  apply wp_bind, wp_others_rely. intros n. apply wp_bind, wp_maperr, wp_driver, Hb.
Qed.
(** A transaction of its own: what others committed first, then its body's writes, or none. *)
Lemma wp_write_rely {A} pkg cx tc (body : Tenant -> M A) db (Q : Outcome Error A -> DB -> Prop) :
  cx_tx cx = false -> From_ cx = inr tc ->
  (forall n, wp (body tc) (env_other n db) (fun o db' => match o with Ok a => Q (Ok a) db' | o => Q o (env_other n db) end)) ->
  wp (write_tx pkg cx body) db Q.
Proof.
  intros Hx F Hb. unfold write_tx. apply wp_bind, (wp_from_tenant _ tc); [exact F|]. rewrite Hx.
  unfold in_tx. apply wp_bind, wp_others_rely. intros n. apply wp_bind, wp_maperr, wp_driver, wp_or_rollback, wp_bind.
  eapply wp_conseq; [apply Hb|]. intros [a|e|p] db' HQ; [|exact HQ ..].
  apply wp_bind, wp_maperr, wp_driver, wp_ret, HQ.
Qed.
Lemma wp_query_db {A} op (q : DB -> A) db (Q : Outcome Error A -> DB -> Prop) : Q (Ok (q db)) db -> wp (query op q) db Q.
Proof. intros HQ. apply wp_query; [exact HQ | intros Hf; destruct (Hf no_faults)]. Qed.
Lemma wp_exec (stmt : Statement) db (Q : Outcome Error nat -> DB -> Prop) :
  match stmt db with
  | inl (code, msg) => Q (Err (ESqlite code msg)) db
  | inr (db', n) => Q (Ok n) db'
  end -> wp (exec_stmt stmt) db Q.
Proof. intros HQ. apply wp_exec_stmt; [exact HQ | intros Hf; destruct (Hf no_faults)]. Qed.
End Interfered.

(** ** The compare-and-swap of the secrets *)

(** The answer and the tables of [SaveSecrets], over the state its transaction began in. *)
Definition swapped (tc : Tenant) (id : uuid) (expected next : SealedSecrets) (now : Z) (db : DB) : Outcome Error unit * DB :=
  match endpoint_of db tc id with
  | None => (Err (EWebhook (EndpointNotFoundError (uuid_String id))), db)
  | Some e =>
    if same_secrets (ep_Secrets e) expected
    then (Ok tt, set_endpoints (<[id := set_secrets now (mkSecrets (sx_Primary next) (sqliteSecondary (sx_Secondary next))) e]>
                   (db_endpoints db)) db)
    else (Err (EWebhook (SecretConflictError (uuid_String id))), db)
  end.

Section Rotation.
Context `{Env, Unicode, URLs, Sealer, !SealerLaws, SecretBytes, !ProjectSlugs, JSONErrors}.
Hypothesis no_faults : faultless.
(** Others keep the endpoints under their ids. *)
Definition endpoints_keyed (db : DB) : Prop := forall id e, db_endpoints db !! id = Some e -> ep_ID e = id.
Hypothesis rely : forall n db, endpoints_keyed db -> endpoints_keyed (env_other n db).

Lemma SaveSecrets_wp cx tc id expected next db (Q : Outcome Error unit -> DB -> Prop) :
  cx_tx cx = false -> From_ cx = inr tc ->
  (forall n k, Q (fst (swapped tc id expected next (env_now k) (env_other n db)))
                 (snd (swapped tc id expected next (env_now k) (env_other n db)))) ->
  wp (webhook_SaveSecrets cx id expected next) db Q.
Proof.
  intros Hx F HQ. unfold webhook_SaveSecrets. apply (wp_write_rely no_faults _ _ tc); [exact Hx | exact F|]. intros n.
  apply wp_bind, wp_time_Now. intros k. specialize (HQ n k). revert HQ. generalize (env_other n db). intros d HQ.
  apply wp_bind, wp_maperr, (wp_exec no_faults). unfold secrets_update, swapped in *.
  destruct (endpoint_of d tc id) as [e|] eqn:E; [destruct (same_secrets _ _) eqn:Es|].
  - apply wp_ret, HQ.
  - cbn [Nat.ltb Nat.leb]. apply wp_bind, (wp_query_db no_faults). rewrite E. apply wp_err, HQ.
  - cbn [Nat.ltb Nat.leb]. apply wp_bind, (wp_query_db no_faults). rewrite E. apply wp_err, HQ.
Qed.

Lemma load_wp cx tc method id db (Q : Outcome Error Endpoint -> DB -> Prop) :
  cx_tx cx = false -> From_ cx = inr tc ->
  (forall n, match endpoint_of (env_other n db) tc id with
             | Some e => if N.eqb (ep_ProjectID e) (ProjectID tc) then Q (Ok e) (env_other n db)
                         else forall x, Q (Err x) (env_other n db)
             | None => forall x, Q (Err x) (env_other n db)
             end) ->
  wp (webhook_load cx method id) db Q.
Proof.
  intros Hx F HQ. unfold webhook_load. apply wp_bind, (wp_from_tenant _ tc); [exact F|].
  apply wp_bind, wp_try. unfold webhook_store_ByID. apply (wp_read_rely no_faults _ _ tc); [exact Hx | exact F|].
  intros n. specialize (HQ n). apply wp_bind, (wp_query_db no_faults).
  destruct (endpoint_of (env_other n db) tc id) as [e|] eqn:E; [|apply wp_err; rewrite IsEndpointNotFound_own; apply wp_err, HQ].
  apply wp_ret. apply endpoint_of_org in E as [_ Eo]. rewrite Eo, N.eqb_refl. cbn [negb orb].
  destruct (N.eqb (ep_ProjectID e) (ProjectID tc)); [apply wp_ret, HQ | apply wp_err, HQ].
Qed.
Lemma newSecret_wp method db (Q : Outcome Error string -> DB -> Prop) :
  (forall x, Q (Err x) db) -> (forall s, Q (Ok s) db) -> wp (newSecret method) db Q.
Proof.
  intros He Hs. unfold newSecret. apply wp_bind, wp_tick. intros n. destruct (rand_bytes n); [apply wp_err, He | apply wp_ret, Hs].
Qed.
Lemma seal_secret_wp msg id slot secret db (Q : Outcome Error string -> DB -> Prop) :
  (forall x, Q (Err x) db) ->
  (forall sealed, openSecret id slot sealed = inr secret -> sealed <> "" -> Q (Ok sealed) db) -> wp (seal_secret msg id slot secret) db Q.
Proof.
  intros He Hs. unfold seal_secret. apply wp_bind, wp_tick. intros n. unfold sealSecret.
  destruct (Seal n secret (secretAAD id slot)) as [x|sealed] eqn:E.
  - unfold sealFailure. destruct (IsUnavailable _); apply wp_err, He.
  - apply wp_ret, Hs; [|eapply Seal_nonempty, E]. unfold openSecret. rewrite (Open_Seal _ _ _ _ E). reflexivity.
Qed.

(** The secret a rotation replaces, when it still opens. *)
Definition replaced (e : Endpoint) : list string :=
  match openSecret (ep_ID e) slotPrimary (sx_Primary (ep_Secrets e)) with inr old => [old] | inl _ => [] end.
(** What a rotation leaves when it succeeds: over the very secrets it read, sealed
    secrets that open to the new one and the one it replaces. *)
Definition rotated (tc : Tenant) (id : uuid) (secret : string) (d d1 d' : DB) : Prop :=
  exists e e1 next now, endpoint_of d tc id = Some e /\ ep_ProjectID e = ProjectID tc
    /\ endpoint_of d1 tc id = Some e1 /\ same_secrets (ep_Secrets e1) (ep_Secrets e) = true
    /\ d' = set_endpoints (<[id := set_secrets now next e1]> (db_endpoints d1)) d1
    /\ openSecrets (set_secrets now next e1) = inr (secret :: replaced e).

Lemma openSecrets_one now primary e secret :
  openSecret (ep_ID e) slotPrimary primary = inr secret ->
  openSecrets (set_secrets now (mkSecrets primary None) e) = inr [secret].
Proof. intros E. unfold openSecrets. cbn. rewrite E. reflexivity. Qed.
Lemma openSecrets_two now primary secondary e secret old :
  openSecret (ep_ID e) slotPrimary primary = inr secret -> openSecret (ep_ID e) slotSecondary secondary = inr old -> secondary <> "" ->
  openSecrets (set_secrets now (mkSecrets primary (sqliteSecondary (Some secondary))) e) = inr [secret; old].
Proof.
  intros E1 E2 Hn. unfold openSecrets. destruct secondary as [|c s]; [congruence|]. cbn [sqliteSecondary set_secrets ep_ID ep_Secrets sx_Primary sx_Secondary].
  rewrite E1, E2. reflexivity.
Qed.

Lemma Rotate_wp cx tc id db :
  cx_tx cx = false -> From_ cx = inr tc -> endpoints_keyed db ->
  wp (Rotate cx id) db (fun o d' => exists n, let d := env_other n db in
    match o with
    | Ok secret => exists k, rotated tc id secret d (env_other k d) d'
    | _ => d' = d \/ exists k, d' = env_other k d
    end).
Proof.
  intros Hx F Hk. unfold Rotate. apply wp_bind, (load_wp _ tc); [exact Hx | exact F|]. intros n.
  destruct (endpoint_of (env_other n db) tc id) as [e|] eqn:E; [|intros x; exists n; auto].
  destruct (N.eqb_spec (ep_ProjectID e) (ProjectID tc)) as [Ep|]; [|intros x; exists n; auto].
  assert (Hi : ep_ID e = id) by (apply endpoint_of_org in E as [E _]; exact (rely n db Hk _ _ E)).
  assert (Hk1 : endpoints_keyed (env_other n db)) by apply rely, Hk.
  apply wp_bind, newSecret_wp; [intros x; exists n; auto|]. intros secret.
  apply wp_bind, seal_secret_wp; [intros x; exists n; auto|]. intros primary Hprim Hpn.
  assert (Hsave : forall secondary, (forall now e1, ep_ID e1 = id ->
       openSecrets (set_secrets now (mkSecrets primary (sqliteSecondary secondary)) e1) = inr (secret :: replaced e)) ->
    wp (let* _ := saveSecrets cx "webhook.Rotate" e (mkSecrets primary secondary) in st_ret secret) (env_other n db)
      (fun o d' => exists n, let d := env_other n db in
        match o with
        | Ok secret => exists k, rotated tc id secret d (env_other k d) d'
        | _ => d' = d \/ exists k, d' = env_other k d
        end)).
  { intros secondary Hopen. apply wp_bind. unfold saveSecrets. rewrite Hi.
    apply wp_bind, wp_try, (SaveSecrets_wp _ tc); [exact Hx | exact F|]. intros k j. unfold swapped.
    destruct (endpoint_of (env_other k (env_other n db)) tc id) as [e1|] eqn:E1; [destruct (same_secrets _ _) eqn:Es|]; cbn [fst snd].
    - apply wp_bind, wp_time_Now. intros i. apply wp_ret, wp_ret. exists n, k, e, e1. eexists _, _.
      split; [exact E|]. split; [exact Ep|]. split; [exact E1|]. split; [exact Es|]. split; [reflexivity|]. apply Hopen.
      apply endpoint_of_org in E1 as [E1 _]. exact (rely k _ Hk1 _ _ E1).
    - apply wp_err. exists n. right. exists k. reflexivity.
    - apply wp_err. exists n. right. exists k. reflexivity. }
  apply wp_bind. destruct (openSecret (ep_ID e) slotPrimary (sx_Primary (ep_Secrets e))) as [er|old] eqn:Eold.
  - apply wp_ret, Hsave. intros now e1 He1. unfold replaced. rewrite Eold. apply openSecrets_one. rewrite He1, <- Hi. exact Hprim.
  - apply wp_bind, seal_secret_wp; [intros x; exists n; auto|]. intros secondary Hsec Hsn.
    apply wp_ret, Hsave. intros now e1 He1. unfold replaced. rewrite Eold.
    apply openSecrets_two; [rewrite He1, <- Hi; exact Hprim | rewrite He1, <- Hi; exact Hsec | exact Hsn].
Qed.

(** What a retirement leaves: the secrets it read, less the secondary. *)
Definition retired (tc : Tenant) (id : uuid) (d d1 d' : DB) : Prop :=
  exists e e1 now, endpoint_of d tc id = Some e /\ sx_Secondary (ep_Secrets e) <> None
    /\ endpoint_of d1 tc id = Some e1 /\ same_secrets (ep_Secrets e1) (ep_Secrets e) = true
    /\ d' = set_endpoints (<[id := set_secrets now (mkSecrets (sx_Primary (ep_Secrets e1)) None) e1]> (db_endpoints d1)) d1
    /\ openSecrets (set_secrets now (mkSecrets (sx_Primary (ep_Secrets e1)) None) e1)
       = match openSecret (ep_ID e1) slotPrimary (sx_Primary (ep_Secrets e1)) with
         | inr primary => inr [primary]
         | inl err => inl (ESecretUnavailable err)
         end.
Lemma Retire_wp cx tc id db :
  cx_tx cx = false -> From_ cx = inr tc -> endpoints_keyed db ->
  wp (RetireSecondary cx id) db (fun o d' => exists n, let d := env_other n db in
    match o with
    | Ok _ => (exists e, endpoint_of d tc id = Some e /\ sx_Secondary (ep_Secrets e) = None /\ d' = d)
              \/ exists k, retired tc id d (env_other k d) d'
    | _ => d' = d \/ exists k, d' = env_other k d
    end).
Proof.
  intros Hx F Hk. unfold RetireSecondary. apply wp_bind, (load_wp _ tc); [exact Hx | exact F|]. intros n.
  destruct (endpoint_of (env_other n db) tc id) as [e|] eqn:E; [|intros x; exists n; auto].
  destruct (N.eqb_spec (ep_ProjectID e) (ProjectID tc)) as [Ep|]; [|intros x; exists n; auto].
  assert (Hi : ep_ID e = id) by (apply endpoint_of_org in E as [E _]; exact (rely n db Hk _ _ E)).
  destruct (sx_Secondary (ep_Secrets e)) as [sec|] eqn:Esec; [|apply wp_ret; exists n; left; eauto].
  apply wp_bind. unfold saveSecrets. rewrite Hi.
  apply wp_bind, wp_try, (SaveSecrets_wp _ tc); [exact Hx | exact F|]. intros k j. unfold swapped.
  destruct (endpoint_of (env_other k (env_other n db)) tc id) as [e1|] eqn:E1; [destruct (same_secrets _ _) eqn:Es|]; cbn [fst snd].
  - apply wp_bind, wp_time_Now. intros i. apply wp_ret, wp_ret. exists n. right. exists k, e, e1, (env_now j).
    assert (Eprim : sx_Primary (ep_Secrets e1) = sx_Primary (ep_Secrets e)).
    { unfold same_secrets in Es. apply andb_true_iff in Es as [Es _]. apply String.eqb_eq, Es. }
    split; [exact E|]. split; [congruence|]. split; [exact E1|]. split; [exact Es|]. rewrite Eprim.
    split; [reflexivity|]. unfold openSecrets. cbn. destruct (openSecret _ _ _); reflexivity.
  - apply wp_err. exists n. right. exists k. reflexivity.
  - apply wp_err. exists n. right. exists k. reflexivity.
Qed.
End Rotation.
