(* ===== verification/WebhookQueue.v ===== *)
(** * Queueing an event

    An event enqueued inside a unit of work leaves one pending entry per endpoint it
    goes to and nothing else, and each of them is planned as a post to its endpoint. *)
From Stdlib Require Import ZArith Lia String List.
From stdpp Require Import base gmap list strings.
From S2P Require Import Prelude GoStrings Errors Sealer Tenant Outbox Webhook Sheet World Wp OutboxStore OutboxTheory OutboxDrain OutboxProps PeriodService SheetTheory SheetRun WebhookStore WebhookService.
From S2P Require Import WebhookSafety WebhookTheory.
Local Open Scope string_scope.
Local Open Scope Z_scope.

(** The row of an event's entry for one endpoint. *)
Definition queued_row (o p eventID : uuid) (body : string) (id : uuid) (e : Endpoint) (now : Z) : OutboxRow :=
  mkOutboxRow (mkEntry id eventID o p (uuid_String (ep_ID e)) body 0 now StatusPending "" now) None.

(** The rows of the entries, one after the other. *)
Inductive queues (o p eventID : uuid) (body : string) : list Endpoint -> list uuid -> DB -> DB -> Prop :=
| queues_nil db : queues o p eventID body [] [] db db
| queues_cons e es id ids now db db' :
    db_outbox db !! id = None ->
    queues o p eventID body es ids
      (set_outbox (<[id := queued_row o p eventID body id e now]> (db_outbox db)) db) db' ->
    queues o p eventID body (e :: es) (id :: ids) db db'.

Lemma set_outbox_twice m m' db : set_outbox m (set_outbox m' db) = set_outbox m db.
Proof. reflexivity. Qed.

(** What the rows of an event leave: each at a new id, every other row as it was. *)
Definition only_adds (o p eventID : uuid) (body : string) (es : list Endpoint) (ids : list uuid) (db db' : DB) : Prop :=
  db' = set_outbox (db_outbox db') db
  /\ NoDup ids /\ (forall id, id ∈ ids -> db_outbox db !! id = None)
  /\ (forall id, id ∉ ids -> db_outbox db' !! id = db_outbox db !! id)
  /\ Forall2 (fun id e => exists now, db_outbox db' !! id = Some (queued_row o p eventID body id e now)) ids es.
Lemma queues_adds o p eventID body es ids db db' :
  queues o p eventID body es ids db db' -> only_adds o p eventID body es ids db db'.
Proof.
  induction 1 as [db|e es id ids now db db' Hid Hq (Hdb & Hn & Hnew & Hold & Hrows)].
  - split; [destruct db; reflexivity|]. split; [constructor|]. split; [intros id Hi; destruct (not_elem_of_nil _ Hi)|].
    split; [reflexivity | constructor].
  - cbn [set_outbox db_outbox] in *.
    assert (Hni : id ∉ ids). { intros Hi. specialize (Hnew _ Hi). rewrite lookup_insert_eq in Hnew. discriminate. }
    split; [rewrite set_outbox_twice in Hdb; exact Hdb|]. split; [constructor; assumption|]. split; [|split].
    + intros i [->|Hi]%elem_of_cons; [exact Hid|]. specialize (Hnew _ Hi). rewrite lookup_insert_None in Hnew. apply Hnew.
    + intros i Hi. apply not_elem_of_cons in Hi as [Hne Hi]. rewrite (Hold _ Hi). apply lookup_insert_ne. congruence.
    + constructor; [|exact Hrows]. exists now. rewrite (Hold _ Hni). apply lookup_insert_eq.
Qed.

Section Queue.
Context `{Env, Unicode, URLs, Sealer, !ProjectSlugs, !ProjectSlugsLaws, JSONErrors}.

(** [NewV7] draws no id the outbox knows, as an entry or as an event. *)
Definition fresh_entries : Prop := forall n db,
  db_outbox db !! env_uuid n db = None /\ forall r, In r (rows (db_outbox db)) -> ob_EventID (or_entry r) <> env_uuid n db.
Hypothesis fresh : fresh_entries.

Lemma runs_ret {A B} (a : A) (k : A -> M B) Q : runs Q (k a) -> runs Q (st_bind (st_ret a) k).
Proof. intros Hk. exact Hk. Qed.
Lemma runs_exec_stmt (stmt : Statement) : runs (fun n db db' => stmt db = inr (db', n)) (exec_stmt stmt).
Proof.
  intros w n. unfold exec_stmt, st_bind. pose proof (driver_call_same w) as Hs.
  destruct (driver_call w) as [[[]|er|pn] w1]; [|discriminate ..]. cbn [snd] in Hs. cbn. rewrite Hs.
  destruct (stmt (W_db w)) as [[c m]|[db' k]]; [discriminate|]. cbn. congruence.
Qed.
(** An entry whose key no row has is inserted, or refused by the foreign keys. *)
Lemma runs_Enqueue cx tc id eventID body e :
  cx_tx cx = true -> From_ cx = inr tc ->
  runs (fun _ db db' =>
      db_outbox db !! id = None ->
      (forall r, In r (rows (db_outbox db)) -> ob_EventID (or_entry r) = eventID -> row_target r <> uuid_String (ep_ID e)) ->
      exists now, db' = set_outbox (<[id := queued_row (OrgID tc) (ProjectID tc) eventID body id e now]> (db_outbox db)) db)
    (outbox_Enqueue cx (mkEntry id eventID (OrgID tc) (ProjectID tc) (uuid_String (ep_ID e)) body 0 zero_Time "" "" zero_Time)).
Proof.
  intros Hx F. unfold outbox_Enqueue. destruct (Entry_validate _); [intros w a Ha; discriminate|].
  unfold from_tenant. rewrite F. apply runs_ret. cbn [ob_OrgID ob_ProjectID ob_NextAttemptAt]. rewrite !N.eqb_refl. cbn [negb].
  change (zero_Time =? zero_Time) with true. cbv iota.
  eapply runs_read_bind; [apply (reads_of _ _ _ (reads_time_Now (fun _ _ => True)))|]. intros now _. cbv zeta.
  eapply (runs_bind _ _ _ (fun _ _ db db' => db' = db));
    [unfold on_conn; rewrite Hx; apply runs_maperr, runs_exec_stmt | intros n _ w u _; reflexivity |].
  intros n u db db1 db2 Hs -> _ Hid Hk. revert Hs. unfold outbox_insert. cbn [or_entry ob_ID ob_EventID ob_OrgID ob_ProjectID ob_Target ob_Payload].
  assert (Hno : existsb (fun r => same_key (or_entry r) (mkEntry id eventID (OrgID tc) (ProjectID tc) (uuid_String (ep_ID e)) body 0
      now StatusPending "" now)) (rows (db_outbox db)) = false).
  { apply not_true_iff_false. rewrite existsb_exists. intros (r & Hr & Hkey). unfold same_key in Hkey.
    rewrite !andb_true_iff, !N.eqb_eq, String.eqb_eq in Hkey. destruct Hkey as [[_ Hev] Htg]. exact (Hk r Hr Hev Htg). }
  rewrite Hno, Hid. destruct (_ && _); [|discriminate]. intros [= <- _]. eexists. reflexivity.
Qed.

Lemma rows_after db id r x : db_outbox db !! id = None -> In x (rows (<[id := r]> (db_outbox db))) -> x = r \/ In x (rows (db_outbox db)).
Proof. intros Hid Hx. apply (Permutation_in _ (rows_insert _ _ r Hid)) in Hx as [->|Hx]; auto. Qed.

Definition target_of (e : Endpoint) : string := uuid_String (ep_ID e).
Lemma runs_enqueue_all cx tc eventID body es :
  cx_tx cx = true -> From_ cx = inr tc -> List.NoDup (map target_of es) ->
  runs (fun _ db db' =>
      (forall r, In r (rows (db_outbox db)) -> ob_EventID (or_entry r) = eventID -> ~ In (row_target r) (map target_of es)) ->
      exists ids, queues (OrgID tc) (ProjectID tc) eventID body es ids db db')
    (enqueue_all cx (OrgID tc) (ProjectID tc) eventID body es).
Proof.
  intros Hx F. induction es as [|e es IH]; intros Hn.
  { intros w u _ _. exists []. constructor. }
  inversion Hn as [|? ? Hni Hn']; subst. cbn [enqueue_all].
  eapply (runs_bind _ _ (fun id db db' => db' = db /\ db_outbox db !! id = None)).
  { intros w id [= <-]. split; [reflexivity|]. apply (proj1 (fresh _ _)). }
  2: { intros id u db db1 db2 [-> Hid] HQ. exact (HQ Hid). }
  intros id _. eapply (runs_bind _ _ _ (fun _ _ db db' => _)); [apply runs_maperr, (runs_Enqueue _ tc); assumption | |].
  { intros u _. apply IH, Hn'. }
  intros u u' db db1 db2 Hi Hrest Hid Hfree.
  destruct Hi as [now ->]; [exact Hid | intros r Hr He Ht; apply (Hfree r Hr He); left; symmetry; exact Ht|].
  destruct Hrest as [ids Hq]; [|exists (id :: ids); econstructor; eassumption].
  cbn [set_outbox db_outbox]. intros r Hr He Hin. apply rows_after in Hr as [->|Hr]; [exact (Hni Hin) | | exact Hid].
  exact (Hfree r Hr He (or_intror Hin)).
Qed.

(** The envelope of an event, whatever the slug it carries. *)
Definition event_envelope (tc : Tenant) (spec : Spec) (data : EventData) (eventID : uuid) (now : Z) (slug : string) : Envelope :=
  mkEnvelope (eventIDPrefix ++ uuid_String eventID) (sp_Type spec) (APIVersion spec) (now - now mod Second)
    (OrgID tc) (ProjectID tc) slug data.
Definition fans_out (tc : Tenant) (spec : Spec) (data : EventData) (es : list Endpoint) (db db' : DB) : Prop :=
  exists slug eventID now body ids,
    marshal_envelope (event_envelope tc spec data eventID now slug) = Some body
    /\ only_adds (OrgID tc) (ProjectID tc) eventID body es ids db db'.
Lemma runs_fanOut cx tc spec data es :
  cx_tx cx = true -> From_ cx = inr tc -> List.NoDup (map target_of es) ->
  runs (fun _ => fans_out tc spec data es) (fanOut cx (OrgID tc) (ProjectID tc) spec data es).
Proof.
  intros Hx F Hn. unfold fanOut.
  eapply runs_read_bind; [apply reads_any_maperr, (SlugOf_in_tx _ _ Hx)|]. intros slug _.
  eapply (runs_read_bind _ _ (fun id db => forall r, In r (rows (db_outbox db)) -> ob_EventID (or_entry r) <> id)).
  { intros w. split; [reflexivity | exact (proj2 (fresh (W_step w) (W_db w)))]. }
  intros eventID _. eapply runs_read_bind; [apply (reads_of _ _ _ (reads_time_Now (fun _ _ => True)))|]. intros now _.
  fold (event_envelope tc spec data eventID now slug).
  destruct (marshal_envelope _) as [body|] eqn:Eb; [|intros w u Hu; discriminate].
  eapply runs_conseq; [apply (runs_enqueue_all _ tc); assumption|]. intros u db db' Hq _ Hev _.
  destruct Hq as [ids Hq]; [intros r Hr He; destruct (Hev r Hr He)|]. apply queues_adds in Hq.
  exists slug, eventID, now, body, ids. auto.
Qed.

Lemma runs_webhook_Enqueue cx tc t data :
  cx_tx cx = true -> From_ cx = inr tc ->
  runs (fun _ db db' => let es := event_targets t (endpoints_of db tc (OrgID tc) (ProjectID tc)) in
      List.NoDup (map target_of es) ->
      exists spec, Lookup t = Some spec /\ CheckPayload t data = None
        /\ (es = [] /\ db' = db \/ fans_out tc spec data es db db'))
    (webhook_Enqueue cx t data).
Proof.
  intros Hx F. unfold webhook_Enqueue. rewrite Hx. cbn [negb].
  destruct (Lookup t) as [spec|]; [|intros w u Hu; discriminate].
  destruct (CheckPayload t data); [intros w u Hu; discriminate|].
  unfold from_tenant. rewrite F. apply runs_ret.
  eapply (runs_read_bind _ _ (fun l db => l = endpoints_of db tc (OrgID tc) (ProjectID tc))).
  { assert (Hr : reads_e (fun l db => l = endpoints_of db tc (OrgID tc) (ProjectID tc)) (fun _ _ => True)
      (webhook_store_List cx (OrgID tc) (ProjectID tc))).
    { unfold webhook_store_List. apply reads_read_tx; [left; exact Hx | auto|]. intros tc' F'. rewrite F in F'. injection F' as <-.
      apply (reads_of _ _ _ (reads_query _ _)). }
    exact (reads_of _ _ _ (reads_maperr _ _ _ _ Hr)). }
  intros l _. destruct (event_targets t l) as [|e es] eqn:Et.
  - intros w u Hu. injection Hu as <-. intros ->. rewrite Et. intros _. exists spec. auto.
  - destruct (decide (NoDup (map target_of (e :: es)))) as [Hn|Hn].
    + eapply runs_conseq; [apply runs_maperr, runs_fanOut; [exact Hx | exact F | apply NoDup_ListNoDup, Hn]|].
      intros u db db' Hq ->. rewrite Et. intros _. exists spec. auto.
    + intros w u _ ->. rewrite Et. intros Hn'. destruct Hn. apply NoDup_ListNoDup, Hn'.
Qed.
End Queue.

(** ** The targets of one project are distinct *)

Lemma endpoints_of_NoDup db tc o p :
  (forall id e, db_endpoints db !! id = Some e -> ep_ID e = id) -> NoDup (map ep_ID (endpoints_of db tc o p)).
Proof.
  intros Hk. unfold endpoints_of. rewrite (sort_by_perm _ _). 
  assert (Hr : NoDup (map ep_ID (rows (db_endpoints db)))).
  { unfold rows. rewrite map_map.
    replace (map (fun x => ep_ID (snd x)) (map_to_list (db_endpoints db))) with (map fst (map_to_list (db_endpoints db))).
    - apply (NoDup_fst_map_to_list (db_endpoints db)).
    - apply map_ext_in. intros [i e] Hi. cbn. symmetry. apply Hk, elem_of_map_to_list, list_elem_of_In, Hi. }
  revert Hr. generalize (rows (db_endpoints db)). intros l. induction l as [|e l IH]; cbn; [auto|].
  intros [Hni Hn]%NoDup_cons. destruct (_ && _); [|auto]. cbn. apply NoDup_cons. split; [|auto].
  intros Hin. apply Hni. apply list_elem_of_In, in_map_iff in Hin as (x & Ex & Hx%List.filter_In).
  apply list_elem_of_In, in_map_iff. exists x. tauto.
Qed.
Lemma endpoints_of_In db tc o p e : In e (endpoints_of db tc o p) ->
  exists id, db_endpoints db !! id = Some e /\ ep_OrgID e = o /\ ep_OrgID e = OrgID tc /\ ep_ProjectID e = p.
Proof.
  unfold endpoints_of. rewrite In_sort_by, List.filter_In, !andb_true_iff, !N.eqb_eq, rows_In. intros ((id & Hid) & [? ?] & ?). eauto.
Qed.
Lemma event_targets_NoDup db tc o p t :
  (forall id e, db_endpoints db !! id = Some e -> ep_ID e = id /\ (id < 2 ^ 128)%N) ->
  List.NoDup (map target_of (event_targets t (endpoints_of db tc o p))).
Proof.
  intros Hk. assert (Hn : NoDup (map ep_ID (endpoints_of db tc o p))) by (apply endpoints_of_NoDup; intros i e Hi; apply (Hk i e Hi)).
  assert (Hin : forall e, In e (endpoints_of db tc o p) -> (ep_ID e < 2 ^ 128)%N).
  { intros e He. apply endpoints_of_In in He as (id & He & _). destruct (Hk _ _ He) as [-> Hlt]. exact Hlt. }
  clear Hk. revert Hn Hin. generalize (endpoints_of db tc o p). generalize (2 ^ 128)%N (uuid_String_inj). intros B Hinj l.
  unfold event_targets. induction l as [|e l IH]; cbn [map List.filter]; [constructor|].
  intros [Hni Hn]%NoDup_cons Hin. assert (Hin' : forall x, In x l -> (ep_ID x < B)%N) by (intros x Hx; apply Hin; right; exact Hx).
  destruct (_ && _); [|apply IH; assumption]. cbn [map]. constructor; [|apply IH; assumption].
  intros H. apply in_map_iff in H as (x & Ex & Hx%List.filter_In). destruct Hx as [Hx _]. apply Hni.
  unfold target_of in Ex. apply (Hinj (ep_ID x) (ep_ID e)) in Ex; [|apply Hin', Hx | apply Hin; left; reflexivity]. rewrite <- Ex. apply list_elem_of_In, in_map, Hx.
Qed.
(** What the endpoints an event goes to are. *)
Lemma event_target_facts db tc o p t e :
  (forall id e, db_endpoints db !! id = Some e -> ep_ID e = id /\ (id < 2 ^ 128)%N) ->
  In e (event_targets t (endpoints_of db tc o p)) ->
  db_endpoints db !! ep_ID e = Some e /\ (ep_ID e < 2 ^ 128)%N /\ ep_OrgID e = o /\ ep_ProjectID e = p /\ ep_Active e = true.
Proof.
  intros Hk Hin. apply List.filter_In in Hin as [Hin Ha]. apply andb_true_iff in Ha as [Ha _].
  apply endpoints_of_In in Hin as (i & Hi & Eo & _ & Ep). destruct (Hk _ _ Hi) as [-> Hlt]. auto.
Qed.

(** ** Webhooks through the outbox

    The deliverer as the outbox's port: it returns, leaves the outbox and the
    endpoints alone, and accepts what its receiver welcomes. So the queued entries of
    an event are settled. *)
(** ** The catalog *)

Lemma Lookup_type t spec : Lookup t = Some spec -> sp_Type spec = t /\ ValidString t = true /\ t <> "".
Proof.
  unfold Lookup. intros Hf. apply find_some in Hf as [Hin E]. apply String.eqb_eq in E. subst t. split; [reflexivity|].
  cbn in Hin. repeat destruct Hin as [<-|Hin]; [split; [vm_compute; reflexivity | discriminate] ..|destruct Hin].
Qed.
(** The version of a post is a Go [int]. *)
Definition version_ok (d : EventData) : Prop :=
  match d with PostPublishedV1 s | PostUnpublishedV1 s => in_int64 (ps_Version s) | _ => True end.
Lemma CheckPayload_ok t d : CheckPayload t d = None -> version_ok d -> payload_ok d.
Proof.
  unfold CheckPayload. destruct d; cbn [payload_ok version_ok]; auto.
  repeat (match goal with |- context [if ?b then _ else _] => destruct b end; try discriminate).
Qed.

Section Drain.
Context `{Env, Sweeping, Unicode, URLs, Sealer, JSONErrors, Receivers, UUIDParser, ErrorTexts}.

(** *** Plans *)

Lemma plan_identity d tc e : delivery_plan d tc (identity (mkOutboxRow e None)) = delivery_plan d tc e.
Proof. reflexivity. Qed.
Lemma plan_endpoints d d' tc e : db_endpoints d' = db_endpoints d -> delivery_plan d' tc e = delivery_plan d tc e.
Proof. intros E. unfold delivery_plan, endpoint_of. rewrite E. reflexivity. Qed.

(** The entry needs no post, or its endpoint is active, its secrets open and its
    receiver answers every post of it with success. *)
Definition welcomed (d : DB) (tc : Tenant) (x : Entry) : Prop :=
  match delivery_plan d tc x with
  | Skip => True
  | Refuse _ => False
  | PostTo ep t secrets =>
    (exists u, url_Parse (ep_URL ep) = inr u)
    /\ forall n h now, exists status body headers,
         receive n h (delivery_post (ep_URL ep) x t secrets now) = PostAnswered status body headers /\ 200 <= status <= 299
  end.

(** The envelope of an event reads back as its type. *)
Lemma event_type_reads tc t spec data eventID now slug body :
  Lookup t = Some spec -> payload_ok data ->
  marshal_envelope (event_envelope tc spec data eventID now slug) = Some body -> envelopeType body = inr t.
Proof.
  intros Hl Hd Hm. destruct (Lookup_type _ _ Hl) as (<- & Hv & Hne).
  exact (envelope_type_read (event_envelope tc spec data eventID now slug) body Hd Hv Hne Hm).
Qed.
(** The plan of a queued entry is a post to its endpoint. *)
Lemma queued_plan `{!UUIDParserLaws} d tc tc' t spec data eventID now slug body id ep due :
  OrgID tc' = OrgID tc -> db_endpoints d !! ep_ID ep = Some ep -> (ep_ID ep < 2 ^ 128)%N ->
  ep_OrgID ep = OrgID tc -> ep_ProjectID ep = ProjectID tc -> ep_Active ep = true ->
  Lookup t = Some spec -> payload_ok data ->
  marshal_envelope (event_envelope tc spec data eventID now slug) = Some body ->
  delivery_plan d tc' (or_entry (queued_row (OrgID tc) (ProjectID tc) eventID body id ep due))
  = match openSecrets ep with inl err => Refuse err | inr secrets => PostTo ep t secrets end.
Proof.
  intros Ho He Hlt Eo Ep Ha Hl Hd Hm.
  unfold delivery_plan, queued_row. cbn [or_entry ob_Target ob_OrgID ob_ProjectID ob_Payload].
  assert (Ee : endpoint_of d tc' (ep_ID ep) = Some ep) by (unfold endpoint_of; rewrite He, Eo, Ho, N.eqb_refl; reflexivity).
  rewrite (uuid_Parse_String _ Hlt), Ee, Eo, Ep, !N.eqb_refl, Ha. cbn [andb].
  rewrite (event_type_reads tc t spec data eventID now slug body Hl Hd Hm).
  destruct (openSecrets ep); reflexivity.
Qed.

(** *** The port's laws *)
Hypothesis quiet_env : quiet.
Hypothesis quiet_sheet : sheet_quiet.
Hypothesis no_faults : faultless.

Lemma recorded_same a d : db_outbox (recorded a d) = db_outbox d /\ db_endpoints (recorded a d) = db_endpoints d.
Proof.
  unfold recorded, attempt_insert. destruct (db_attempts d !! _); [auto|]. destruct (_ && _); auto.
Qed.
Lemma deliver_unscoped cx e er w : From_ cx = inl er ->
  W_db (snd (deliver cx e w)) = W_db w /\ exists x, fst (deliver cx e w) = Err x.
Proof.
  intros F. unfold deliver. destruct (uuid_Parse (ob_Target e)) as [msg|id]; [cbn; eauto|].
  unfold webhook_store_ByID, read_tx, from_tenant. rewrite F. cbn. eauto.
Qed.
Lemma deliver_returns cx e w : let w' := snd (deliver cx e w) in
  db_outbox (W_db w') = db_outbox (W_db w) /\ db_endpoints (W_db w') = db_endpoints (W_db w)
  /\ forall p, fst (deliver cx e w) <> Panic p.
Proof.
  cbv zeta. destruct (From_ cx) as [er|tc] eqn:F.
  - destruct (deliver_unscoped cx e er w F) as [-> [x ->]]. repeat split. discriminate.
  - pose proof (swp_deliver quiet_env quiet_sheet no_faults cx tc e _ _ _ F w eq_refl eq_refl eq_refl) as [_ Hp].
    destruct (delivery_plan (W_db w) tc e) as [|err|ep t secrets].
    + destruct Hp as (-> & -> & _). repeat split. discriminate.
    + destruct Hp as (-> & -> & _). repeat split. discriminate.
    + destruct Hp as (n & m & took & id & created & -> & _ & ->).
      match goal with |- context [recorded ?a ?d] => destruct (recorded_same a d) as [-> ->] end.
      repeat split. destruct (snd _); discriminate.
Qed.
Lemma webhook_returns cx e w :
  db_outbox (W_db (snd (@Deliver webhookDeliverer cx e w))) = db_outbox (W_db w)
  /\ forall p, fst (@Deliver webhookDeliverer cx e w) <> Panic p.
Proof.
  cbn. unfold st_maperr. destruct (deliver_returns cx e w) as (H1' & _ & H3').
  destruct (deliver cx e w) as [[u|er|p] w']; cbn in *; [auto | split; [exact H1' | discriminate] | destruct (H3' p eq_refl)].
Qed.

(** What the acceptance rests on: the endpoints. *)
Definition same_endpoints (E : gmap uuid Endpoint) (d : DB) : Prop := db_endpoints d = E.
Lemma webhook_setting E cx e w : same_endpoints E (W_db w) -> same_endpoints E (W_db (snd (@Deliver webhookDeliverer cx e w))).
Proof.
  unfold same_endpoints. intros <-. cbn. unfold st_maperr. destruct (deliver_returns cx e w) as (_ & H2' & _).
  destruct (deliver cx e w) as [[u|er|p] w']; exact H2'.
Qed.
Lemma welcomed_accepted d tc x :
  welcomed d tc x -> @accepted webhookDeliverer (same_endpoints (db_endpoints d)) tc (identity (mkOutboxRow x None)).
Proof.
  intros Hw cx e w F HE Hi. cbn. unfold st_maperr.
  assert (Ed : delivery_plan (W_db w) tc e = delivery_plan d tc x).
  { rewrite <- (plan_identity _ _ e), Hi, plan_identity. apply plan_endpoints, HE. }
  assert (Ep : forall url t ss now, delivery_post url e t ss now = delivery_post url x t ss now).
  { intros. change (delivery_post url (identity (mkOutboxRow e None)) t ss now = delivery_post url x t ss now).
    rewrite Hi. reflexivity. }
  pose proof (swp_deliver quiet_env quiet_sheet no_faults cx tc e _ _ _ F w eq_refl eq_refl eq_refl) as [_ Hp].
  rewrite Ed in Hp. unfold welcomed in Hw.
  destruct (delivery_plan d tc x) as [|err|ep t secrets]; [|destruct Hw|].
  - destruct Hp as (Ho & _). destruct (deliver cx e w) as [o w']. cbn in Ho. rewrite Ho. reflexivity.
  - destruct Hp as (n & m & took & id & created & Ho & _). destruct Hw as [[u Hu] Hr].
    rewrite Ep in Ho. destruct (Hr m (W_sent w) (env_now n)) as (status & body & headers & E & Hs).
    rewrite E in Ho. unfold exchanged in Ho. rewrite Hu in Ho. cbn [snd] in Ho.
    destruct (Z.leb_spec 200 status); [|lia]. destruct (Z.leb_spec status 299); [|lia]. cbn [andb] in Ho.
    destruct (deliver cx e w) as [o w']. cbn in Ho. rewrite Ho. reflexivity.
Qed.

(** *** Settling *)
Hypothesis not_done : forall n, sw_done n = false.

(** [MaxAttempts] drains settle what is pending: as delivered, where the receiver
    welcomes it. *)
Lemma webhook_drains batch cx tc w :
  From_ cx = inr tc -> keyed (W_db w) ->
  (forall id r, db_outbox (W_db w) !! id = Some r -> row_ok r) ->
  Z.of_nat (List.length (List.filter (pendingIn tc) (rows (db_outbox (W_db w))))) <= claimBatch batch ->
  (forall k id r, (k < Z.to_nat MaxAttempts)%nat ->
     db_outbox (W_db (@drains _ _ webhookDeliverer k batch cx w)) !! id = Some r -> pendingIn tc r = true ->
     row_due r <= env_now (W_step (@drains _ _ webhookDeliverer k batch cx w))) ->
  forall id r, db_outbox (W_db w) !! id = Some r -> row_org r = OrgID tc ->
  exists r', db_outbox (W_db (@drains _ _ webhookDeliverer (Z.to_nat MaxAttempts) batch cx w)) !! id = Some r'
    /\ identity r' = identity r /\ Status_Terminal (row_status r') = true
    /\ (welcomed (W_db w) tc (or_entry r) -> row_status r = StatusPending -> row_attempt r < MaxAttempts ->
        row_status r' = StatusDelivered).
Proof.
  intros F Hk Hok Hc Hdue id r Hr Hor.
  destruct (@drains_rows _ _ webhookDeliverer quiet_env no_faults not_done webhook_returns
    (same_endpoints (db_endpoints (W_db w))) (fun m db HE => HE) (webhook_setting _) batch cx tc w _ F Hk eq_refl Hc Hdue)
    as (_ & _ & _ & Hrow).
  destruct (Hrow id r Hr Hor) as (r' & Hr' & Hi & Hp & Hst & Ha). exists r'. split; [exact Hr'|]. split; [exact Hi|].
  assert (Hlt : (0 < Z.to_nat MaxAttempts)%nat) by (unfold MaxAttempts; lia).
  split; [|intros Hw; apply Ha; [exact Hlt|]; exact (welcomed_accepted _ _ _ Hw)].
  destruct (Hok _ _ Hr) as (Hv & [Hat _] & _). exact (drained_terminal r r' _ Hv Hat (le_n _) Hp Hst).
Qed.
End Drain.

(** ** What an event leaves in the outbox *)

Lemma only_adds_row o p eventID body es ids db db' id r :
  only_adds o p eventID body es ids db db' -> db_outbox db' !! id = Some r ->
  db_outbox db !! id = Some r \/ exists e now, r = queued_row o p eventID body id e now.
Proof.
  intros (_ & _ & _ & Hold & Hrows) Hr. destruct (decide (id ∈ ids)) as [Hin|Hni].
  - apply list_elem_of_lookup in Hin as [i Hi]. destruct (Forall2_lookup_l _ _ _ _ _ Hrows Hi) as (e & _ & now & He).
    right. exists e, now. congruence.
  - left. rewrite <- (Hold _ Hni). exact Hr.
Qed.
Lemma only_adds_keyed o p eventID body es ids db db' :
  only_adds o p eventID body es ids db db' -> keyed db -> keyed db'.
Proof. intros Ha Hk id r Hr. destruct (only_adds_row _ _ _ _ _ _ _ _ _ _ Ha Hr) as [Ho|(e & now & ->)]; [exact (Hk _ _ Ho) | reflexivity]. Qed.
Lemma queued_row_ok o p eventID body id e now : row_ok (queued_row o p eventID body id e now).
Proof.
  split; [reflexivity|]. unfold queued_row, row_attempt, row_status, MaxAttempts, MaxCauseLen; cbn.
  split; [lia|]. split; [discriminate|]. split; [split; [discriminate | intros Hn; destruct (Hn eq_refl)] | lia].
Qed.
Lemma only_adds_ok o p eventID body es ids db db' :
  only_adds o p eventID body es ids db db' ->
  (forall id r, db_outbox db !! id = Some r -> row_ok r) -> forall id r, db_outbox db' !! id = Some r -> row_ok r.
Proof.
  intros Ha Hok id r Hr. destruct (only_adds_row _ _ _ _ _ _ _ _ _ _ Ha Hr) as [Ho|(e & now & ->)];
    [exact (Hok _ _ Ho) | apply queued_row_ok].
Qed.
