(* ===== verification/WebhookProps.v ===== *)
(** * What the webhooks promise

    The theorems of the webhooks: what a delivery sends and records, that an event
    reaches its subscribers, what a rotation writes, and what every session keeps of
    the endpoints and attempts; with the races of the service's unguarded steps. *)
From Stdlib Require Import ZArith NArith Lia String Ascii List.
From stdpp Require Import base gmap list strings.
From S2P Require Import Prelude GoStrings Errors Encoding GoJSON Sealer Tenant Outbox Webhook Sheet World Wp OutboxStore OutboxTheory OutboxDrain OutboxProps PeriodService SheetTheory SheetRun WebhookText.
From S2P Require Import WebhookStore WebhookService WebhookSafety WebhookTheory WebhookQueue.
Local Open Scope string_scope.
Local Open Scope Z_scope.

(** ** Webhooks on concrete data

    The ports of the webhooks given concretely, with their laws, and a project with
    its endpoints. *)
(** ** Ids *)

(** The value of the hexadecimal digits of a text, its dashes left out. *)
Fixpoint hex_text (acc : N) (s : string) : N :=
  match s with
  | "" => acc
  | String c r => hex_text (if Ascii.eqb c "-" then acc else acc * 16 + unhex c)%N r
  end.
Definition demo_Parse : UUIDParser := fun s =>
  let u := hex_text 0 s in if String.eqb (uuid_String u) s then inr u else inl "invalid UUID".

Lemma hex_chr_dash d : (d < 16)%N -> Ascii.eqb (hex_chr d) "-" = false.
Proof.
  intros Hd. assert (I : In d (map N.of_nat (seq 0 16))).
  { apply in_map_iff. exists (N.to_nat d). rewrite N2Nat.id, in_seq. split; [reflexivity | lia]. }
  assert (A : forallb (fun d => negb (Ascii.eqb (hex_chr d) "-")) (map N.of_nat (seq 0 16)) = true) by reflexivity.
  rewrite forallb_forall in A. apply negb_true_iff, A, I.
Qed.
Lemma hex_text_app a b acc : hex_text acc (a ++ b) = hex_text (hex_text acc a) b.
Proof. revert acc. induction a as [|c a IH]; intros acc; [reflexivity|]. cbn [String.append hex_text]. apply IH. Qed.
Lemma hex_text_n n z acc : hex_text acc (hex_n n z) = (acc * 16 ^ N.of_nat n + z mod 16 ^ N.of_nat n)%N.
Proof.
  revert z acc. induction n as [|n IH]; intros z acc; [cbn [hex_n hex_text]; rewrite N.mod_1_r; lia|].
  cbn [hex_n]. rewrite hex_text_app, IH. cbn [hex_text].
  rewrite hex_chr_dash, unhex_hex by (apply N.mod_lt; lia).
  rewrite Nat2N.inj_succ, N.pow_succ_r', N.Div0.mod_mul_r. lia.
Qed.
Lemma hex_part n u a r acc : hex_text acc (hex_n n (N.shiftr u a) ++ "-" ++ r)
  = hex_text (acc * 2 ^ (4 * N.of_nat n) + N.shiftr u a mod 2 ^ (4 * N.of_nat n))%N r.
Proof. rewrite hex_text_app, hex_text_n, N.pow_mul_r. reflexivity. Qed.
#[export] Instance demo_Parse_laws : @UUIDParserLaws demo_Parse.
Proof.
  intros u Hu. unfold uuid_Parse, demo_Parse.
  assert (E : hex_text 0 (uuid_String u) = u); [|rewrite E, String.eqb_refl; reflexivity].
  unfold uuid_String. rewrite !hex_part, hex_text_n.
  change (16 ^ N.of_nat 12)%N with (2 ^ 48)%N. change (4 * N.of_nat 8)%N with 32%N. change (4 * N.of_nat 4)%N with 16%N.
  rewrite (N.mod_small (N.shiftr u 96)) by (rewrite N.shiftr_div_pow2; apply N.Div0.div_lt_upper_bound; exact Hu).
  rewrite N.mul_0_l, N.add_0_l.
  change 96%N with (80 + 16)%N. rewrite <- (shiftr_split u 80 16). change 80%N with (64 + 16)%N. rewrite <- (shiftr_split u 64 16).
  change 64%N with (48 + 16)%N. rewrite <- (shiftr_split u 48 16). change 48%N with (0 + 48)%N at 1. rewrite <- (shiftr_split u 0 48).
  apply N.shiftr_0_r.
Qed.

(** ** Ports *)

(** Above every id and every event in use, and a clock twelve hours apart. *)
Definition hook_fresh (db : DB) : uuid :=
  (100 + N.max (max_id (db_endpoints db)) (N.max (max_id (db_outbox db)) (N.max (max_id (db_attempts db))
    (fold_right N.max 0 (map (fun r => ob_EventID (or_entry r)) (rows (db_outbox db)))))))%N.
Definition hook_env : Env := {|
  env_uuid := fun _ db => hook_fresh db;
  env_now := fun n => claim_now + Z.of_nat n * (12 * Hour);
  env_fault := fun _ => None;
  env_other := fun _ db => db;
  env_sheet := fun _ s => s
|}.
Definition demo_URLs : URLs := fun s =>
  if HasPrefix s "https://" then inr (mkURLParts "https" false (drop_str 8 s)) else inl "unsupported scheme".
Definition demo_Sealer : Sealer := {|
  Seal := fun _ plain aad => inr (aad ++ "|" ++ plain);
  Open := fun sealed aad =>
    if HasPrefix sealed (aad ++ "|") then inr (drop_str (String.length (aad ++ "|")) sealed) else inl (ESealer OpenFailedError)
|}.
Definition demo_Secrets : SecretBytes := fun n => inr (FormatInt (Z.of_nat n)).
Definition demo_Slugs `{Env} : ProjectSlugs := fun _ _ => st_ret "journal".
Definition demo_JSONErrors : JSONErrors := fun _ => "invalid character".
Definition demo_Texts : ErrorTexts := fun _ => "delivery failed".
(** The receivers under [https://up] answer with success, the others do not. *)
Definition demo_Receivers : Receivers := fun _ _ p =>
  if HasPrefix (hp_URL p) "https://up" then PostAnswered 204 "" [("Date", ["now"])] else PostAnswered 500 "oops" [].

#[export] Instance demo_Sealer_laws : @SealerLaws demo_Sealer.
Proof.
  split; intros n plain aad sealed [= <-].
  - cbn [Open demo_Sealer]. replace (aad ++ String "|" plain) with ((aad ++ "|") ++ plain) by (rewrite append_assoc; reflexivity).
    rewrite GoJSON.HasPrefix_app, drop_str_app. reflexivity.
  - destruct aad; discriminate.
Qed.
#[export] Instance demo_Slugs_laws `{Env} : @ProjectSlugsLaws _ demo_Slugs.
Proof.
  split; [intros cx id R HR rely; apply preserves_ret, _ | intros id cx Hx; apply reads_ret; exact (fun _ => I)].
Qed.

Lemma hook_fresh_above db : let u := hook_fresh db in
  (max_id (db_endpoints db) < u)%N /\ (max_id (db_outbox db) < u)%N
  /\ (fold_right N.max 0 (map (fun r => ob_EventID (or_entry r)) (rows (db_outbox db))) < u)%N.
Proof. unfold hook_fresh. lia. Qed.
Lemma fold_max_In l x : In x l -> (x <= fold_right N.max 0 l)%N.
Proof. induction l as [|y l IH]; cbn; [tauto|]. intros [->|Hx]; [lia | specialize (IH Hx); lia]. Qed.
Lemma hook_fresh_entries : @fresh_entries hook_env.
Proof.
  intros n db. destruct (hook_fresh_above db) as (_ & Ho & He). cbn [hook_env env_uuid].
  split; [apply max_id_fresh, Ho|]. intros r Hr E.
  assert (ob_EventID (or_entry r) <= fold_right N.max 0 (map (fun r => ob_EventID (or_entry r)) (rows (db_outbox db))))%N.
  { apply fold_max_In, in_map_iff. eauto. }
  lia.
Qed.
Lemma hook_fresh_endpoints : @fresh_endpoints hook_env.
Proof. intros n db. apply max_id_fresh, hook_fresh_above. Qed.
Lemma hook_quiet : @quiet hook_env.
Proof. intros n db. reflexivity. Qed.
Lemma hook_quiet_sheet : @sheet_quiet hook_env.
Proof. intros n s. reflexivity. Qed.
Lemma hook_faultless : @faultless hook_env.
Proof. intros n. reflexivity. Qed.

(** ** Sessions *)

Inductive WebhookOp :=
| OpHookCreate (url desc : string) (types : list EventType)
| OpHookUpdate (id : uuid) (url desc : string) (types : list EventType) (active : bool)
| OpHookDelete (id : uuid)
| OpHookByID (id : uuid)
| OpHookList
| OpRotate (id : uuid)
| OpRetire (id : uuid)
| OpHookEnqueue (t : EventType) (data : EventData)
| OpSendTest (id : uuid)
| OpDeliveries (id : uuid) (limit : Z)
| OpDelivery (id delivery : uuid)
| OpAttempts (id delivery : uuid)
| OpRetry (id delivery : uuid)
| OpRetryFailed (id : uuid)
| OpDeliver (e : Entry).

Section Sessions.
Context `{Env, Unicode, URLs, Sealer, SecretBytes, !ProjectSlugs, JSONErrors, Receivers, UUIDParser, ErrorTexts}.

(** An event is enqueued in a unit of work of its own. *)
Definition enqueue_alone (cx : Ctx) (t : EventType) (data : EventData) : M unit :=
  RunInTx (fun e => e) cx (fun cx => webhook_Enqueue cx t data).
Definition run_webhook_op (cx : Ctx) (op : WebhookOp) (w : World) : World :=
  match op with
  | OpHookCreate url desc types => snd (webhook_Create cx url desc types w)
  | OpHookUpdate id url desc types active => snd (webhook_Update cx id url desc types active w)
  | OpHookDelete id => snd (webhook_Delete cx id w)
  | OpHookByID id => snd (webhook_ByID cx id w)
  | OpHookList => snd (webhook_List cx w)
  | OpRotate id => snd (Rotate cx id w)
  | OpRetire id => snd (RetireSecondary cx id w)
  | OpHookEnqueue t data => snd (enqueue_alone cx t data w)
  | OpSendTest id => snd (SendTest cx id w)
  | OpDeliveries id limit => snd (Deliveries cx id limit w)
  | OpDelivery id d => snd (webhook_Delivery cx id d w)
  | OpAttempts id d => snd (Attempts cx id d w)
  | OpRetry id d => snd (Retry cx id d w)
  | OpRetryFailed id => snd (RetryFailed cx id w)
  | OpDeliver e => snd (deliver cx e w)
  end.
Definition webhook_session (ops : list (Ctx * WebhookOp)) (w : World) : World :=
  fold_left (fun w c => run_webhook_op (fst c) (snd c) w) ops w.

(** The operation keeps to scopes that are not [foreign]. *)
Definition op_within (foreign : uuid -> uuid -> Prop) (c : Ctx * WebhookOp) : Prop :=
  match snd c with OpDeliver e => delivers_within foreign e | _ => within foreign (fst c) end.

Context `{!ProjectSlugsLaws} (foreign : uuid -> uuid -> Prop).
Hypothesis rely : forall n db, webhook_step foreign db (env_other n db).
Hypothesis fresh : fresh_endpoints.

Lemma webhook_op_step cx op w : op_within foreign (cx, op) -> webhook_step foreign (W_db w) (W_db (run_webhook_op cx op w)).
Proof.
  intros Hin. destruct op; cbn [run_webhook_op op_within fst snd] in *;
    [ apply Create_step | apply Update_step | apply Delete_step | apply webhook_ByID_step | apply webhook_List_step
    | apply Rotate_step | apply Retire_step | apply (pres_RunInTx _ rely), webhook_Enqueue_step | apply SendTest_step
    | apply Deliveries_step | apply Delivery_step | apply Attempts_step | apply Retry_step | apply RetryFailed_step
    | apply deliver_step ]; assumption.
Qed.
Lemma webhook_session_step ops w :
  Forall (op_within foreign) ops -> webhook_step foreign (W_db w) (W_db (webhook_session ops w)).
Proof.
  intros Hops. revert w. induction Hops as [|[cx op] ops Hop Hops IH]; intros w; [reflexivity|].
  cbn [webhook_session fold_left fst snd]. etransitivity; [apply webhook_op_step, Hop | apply IH].
Qed.
End Sessions.

(** C22: Over any session of the webhooks' service and deliverer, interleaved with other
    sessions that do the same, the tables stay well formed: every endpoint lies under
    its id with a URL Go parses as https, without credentials and with a host, 2048
    bytes at most, a description of 200 characters at most, and at least one event
    type, each of them once, known and open to subscription; every attempt belongs to
    an endpoint that exists and keeps valid UTF-8 without a NUL, 4096 bytes of body
    and of headers and fifty headers at most. *)
Theorem webhooks_well_formed `{Env, Unicode, URLs, Sealer, SecretBytes, !ProjectSlugs, !ProjectSlugsLaws, JSONErrors, Receivers, UUIDParser, ErrorTexts}
    ops w :
  (forall n db, webhooks_wf db -> webhooks_wf (env_other n db)) -> fresh_endpoints ->
  webhooks_wf (W_db w) -> webhooks_wf (W_db (webhook_session ops w)).
Proof.
  intros rely fresh Hw.
  assert (Hs : webhook_step (fun _ _ => False) (W_db w) (W_db (webhook_session ops w))); [|apply (Hs Hw)].
  apply webhook_session_step; [|exact fresh|].
  - intros n db Hdb. split; [apply rely, Hdb|]. split; [intros id e [] | intros aid a e _ []].
  - apply Forall_forall. intros [cx op] _. destruct op; intros; try (intros tc _ []); intros [].
Qed.

(** C25: A session that works in other projects leaves a project's endpoints, their
    secrets and their attempts as they are, whatever ids it names: [o] and [p] are the
    organisation and the project, and the other sessions are such sessions too. *)
Theorem webhook_isolated `{Env, Unicode, URLs, Sealer, SecretBytes, !ProjectSlugs, !ProjectSlugsLaws, JSONErrors, Receivers, UUIDParser, ErrorTexts}
    o p ops w :
  let theirs := fun o' p' => o' = o /\ p' = p in
  (forall n db, webhook_step theirs db (env_other n db)) -> fresh_endpoints ->
  Forall (op_within theirs) ops -> webhooks_wf (W_db w) ->
  let w' := webhook_session ops w in
  (forall id e, ep_OrgID e = o -> ep_ProjectID e = p ->
     (db_endpoints (W_db w) !! id = Some e <-> db_endpoints (W_db w') !! id = Some e))
  /\ (forall aid a e, db_endpoints (W_db w) !! at_EndpointID a = Some e -> ep_OrgID e = o -> ep_ProjectID e = p ->
     (db_attempts (W_db w) !! aid = Some a <-> db_attempts (W_db w') !! aid = Some a)).
Proof.
  intros theirs rely fresh Hops Hw. cbv zeta. destruct (webhook_session_step theirs rely fresh ops w Hops Hw) as (_ & He & Ha).
  split; [intros id e H1' H2'; apply He; split; assumption | intros aid a e Hl H1' H2'; apply (Ha _ _ e Hl); split; assumption].
Qed.

(** A project with three endpoints, the last of them inactive. *)
Definition hook_session (ops : list (Ctx * WebhookOp)) (w : World) : World :=
  @webhook_session hook_env demo_unicode demo_URLs demo_Sealer demo_Secrets (@demo_Slugs hook_env) demo_JSONErrors
    demo_Receivers demo_Parse demo_Texts ops w.
Definition hook_setup : list (Ctx * WebhookOp) :=
  [(demo_cx, OpHookCreate "https://up.example/hook" "Mirror" [PostPublished; PostDeleted]);
   (demo_cx, OpHookCreate "https://down.example/hook" "" [PostPublished]);
   (demo_cx, OpHookCreate "https://up.example/off" "" [PostPublished]);
   (demo_cx, OpHookUpdate 300 "https://up.example/off" "" [PostPublished] false)].
Definition hook_world : World := hook_session hook_setup demo_world.
Definition demo_post : PostSnapshotV1 := mkPostSnapshotV1 7 "hello" "Hello" "**hi**" 0 None None claim_now 1.
Lemma empty_webhooks_wf : @webhooks_wf demo_URLs empty_db.
Proof. split; intros id x; cbn; rewrite lookup_empty; discriminate. Qed.
Lemma hook_rely foreign : forall n db, @webhook_step demo_URLs foreign db (@env_other hook_env n db).
Proof. intros n db. reflexivity. Qed.

Lemma webhooks_well_formed_witness :
  map (fun e => (ep_ID e, ep_Active e)) (rows (db_endpoints (W_db hook_world))) = [(300%N, false); (100%N, true); (200%N, true)]
  /\ @webhooks_wf demo_URLs (W_db hook_world).
Proof.
  split; [vm_compute; reflexivity|].
  apply (@webhooks_well_formed hook_env demo_unicode demo_URLs demo_Sealer demo_Secrets (@demo_Slugs hook_env) _ demo_JSONErrors
    demo_Receivers demo_Parse demo_Texts hook_setup demo_world); [intros n db Hw; exact Hw | exact hook_fresh_endpoints | exact empty_webhooks_wf].
Defined.

(** A session of another project of the same organisation, that names this one's endpoints. *)
Definition other_cx : Ctx := mkCtx (Some (mkTenant 1 9 3)) (Some (mkPrincipal 3 uuid_Nil)) false.
Definition other_ops : list (Ctx * WebhookOp) :=
  [(other_cx, OpHookDelete 100); (other_cx, OpRotate 100); (other_cx, OpHookUpdate 200 "https://evil.example" "" [PostDeleted] true)].
Lemma webhook_isolated_witness :
  let w' := hook_session other_ops hook_world in
  @webhooks_wf demo_URLs (W_db hook_world)
  /\ forall id e, ep_OrgID e = 1%N -> ep_ProjectID e = 2%N ->
     (db_endpoints (W_db hook_world) !! id = Some e <-> db_endpoints (W_db w') !! id = Some e).
Proof.
  assert (Hw : @webhooks_wf demo_URLs (W_db hook_world)).
  { apply (webhook_session_step (fun _ _ => False) (hook_rely _) hook_fresh_endpoints hook_setup demo_world); [|exact empty_webhooks_wf].
    repeat constructor; intros tc _ []. }
  split; [exact Hw|].
  apply (@webhook_isolated hook_env demo_unicode demo_URLs demo_Sealer demo_Secrets (@demo_Slugs hook_env) _ demo_JSONErrors
    demo_Receivers demo_Parse demo_Texts 1 2 other_ops hook_world);
    [apply hook_rely | exact hook_fresh_endpoints | | exact Hw].
  repeat constructor; intros tc [= <-] [_ E]; discriminate E.
Defined.

(** ** One delivery *)


Definition queued_event : Outcome Error unit * World :=
  @enqueue_alone hook_env (@demo_Slugs hook_env) demo_cx PostPublished (PostPublishedV1 demo_post) hook_world.
Definition event_entry (id : uuid) : Entry :=
  match db_outbox (W_db (snd queued_event)) !! id with Some r => or_entry r | None => demo_entry 0 "" end.
Definition demo_deliver (id : uuid) : Outcome Error unit * World :=
  @deliver hook_env demo_unicode demo_URLs demo_Sealer demo_JSONErrors demo_Receivers demo_Parse demo_Texts demo_cx
    (event_entry id) (snd queued_event).
(** One endpoint answers, the other fails; both attempts are on record. *)
Example demo_deliveries :
  (fst (demo_deliver 500), fst (demo_deliver 400)) = (Ok tt, Err (EWebhook (DeliveryFailedError 500)))
  /\ map (fun a => (at_StatusCode a, at_ResponseBody a)) (rows (db_attempts (W_db (snd (demo_deliver 400))))) = [(500, "oops")].
Proof. vm_compute. auto. Qed.


(** ** Events *)

(** An event enqueued in the caller's unit of work is one of the catalog with its
    payload; a success leaves exactly one new pending entry per active endpoint of the
    project subscribed to it, all with one new event's id and one envelope, which
    reads back as the event's type; the entry's plan is a post to that endpoint, and
    nothing else in the database changes. *)
Theorem Enqueue_fans_out `{Env, Sweeping, Unicode, URLs, Sealer, !ProjectSlugs, !ProjectSlugsLaws, JSONErrors, UUIDParser, !UUIDParserLaws}
    cx tc t data w :
  fresh_entries -> cx_tx cx = true -> From_ cx = inr tc -> version_ok data ->
  (forall id e, db_endpoints (W_db w) !! id = Some e -> ep_ID e = id /\ (id < 2 ^ 128)%N) ->
  fst (webhook_Enqueue cx t data w) = Ok tt ->
  let db := W_db w in
  let db' := W_db (snd (webhook_Enqueue cx t data w)) in
  let es := event_targets t (endpoints_of db tc (OrgID tc) (ProjectID tc)) in
  CheckPayload t data = None
  /\ (es = [] /\ db' = db
      \/ exists eventID body ids, envelopeType body = inr t
           /\ only_adds (OrgID tc) (ProjectID tc) eventID body es ids db db'
           /\ forall tc' e id now, OrgID tc' = OrgID tc -> In e es ->
                delivery_plan db' tc' (or_entry (queued_row (OrgID tc) (ProjectID tc) eventID body id e now))
                = match openSecrets e with inl err => Refuse err | inr secrets => PostTo e t secrets end).
Proof.
  intros fresh Hx F Hv Hk Hok. cbv zeta.
  destruct (runs_webhook_Enqueue fresh cx tc t data Hx F w tt Hok (event_targets_NoDup _ _ _ _ _ Hk)) as (spec & Hl & Hc & Hcase).
  split; [exact Hc|]. destruct Hcase as [Hn|(slug & eventID & now & body & ids & Hm & Ha)]; [left; exact Hn|]. right.
  exists eventID, body, ids. pose proof (CheckPayload_ok _ _ Hc Hv) as Hd.
  split; [exact (event_type_reads _ _ _ _ _ _ _ _ Hl Hd Hm)|]. split; [exact Ha|]. intros tc' e id now' Ho Hin.
  destruct (event_target_facts _ _ _ _ _ _ Hk Hin) as (He & Hlt & Eo & Ep & Hact).
  apply (queued_plan _ tc tc' t spec data eventID now slug); try assumption. rewrite (proj1 Ha). exact He.
Qed.

(** The receiver of [ep] answers whatever is posted to it with success. *)
Definition answers `{URLs, Receivers} (ep : Endpoint) : Prop :=
  (exists u, url_Parse (ep_URL ep) = inr u)
  /\ forall n h e t secrets now, exists status body headers,
       receive n h (delivery_post (ep_URL ep) e t secrets now) = PostAnswered status body headers /\ 200 <= status <= 299.

(** C23: An event enqueued in a unit of work that commits reaches its subscribers: with
    no fault, no other session and sweeps spaced so that what is pending is due,
    [MaxAttempts] drains of the worker with the webhooks' deliverer settle the entry
    of every active endpoint subscribed to it, and the entry of an endpoint whose
    secrets open and whose receiver answers ends up delivered. *)
Theorem event_reaches_subscribers `{Env, Sweeping, Unicode, URLs, Sealer, !ProjectSlugs, !ProjectSlugsLaws, JSONErrors, Receivers, UUIDParser, !UUIDParserLaws, ErrorTexts}
    cx tc cxo tco batch t data w :
  quiet -> sheet_quiet -> faultless -> (forall n, sw_done n = false) -> fresh_entries ->
  From_ cx = inr tc -> From_ cxo = inr tco -> OrgID tco = OrgID tc -> version_ok data ->
  (forall id e, db_endpoints (W_db w) !! id = Some e -> ep_ID e = id /\ (id < 2 ^ 128)%N) ->
  keyed (W_db w) -> (forall id r, db_outbox (W_db w) !! id = Some r -> row_ok r) ->
  fst (enqueue_alone cx t data w) = Ok tt ->
  let w1 := snd (enqueue_alone cx t data w) in
  Z.of_nat (List.length (List.filter (pendingIn tco) (rows (db_outbox (W_db w1))))) <= claimBatch batch ->
  (forall k id r, (k < Z.to_nat MaxAttempts)%nat ->
     db_outbox (W_db (@drains _ _ webhookDeliverer k batch cxo w1)) !! id = Some r -> pendingIn tco r = true ->
     row_due r <= env_now (W_step (@drains _ _ webhookDeliverer k batch cxo w1))) ->
  let w2 := @drains _ _ webhookDeliverer (Z.to_nat MaxAttempts) batch cxo w1 in
  let es := event_targets t (endpoints_of (W_db w) tc (OrgID tc) (ProjectID tc)) in
  exists eventID, forall e, In e es -> exists id r,
    db_outbox (W_db w2) !! id = Some r /\ ob_EventID (or_entry r) = eventID /\ row_target r = uuid_String (ep_ID e)
    /\ envelopeType (ob_Payload (or_entry r)) = inr t /\ Status_Terminal (row_status r) = true
    /\ (answers e -> (exists secrets, openSecrets e = inr secrets) -> row_status r = StatusDelivered).
Proof.
  intros Hq Hs Hf Hd fresh F Fo Eorg Hv Hk Hkey Hok Hrun. cbv zeta. intros Hbatch Hdue.
  assert (HC := commits_RunInTx (fun e => e) cx (fun cx => webhook_Enqueue cx t data) _ Hq
    (fun _ => runs_webhook_Enqueue fresh (WithTx cx) tc t data eq_refl F)).
  destruct (proj1 HC w tt Hrun (event_targets_NoDup _ _ _ _ _ Hk)) as (spec & Hl & Hc & Hcase).
  destruct Hcase as [[Hn _]|(slug & eventID & now & body & ids & Hm & Ha)]; [exists uuid_Nil; rewrite Hn; intros e []|].
  exists eventID. intros e Hin. pose proof (CheckPayload_ok _ _ Hc Hv) as Hpd.
  pose proof (proj2 (proj2 (proj2 (proj2 Ha)))) as Hrows.
  destruct (proj1 (list_elem_of_lookup _ _) (proj2 (list_elem_of_In _ _) Hin)) as [i Hi].
  destruct (Forall2_lookup_r _ _ _ _ _ Hrows Hi) as (id & _ & due & Hr).
  fold (enqueue_alone cx t data) in Ha, Hr. 
  destruct (webhook_drains Hq Hs Hf Hd batch cxo tco _ Fo (only_adds_keyed _ _ _ _ _ _ _ _ Ha Hkey)
    (only_adds_ok _ _ _ _ _ _ _ _ Ha Hok) Hbatch Hdue id _ Hr (eq_sym Eorg)) as (r & Hr' & Hid & Hterm & Hdel).
  exists id, r. split; [exact Hr'|].
  assert (Hev : ob_EventID (or_entry r) = eventID) by exact (f_equal ob_EventID Hid).
  assert (Htg : row_target r = uuid_String (ep_ID e)) by exact (f_equal ob_Target Hid).
  assert (Hpl : ob_Payload (or_entry r) = body) by exact (f_equal ob_Payload Hid).
  split; [exact Hev|]. split; [exact Htg|]. rewrite Hpl. split; [exact (event_type_reads _ _ _ _ _ _ _ _ Hl Hpd Hm)|].
  split; [exact Hterm|]. intros [Hu Hans] [secrets Hsec]. apply Hdel; [|reflexivity | reflexivity].
  destruct (event_target_facts _ _ _ _ _ _ Hk Hin) as (He & Hlt & Eo & Ep & Hact).
  unfold welcomed. rewrite (queued_plan _ tc tco t spec data eventID now slug body id e due Eorg), Hsec;
    [split; [exact Hu | intros; apply Hans] | | assumption ..]. rewrite (proj1 Ha). exact He.
Qed.

(** The endpoints and the outbox of the demo, checked row by row. *)
Definition endpoints_checked (db : DB) : bool :=
  forallb (fun p => N.eqb (ep_ID (snd p)) (fst p) && N.ltb (fst p) (2 ^ 128)) (map_to_list (db_endpoints db)).
Lemma endpoints_checked_spec db : endpoints_checked db = true ->
  forall id e, db_endpoints db !! id = Some e -> ep_ID e = id /\ (id < 2 ^ 128)%N.
Proof.
  intros Hc id e He. unfold endpoints_checked in Hc. rewrite forallb_forall in Hc.
  specialize (Hc (id, e)). rewrite <- list_elem_of_In, elem_of_map_to_list, andb_true_iff, N.eqb_eq, N.ltb_lt in Hc. exact (Hc He).
Qed.
Lemma hook_endpoints : forall id e, db_endpoints (W_db hook_world) !! id = Some e -> ep_ID e = id /\ (id < 2 ^ 128)%N.
Proof. apply endpoints_checked_spec. vm_compute. reflexivity. Qed.
Lemma hook_outbox_empty : db_outbox (W_db hook_world) = ∅.
Proof. vm_compute. reflexivity. Qed.
Lemma hook_keyed : keyed (W_db hook_world).
Proof. intros id r. rewrite hook_outbox_empty, lookup_empty. discriminate. Qed.
Lemma hook_rows_ok : forall id r, db_outbox (W_db hook_world) !! id = Some r -> row_ok r.
Proof. intros id r. rewrite hook_outbox_empty, lookup_empty. discriminate. Qed.

Definition tx_cx : Ctx := WithTx demo_cx.
Definition demo_enqueue : Outcome Error unit * World :=
  @webhook_Enqueue hook_env (@demo_Slugs hook_env) tx_cx PostPublished (PostPublishedV1 demo_post) hook_world.
Definition hook_targets : list Endpoint := event_targets PostPublished (endpoints_of (W_db hook_world) demo_tenant (OrgID demo_tenant) (ProjectID demo_tenant)).
Lemma Enqueue_fans_out_witness :
  map ep_ID hook_targets = [200%N; 100%N]
  /\ exists eventID body ids, @envelopeType demo_JSONErrors body = inr PostPublished
       /\ only_adds (OrgID demo_tenant) (ProjectID demo_tenant) eventID body hook_targets ids (W_db hook_world) (W_db (snd demo_enqueue)).
Proof.
  assert (Et : map ep_ID hook_targets = [200%N; 100%N]) by (vm_compute; reflexivity). split; [exact Et|].
  assert (H : fst demo_enqueue = Ok tt) by (vm_compute; reflexivity).
  assert (HV : version_ok (PostPublishedV1 demo_post)) by (split; vm_compute; discriminate).
  destruct (@Enqueue_fans_out hook_env demo_sweeping demo_unicode demo_URLs demo_Sealer (@demo_Slugs hook_env) _ demo_JSONErrors demo_Parse _
    tx_cx demo_tenant PostPublished (PostPublishedV1 demo_post) hook_world hook_fresh_entries eq_refl eq_refl HV hook_endpoints H)
    as (_ & [[Hn _]|(eventID & body & ids & Hb & Ha & _)]).
  - unfold hook_targets in Et. rewrite Hn in Et. discriminate Et.
  - exists eventID, body, ids. exact (conj Hb Ha).
Defined.

Definition hook_drains (k : nat) : World :=
  @drains hook_env demo_sweeping (@webhookDeliverer hook_env demo_unicode demo_URLs demo_Sealer demo_JSONErrors demo_Receivers demo_Parse demo_Texts)
    k 100 demo_cx (snd queued_event).
Definition hook_due_at (w : World) : bool :=
  forallb (fun r => negb (pendingIn demo_tenant r) || (row_due r <=? @env_now hook_env (W_step w))) (rows (db_outbox (W_db w))).
(** The drains one after the other, each state checked on the way. *)
Fixpoint check_iter {A} (n : nat) (f : A -> A) (p : A -> bool) (a : A) : bool :=
  match n with O => true | S n => p a && check_iter n f p (f a) end.
Lemma check_iter_spec {A} (f : A -> A) p n : forall a, check_iter n f p a = true -> forall k, (k < n)%nat -> p (Nat.iter k f a) = true.
Proof.
  induction n as [|n IH]; intros a Hc k Hk; [lia|]. apply andb_true_iff in Hc as [Ha Hc].
  destruct k as [|k]; [exact Ha|]. rewrite Nat.iter_succ_r. apply (IH _ Hc). lia.
Qed.
Lemma hook_drains_due :
  forall k id r, (k < Z.to_nat MaxAttempts)%nat ->
    db_outbox (W_db (hook_drains k)) !! id = Some r -> pendingIn demo_tenant r = true ->
    row_due r <= @env_now hook_env (W_step (hook_drains k)).
Proof.
  intros k id r Hlt Hr Hp.
  assert (Hc : hook_due_at (hook_drains k) = true).
  { unfold hook_drains, drains. apply (check_iter_spec _ _ (Z.to_nat MaxAttempts)); [vm_compute; reflexivity | exact Hlt]. }
  unfold hook_due_at in Hc. rewrite forallb_forall in Hc. specialize (Hc r).
  rewrite Hp in Hc. apply Z.leb_le, Hc, rows_In. eauto.
Qed.
Lemma event_reaches_subscribers_witness :
  fst queued_event = Ok tt
  /\ exists eventID, forall e, In e hook_targets -> exists id r,
       db_outbox (W_db (hook_drains (Z.to_nat MaxAttempts))) !! id = Some r /\ ob_EventID (or_entry r) = eventID
       /\ row_target r = uuid_String (ep_ID e) /\ @envelopeType demo_JSONErrors (ob_Payload (or_entry r)) = inr PostPublished
       /\ Status_Terminal (row_status r) = true
       /\ (@answers demo_URLs demo_Receivers e -> (exists secrets, @openSecrets demo_Sealer e = inr secrets) -> row_status r = StatusDelivered).
Proof.
  assert (H : fst queued_event = Ok tt) by (vm_compute; reflexivity). split; [exact H|].
  apply (@event_reaches_subscribers hook_env demo_sweeping demo_unicode demo_URLs demo_Sealer (@demo_Slugs hook_env) _ demo_JSONErrors
    demo_Receivers demo_Parse _ demo_Texts demo_cx demo_tenant demo_cx demo_tenant 100 PostPublished (PostPublishedV1 demo_post) hook_world).
  - exact hook_quiet.
  - exact hook_quiet_sheet.
  - exact hook_faultless.
  - intros n. reflexivity.
  - exact hook_fresh_entries.
  - reflexivity.
  - reflexivity.
  - reflexivity.
  - split; vm_compute; discriminate.
  - exact hook_endpoints.
  - exact hook_keyed.
  - exact hook_rows_ok.
  - exact H.
  - vm_compute. discriminate.
  - exact hook_drains_due.
Defined.
(** The endpoint that answers gets it at once, the other fails after its eight attempts. *)
Example hook_drains_outcome :
  map (fun r => (row_status r, row_attempt r)) (rows (db_outbox (W_db (hook_drains 8))))
  = [(StatusDelivered, 1); (StatusFailed, 8)].
Proof. vm_compute. reflexivity. Qed.

(** ** Secrets *)

(** C26: Whatever other sessions do to the tables, a rotation that succeeds wrote over
    the very secrets it had read, and leaves secrets that open to the new one and, when
    it still opened, the one it replaces, in this order, so a delivery is signed with
    both; a retirement that succeeds likewise leaves the primary alone; one that fails
    wrote nothing: of two that read the same secrets, one succeeds. *)
Theorem rotation_exact `{Env, Unicode, URLs, Sealer, !SealerLaws, SecretBytes, !ProjectSlugs, JSONErrors} cx tc id db :
  faultless -> (forall n db, endpoints_keyed db -> endpoints_keyed (env_other n db)) ->
  cx_tx cx = false -> From_ cx = inr tc -> endpoints_keyed db ->
  wp (Rotate cx id) db (fun o d' => exists n, let d := env_other n db in
    match o with
    | Ok secret => exists k, rotated tc id secret d (env_other k d) d'
    | _ => d' = d \/ exists k, d' = env_other k d
    end)
  /\ wp (RetireSecondary cx id) db (fun o d' => exists n, let d := env_other n db in
    match o with
    | Ok _ => (exists e, endpoint_of d tc id = Some e /\ sx_Secondary (ep_Secrets e) = None /\ d' = d)
              \/ exists k, retired tc id d (env_other k d) d'
    | _ => d' = d \/ exists k, d' = env_other k d
    end).
Proof. intros Hf rely Hx F Hk. split; [apply (Rotate_wp Hf rely) | apply (Retire_wp Hf rely)]; assumption. Qed.

Lemma hook_endpoints_keyed : endpoints_keyed (W_db hook_world).
Proof. intros id e He. apply (hook_endpoints id e He). Qed.
(** After a rotation the deliveries are signed with both secrets, after a retirement with the new one. *)
Definition opened (id : uuid) (w : World) : option (Error + list string) :=
  @openSecrets demo_Sealer <$> db_endpoints (W_db w) !! id.
Example rotation_overlap :
  (opened 100 hook_world, opened 100 (hook_session [(demo_cx, OpRotate 100)] hook_world),
   opened 100 (hook_session [(demo_cx, OpRotate 100); (demo_cx, OpRetire 100)] hook_world))
  = (Some (inr ["whsec_NQ"]), Some (inr ["whsec_NDQ"; "whsec_NQ"]), Some (inr ["whsec_NDQ"])).
Proof. vm_compute. reflexivity. Qed.
Lemma rotation_exact_witness :
  wp (@Rotate hook_env demo_Sealer demo_Secrets demo_cx 100) (W_db hook_world) (fun o d' =>
    exists n, let d := @env_other hook_env n (W_db hook_world) in
    match o with
    | Ok secret => exists k, @rotated demo_Sealer demo_tenant 100 secret d (@env_other hook_env k d) d'
    | _ => d' = d \/ exists k, d' = @env_other hook_env k d
    end).
Proof.
  apply (@rotation_exact hook_env demo_unicode demo_URLs demo_Sealer _ demo_Secrets (@demo_Slugs hook_env) demo_JSONErrors
    demo_cx demo_tenant 100 (W_db hook_world));
    [exact hook_faultless | intros n db Hk; exact Hk | reflexivity | reflexivity | exact hook_endpoints_keyed].
Defined.

(** ** Texts *)

(** C40: What the webhooks write as JSON reads back: an envelope of a catalog's event
    is the document it was built from, its strings cleaned of invalid UTF-8, and its
    type is found in it; the columns of an endpoint's event types and of an attempt's
    headers read back as they were. *)
Theorem texts_read_back `{JSONErrors, Unicode} :
  (forall e body, payload_ok (ev_Data e) -> ValidString (ev_Type e) = true -> ev_Type e <> "" ->
     marshal_envelope e = Some body ->
     envelopeType body = inr (ev_Type e)
     /\ exists j, json_envelope e = Some j /\ json_read body = Some (scrub_json j))
  /\ (forall ts, types_ok ts -> unmarshalEventTypes (marshalEventTypes ts) = Some ts)
  /\ (forall hs, unmarshalHeaders (marshalHeaders (boundHeaders hs)) = Some (boundHeaders hs)).
Proof.
  split; [|split].
  - intros e body Hd Hv Hn Hm. split; [exact (envelope_type_read e body Hd Hv Hn Hm)|].
    destruct (marshal_read e body Hd Hm) as (j & Hj & _ & Hr). eauto.
  - intros ts (_ & _ & Hts). apply event_types_read. eapply Forall_impl; [exact Hts|]. intros t (s & Hs & _).
    apply (Lookup_type _ _ Hs).
  - intros hs. apply headers_read. destruct (boundHeaders_ok hs) as (_ & _ & Hh). eapply Forall_impl; [exact Hh|].
    intros h [[Hn _] [Hv _]]. auto.
Qed.

(** ** Races *)

(** An environment where another session commits [other] before the step [at_]. *)
Definition race_env (at_ : nat) (other : DB -> DB) : Env := {|
  env_uuid := fun _ db => hook_fresh db;
  env_now := fun n => claim_now + Z.of_nat n * Second;
  env_fault := fun _ => None;
  env_other := fun n db => if Nat.eqb n at_ then other db else db;
  env_sheet := fun _ s => s
|}.
Definition race (at_ : nat) (other : DB -> DB) (op : WebhookOp) (w : World) : World :=
  @run_webhook_op (race_env at_ other) demo_unicode demo_URLs demo_Sealer demo_Secrets (@demo_Slugs (race_env at_ other)) demo_JSONErrors
    demo_Receivers demo_Parse demo_Texts demo_cx op w.
(** The other session, which draws ids of its own. *)
Definition rival_env : Env := {|
  env_uuid := fun _ db => (hook_fresh db + 7)%N; env_now := fun n => claim_now; env_fault := fun _ => None;
  env_other := fun _ db => db; env_sheet := fun _ s => s
|}.
Definition rival (ops : list WebhookOp) (db : DB) : DB :=
  W_db (@webhook_session rival_env demo_unicode demo_URLs demo_Sealer demo_Secrets (@demo_Slugs rival_env) demo_JSONErrors
    demo_Receivers demo_Parse demo_Texts (map (pair demo_cx) ops) (mkWorld db 0)).
Definition endpoint_ids (w : World) : list uuid := map ep_ID (endpoints_of (W_db w) demo_tenant 1 2).
Definition nine_endpoints : World :=
  hook_session (repeat (demo_cx, OpHookCreate "https://up.example/x" "" [PostPublished]) 9) demo_world.

(** [Create] counts the project's endpoints before it saves, in no unit of work: of
    two that run at once over nine endpoints both succeed, and the project has eleven,
    one more than [MaxEndpointsPerProject]. *)
Theorem Create_exceeds_limit :
  let other := rival [OpHookCreate "https://up.example/y" "" [PostPublished]] in
  List.length (endpoint_ids nine_endpoints) = 9%nat
  /\ List.length (endpoints_of (other (W_db nine_endpoints)) demo_tenant 1 2) = MaxEndpointsPerProject
  /\ List.length (endpoint_ids (race (W_step nine_endpoints + 7) other (OpHookCreate "https://up.example/z" "" [PostPublished]) nine_endpoints))
     = S MaxEndpointsPerProject.
Proof. vm_compute. auto. Qed.

(** [Update] saves the endpoint it read with an upsert: when another session deletes
    the endpoint (and another one) in between, the deleted endpoint is back, with its
    secrets, and the other one stays deleted. *)
Theorem Update_revives_deleted_endpoint :
  let other := rival [OpHookDelete 100; OpHookDelete 200] in
  map ep_ID (endpoints_of (other (W_db hook_world)) demo_tenant 1 2) = [300%N]
  /\ endpoint_ids (race (W_step hook_world + 4) other (OpHookUpdate 100 "https://up.example/z" "" [PostPublished] true) hook_world)
     = [300%N; 100%N].
Proof. vm_compute. auto. Qed.
